(* ===== verification/_CoqProject ===== *)
-Q . S2P
Prelude.v
GoStrings.v
Texts.v
Encoding.v
Json.v
JsonWriter.v
Paths.v
OSFiles.v
Seams.v
Gate.v
TaskSource.v
GateSteps.v
Loop.v
Registry.v
Router.v
Envelope.v
Ingestion.v
Authz.v
Telegram.v
RunStore.v
Policy.v
AuditTrail.v
Supervisor.v
Publisher.v
RunConfig.v
Vault.v
Sandbox.v
Runtime.v
FileWalk.v
GeneratedGate.v
DocsFix.v
Recipes.v
ExecSandbox.v
Podman.v
SandboxRuntime.v
RunProtocol.v
RunLadder.v
Containment.v
Planner.v
Fleet.v
Dispatch.v
Stores.v
MemoryGuard.v
DispatchProofs.v
DispatchGate.v
Orchestrator.v
Analysis.v
ModelPlanner.v
Budget.v
Toolset.v
OllamaNative.v
Harness.v
Executors.v
ControlLoop.v
ControlPlane.v
Console.v
Calendar.v
Schedule.v
MergedSource.v
PlanScope.v
Transport.v
Reply.v
Polling.v
ChatClient.v
Cli.v
Completers.v
Daemon.v
Wiring.v
Wire.v
