(* ===== verification/Prelude.v ===== *)
(** * agent-builder: a verification library

    agent-builder is a two-tier agent fleet in Go. A channel (the console, Telegram, or
    the worker transport) delivers operator messages; the control plane routes them to
    goal actors; the orchestrator turns a goal into a plan of sub-goals, passes it through
    policy gates and human approval, and dispatches one contained worker per sub-goal; a
    worker runs a bounded pick, attempt, verify loop with an executor chosen by the
    router, and nothing is published that its verification gate did not pass. This library
    models that program as executable definitions and proves what the code promises.
    Source paths below are relative to [internal/].

    ** Files

    Foundations, shared by all components:

    - [Prelude]: results of fallible functions, 64-bit wrap-around, sorting by a Go [less]
      function, the tactics ([to_prop], the [go] hint database).
    - [GoStrings], [Encoding], [Json], [JsonWriter], [Paths], [Calendar]: what the program
      uses of the Go standard library ([strings], [strconv], [encoding/hex],
      [encoding/json], [path/filepath], [time]) on byte strings; [Json] reads every text of
      the JSON grammar ([parse_renders]) and what [JsonWriter] writes
      ([written_json_is_read_back]). [Texts] holds the lemmas on words, prose and trimming
      that the grammars of the program share.
    - [OSFiles]: a file tree with links, and path resolution in it; [FileWalk]:
      [filepath.Walk] over it.
    - [Seams]: tasks, results and typed messages ([supervisor/supervisor.go],
      [supervisor/message.go]).

    The worker:

    - [Gate] ([gate/gate.go]), [GateSteps] ([gate/go_steps.go]): named steps run in order
      until one fails, and the steps of the production gate.
    - [TaskSource] ([tasksource/]): task files, the next ready task, the status line.
    - [Loop] ([loop/]): one cycle, bounded retries, bounded re-evaluation of a denied
      action, the failure text handed to the next attempt.
    - [Registry], [Router] ([registry/], [router/]): executor entries and their
      environment; selection, escalation and quotas, against the class [CatalogLike].
    - [Supervisor] ([supervisor/]): the run of a contained loop as a state machine.
    - [Publisher], [Vault], [AuditTrail], [RunConfig] ([publisher/], [vault/] and
      [secrets/], [audit/], [runtime/config.go]): publication, tokens and daemons, the
      audit sinks, the configuration.
    - [Runtime] ([runtime/run.go]): the whole worker run; [RunProtocol], [RunLadder]: its
      theorems.
    - [Recipes] ([recipe/recipe.go]), [GeneratedGate] ([recipe/agentbuilderworker/]),
      [DocsFix] ([recipe/docsfix/]): the registry of recipes and the two recipes beside the
      coding agent, with their gates.
    - [Sandbox] ([sandbox/run.go], [tier.go]): requests and results of a contained command;
      [ExecSandbox], [Podman], [SandboxRuntime] (the directories of [sandbox/]): the three
      backends, from the request to the command line, document or settings they hand on.
    - [Toolset], [OllamaNative], [Harness], [Executors] ([executor/], [executorharness/]):
      the tools of the local executor, its loop (against the class [ToolDispatcher]), the
      reviewed harness, the command-line executors.
    - [ChatClient] ([executor/ollamaclient/], [ToolSchemas]): the chat request as the bytes
      sent, the exchange, the reading of the answer, and the tools that are offered.

    The channels and their guards:

    - [Envelope] ([envelope/], [channel/worker/transport.go]), [Ingestion]
      ([ingestion/], [armor/guard.go]), [Authz] and [Telegram] ([channel/telegram/]),
      [Reply] (the sealed replies and plain notices of Telegram, and
      [channel/worker/keymaterial.go]), [Polling] (the long poll of Telegram: the request, the
      decoding of the answer, the wait after an error, and [Next] over them).
    - [Policy] ([policy/]): the fail-closed client.
    - [Wire] ([vault/client.go], [armor/guard.go]): the exchange of the vault client on its
      connection and the run of the armor command, with their documents.

    The orchestrator:

    - [Containment] ([orchestrator/containment.go]): the own-repository bright line.
    - [Planner] ([skill/], [orchestrator/planner.go], [skills.go]): the structured planner.
    - [Fleet] ([orchestrator/semaphore.go], [registry.go]): permits, the status registry.
    - [Dispatch] ([orchestrator/orchestrator.go], [blocked_action.go], the journal writes of
      [runstore.go]): the gates, [dispatchOne] as a thread, the join. The classes
      [RunStoreLike] and [PlanStoreLike] are the stores' Go interfaces.
    - [RunStore] ([runstore/]), [MemoryGuard] ([memoryguard/],
      [orchestrator/memoryguard.go]): the crash-safe stores; [Stores]: the laws the
      orchestrator relies on ([RunStoreLaws], [PlanStoreLaws]) and their instances.
    - [DispatchProofs], [DispatchGate]: dispatch under every schedule.
    - [Orchestrator] ([orchestrator/orchestrator.go], [conversation.go], [runstore.go],
      [runtocompletion.go], [store.go]): the goal-level operations; [Budget]: the attempt
      budget across crashes.
    - [Analysis] ([orchestrator/analyzer.go], [clarifier.go], [planner/analyzer_llm.go],
      [planner/clarifier_llm.go]), [ModelPlanner] ([planner/llmplanner.go],
      [planner/fromenv.go]): understanding and planning, by rules and with a model.

    The command line ([cli/]):

    - [ControlLoop] ([goal_actor.go], [status_handler.go], [runControlLoop] and its routing
      in [orchestrate.go], the mailboxes of [router.go]): the control loop and the two
      goroutines of every goal actor, against the class [OrchLike]; [ControlPlane]: that
      class implemented by the orchestrator model, and the end-to-end theorem.
    - [Console] ([router.go]), [Schedule] and [MergedSource] ([schedule.go]): the sources of
      messages.
    - [PlanScope] ([orchestrate.go]): the policy engine configured per plan. [Transport]
      ([orchestrate_seams.go]): the dispatch of a sub-goal to a worker over signed messages.
    - [Cli] ([cli.go]), [Completers] ([ask.go], [orchestrate_answer.go], the completers of
      [executor/]), [Daemon] ([daemon.go]), [Wiring] ([orchestrate.go]): the subcommands, the
      lock of the daemon, the assembly of the control plane from the environment.

    ** How the code is represented

    A Go struct is a record, an enumeration an inductive type or the strings the code
    compares. A function returning an error yields [result] or an option of an error. Code
    that calls a seam threads an explicit state: [Loop] and [Gate] a world [W] the seams
    change; [Dispatch], [Orchestrator] and [Runtime] a record [World] with the shared
    objects, the state behind the external seams and a log of the calls made to them.
    Instants and durations are nanoseconds in [Z]; 64-bit arithmetic wraps ([wrap64])
    where it can be reached.

    Concurrency is explicit. A goroutine is a program counter ([Pc] of a dispatch, [Main]
    and [Drain] of a goal actor, the states of [Supervisor], [MergedSource] and [Daemon]),
    one step makes one access to what is shared, and a schedule is a list of turns; a
    select statement takes the case its turn names, if that case is ready. Safety theorems
    hold for every schedule. That operations complete is proved apart: no run of the
    dispatching goroutines is infinite and some continuation always reaches the join
    ([dispatch_join_is_always_reached]), a cancelled run returns
    ([cancelled_run_always_returns]), and the control plane has no deadlock of its own
    ([control_plane_rests_only_on_the_operator]).

    Recursion is structural, on the list walked or on the bound the code itself has
    (attempts, replans, catalog entries). Fuel is used where it is not: the decimal
    formatters ([fmt_fuel], proved enough by [fmt_fuel_enough]), the JSON reader (twice
    the length plus two, enough by [parse_renders]), the decoding of a reply within a reply
    (the nesting of the value), the walk of a file tree ([walk_fuel],
    the longest path, enough by [walk_finds]), the search for the repository root (the ten
    levels of the code), the resolution of links (the limits 40
    and 255 of the operating system and of [filepath.EvalSymlinks]), the readiness poll
    ([wait_fuel], 60 steps for at most 52 polls), the lines of the console (the bytes
    left plus one, as each line takes one), the life of a daemon ([daemon_fuel], nine
    steps besides one per record; [daemon_returns_and_restores_the_lock] shows it ends).
    Loops that run until shutdown recurse on the list of what they are given.

    Code that is not in the repository is a parameter: the policy, armor, vault, audit and
    memory-guard services, models and their command lines, [crypto/ed25519] and
    [nacl/box], [net/url], SHA-256, the file system's faults. What is relied on of it is
    a named hypothesis of the theorem ([codec_ok], [keys_agree], [parses_own_host],
    [honest_engine], [mkdir_temp_fresh]), and the theorem's witness instantiates it. JSON codecs are
    parameters where the code only stores and reloads its own values, and [Json] where it
    reads what a model wrote. Unicode case folding outside ASCII is the parameter [uni].
    Debug logging and error texts that no caller reads are left out.

    ** What the theorems show

    - Dispatch (C1 to C4): no worker starts ungated, no denial goes unaudited, the worker
      cap holds, the join is reached, under every schedule.
    - Approval and recovery (C5 to C8): an approval is checked and used once, a plan runs
      only when allowed, the attempt budget survives crashes, completed work is not
      repeated.
    - The journal (C9, C10): refinement of a map; a crash anywhere leaves the state before
      or after the operation.
    - The worker run (C11 to C15): the protocol of its effects, publication of verified
      work only, the executor ladder, the life of the box, the return after cancellation.
    - The control plane (C16 to C20): whatever messages arrive in whatever order, no
      worker starts ungated; deadlock freedom, isolation of cancellation, routing of
      commands, the cap on goals.
    - Out of the box and into it (C21, C28, C31, C32): a reply reaches the operator sealed
      and signed; the long poll looks at every update once and in order; only the result
      of the sandbox block is returned; a generated recipe passes the worker's gate only
      after the checks.
    - The command line (C22 to C27): the merged source, the policy engine of a plan, the
      transport of a dispatch, the daemon and its lock, the assembly of the Telegram
      channel.
    - Models in the loop (C29, C30): plans a model writes are read back and are admissible.
    - Guarded state and tools (C33 to C36): the second store as an instance of the first,
      reads that were vetted, commands and writes of the tool set.
    - The boundary (C37 to C40): envelopes, Telegram messages, routing, the own repository.

    The other theorems of the files state the behaviour of single operations (selection
    of tasks, quotas, replay, redaction, ingestion, audit sinks, the console grammar, the
    scheduler, the analysis of a goal, the flags, the launchers of the sandboxes) and, as examples, where the code departs from its comments.

    ** Not modelled

    The HTTP exchanges themselves, the Go parser, sockets and processes, the usage texts,
    the refusal of nil arguments by constructors, the entry point, the examples, the
    scripts and the helpers of tests: code outside the
    repository, constant texts, or glue without state of its own. *)

From stdpp Require Import base gmap strings list sorting.
From Stdlib Require Import ZArith Lia.

(** ** Results of fallible Go functions *)

(** A Go function returning [(A, error)] yields [Ok a] when the error is nil
    and [Err e] otherwise; the value returned beside a non-nil error is kept
    in the error only where a caller reads it. *)
Inductive result (E A : Type) : Type :=
| Ok (a : A)
| Err (e : E).
Arguments Ok {E A} a.
Arguments Err {E A} e.

Declare Scope go_scope.
Delimit Scope go_scope with go.
Open Scope go_scope.

Notation "'let?' x ':=' c 'in' k" :=
  (match c with Ok x => k | Err e => Err e end)
  (at level 10, x pattern, c at level 100, k at level 200) : go_scope.

Definition is_ok {E A} (r : result E A) : bool :=
  match r with Ok _ => true | Err _ => false end.

(** ** Tactics *)

Create HintDb go.

(** Turn the boolean tests of the code into propositions. *)
Ltac to_prop :=
  repeat match goal with
  | H : (_ && _) = true |- _ => apply andb_true_iff in H as [? ?]
  | H : (_ || _) = false |- _ => apply orb_false_iff in H as [? ?]
  | H : negb _ = true |- _ => apply negb_true_iff in H
  | H : negb _ = false |- _ => apply negb_false_iff in H
  | H : (_ =? _)%Z = true |- _ => apply Z.eqb_eq in H
  | H : (_ =? _)%Z = false |- _ => apply Z.eqb_neq in H
  | H : (_ <? _)%Z = true |- _ => apply Z.ltb_lt in H
  | H : (_ <? _)%Z = false |- _ => apply Z.ltb_ge in H
  | H : (_ <=? _)%Z = true |- _ => apply Z.leb_le in H
  | H : (_ <=? _)%Z = false |- _ => apply Z.leb_gt in H
  | H : String.eqb _ _ = true |- _ => apply String.eqb_eq in H
  | H : String.eqb _ _ = false |- _ => apply String.eqb_neq in H
  | H : bool_decide _ = true |- _ => apply bool_decide_eq_true in H
  | H : bool_decide _ = false |- _ => apply bool_decide_eq_false in H
  end.

(** Case analysis on every [match]/[if] of goal and hypotheses. *)
Ltac go_cases := repeat (case_match || simplify_eq/=); to_prop.

(** ** Machine integers *)

Definition int64_min : Z := (- 2 ^ 63)%Z.
Definition int64_max : Z := (2 ^ 63 - 1)%Z.

(** Two's complement wrap-around of a 64-bit signed integer. *)
Definition wrap64 (z : Z) : Z := ((z + 2 ^ 63) mod 2 ^ 64 - 2 ^ 63)%Z.

Definition in_int64 (z : Z) : bool := ((int64_min <=? z) && (z <=? int64_max))%Z.

Lemma wrap64_small (z : Z) : (int64_min <= z <= int64_max)%Z -> wrap64 z = z.
Proof.
  unfold wrap64, int64_min, int64_max. intros H.
  rewrite Z.mod_small; lia.
Qed.

Lemma in_int64_spec (z : Z) : in_int64 z = true <-> (int64_min <= z <= int64_max)%Z.
Proof. unfold in_int64. rewrite andb_true_iff, !Z.leb_le. tauto. Qed.

(** ** Stable sorting by a boolean [less]

    [sort.SliceStable] is specified by the sortedness and the stability of its
    result; the insertion below has both. *)
Section SortBy.
Context {A : Type} (less : A -> A -> bool).

Fixpoint insert_by (x : A) (l : list A) : list A :=
  match l with
  | [] => [x]
  | y :: l' => if less y x then y :: insert_by x l' else x :: l
  end.

Definition sort_by (l : list A) : list A := foldr insert_by [] l.

Lemma insert_by_perm x l : insert_by x l ≡ₚ x :: l.
Proof.
  induction l as [|y l IH]; simpl; [done|].
  destruct (less y x); [|done]. rewrite IH. constructor.
Qed.

Lemma sort_by_perm l : sort_by l ≡ₚ l.
Proof.
  induction l as [|x l IH]; simpl; [done|].
  by rewrite insert_by_perm, IH.
Qed.

Lemma sort_by_elem x l : x ∈ sort_by l <-> x ∈ l.
Proof. by rewrite sort_by_perm. Qed.

Lemma sort_by_length l : length (sort_by l) = length l.
Proof. by rewrite sort_by_perm. Qed.

Hypothesis less_asym : forall x y, less x y = true -> less y x = false.
Hypothesis nless_trans : forall x y z,
  less y x = false -> less z y = false -> less z x = false.

Definition nless (x y : A) : Prop := less y x = false.

Lemma insert_by_sorted x l :
  StronglySorted nless l -> StronglySorted nless (insert_by x l).
Proof.
  induction 1 as [|y l Hl IH Hy]; simpl; [repeat constructor|].
  destruct (less y x) eqn:E.
  - constructor; [done|]. rewrite insert_by_perm.
    constructor; [by apply less_asym | done].
  - constructor; [by constructor|]. constructor; [done|].
    eapply Forall_impl; [exact Hy|]. intros z Hz.
    unfold nless in *. by eapply nless_trans.
Qed.

Lemma sort_by_sorted l : StronglySorted nless (sort_by l).
Proof. induction l; simpl; [constructor | by apply insert_by_sorted]. Qed.

(** The head of the sorted list has no smaller element. *)
Lemma sort_by_head_min l m rest :
  sort_by l = m :: rest -> m ∈ l /\ forall y, y ∈ l -> less y m = false.
Proof.
  intros E. pose proof (sort_by_sorted l) as Hs. rewrite E in Hs.
  apply StronglySorted_inv in Hs as [_ Hf].
  assert (Hm : m ∈ l) by (rewrite <- sort_by_elem, E; left).
  split; [done|]. intros y Hy.
  rewrite <- sort_by_elem, E in Hy. apply elem_of_cons in Hy as [->|Hy].
  - destruct (less m m) eqn:Em; [|done]. by rewrite (less_asym _ _ Em) in Em.
  - rewrite Forall_forall in Hf. by apply Hf.
Qed.
End SortBy.
