(* ===== verification/GoStrings.v ===== *)
(** * The Go string library, on byte strings

    A Go string is a sequence of bytes; here a [string] of 8-bit [ascii]s.
    The functions below are the ones of packages [strings] and [strconv] the
    program calls. White space is Unicode white space in its UTF-8 encoding,
    recognised byte by byte: no encoding of a space starts with a UTF-8
    continuation byte, so scanning bytes and scanning runes agree. *)

From stdpp Require Import base gmap strings list.
From Stdlib Require Import ZArith Lia Ascii.
From S2P Require Import Prelude.

Local Open Scope Z_scope.

Definition byte_of (c : ascii) : Z := Z.of_N (N_of_ascii c).

(** The newline byte. *)
Definition nl : ascii := ascii_of_N 10.

Definition in_range (lo hi : Z) (c : ascii) : bool :=
  (lo <=? byte_of c) && (byte_of c <=? hi).

Definition is_byte (b : Z) (c : ascii) : bool := byte_of c =? b.

(** The ASCII white space of [asciiSpace]: tab, LF, VT, FF, CR and blank. *)
Definition ascii_space (c : ascii) : bool := in_range 9 13 c || is_byte 32 c.

(** Number of bytes of the white space rune at the start of [s], 0 if [s]
    does not start with one: U+0085, U+00A0, U+1680, U+2000 to U+200A, U+2028,
    U+2029, U+202F, U+205F and U+3000 beside the ASCII ones. *)
Definition space_len (s : string) : nat :=
  match s with
  | String a s1 =>
    if ascii_space a then 1%nat else
    match s1 with
    | String b s2 =>
      if is_byte 0xC2 a && (is_byte 0x85 b || is_byte 0xA0 b) then 2%nat else
      match s2 with
      | String c _ =>
        if (is_byte 0xE1 a && is_byte 0x9A b && is_byte 0x80 c)
           || (is_byte 0xE2 a && is_byte 0x80 b
               && (in_range 0x80 0x8A c || in_range 0xA8 0xA9 c || is_byte 0xAF c))
           || (is_byte 0xE2 a && is_byte 0x81 b && is_byte 0x9F c)
           || (is_byte 0xE3 a && is_byte 0x80 b && is_byte 0x80 c)
        then 3%nat else 0%nat
      | EmptyString => 0%nat
      end
    | EmptyString => 0%nat
    end
  | EmptyString => 0%nat
  end.

(** The same for the reversed string, to trim at the end. *)
Definition rspace_len (s : string) : nat :=
  match s with
  | String c s1 =>
    if ascii_space c then 1%nat else
    match s1 with
    | String b s2 =>
      if (2 =? Z.of_nat (space_len (String b (String c EmptyString)))) then 2%nat else
      match s2 with
      | String a _ =>
        if (3 =? Z.of_nat (space_len (String a (String b (String c EmptyString)))))
        then 3%nat else 0%nat
      | EmptyString => 0%nat
      end
    | EmptyString => 0%nat
    end
  | EmptyString => 0%nat
  end.

Section Drop.
Variable sp : string -> nat.

(** Drop leading runes as long as [sp] sees one. *)
Fixpoint drop_spaces (s : string) : string :=
  match s with
  | EmptyString => EmptyString
  | String _ s1 =>
    match sp s with
    | 0%nat => s
    | 1%nat => drop_spaces s1
    | 2%nat => match s1 with String _ s2 => drop_spaces s2 | EmptyString => EmptyString end
    | _ => match s1 with
           | String _ (String _ s3) => drop_spaces s3
           | _ => EmptyString
           end
    end
  end.
End Drop.

Definition trim_left_space (s : string) : string := drop_spaces space_len s.
Definition trim_right_space (s : string) : string :=
  String.rev (drop_spaces rspace_len (String.rev s)).

(** [strings.TrimSpace]. *)
Definition TrimSpace (s : string) : string := trim_right_space (trim_left_space s).

(** [strings.TrimSpace(s) == ""]. *)
Definition blank (s : string) : bool := String.eqb (TrimSpace s) "".

(** [strings.Fields]: the maximal runs of non-space bytes. [cur] is the field
    being read, reversed. *)
Fixpoint fields_from (skip : nat) (cur : string) (s : string) : list string :=
  let flush := if String.eqb cur "" then [] else [String.rev cur] in
  match s with
  | EmptyString => flush
  | String c s1 =>
    match skip with
    | S k => fields_from k cur s1
    | O => match space_len s with
           | O => fields_from 0 (String c cur) s1
           | S k => flush ++ fields_from k "" s1
           end
    end
  end.
Definition Fields (s : string) : list string := fields_from 0 "" s.

(** [strings.FieldsFunc] with a predicate on single-byte runes. *)
Fixpoint fields_func_from (p : ascii -> bool) (cur : string) (s : string) : list string :=
  let flush := if String.eqb cur "" then [] else [String.rev cur] in
  match s with
  | EmptyString => flush
  | String c s1 => if p c then flush ++ fields_func_from p "" s1
                   else fields_func_from p (String c cur) s1
  end.
Definition FieldsFunc (p : ascii -> bool) (s : string) : list string := fields_func_from p "" s.

(** [strings.Split] on a one-byte separator. *)
Fixpoint split_from (sep : ascii) (cur : string) (s : string) : list string :=
  match s with
  | EmptyString => [String.rev cur]
  | String c s1 => if Ascii.eqb c sep then String.rev cur :: split_from sep "" s1
                   else split_from sep (String c cur) s1
  end.
Definition Split (sep : ascii) (s : string) : list string := split_from sep "" s.

(** [strings.HasPrefix], [strings.HasSuffix], [strings.Contains]. *)
Definition HasPrefix (s p : string) : bool := String.prefix p s.
Definition HasSuffix (s p : string) : bool := String.prefix (String.rev p) (String.rev s).
Fixpoint Contains (s p : string) : bool :=
  String.prefix p s || match s with String _ s1 => Contains s1 p | EmptyString => false end.

(** [strings.IndexByte]: the position of the first byte [b], or -1. *)
Fixpoint index_byte_from (i : nat) (s : string) (b : ascii) : option nat :=
  match s with
  | EmptyString => None
  | String c s1 => if Ascii.eqb c b then Some i else index_byte_from (S i) s1 b
  end.
Definition IndexByte (s : string) (b : ascii) : option nat := index_byte_from 0 s b.

(** Slices [s[:n]] and [s[n:]] within range. *)
Fixpoint str_take (n : nat) (s : string) : string :=
  match n, s with S k, String c s1 => String c (str_take k s1) | _, _ => "" end.
Fixpoint str_drop (n : nat) (s : string) : string :=
  match n, s with
  | O, _ => s
  | S k, String _ s1 => str_drop k s1
  | S _, EmptyString => ""
  end.

(** [strings.TrimLeft], [strings.Trim], [strings.TrimRight] with a set of ASCII bytes. *)
Fixpoint TrimLeft (p : ascii -> bool) (s : string) : string :=
  match s with String c s1 => if p c then TrimLeft p s1 else s | EmptyString => "" end.
Definition Trim (p : ascii -> bool) (s : string) : string :=
  String.rev (TrimLeft p (String.rev (TrimLeft p s))).

Definition TrimRight (p : ascii -> bool) (s : string) : string :=
  String.rev (TrimLeft p (String.rev s)).

(** [strings.TrimPrefix], [strings.TrimSuffix]. *)
Definition TrimPrefix (s p : string) : string :=
  if HasPrefix s p then str_drop (String.length p) s else s.
Definition TrimSuffix (s p : string) : string :=
  if HasSuffix s p then str_take (String.length s - String.length p) s else s.

(** [strings.Join]. *)
Fixpoint Join (sep : string) (l : list string) : string :=
  match l with
  | [] => ""
  | [x] => x
  | x :: l' => x +:+ sep +:+ Join sep l'
  end.

Fixpoint str_map (f : ascii -> ascii) (s : string) : string :=
  match s with String c s1 => String (f c) (str_map f s1) | EmptyString => "" end.
Fixpoint str_forall (p : ascii -> bool) (s : string) : bool :=
  match s with String c s1 => p c && str_forall p s1 | EmptyString => true end.

Definition ascii_lower (c : ascii) : ascii :=
  if in_range 65 90 c then ascii_of_N (N_of_ascii c + 32)%N else c.
Definition ascii_upper (c : ascii) : ascii :=
  if in_range 97 122 c then ascii_of_N (N_of_ascii c - 32)%N else c.
Definition is_ascii (s : string) : bool := str_forall (in_range 0 127) s.

(** [strings.ToLower]: byte-wise on ASCII strings; a string with a byte above
    0x7f goes through the Unicode case tables, the argument [uni]. *)
Definition ToLower (uni : string -> string) (s : string) : string :=
  if is_ascii s then str_map ascii_lower s else uni s.

(** [strings.ReplaceAll] of one byte by another. *)
Definition ReplaceByte (a b : ascii) (s : string) : string :=
  str_map (fun c => if Ascii.eqb c a then b else c) s.

(** ** Decimal integers *)

Definition is_digit (c : ascii) : bool := in_range 48 57 c.
Definition digit_val (c : ascii) : Z := byte_of c - 48.

(** Value of a string of digits, [None] when another byte occurs. *)
Fixpoint digits_val (acc : Z) (s : string) : option Z :=
  match s with
  | EmptyString => Some acc
  | String c s1 => if is_digit c then digits_val (acc * 10 + digit_val c) s1 else None
  end.

Definition parse_digits (s : string) : option Z :=
  if String.eqb s "" then None else digits_val 0 s.

(** [strconv.ParseInt(s, 10, 64)] (and [strconv.Atoi] on a 64-bit target):
    [None] stands for a syntax or a range error. *)
Definition ParseInt (s : string) : option Z :=
  let signed :=
    match s with
    | String c s1 => if Ascii.eqb c "-" then (Z.opp <$> parse_digits s1)
                     else if Ascii.eqb c "+" then parse_digits s1
                     else parse_digits s
    | EmptyString => None
    end in
  match signed with
  | Some n => if in_int64 n then Some n else None
  | None => None
  end.

Definition digit_char (d : Z) : ascii := ascii_of_N (Z.to_N (48 + d)).

(** Digits of a positive number, most significant first. *)
Fixpoint fmt_digits (fuel : nat) (n : Z) (acc : string) : string :=
  match fuel with
  | O => acc
  | S f => if n <=? 0 then acc else fmt_digits f (n / 10) (String (digit_char (n mod 10)) acc)
  end.

(** Fuel: a positive number has at most as many decimal as binary digits. *)
Definition fmt_fuel (n : Z) : nat := Z.to_nat (Z.log2_up (n + 1)) + 1.

Definition format_nonneg (n : Z) : string :=
  if n =? 0 then "0" else fmt_digits (fmt_fuel n) n "".

(** [strconv.FormatInt(n, 10)], and [%d]. *)
Definition FormatInt (n : Z) : string :=
  if n <? 0 then String "-" (format_nonneg (- n)) else format_nonneg n.

(** ** Lemmas *)

Lemma str_app_nil_r s : s +:+ "" = s.
Proof. induction s as [|c s IH]; [done|]. change (String c (s +:+ "") = String c s). by rewrite IH. Qed.

Lemma str_app_assoc s t u : (s +:+ t) +:+ u = s +:+ t +:+ u.
Proof. induction s as [|c s IH]; [done|]. change (String c ((s +:+ t) +:+ u) = String c (s +:+ t +:+ u)). by rewrite IH. Qed.

Lemma str_app_cons c s t : String c s +:+ t = String c (s +:+ t).
Proof. done. Qed.

Lemma str_length_app s t : String.length (s +:+ t) = (String.length s + String.length t)%nat.
Proof. induction s as [|c s IH]; [done|]. rewrite str_app_cons. simpl. by rewrite IH. Qed.

Lemma rev_app_spec s t : String.rev_app s t = String.rev s +:+ t.
Proof.
  unfold String.rev. revert t. induction s as [|c s IH]; intros t; [done|].
  simpl. rewrite IH, (IH (String c "")), str_app_assoc. done.
Qed.

Lemma rev_cons c s : String.rev (String c s) = String.rev s +:+ String c "".
Proof. unfold String.rev at 1. simpl. by rewrite rev_app_spec. Qed.

Lemma rev_str_app s t : String.rev (s +:+ t) = String.rev t +:+ String.rev s.
Proof.
  induction s as [|c s IH].
  - change (String.rev t = String.rev t +:+ ""). by rewrite str_app_nil_r.
  - rewrite str_app_cons, !rev_cons, IH. by rewrite str_app_assoc.
Qed.

Lemma rev_involutive s : String.rev (String.rev s) = s.
Proof.
  induction s as [|c s IH]; [done|].
  rewrite rev_cons, rev_str_app, IH. done.
Qed.

Lemma str_forall_app p s t : str_forall p (s +:+ t) = str_forall p s && str_forall p t.
Proof.
  induction s as [|c s IH]; [done|]. rewrite str_app_cons. simpl.
  rewrite IH. by rewrite andb_assoc.
Qed.

Lemma str_forall_rev p s : str_forall p (String.rev s) = str_forall p s.
Proof.
  induction s as [|c s IH]; [done|]. rewrite rev_cons, str_forall_app, IH. simpl.
  rewrite andb_true_r. apply andb_comm.
Qed.

Lemma byte_of_bound c : 0 <= byte_of c < 256.
Proof. unfold byte_of. pose proof (N_ascii_bounded c). lia. Qed.

Lemma byte_of_digit_char d : 0 <= d < 10 -> byte_of (digit_char d) = 48 + d.
Proof.
  intros H. unfold byte_of, digit_char. rewrite N_ascii_embedding; lia.
Qed.

Lemma is_digit_digit_char d : 0 <= d < 10 -> is_digit (digit_char d) = true.
Proof.
  intros H. unfold is_digit, in_range. rewrite byte_of_digit_char by done.
  apply andb_true_iff; split; apply Z.leb_le; lia.
Qed.

Lemma digit_val_digit_char d : 0 <= d < 10 -> digit_val (digit_char d) = d.
Proof. intros H. unfold digit_val. rewrite byte_of_digit_char; lia. Qed.

Lemma fmt_digits_val fuel n acc :
  0 <= n < 2 ^ Z.of_nat fuel -> digits_val 0 (fmt_digits fuel n acc) = digits_val n acc.
Proof.
  revert n acc. induction fuel as [|f IH]; intros n acc H.
  - simpl. assert (n = 0) as -> by (change (2 ^ Z.of_nat 0) with 1 in H; lia). done.
  - simpl. destruct (n <=? 0) eqn:E; to_prop; [by assert (n = 0) as -> by lia|].
    assert (0 <= n mod 10 < 10) by (apply Z.mod_pos_bound; lia).
    rewrite Nat2Z.inj_succ, Z.pow_succ_r in H by lia.
    rewrite IH by (split; [apply Z.div_pos; lia | apply Z.div_lt_upper_bound; lia]).
    simpl. rewrite is_digit_digit_char, digit_val_digit_char by done.
    rewrite Z.mul_comm, <- Z.div_mod by lia. done.
Qed.

Lemma fmt_digits_all fuel n acc :
  str_forall is_digit acc = true -> str_forall is_digit (fmt_digits fuel n acc) = true.
Proof.
  revert n acc. induction fuel as [|f IH]; intros n acc H; simpl; [done|].
  destruct (n <=? 0); [done|]. apply IH. simpl.
  rewrite is_digit_digit_char by (apply Z.mod_pos_bound; lia). done.
Qed.

Lemma fmt_fuel_enough n : 0 <= n -> n < 2 ^ Z.of_nat (fmt_fuel n).
Proof.
  intros H. unfold fmt_fuel.
  pose proof (Z.log2_up_nonneg (n + 1)).
  rewrite Nat2Z.inj_add, Z2Nat.id by done. rewrite Z.pow_add_r by lia.
  assert (n + 1 <= 2 ^ Z.log2_up (n + 1)).
  { destruct (decide (n = 0)) as [->|]; [done|]. apply Z.log2_up_spec. lia. }
  simpl. lia.
Qed.

Lemma format_nonneg_digits n : 0 <= n -> str_forall is_digit (format_nonneg n) = true.
Proof.
  intros H. unfold format_nonneg. destruct (n =? 0); [done|]. by apply fmt_digits_all.
Qed.

Lemma fmt_digits_nonempty fuel n acc :
  acc <> "" -> fmt_digits fuel n acc <> "".
Proof.
  revert n acc. induction fuel as [|f IH]; intros n acc H; simpl; [done|].
  destruct (n <=? 0); [done|]. by apply IH.
Qed.

Lemma format_nonneg_nonempty n : 0 <= n -> format_nonneg n <> "".
Proof.
  intros H. unfold format_nonneg. destruct (n =? 0) eqn:E; [done|]. to_prop.
  unfold fmt_fuel. rewrite Nat.add_comm. simpl.
  assert ((n <=? 0) = false) as -> by (apply Z.leb_gt; lia).
  by apply fmt_digits_nonempty.
Qed.

Lemma parse_format_nonneg n : 0 <= n -> parse_digits (format_nonneg n) = Some n.
Proof.
  intros H. unfold parse_digits.
  assert (String.eqb (format_nonneg n) "" = false) as ->
    by (apply String.eqb_neq; by apply format_nonneg_nonempty).
  unfold format_nonneg. destruct (n =? 0) eqn:E; to_prop; [by subst|].
  rewrite fmt_digits_val; [done|]. split; [done|]. by apply fmt_fuel_enough.
Qed.

Lemma digits_no_sign s c s1 :
  str_forall is_digit s = true -> s = String c s1 -> Ascii.eqb c "-" = false /\ Ascii.eqb c "+" = false.
Proof.
  intros H ->. simpl in H. to_prop.
  split; apply Ascii.eqb_neq; intros ->; vm_compute in *; done.
Qed.

(** Printing then parsing a 64-bit integer gives it back. *)
Lemma ParseInt_FormatInt n : in_int64 n = true -> ParseInt (FormatInt n) = Some n.
Proof.
  intros Hn. unfold FormatInt. destruct (n <? 0) eqn:E; to_prop.
  - unfold ParseInt. rewrite Ascii.eqb_refl, parse_format_nonneg by lia. simpl.
    by rewrite Z.opp_involutive, Hn.
  - pose proof (format_nonneg_digits n E) as Hd.
    pose proof (parse_format_nonneg n E) as Hp.
    unfold ParseInt. destruct (format_nonneg n) as [|c s1] eqn:Ef; [done|].
    destruct (digits_no_sign _ c s1 Hd eq_refl) as [-> ->]. by rewrite Hp, Hn.
Qed.

Lemma FormatInt_inj n m :
  in_int64 n = true -> in_int64 m = true -> FormatInt n = FormatInt m -> n = m.
Proof.
  intros Hn Hm E. pose proof (ParseInt_FormatInt n Hn) as Hp.
  rewrite E, ParseInt_FormatInt in Hp by done. by simplify_eq.
Qed.

Lemma ParseInt_range s n : ParseInt s = Some n -> in_int64 n = true.
Proof. unfold ParseInt. intros. go_cases; done. Qed.

(** *** Trimming *)

(** A byte that is neither ASCII white space nor part of a multi-byte one. *)
Definition plain (c : ascii) : bool := in_range 0 127 c && negb (ascii_space c).

Lemma plain_space_len c s : plain c = true -> space_len (String c s) = 0%nat.
Proof.
  unfold plain. intros H. to_prop. unfold space_len.
  assert (ascii_space c = false) as -> by done.
  assert (forall b, 127 < b -> is_byte b c = false) as Hb.
  { intros b Hb. unfold is_byte, in_range in *. to_prop. apply Z.eqb_neq. lia. }
  rewrite !Hb by lia. destruct s as [|b [|d s]]; done.
Qed.

Lemma space_len_ascii b c : is_byte 0x85 c = false -> is_byte 0xA0 c = false ->
  ascii_space b = false -> space_len (String b (String c "")) = 0%nat.
Proof. intros H1 H2 H3. simpl. rewrite H3, H1, H2. simpl. by rewrite andb_false_r. Qed.

Lemma plain_rspace_len c s : plain c = true -> rspace_len (String c s) = 0%nat.
Proof.
  unfold plain. intros H. to_prop.
  assert (forall b, 127 < b -> is_byte b c = false) as Hb.
  { intros b Hb. unfold is_byte, in_range in *. to_prop. apply Z.eqb_neq. lia. }
  assert (forall lo hi, 127 < lo -> in_range lo hi c = false) as Hr.
  { intros lo hi Hb'. unfold in_range in *. to_prop. apply andb_false_iff. left. apply Z.leb_gt. lia. }
  unfold rspace_len. assert (ascii_space c = false) as -> by done.
  destruct s as [|b s]; [done|].
  assert ((Z.of_nat (space_len (String b (String c ""))) =? 2) = false) as E2.
  { simpl. destruct (ascii_space b); [done|]. rewrite !Hb by lia. rewrite andb_false_r. done. }
  rewrite Z.eqb_sym in E2. rewrite E2.
  destruct s as [|a s]; [done|].
  assert ((3 =? Z.of_nat (space_len (String a (String b (String c ""))))) = false) as E3.
  { unfold space_len. rewrite (Hb 0x80), (Hb 0x9F), (Hb 0xAF), !Hr by lia.
    rewrite !andb_false_r. simpl.
    repeat match goal with |- context [if ?t then _ else _] => destruct t end; done. }
  by rewrite E3.
Qed.

Lemma drop_spaces_app sp w s :
  (forall c t, ascii_space c = true -> sp (String c t) = 1%nat) ->
  str_forall ascii_space w = true -> drop_spaces sp (w +:+ s) = drop_spaces sp s.
Proof.
  intros Hsp. induction w as [|c w IH]; intros H; [done|].
  rewrite str_app_cons. simpl in H. to_prop. simpl. rewrite Hsp by done. by apply IH.
Qed.

Lemma space_len_space c t : ascii_space c = true -> space_len (String c t) = 1%nat.
Proof. intros H. unfold space_len. by rewrite H. Qed.
Lemma rspace_len_space c t : ascii_space c = true -> rspace_len (String c t) = 1%nat.
Proof. intros H. unfold rspace_len. by rewrite H. Qed.

Lemma drop_spaces_stop sp s :
  match s with String c t => sp (String c t) = 0%nat | EmptyString => True end ->
  drop_spaces sp s = s.
Proof. destruct s; [done|]. simpl. by intros ->. Qed.

(** Surrounding ASCII white space of a non-empty plain string is dropped. *)
Lemma TrimSpace_pad w1 s w2 :
  str_forall ascii_space w1 = true -> str_forall ascii_space w2 = true ->
  str_forall plain s = true -> s <> "" ->
  TrimSpace (w1 +:+ s +:+ w2) = s.
Proof.
  intros H1 H2 Hs Hne. unfold TrimSpace, trim_left_space, trim_right_space.
  rewrite drop_spaces_app by (auto using space_len_space).
  rewrite (drop_spaces_stop space_len).
  2: { destruct s as [|c s]; [done|]. simpl in Hs. to_prop. by apply plain_space_len. }
  rewrite rev_str_app, drop_spaces_app
    by (first [apply rspace_len_space | by rewrite str_forall_rev]).
  rewrite drop_spaces_stop; [by rewrite rev_involutive|].
  rewrite <- str_forall_rev in Hs.
  destruct (String.rev s) as [|c s'] eqn:E; [done|].
  simpl in Hs. to_prop. by apply plain_rspace_len.
Qed.

Lemma digit_plain c : is_digit c = true -> plain c = true.
Proof.
  unfold is_digit, plain, ascii_space, is_byte, in_range. intros. to_prop.
  apply andb_true_iff; split; [apply andb_true_iff; split; apply Z.leb_le; lia|].
  apply negb_true_iff, orb_false_iff; split; [apply andb_false_iff; right; apply Z.leb_gt; lia|].
  apply Z.eqb_neq; lia.
Qed.

Lemma str_forall_impl (p q : ascii -> bool) s :
  (forall c, p c = true -> q c = true) -> str_forall p s = true -> str_forall q s = true.
Proof.
  intros Hpq. induction s as [|c s IH]; simpl; [done|]. intros H. to_prop.
  apply andb_true_iff; split; auto.
Qed.

Lemma FormatInt_plain n : str_forall plain (FormatInt n) = true /\ FormatInt n <> "".
Proof.
  unfold FormatInt. destruct (n <? 0) eqn:E; to_prop.
  - split; [|done]. simpl.
    eapply str_forall_impl; [exact digit_plain|]. apply format_nonneg_digits. lia.
  - split; [|by apply format_nonneg_nonempty].
    eapply str_forall_impl; [exact digit_plain|]. by apply format_nonneg_digits.
Qed.

(** *** Prefixes and suffixes *)

Lemma prefix_app p s : String.prefix p s = true -> s = p +:+ str_drop (String.length p) s.
Proof.
  revert s. induction p as [|c p IH]; intros s H; [done|].
  destruct s as [|d s]; [done|]. simpl in H. destruct (ascii_dec c d); [|done]. subst.
  rewrite str_app_cons. simpl. by rewrite <- IH.
Qed.

Lemma str_prefix_cons c d p s : String.prefix (String c p) (String d s) = true <-> c = d /\ String.prefix p s = true.
Proof. simpl. destruct (ascii_dec c d); split; try done; by intros [? ?]. Qed.

Lemma prefix_of_app p s : String.prefix p (p +:+ s) = true.
Proof.
  induction p as [|c p IH]; [by destruct s|]. rewrite str_app_cons. simpl.
  by destruct (ascii_dec c c).
Qed.

Lemma str_take_app s t : str_take (String.length s) (s +:+ t) = s.
Proof. induction s as [|c s IH]; [by destruct t|]. rewrite str_app_cons. simpl. by rewrite IH. Qed.
Lemma str_take_all n s : (String.length s <= n)%nat -> str_take n s = s.
Proof. revert n. induction s as [|c s IH]; intros [|n] H; simpl in *; try done; [lia|]. by rewrite IH by lia. Qed.

Lemma str_take_le n s : (String.length (str_take n s) <= n)%nat.
Proof. revert n. induction s as [|c s IH]; intros [|n]; simpl; [lia..|]. specialize (IH n). lia. Qed.

Lemma str_drop_app s t : str_drop (String.length s) (s +:+ t) = t.
Proof. induction s as [|c s IH]; [by destruct t|]. rewrite str_app_cons. simpl. by rewrite IH. Qed.

(** A suffix splits the string, and the slices cut it there. *)
Lemma HasSuffix_split s p :
  HasSuffix s p = true ->
  exists q, s = q +:+ p /\ str_take (String.length s - String.length p) s = q /\
            str_drop (String.length s - String.length p) s = p.
Proof.
  unfold HasSuffix. intros H. apply prefix_app in H.
  remember (str_drop _ _) as q eqn:Eq. clear Eq.
  apply (f_equal String.rev) in H. rewrite rev_involutive, rev_str_app, rev_involutive in H.
  exists (String.rev q). rewrite H, str_length_app.
  replace (String.length (String.rev q) + String.length p - String.length p)%nat
    with (String.length (String.rev q)) by lia.
  by rewrite str_take_app, str_drop_app.
Qed.

Lemma HasSuffix_app q p : HasSuffix (q +:+ p) p = true.
Proof. unfold HasSuffix. rewrite rev_str_app. apply prefix_of_app. Qed.

(** *** The byte-wise order *)

Lemma ltb_false_leb s t : String.ltb t s = false <-> String.leb s t = true.
Proof.
  unfold String.ltb, String.leb. rewrite (String.compare_antisym s t).
  destruct (String.compare t s); simpl; split; congruence.
Qed.

Lemma leb_trans s t u : String.leb s t = true -> String.leb t u = true -> String.leb s u = true.
Proof.
  intros H1 H2. apply Is_true_true. apply (transitivity (R := String.le) (y := t));
    by apply Is_true_true.
Qed.

Lemma ltb_asym s t : String.ltb s t = true -> String.ltb t s = false.
Proof.
  unfold String.ltb. rewrite (String.compare_antisym s t). by destruct (String.compare t s).
Qed.

Lemma ltb_irrefl s : String.ltb s s = false.
Proof. destruct (String.ltb s s) eqn:E; [|done]. by rewrite (ltb_asym _ _ E) in E. Qed.

Lemma ltb_total s t : String.ltb s t = false -> String.ltb t s = false -> s = t.
Proof. rewrite !ltb_false_leb. intros. by apply String.leb_antisym. Qed.

Lemma nltb_trans s t u :
  String.ltb t s = false -> String.ltb u t = false -> String.ltb u s = false.
Proof. rewrite !ltb_false_leb. intros. by eapply leb_trans. Qed.
