(* ===== verification/Texts.v ===== *)
(** * Texts and their trimming

    Lemmas on the string functions of [GoStrings] that the grammars of the program share:
    words and prose, fields, trimming, splitting at a separator. *)

From stdpp Require Import base strings list.
From Stdlib Require Import ZArith Lia Ascii.
From S2P Require Import Prelude GoStrings.

Local Open Scope Z_scope.

(** ** Lines and fields *)

(** A field of the grammar: non-empty and without white space. *)
Definition word (s : string) : bool := negb (String.eqb s "") && str_forall plain s.

(** Text that no trimming changes and that stays on one line. *)
Definition first_plain (s : string) : bool := match s with String c _ => plain c | EmptyString => false end.
Definition prose (s : string) : bool :=
  first_plain s && first_plain (String.rev s) && str_forall (fun c => negb (Ascii.eqb c nl)) s.

Lemma fields_plain_run w s cur :
  str_forall plain w = true -> fields_from 0 cur (w +:+ s) = fields_from 0 (String.rev w +:+ cur) s.
Proof.
  revert cur. induction w as [|c w IH]; intros cur H; [done|].
  simpl in H. to_prop. rewrite str_app_cons. cbn [fields_from].
  rewrite plain_space_len by done. rewrite IH by done.
  rewrite rev_cons, str_app_assoc. done.
Qed.

(** The first field is what stands before the first blank. *)
Lemma Fields_cons w s : word w = true -> Fields (w +:+ " " +:+ s) = w :: Fields s.
Proof.
  unfold word. intros H. to_prop. unfold Fields. rewrite fields_plain_run by done.
  rewrite str_app_nil_r. change (" " +:+ s) with (String " " s). cbn [fields_from].
  rewrite space_len_space by done. simpl fields_from at 1.
  rewrite rev_involutive.
  destruct (String.eqb (String.rev w) "") eqn:E; [|done].
  apply String.eqb_eq in E. apply (f_equal String.rev) in E. rewrite rev_involutive in E.
  by subst.
Qed.

Lemma Fields_word w : word w = true -> Fields w = [w].
Proof.
  unfold word. intros H. to_prop. unfold Fields. rewrite <- (str_app_nil_r w) at 1.
  rewrite fields_plain_run by done. cbn [fields_from]. rewrite str_app_nil_r, rev_involutive.
  destruct (String.eqb (String.rev w) "") eqn:E; [|done].
  apply String.eqb_eq in E. apply (f_equal String.rev) in E. rewrite rev_involutive in E. by subst.
Qed.

Lemma fields_from_pending c cur s k : fields_from k (String c cur) s <> [].
Proof.
  revert k c cur. induction s as [|d s IH]; intros k c cur; cbn [fields_from]; [by destruct k|].
  destruct k; [|apply IH].
  destruct (space_len (String d s)); [apply IH|done].
Qed.

Lemma Fields_prose s : prose s = true -> Fields s <> [].
Proof.
  unfold prose. intros H. to_prop. destruct s as [|c s]; [done|]. simpl in *.
  unfold Fields. cbn [fields_from]. rewrite plain_space_len by done. apply fields_from_pending.
Qed.

(** Trimming removes surrounding ASCII white space and nothing else. *)
Lemma TrimSpace_prose w1 s w2 :
  str_forall ascii_space w1 = true -> str_forall ascii_space w2 = true -> prose s = true ->
  TrimSpace (w1 +:+ s +:+ w2) = s.
Proof.
  unfold prose. intros H1 H2 Hs. to_prop. unfold TrimSpace, trim_left_space, trim_right_space.
  rewrite drop_spaces_app by (auto using space_len_space).
  rewrite (drop_spaces_stop space_len).
  2: { destruct s as [|c s]; [done|]. rewrite str_app_cons. by apply plain_space_len. }
  rewrite rev_str_app, drop_spaces_app by (first [apply rspace_len_space | by rewrite str_forall_rev]).
  rewrite drop_spaces_stop; [by rewrite rev_involutive|].
  destruct (String.rev s) as [|c s'] eqn:E; [done|]. simpl in *. by apply plain_rspace_len.
Qed.

Lemma TrimSpace_blank w : str_forall ascii_space w = true -> TrimSpace w = "".
Proof.
  intros H. unfold TrimSpace, trim_left_space. rewrite <- (str_app_nil_r w).
  rewrite drop_spaces_app by (auto using space_len_space). done.
Qed.

Lemma plain_not_nl c : plain c = true -> negb (Ascii.eqb c nl) = true.
Proof. intros H. destruct (Ascii.eqb c nl) eqn:E; [|done]. apply Ascii.eqb_eq in E. by subst. Qed.

Lemma prose_join w s : word w = true -> prose s = true -> prose (w +:+ " " +:+ s) = true.
Proof.
  unfold prose, word. intros Hw Hs. to_prop. rewrite !rev_str_app, !str_forall_app.
  rewrite (str_forall_impl _ _ w plain_not_nl) by done.
  destruct w as [|c w]; [done|]. rewrite str_app_cons. simpl in *. to_prop.
  destruct (String.rev s) as [|d s'] eqn:E; [done|]. simpl in *. rewrite !andb_true_iff. done.
Qed.

Lemma prose_word w : word w = true -> prose w = true.
Proof.
  unfold prose, word. intros H. to_prop. rewrite (str_forall_impl _ _ w plain_not_nl) by done.
  destruct w as [|c w]; [done|].
  assert (P : str_forall plain (String.rev (String c w)) = true) by (by rewrite str_forall_rev).
  destruct (String.rev (String c w)) as [|d r] eqn:E.
  { apply (f_equal String.rev) in E. by rewrite rev_involutive in E. }
  simpl in *. to_prop. rewrite !andb_true_iff. done.
Qed.

Lemma TrimPrefix_app p s : TrimPrefix (p +:+ s) p = s.
Proof. unfold TrimPrefix, HasPrefix. by rewrite prefix_of_app, str_drop_app. Qed.

Lemma TrimSpace_lead s : prose s = true -> TrimSpace (" " +:+ s) = s.
Proof. intros H. rewrite <- (str_app_nil_r s) at 1. by apply (TrimSpace_prose " " s ""). Qed.

(** Parsing gives back the command that was written. *)
Lemma TrimSpace_self s : prose s = true -> TrimSpace s = s.
Proof. intros H. pose proof (TrimSpace_prose "" s "" eq_refl eq_refl H) as E. by rewrite str_app_nil_r in E. Qed.

(** Prose joined through text that stays on the line is prose. *)
Lemma prose_glue a m b : prose a = true -> prose b = true ->
  str_forall (fun c => negb (Ascii.eqb c nl)) m = true -> prose (a +:+ m +:+ b) = true.
Proof.
  unfold prose. intros Ha Hb Hm. to_prop. rewrite !rev_str_app, !str_forall_app.
  destruct a as [|c a]; [done|]. rewrite str_app_cons.
  destruct (String.rev b) as [|d s'] eqn:E; [done|]. rewrite !str_app_cons. cbn [first_plain] in *.
  rewrite !andb_true_iff. done.
Qed.

Lemma prose_no_nl s : prose s = true -> str_forall (fun c => negb (Ascii.eqb c nl)) s = true.
Proof. unfold prose. intros H. by to_prop. Qed.

(** ** Trimming arbitrary white space *)

Definition nonplain (c : ascii) : bool := negb (plain c).

(** [sp] measures runs of at most three bytes, none of them a printable ASCII byte. *)
Definition measures_space (sp : string -> nat) : Prop :=
  forall s, (sp s <= 3)%nat /\ (sp s <= String.length s)%nat /\ str_forall nonplain (str_take (sp s) s) = true.

Lemma nonplain_space c : ascii_space c = true -> nonplain c = true.
Proof. unfold nonplain, plain. intros ->. by destruct (in_range 0 127 c). Qed.

Lemma nonplain_high c : in_range 128 255 c = true -> nonplain c = true.
Proof. destruct c as [[] [] [] [] [] [] [] []]; done. Qed.

Lemma high_byte b c : is_byte b c = true -> 128 <= b -> in_range 128 255 c = true.
Proof.
  unfold is_byte, in_range. intros H L. pose proof (byte_of_bound c). to_prop. subst.
  apply andb_true_iff. split; apply Z.leb_le; lia.
Qed.

Lemma high_range lo hi c : in_range lo hi c = true -> 128 <= lo -> in_range 128 255 c = true.
Proof.
  unfold in_range. intros H L. pose proof (byte_of_bound c). to_prop.
  apply andb_true_iff. split; apply Z.leb_le; lia.
Qed.

Ltac high_bytes :=
  repeat match goal with
  | H : _ && _ = true |- _ => apply andb_true_iff in H as [? ?]
  | H : _ || _ = true |- _ => apply orb_true_iff in H as [?|?]
  | H : is_byte _ ?c = true |- _ => apply high_byte in H; [|lia]; apply nonplain_high in H
  | H : in_range _ _ ?c = true |- _ => apply high_range in H; [|lia]; apply nonplain_high in H
  end.

Lemma space_len_measures : measures_space space_len.
Proof.
  intros [|a s]; [cbn; repeat split; lia|]. unfold space_len.
  destruct (ascii_space a) eqn:Ea; [cbn; rewrite (nonplain_space a Ea); repeat split; lia|].
  destruct s as [|b s]; [cbn; repeat split; lia|].
  destruct (_ && _) eqn:E2.
  { high_bytes; cbn; rewrite H, H0; repeat split; lia. }
  clear E2. destruct s as [|c s]; [cbn; repeat split; lia|].
  destruct (_ || _) eqn:E3; [|cbn; repeat split; lia].
  high_bytes; cbn; repeat split; try lia;
    repeat match goal with H : nonplain _ = true |- _ => rewrite H; clear H end; done.
Qed.

Lemma rspace_len_measures : measures_space rspace_len.
Proof.
  intros s. unfold rspace_len. destruct s as [|c s]; [cbn; repeat split; lia|].
  destruct (ascii_space c) eqn:Ec; [cbn; rewrite (nonplain_space c Ec); repeat split; lia|].
  destruct s as [|b s]; [cbn; repeat split; lia|].
  destruct (Z.eqb_spec 2 (Z.of_nat (space_len (String b (String c ""))))) as [E|_].
  { destruct (space_len_measures (String b (String c ""))) as (_ & _ & H).
    replace (space_len (String b (String c ""))) with 2%nat in H by lia. cbn in H |- *. to_prop.
    repeat split; [lia|lia|]. rewrite H, H0. done. }
  destruct s as [|a s]; [cbn; repeat split; lia|].
  destruct (Z.eqb_spec 3 (Z.of_nat (space_len (String a (String b (String c "")))))) as [E|_]; [|cbn; repeat split; lia].
  destruct (space_len_measures (String a (String b (String c "")))) as (_ & _ & H).
  replace (space_len (String a (String b (String c "")))) with 3%nat in H by lia. cbn in H |- *. to_prop.
  repeat split; [lia|lia|]. rewrite H, H0, H1. done.
Qed.

(** What is dropped never reaches a printable ASCII byte. *)
Lemma drop_spaces_keeps sp pre c v : measures_space sp -> plain c = true ->
  exists pre', drop_spaces sp (pre +:+ String c v) = pre' +:+ String c v /\
    forall p, str_forall p pre = true -> str_forall p pre' = true.
Proof.
  intros M C.
  assert (G : forall n pre, (String.length pre <= n)%nat -> exists pre', drop_spaces sp (pre +:+ String c v) = pre' +:+ String c v /\
    forall p, str_forall p pre = true -> str_forall p pre' = true); [|by apply (G (String.length pre))].
  assert (P : forall s, str_forall nonplain (String c s) = true -> False).
  { intros s. cbn [str_forall]. unfold nonplain. by rewrite C. }
  induction n as [|n IH]; intros [|a q] L; cbn [String.length] in L; try lia.
  1, 2: change ("" +:+ String c v) with (String c v); exists ""; split; [|done]; cbn [drop_spaces];
    destruct (M (String c v)) as (_ & _ & H); destruct (sp (String c v)); [done|by apply P in H].
  destruct (M ((String a q) +:+ String c v)) as (M3 & _ & H). rewrite str_app_cons in *. cbn [drop_spaces].
  assert (T : forall q', (String.length q' <= n)%nat -> (forall p, str_forall p (String a q) = true -> str_forall p q' = true) ->
    exists pre', drop_spaces sp (q' +:+ String c v) = pre' +:+ String c v /\
      forall p, str_forall p (String a q) = true -> str_forall p pre' = true).
  { intros q' L' Q. destruct (IH q' L') as (pre' & E & K). exists pre'. split; [done|auto]. }
  destruct (sp (String a (q +:+ String c v))) as [|[|[|k]]].
  - exists (String a q). by rewrite str_app_cons.
  - apply T; [lia|]. cbn [str_forall]. intros p. by intros [_ ?]%andb_true_iff.
  - destruct q as [|b q]; [change ("" +:+ ?x) with x in H; cbn [str_take str_forall] in H; to_prop; exfalso; unfold nonplain in *; by rewrite C in *|].
    rewrite str_app_cons. apply T; [cbn [String.length] in L; lia|]. cbn [str_forall].
    intros p (_ & (_ & ?)%andb_true_iff)%andb_true_iff. done.
  - replace k with 0%nat in * by lia.
    destruct q as [|b [|b' q]]; [exfalso; change ("" +:+ ?x) with x in H; cbn [str_take str_forall] in H; to_prop; unfold nonplain in *; by rewrite C in *
      |exfalso; rewrite str_app_cons in H; change ("" +:+ ?x) with x in H; cbn [str_take str_forall] in H; to_prop; unfold nonplain in *; by rewrite C in *|].
    rewrite !str_app_cons. apply T; [cbn [String.length] in L; lia|]. cbn [str_forall].
    intros p (_ & (_ & (_ & ?)%andb_true_iff)%andb_true_iff)%andb_true_iff. done.
Qed.

Lemma TrimSpace_keeps pre m post l r : plain l = true -> plain r = true ->
  exists pre' post', TrimSpace (pre +:+ String l (m +:+ String r post)) = pre' +:+ String l (m +:+ String r post') /\
    (forall p, str_forall p pre = true -> str_forall p pre' = true) /\
    (forall p, str_forall p post = true -> str_forall p post' = true).
Proof.
  intros L R. unfold TrimSpace, trim_left_space, trim_right_space.
  destruct (drop_spaces_keeps space_len pre l (m +:+ String r post) space_len_measures L) as (pre' & -> & K).
  assert (E : String.rev (pre' +:+ String l (m +:+ String r post)) =
              String.rev post +:+ String r (String.rev m +:+ String l (String.rev pre'))).
  { rewrite rev_str_app, rev_cons, rev_str_app, rev_cons, !str_app_assoc. done. }
  rewrite E. destruct (drop_spaces_keeps rspace_len (String.rev post) r (String.rev m +:+ String l (String.rev pre'))
    rspace_len_measures R) as (q & -> & Q).
  exists pre', (String.rev q). split; [|split; [done|]].
  - rewrite rev_str_app, rev_cons, rev_str_app, rev_cons, !rev_involutive, !str_app_assoc. done.
  - intros p P. rewrite str_forall_rev. apply Q. by rewrite str_forall_rev.
Qed.

Definition no_byte (b c : ascii) : bool := negb (Ascii.eqb c b).

Lemma index_byte_app i pre b s : str_forall (no_byte b) pre = true ->
  index_byte_from i (pre +:+ String b s) b = Some (i + String.length pre)%nat.
Proof.
  revert i. induction pre as [|c pre IH]; intros i H.
  - change ("" +:+ String b s) with (String b s). cbn [index_byte_from]. rewrite Ascii.eqb_refl. cbn. f_equal; lia.
  - cbn [str_forall] in H. unfold no_byte at 1 in H. to_prop. rewrite str_app_cons. cbn [index_byte_from String.length].
    rewrite H, IH by done. f_equal; lia.
Qed.

(** ** Splitting at a separator *)

Lemma split_from_app sep cur s t :
  split_from sep cur (s +:+ String sep t) = split_from sep cur s ++ split_from sep "" t.
Proof.
  revert cur. induction s as [|c s IH]; intros cur; [|rewrite str_app_cons]; simpl.
  - by rewrite Ascii.eqb_refl.
  - destruct (Ascii.eqb c sep); simpl; by rewrite IH.
Qed.

Lemma Split_app sep s t : Split sep (s +:+ String sep t) = Split sep s ++ Split sep t.
Proof. apply split_from_app. Qed.

Lemma split_from_clean sep cur s : str_forall (no_byte sep) s = true -> split_from sep cur s = [String.rev cur +:+ s].
Proof.
  revert cur. induction s as [|c s IH]; intros cur H; cbn [split_from str_forall] in *; [by rewrite str_app_nil_r|].
  unfold no_byte at 1 in H. to_prop. rewrite H, IH by done. by rewrite rev_cons, str_app_assoc.
Qed.

Lemma Split_clean sep s : str_forall (no_byte sep) s = true -> Split sep s = [s].
Proof. intros H. unfold Split. by rewrite split_from_clean. Qed.

Lemma Split_Join_clean sep l : l <> [] -> Forall (fun x => str_forall (no_byte sep) x = true) l ->
  Split sep (Join (String sep "") l) = l.
Proof.
  intros Hn H. induction H as [|x [|y l] Hx H IH]; [done|by apply Split_clean|].
  change (Join (String sep "") (x :: y :: l)) with (x +:+ String sep "" +:+ Join (String sep "") (y :: l)).
  rewrite str_app_cons. change ("" +:+ ?z) with z. rewrite Split_app, Split_clean, IH by done. done.
Qed.
