(* ===== verification/Encoding.v ===== *)
(** * Byte encodings of the Go standard library

    What the envelope code uses of [encoding/hex] and of the string encoder of
    [encoding/json]; byte slices are strings. *)

From stdpp Require Import base gmap strings list.
From Stdlib Require Import ZArith Lia Ascii.
From S2P Require Import Prelude GoStrings.

Local Open Scope Z_scope.

(** ** Hexadecimal *)

Definition byte_char (b : Z) : ascii := ascii_of_N (Z.to_N b).

(** The lower-case digit of [0 <= n < 16]. *)
Definition hex_digit (n : Z) : ascii := byte_char (if n <? 10 then 48 + n else 87 + n).

Definition hex_value (c : ascii) : option Z :=
  let b := byte_of c in
  if (48 <=? b) && (b <=? 57) then Some (b - 48)
  else if (97 <=? b) && (b <=? 102) then Some (b - 87)
  else if (65 <=? b) && (b <=? 70) then Some (b - 55)
  else None.

(** [hex.EncodeToString]. *)
Fixpoint hex_encode (s : string) : string :=
  match s with
  | "" => ""
  | String c s =>
    String (hex_digit (byte_of c / 16)) (String (hex_digit (byte_of c mod 16)) (hex_encode s))
  end.

(** [hex.DecodeString]; [None] on a bad digit or an odd length. *)
Fixpoint hex_decode (s : string) : option string :=
  match s with
  | "" => Some ""
  | String a (String b s) =>
    match hex_value a, hex_value b, hex_decode s with
    | Some x, Some y, Some t => Some (String (byte_char (16 * x + y)) t)
    | _, _, _ => None
    end
  | String _ "" => None
  end.

Lemma hex_byte c :
  hex_value (hex_digit (byte_of c / 16)) = Some (byte_of c / 16) /\
  hex_value (hex_digit (byte_of c mod 16)) = Some (byte_of c mod 16) /\
  byte_char (16 * (byte_of c / 16) + byte_of c mod 16) = c.
Proof. destruct c as [[] [] [] [] [] [] [] []]; vm_compute; auto. Qed.

Lemma hex_decode_encode s : hex_decode (hex_encode s) = Some s.
Proof.
  induction s as [|c s IH]; [done|]. simpl. destruct (hex_byte c) as (-> & -> & E).
  by rewrite IH, E.
Qed.

Lemma hex_encode_length s : String.length (hex_encode s) = (2 * String.length s)%nat.
Proof. induction s as [|c s IH]; simpl; [done|]. rewrite IH. lia. Qed.

(** ** JSON strings *)

(** Bytes the encoder copies: printable ASCII and DEL, less the double quote, [&], [<],
    [>] and the backslash. *)
Definition html_safe (c : ascii) : bool :=
  in_range 32 127 c &&
  negb (is_byte 34 c || is_byte 38 c || is_byte 60 c || is_byte 62 c || is_byte 92 c).

Definition bslash : ascii := byte_char 92.
Definition dquote : ascii := byte_char 34.
Definition esc (c : ascii) : string := String bslash (String c "").
Definition esc_u (s : string) : string := esc "u"%char +:+ s.

(** One ASCII byte. *)
Definition json_char (c : ascii) : string :=
  if html_safe c then String c ""
  else
    let b := byte_of c in
    if (b =? 92) || (b =? 34) then esc c
    else if b =? 8 then esc "b"%char
    else if b =? 12 then esc "f"%char
    else if b =? 10 then esc "n"%char
    else if b =? 13 then esc "r"%char
    else if b =? 9 then esc "t"%char
    else esc_u ("00" +:+ String (hex_digit (b / 16)) (String (hex_digit (b mod 16)) "")).

(** Length of the valid UTF-8 sequence at the head of [s], 0 when it is not
    one ([utf8.DecodeRune] yields [RuneError] of width 1). *)
Definition rune_len (s : string) : nat :=
  let cont lo hi c := in_range lo hi c in
  match s with
  | String a (String b rest) =>
    if in_range 0xC2 0xDF a then if cont 0x80 0xBF b then 2%nat else 0%nat
    else match rest with
    | String c rest =>
      if is_byte 0xE0 a then if cont 0xA0 0xBF b && cont 0x80 0xBF c then 3%nat else 0%nat
      else if is_byte 0xED a then if cont 0x80 0x9F b && cont 0x80 0xBF c then 3%nat else 0%nat
      else if in_range 0xE1 0xEF a then if cont 0x80 0xBF b && cont 0x80 0xBF c then 3%nat else 0%nat
      else match rest with
      | String d _ =>
        let tail := cont 0x80 0xBF c && cont 0x80 0xBF d in
        if is_byte 0xF0 a then if cont 0x90 0xBF b && tail then 4%nat else 0%nat
        else if in_range 0xF1 0xF3 a then if cont 0x80 0xBF b && tail then 4%nat else 0%nat
        else if is_byte 0xF4 a then if cont 0x80 0x8F b && tail then 4%nat else 0%nat
        else 0%nat
      | "" => 0%nat
      end
    | "" => 0%nat
    end
  | _ => 0%nat
  end.

(** The line separators U+2028 and U+2029. *)
Definition line_separator (s : string) : option string :=
  match s with
  | String a (String b (String c _)) =>
    if is_byte 0xE2 a && is_byte 0x80 b then
      if is_byte 0xA8 c then Some "2028" else if is_byte 0xA9 c then Some "2029" else None
    else None
  | _ => None
  end.

(** The body of an encoded string; [skip] bytes of the current rune remain to
    be passed over, copied when [copy] holds. *)
Fixpoint json_body (skip : nat) (copy : bool) (s : string) : string :=
  match s with
  | "" => ""
  | String c s' =>
    match skip with
    | S k => if copy then String c (json_body k copy s') else json_body k copy s'
    | O =>
      if in_range 0 127 c then json_char c +:+ json_body 0 true s'
      else match rune_len s with
      | O => esc_u "fffd" +:+ json_body 0 true s'
      | S k =>
        match line_separator s with
        | Some u => esc_u u +:+ json_body k false s'
        | None => String c (json_body k true s')
        end
      end
    end
  end.

(** The JSON encoding of a Go string. *)
Definition json_string (s : string) : string :=
  String dquote (json_body 0 true s +:+ String dquote "").

(** ** ASCII strings are encoded injectively *)

(** Neither string is a prefix of the other. *)
Fixpoint diverge (s t : string) : bool :=
  match s, t with
  | String a s, String b t => if Ascii.eqb a b then diverge s t else true
  | _, _ => false
  end.

Lemma diverge_app s t u v : diverge s t = true -> s +:+ u <> t +:+ v.
Proof.
  revert t. induction s as [|a s IH]; intros [|b t]; simpl; try done.
  destruct (Ascii.eqb_spec a b) as [->|Hn]; intros H E; injection E; intros; [|done].
  by eapply IH.
Qed.

Definition all_ascii : list ascii := map (fun n => ascii_of_nat n) (seq 0 128).

Lemma in_all_ascii c : in_range 0 127 c = true -> c ∈ all_ascii.
Proof.
  intros H. unfold in_range, byte_of in H. to_prop.
  apply list_elem_of_fmap. exists (nat_of_ascii c). split; [by rewrite ascii_nat_embedding|].
  apply elem_of_seq. unfold nat_of_ascii. lia.
Qed.

Definition pair_diverges (c d : ascii) : bool :=
  Ascii.eqb c d || diverge (json_char c) (json_char d).
Definition quote_diverges (c : ascii) : bool := diverge (json_char c) (String dquote "").
Definition all_diverge (cs ds : list ascii) : bool :=
  forallb (fun c => quote_diverges c && forallb (pair_diverges c) ds) cs.

Lemma all_diverge_spec cs ds :
  all_diverge cs ds = true -> forall c, c ∈ cs ->
  quote_diverges c = true /\ forall d, d ∈ ds -> pair_diverges c d = true.
Proof.
  unfold all_diverge. rewrite forallb_forall. intros H c Hc%list_elem_of_In. apply H in Hc.
  apply andb_true_iff in Hc as [H1 H2]. split; [done|].
  rewrite forallb_forall in H2. intros d Hd%list_elem_of_In. by apply H2.
Qed.

Lemma all_ascii_diverge c d :
  in_range 0 127 c = true -> in_range 0 127 d = true ->
  quote_diverges c = true /\ pair_diverges c d = true.
Proof.
  intros Hc%in_all_ascii Hd%in_all_ascii.
  assert (H : all_diverge all_ascii all_ascii = true) by (vm_compute; reflexivity).
  revert Hc Hd H. generalize all_ascii. intros l Hc Hd H.
  destruct (all_diverge_spec l l H c Hc) as [H1 H2]. auto.
Qed.

Lemma json_char_diverge c d :
  in_range 0 127 c = true -> in_range 0 127 d = true -> c <> d ->
  diverge (json_char c) (json_char d) = true.
Proof.
  intros Hc Hd Hn. destruct (all_ascii_diverge c d Hc Hd) as [_ H]. unfold pair_diverges in H.
  by destruct (Ascii.eqb_spec c d).
Qed.

Lemma json_char_quote c :
  in_range 0 127 c = true -> diverge (json_char c) (String dquote "") = true.
Proof. intros Hc. apply (all_ascii_diverge c c Hc Hc). Qed.

Lemma str_app_inv_head s t u : s +:+ t = s +:+ u -> t = u.
Proof. induction s as [|c s IH]; simpl; [done|]. intros [= E]. auto. Qed.

Lemma json_string_inj_app s t u v :
  is_ascii s = true -> is_ascii t = true ->
  json_string s +:+ u = json_string t +:+ v -> s = t /\ u = v.
Proof.
  unfold json_string, is_ascii. intros Hs Ht E. rewrite !str_app_cons in E.
  injection E as E. rewrite !str_app_assoc in E. revert t Ht E.
  induction s as [|c s IH]; intros [|d t] Ht E; simpl in *.
  - by injection E.
  - to_prop. exfalso. rewrite H, str_app_assoc in E. symmetry in E. revert E.
    apply (diverge_app _ (String dquote "") _ u). by apply json_char_quote.
  - to_prop. exfalso. rewrite H, str_app_assoc in E. revert E.
    apply (diverge_app _ (String dquote "") _ v). by apply json_char_quote.
  - to_prop. destruct (decide (c = d)) as [->|Hn].
    + rewrite H, !str_app_assoc in E. apply str_app_inv_head in E.
      apply IH in E as [-> ->]; done.
    + exfalso. rewrite H, H0 in E || rewrite H, H1 in E. rewrite !str_app_assoc in E. revert E.
      apply diverge_app, json_char_diverge; done.
Qed.
