(* ===== verification/Json.v ===== *)
(** * Reading JSON

    What the code uses of [json.Unmarshal] (the Go standard library): the scanner with its
    nesting limit, the unquoting of strings, and the decoding of an object into a struct
    whose fields are matched by name up to case folding. A text is a byte string, a value
    keeps the members of an object in order and a number as its literal.

    [renders] is the grammar of JSON texts; [parse_renders] shows that the reader accepts
    every text of it, with the fuel [read_text] gives. *)

From stdpp Require Import base gmap strings list.
From Stdlib Require Import ZArith Lia Ascii.
From S2P Require Import Prelude GoStrings Encoding.

Local Open Scope Z_scope.

Inductive json :=
| JNull
| JBool (b : bool)
| JNumber (lit : string)
| JString (s : string)
| JArray (items : list json)
| JObject (members : list (string * json)).

(** ** Strings *)

(** [utf8.EncodeRune]. *)
Definition encode_rune (r : Z) : string :=
  let cont n := byte_char (128 + n mod 64) in
  if r <? 128 then String (byte_char r) ""
  else if r <? 2048 then String (byte_char (192 + r / 64)) (String (cont r) "")
  else if r <? 65536 then String (byte_char (224 + r / 4096)) (String (cont (r / 64)) (String (cont r) ""))
  else String (byte_char (240 + r / 262144))
         (String (cont (r / 4096)) (String (cont (r / 64)) (String (cont r) ""))).

Definition RuneError : Z := 0xFFFD.

Definition hex4 (a b c d : ascii) : option Z :=
  match hex_value a, hex_value b, hex_value c, hex_value d with
  | Some w, Some x, Some y, Some z => Some (4096 * w + 256 * x + 16 * y + z)
  | _, _, _, _ => None
  end.

(** [utf16.IsSurrogate], and [utf16.DecodeRune] of a valid pair. *)
Definition IsSurrogate (r : Z) : bool := (0xD800 <=? r) && (r <? 0xE000).
Definition DecodeRune (r1 r2 : Z) : option Z :=
  if (0xD800 <=? r1) && (r1 <? 0xDC00) && (0xDC00 <=? r2) && (r2 <? 0xE000)
  then Some ((r1 - 0xD800) * 1024 + (r2 - 0xDC00) + 0x10000) else None.

(** The byte a one-letter escape stands for. *)
Definition unescape (e : ascii) : option ascii :=
  if Ascii.eqb e dquote || Ascii.eqb e bslash || Ascii.eqb e "/"%char then Some e
  else if Ascii.eqb e "b"%char then Some (byte_char 8)
  else if Ascii.eqb e "f"%char then Some (byte_char 12)
  else if Ascii.eqb e "n"%char then Some (byte_char 10)
  else if Ascii.eqb e "r"%char then Some (byte_char 13)
  else if Ascii.eqb e "t"%char then Some (byte_char 9)
  else None.

Definition glue (p : string) (r : option (string * string)) : option (string * string) :=
  match r with Some (s, rest) => Some (p +:+ s, rest) | None => None end.

(** The string after its opening quote, with what follows the closing one; [k] bytes of
    the current rune remain to be copied. *)
Fixpoint read_string (k : nat) (s : string) : option (string * string) :=
  match s with
  | "" => None
  | String c s1 =>
    match k with
    | S k => glue (String c "") (read_string k s1)
    | O =>
      if Ascii.eqb c dquote then Some ("", s1)
      else if in_range 0 31 c then None
      else if Ascii.eqb c bslash then
        match s1 with
        | "" => None
        | String e s2 =>
          if Ascii.eqb e "u"%char then
            match s2 with
            | String a (String b (String c (String d s6))) =>
              match hex4 a b c d with
              | None => None
              | Some r =>
                if IsSurrogate r then
                  match s6 with
                  | String x (String y (String a (String b (String c (String d s12))))) =>
                    match (if Ascii.eqb x bslash && Ascii.eqb y "u"%char then hex4 a b c d ≫= DecodeRune r
                           else None) with
                    | Some dec => glue (encode_rune dec) (read_string 0 s12)
                    | None => glue (encode_rune RuneError) (read_string 0 s6)
                    end
                  | _ => glue (encode_rune RuneError) (read_string 0 s6)
                  end
                else glue (encode_rune r) (read_string 0 s6)
              end
            | _ => None
            end
          else match unescape e with
               | Some c => glue (String c "") (read_string 0 s2)
               | None => None
               end
        end
      else if in_range 0 127 c then glue (String c "") (read_string 0 s1)
      else match rune_len s with
           | O => glue (encode_rune RuneError) (read_string 0 s1)
           | S k => glue (String c "") (read_string k s1)
           end
    end
  end.

(** ** Numbers *)

Fixpoint span_digits (s : string) : string * string :=
  match s with
  | String c s1 => if is_digit c then let '(d, r) := span_digits s1 in (String c d, r) else ("", s)
  | "" => ("", "")
  end.

(** At least one digit. *)
Definition digits1 (s : string) : option (string * string) :=
  let '(d, r) := span_digits s in if String.eqb d "" then None else Some (d, r).

Definition read_int (s : string) : option (string * string) :=
  match s with
  | String c s1 => if Ascii.eqb c "0"%char then Some ("0", s1) else digits1 s
  | "" => None
  end.

Definition read_frac (s : string) : option (string * string) :=
  match s with
  | String c s1 => if Ascii.eqb c "."%char then glue "." (digits1 s1) else Some ("", s)
  | "" => Some ("", "")
  end.

Definition read_exp (s : string) : option (string * string) :=
  match s with
  | String c s1 =>
    if Ascii.eqb c "e"%char || Ascii.eqb c "E"%char then
      match s1 with
      | String g s2 => if Ascii.eqb g "+"%char || Ascii.eqb g "-"%char
                       then glue (String c (String g "")) (digits1 s2) else glue (String c "") (digits1 s1)
      | "" => None
      end
    else Some ("", s)
  | "" => Some ("", "")
  end.

Definition read_number (s : string) : option (string * string) :=
  let '(sign, s) := match s with
    | String c s1 => if Ascii.eqb c "-"%char then ("-", s1) else ("", s)
    | "" => ("", "") end in
  match read_int s with
  | None => None
  | Some (i, s) =>
    match read_frac s with
    | None => None
    | Some (f, s) => match read_exp s with
                     | None => None
                     | Some (e, s) => Some (sign +:+ i +:+ f +:+ e, s) end
    end
  end.

(** ** Values *)

Definition json_space (c : ascii) : bool := is_byte 32 c || is_byte 9 c || is_byte 10 c || is_byte 13 c.
Definition skip_ws (s : string) : string := TrimLeft json_space s.

(** [maxNestingDepth]. *)
Definition maxNestingDepth : nat := 100 * 100.

Definition literal (w : string) (v : json) (s : string) : option (json * string) :=
  if HasPrefix s w then Some (v, str_drop (String.length w) s) else None.

(** The scanner; [d] is the number of arrays and objects that may still be opened. *)
Fixpoint read_value (fuel d : nat) (s : string) : option (json * string) :=
  match fuel with
  | O => None
  | S fuel =>
    match skip_ws s with
    | "" => None
    | String c s1 =>
      if Ascii.eqb c "{"%char then
        match d with
        | O => None
        | S d =>
          match skip_ws s1 with
          | String c2 s2 =>
            if Ascii.eqb c2 "}"%char then Some (JObject [], s2)
            else match read_members fuel d s1 with
                 | Some (ms, r) => Some (JObject ms, r) | None => None end
          | "" => None
          end
        end
      else if Ascii.eqb c "["%char then
        match d with
        | O => None
        | S d =>
          match skip_ws s1 with
          | String c2 s2 =>
            if Ascii.eqb c2 "]"%char then Some (JArray [], s2)
            else match read_items fuel d s1 with
                 | Some (vs, r) => Some (JArray vs, r) | None => None end
          | "" => None
          end
        end
      else if Ascii.eqb c dquote then
        match read_string 0 s1 with Some (t, r) => Some (JString t, r) | None => None end
      else if Ascii.eqb c "-"%char || is_digit c then
        match read_number (String c s1) with Some (l, r) => Some (JNumber l, r) | None => None end
      else if Ascii.eqb c "t"%char then literal "true" (JBool true) (String c s1)
      else if Ascii.eqb c "f"%char then literal "false" (JBool false) (String c s1)
      else if Ascii.eqb c "n"%char then literal "null" JNull (String c s1)
      else None
    end
  end
with read_items (fuel d : nat) (s : string) : option (list json * string) :=
  match fuel with
  | O => None
  | S fuel =>
    match read_value fuel d s with
    | None => None
    | Some (v, r) =>
      match skip_ws r with
      | String c r1 =>
        if Ascii.eqb c ","%char then
          match read_items fuel d r1 with Some (vs, r) => Some (v :: vs, r) | None => None end
        else if Ascii.eqb c "]"%char then Some ([v], r1)
        else None
      | "" => None
      end
    end
  end
with read_members (fuel d : nat) (s : string) : option (list (string * json) * string) :=
  match fuel with
  | O => None
  | S fuel =>
    match skip_ws s with
    | String q s1 =>
      if negb (Ascii.eqb q dquote) then None
      else match read_string 0 s1 with
      | None => None
      | Some (name, r) =>
        match skip_ws r with
        | String colon r1 =>
          if negb (Ascii.eqb colon ":"%char) then None
          else match read_value fuel d r1 with
          | None => None
          | Some (v, r) =>
            match skip_ws r with
            | String c r1 =>
              if Ascii.eqb c ","%char then
                match read_members fuel d r1 with Some (ms, r) => Some ((name, v) :: ms, r) | None => None end
              else if Ascii.eqb c "}"%char then Some ([(name, v)], r1)
              else None
            | "" => None
            end
          end
        | "" => None
        end
      end
    | "" => None
    end
  end.

(** [checkValid]: the whole text is one value. Each byte is read at most once by each of
    two nested readers, so twice the length is fuel enough. *)
Definition parse_json (s : string) : option json :=
  match read_value (2 * String.length s + 2) maxNestingDepth s with
  | Some (v, r) => if String.eqb (skip_ws r) "" then Some v else None
  | None => None
  end.

(** ** Decoding *)

(** [foldName]: upper case, and the two runes outside ASCII that fold to a letter, the
    long s and the Kelvin sign. *)
Fixpoint fold_name (s : string) : string :=
  match s with
  | String a ((String b s2) as s1) =>
    if is_byte 0xC5 a && is_byte 0xBF b then String "S" (fold_name s2)
    else match s2 with
    | String c s3 => if is_byte 0xE2 a && is_byte 0x84 b && is_byte 0xAA c then String "K" (fold_name s3)
                     else String (ascii_upper a) (fold_name s1)
    | "" => String (ascii_upper a) (fold_name s1)
    end
  | String a "" => String (ascii_upper a) ""
  | "" => ""
  end.

Section Members.
Context {V R : Type}.

(** A field of the target struct: its name and how a value is stored in it, [None] for
    an [UnmarshalTypeError]. *)
Definition Member : Type := string * (V -> R -> option R).

Fixpoint field_named (same : string -> bool) (fs : list Member) : option (V -> R -> option R) :=
  match fs with
  | [] => None
  | (n, store) :: fs => if same n then Some store else field_named same fs
  end.

(** The exact name first, then the first that folds alike. *)
Definition lookup_field (fs : list Member) (key : string) : option (V -> R -> option R) :=
  match field_named (fun n => String.eqb n key) fs with
  | Some store => Some store
  | None => field_named (fun n => String.eqb (fold_name n) (fold_name key)) fs
  end.

Fixpoint store_members (fs : list Member) (ms : list (string * V)) (r : R) : option R :=
  match ms with
  | [] => Some r
  | (k, v) :: ms =>
    match lookup_field fs k with
    | None => store_members fs ms r
    | Some store => match store v r with Some r => store_members fs ms r | None => None end
    end
  end.

Lemma field_named_none same fs : field_named same fs = None <-> Forall (fun f => same f.1 = false) fs.
Proof.
  induction fs as [|[n store] fs IH]; cbn [field_named]; [by split|]. rewrite Forall_cons.
  destruct (same n) eqn:E; simpl; rewrite E; [by split; [|intros [? _]]|]. rewrite IH. naive_solver.
Qed.

(** Members that are no fields are passed over. *)
Lemma store_foreign fs ms r : Forall (fun m => Forall (fun f => fold_name f.1 <> fold_name m.1) fs) ms -> store_members fs ms r = Some r.
Proof.
  induction 1 as [|[k v] ms Hk _ IH]; cbn [store_members]; [done|]. unfold lookup_field.
  rewrite !(proj2 (field_named_none _ _)); [done|..]; (eapply Forall_impl; [exact Hk|]); intros f Hf; apply String.eqb_neq; [done|].
  intros He. apply Hf. by rewrite He.
Qed.
Lemma store_members_app fs a b r :
  store_members fs (a ++ b) r = match store_members fs a r with Some r => store_members fs b r | None => None end.
Proof.
  revert r. induction a as [|[k v] a IH]; intros r; cbn [app store_members]; [done|].
  destruct (lookup_field fs k) as [store|]; [destruct (store v r); [apply IH|done]|apply IH].
Qed.
End Members.
Arguments Member : clear implicits.
Notation Field := (Member json).

Section Decode.
Context {R : Type}.

(** [json.Unmarshal] into a struct; the error of a failed field is returned only after
    all members are read, and the struct is then not used. *)
Definition Unmarshal (fs : list (Field R)) (zero : R) (text : string) : option R :=
  match parse_json text with
  | Some JNull => Some zero
  | Some (JObject ms) => store_members fs ms zero
  | _ => None
  end.

(** [json.Decoder.Decode] into a struct: the first value of the text. *)
Definition Decode (fs : list (Field R)) (zero : R) (text : string) : option R :=
  match read_value (2 * String.length text + 2) maxNestingDepth text with
  | Some (JNull, _) => Some zero
  | Some (JObject ms, _) => store_members fs ms zero
  | _ => None
  end.

(** Values into a field that is a string, an int or a bool. *)
Definition store_string (set : string -> R -> R) (v : json) (r : R) : option R :=
  match v with JNull => Some r | JString s => Some (set s r) | _ => None end.
Definition store_int (set : Z -> R -> R) (v : json) (r : R) : option R :=
  match v with
  | JNull => Some r
  | JNumber l => match ParseInt l with Some n => Some (set n r) | None => None end
  | _ => None
  end.
Definition store_bool (set : bool -> R -> R) (v : json) (r : R) : option R :=
  match v with JNull => Some r | JBool b => Some (set b r) | _ => None end.
End Decode.

(** Values into a field that is a struct; the elements of an array into a slice: each is
    decoded into what the slice already held at its place. *)
Definition store_struct {R} (fs : list (Field R)) (v : json) (old : R) : option R :=
  match v with JNull => Some old | JObject ms => store_members fs ms old | _ => None end.
Fixpoint store_elements {V R} (store : V -> R -> option R) (zero : R) (vs : list V) (old : list R) : option (list R) :=
  match vs with
  | [] => Some []
  | v :: vs =>
    match store v (default zero (head old)), store_elements store zero vs (tail old) with
    | Some r, Some rs => Some (r :: rs)
    | _, _ => None
    end
  end.

(** Values into a pointer to a string, a bool or an int, and into a slice of strings: a
    null element keeps what the slice already held at its place. *)
Definition to_string_ptr (v : json) : option (option string) :=
  match v with JNull => Some None | JString s => Some (Some s) | _ => None end.
Definition to_bool_ptr (v : json) : option (option bool) :=
  match v with JNull => Some None | JBool b => Some (Some b) | _ => None end.
Definition to_int_ptr (v : json) : option (option Z) :=
  match v with
  | JNull => Some None
  | JNumber l => match ParseInt l with Some n => Some (Some n) | None => None end
  | _ => None
  end.

Fixpoint to_strings_from (old : list string) (vs : list json) : option (list string) :=
  match vs with
  | [] => Some []
  | v :: vs =>
    match (match v with JNull => Some (default "" (head old)) | JString s => Some s | _ => None end),
          to_strings_from (tail old) vs with
    | Some s, Some l => Some (s :: l)
    | _, _ => None
    end
  end.
Definition to_strings (old : list string) (v : json) : option (list string) :=
  match v with JNull => Some [] | JArray vs => to_strings_from old vs | _ => None end.

(** ** The grammar of JSON texts *)

Definition spaces (w : string) : bool := str_forall json_space w.

(** A byte that stands for itself in a string. *)
Definition string_char (c : ascii) : bool := in_range 32 127 c && negb (Ascii.eqb c dquote || Ascii.eqb c bslash).

(** [string_body s t]: [t], between quotes, denotes [s]. *)
Inductive string_body : string -> string -> Prop :=
| SB_nil : string_body "" ""
| SB_char c s t : string_char c = true -> string_body s t -> string_body (String c s) (String c t)
| SB_rune r s t : (2 <= String.length r)%nat -> rune_len r = String.length r -> string_body s t ->
    string_body (r +:+ s) (r +:+ t)
| SB_escape e c s t : unescape e = Some c -> string_body s t ->
    string_body (String c s) (String bslash (String e t))
| SB_unicode a b c d r s t : hex4 a b c d = Some r -> IsSurrogate r = false -> string_body s t ->
    string_body (encode_rune r +:+ s)
      (String bslash (String "u" (String a (String b (String c (String d t))))))
| SB_pair a b c d a' b' c' d' r1 r2 r s t :
    hex4 a b c d = Some r1 -> hex4 a' b' c' d' = Some r2 -> IsSurrogate r1 = true ->
    DecodeRune r1 r2 = Some r -> string_body s t ->
    string_body (encode_rune r +:+ s)
      (String bslash (String "u" (String a (String b (String c (String d
        (String bslash (String "u" (String a' (String b' (String c' (String d' t)))))))))))).

Definition in_quotes (t : string) : string := String dquote (t +:+ String dquote "").

Definition number_text (l : string) : Prop := read_number l = Some (l, "").

(** [renders d v t]: [t] is a text of the value [v] that opens at most [d] nested arrays
    and objects. *)
Inductive renders : nat -> json -> string -> Prop :=
| R_null d : renders d JNull "null"
| R_true d : renders d (JBool true) "true"
| R_false d : renders d (JBool false) "false"
| R_number d l : number_text l -> renders d (JNumber l) l
| R_string d s t : string_body s t -> renders d (JString s) (in_quotes t)
| R_array0 d w : spaces w = true -> renders (S d) (JArray []) ("[" +:+ w +:+ "]")
| R_array d vs t : items_text d vs t -> renders (S d) (JArray vs) ("[" +:+ t +:+ "]")
| R_object0 d w : spaces w = true -> renders (S d) (JObject []) ("{" +:+ w +:+ "}")
| R_object d ms t : members_text d ms t -> renders (S d) (JObject ms) ("{" +:+ t +:+ "}")
with items_text : nat -> list json -> string -> Prop :=
| I_one d v w t w' : spaces w = true -> spaces w' = true -> renders d v t ->
    items_text d [v] (w +:+ t +:+ w')
| I_cons d v vs w t w' u : spaces w = true -> spaces w' = true -> renders d v t -> items_text d vs u ->
    items_text d (v :: vs) (w +:+ t +:+ w' +:+ "," +:+ u)
with members_text : nat -> list (string * json) -> string -> Prop :=
| M_one d k kt v w w1 w2 t w3 :
    spaces w = true -> spaces w1 = true -> spaces w2 = true -> spaces w3 = true ->
    string_body k kt -> renders d v t ->
    members_text d [(k, v)] (w +:+ in_quotes kt +:+ w1 +:+ ":" +:+ w2 +:+ t +:+ w3)
| M_cons d k kt v ms w w1 w2 t w3 u :
    spaces w = true -> spaces w1 = true -> spaces w2 = true -> spaces w3 = true ->
    string_body k kt -> renders d v t -> members_text d ms u ->
    members_text d ((k, v) :: ms) (w +:+ in_quotes kt +:+ w1 +:+ ":" +:+ w2 +:+ t +:+ w3 +:+ "," +:+ u).

Scheme renders_rec := Induction for renders Sort Prop
  with items_rec := Induction for items_text Sort Prop
  with members_rec := Induction for members_text Sort Prop.
Combined Scheme json_text_ind from renders_rec, items_rec, members_rec.

(** ** The reader accepts the grammar *)

Lemma read_string_copy p q : read_string (String.length p) (p +:+ q) = glue p (read_string 0 q).
Proof.
  induction p as [|c p IH].
  - change ("" +:+ q) with q. cbn [String.length]. by destruct (read_string 0 q) as [[]|].
  - rewrite str_app_cons. cbn [String.length read_string]. rewrite IH. by destruct (read_string 0 q) as [[]|].
Qed.

Lemma rune_len_app r t : (2 <= String.length r)%nat -> rune_len r = String.length r -> rune_len (r +:+ t) = rune_len r.
Proof.
  intros L E.
  assert (L4 : (String.length r <= 4)%nat) by (rewrite <- E; unfold rune_len; repeat case_match; lia).
  destruct r as [|a [|b [|c [|d [|e r]]]]]; cbn [String.length] in *; try lia; rewrite !str_app_cons;
    change ("" +:+ t) with t; unfold rune_len in *; repeat case_match; try done; simplify_eq/=; lia.
Qed.

Lemma rune_head r : (2 <= String.length r)%nat -> rune_len r = String.length r ->
  exists a p, r = String a p /\ in_range 0 127 a = false.
Proof.
  destruct r as [|a r]; cbn [String.length]; [lia|]. intros _ H. exists a, r. split; [done|].
  destruct (in_range 0 127 a) eqn:E; [|done]. exfalso.
  assert (X : forall lo hi, 127 < lo -> in_range lo hi a = false).
  { intros lo hi L. unfold in_range in *. to_prop. apply andb_false_iff. left. apply Z.leb_gt. lia. }
  assert (Y : forall b, 127 < b -> is_byte b a = false).
  { intros b L. unfold is_byte, in_range in *. to_prop. apply Z.eqb_neq. lia. }
  revert H. unfold rune_len. rewrite !X, !Y by lia. repeat case_match; cbn; lia.
Qed.

Lemma high_not_low a n m : in_range 0 127 a = false -> m <= 127 -> in_range n m a = false.
Proof.
  unfold in_range. intros H L. pose proof (byte_of_bound a) as B.
  apply andb_false_iff in H as [H|H]; to_prop; [lia|]. apply andb_false_iff. right. apply Z.leb_gt. lia.
Qed.

Lemma eqb_high a b : in_range 0 127 a = false -> in_range 0 127 b = true -> Ascii.eqb a b = false.
Proof. intros H1 H2. apply Ascii.eqb_neq. intros ->. congruence. Qed.

Lemma string_char_spec c : string_char c = true ->
  Ascii.eqb c dquote = false /\ Ascii.eqb c bslash = false /\ in_range 0 31 c = false /\ in_range 0 127 c = true.
Proof.
  unfold string_char, in_range. intros H. to_prop. repeat split; try done.
  - apply andb_false_iff. right. apply Z.leb_gt. lia.
  - apply andb_true_iff. split; apply Z.leb_le; [apply byte_of_bound|lia].
Qed.

Lemma read_escape e s : e <> "u"%char ->
  read_string 0 (String bslash (String e s)) =
  match unescape e with Some c => glue (String c "") (read_string 0 s) | None => None end.
Proof. intros H%Ascii.eqb_neq. cbn [read_string]. rewrite H. reflexivity. Qed.

Lemma read_u a b c d s :
  read_string 0 (String bslash (String "u" (String a (String b (String c (String d s)))))) =
  match hex4 a b c d with
  | None => None
  | Some r =>
    if IsSurrogate r then
      match s with
      | String x (String y (String a (String b (String c (String d s'))))) =>
        match (if Ascii.eqb x bslash && Ascii.eqb y "u"%char then hex4 a b c d ≫= DecodeRune r else None) with
        | Some dec => glue (encode_rune dec) (read_string 0 s')
        | None => glue (encode_rune RuneError) (read_string 0 s)
        end
      | _ => glue (encode_rune RuneError) (read_string 0 s)
      end
    else glue (encode_rune r) (read_string 0 s)
  end.
Proof. reflexivity. Qed.

Lemma read_pair a b c d a' b' c' d' r1 s :
  hex4 a b c d = Some r1 -> IsSurrogate r1 = true ->
  read_string 0 (String bslash (String "u" (String a (String b (String c (String d
    (String bslash (String "u" (String a' (String b' (String c' (String d' s)))))))))))) =
  match hex4 a' b' c' d' ≫= DecodeRune r1 with
  | Some dec => glue (encode_rune dec) (read_string 0 s)
  | None => glue (encode_rune RuneError)
              (read_string 0 (String bslash (String "u" (String a' (String b' (String c' (String d' s)))))))
  end.
Proof. intros H S. rewrite read_u, H. cbn iota. rewrite S. reflexivity. Qed.

Lemma read_string_body s t rest : string_body s t -> read_string 0 (t +:+ String dquote rest) = Some (s, rest).
Proof.
  intros H. induction H as [|c s t C H IH|r s t L E H IH|e c s t U H IH|a b c d r s t X S H IH
    |a b c d a' b' c' d' r1 r2 r s t X1 X2 S D H IH]; [done|..].
  - apply string_char_spec in C as (C1 & C2 & C3 & C4). rewrite str_app_cons. cbn [read_string].
    by rewrite C1, C3, C2, C4, IH.
  - destruct (rune_head r L E) as (a & p & -> & Ha). rewrite (str_app_assoc (String a p)), (str_app_cons a p).
    cbn [read_string]. rewrite (eqb_high a dquote), (eqb_high a bslash), (high_not_low a 0 31), Ha by (done || lia).
    rewrite <- (str_app_cons a p), rune_len_app, E by done. cbn [String.length].
    rewrite read_string_copy, IH. done.
  - rewrite !str_app_cons, read_escape by (intros ->; discriminate U). by rewrite U, IH.
  - rewrite !str_app_cons, read_u, X. cbn iota. by rewrite S, IH.
  - rewrite !str_app_cons, (read_pair _ _ _ _ _ _ _ _ r1), X2 by done. cbn [mbind option_bind]. by rewrite D, IH.
Qed.

(** What may follow a number. *)
Definition delimited (s : string) : bool :=
  match s with
  | String c _ => negb (is_digit c || Ascii.eqb c "."%char || Ascii.eqb c "e"%char || Ascii.eqb c "E"%char)
  | "" => true
  end.

Lemma delimited_cons c s : delimited (String c s) = true ->
  is_digit c = false /\ Ascii.eqb c "." = false /\ Ascii.eqb c "e" = false /\ Ascii.eqb c "E" = false.
Proof.
  unfold delimited. generalize (is_digit c) (Ascii.eqb c ".") (Ascii.eqb c "e") (Ascii.eqb c "E").
  by intros [] [] [] [].
Qed.

Lemma span_digits_app s rest d r : delimited rest = true ->
  span_digits s = (d, r) -> span_digits (s +:+ rest) = (d, r +:+ rest).
Proof.
  intros D. revert d r. induction s as [|c s IH]; intros d r.
  - intros [= <- <-]. destruct rest as [|c rest]; [done|]. change ("" +:+ String c rest) with (String c rest).
    cbn [span_digits]. by rewrite (proj1 (delimited_cons _ _ D)).
  - rewrite str_app_cons. cbn [span_digits]. destruct (is_digit c); [|by intros [= <- <-]].
    destruct (span_digits s) as [d' r']. intros [= <- <-]. by rewrite (IH d' r').
Qed.

Lemma digits1_app s rest d r : delimited rest = true ->
  digits1 s = Some (d, r) -> digits1 (s +:+ rest) = Some (d, r +:+ rest).
Proof.
  intros D. unfold digits1. destruct (span_digits s) as [d' r'] eqn:E.
  rewrite (span_digits_app s rest d' r' D E). by case_match; intros [= <- <-].
Qed.

Lemma read_int_app s rest d r : delimited rest = true ->
  read_int s = Some (d, r) -> read_int (s +:+ rest) = Some (d, r +:+ rest).
Proof.
  intros D. destruct s as [|c s]; [done|]. rewrite str_app_cons. cbn [read_int].
  destruct (Ascii.eqb c "0"); [by intros [= <- <-]|]. rewrite <- str_app_cons. by apply digits1_app.
Qed.

Lemma glue_app p x y rest d r :
  (forall d r, x = Some (d, r) -> y = Some (d, r +:+ rest)) ->
  glue p x = Some (d, r) -> glue p y = Some (d, r +:+ rest).
Proof. intros H. destruct x as [[d' r']|]; [|done]. intros [= <- <-]. by rewrite (H _ _ eq_refl). Qed.

Lemma read_frac_app s rest d r : delimited rest = true ->
  read_frac s = Some (d, r) -> read_frac (s +:+ rest) = Some (d, r +:+ rest).
Proof.
  intros D. destruct s as [|c s].
  - intros [= <- <-]. destruct rest as [|c rest]; [done|].
    change ("" +:+ String c rest) with (String c rest). cbn [read_frac].
    by rewrite (proj1 (proj2 (delimited_cons _ _ D))).
  - rewrite str_app_cons. cbn [read_frac]. destruct (Ascii.eqb c "."); [|by intros [= <- <-]].
    apply glue_app. intros d' r'. by apply digits1_app.
Qed.

Lemma read_exp_app s rest d r : delimited rest = true ->
  read_exp s = Some (d, r) -> read_exp (s +:+ rest) = Some (d, r +:+ rest).
Proof.
  intros D. destruct s as [|c s].
  - intros [= <- <-]. destruct rest as [|c rest]; [done|].
    change ("" +:+ String c rest) with (String c rest). cbn [read_exp].
    destruct (delimited_cons _ _ D) as (_ & _ & -> & ->). done.
  - rewrite str_app_cons. cbn [read_exp]. destruct (Ascii.eqb c "e" || Ascii.eqb c "E"); [|by intros [= <- <-]].
    destruct s as [|g s]; [done|]. rewrite str_app_cons.
    destruct (Ascii.eqb g "+" || Ascii.eqb g "-"); apply glue_app; intros d' r' H; [by apply digits1_app|].
    rewrite <- str_app_cons. by apply digits1_app.
Qed.

Lemma read_number_app l rest : delimited rest = true -> number_text l -> read_number (l +:+ rest) = Some (l, rest).
Proof.
  unfold number_text, read_number. intros D.
  assert (G : forall sign s, match read_int s with
      | None => None
      | Some (i, s) => match read_frac s with None => None | Some (f, s) =>
          match read_exp s with None => None | Some (e, s) => Some (sign +:+ i +:+ f +:+ e, s) end end end = Some (l, "") ->
    match read_int (s +:+ rest) with
      | None => None
      | Some (i, s) => match read_frac s with None => None | Some (f, s) =>
          match read_exp s with None => None | Some (e, s) => Some (sign +:+ i +:+ f +:+ e, s) end end end = Some (l, rest)).
  { intros sign s. destruct (read_int s) as [[i s1]|] eqn:E1; [|done]. rewrite (read_int_app _ _ _ _ D E1).
    destruct (read_frac s1) as [[f s2]|] eqn:E2; [|done]. rewrite (read_frac_app _ _ _ _ D E2).
    destruct (read_exp s2) as [[e s3]|] eqn:E3; [|done]. rewrite (read_exp_app _ _ _ _ D E3).
    intros [= -> ->]. done. }
  destruct l as [|c l]; [done|]. rewrite str_app_cons. destruct (Ascii.eqb c "-"); [apply (G "-" l)|].
  rewrite <- str_app_cons. apply (G "" (String c l)).
Qed.

(** ** Values *)

Lemma skip_ws_app w c s : spaces w = true -> json_space c = false -> skip_ws (w +:+ String c s) = String c s.
Proof.
  intros W C. unfold skip_ws, spaces in *. induction w as [|a w IH].
  - change ("" +:+ String c s) with (String c s). cbn [TrimLeft]. by rewrite C.
  - cbn [str_forall] in W. apply andb_true_iff in W as [W1 W2].
    rewrite str_app_cons. cbn [TrimLeft]. rewrite W1. by apply IH.
Qed.

Lemma skip_ws_nil w : spaces w = true -> skip_ws w = "".
Proof.
  induction w as [|a w IH]; [done|]. unfold spaces, skip_ws in *. cbn. intros H. to_prop.
  rewrite H. by apply IH.
Qed.

(** The head of a value is no space and closes nothing. *)
Definition opens (t : string) : Prop :=
  exists c t', t = String c t' /\ json_space c = false /\ Ascii.eqb c "]" = false /\ Ascii.eqb c "}" = false.

Lemma number_opens l : number_text l -> exists c t, l = String c t /\ (Ascii.eqb c "-" || is_digit c) = true.
Proof.
  unfold number_text, read_number. destruct l as [|c l]; [done|]. intros H. exists c, l. split; [done|].
  destruct (Ascii.eqb_spec c "-"); [done|]. cbn in H |- *. destruct (Ascii.eqb_spec c "0") as [->|]; [done|].
  unfold digits1 in H. cbn in H. by destruct (is_digit c).
Qed.

Lemma number_head c : Ascii.eqb c "-" || is_digit c = true ->
  json_space c = false /\ Ascii.eqb c "]" = false /\ Ascii.eqb c "}" = false.
Proof. destruct c as [[] [] [] [] [] [] [] []]; intros H; vm_compute in H |- *; done. Qed.

Lemma renders_opens d v t : renders d v t -> opens t.
Proof.
  intros H. destruct H; unfold opens; try (eexists _, _; split; [reflexivity|done]).
  destruct (number_opens l H) as (c & t & -> & C). exists c, t. split; [done|].
  by apply number_head.
Qed.

Lemma items_open d vs t : items_text d vs t -> exists w t', t = w +:+ t' /\ spaces w = true /\ opens t'.
Proof.
  intros H. destruct H as [d v w t w' W W' V|d v vs w t w' u W W' V _];
    destruct (renders_opens _ _ _ V) as (c & t' & -> & C); exists w; eexists; split; try done;
    split; try done; rewrite str_app_cons; eexists _, _; split; done.
Qed.

Lemma members_open d ms t : members_text d ms t -> exists w t', t = w +:+ t' /\ spaces w = true /\ opens t'.
Proof.
  intros H. destruct H; exists w; eexists; split; try done; split; try done;
    unfold in_quotes; rewrite str_app_cons; eexists _, _; split; done.
Qed.

Lemma skip_ws_opens w t rest : spaces w = true -> opens t -> skip_ws (w +:+ t +:+ rest) = t +:+ rest.
Proof. intros W (c & t' & -> & C & _). rewrite str_app_cons. by apply skip_ws_app. Qed.

Lemma read_value_ws fuel d w t rest : spaces w = true -> opens t ->
  read_value fuel d (w +:+ t +:+ rest) = read_value fuel d (t +:+ rest).
Proof.
  intros W O. destruct fuel as [|fuel]; [done|]. cbn [read_value].
  rewrite (skip_ws_opens w t rest W O). by rewrite <- (skip_ws_opens "" t rest eq_refl O) at 1.
Qed.

Lemma space_delimited c s : json_space c = true -> delimited (String c s) = true.
Proof. unfold delimited. destruct c as [[] [] [] [] [] [] [] []]; intros H; vm_compute in H |- *; done. Qed.

Lemma delimited_ws w s : spaces w = true -> delimited s = true -> delimited (w +:+ s) = true.
Proof.
  destruct w as [|a w]; [done|]. unfold spaces. cbn [str_forall]. intros [W _]%andb_true_iff _.
  rewrite str_app_cons. by apply space_delimited.
Qed.

Lemma read_array fuel d s :
  read_value (S fuel) (S d) (String "[" s) =
  match skip_ws s with
  | String c2 s2 => if Ascii.eqb c2 "]" then Some (JArray [], s2)
      else match read_items fuel d s with Some (vs, r) => Some (JArray vs, r) | None => None end
  | "" => None
  end.
Proof. reflexivity. Qed.

Lemma read_object fuel d s :
  read_value (S fuel) (S d) (String "{" s) =
  match skip_ws s with
  | String c2 s2 => if Ascii.eqb c2 "}" then Some (JObject [], s2)
      else match read_members fuel d s with Some (ms, r) => Some (JObject ms, r) | None => None end
  | "" => None
  end.
Proof. reflexivity. Qed.

Lemma read_string_value fuel d s :
  read_value (S fuel) d (String dquote s) =
  match read_string 0 s with Some (t, r) => Some (JString t, r) | None => None end.
Proof. reflexivity. Qed.

Lemma read_number_value fuel d c s : Ascii.eqb c "-" || is_digit c = true ->
  read_value (S fuel) d (String c s) =
  match read_number (String c s) with Some (l, r) => Some (JNumber l, r) | None => None end.
Proof.
  intros H. cbn [read_value]. unfold skip_ws. cbn [TrimLeft]. rewrite (proj1 (number_head c H)).
  destruct (Ascii.eqb_spec c "{") as [->|_]; [done|]. destruct (Ascii.eqb_spec c "[") as [->|_]; [done|].
  destruct (Ascii.eqb_spec c dquote) as [->|_]; [done|]. by rewrite H.
Qed.

(** The number of steps left covers a text; the lengths of the parts of a text. *)
Ltac fuel_tac :=
  unfold in_quotes in *;
  repeat (match goal with
          | H : context [String.length (_ +:+ _)] |- _ => rewrite str_length_app in H
          | |- context [String.length (_ +:+ _)] => rewrite str_length_app
          end; cbn [String.length] in *);
  cbn [String.length] in *; lia.

(** One item or member is read up to its delimiter. *)
Lemma read_spaced fuel d v w t w' c rest :
  spaces w = true -> spaces w' = true -> renders d v t -> delimited (String c rest) = true ->
  (forall fuel rest, (2 * String.length t + 1 <= fuel)%nat -> delimited rest = true ->
     read_value fuel d (t +:+ rest) = Some (v, rest)) ->
  (2 * String.length t + 1 <= fuel)%nat ->
  read_value fuel d (w +:+ t +:+ w' +:+ String c rest) = Some (v, w' +:+ String c rest).
Proof.
  intros W W' V D IH L. rewrite read_value_ws by (done || by eapply renders_opens). apply IH; [done|].
  by apply delimited_ws.
Qed.

Lemma read_member_head fuel d w kt k w1 s : spaces w = true -> spaces w1 = true -> string_body k kt ->
  read_members (S fuel) d (w +:+ in_quotes kt +:+ w1 +:+ String ":" s) =
  match read_value fuel d s with
  | None => None
  | Some (v, r) =>
    match skip_ws r with
    | String c r1 =>
      if Ascii.eqb c ","%char then
        match read_members fuel d r1 with Some (ms, r) => Some ((k, v) :: ms, r) | None => None end
      else if Ascii.eqb c "}"%char then Some ([(k, v)], r1)
      else None
    | "" => None
    end
  end.
Proof.
  intros W W1 K. cbn [read_members]. unfold in_quotes. rewrite str_app_cons, skip_ws_app by done.
  cbn [negb Ascii.eqb]. replace (Ascii.eqb dquote dquote) with true by reflexivity. cbn [negb].
  rewrite str_app_assoc, str_app_cons. change ("" +:+ ?x) with x.
  rewrite (read_string_body k kt) by done. rewrite skip_ws_app by done. reflexivity.
Qed.

Definition value_reads (d : nat) (v : json) (t : string) : Prop :=
  forall fuel rest, (2 * String.length t + 1 <= fuel)%nat -> delimited rest = true ->
  read_value fuel d (t +:+ rest) = Some (v, rest).
Definition items_read (d : nat) (vs : list json) (t : string) : Prop :=
  forall fuel rest, (2 * String.length t + 2 <= fuel)%nat ->
  read_items fuel d (t +:+ String "]" rest) = Some (vs, rest).
Definition members_read (d : nat) (ms : list (string * json)) (t : string) : Prop :=
  forall fuel rest, (2 * String.length t + 2 <= fuel)%nat ->
  read_members fuel d (t +:+ String "}" rest) = Some (ms, rest).

Ltac start_read :=
  intros; intros fuel rest L; try intros D;
  destruct fuel as [|fuel]; [exfalso; clear -L; fuel_tac|].

Lemma close_app (l : ascii) t (r : ascii) rest :
  (String l "" +:+ t +:+ String r "") +:+ rest = String l (t +:+ String r rest).
Proof. by rewrite !str_app_cons, !str_app_assoc, !str_app_cons. Qed.

(** Every text of the grammar is read, whatever follows it. *)
Lemma texts_are_read :
  (forall d v t, renders d v t -> value_reads d v t) /\
  (forall d vs t, items_text d vs t -> items_read d vs t) /\
  (forall d ms t, members_text d ms t -> members_read d ms t).
Proof.
  apply json_text_ind; start_read.
  - by destruct rest.
  - by destruct rest.
  - by destruct rest.
  - destruct (number_opens l n) as (c & l' & -> & C). rewrite str_app_cons, read_number_value by done.
    by rewrite <- str_app_cons, read_number_app.
  - unfold in_quotes. rewrite str_app_cons, read_string_value, str_app_assoc, str_app_cons.
    by rewrite (read_string_body s t).
  - rewrite (close_app "[" w "]"), read_array, skip_ws_app; done.
  - rewrite (close_app "[" t "]"), read_array. destruct (items_open _ _ _ i) as (w & t' & -> & W & O).
    rewrite str_app_assoc, skip_ws_opens, <- str_app_assoc by done. destruct O as (c & t'' & -> & _ & C & _).
    rewrite str_app_cons, C, H; [done|fuel_tac].
  - rewrite (close_app "{" w "}"), read_object, skip_ws_app; done.
  - rewrite (close_app "{" t "}"), read_object. destruct (members_open _ _ _ m) as (w & t' & -> & W & O).
    rewrite str_app_assoc, skip_ws_opens, <- str_app_assoc by done. destruct O as (c & t'' & -> & _ & _ & C).
    rewrite str_app_cons, C, H; [done|fuel_tac].
  - cbn [read_items]. rewrite !str_app_assoc, (read_spaced _ _ v) by (done || fuel_tac).
    by rewrite skip_ws_app.
  - cbn [read_items]. rewrite !str_app_assoc, !str_app_cons. repeat (progress change ("" +:+ ?x) with x).
    rewrite (read_spaced _ _ v) by (done || fuel_tac). rewrite skip_ws_app by done.
    cbn [Ascii.eqb]. rewrite H0; [done|fuel_tac].
  - rewrite !str_app_assoc, (str_app_cons ":"). repeat (progress change ("" +:+ ?x) with x).
    rewrite (read_member_head _ _ w kt k w1) by done. rewrite (read_spaced _ _ v) by (done || fuel_tac).
    by rewrite skip_ws_app.
  - rewrite !str_app_assoc, (str_app_cons ":"), (str_app_cons ","). repeat (progress change ("" +:+ ?x) with x).
    rewrite (read_member_head _ _ w kt k w1) by done. rewrite (read_spaced _ _ v) by (done || fuel_tac).
    rewrite skip_ws_app by done. cbn [Ascii.eqb]. rewrite H0; [done|fuel_tac].
Qed.

(** A JSON text is parsed to its value, surrounding white space included. *)
Lemma parse_renders w v t w' : spaces w = true -> spaces w' = true -> renders maxNestingDepth v t ->
  parse_json (w +:+ t +:+ w') = Some v.
Proof.
  intros W W' V. unfold parse_json. rewrite read_value_ws by (done || by eapply renders_opens).
  rewrite (proj1 texts_are_read _ _ _ V).
  - by rewrite skip_ws_nil.
  - rewrite !str_length_app. lia.
  - rewrite <- (str_app_nil_r w'). by apply delimited_ws.
Qed.

(** Printable ASCII text without quotes and backslashes stands for itself. *)
Lemma plain_body s : str_forall string_char s = true -> string_body s s.
Proof.
  induction s as [|c s IH]; cbn [str_forall]; [constructor|]. intros [H1 H2]%andb_true_iff.
  constructor; auto.
Qed.
