(* ===== verification/JsonWriter.v ===== *)
(** * Writing JSON ([encoding/json.Marshal])

    The compact text of a JSON value as the encoder writes it, strings escaped as
    [Encoding.json_string] does. What the reader of [Json] makes of it is the value
    again, up to what the encoder does to bytes that are not UTF-8
    ([written_json_is_read_back]). *)

From stdpp Require Import base gmap strings list.
From Stdlib Require Import ZArith Lia Ascii.
From S2P Require Import Prelude GoStrings Encoding Json.

Local Open Scope Z_scope.

(** ** The writer *)

Fixpoint write_json (v : json) : string :=
  match v with
  | JNull => "null"
  | JBool b => if b then "true" else "false"
  | JNumber l => l
  | JString s => json_string s
  | JArray vs => "[" +:+ Join "," (map write_json vs) +:+ "]"
  | JObject ms => "{" +:+ Join "," (map (fun '(k, v) => json_string k +:+ ":" +:+ write_json v) ms) +:+ "}"
  end.

(** A string with every byte that is not part of a UTF-8 sequence replaced. *)
Fixpoint to_valid_from (k : nat) (s : string) : string :=
  match s with
  | "" => ""
  | String c s' =>
    match k with
    | S k => String c (to_valid_from k s')
    | O =>
      if in_range 0 127 c then String c (to_valid_from 0 s')
      else match rune_len s with
           | O => encode_rune RuneError +:+ to_valid_from 0 s'
           | S k => String c (to_valid_from k s')
           end
    end
  end.
Definition to_valid (s : string) : string := to_valid_from 0 s.

(** What a value becomes on its way. *)
Fixpoint valid_json (v : json) : json :=
  match v with
  | JString s => JString (to_valid s)
  | JArray vs => JArray (map valid_json vs)
  | JObject ms => JObject (map (fun '(k, v) => (to_valid k, valid_json v)) ms)
  | v => v
  end.

(** Values the reader accepts: its nesting and the form of the numbers. *)
Fixpoint depth (v : json) : nat :=
  match v with
  | JArray vs => S (max_list (map depth vs))
  | JObject ms => S (max_list (map (fun '(_, v) => depth v) ms))
  | _ => 0
  end.
Fixpoint numbers_ok (v : json) : Prop :=
  match v with
  | JNumber l => number_text l
  | JArray vs => foldr (fun v P => numbers_ok v /\ P) True vs
  | JObject ms => foldr (fun '(_, v) P => numbers_ok v /\ P) True ms
  | _ => True
  end.

(** Arrays of strings, and integers. *)
Definition strings (l : list string) : json := JArray (map JString l).
Definition int (n : Z) : json := JNumber (FormatInt n).

(** ** Strings *)

Lemma to_valid_ascii s : is_ascii s = true -> to_valid s = s.
Proof.
  unfold to_valid, is_ascii. induction s as [|c s IH]; cbn [str_forall to_valid_from]; [done|].
  intros [-> H]%andb_true_iff. by rewrite IH.
Qed.

(** A sequence at the head of a string is a sequence by itself. *)
Lemma rune_len_head s k : rune_len s = S k ->
  exists r rest, s = r +:+ rest /\ String.length r = S k /\ (2 <= String.length r)%nat /\ rune_len r = String.length r.
Proof.
  destruct s as [|a [|b s]]; [done..|]. unfold rune_len at 1. intros H.
  destruct (in_range 0xC2 0xDF a) eqn:Ea.
  { destruct (in_range 0x80 0xBF b) eqn:Eb; [|done]. injection H as <-. exists (String a (String b "")), s.
    split_and!; [done | done | simpl; lia|]. unfold rune_len. by rewrite Ea, Eb. }
  destruct s as [|c s]; [done|].
  destruct (is_byte 0xE0 a) eqn:E0; [|destruct (is_byte 0xED a) eqn:ED; [|destruct (in_range 0xE1 0xEF a) eqn:E1]].
  4:{ destruct s as [|d s]; [done|]. exists (String a (String b (String c (String d "")))), s.
      assert (k = 3%nat) as ->.
      { destruct (is_byte 0xF0 a), (in_range 0xF1 0xF3 a), (is_byte 0xF4 a); repeat (destruct (_ && _)); congruence. }
      split_and!; [done | done | simpl; lia|]. unfold rune_len. by rewrite Ea, E0, ED, E1. }
  all: exists (String a (String b (String c ""))), s; destruct (_ && _) eqn:E; [|done]; injection H as <-;
    (split_and!; [done | done | simpl; lia|]); unfold rune_len; by rewrite Ea, ?E0, ?ED, ?E1, E.
Qed.

Lemma body_copy k r rest : String.length r = k -> json_body k true (r +:+ rest) = r +:+ json_body 0 true rest.
Proof. revert k. induction r as [|c r IH]; intros [|k] H; try done. rewrite !str_app_cons. simpl in *. by rewrite IH by lia. Qed.
Lemma body_skip k r rest : String.length r = k -> json_body k false (r +:+ rest) = json_body 0 true rest.
Proof. revert k. induction r as [|c r IH]; intros [|k] H; try done; [by destruct rest|]. rewrite str_app_cons. simpl in *. by rewrite IH by lia. Qed.
Lemma valid_copy k r rest : String.length r = k -> to_valid_from k (r +:+ rest) = r +:+ to_valid rest.
Proof. revert k. induction r as [|c r IH]; intros [|k] H; try done. rewrite !str_app_cons. simpl in *. by rewrite IH by lia. Qed.

(** One escaped or copied ASCII byte denotes the byte. *)
Definition char_denotes (c : ascii) : bool :=
  let b := json_char c in
  if html_safe c then String.eqb b (String c "") && string_char c
  else match b with
       | String s (String e "") => Ascii.eqb s bslash && match unescape e with Some c' => Ascii.eqb c' c | None => false end
       | String s (String u (String x (String y (String z (String w ""))))) =>
         Ascii.eqb s bslash && Ascii.eqb u "u" &&
         match hex4 x y z w with Some r => negb (IsSurrogate r) && String.eqb (encode_rune r) (String c "") | None => false end
       | _ => false
       end.

Lemma char_denotes_ascii c : in_range 0 127 c = true -> char_denotes c = true.
Proof.
  intros H%in_all_ascii. assert (A : forallb char_denotes all_ascii = true) by (vm_compute; reflexivity).
  rewrite forallb_forall in A. by apply A, list_elem_of_In.
Qed.

Lemma char_body c s t : in_range 0 127 c = true -> string_body s t -> string_body (String c s) (json_char c +:+ t).
Proof.
  intros H%char_denotes_ascii Hs. revert H. unfold char_denotes. destruct (html_safe c) eqn:Eh.
  - unfold json_char. rewrite Eh. intros [_ H]%andb_true_iff. by constructor.
  - destruct (json_char c) as [|x1 [|x2 [|x3 [|x4 [|x5 [|x6 [|]]]]]]]; try done.
    + intros [->%Ascii.eqb_eq H]%andb_true_iff. destruct (unescape x2) as [c'|] eqn:E; [|done].
      apply Ascii.eqb_eq in H as ->. by apply SB_escape.
    + intros [[->%Ascii.eqb_eq ->%Ascii.eqb_eq]%andb_true_iff H]%andb_true_iff.
      destruct (hex4 x3 x4 x5 x6) as [r|] eqn:E; [|done].
      apply andb_true_iff in H as [H1%negb_true_iff H2%String.eqb_eq].
      change (String c s) with (String c "" +:+ s). rewrite <- H2. by apply SB_unicode.
Qed.

Lemma is_byte_char n c : is_byte n c = true -> c = byte_char n.
Proof.
  intros Hc. unfold is_byte, byte_of in Hc. apply Z.eqb_eq in Hc. unfold byte_char. rewrite <- Hc, N2Z.id.
  by rewrite ascii_N_embedding.
Qed.
Lemma separator_rune r rest u : line_separator (r +:+ rest) = Some u -> String.length r = 3%nat ->
  exists a b c d n, u = String a (String b (String c (String d ""))) /\ hex4 a b c d = Some n /\ IsSurrogate n = false /\ encode_rune n = r.
Proof.
  destruct r as [|x [|y [|z [|]]]]; try done. unfold line_separator. rewrite !str_app_cons. intros H _.
  destruct (is_byte 0xE2 x && is_byte 0x80 y) eqn:E; [|done]. apply andb_true_iff in E as [Hx Hy].
  apply is_byte_char in Hx, Hy. subst x y.
  destruct (is_byte 0xA8 z) eqn:E1; [|destruct (is_byte 0xA9 z) eqn:E2; [|done]]; injection H as <-.
  - apply is_byte_char in E1 as ->. exists "2"%char, "0"%char, "2"%char, "8"%char, 0x2028. done.
  - apply is_byte_char in E2 as ->. exists "2"%char, "0"%char, "2"%char, "9"%char, 0x2029. done.
Qed.

Lemma separator_length r rest u : (2 <= String.length r)%nat -> rune_len r = String.length r ->
  line_separator (r +:+ rest) = Some u -> String.length r = 3%nat.
Proof.
  intros H2 Hr El. destruct r as [|c r]; [simpl in H2; lia|]. rewrite str_app_cons in El. unfold line_separator in El.
  destruct r as [|y [|z r]]; simpl in *.
  - lia.
  - exfalso. revert Hr. unfold rune_len. destruct (in_range 0xC2 0xDF c) eqn:E; [|done].
    destruct rest as [|z rest]; [done|]. destruct (is_byte 0xE2 c) eqn:E2; [|done].
    unfold in_range in E. unfold is_byte in E2. apply Z.eqb_eq in E2. rewrite E2 in E. done.
  - destruct (is_byte 0xE2 c) eqn:E2; [|done]. destruct r; [done|]. exfalso. revert Hr.
    unfold is_byte in E2. apply Z.eqb_eq in E2. unfold rune_len, in_range, is_byte. rewrite E2. simpl.
    repeat (destruct (_ && _)); simpl; try congruence.
Qed.

(** What the encoder writes between quotes denotes the string. *)
Lemma json_body_denotes s : string_body (to_valid s) (json_body 0 true s).
Proof.
  remember (String.length s) as n eqn:Hn. revert s Hn. induction n as [n IH] using lt_wf_ind. intros s ->.
  destruct s as [|c s]; [constructor|]. unfold to_valid. cbn [to_valid_from json_body].
  destruct (in_range 0 127 c) eqn:Ec; [apply char_body; [done|]; eapply IH; [|reflexivity]; simpl; lia|].
  destruct (rune_len (String c s)) as [|k] eqn:Er.
  - change (esc_u "fffd" +:+ ?t) with (String bslash (String "u" (String "f" (String "f" (String "f" (String "d" t)))))).
    apply SB_unicode; [done | done|]. eapply IH; [|reflexivity]. simpl. lia.
  - apply rune_len_head in Er as (r & rest & E & Hl & H2 & Hr). destruct r as [|c' r]; [done|].
    rewrite str_app_cons in E. injection E as <- ->. injection Hl as Hl.
    assert (Hrest : string_body (to_valid rest) (json_body 0 true rest)).
    { eapply IH; [|reflexivity]. simpl. rewrite str_length_app. lia. }
    change (String c (r +:+ rest)) with (String c r +:+ rest).
    destruct (line_separator (String c r +:+ rest)) as [u|] eqn:El.
    + pose proof (separator_length _ _ _ H2 Hr El) as H3.
      apply separator_rune in El as (x1 & x2 & x3 & x4 & m & -> & Hh & Hs & He); [|done].
      rewrite body_skip, valid_copy by done. change (String c (r +:+ to_valid rest)) with (String c r +:+ to_valid rest).
      rewrite <- He. by apply SB_unicode.
    + rewrite body_copy, valid_copy by done. by apply (SB_rune (String c r)).
Qed.

(** ** Numbers *)

Lemma fmt_digits_head fuel n acc : 0 < n -> n < 2 ^ Z.of_nat fuel ->
  exists d rest, 0 < d < 10 /\ fmt_digits fuel n acc = String (digit_char d) rest.
Proof.
  revert n acc. induction fuel as [|fuel IH]; intros n acc Hn Hf; [simpl in Hf; lia|]. cbn [fmt_digits].
  rewrite (proj2 (Z.leb_gt n 0)) by done. destruct (Z.eq_dec (n / 10) 0) as [Hz|Hz].
  - exists (n mod 10), acc. assert (n mod 10 = n) by (apply Z.mod_small; apply Z.div_small_iff in Hz; lia).
    split; [apply Z.div_small_iff in Hz; lia|]. rewrite Hz. by destruct fuel.
  - apply IH; [pose proof (Z.div_pos n 10); lia|]. rewrite Nat2Z.inj_succ, Z.pow_succ_r in Hf by lia.
    apply Z.div_lt_upper_bound; lia.
Qed.

Lemma span_all s : str_forall is_digit s = true -> span_digits s = (s, "").
Proof. induction s as [|c s IH]; cbn [str_forall span_digits]; [done|]. intros [-> H]%andb_true_iff. by rewrite IH. Qed.

Lemma read_format n : 0 <= n -> read_int (format_nonneg n) = Some (format_nonneg n, "").
Proof.
  intros H. unfold format_nonneg. destruct (Z.eqb_spec n 0) as [->|Hn]; [done|].
  pose proof (format_nonneg_digits n H) as Hd. unfold format_nonneg in Hd. rewrite (proj2 (Z.eqb_neq n 0)) in Hd by done.
  destruct (fmt_digits_head (fmt_fuel n) n "" ltac:(lia) (fmt_fuel_enough n H)) as (d & rest & Hr & E). rewrite E in *.
  unfold read_int. destruct (Ascii.eqb_spec (digit_char d) "0") as [E0|_].
  - apply (f_equal byte_of) in E0. rewrite byte_of_digit_char in E0 by lia. change (byte_of "0") with 48 in E0. lia.
  - unfold digits1. by rewrite span_all.
Qed.

Lemma number_text_FormatInt n : number_text (FormatInt n).
Proof.
  unfold number_text, FormatInt, read_number. destruct (Z.ltb_spec n 0) as [H|H].
  - rewrite Ascii.eqb_refl, read_format by lia. cbn [read_frac read_exp].
    change ("" +:+ "") with "". by rewrite str_app_nil_r.
  - pose proof (format_nonneg_digits n H) as Hd. pose proof (read_format n H) as Hr.
    destruct (format_nonneg n) as [|c s]; [done|]. cbn [str_forall] in Hd. apply andb_true_iff in Hd as [Hc _].
    destruct (Ascii.eqb_spec c "-") as [->|_]; [done|]. rewrite Hr. simpl. by rewrite !str_app_nil_r.
Qed.

(** ** Values *)

(** Texts of values, joined. *)
Definition array_text (ts : list string) : string := "[" +:+ Join "," ts +:+ "]".
Definition member_text (m : string * string) : string := json_string m.1 +:+ ":" +:+ m.2.
Definition object_text (ms : list (string * string)) : string := "{" +:+ Join "," (map member_text ms) +:+ "}".

Lemma items_join d vs ts : vs <> [] -> Forall2 (renders d) vs ts -> items_text d vs (Join "," ts).
Proof.
  intros Hne H. induction H as [|v t vs ts Hv H IH]; [done|]. destruct H as [|v' t' vs ts Hv' H].
  - pose proof (I_one d _ "" _ "" eq_refl eq_refl Hv) as E. by rewrite str_app_nil_r in E.
  - apply (I_cons d _ _ "" _ "" _ eq_refl eq_refl Hv). by apply IH.
Qed.

Lemma members_join d ms ts : ms <> [] -> Forall2 (fun m t => m.1 = to_valid t.1 /\ renders d m.2 t.2) ms ts ->
  members_text d ms (Join "," (map member_text ts)).
Proof.
  intros Hne H. induction H as [|[k v] [k' t] ms ts Hv H IH]; [done|]. cbn [fst snd] in Hv. destruct Hv as [-> Hv].
  pose proof (json_body_denotes k') as Hk. destruct H as [|[k2 v2] [k2' t2] ms ts Hv2 H].
  - pose proof (M_one d _ _ _ "" "" "" _ "" eq_refl eq_refl eq_refl eq_refl Hk Hv) as E. by rewrite str_app_nil_r in E.
  - pose proof (M_cons d _ _ _ _ "" "" "" _ "" _ eq_refl eq_refl eq_refl eq_refl Hk Hv (IH ltac:(done))) as E.
    change (Join "," (map member_text ((k', t) :: (k2', t2) :: ts)))
      with (member_text (k', t) +:+ "," +:+ Join "," (map member_text ((k2', t2) :: ts))).
    unfold member_text at 1. rewrite !str_app_assoc. exact E.
Qed.

(** An array and an object of such texts. *)
Lemma array_renders d vs ts : Forall2 (renders d) vs ts -> renders (S d) (JArray vs) (array_text ts).
Proof. intros H. destruct H; [by apply (R_array0 d "")|]. apply (R_array d), items_join; [done|by constructor]. Qed.
Lemma object_renders d ms ts : Forall2 (fun m t => m.1 = to_valid t.1 /\ renders d m.2 t.2) ms ts ->
  renders (S d) (JObject ms) (object_text ts).
Proof. intros H. destruct H; [by apply (R_object0 d "")|]. apply (R_object d), members_join; [done|by constructor]. Qed.

Lemma max_list_cons x l m : (max_list (x :: l) <= m)%nat <-> (x <= m)%nat /\ (max_list l <= m)%nat.
Proof. change (max_list (x :: l)) with (x `max` max_list l)%nat. lia. Qed.

Lemma write_renders v : forall d, (depth v <= d)%nat -> numbers_ok v -> renders d (valid_json v) (write_json v).
Proof.
  revert v. fix IH 1. intros [|b|l|s|vs|ms] d Hd Hn.
  - constructor.
  - destruct b; constructor.
  - by constructor.
  - apply R_string, json_body_denotes.
  - destruct d as [|d]; [simpl in Hd; lia|]. cbn [depth] in Hd. apply le_S_n in Hd.
    apply (array_renders d (map valid_json vs) (map write_json vs)). revert vs Hd Hn. fix IHl 1. intros [|v vs] Hd Hn; [constructor|].
    cbn [map] in Hd. apply max_list_cons in Hd as [Hd1 Hd2]. destruct Hn as [Hn1 Hn2].
    constructor; [by apply IH|by apply IHl].
  - destruct d as [|d]; [simpl in Hd; lia|]. cbn [depth] in Hd. apply le_S_n in Hd. cbn [write_json].
    assert (E : map (fun '(k, v) => json_string k +:+ ":" +:+ write_json v) ms = map member_text (map (fun '(k, v) => (k, write_json v)) ms)).
    { rewrite map_map. apply map_ext. by intros []. }
    rewrite E. apply (object_renders d). clear E. revert ms Hd Hn. fix IHl 1. intros [|[k v] ms] Hd Hn; [constructor|].
    cbn [map] in Hd. apply max_list_cons in Hd as [Hd1 Hd2]. destruct Hn as [Hn1 Hn2].
    constructor; [split; [done|by apply IH]|by apply IHl].
Qed.

(** A value that does not nest too deep is read back from its text as it was, except
    that bytes of its strings that are not UTF-8 have been replaced. *)
Theorem written_json_is_read_back v : (depth v <= maxNestingDepth)%nat -> numbers_ok v ->
  parse_json (write_json v) = Some (valid_json v).
Proof.
  intros Hd Hn. rewrite <- (str_app_nil_r (write_json v)).
  by apply (parse_renders "" _ _ ""), write_renders.
Qed.

(** Values of bounded depth with well-formed numbers. *)
Definition shallow (d : nat) (v : json) : Prop := (depth v <= d)%nat /\ numbers_ok v.

Lemma shallow_object d ms : Forall (fun m => shallow d m.2) ms -> shallow (S d) (JObject ms).
Proof.
  unfold shallow. cbn [depth numbers_ok]. induction 1 as [|[k v] ms [H1 H2] _ [IH1 IH2]]; [split; [simpl; lia|done]|].
  cbn [map] in *. split; [|done]. apply le_n_S, max_list_cons. split; [done|lia].
Qed.
Lemma shallow_array d vs : Forall (shallow d) vs -> shallow (S d) (JArray vs).
Proof.
  unfold shallow. cbn [depth numbers_ok]. induction 1 as [|v vs [H1 H2] _ [IH1 IH2]]; [split; [simpl; lia|done]|].
  cbn [map] in *. split; [|done]. apply le_n_S, max_list_cons. split; [done|lia].
Qed.
Lemma shallow_string d s : shallow d (JString s).
Proof. split; [simpl; lia|done]. Qed.
Lemma shallow_int d n : shallow d (int n).
Proof. split; [simpl; lia|apply number_text_FormatInt]. Qed.
Lemma shallow_strings d l : shallow (S d) (strings l).
Proof. apply shallow_array, Forall_map, Forall_true. intros s. apply shallow_string. Qed.
Lemma shallow_bool d b : shallow d (JBool b).
Proof. split; [simpl; lia|done]. Qed.
#[export] Hint Resolve shallow_object shallow_string shallow_int shallow_strings shallow_bool : go.

(** A list of members, one by one. *)
Ltac members := rewrite ?Forall_app; split_and?; repeat apply Forall_cons_2; try apply Forall_nil_2; cbn [snd]; auto with go.

(** A shallow value is read back. *)
Lemma shallow_is_read_back d v : shallow d v -> (d <= 100)%nat -> parse_json (write_json v) = Some (valid_json v).
Proof.
  intros [Hd Hn] H. apply written_json_is_read_back; [|done].
  apply (Nat.le_trans _ 100); [lia|]. apply Nat.leb_le. vm_compute. reflexivity.
Qed.

(** ... and an object is decoded into a struct by its members. *)
Lemma shallow_is_decoded {R} (fs : list (Field R)) zero d ms : shallow d (JObject ms) -> (d <= 100)%nat ->
  Decode fs zero (write_json (JObject ms)) = store_members fs (map (fun '(k, v) => (to_valid k, valid_json v)) ms) zero.
Proof.
  intros H Hd. apply shallow_is_read_back in H; [|done]. unfold parse_json in H. unfold Decode.
  destruct (read_value _ _ _) as [[v r]|]; [|done]. destruct (String.eqb _ _); [|done]. by injection H as ->.
Qed.

(** ** Indented text *)

(** [json.MarshalIndent] with an empty prefix and two blanks: every member and element
    on a line of its own, indented by its nesting. *)
Fixpoint blanks (n : nat) : string := match n with O => "" | S n => "  " +:+ blanks n end.
Definition new_line (n : nat) : string := String nl (blanks n).
Fixpoint indent_json (n : nat) (v : json) : string :=
  match v with
  | JArray ((_ :: _) as vs) =>
    "[" +:+ Join "," (map (fun v => new_line (S n) +:+ indent_json (S n) v) vs) +:+ new_line n +:+ "]"
  | JObject ((_ :: _) as ms) =>
    "{" +:+ Join "," (map (fun '(k, v) => new_line (S n) +:+ json_string k +:+ ": " +:+ indent_json (S n) v) ms) +:+ new_line n +:+ "}"
  | _ => write_json v
  end.

Lemma spaces_new_line n : spaces (new_line n) = true.
Proof. unfold spaces, new_line. cbn [str_forall]. change (json_space nl) with true. by induction n. Qed.

(** Elements and members with white space before them, and some after the last. *)
Lemma indent_items d w w' f vs : vs <> [] -> spaces w = true -> spaces w' = true ->
  (forall v, v ∈ vs -> renders d (valid_json v) (f v)) ->
  items_text d (map valid_json vs) (Join "," (map (fun v => w +:+ f v) vs) +:+ w').
Proof.
  intros Hne Hw Hw'. induction vs as [|v vs IH]; intros H; [done|]. pose proof (H v ltac:(left)) as Hv.
  destruct vs as [|v' vs]; [cbn [map Join]; rewrite str_app_assoc; by apply I_one|].
  change (Join "," (map (fun v => w +:+ f v) (v :: v' :: vs))) with ((w +:+ f v) +:+ "," +:+ Join "," (map (fun v => w +:+ f v) (v' :: vs))).
  rewrite !str_app_assoc. apply (I_cons d _ _ w _ "" _ Hw eq_refl Hv). apply IH; [done|]. intros u Hu. apply H. by right.
Qed.

Lemma indent_members d w w' f ms : ms <> [] -> spaces w = true -> spaces w' = true ->
  (forall k v, (k, v) ∈ ms -> renders d (valid_json v) (f v)) ->
  members_text d (map (fun '(k, v) => (to_valid k, valid_json v)) ms)
    (Join "," (map (fun '(k, v) => w +:+ json_string k +:+ ": " +:+ f v) ms) +:+ w').
Proof.
  intros Hne Hw Hw'. induction ms as [|[k v] ms IH]; intros H; [done|].
  pose proof (H k v ltac:(left)) as Hv. pose proof (json_body_denotes k) as Hk. destruct ms as [|[k' v'] ms].
  - cbn [map Join]. rewrite !str_app_assoc. by apply (M_one d _ _ _ w "" " " _ w').
  - set (F := fun '(k, v) => w +:+ json_string k +:+ ": " +:+ f v) in *.
    change (Join "," (map F ((k, v) :: (k', v') :: ms))) with (F (k, v) +:+ "," +:+ Join "," (map F ((k', v') :: ms))).
    unfold F at 1. rewrite !str_app_assoc.
    apply (M_cons d _ _ _ _ w "" " " _ "" _ Hw eq_refl eq_refl eq_refl Hk Hv).
    apply IH; [done|]. intros k0 v0 Hi. eapply H. by right.
Qed.

Lemma indent_renders v : forall n d, (depth v <= d)%nat -> numbers_ok v -> renders d (valid_json v) (indent_json n v).
Proof.
  revert v. fix IH 1. intros [|b|l|s|vs|ms] n d Hd Hn; try by apply write_renders.
  - destruct vs as [|v0 vs0]; [by apply write_renders|]. destruct d as [|d]; [simpl in Hd; lia|].
    cbn [depth] in Hd. apply le_S_n in Hd. cbn [indent_json]. rewrite <- (str_app_assoc _ _ "]").
    apply (R_array d), (indent_items d _ _ (indent_json (S n)) (v0 :: vs0)); [done | apply spaces_new_line..|]. revert Hd Hn. generalize (v0 :: vs0).
    fix IHl 1. intros [|v vs] Hd Hn w Hw; [by apply not_elem_of_nil in Hw|].
    cbn [map] in Hd. apply max_list_cons in Hd as [Hd1 Hd2]. destruct Hn as [Hn1 Hn2].
    apply list_elem_of_In in Hw. destruct Hw as [<-|Hw]; [by apply IH|].
    apply (IHl vs); [done.. | by apply list_elem_of_In].
  - destruct ms as [|m0 ms0]; [by apply write_renders|]. destruct d as [|d]; [simpl in Hd; lia|].
    cbn [depth] in Hd. apply le_S_n in Hd. cbn [indent_json]. rewrite <- (str_app_assoc _ _ "}").
    apply (R_object d), (indent_members d _ _ (indent_json (S n)) (m0 :: ms0)); [done | apply spaces_new_line..|]. revert Hd Hn. generalize (m0 :: ms0).
    fix IHl 1. intros [|[k v] ms] Hd Hn k' w Hw; [by apply not_elem_of_nil in Hw|].
    cbn [map] in Hd. apply max_list_cons in Hd as [Hd1 Hd2]. destruct Hn as [Hn1 Hn2].
    apply list_elem_of_In in Hw. destruct Hw as [[= <- <-]|Hw]; [by apply IH|].
    eapply (IHl ms); [done.. | by apply list_elem_of_In].
Qed.

(** The indented text of a value, a newline behind it, is read back as the value. *)
Theorem indented_json_is_read_back v : (depth v <= maxNestingDepth)%nat -> numbers_ok v ->
  parse_json (indent_json 0 v +:+ String nl "") = Some (valid_json v).
Proof. intros Hd Hn. by apply (parse_renders "" _ _ (String nl "")), indent_renders. Qed.
Lemma shallow_is_read_indented d v : shallow d v -> (d <= 100)%nat ->
  parse_json (indent_json 0 v +:+ String nl "") = Some (valid_json v).
Proof.
  intros [Hd Hn] H. apply indented_json_is_read_back; [|done].
  apply (Nat.le_trans _ 100); [lia|]. apply Nat.leb_le. vm_compute. reflexivity.
Qed.
