(* ===== verification/Paths.v ===== *)
(** * Slash-separated paths

    What the program uses of [path] and [path/filepath] (on Unix): [Clean], [Join]
    of two elements, [Dir] and [IsAbs], as functions on strings; and what they
    mean for a rooted path, which is the list of its segments. *)

From stdpp Require Import base gmap strings list.
From Stdlib Require Import ZArith Lia Ascii.
From S2P Require Import Prelude GoStrings Texts.

Fixpoint clean_segs (rooted : bool) (stack : list string) (segs : list string) : list string :=
  match segs with
  | [] => reverse stack
  | seg :: rest =>
    if String.eqb seg "" || String.eqb seg "." then clean_segs rooted stack rest
    else if String.eqb seg ".." then
      match stack with
      | top :: stack' => if String.eqb top ".." then clean_segs rooted (seg :: stack) rest
                         else clean_segs rooted stack' rest
      | [] => if rooted then clean_segs rooted [] rest else clean_segs rooted [seg] rest
      end
    else clean_segs rooted (seg :: stack) rest
  end.

Definition Clean (p : string) : string :=
  let rooted := HasPrefix p "/" in
  let body := Join "/" (clean_segs rooted [] (Split "/"%char p)) in
  if rooted then "/" +:+ body else if String.eqb body "" then "." else body.

Definition PathJoin (a b : string) : string :=
  if String.eqb a "" then (if String.eqb b "" then "" else Clean b)
  else if String.eqb b "" then Clean a else Clean (a +:+ "/" +:+ b).

(** [filepath.Dir]; [filepath.IsAbs]. *)
Definition PathDir (p : string) : string :=
  Clean (String.rev (TrimLeft (fun c => negb (Ascii.eqb c "/")) (String.rev p))).
Definition IsAbs (p : string) : bool := HasPrefix p "/".

(** ** Rooted paths as segments *)

Definition no_slash (s : string) : bool := str_forall (fun c => negb (Ascii.eqb c "/")) s.

(** A name: what [Clean] leaves between two slashes of a rooted path. *)
Definition name_ok (s : string) : bool :=
  negb (String.eqb s "") && negb (String.eqb s ".") && negb (String.eqb s "..") && no_slash s.
Notation names_ok := (Forall (fun s => name_ok s = true)).

Definition abs_path (l : list string) : string := "/" +:+ Join "/" l.

Lemma split_from_name cur s : no_slash s = true -> split_from "/" cur s = [String.rev cur +:+ s].
Proof.
  unfold no_slash. revert cur. induction s as [|c s IH]; intros cur H; simpl in *; [by rewrite str_app_nil_r|].
  to_prop. rewrite H, IH by done. by rewrite rev_cons, str_app_assoc.
Qed.

Lemma Split_name s : no_slash s = true -> Split "/" s = [s].
Proof. intros H. unfold Split. by rewrite split_from_name. Qed.

Lemma no_slash_Split s : Forall (fun x => no_slash x = true) (Split "/" s).
Proof.
  unfold Split. assert (H : no_slash "" = true) by done. revert H. generalize "" as cur.
  induction s as [|c s IH]; intros cur H; simpl.
  - repeat constructor. unfold no_slash. by rewrite str_forall_rev.
  - destruct (Ascii.eqb c "/") eqn:E; [constructor; [unfold no_slash; by rewrite str_forall_rev | by apply IH]|].
    apply IH. unfold no_slash in *. simpl. by rewrite E.
Qed.

Lemma Split_Join l : l <> [] -> Forall (fun x => no_slash x = true) l -> Split "/" (Join "/" l) = l.
Proof.
  intros Hl H. induction H as [|x l Hx H IH]; [done|]. destruct l as [|y l]; [by apply Split_name|].
  change (Join "/" (x :: y :: l)) with (x +:+ String "/" (Join "/" (y :: l))).
  rewrite Split_app, Split_name, IH by done. done.
Qed.

Lemma name_ok_spec s : name_ok s = true -> s <> "" /\ s <> "." /\ s <> ".." /\ no_slash s = true.
Proof. unfold name_ok. intros. to_prop. done. Qed.

(** Names pass through [clean_segs]; the rest of the stack stays below them. *)
Lemma clean_segs_names stack l rest :
  names_ok l -> clean_segs true stack (l ++ rest) = clean_segs true (reverse l ++ stack) rest.
Proof.
  intros H. revert stack. induction H as [|x l Hx H IH]; intros stack; [done|]. simpl.
  apply name_ok_spec in Hx as (H1 & H2 & H3 & _).
  rewrite !(proj2 (String.eqb_neq _ _)) by done. simpl. by rewrite IH, reverse_cons, <- app_assoc.
Qed.

Lemma clean_segs_empty stack l : clean_segs true stack ("" :: l) = clean_segs true stack l.
Proof. done. Qed.

Lemma clean_segs_ok stack segs :
  names_ok stack -> Forall (fun x => no_slash x = true) segs -> names_ok (clean_segs true stack segs).
Proof.
  intros Hs H. revert stack Hs. induction H as [|x l Hx H IH]; intros stack Hs; simpl.
  - by apply Forall_reverse.
  - destruct (String.eqb x "") eqn:E1; [by apply IH|]. destruct (String.eqb x ".") eqn:E2; [by apply IH|]. simpl.
    destruct (String.eqb x "..") eqn:E3.
    + destruct Hs as [|y stack Hy Hs]; [by apply IH|]. apply name_ok_spec in Hy as (_ & _ & Hy & _).
      rewrite (proj2 (String.eqb_neq _ _)) by done. by apply IH.
    + apply IH. constructor; [|done]. unfold name_ok. by rewrite E1, E2, E3, Hx.
Qed.

Lemma names_no_slash l : names_ok l -> Forall (fun x => no_slash x = true) l.
Proof. intros H. eapply Forall_impl; [done|]. intros x Hx. by apply name_ok_spec in Hx as (_ & _ & _ & ?). Qed.

Lemma Split_abs l : l <> [] -> names_ok l -> Split "/" (abs_path l) = "" :: l.
Proof.
  intros Hl H. unfold abs_path. change ("/" +:+ Join "/" l) with ("" +:+ String "/" (Join "/" l)).
  rewrite Split_app, Split_Join by (done || by apply names_no_slash). done.
Qed.

Lemma Clean_rooted p : IsAbs p = true -> Clean p = abs_path (clean_segs true [] (Split "/" p)).
Proof. unfold Clean, IsAbs. by intros ->. Qed.

Lemma IsAbs_abs l : IsAbs (abs_path l) = true.
Proof. unfold IsAbs, abs_path, HasPrefix. apply prefix_of_app. Qed.

Lemma Clean_abs l : names_ok l -> Clean (abs_path l) = abs_path l.
Proof.
  intros H. rewrite Clean_rooted by apply IsAbs_abs. destruct l as [|x l]; [done|]. f_equal.
  rewrite Split_abs by done. rewrite clean_segs_empty, <- (app_nil_r (x :: l)) at 1.
  rewrite (clean_segs_names [] (x :: l)) by done. simpl. by rewrite app_nil_r, reverse_involutive.
Qed.

(** [Join] of a rooted path with a relative one walks from the one along the other. *)
Lemma PathJoin_abs w p :
  names_ok w -> PathJoin (abs_path w) p = abs_path (clean_segs true (reverse w) (Split "/" p)).
Proof.
  intros Hw. unfold PathJoin. replace (String.eqb (abs_path w) "") with false by done.
  destruct (String.eqb_spec p "") as [->|Hp].
  - rewrite Clean_abs by done. simpl. by rewrite reverse_involutive.
  - change (abs_path w +:+ "/" +:+ p) with (abs_path w +:+ String "/" p).
    rewrite Clean_rooted by (unfold IsAbs, HasPrefix, abs_path; rewrite str_app_assoc; apply prefix_of_app).
    f_equal. rewrite Split_app. destruct w as [|x w]; [done|]. rewrite Split_abs by done.
    rewrite <- app_comm_cons, clean_segs_empty.
    rewrite (clean_segs_names [] (x :: w)) by done. by rewrite app_nil_r.
Qed.

Lemma joined_names w p : names_ok w -> names_ok (clean_segs true (reverse w) (Split "/" p)).
Proof. intros H. apply clean_segs_ok; [by apply Forall_reverse | apply no_slash_Split]. Qed.

Lemma Join_cons x l : l <> [] -> Join "/" (x :: l) = x +:+ String "/" (Join "/" l).
Proof. by destruct l. Qed.

Lemma Join_snoc l x : l <> [] -> Join "/" (l ++ [x]) = Join "/" l +:+ "/" +:+ x.
Proof.
  induction l as [|y l IH]; intros Hl; [done|]. destruct (decide (l = [])) as [->|Hn]; [done|].
  rewrite <- app_comm_cons, !Join_cons, IH by (done || by destruct l). by rewrite str_app_assoc.
Qed.

Lemma abs_snoc l x : abs_path (l ++ [x]) = (if decide (l = []) then "/" else abs_path l +:+ "/") +:+ x.
Proof.
  unfold abs_path. destruct (decide (l = [])) as [->|Hl]; [done|]. rewrite Join_snoc by done.
  by rewrite !str_app_assoc.
Qed.

Lemma TrimLeft_name p s : no_slash p = true ->
  TrimLeft (fun c => negb (Ascii.eqb c "/")) (p +:+ String "/" s) = String "/" s.
Proof.
  unfold no_slash. induction p as [|c p IH]; intros H; [done|]. rewrite str_app_cons. simpl in *. to_prop.
  rewrite H. simpl. by apply IH.
Qed.

Lemma no_slash_rev x : no_slash (String.rev x) = no_slash x.
Proof. apply str_forall_rev. Qed.

(** [Dir] drops the last segment. *)
Lemma PathDir_abs l x : names_ok l -> name_ok x = true -> PathDir (abs_path (l ++ [x])) = abs_path l.
Proof.
  intros Hl Hx. apply name_ok_spec in Hx as (_ & _ & _ & Hx). unfold PathDir. rewrite abs_snoc.
  destruct (decide (l = [])) as [->|Hn].
  - rewrite rev_str_app. change (String.rev "/") with (String "/" "").
    rewrite TrimLeft_name by (by rewrite no_slash_rev). done.
  - rewrite rev_str_app, rev_str_app. change (String.rev "/" +:+ String.rev (abs_path l)) with (String "/" (String.rev (abs_path l))).
    rewrite TrimLeft_name by (by rewrite no_slash_rev).
    rewrite rev_cons, rev_involutive, Clean_rooted
      by (unfold IsAbs, HasPrefix, abs_path; rewrite str_app_assoc; apply prefix_of_app).
    f_equal. change (abs_path l +:+ "/") with (abs_path l +:+ String "/" ""). rewrite Split_app, Split_abs by done.
    rewrite <- app_comm_cons, clean_segs_empty, clean_segs_names by done. simpl. by rewrite app_nil_r, reverse_involutive.
Qed.

Lemma PathDir_root : PathDir (abs_path []) = abs_path [].
Proof. done. Qed.

(** The text prefix test of two rooted paths, and the segments. *)
Lemma prefix_name x y s t : no_slash x = true -> no_slash y = true ->
  String.prefix (x +:+ String "/" s) (y +:+ String "/" t) = true -> x = y /\ String.prefix s t = true.
Proof.
  unfold no_slash. revert y. induction x as [|c x IH]; intros [|d y] Hx Hy; rewrite ?str_app_cons; cbn in Hx, Hy; to_prop;
    intros [E Hp]%str_prefix_cons; subst; try by rewrite Ascii.eqb_refl in *.
  - done.
  - by apply IH in Hp as [-> ?].
Qed.

Lemma prefix_Join w l s :
  Forall (fun x => no_slash x = true) w -> Forall (fun x => no_slash x = true) l -> w <> [] -> l <> [] ->
  String.prefix (Join "/" w +:+ String "/" s) (Join "/" l +:+ "/") = true -> w `prefix_of` l.
Proof.
  intros Hw. revert l. induction Hw as [|x w Hx Hw IH]; intros l Hl Hn Hm; [done|].
  destruct Hl as [|y l Hy Hl]; [done|].
  destruct (decide (w = [])) as [->|Hw0], (decide (l = [])) as [->|Hl0];
    try rewrite (Join_cons x w) by done; try rewrite (Join_cons y l) by done;
    change (Join "/" [x]) with x; change (Join "/" [y]) with y;
    rewrite ?str_app_assoc, ?str_app_cons; intros H; apply prefix_name in H as [-> H]; try done.
  - by exists l.
  - exfalso. destruct w as [|x' w]; [done|]. revert H.
    by destruct (Join "/" (x' :: w) +:+ String "/" s) eqn:E; [destruct (Join "/" (x' :: w))|].
  - apply prefix_cons, IH; done.
Qed.
