(* ===== verification/OSFiles.v ===== *)
(** * A file tree with symbolic links

    What the tool set of the local executor uses of package [os] and of
    [filepath.EvalSymlinks], on a tree of directories, files and symbolic links.
    A location is the list of names from the root; a path is resolved to a location
    by [walk], the way the kernel does it. Permissions are the parameters
    [readable] and [writable]; a write may stop after some bytes. *)

From stdpp Require Import base gmap strings list.
From Stdlib Require Import ZArith Lia Ascii.
From S2P Require Import Prelude GoStrings Paths.

Inductive Node := NDir | NFile (content : string) | NLink (target : string).
Notation Tree := (gmap (list string) Node).

Inductive FsErr := ENOENT | ENOTDIR | EISDIR | EEXIST | ELOOP | EACCES | EIO.

(** ** Resolution *)

Definition is_dir (fs : Tree) (p : list string) : bool :=
  match p with [] => true | _ => match fs !! p with Some NDir => true | _ => false end end.

(** A path leads to a location that exists, to a free name in a directory, or nowhere. *)
Inductive Walk := WFound (p : list string) | WMissing (p : list string) | WFail (e : FsErr).

(** From location [cur] along the segments [todo], following at most [links]
    symbolic links; one at the end of the path only if [follow]. *)
Fixpoint walk (links : nat) (fs : Tree) (follow : bool) : list string -> list string -> Walk :=
  fix go (cur todo : list string) {struct todo} : Walk :=
    match todo with
    | [] => WFound cur
    | c :: rest =>
      if negb (is_dir fs cur) then WFail ENOTDIR
      else if String.eqb c "" || String.eqb c "." then go cur rest
      else if String.eqb c ".." then go (removelast cur) rest
      else match fs !! (cur ++ [c]) with
      | None => match rest with [] => WMissing (cur ++ [c]) | _ => WFail ENOENT end
      | Some (NLink t) =>
        if negb follow && bool_decide (rest = []) then WFound (cur ++ [c])
        else if String.eqb t "" then WFail ENOENT
        else match links with
        | O => WFail ELOOP
        | S k => walk k fs follow (if IsAbs t then [] else cur) (Split "/" t ++ rest)
        end
      | Some _ => go (cur ++ [c]) rest
      end
    end.

(** The kernel follows 40 links, [filepath.EvalSymlinks] 255. *)
Definition kernel_links : nat := 40.
Definition eval_links : nat := 255.

Lemma links_le : (kernel_links <= eval_links)%nat.
Proof. by apply Nat.leb_le. Qed.
Global Opaque kernel_links eval_links.

(** Resolution of an absolute path. *)
Definition resolve (links : nat) (follow : bool) (path : string) (fs : Tree) : Walk :=
  walk links fs follow [] (Split "/" path).

(** ** Operations *)

(** [os.Stat] and [os.Lstat]: the node. *)
Definition node_at (fs : Tree) (p : list string) : Node := if is_dir fs p then NDir else default NDir (fs !! p).
Definition Stat (path : string) (fs : Tree) : option Node :=
  match resolve kernel_links true path fs with WFound p => Some (node_at fs p) | _ => None end.
Definition Lstat (path : string) (fs : Tree) : option Node :=
  match resolve kernel_links false path fs with WFound p => Some (node_at fs p) | _ => None end.
Definition is_symlink (n : option Node) : bool := match n with Some (NLink _) => true | _ => false end.

(** [filepath.EvalSymlinks]. *)
Definition EvalSymlinks (path : string) (fs : Tree) : result FsErr string :=
  match resolve eval_links true path fs with
  | WFound p => Ok (abs_path p)
  | WMissing _ => Err ENOENT
  | WFail e => Err e
  end.

Section Access.
Variables (readable writable : list string -> bool).

Definition ReadFile (path : string) (fs : Tree) : result FsErr string :=
  match resolve kernel_links true path fs with
  | WFound p =>
    match node_at fs p with
    | NFile c => if readable p then Ok c else Err EACCES
    | _ => Err EISDIR
    end
  | WMissing _ => Err ENOENT
  | WFail e => Err e
  end.

(** [os.ReadDir]: the names, sorted. *)
Definition child_of (p q : list string) : option string :=
  match last q with Some x => if bool_decide (q = p ++ [x]) then Some x else None | None => None end.
Definition children (fs : Tree) (p : list string) : list string :=
  sort_by String.ltb (omap (fun q => child_of p q.1) (map_to_list fs)).
Definition ReadDir (path : string) (fs : Tree) : result FsErr (list string) :=
  match resolve kernel_links true path fs with
  | WFound p => if negb (is_dir fs p) then Err ENOTDIR
                else if readable p then Ok (children fs p) else Err EACCES
  | WMissing _ => Err ENOENT
  | WFail e => Err e
  end.

Definition Mkdir (segs : list string) (fs : Tree) : option FsErr * Tree :=
  match walk kernel_links fs false [] segs with
  | WMissing p => if writable p then (None, <[p := NDir]> fs) else (Some EACCES, fs)
  | WFound _ => (Some EEXIST, fs)
  | WFail e => (Some e, fs)
  end.

(** [os.MkdirAll], on the segments of the path in reverse; [mkdir_last] is its last
    step, a failure of which is overlooked if the directory is there. *)
Definition mkdir_last (segs : list string) (fs : Tree) : option FsErr * Tree :=
  let '(err, fs') := Mkdir segs fs in
  match err with
  | None => (None, fs')
  | Some e =>
    match walk kernel_links fs false [] segs with
    | WFound p => (if is_dir fs p then None else Some e, fs)
    | _ => (Some e, fs)
    end
  end.
Fixpoint mkdir_all (rsegs : list string) (fs : Tree) : option FsErr * Tree :=
  match walk kernel_links fs true [] (reverse rsegs) with
  | WFound p => (if is_dir fs p then None else Some ENOTDIR, fs)
  | _ =>
    match rsegs with
    | [] => (Some ENOENT, fs)
    | _ :: parent =>
      let '(err, fs) := mkdir_all parent fs in
      match err with
      | Some e => (Some e, fs)
      | None => mkdir_last (reverse rsegs) fs
      end
    end
  end.
Definition MkdirAll (path : string) (fs : Tree) : option FsErr * Tree :=
  mkdir_all (reverse (filter (fun s => s <> "") (Split "/" path))) fs.

(** [os.WriteFile]: create or truncate, then write; [fault] is the number of bytes
    after which the write fails. *)
Definition write_at (p : list string) (content : string) (fault : option nat) (fs : Tree) : option FsErr * Tree :=
  if writable p then
    match fault with
    | None => (None, <[p := NFile content]> fs)
    | Some n => (Some EIO, <[p := NFile (str_take n content)]> fs)
    end
  else (Some EACCES, fs).
Definition WriteFile (path content : string) (fault : option nat) (fs : Tree) : option FsErr * Tree :=
  match resolve kernel_links true path fs with
  | WFound p => match node_at fs p with NFile _ => write_at p content fault fs | _ => (Some EISDIR, fs) end
  | WMissing p => write_at p content fault fs
  | WFail e => (Some e, fs)
  end.
End Access.

(** ** Facts about resolution *)

Lemma walk_nil k fs f cur : walk k fs f cur [] = WFound cur.
Proof. by destruct k. Qed.

Lemma walk_cons k fs f cur c rest :
  walk k fs f cur (c :: rest) =
    if negb (is_dir fs cur) then WFail ENOTDIR
    else if String.eqb c "" || String.eqb c "." then walk k fs f cur rest
    else if String.eqb c ".." then walk k fs f (removelast cur) rest
    else match fs !! (cur ++ [c]) with
    | None => match rest with [] => WMissing (cur ++ [c]) | _ => WFail ENOENT end
    | Some (NLink t) =>
      if negb f && bool_decide (rest = []) then WFound (cur ++ [c])
      else if String.eqb t "" then WFail ENOENT
      else match k with
      | O => WFail ELOOP
      | S k => walk k fs f (if IsAbs t then [] else cur) (Split "/" t ++ rest)
      end
    | Some _ => walk k fs f (cur ++ [c]) rest
    end.
Proof. by destruct k. Qed.

(** Induction along a walk: on the links left, then on the segments left. *)
Lemma walk_induction (P : nat -> list string -> list string -> Prop) :
  (forall k cur todo, (forall k', (k' < k)%nat -> forall cur todo, P k' cur todo) ->
     (forall c rest, todo = c :: rest -> forall cur, P k cur rest) -> P k cur todo) ->
  forall k cur todo, P k cur todo.
Proof.
  intros H k. induction k as [k IHk] using lt_wf_ind. intros cur todo. revert cur.
  induction todo as [|c rest IH]; intros cur; apply H; try done. by intros ? ? [= <- <-].
Qed.

(** Walking to the end of [l] and on along [r]. *)
Lemma walk_app fs k cur l :
  exists k', (k' <= k)%nat /\ forall f r, r <> [] ->
    walk k fs f cur (l ++ r) =
      match walk k fs true cur l with
      | WFound d => walk k' fs f d r
      | WMissing _ => WFail ENOENT
      | WFail e => WFail e
      end.
Proof.
  revert k cur l. apply (walk_induction (fun k cur l => exists k', (k' <= k)%nat /\ forall f r, r <> [] -> _)).
  intros k cur [|c rest] IHk IHt; [exists k; split; [done|]; intros; by rewrite walk_nil|].
  specialize (IHt c rest eq_refl). simpl app. setoid_rewrite walk_cons.
  destruct (is_dir fs cur); simpl negb; [|by exists k].
  destruct (_ || _); [apply IHt|]. destruct (String.eqb c ".."); [apply IHt|].
  destruct (fs !! (cur ++ [c])) as [[|x|t]|] eqn:E; [apply IHt | apply IHt | |].
  - simpl negb. cbn [andb]. destruct k as [|k].
    + exists 0%nat. split; [done|]. intros f r Hr. rewrite bool_decide_eq_false_2 by (by destruct rest). rewrite andb_false_r.
      by destruct (String.eqb t "").
    + destruct (IHk k ltac:(lia) (if IsAbs t then [] else cur) (Split "/" t ++ rest)) as (k' & Hk & H).
      exists k'. split; [lia|]. intros f r Hr. rewrite bool_decide_eq_false_2 by (by destruct rest). rewrite andb_false_r.
      destruct (String.eqb t ""); [done|]. by rewrite app_assoc, H.
  - exists k. split; [done|]. intros f r Hr. destruct rest; [|done]. by destruct r.
Qed.

Definition arrives (r : Walk) : Prop := match r with WFail _ => False | _ => True end.

(** More links do no harm. *)
Lemma walk_more_links fs f k cur l k' :
  (k <= k')%nat -> arrives (walk k fs f cur l) -> walk k' fs f cur l = walk k fs f cur l.
Proof.
  revert k'. revert k cur l.
  apply (walk_induction (fun k cur l => forall k', (k <= k')%nat -> arrives (walk k fs f cur l) -> _)).
  intros k cur [|c rest] IHk IHt k' Hk; [by rewrite !walk_nil|]. specialize (IHt c rest eq_refl). rewrite !walk_cons.
  destruct (is_dir fs cur); simpl negb; [|done]. destruct (_ || _); [by apply IHt|].
  destruct (String.eqb c ".."); [by apply IHt|].
  destruct (fs !! (cur ++ [c])) as [[|x|t]|] eqn:E; [by apply IHt | by apply IHt | | done].
  destruct (negb f && _); [done|]. destruct (String.eqb t ""); [done|]. destruct k as [|k]; [done|].
  destruct k' as [|k']; [lia|]. apply IHk; lia.
Qed.

(** A tree with the same directories and links, and files where there were files. *)
Definition same_kind (n n' : Node) : Prop :=
  match n, n' with NDir, NDir | NFile _, NFile _ => True | NLink t, NLink t' => t = t' | _, _ => False end.
Definition extends (fs fs' : Tree) : Prop := forall p n, fs !! p = Some n -> exists n', fs' !! p = Some n' /\ same_kind n n'.

Global Instance extends_preorder : PreOrder extends.
Proof.
  split.
  - intros fs p n H. exists n. split; [done|]. by destruct n.
  - intros x y z H1 H2 p n H. apply H1 in H as (n1 & H & K1). apply H2 in H as (n2 & H & K2). exists n2. split; [done|].
    destruct n, n1, n2; simpl in *; congruence || done.
Qed.

Lemma extends_is_dir fs fs' p : extends fs fs' -> is_dir fs p = true -> is_dir fs' p = true.
Proof.
  intros H. unfold is_dir. destruct p; [done|]. destruct (fs !! _) as [[| |]|] eqn:E; try done.
  apply H in E as ([| |] & -> & ?); done.
Qed.

Lemma extends_insert fs p n : match fs !! p with Some n' => same_kind n' n | None => True end -> extends fs (<[p := n]> fs).
Proof.
  intros H q m Hq. destruct (decide (p = q)) as [<-|Hn].
  - exists n. rewrite lookup_insert_eq. rewrite Hq in H. done.
  - exists m. rewrite lookup_insert_ne by done. split; [done|]. by destruct m.
Qed.

Lemma walk_extends fs fs' f k cur l p :
  extends fs fs' -> walk k fs f cur l = WFound p -> walk k fs' f cur l = WFound p.
Proof.
  intros He. revert k cur l. apply (walk_induction (fun k cur l => walk k fs f cur l = WFound p -> _)).
  intros k cur [|c rest] IHk IHt; [by rewrite !walk_nil|]. specialize (IHt c rest eq_refl). rewrite !walk_cons.
  destruct (is_dir fs cur) eqn:Ed; simpl negb; [|done]. rewrite (extends_is_dir _ _ _ He Ed). simpl negb.
  destruct (_ || _); [by apply IHt|]. destruct (String.eqb c ".."); [by apply IHt|].
  destruct (fs !! (cur ++ [c])) as [n|] eqn:E; [|by destruct rest]. apply He in E as (n' & -> & K).
  destruct n as [|x|t], n' as [|x'|t']; try done; [by apply IHt..|]. simpl in K. subst t'.
  destruct (negb f && _); [done|]. destruct (String.eqb t ""); [done|]. destruct k as [|k]; [done|]. apply IHk. lia.
Qed.

Lemma walk_missing_free fs f k cur l q : walk k fs f cur l = WMissing q -> fs !! q = None.
Proof.
  revert k cur l. apply (walk_induction (fun k cur l => walk k fs f cur l = WMissing q -> _)).
  intros k cur [|s rest] IHk IHt; [by rewrite walk_nil|]. specialize (IHt s rest eq_refl). rewrite walk_cons.
  destruct (is_dir fs cur); simpl negb; [|done]. destruct (_ || _); [by apply IHt|].
  destruct (String.eqb s ".."); [by apply IHt|].
  destruct (fs !! (cur ++ [s])) as [[| |t]|] eqn:E; [by apply IHt..| |].
  - destruct (negb f && _); [done|]. destruct (String.eqb t ""); [done|]. destruct k as [|k]; [done|]. apply IHk. lia.
  - destruct rest; [by intros [= <-] | done].
Qed.

(** A file put where a walk ended at a free name is found by that walk. *)
Lemma walk_fill fs f c k cur l q :
  walk k fs f cur l = WMissing q -> walk k (<[q := NFile c]> fs) f cur l = WFound q.
Proof.
  assert (He : fs !! q = None -> extends fs (<[q := NFile c]> fs)) by (intros H; apply extends_insert; by rewrite H).
  revert k cur l. apply (walk_induction (fun k cur l => walk k fs f cur l = WMissing q -> _)).
  intros k cur [|s rest] IHk IHt; [by rewrite walk_nil|]. specialize (IHt s rest eq_refl). rewrite !walk_cons. intros E.
  assert (Hq : fs !! q = None) by (rewrite <- walk_cons in E; by eapply walk_missing_free).
  specialize (He Hq). destruct (is_dir fs cur) eqn:Ed; [|done]. rewrite (extends_is_dir _ _ _ He Ed). simpl negb in *. cbv iota in *.
  destruct (_ || _); [by apply IHt|]. destruct (String.eqb s ".."); [by apply IHt|].
  destruct (decide (q = cur ++ [s])) as [->|Hn].
  - rewrite Hq in E. rewrite lookup_insert_eq. destruct rest; [by rewrite walk_nil|done].
  - rewrite lookup_insert_ne by done. destruct (fs !! (cur ++ [s])) as [[| |t]|]; [by apply IHt..| |].
    + destruct (negb f && _); [done|]. destruct (String.eqb t ""); [done|]. destruct k as [|k]; [done|]. apply IHk; [lia|done].
    + destruct rest; [congruence|done].
Qed.

(** Locations consist of names. *)
Lemma walk_names fs f k cur l :
  names_ok cur -> Forall (fun x => no_slash x = true) l ->
  match walk k fs f cur l with WFound p | WMissing p => names_ok p | WFail _ => True end.
Proof.
  revert k cur l. apply (walk_induction (fun k cur l => names_ok cur -> Forall _ l -> _)).
  intros k cur [|c rest] IHk IHt Hc Hl; [by rewrite walk_nil|]. specialize (IHt c rest eq_refl). rewrite walk_cons.
  apply Forall_cons in Hl as [Hx Hl].
  destruct (is_dir fs cur); simpl negb; [|done].
  destruct (String.eqb c "") eqn:E1; [by apply IHt|]. destruct (String.eqb c ".") eqn:E2; [by apply IHt|]. cbn [orb].
  destruct (String.eqb c "..") eqn:E3.
  { apply IHt; [|done]. destruct cur as [|x cur] using rev_ind; [done|]. rewrite removelast_last.
    by apply Forall_app in Hc as [? _]. }
  assert (Hs : names_ok (cur ++ [c])).
  { apply Forall_app. split; [done|]. repeat constructor. unfold name_ok. by rewrite E1, E2, E3, Hx. }
  destruct (fs !! (cur ++ [c])) as [[|x|t]|] eqn:E; [by apply IHt | by apply IHt | | by destruct rest].
  destruct (negb f && _); [done|]. destruct (String.eqb t ""); [done|]. destruct k as [|k]; [done|].
  apply IHk; [lia | by destruct (IsAbs t) |]. apply Forall_app. split; [apply no_slash_Split | done].
Qed.

(** ** Well-formed trees *)

(** Every node lies in a directory, under a name. *)
Definition tree_ok (fs : Tree) : Prop :=
  forall p n, fs !! p = Some n -> exists d x, p = d ++ [x] /\ is_dir fs d = true /\ name_ok x = true.

Lemma tree_ok_parent fs p : tree_ok fs -> is_dir fs p = true -> is_dir fs (removelast p) = true.
Proof.
  intros H. destruct p as [|x p] using rev_ind; [done|]. rewrite removelast_last. unfold is_dir at 1.
  destruct (p ++ [x]) eqn:Ep; [by destruct p|]. rewrite <- Ep. destruct (fs !! (p ++ [x])) as [n|] eqn:E; [|done].
  apply H in E as (d & y & Ey & Hd & _). by apply app_inj_tail in Ey as [-> _].
Qed.

(** Where a walk ends there is a node, and not a link if the walk followed it. *)
Lemma walk_ends fs f k cur l :
  tree_ok fs -> is_dir fs cur = true ->
  match walk k fs f cur l with
  | WFound p => is_dir fs p = true \/ exists n, fs !! p = Some n /\ (f = true -> forall t, n <> NLink t)
  | WMissing p => exists d x, p = d ++ [x] /\ is_dir fs d = true /\ fs !! p = None
  | WFail _ => True
  end.
Proof.
  intros Ht Hc.
  assert (H : is_dir fs cur = true \/ l = [] /\ (exists n, fs !! cur = Some n /\ (f = true -> forall t, n <> NLink t))) by by left.
  clear Hc. revert k cur l H. apply (walk_induction (fun k cur l => _ \/ _ -> _)).
  intros k cur [|c rest] IHk IHt Hc; [rewrite walk_nil; destruct Hc as [?|[_ ?]]; [by left | by right]|].
  specialize (IHt c rest eq_refl). rewrite walk_cons. destruct Hc as [Hc|[? _]]; [|done]. rewrite Hc. simpl negb.
  destruct (_ || _); [apply IHt; by left|].
  destruct (String.eqb c ".."); [apply IHt; left; by apply tree_ok_parent|].
  assert (Hn : is_dir fs (cur ++ [c]) = match fs !! (cur ++ [c]) with Some NDir => true | _ => false end).
  { unfold is_dir. by destruct (cur ++ [c]) eqn:Ep; [destruct cur|]. }
  destruct (fs !! (cur ++ [c])) as [[|x|t]|] eqn:E.
  - apply IHt. by left.
  - destruct rest as [|y rest]; [apply IHt; right; split; [done|]; by exists (NFile x)|].
    rewrite walk_cons, Hn. done.
  - destruct (negb f && bool_decide (rest = [])) eqn:Ef.
    + right. exists (NLink t). split; [done|]. intros ->. done.
    + destruct (String.eqb t ""); [done|]. destruct k as [|k]; [done|]. apply IHk; [lia|]. left. by destruct (IsAbs t).
  - destruct rest as [|y rest]; [|done]. by exists cur, c.
Qed.

(** ** Absolute paths *)

Lemma resolve_abs k f l fs : names_ok l -> resolve k f (abs_path l) fs = walk k fs f [] l.
Proof.
  intros H. unfold resolve. destruct l as [|x l]; [by destruct k|]. rewrite Split_abs by done. by rewrite walk_cons.
Qed.

Lemma segs_abs l : names_ok l -> filter (fun s => s <> "") (Split "/" (abs_path l)) = l.
Proof.
  intros H. destruct l as [|y l]; [done|]. rewrite Split_abs, filter_cons_False by (done || by intros ?).
  induction H as [|x l' Hx H IH]; [done|]. apply name_ok_spec in Hx as [? _]. rewrite filter_cons_True by done. by rewrite IH.
Qed.

(** The last segment of a path is looked up in the directory the others lead to. *)
Lemma walk_last k fs l x : name_ok x = true ->
  exists r, forall f, walk k fs f [] (l ++ [x]) =
    match walk k fs true [] l with
    | WFound d =>
      if negb (is_dir fs d) then WFail ENOTDIR
      else match fs !! (d ++ [x]) with
      | None => WMissing (d ++ [x])
      | Some (NLink _) => if f then r else WFound (d ++ [x])
      | Some _ => WFound (d ++ [x])
      end
    | WMissing _ => WFail ENOENT
    | WFail e => WFail e
    end.
Proof.
  intros Hx. apply name_ok_spec in Hx as (H1 & H2 & H3 & _). destruct (walk_app fs k [] l) as (k' & _ & H).
  destruct (walk k fs true [] l) as [d| |]; [|exists (WFail ENOENT); intros f; by rewrite H..].
  exists (walk k' fs true d [x]). intros f. rewrite H by done. rewrite !walk_cons, !walk_nil.
  rewrite (proj2 (String.eqb_neq x "")), (proj2 (String.eqb_neq x ".")), (proj2 (String.eqb_neq x "..")) by done.
  cbn [orb]. destruct (is_dir fs d); [|done]. simpl negb. destruct (fs !! (d ++ [x])) as [[| |t]|]; try done. by destruct f.
Qed.

(** ** Making directories *)

(** Directories may have been added, nothing else changed. *)
Definition grown (fs fs' : Tree) : Prop :=
  forall p, fs' !! p = fs !! p \/ fs !! p = None /\ fs' !! p = Some NDir.

Lemma grown_extends fs fs' : grown fs fs' -> extends fs fs'.
Proof. intros H p n E. destruct (H p) as [->|[E' _]]; [|congruence]. exists n. split; [done|]. by destruct n. Qed.

Lemma grown_trans x y z : grown x y -> grown y z -> grown x z.
Proof. intros H1 H2 p. destruct (H1 p) as [E1|[? E1]], (H2 p) as [E2|[? E2]]; naive_solver congruence. Qed.

Lemma is_dir_snoc fs d x : is_dir fs (d ++ [x]) = match fs !! (d ++ [x]) with Some NDir => true | _ => false end.
Proof. unfold is_dir. by destruct (d ++ [x]) eqn:E; [destruct d|]. Qed.

(** A node added in a directory. *)
Lemma tree_ok_insert fs d x n :
  tree_ok fs -> is_dir fs d = true -> name_ok x = true ->
  match fs !! (d ++ [x]) with Some n' => same_kind n' n | None => True end -> tree_ok (<[d ++ [x] := n]> fs).
Proof.
  intros Ht Hd Hx Hk. apply extends_insert in Hk as He. intros p m [[<- <-]|[Hn Hp]]%lookup_insert_Some.
  - exists d, x. split_and!; [done | by eapply extends_is_dir | done].
  - apply Ht in Hp as (d' & y & -> & ? & ?). exists d', y. split_and!; [done | by eapply extends_is_dir | done].
Qed.

Section Making.
Variable writable : list string -> bool.

(** The step of [mkdir_all] below a directory that exists. *)
Lemma mkdir_last_spec l x d fs err fs' :
  tree_ok fs -> name_ok x = true -> walk kernel_links fs true [] l = WFound d -> is_dir fs d = true ->
  mkdir_last writable (l ++ [x]) fs = (err, fs') ->
  tree_ok fs' /\ grown fs fs' /\
  (err = None -> (forall f, walk kernel_links fs' f [] (l ++ [x]) = WFound (d ++ [x])) /\ is_dir fs' (d ++ [x]) = true).
Proof.
  intros Ht Hx Hd Hdir E. destruct (walk_last kernel_links fs l x Hx) as [r Hw]. rewrite Hd, Hdir in Hw. simpl negb in Hw.
  unfold mkdir_last, Mkdir in E. rewrite (Hw false) in E. pose proof (is_dir_snoc fs d x) as Hs. pose proof (Hw true) as Hf.
  destruct (fs !! (d ++ [x])) as [[| |t]|] eqn:En; cbn in E; rewrite ?Hs in E;
    try (injection E as <- <-; split_and!; [done | by left | done]).
  destruct (writable (d ++ [x])); injection E as <- <-; [|split_and!; [done | by left | done]].
  assert (X : extends fs (<[d ++ [x] := NDir]> fs)) by (apply extends_insert; by rewrite En).
  split_and!; [apply tree_ok_insert; by rewrite ?En | |].
  - intros p. destruct (decide (d ++ [x] = p)) as [<-|Hn]; [right; by rewrite lookup_insert_eq | left; by rewrite lookup_insert_ne].
  - intros _. destruct (walk_last kernel_links (<[d ++ [x] := NDir]> fs) l x Hx) as [r' Hw'].
    split; [intros f; rewrite (Hw' f), (walk_extends _ _ _ _ _ _ _ X Hd), (extends_is_dir _ _ _ X Hdir)|rewrite is_dir_snoc];
      by rewrite lookup_insert_eq.
Qed.

(** A directory made below one that was there or is new was not there. *)
Lemma fresh_below l x d fs fs1 :
  tree_ok fs -> name_ok x = true -> walk kernel_links fs1 true [] l = WFound d -> is_dir fs1 d = true ->
  fs1 = fs \/ is_dir fs d = false ->
  (forall p, walk kernel_links fs true [] (l ++ [x]) <> WFound p) -> is_dir fs (d ++ [x]) = false.
Proof.
  intros Ht Hx Hd Hdir [->|Hn] Hw; rewrite is_dir_snoc; destruct (fs !! (d ++ [x])) as [[| |]|] eqn:En; try done; exfalso.
  - destruct (walk_last kernel_links fs l x Hx) as [r Hl]. rewrite Hd, Hdir, En in Hl. by eapply Hw, Hl.
  - apply Ht in En as (d' & y & Ey & Hd' & _). apply app_inj_tail in Ey as [-> _]. congruence.
Qed.

(** On success the directory is there; unless it was before, it is new. *)
Lemma mkdir_all_spec l fs err fs' :
  tree_ok fs -> names_ok l -> mkdir_all writable (reverse l) fs = (err, fs') ->
  tree_ok fs' /\ grown fs fs' /\
  (err = None -> exists d, walk kernel_links fs' true [] l = WFound d /\ is_dir fs' d = true /\
     (fs' = fs \/ is_dir fs d = false /\ walk kernel_links fs' false [] l = WFound d)).
Proof.
  intros Ht. revert err fs'. induction l as [|x l IH] using rev_ind; intros err fs' Hl E.
  - injection E as <- <-. split_and!; [done | by left |]. intros _. exists []. split_and!; [done | done | by left].
  - apply Forall_app in Hl as [Hl [Hx _]%Forall_cons]. rewrite reverse_snoc in E. cbn [mkdir_all] in E.
    rewrite reverse_cons, reverse_involutive in E.
    destruct (walk kernel_links fs true [] (l ++ [x])) as [p| |] eqn:Ew.
    { injection E as <- <-. split_and!; [done | by left |]. destruct (is_dir fs p) eqn:Ed; [|done]. intros _. exists p.
      split_and!; [done | done | by left]. }
    all: destruct (mkdir_all writable (reverse l) fs) as [[e1|] fs1] eqn:E1; destruct (IH _ _ Hl eq_refl) as (T1 & G1 & D1);
      [injection E as <- <-; split_and!; done|]; destruct (D1 eq_refl) as (d & Hd & Hdir & Hnew);
      apply (mkdir_last_spec l x d) in E as (T2 & G2 & D2); [|done..]; (split_and!; [done | exact (grown_trans _ _ _ G1 G2) |]);
      intros He; destruct (D2 He) as [Hw Hx']; exists (d ++ [x]); (split_and!; [apply Hw | done | right; split; [|apply Hw]]);
      eapply (fresh_below l x d fs fs1); [done | done | done | done | by destruct Hnew as [->|[? _]]; [left|right] | by rewrite Ew].
Qed.
End Making.
