(* ===== verification/Seams.v ===== *)
(** * Seam types shared by the components

    The values that cross the interfaces of [internal/supervisor]: tasks,
    executor results and the typed operator messages of the control plane. *)

From stdpp Require Import base gmap strings list.
From Stdlib Require Import ZArith.
From S2P Require Import Prelude GoStrings.

(** One unit of work ([supervisor.Task]). *)
Record Task := mkTask {
  task_ID : string;
  task_Repo : string;
  task_Spec : string;
  task_PriorFailure : string
}.

(** The zero [supervisor.Task]. *)
Definition zero_task : Task := mkTask "" "" "" "".

(** What an executor returns after attempting a task ([supervisor.Result]). *)
Record ExecResult := mkExecResult {
  res_Branch : string;
  res_OK : bool
}.

(** Kinds of operator messages ([supervisor.MessageKind]). *)
Inductive MessageKind :=
| MsgNewGoal
| MsgStatus
| MsgInfo
| MsgCancel
| MsgConfirm
| MsgApprove
| MsgDeny.

(** One typed inbound message ([supervisor.Message]). *)
Record Message := mkMessage {
  msg_Kind : MessageKind;
  msg_GoalID : string;
  msg_Goal : Task;
  msg_Text : string;
  msg_TaskID : string
}.

(** [MessageKind.String]. *)
Definition MessageKind_String (k : MessageKind) : string :=
  match k with
  | MsgNewGoal => "new-goal"
  | MsgStatus => "status"
  | MsgInfo => "info"
  | MsgCancel => "cancel"
  | MsgConfirm => "confirm"
  | MsgApprove => "approve"
  | MsgDeny => "deny"
  end.

#[export] Instance Task_eq_dec : EqDecision Task.
Proof. solve_decision. Defined.
#[export] Instance MessageKind_eq_dec : EqDecision MessageKind.
Proof. solve_decision. Defined.
#[export] Instance Message_eq_dec : EqDecision Message.
Proof. solve_decision. Defined.
