(* ===== verification/Gate.v ===== *)
(** * The verification gate ([internal/gate/gate.go])

    [New] registers named steps, [Verify] runs them in order until one fails.
    A step is an effectful check: it reads and may change the world [W] (the
    worktree, the tool caches, the clock), which is threaded explicitly. *)

From stdpp Require Import base gmap strings list.
From Stdlib Require Import ZArith Lia.
From S2P Require Import Prelude GoStrings.

(** [gate.StepResult] and [gate.Verdict]. *)
Record StepResult := mkStepResult {
  sr_Name : string;
  sr_OK : bool;
  sr_Output : string;
  sr_Duration : Z
}.

Record Verdict := mkVerdict {
  v_OK : bool;
  v_Results : list StepResult
}.

(** The zero [gate.Verdict]. *)
Definition zero_verdict : Verdict := mkVerdict false [].

(** The sentinels of [gate.New]. *)
Inductive GateErr :=
| ErrNilStep
| ErrBlankStepName
| ErrDuplicateStepName (name : string).

Section Gate.
Context {W : Type} (now : W -> Z).

(** [gate.Step]. *)
Record Step := mkStep {
  step_Name : string;
  step_Run : string -> W -> StepResult * W
}.

(** [registeredStep], and [Gate] as the list of its registered steps. *)
Record registeredStep := mkRegisteredStep {
  reg_name : string;
  reg_step : Step
}.

(** The registration loop of [New]; a nil [Step] is [None]. *)
Fixpoint New_loop (seen : gset string) (steps : list (option Step))
  : result GateErr (list registeredStep) :=
  match steps with
  | [] => Ok []
  | None :: _ => Err ErrNilStep
  | Some step :: rest =>
    let name := TrimSpace (step_Name step) in
    if String.eqb name "" then Err ErrBlankStepName
    else if bool_decide (name ∈ seen) then Err (ErrDuplicateStepName name)
    else let? registered := New_loop ({[name]} ∪ seen) rest in
         Ok (mkRegisteredStep name step :: registered)
  end.

Definition New (steps : list (option Step)) : result GateErr (list registeredStep) :=
  New_loop ∅ steps.

(** One iteration of [Verify]: run the step, stamp its registered name and
    its measured duration. *)
Definition run_step (repoPath : string) (s : registeredStep) (w : W) : StepResult * W :=
  let start := now w in
  let '(r, w') := step_Run (reg_step s) repoPath w in
  (mkStepResult (reg_name s) (sr_OK r) (sr_Output r) (now w' - start)%Z, w').

(** [Verify] runs every step until all pass or one fails; [acc] is
    [verdict.Results] so far. *)
Fixpoint Verify_loop (repoPath : string) (steps : list registeredStep)
  (acc : list StepResult) (w : W) : Verdict * W :=
  match steps with
  | [] => (mkVerdict true acc, w)
  | s :: rest =>
    let '(r, w') := run_step repoPath s w in
    if sr_OK r then Verify_loop repoPath rest (acc ++ [r]) w'
    else (mkVerdict false (acc ++ [r]), w')
  end.

Definition Verify (gate : list registeredStep) (repoPath : string) (w : W) : Verdict * W :=
  Verify_loop repoPath gate [] w.

(** [Blocks]: this gate is a real, blocking verifier. *)
Definition Blocks (gate : list registeredStep) : bool := true.

(** ** The reference semantics: run a list of steps unconditionally *)

Fixpoint run_all (repoPath : string) (steps : list registeredStep) (w : W)
  : list StepResult * W :=
  match steps with
  | [] => ([], w)
  | s :: rest =>
    let '(r, w1) := run_step repoPath s w in
    let '(rs, w2) := run_all repoPath rest w1 in
    (r :: rs, w2)
  end.

Lemma run_step_name repoPath s w : sr_Name (run_step repoPath s w).1 = reg_name s.
Proof. unfold run_step. by destruct (step_Run _ _ _). Qed.

Lemma run_all_names repoPath steps w :
  map sr_Name (run_all repoPath steps w).1 = map reg_name steps.
Proof.
  revert w. induction steps as [|s steps IH]; intros w; [done|]. simpl.
  pose proof (run_step_name repoPath s w) as Hn.
  destruct (run_step repoPath s w) as [r w1]. specialize (IH w1).
  destruct (run_all repoPath steps w1) as [rs w2]. simpl in *. by f_equal.
Qed.

Lemma Verify_loop_acc repoPath steps acc w :
  Verify_loop repoPath steps acc w =
  let '(v, w') := Verify_loop repoPath steps [] w in
  (mkVerdict (v_OK v) (acc ++ v_Results v), w').
Proof.
  revert acc w. induction steps as [|s steps IH]; intros acc w; simpl.
  - by rewrite app_nil_r.
  - destruct (run_step repoPath s w) as [r w1]. destruct (sr_OK r); [|done].
    rewrite (IH (acc ++ [r])), (IH [r]).
    destruct (Verify_loop repoPath steps [] w1) as [v w2]. simpl.
    by rewrite <- app_assoc.
Qed.

Lemma Verify_cons repoPath s gate w :
  Verify (s :: gate) repoPath w =
  let '(r, w1) := run_step repoPath s w in
  if sr_OK r then
    let '(v, w2) := Verify gate repoPath w1 in (mkVerdict (v_OK v) (r :: v_Results v), w2)
  else (mkVerdict false [r], w1).
Proof.
  unfold Verify. simpl. destruct (run_step repoPath s w) as [r w1].
  destruct (sr_OK r); [|done]. by rewrite Verify_loop_acc.
Qed.

(** A passing verdict has a passing first step and a passing rest. *)
Lemma Verify_peel st gate repoPath w v w' :
  Verify (st :: gate) repoPath w = (v, w') -> v_OK v = true ->
  exists r w1 v1, step_Run (reg_step st) repoPath w = (r, w1) /\ sr_OK r = true /\
    Verify gate repoPath w1 = (v1, w') /\ v_OK v1 = true.
Proof.
  intros E Hv. rewrite Verify_cons in E. unfold run_step in E.
  destruct (step_Run (reg_step st) repoPath w) as [r w1] eqn:Er. cbn [sr_OK] in E. destruct (sr_OK r) eqn:Eo.
  - destruct (Verify gate repoPath w1) as [v1 w2] eqn:Ev. injection E as <- <-. by exists r, w1, v1.
  - by injection E as <- <-.
Qed.

(** What a verdict means, in terms of running steps unconditionally. *)
Definition verdict_spec (repoPath : string) (gate : list registeredStep) (w : W)
  (v : Verdict) (w' : W) : Prop :=
  if v_OK v then
    run_all repoPath gate w = (v_Results v, w') /\ Forall (fun r => sr_OK r = true) (v_Results v)
  else
    exists passed failing rest oks bad,
      gate = passed ++ failing :: rest /\
      run_all repoPath (passed ++ [failing]) w = (oks ++ [bad], w') /\
      v_Results v = oks ++ [bad] /\
      Forall (fun r => sr_OK r = true) oks /\ sr_OK bad = false.

Lemma Verify_meets_spec repoPath gate w :
  verdict_spec repoPath gate w (Verify gate repoPath w).1 (Verify gate repoPath w).2.
Proof.
  revert w. induction gate as [|s gate IH]; intros w; [done|].
  rewrite Verify_cons. unfold verdict_spec in *.
  destruct (run_step repoPath s w) as [r w1] eqn:Er. destruct (sr_OK r) eqn:Eok.
  - specialize (IH w1). destruct (Verify gate repoPath w1) as [[ok rs] w2]. simpl in *.
    destruct ok.
    + destruct IH as [E F]. rewrite Er, E. split; [done|]. by constructor.
    + destruct IH as (p & f & rest & oks & bad & -> & E & -> & F & B).
      exists (s :: p), f, rest, (r :: oks), bad. simpl. rewrite Er, E.
      split_and!; try done. by constructor.
  - exists [], s, gate, [], r. simpl. rewrite Er. by split_and!.
Qed.

(** ** Registration *)

Lemma New_loop_ok seen steps gate :
  New_loop seen steps = Ok gate ->
  steps = map (fun s => Some (reg_step s)) gate /\
  Forall (fun s => reg_name s = TrimSpace (step_Name (reg_step s)) /\ reg_name s <> "") gate /\
  NoDup (map reg_name gate) /\
  forall s, s ∈ gate -> reg_name s ∉ seen.
Proof.
  revert seen gate. induction steps as [|[step|] steps IH]; intros seen gate H; simpl in H.
  - simplify_eq. split_and!; try constructor. intros s Hs. set_solver.
  - go_cases. destruct (New_loop _ steps) as [gate'|] eqn:E; [|done]. simplify_eq.
    apply IH in E as (-> & F & N & D). split_and!.
    + done.
    + by constructor.
    + simpl. constructor; [|done]. intros Hin.
      apply list_elem_of_fmap in Hin as (s & Hs & Hin). apply D in Hin. set_solver.
    + intros s [->|Hs]%elem_of_cons; [done|]. apply D in Hs. set_solver.
  - done.
Qed.
End Gate.

Arguments Step W : clear implicits.
Arguments registeredStep W : clear implicits.

(** Verify runs the steps in order and stops at the first that fails; it reports one
    result per step run, under the registered name; the verdict is OK exactly when
    every step ran and passed, and otherwise ends with the failing one. *)
Theorem gate_verify_spec (W : Type) (now : W -> Z) (gate : list (registeredStep W)) repoPath (w : W) :
  let '(v, w') := Verify now gate repoPath w in
  verdict_spec now repoPath gate w v w' /\
  map sr_Name (v_Results v) = take (length (v_Results v)) (map reg_name gate) /\
  (v_OK v = true -> length (v_Results v) = length gate).
Proof.
  pose proof (Verify_meets_spec now repoPath gate w) as H.
  destruct (Verify now gate repoPath w) as [v w']. simpl in H. split; [done|].
  unfold verdict_spec in H. destruct (v_OK v).
  - destruct H as [E _]. pose proof (run_all_names now repoPath gate w) as N. rewrite E in N.
    simpl in N. rewrite N. apply (f_equal length) in N. rewrite !length_map in N. split; [|done].
    rewrite firstn_all2; [done|]. rewrite length_map. lia.
  - split; [|done]. destruct H as (p & f & rest & oks & bad & -> & E & -> & _).
    pose proof (run_all_names now repoPath (p ++ [f]) w) as N. rewrite E in N. simpl in N.
    rewrite N. pose proof (f_equal length N) as L. rewrite !length_map in L. rewrite L.
    rewrite (cons_middle f p rest), app_assoc, (map_app reg_name (p ++ [f])). simpl.
    rewrite take_app_length'; [done | by rewrite length_map].
Qed.
