(* ===== verification/TaskSource.v ===== *)
(** * The task source ([internal/tasksource])

    [source.go] parses task files, checks them and selects the next ready task;
    [status_writer.go] rewrites the status line of one task file. The file
    system is a map from paths to contents plus a directory listing. *)

From stdpp Require Import base gmap strings list sorting.
From Stdlib Require Import ZArith Lia Ascii.
From S2P Require Import Prelude GoStrings Paths Seams.


(** ** Data *)

(** The normalised lifecycle states. *)
Inductive Status :=
| StatusReady | StatusActive | StatusBlocked | StatusNeedsHuman | StatusCompleted.

#[export] Instance Status_eq_dec : EqDecision Status.
Proof. solve_decision. Defined.

(** A parsed task file. *)
Record Candidate := mkCandidate {
  cand_Task : Task;
  cand_Status : Status;
  cand_Dependencies : list string
}.

(** Errors of the package, one constructor per message. *)
Inductive TSErr :=
| ErrNilFilesystem
| ErrNilStatusWriter
| ErrStatFile (path : string)
| ErrReadRoadmap (path : string)
| ErrReadDir (path : string)
| ErrReadFile (path : string)
| ErrMissingHeading (path : string)
| ErrMissingProject (path : string)
| ErrMissingStatus (path : string)
| ErrUnrecognizedStatus (raw : string)
| ErrDuplicateTask (id : string)
| ErrMissingDep (id dep : string)
| ErrEmptyTaskID
| ErrInvalidWritableStatus (s : string)
| ErrEmptyRoot
| ErrTaskNotFound (id : string)
| ErrMultipleStatusLines
| ErrMissingStatusLine
| ErrWriteFile (path : string).

(** ** Regular expressions of the package, unfolded *)

Definition cr : ascii := ascii_of_N 13.

(** The class [\s] of the regexp package: tab, LF, FF, CR and blank. *)
Definition re_space (c : ascii) : bool :=
  is_byte 9 c || is_byte 10 c || is_byte 12 c || is_byte 13 c || is_byte 32 c.

(** Longest prefix of bytes satisfying [p], and the rest. *)
Fixpoint span (p : ascii -> bool) (s : string) : string * string :=
  match s with
  | EmptyString => ("", "")
  | String c s1 => if p c then let '(a, b) := span p s1 in (String c a, b) else ("", s)
  end.

Definition line_of (s : string) : string := (span (fun c => negb (Ascii.eqb c nl)) s).1.

(** What is left after a match that ended with the white space run [s]
    starts with: the run is consumed up to its last line break, or to the end
    of the text. *)
Definition after_match (s : string) : string :=
  let '(ws, rest) := span re_space s in
  if String.eqb rest "" then ""
  else String nl (String.rev (span (fun c => negb (Ascii.eqb c nl)) (String.rev ws)).1 +:+ rest).

(** [\s*(.+?)\s*$] at the head of the string: the captured group and what
    follows the match. When nothing but white space is left, the group is the
    last byte that is not a line break. *)
Definition match_value (s : string) : option (string * string) :=
  let '(ws, rest) := span re_space s in
  if String.eqb rest "" then
    match (span (Ascii.eqb nl) (String.rev ws)).2 with
    | String c _ => Some (String c "", "")
    | EmptyString => None
    end
  else
    let line := line_of rest in
    let value := String.rev (TrimLeft re_space (String.rev line)) in
    Some (value, after_match (str_drop (String.length value) rest)).

(** [^\*\*([^*]+):\*\*\s*(.+?)\s*$] at a line start. *)
Definition match_field (s : string) : option (string * string * string) :=
  if HasPrefix s "**" then
    let '(run, rest) := span (fun c => negb (Ascii.eqb c "*"%char)) (str_drop 2 s) in
    if HasSuffix run ":" && negb (String.eqb run ":") && HasPrefix rest "**" then
      match match_value (str_drop 2 rest) with
      | Some (v, rest') => Some (TrimSuffix run ":", v, rest')
      | None => None
      end
    else None
  else None.

(** Scan for all non-overlapping matches of the field expression; [bol] tells
    whether the position is a line start. Each turn consumes at least a byte,
    so the length of the text is enough fuel. *)
Fixpoint scan_fields (fuel : nat) (bol : bool) (s : string) : list (string * string) :=
  match fuel with
  | O => []
  | S f =>
    match s with
    | EmptyString => []
    | String c s1 =>
      match (if bol then match_field s else None) with
      | Some (k, v, rest) => (k, v) :: scan_fields f false rest
      | None => scan_fields f (Ascii.eqb c nl) s1
      end
    end
  end.

(** First match of [^-\s*Dependencies:\s*(.+?)\s*$]. *)
Definition match_deps (s : string) : option string :=
  if HasPrefix s "-" then
    let rest := (span re_space (str_drop 1 s)).2 in
    if HasPrefix rest "Dependencies:" then fst <$> match_value (str_drop 13 rest) else None
  else None.

(** First match of [^# Task ([0-9]+):], its group. *)
Definition match_heading (s : string) : option string :=
  if HasPrefix s "# Task " then
    let '(ds, rest) := span is_digit (str_drop 7 s) in
    if negb (String.eqb ds "") && HasPrefix rest ":" then Some ds else None
  else None.

(** Leftmost match at a line start. *)
Fixpoint find_at_bol (m : string -> option string) (bol : bool) (s : string) : option string :=
  match (if bol then m s else None) with
  | Some r => Some r
  | None => match s with
            | EmptyString => None
            | String c s1 => find_at_bol m (Ascii.eqb c nl) s1
            end
  end.

Definition taskHeadingRE (body : string) : option string := find_at_bol match_heading true body.
Definition depsRE (body : string) : option string := find_at_bol match_deps true body.

(** ** Parsing *)

Section TaskSource.
(** Unicode lower casing of a non-ASCII string. *)
Variable uni : string -> string.

(** [parseFields]: later fields overwrite earlier ones. *)
Definition parseFields (body : string) : gmap string string :=
  foldl (fun m '(k, v) => <[ToLower uni (TrimSpace k) := TrimSpace v]> m) ∅
        (scan_fields (String.length body) true body).

(** [normalizeStatus]. *)
Definition normalizeStatus (raw : string) : result TSErr Status :=
  let status := ToLower uni (TrimSpace raw) in
  if String.eqb status "done" || Contains status "completed" then Ok StatusCompleted
  else if Contains status "active" || Contains status "in progress" || Contains status "⏳"
  then Ok StatusActive
  else if Contains status "needs-human" then Ok StatusNeedsHuman
  else if Contains status "blocked" || Contains status "⚠️" then Ok StatusBlocked
  else if Contains status "backlog" || Contains status "ready" || Contains status "❌"
  then Ok StatusReady
  else Err (ErrUnrecognizedStatus raw).

Definition dep_separator (c : ascii) : bool :=
  is_byte 44 c || is_byte 32 c || is_byte 9 c || is_byte 59 c.
Definition dep_trim (c : ascii) : bool := is_byte 32 c || is_byte 46 c.

(** [parseDependencies]. *)
Definition parseDependencies (body : string) : list string :=
  match depsRE body with
  | None => []
  | Some m =>
    let raw := ToLower uni (TrimSpace m) in
    if String.eqb raw "" || HasPrefix raw "none" || String.eqb raw "no blocking tasks" then []
    else filter (fun d => d <> "") (map (Trim dep_trim) (FieldsFunc dep_separator raw))
  end.

(** [parseTaskFile]. *)
Definition parseTaskFile (taskPath body : string) : result TSErr Candidate :=
  match taskHeadingRE body with
  | None => Err (ErrMissingHeading taskPath)
  | Some id =>
    let fields := parseFields body in
    match fields !! "project" with
    | None | Some "" => Err (ErrMissingProject taskPath)
    | Some project =>
      match fields !! "status" with
      | None | Some "" => Err (ErrMissingStatus taskPath)
      | Some statusRaw =>
        let? status := normalizeStatus statusRaw in
        Ok (mkCandidate (mkTask id project taskPath "") status (parseDependencies body))
      end
    end
  end.

(** ** Selection *)

(** The order of [sortCandidates]: by ID, then by file. *)
Definition cand_less (a b : Candidate) : bool :=
  if String.eqb (task_ID (cand_Task a)) (task_ID (cand_Task b))
  then String.ltb (task_Spec (cand_Task a)) (task_Spec (cand_Task b))
  else String.ltb (task_ID (cand_Task a)) (task_ID (cand_Task b)).

Definition sortCandidates : list Candidate -> list Candidate := sort_by cand_less.

(** First loop of [validateCandidates]: the ids, or the first duplicate. *)
Fixpoint collect_ids (ids : gset string) (cs : list Candidate) : result TSErr (gset string) :=
  match cs with
  | [] => Ok ids
  | c :: rest =>
    let id := task_ID (cand_Task c) in
    if bool_decide (id ∈ ids) then Err (ErrDuplicateTask id)
    else collect_ids ({[id]} ∪ ids) rest
  end.

(** Second loop: every dependency names a task. *)
Fixpoint check_deps (ids : gset string) (cs : list Candidate) : option TSErr :=
  match cs with
  | [] => None
  | c :: rest =>
    match List.find (fun d => bool_decide (d ∉ ids)) (cand_Dependencies c) with
    | Some dep => Some (ErrMissingDep (task_ID (cand_Task c)) dep)
    | None => check_deps ids rest
    end
  end.

Definition validateCandidates (cs : list Candidate) : option TSErr :=
  match collect_ids ∅ cs with
  | Err e => Some e
  | Ok ids => check_deps ids cs
  end.

(** [dependenciesCompleted]. *)
Definition dependenciesCompleted (deps : list string) (completed : gset string) : bool :=
  forallb (fun d => bool_decide (d ∈ completed)) deps.

Definition completed_ids (cs : list Candidate) : gset string :=
  list_to_set (map (fun c => task_ID (cand_Task c))
    (filter (fun c => cand_Status c = StatusCompleted) cs)).

(** A candidate that [Next] may return. *)
Definition eligible (completed : gset string) (c : Candidate) : bool :=
  bool_decide (cand_Status c = StatusReady) && dependenciesCompleted (cand_Dependencies c) completed.

(** The body of [Next] once the candidates are known. *)
Definition select_next (cs : list Candidate) : option Task :=
  cand_Task <$> List.find (eligible (completed_ids cs)) cs.

(** ** The file system and the readers *)

Record DirEntry := mkDirEntry { de_Name : string; de_IsDir : bool }.

(** [ReadDir] of a directory: absent, unreadable, or its entries. *)
Inductive DirResult := DirNotExist | DirError | DirEntries (l : list DirEntry).

Record FS := mkFS {
  fs_dir : string -> DirResult;
  fs_files : gmap string string;
  fs_stat_fails : string -> bool
}.

(** [entry.IsDir() || path.Ext(entry.Name()) != ".md"], negated. *)
Definition is_task_entry (e : DirEntry) : bool :=
  negb (de_IsDir e) && HasSuffix (de_Name e) ".md".

Fixpoint read_entries (fs : FS) (dir : string) (es : list DirEntry) (acc : list Candidate)
  : result TSErr (list Candidate) :=
  match es with
  | [] => Ok acc
  | e :: rest =>
    if is_task_entry e then
      let taskPath := PathJoin dir (de_Name e) in
      match fs_files fs !! taskPath with
      | None => Err (ErrReadFile taskPath)
      | Some body => let? c := parseTaskFile taskPath body in read_entries fs dir rest (acc ++ [c])
      end
    else read_entries fs dir rest acc
  end.

Fixpoint read_dirs (fs : FS) (dirs : list string) (acc : list Candidate)
  : result TSErr (list Candidate) :=
  match dirs with
  | [] => Ok acc
  | dir :: rest =>
    match fs_dir fs dir with
    | DirNotExist => read_dirs fs rest acc
    | DirError => Err (ErrReadDir dir)
    | DirEntries es => let? acc' := read_entries fs dir es acc in read_dirs fs rest acc'
    end
  end.

(** [Source.Candidates]. *)
Definition Candidates (fsys : option FS) (roadmapPath : string) (taskDirs : list string)
  : result TSErr (list Candidate) :=
  match fsys with
  | None => Err ErrNilFilesystem
  | Some fs =>
  if negb (String.eqb roadmapPath "") && bool_decide (fs_files fs !! roadmapPath = None)
  then Err (ErrReadRoadmap roadmapPath)
  else
    let? cs := read_dirs fs taskDirs [] in
    let cs := sortCandidates cs in
    match validateCandidates cs with
    | Some e => Err e
    | None => Ok cs
    end
  end.

(** [Source.Next]. *)
Definition Next (fs : option FS) (roadmapPath : string) (taskDirs : list string)
  : result TSErr (option Task) :=
  let? cs := Candidates fs roadmapPath taskDirs in Ok (select_next cs).

(** ** The status writer *)

(** The constrained status markers. *)
Inductive WritableStatus := WritableStatusDone | WritableStatusBlocked | WritableStatusNeedsHuman.

Definition WritableStatus_string (s : WritableStatus) : string :=
  match s with
  | WritableStatusDone => "done"
  | WritableStatusBlocked => "blocked"
  | WritableStatusNeedsHuman => "needs-human"
  end.

Record StatusWriteResult := mkStatusWriteResult { sw_Path : string; sw_Changed : bool }.

(** [splitLinesKeepingEndings]: [cur] is the line being read, reversed. *)
Fixpoint split_lines_from (cur : string) (body : string) : list string :=
  match body with
  | EmptyString => if String.eqb cur "" then [] else [String.rev cur]
  | String c rest =>
    if Ascii.eqb c nl then String.rev (String c cur) :: split_lines_from "" rest
    else split_lines_from (String c cur) rest
  end.
Definition splitLinesKeepingEndings (body : string) : list string := split_lines_from "" body.

(** [trimLineEnding]: content and ending. *)
Definition trimLineEnding (line : string) : string * string :=
  let n := String.length line in
  if HasSuffix line (String cr (String nl "")) then (str_take (n - 2) line, str_drop (n - 2) line)
  else if HasSuffix line (String nl "") then (str_take (n - 1) line, str_drop (n - 1) line)
  else (line, "").

Definition is_status_line (line : string) : bool :=
  HasPrefix (trimLineEnding line).1 "**Status:**".

(** The indices of the status lines, in order; the source keeps the first
    and fails on a second. *)
Fixpoint status_indices (i : nat) (lines : list string) : list nat :=
  match lines with
  | [] => []
  | l :: rest => if is_status_line l then i :: status_indices (S i) rest
                 else status_indices (S i) rest
  end.

Definition status_replacement (line : string) (status : WritableStatus) : string :=
  ("**Status:** " +:+ WritableStatus_string status) +:+ (trimLineEnding line).2.

Definition str_concat (l : list string) : string := foldr String.append "" l.

(** [rewriteStatusLine]. *)
Definition rewriteStatusLine (body : string) (status : WritableStatus)
  : result TSErr (string * bool) :=
  let lines := splitLinesKeepingEndings body in
  match status_indices 0 lines with
  | [] => Err ErrMissingStatusLine
  | [i] =>
    let old := nth i lines "" in
    let replacement := status_replacement old status in
    if String.eqb old replacement then Ok (body, false)
    else Ok (str_concat (<[i := replacement]> lines), true)
  | _ => Err ErrMultipleStatusLines
  end.

(** One directory of [findTask]; [found] is the match so far. *)
Fixpoint find_entries (fs : FS) (dirPath taskID : string) (es : list DirEntry)
  (found : option (string * string)) : result TSErr (option (string * string)) :=
  match es with
  | [] => Ok found
  | e :: rest =>
    if is_task_entry e then
      let taskPath := PathJoin dirPath (de_Name e) in
      match fs_files fs !! taskPath with
      | None => Err (ErrReadFile taskPath)
      | Some body =>
        if bool_decide (taskHeadingRE body = Some taskID) then
          match found with
          | Some _ => Err (ErrDuplicateTask taskID)
          | None => if fs_stat_fails fs taskPath then Err (ErrStatFile taskPath)
                    else find_entries fs dirPath taskID rest (Some (taskPath, body))
          end
        else find_entries fs dirPath taskID rest found
      end
    else find_entries fs dirPath taskID rest found
  end.

Fixpoint find_dirs (fs : FS) (root taskID : string) (dirs : list string)
  (found : option (string * string)) : result TSErr (option (string * string)) :=
  match dirs with
  | [] => Ok found
  | dir :: rest =>
    let dirPath := PathJoin root dir in
    match fs_dir fs dirPath with
    | DirNotExist => find_dirs fs root taskID rest found
    | DirError => Err (ErrReadDir dirPath)
    | DirEntries es =>
      let? found' := find_entries fs dirPath taskID es found in
      find_dirs fs root taskID rest found'
    end
  end.

(** [StatusWriter.findTask]. *)
Definition findTask (fs : FS) (root : string) (taskDirs : list string) (taskID : string)
  : result TSErr (string * string) :=
  if String.eqb root "" then Err ErrEmptyRoot
  else
    let? found := find_dirs fs root taskID taskDirs None in
    match found with
    | None => Err (ErrTaskNotFound taskID)
    | Some m => Ok m
    end.

(** [validateWritableStatus] of a raw status string. *)
Definition validateWritableStatus (raw : string) : result TSErr WritableStatus :=
  if String.eqb raw "done" then Ok WritableStatusDone
  else if String.eqb raw "blocked" then Ok WritableStatusBlocked
  else if String.eqb raw "needs-human" then Ok WritableStatusNeedsHuman
  else Err (ErrInvalidWritableStatus raw).

(** [StatusWriter]: its root and task directories. *)
Record StatusWriter := mkStatusWriter { sw_root : string; sw_taskDirs : list string }.

(** [StatusWriter.WriteStatus] on a possibly nil writer; [write_fails] says
    which paths the operating system refuses to write. *)
Definition WriteStatus (write_fails : string -> bool) (sw : option StatusWriter)
  (taskID raw : string) (fs : FS) : result TSErr StatusWriteResult * FS :=
  let target := TrimSpace taskID in
  if String.eqb target "" then (Err ErrEmptyTaskID, fs)
  else match validateWritableStatus raw with
  | Err e => (Err e, fs)
  | Ok status =>
  match sw with
  | None => (Err ErrNilStatusWriter, fs)
  | Some w =>
  match findTask fs (sw_root w) (sw_taskDirs w) target with
  | Err e => (Err e, fs)
  | Ok (path, body) =>
    match rewriteStatusLine body status with
    | Err e => (Err e, fs)
    | Ok (_, false) => (Ok (mkStatusWriteResult path false), fs)
    | Ok (updated, true) =>
      if write_fails path then (Err (ErrWriteFile path), fs)
      else (Ok (mkStatusWriteResult path true),
            mkFS (fs_dir fs) (<[path := updated]> (fs_files fs)) (fs_stat_fails fs))
    end
  end end end.
End TaskSource.

(** ** Lemmas: selection *)

Lemma cand_less_asym x y : cand_less x y = true -> cand_less y x = false.
Proof.
  unfold cand_less. rewrite (String.eqb_sym (task_ID (cand_Task y))).
  case_match; apply ltb_asym.
Qed.

Lemma cand_less_trans x y z :
  cand_less y x = false -> cand_less z y = false -> cand_less z x = false.
Proof.
  unfold cand_less. intros H1 H2.
  destruct (String.eqb (task_ID (cand_Task y)) _) eqn:E1; to_prop.
  - rewrite E1 in H2. destruct (String.eqb (task_ID (cand_Task z)) _) eqn:E2; [|done].
    by eapply nltb_trans.
  - destruct (String.eqb (task_ID (cand_Task z)) (task_ID (cand_Task y))) eqn:E2; to_prop.
    + rewrite E2. apply String.eqb_neq in E1. by rewrite E1.
    + destruct (String.eqb (task_ID (cand_Task z)) (task_ID (cand_Task x))) eqn:E3; to_prop.
      * rewrite E3 in H2, E2. destruct E1. by apply ltb_total.
      * by eapply nltb_trans.
Qed.

Lemma sortCandidates_sorted cs : StronglySorted (nless cand_less) (sortCandidates cs).
Proof. apply sort_by_sorted; [apply cand_less_asym | apply cand_less_trans]. Qed.

Lemma collect_ids_ok cs ids ids' :
  collect_ids ids cs = Ok ids' ->
  NoDup (map (fun c => task_ID (cand_Task c)) cs) /\
  (forall c, c ∈ cs -> task_ID (cand_Task c) ∉ ids) /\
  ids' = list_to_set (map (fun c => task_ID (cand_Task c)) cs) ∪ ids.
Proof.
  revert ids. induction cs as [|c cs IH]; intros ids H; simpl in H.
  - simplify_eq. split_and!; [constructor | set_solver | set_solver].
  - go_cases. apply IH in H as (N & D & ->). split_and!.
    + constructor; [|done]. intros (c' & E & Hc)%list_elem_of_fmap. apply D in Hc.
      simpl in E. rewrite <- E in Hc. set_solver.
    + intros c' [->|Hc]%elem_of_cons; [done|]. apply D in Hc. set_solver.
    + simpl. set_solver.
Qed.

Lemma check_deps_ok ids cs :
  check_deps ids cs = None -> forall c d, c ∈ cs -> d ∈ cand_Dependencies c -> d ∈ ids.
Proof.
  induction cs as [|c cs IH]; simpl; intros H c' d Hc Hd; [by apply elem_of_nil in Hc|].
  destruct (List.find _ (cand_Dependencies c)) as [x|] eqn:E; [done|].
  apply elem_of_cons in Hc as [->|Hc]; [|by eapply IH].
  apply list_elem_of_In in Hd. pose proof (List.find_none _ _ E _ Hd) as F. simpl in F.
  to_prop. destruct (decide (d ∈ ids)); [done|]. by destruct F.
Qed.

(** A successful validation: unique ids, closed dependencies. *)
Lemma validateCandidates_ok cs :
  validateCandidates cs = None ->
  NoDup (map (fun c => task_ID (cand_Task c)) cs) /\
  forall c d, c ∈ cs -> d ∈ cand_Dependencies c ->
    exists c', c' ∈ cs /\ task_ID (cand_Task c') = d.
Proof.
  unfold validateCandidates. intros H. destruct (collect_ids ∅ cs) as [ids|] eqn:E; [|done].
  apply collect_ids_ok in E as (N & _ & ->). split; [done|].
  intros c d Hc Hd. pose proof (check_deps_ok _ _ H c d Hc Hd) as Hin.
  rewrite union_empty_r_L, elem_of_list_to_set in Hin.
  apply list_elem_of_fmap in Hin as (c' & -> & ?). by exists c'.
Qed.

Lemma completed_ids_spec cs d :
  d ∈ completed_ids cs <->
  exists c, c ∈ cs /\ cand_Status c = StatusCompleted /\ task_ID (cand_Task c) = d.
Proof.
  unfold completed_ids. rewrite elem_of_list_to_set. setoid_rewrite list_elem_of_fmap.
  setoid_rewrite list_elem_of_filter. naive_solver.
Qed.

(** Ready, with every dependency completed: the reference notion. *)
Definition can_start (cs : list Candidate) (c : Candidate) : Prop :=
  cand_Status c = StatusReady /\
  forall d, d ∈ cand_Dependencies c ->
    exists c', c' ∈ cs /\ task_ID (cand_Task c') = d /\ cand_Status c' = StatusCompleted.

Lemma eligible_spec cs c : eligible (completed_ids cs) c = true <-> can_start cs c.
Proof.
  unfold eligible, can_start, dependenciesCompleted.
  rewrite andb_true_iff, bool_decide_eq_true, forallb_forall.
  split; intros [H1 H2]; (split; [done|]).
  - intros d Hd. apply list_elem_of_In in Hd. specialize (H2 d Hd).
    apply bool_decide_eq_true, completed_ids_spec in H2. naive_solver.
  - intros d Hd. apply bool_decide_eq_true, completed_ids_spec.
    apply list_elem_of_In in Hd. naive_solver.
Qed.

Lemma find_split {A} (f : A -> bool) l x :
  List.find f l = Some x ->
  exists l1 l2, l = l1 ++ x :: l2 /\ f x = true /\ Forall (fun y => f y = false) l1.
Proof.
  induction l as [|y l IH]; simpl; [done|]. destruct (f y) eqn:E.
  - intros [= ->]. by exists [], l.
  - intros (l1 & l2 & -> & ? & ?)%IH. exists (y :: l1), l2. split_and!; try done. by constructor.
Qed.

Lemma StronglySorted_app_cons {A} (R : A -> A -> Prop) l1 x l2 y :
  StronglySorted R (l1 ++ x :: l2) -> y ∈ l2 -> R x y.
Proof.
  induction l1 as [|z l1 IH]; simpl; intros H Hy.
  - apply StronglySorted_inv in H as [_ H]. rewrite Forall_forall in H. by apply H.
  - apply StronglySorted_inv in H as [H _]. by apply IH.
Qed.

(** ** Lemmas: the status writer *)

Definition no_nl (s : string) : bool := str_forall (fun c => negb (Ascii.eqb c nl)) s.

(** The shape of the lines of a text: all but the last end with a line break. *)
Inductive wf_lines : list string -> Prop :=
| wf_nil : wf_lines []
| wf_last l : l <> "" -> no_nl l = true -> wf_lines [l]
| wf_cons l ls : no_nl l = true -> wf_lines ls -> wf_lines ((l +:+ String nl "") :: ls).

Lemma split_lines_concat cur body :
  str_concat (split_lines_from cur body) = String.rev cur +:+ body.
Proof.
  revert cur. induction body as [|c body IH]; intros cur; simpl.
  - destruct (String.eqb cur "") eqn:E; to_prop; [by subst|]. done.
  - destruct (Ascii.eqb c nl).
    + cbn [str_concat foldr]. change (foldr String.append "" (split_lines_from "" body))
        with (str_concat (split_lines_from "" body)).
      rewrite IH, rev_cons, str_app_assoc. done.
    + rewrite IH, rev_cons, str_app_assoc. done.
Qed.

Lemma split_lines_wf cur body : no_nl cur = true -> wf_lines (split_lines_from cur body).
Proof.
  revert cur. induction body as [|c body IH]; intros cur H; simpl.
  - destruct (String.eqb cur "") eqn:E; to_prop; [constructor|]. apply wf_last.
    + intros Hr. apply (f_equal String.rev) in Hr. by rewrite rev_involutive in Hr.
    + unfold no_nl. by rewrite str_forall_rev.
  - destruct (Ascii.eqb c nl) eqn:E.
    + apply Ascii.eqb_eq in E as ->. rewrite rev_cons. constructor; [|by apply IH].
      unfold no_nl. by rewrite str_forall_rev.
    + apply IH. unfold no_nl in *. simpl. by rewrite E.
Qed.

Lemma split_lines_app cur l rest :
  no_nl l = true ->
  split_lines_from cur (l +:+ String nl rest) =
  (String.rev cur +:+ l +:+ String nl "") :: split_lines_from "" rest.
Proof.
  revert cur. induction l as [|c l IH]; intros cur H.
  - simpl. by rewrite rev_cons.
  - rewrite str_app_cons. unfold no_nl in H. simpl in H. apply andb_true_iff in H as [H1 H2].
    apply negb_true_iff in H1. simpl. rewrite H1, IH by done.
    rewrite rev_cons, !str_app_assoc. done.
Qed.

Lemma split_lines_last cur l :
  no_nl l = true -> String.rev cur +:+ l <> "" -> split_lines_from cur l = [String.rev cur +:+ l].
Proof.
  revert cur. induction l as [|c l IH]; intros cur H Hne; simpl.
  - rewrite str_app_nil_r in *. destruct (String.eqb cur "") eqn:E; to_prop; [by subst|done].
  - unfold no_nl in H. simpl in H. apply andb_true_iff in H as [H1 H2].
    apply negb_true_iff in H1. rewrite H1, IH, rev_cons, str_app_assoc; [done|done|].
    rewrite rev_cons, str_app_assoc. done.
Qed.

(** Cutting a text into lines is the inverse of joining well-formed lines. *)
Lemma split_lines_of_concat ls : wf_lines ls -> splitLinesKeepingEndings (str_concat ls) = ls.
Proof.
  unfold splitLinesKeepingEndings. induction 1 as [|l Hne H|l ls Hl H IH]; [done| |].
  - simpl. rewrite str_app_nil_r. rewrite split_lines_last; done.
  - cbn [str_concat foldr]. fold (str_concat ls). rewrite str_app_assoc, (str_app_cons nl "").
    rewrite split_lines_app by done. change ("" +:+ str_concat ls) with (str_concat ls). by rewrite IH.
Qed.

(** The endings [trimLineEnding] cuts off. *)
Definition line_endings : list string := [String cr (String nl ""); String nl ""; ""].

Lemma trimLineEnding_spec line :
  line = (trimLineEnding line).1 +:+ (trimLineEnding line).2 /\
  (trimLineEnding line).2 ∈ line_endings /\
  ((trimLineEnding line).2 = "" -> HasSuffix line (String nl "") = false).
Proof.
  unfold trimLineEnding, line_endings.
  destruct (HasSuffix line (String cr (String nl ""))) eqn:E1;
    [|destruct (HasSuffix line (String nl "")) eqn:E2].
  - apply HasSuffix_split in E1 as (q & -> & E & D). simpl in E, D |- *. rewrite E, D.
    split_and!; [done | left | done].
  - apply HasSuffix_split in E2 as (q & -> & E & D). simpl in E, D |- *. rewrite E, D.
    split_and!; [done | by right; left | done].
  - simpl. rewrite str_app_nil_r. split_and!; [done | by right; right; left | done].
Qed.

Lemma status_replacement_spec line st :
  is_status_line (status_replacement line st) = true /\
  status_replacement (status_replacement line st) st = status_replacement line st.
Proof.
  destruct (trimLineEnding_spec line) as (_ & Hin & _). unfold status_replacement at 1 3 4.
  unfold line_endings in Hin. rewrite !elem_of_cons in Hin.
  destruct Hin as [->|[->|[->|[]%elem_of_nil]]]; destruct st; split; vm_compute; done.
Qed.

Lemma status_replacement_wf line rest st :
  wf_lines (line :: rest) -> wf_lines (status_replacement line st :: rest).
Proof.
  intros H. destruct (trimLineEnding_spec line) as (Hl & Hin & Hn).
  unfold status_replacement. unfold line_endings in Hin. rewrite !elem_of_cons in Hin.
  assert (Hok : forall e, no_nl (("**Status:** " +:+ WritableStatus_string st) +:+ e) = no_nl e).
  { intros e. unfold no_nl. rewrite str_forall_app. by destruct st. }
  inversion H as [|l Hne Hno|l ls Hno Hw]; subst.
  - destruct Hin as [E|[E|[E|[]%elem_of_nil]]]; rewrite E in *.
    + exfalso. rewrite Hl in Hno. unfold no_nl in Hno. rewrite str_forall_app in Hno.
      by rewrite andb_false_r in Hno.
    + exfalso. rewrite Hl in Hno. unfold no_nl in Hno. rewrite str_forall_app in Hno.
      by rewrite andb_false_r in Hno.
    + apply wf_last; [by destruct st | by rewrite Hok].
  - destruct Hin as [E|[E|[E|[]%elem_of_nil]]]; rewrite E in *.
    + change (String cr (String nl "")) with (String cr "" +:+ String nl "").
      rewrite <- str_app_assoc. constructor; [by rewrite Hok | done].
    + constructor; [|done]. rewrite <- (str_app_nil_r (_ +:+ _)). by rewrite Hok.
    + specialize (Hn eq_refl). by rewrite HasSuffix_app in Hn.
Qed.

Lemma wf_lines_insert i lines line st :
  wf_lines lines -> lines !! i = Some line -> wf_lines (<[i := status_replacement line st]> lines).
Proof.
  revert i. induction lines as [|l lines IH]; intros i H E; [done|].
  destruct i as [|i]; simpl in *.
  - simplify_eq. by apply status_replacement_wf.
  - inversion H as [|? ? ? |l0 ls Hno Hw]; subst; [done|]. constructor; [done|]. by apply IH.
Qed.

Lemma status_indices_spec k lines i :
  i ∈ status_indices k lines <->
  k <= i /\ exists line, lines !! (i - k) = Some line /\ is_status_line line = true.
Proof.
  revert k. induction lines as [|l lines IH]; intros k; simpl.
  - split; [intros []%elem_of_nil | naive_solver].
  - assert (Hrec : i ∈ status_indices (S k) lines <-> k < i /\
      exists line, (l :: lines) !! (i - k) = Some line /\ is_status_line line = true).
    { rewrite IH. split; intros [Hk (line & E & Hs)]; (split; [lia|]); exists line;
      (split; [|done]).
      - replace (i - k) with (S (i - S k)) by lia. done.
      - replace (i - k) with (S (i - S k)) in E by lia. done. }
    destruct (is_status_line l) eqn:El; [rewrite elem_of_cons|]; rewrite Hrec; clear Hrec IH.
    + split.
      * intros [->|[? ?]]; (split; [lia|]); [|done]. exists l. by rewrite Nat.sub_diag.
      * intros [Hk Hl]. destruct (decide (i = k)); [by left|]. right. split; [lia|done].
    + split; intros [Hk (line & E & Hs)]; (split; [|by exists line]); [lia|].
      destruct (decide (i = k)); [|lia]. subst. rewrite Nat.sub_diag in E. simpl in E. simplify_eq. congruence.
Qed.

Lemma status_indices_insert k i lines r :
  i < length lines -> is_status_line r = true -> status_indices k lines = [k + i] ->
  status_indices k (<[i := r]> lines) = [k + i].
Proof.
  revert k i. induction lines as [|l lines IH]; intros k i Hi Hr H; [simpl in Hi; lia|].
  destruct i as [|i]; simpl in *.
  - rewrite Nat.add_0_r in *. destruct (is_status_line l) eqn:El.
    + by rewrite Hr.
    + exfalso. assert (Hk : k ∈ status_indices (S k) lines) by (rewrite H; left).
      apply status_indices_spec in Hk as [Hk _]. lia.
  - destruct (is_status_line l) eqn:El.
    + simplify_eq/=. lia.
    + rewrite Nat.add_succ_r in *. apply (IH (S k)); [lia|done|by rewrite H].
Qed.

Lemma Candidates_ok uni fs roadmap dirs cs :
  Candidates uni fs roadmap dirs = Ok cs ->
  exists raw, cs = sortCandidates raw /\ validateCandidates cs = None.
Proof.
  unfold Candidates. destruct fs as [fs|]; [|done]. case_match; [done|].
  destruct (read_dirs _ _ _ _) as [raw|]; [|done].
  destruct (validateCandidates _) eqn:E; [done|]. intros [= <-]. by exists raw.
Qed.

(** ** Properties *)

(** When the task files parse, their IDs are distinct and Next returns the task with
    the least ID among those that are ready and whose dependencies are all
    completed, or none when there is no such task. *)
Theorem next_task_is_least_ready uni fs roadmap dirs cs :
  Candidates uni fs roadmap dirs = Ok cs ->
  NoDup (map (fun c => task_ID (cand_Task c)) cs) /\
  match Next uni fs roadmap dirs with
  | Err _ => False
  | Ok (Some t) =>
      exists c, c ∈ cs /\ cand_Task c = t /\ can_start cs c /\
        forall c', c' ∈ cs -> can_start cs c' ->
          c' = c \/ String.ltb (task_ID (cand_Task c)) (task_ID (cand_Task c')) = true
  | Ok None => forall c, c ∈ cs -> ~ can_start cs c
  end.
Proof.
  intros H. unfold Next. rewrite H. apply Candidates_ok in H as (raw & Hraw & H).
  apply validateCandidates_ok in H as [N _]. split; [done|]. unfold select_next.
  destruct (List.find _ cs) as [c|] eqn:E; simpl.
  - apply find_split in E as (l1 & l2 & Ecs & He & Hl1). exists c.
    split_and!; [rewrite Ecs; set_solver | done | by apply eligible_spec |].
    intros c' Hc' Hs. apply eligible_spec in Hs. pose proof Hc' as Hmem.
    rewrite Ecs in Hc'. apply elem_of_app in Hc' as [Hc'|[->|Hc']%elem_of_cons]; [|by left|].
    { rewrite Forall_forall in Hl1. apply Hl1 in Hc'. congruence. }
    right. pose proof (sortCandidates_sorted raw) as S. rewrite <- Hraw, Ecs in S.
    eapply StronglySorted_app_cons in S; [|exact Hc']. unfold nless, cand_less in S.
    rewrite Ecs, map_app in N. apply NoDup_app in N as (_ & _ & N). simpl in N.
    apply NoDup_cons in N as [N _].
    destruct (String.eqb _ _) eqn:Eid; to_prop.
    { exfalso. apply N. rewrite <- Eid. apply list_elem_of_fmap. by exists c'. }
    destruct (String.ltb (task_ID (cand_Task c)) _) eqn:El; [done|].
    destruct Eid. by apply ltb_total.
  - intros c Hc Hs. apply eligible_spec in Hs. apply list_elem_of_In in Hc.
    pose proof (List.find_none _ _ E _ Hc). congruence.
Qed.

(** A successful status rewrite replaces exactly one line, the status line, keeping
    all other lines and line endings; it reports a change exactly when the text
    changed, and rewriting the result again changes nothing. *)
Theorem rewrite_status_line_spec body st updated changed :
  rewriteStatusLine body st = Ok (updated, changed) ->
  exists i old,
    splitLinesKeepingEndings body !! i = Some old /\ is_status_line old = true /\
    splitLinesKeepingEndings updated
      = <[i := status_replacement old st]> (splitLinesKeepingEndings body) /\
    (changed = false <-> updated = body) /\
    rewriteStatusLine updated st = Ok (updated, false).
Proof.
  unfold rewriteStatusLine. intros H.
  set (lines := splitLinesKeepingEndings body) in *.
  assert (Hcat : str_concat lines = body) by (apply (split_lines_concat "" body)).
  assert (Hwf : wf_lines lines) by (by apply split_lines_wf).
  destruct (status_indices 0 lines) as [|i [|]] eqn:Ei; [done| |done].
  assert (Hi : i ∈ status_indices 0 lines) by (rewrite Ei; left).
  apply status_indices_spec in Hi as (_ & old & Hold & Hst). rewrite Nat.sub_0_r in Hold.
  rewrite (nth_lookup_Some _ _ "" _ Hold) in H.
  pose proof (status_replacement_spec old st) as [Hr1 Hr2].
  set (r := status_replacement old st) in *.
  assert (Hlt : i < length lines) by (by eapply lookup_lt_Some).
  exists i, old. destruct (String.eqb old r) eqn:E; to_prop; injection H as <- <-.
  - fold r. rewrite <- E. split_and!; [done|done| by rewrite list_insert_id | done |].
    fold lines. rewrite Ei. rewrite (nth_lookup_Some _ _ "" _ Hold).
    fold r. rewrite <- E. by rewrite String.eqb_refl.
  - assert (Hs : splitLinesKeepingEndings (str_concat (<[i:=r]> lines)) = <[i:=r]> lines).
    { apply split_lines_of_concat. by apply wf_lines_insert. }
    split_and!; [done|done|done| |].
    + split; [done|]. intros Heq. rewrite Heq in Hs. fold lines in Hs.
      assert (lines !! i = Some r) by (rewrite Hs; by apply list_lookup_insert_eq).
      congruence.
    + rewrite Hs. rewrite (status_indices_insert 0 i lines r Hlt Hr1 Ei).
      rewrite (nth_lookup_Some _ _ "" r) by (by apply list_lookup_insert_eq).
      rewrite Hr2. by rewrite String.eqb_refl.
Qed.

(** ** Concrete task files *)

Definition demo_task (id status deps : string) : string :=
  Join (String nl "") ["# Task " +:+ id +:+ ": demo"; "**Project:** p"; "**Status:** " +:+ status;
                       "- Dependencies: " +:+ deps; ""].

(** 001 is done, 002 waits for the blocked 004, 003 can start. *)
Definition demo_fs : FS :=
  mkFS (fun d => if String.eqb d "tasks" then
          DirEntries [mkDirEntry "3.md" false; mkDirEntry "2.md" false; mkDirEntry "1.md" false;
                      mkDirEntry "4.md" false; mkDirEntry "old" true]
        else DirNotExist)
    {["tasks/1.md" := demo_task "001" "completed" "none"; "tasks/2.md" := demo_task "002" "ready" "004";
      "tasks/3.md" := demo_task "003" "backlog" "001"; "tasks/4.md" := demo_task "004" "blocked" "none"]}
    (fun _ => false).

Lemma next_task_is_least_ready_witness :
  match Candidates (fun s => s) (Some demo_fs) "" ["tasks"; "missing"] with
  | Ok cs => exists c, c ∈ cs /\ can_start cs c /\ task_ID (cand_Task c) = "003"
  | Err _ => False
  end.
Proof.
  assert (C : match Next (fun s => s) (Some demo_fs) "" ["tasks"; "missing"] with
              | Ok (Some t) => String.eqb (task_ID t) "003" | _ => false end = true)
    by (vm_compute; reflexivity).
  destruct (Candidates (fun s => s) (Some demo_fs) "" ["tasks"; "missing"]) as [cs|e] eqn:E.
  - pose proof (next_task_is_least_ready _ _ _ _ cs E) as [_ H].
    destruct (Next (fun s => s) (Some demo_fs) "" ["tasks"; "missing"]) as [[t|]|e]; try discriminate.
    destruct H as (c & Hin & <- & Hs & _). exists c. split_and!; [done | done | by apply String.eqb_eq].
  - unfold Next in C. rewrite E in C. discriminate.
Defined.

Lemma rewrite_status_line_spec_witness :
  match rewriteStatusLine (demo_task "003" "backlog" "001") WritableStatusDone with
  | Ok (updated, changed) =>
    changed = true /\ rewriteStatusLine updated WritableStatusDone = Ok (updated, false)
  | Err _ => False
  end.
Proof.
  assert (C : match rewriteStatusLine (demo_task "003" "backlog" "001") WritableStatusDone with
              | Ok (_, changed) => changed | Err _ => false end = true) by (vm_compute; reflexivity).
  destruct (rewriteStatusLine (demo_task "003" "backlog" "001") WritableStatusDone) as [[u c]|e] eqn:E;
    [|discriminate].
  destruct (rewrite_status_line_spec _ _ _ _ E) as (i & old & _ & _ & _ & _ & H). split; [exact C | exact H].
Defined.
