(* ===== verification/GateSteps.v ===== *)
(** * The steps of the production gate ([internal/gate/go_steps.go])

    The seven tools the gate of a coding agent runs in a worktree, and
    [newProductionGate] of [internal/runtime/run.go], which assembles them. The
    processes and the files are seams over a world [W]. *)

From stdpp Require Import base gmap strings list.
From Stdlib Require Import ZArith Lia Ascii.
From S2P Require Import Prelude GoStrings Paths TaskSource Gate.

(** ** The seams *)

Inductive StatResult := StatFound | StatNotExist | StatError (e : string).

(** [exec.LookPath] (its error), [cmd.CombinedOutput] in a directory, [os.Stat]. *)
Record Tools (W : Type) := mkTools {
  tl_LookPath : string -> W -> option string;
  tl_CombinedOutput : string -> string -> list string -> W -> (string * option string) * W;
  tl_Stat : string -> W -> StatResult
}.
Arguments mkTools {W} _ _ _.
Arguments tl_LookPath {W} _ _ _.
Arguments tl_CombinedOutput {W} _ _ _ _ _.
Arguments tl_Stat {W} _ _ _.

Section Steps.
(** [strconv.Quote], the [%q] verb. *)
Context {W : Type} (quote : string -> string) (tl : Tools W).

Definition step_result (ok : bool) (output : string) : StepResult := mkStepResult "" ok output 0%Z.

(** [runCommandStep]. *)
Definition runCommandStep (repoPath tool : string) (args : list string) (w : W) : StepResult * W :=
  match tl_LookPath tl tool w with
  | Some e => (step_result false ("missing tool " +:+ quote tool +:+ " on PATH: " +:+ e), w)
  | None =>
    let '((output, err), w) := tl_CombinedOutput tl repoPath tool args w in
    (step_result (match err with None => true | Some _ => false end)
       (match err with Some e => if String.eqb output "" then e else output | None => output end), w)
  end.

Definition GoBuildStep : Step W :=
  mkStep "go build ./..." (fun repo => runCommandStep repo "go" ["build"; "./..."]).
Definition GoVetStep : Step W :=
  mkStep "go vet ./..." (fun repo => runCommandStep repo "go" ["vet"; "./..."]).
Definition GoTestStep : Step W :=
  mkStep "go test ./..." (fun repo => runCommandStep repo "go" ["test"; "./..."]).

(** A clean exit that lists a file is a failure. *)
Definition GoFmtStep : Step W :=
  mkStep "gofmt -l ." (fun repo w =>
    let '(r, w) := runCommandStep repo "gofmt" ["-l"; "."] w in
    (if sr_OK r && negb (blank (sr_Output r)) then step_result false (sr_Output r) else r, w)).

Definition GolangciLintStep : Step W :=
  mkStep "golangci-lint run" (fun repo => runCommandStep repo "golangci-lint" ["run"]).

Definition depScanArgs : list string :=
  ["check"; "--registry"; "go"; "--lockfile"; "go.sum"; "--lockfile-type"; "go"].

Definition DepScanStep : Step W :=
  mkStep "dep-scan" (fun repo w =>
    match tl_Stat tl (PathJoin repo "go.sum") w with
    | StatNotExist => (step_result true "no go.sum: module has no third-party dependencies; nothing to scan", w)
    | StatError e => (step_result false ("stat go.sum: " +:+ e), w)
    | StatFound => runCommandStep repo "dep-scan" depScanArgs w
    end).

Definition CodeScannerStep : Step W :=
  mkStep "code-scanner" (fun repo => runCommandStep repo "code-scanner" []).

(** [newProductionGate]. *)
Definition newProductionGate : result GateErr (list (registeredStep W)) :=
  Gate.New (map Some [GoBuildStep; GoVetStep; GoTestStep; GoFmtStep; GolangciLintStep; DepScanStep; CodeScannerStep]).

(** The gate it builds. *)
Definition production_gate : list (registeredStep W) :=
  map (fun s => mkRegisteredStep (step_Name s) s)
    [GoBuildStep; GoVetStep; GoTestStep; GoFmtStep; GolangciLintStep; DepScanStep; CodeScannerStep].

Lemma newProductionGate_ok : newProductionGate = Ok production_gate.
Proof. reflexivity. Qed.
End Steps.

(** ** What a passing worktree has been through *)

(** One finished process: its tool, arguments and output, and whether it exited
    cleanly. *)
Record Process := mkProcess { pr_tool : string; pr_args : list string; pr_output : string; pr_clean : bool }.

(** The seams with a log of the processes run. *)
Definition log_tools {W} (tl : Tools W) : Tools (W * list Process) :=
  mkTools (fun tool s => tl_LookPath tl tool s.1)
    (fun dir tool args s =>
       let '((output, err), w) := tl_CombinedOutput tl dir tool args s.1 in
       ((output, err), (w, s.2 ++ [mkProcess tool args output (match err with None => true | Some _ => false end)])))
    (fun path s => tl_Stat tl path s.1).

(** A command step that passes has run its tool to a clean exit. *)
Lemma command_passes {W} quote (tl : Tools W) repo tool args s r s' :
  runCommandStep quote (log_tools tl) repo tool args s = (r, s') -> sr_OK r = true ->
  s'.2 = s.2 ++ [mkProcess tool args (sr_Output r) true].
Proof.
  unfold runCommandStep. simpl. destruct (tl_LookPath tl tool s.1); [by intros [= <- <-]|].
  destruct (tl_CombinedOutput tl repo tool args s.1) as [[output [e|]] w]; intros [= <- <-]; done.
Qed.

(** The processes of the five tools that run first. *)
Definition builds (outputs : list string) : list Process :=
  zip_with (fun '(tool, args) output => mkProcess tool args output true)
    [("go", ["build"; "./..."]); ("go", ["vet"; "./..."]); ("go", ["test"; "./..."]); ("gofmt", ["-l"; "."]);
     ("golangci-lint", ["run"])] outputs.

Lemma production_gate_run {W} quote (tl : Tools W) now repo s v s' :
  Verify now (production_gate quote (log_tools tl)) repo s = (v, s') -> v_OK v = true ->
  exists o1 o2 o3 o4 o5 scan o7, blank o4 = true /\
    s'.2 = s.2 ++ builds [o1; o2; o3; o4; o5] ++ scan ++ [mkProcess "code-scanner" [] o7 true] /\
    ((exists w, tl_Stat tl (PathJoin repo "go.sum") w = StatNotExist /\ scan = []) \/
     exists o6, scan = [mkProcess "dep-scan" depScanArgs o6 true]).
Proof.
  unfold production_gate. cbn [map step_Name GoBuildStep GoVetStep GoTestStep GoFmtStep GolangciLintStep DepScanStep CodeScannerStep].
  intros E Hv.
  apply Verify_peel in E as (r1 & s1 & v1 & E1 & O1 & E & Hv1); [|done].
  apply Verify_peel in E as (r2 & s2 & v2 & E2 & O2 & E & Hv2); [|done].
  apply Verify_peel in E as (r3 & s3 & v3 & E3 & O3 & E & Hv3); [|done].
  apply Verify_peel in E as (r4 & s4 & v4 & E4 & O4 & E & Hv4); [|done].
  apply Verify_peel in E as (r5 & s5 & v5 & E5 & O5 & E & Hv5); [|done].
  apply Verify_peel in E as (r6 & s6 & v6 & E6 & O6 & E & Hv6); [|done].
  apply Verify_peel in E as (r7 & s7 & v7 & E7 & O7 & E & Hv7); [|done].
  injection E as _ <-. simpl in E1, E2, E3, E4, E5, E6, E7.
  apply command_passes in E1, E2, E3, E5, E7; [|done..].
  destruct (runCommandStep quote (log_tools tl) repo "gofmt" ["-l"; "."] s3) as [r s4'] eqn:Ef.
  injection E4 as <- <-.
  destruct (sr_OK r && negb (blank (sr_Output r))) eqn:Ec; [done|]. rewrite O4 in Ec. apply negb_false_iff in Ec.
  apply command_passes in Ef; [|done].
  exists (sr_Output r1), (sr_Output r2), (sr_Output r3), (sr_Output r), (sr_Output r5).
  destruct (tl_Stat tl (PathJoin repo "go.sum") s5.1) eqn:Es; [|injection E6 as <- <-|by injection E6 as <- <-].
  - apply command_passes in E6; [|done]. exists [mkProcess "dep-scan" depScanArgs (sr_Output r6) true], (sr_Output r7).
    split_and!; [done | | eauto]. rewrite E7, E6, E5, Ef, E3, E2, E1. by rewrite <- !app_assoc.
  - exists [], (sr_Output r7). split_and!; [done | | eauto]. rewrite E7, E5, Ef, E3, E2, E1. by rewrite <- !app_assoc.
Qed.

(** The production gate can be constructed, and its verdict is OK only if go build,
    go vet, go test, gofmt (with no file listed), golangci-lint and code-scanner all
    exited with success in this order, and so did dep-scan unless the worktree had
    no go.sum. *)
Theorem production_gate_passes_only_clean_worktrees {W} quote (tl : Tools W) now repo w :
  newProductionGate quote (log_tools tl) = Ok (production_gate quote (log_tools tl)) /\
  (v_OK (Verify now (production_gate quote (log_tools tl)) repo (w, [])).1 = true ->
   exists o1 o2 o3 o4 o5 scan o7, blank o4 = true /\
    (Verify now (production_gate quote (log_tools tl)) repo (w, [])).2.2 =
      builds [o1; o2; o3; o4; o5] ++ scan ++ [mkProcess "code-scanner" [] o7 true] /\
    ((exists w', tl_Stat tl (PathJoin repo "go.sum") w' = StatNotExist /\ scan = []) \/
     exists o6, scan = [mkProcess "dep-scan" depScanArgs o6 true])).
Proof.
  split; [apply newProductionGate_ok|]. intros Hv.
  destruct (Verify now _ repo (w, [])) as [v s'] eqn:E. by apply production_gate_run in E.
Qed.

(** A worktree without dependencies whose tools all succeed. *)
Definition demo_tools (unformatted : string) : Tools nat :=
  mkTools (fun _ _ => None) (fun _ tool _ n => ((if String.eqb tool "gofmt" then unformatted else "", None), S n))
    (fun _ _ => StatNotExist).

Lemma production_gate_passes_only_clean_worktrees_witness :
  length (Verify (fun _ => 0%Z) (production_gate id (log_tools (demo_tools ""))) "repo" (0%nat, [])).2.2 = 6%nat /\
  v_OK (Verify (fun _ => 0%Z) (production_gate id (log_tools (demo_tools "main.go"))) "repo" (0%nat, [])).1 = false /\
  exists o4, blank o4 = true.
Proof.
  split; [reflexivity|]. split; [reflexivity|].
  destruct (production_gate_passes_only_clean_worktrees id (demo_tools "") (fun _ => 0%Z) "repo" 0%nat) as [_ H].
  destruct (H eq_refl) as (o1 & o2 & o3 & o4 & o5 & scan & o7 & Hb & _). by exists o4.
Defined.
