(* ===== verification/Loop.v ===== *)
(** * The agent loop ([internal/loop])

    [loop.go]: one pick, attempt, verify cycle; [retry_policy.go]: bounded
    retries with escalation to a human; [blocked_action.go]: bounded
    re-evaluation of an action the policy denied; [format_failure.go]: the
    feedback text of a failed attempt. Executors, gates, sources and writers
    are effectful seams over a world [W]; a cancelled context is part of it. *)

From stdpp Require Import base gmap strings list.
From Stdlib Require Import ZArith Lia Ascii.
From S2P Require Import Prelude GoStrings Seams Gate TaskSource.

Local Open Scope Z_scope.

(** ** Data *)

(** [State]: observable states of one cycle. *)
Inductive LoopState := StatePick | StateAttempt | StateVerify | StateAdvance.

(** [OutcomeKind]; the zero value of the Go string is [OutcomeNone]. *)
Inductive OutcomeKind := OutcomeNone | OutcomeIdle | OutcomeDone | OutcomeFail.

(** [FailureReason], with the zero value. *)
Inductive FailureReason :=
| FailureNone
| FailureExecutorError
| FailureExecutorIncomplete
| FailureGate
| FailureBlockedAction.

(** [BlockedAction]: what the policy denied and why. *)
Record BlockedAction := mkBlockedAction {
  ba_Resource : string;
  ba_Action : string;
  ba_Reason : string
}.

Record Failure := mkFailure {
  fl_Reason : FailureReason;
  fl_Err : option string;
  fl_Blocked : option BlockedAction
}.

Definition zero_failure : Failure := mkFailure FailureNone None None.

Record Outcome := mkOutcome {
  out_Kind : OutcomeKind;
  out_Task : Task;
  out_Branch : string;
  out_Verdict : Verdict;
  out_Failure : Failure;
  out_Trace : list LoopState
}.

Definition zero_outcome : Outcome :=
  mkOutcome OutcomeNone zero_task "" zero_verdict zero_failure [].

(** Errors of the package; a wrapped error keeps its text. *)
Inductive LoopErr :=
| LErrNilTaskSource
| LErrNilExecutor
| LErrNilGate
| LErrBlankWorktreePath
| LErrPick (e : string)
| LErrNegativeMaxAttempts
| LErrNilStatusWriter
| LErrNilEscalationHook
| LErrUnexpectedOutcome (k : OutcomeKind)
| LErrEscalation (attempt : Z) (e : string)
| LErrEscalationNilExecutor (attempt : Z)
| LErrMarkNeedsHuman (id : string) (e : string)
| LErrEmptyBlockedAction
| LErrNegativeMaxReevaluations
| LErrNilReplanFunc
| LErrReplan (reeval : Z) (e : string).

(** [BlockedAction.IsZero]. *)
Definition IsZero (b : BlockedAction) : bool :=
  String.eqb (ba_Resource b) "" && String.eqb (ba_Action b) "" && String.eqb (ba_Reason b) "".

(** [ClassifyBlockedAction]. *)
Definition ClassifyBlockedAction (resource action reason : string) : result LoopErr Failure :=
  let blocked := mkBlockedAction resource action reason in
  if IsZero blocked then Err LErrEmptyBlockedAction
  else Ok (mkFailure FailureBlockedAction None (Some blocked)).

(** ** Feedback of a failed attempt *)

Definition MaxFailureOutputBytes : nat := 2000.

(** The loop of [truncateAtRune], on the reversed slice: drop bytes [b] with
    [b & 0xC0 == 0x80]. *)
Definition is_continuation (c : ascii) : bool := Z.land (byte_of c) 0xC0 =? 0x80.

Definition truncateAtRune (s : string) (cap : nat) : string :=
  if (String.length s <=? cap)%nat then s
  else String.rev (TrimLeft is_continuation (String.rev (str_take cap s))).

Section Format.
(** [strconv.Quote], the [%q] verb. *)
Variable quote : string -> string.

(** [BlockedAction.String]. *)
Definition BlockedAction_String (b : BlockedAction) : string :=
  "action " +:+ quote (ba_Action b) +:+ " on resource " +:+ quote (ba_Resource b)
  +:+ " denied: " +:+ ba_Reason b.

Definition lf : string := String nl "".

Definition formatBlockedAction (o : Outcome) : string :=
  match fl_Blocked (out_Failure o) with
  | None =>
    "Your previous attempt was blocked: a necessary action was denied by policy." +:+ lf +:+
    "Replan within what is permitted, or this will escalate to a human."
  | Some b =>
    "Your previous attempt was blocked: a necessary action was denied by policy." +:+ lf +:+ lf +:+
    BlockedAction_String b +:+ lf +:+ lf +:+
    "Replan within what is permitted; the denied action is not yours to grant — only a replan or an independent human grant can change authorization."
  end.

(** First failing step of the verdict, its output truncated. *)
Definition formatGateFailure (o : Outcome) : string :=
  match List.find (fun r => negb (sr_OK r)) (v_Results (out_Verdict o)) with
  | None =>
    "Your previous attempt failed the verification gate." +:+ lf +:+
    "Fix these issues before producing the branch."
  | Some r =>
    let output := sr_Output r in
    let output := if (MaxFailureOutputBytes <? String.length output)%nat
                  then truncateAtRune output MaxFailureOutputBytes else output in
    "Your previous attempt failed the verification gate." +:+ lf +:+ lf +:+
    "Failed step: " +:+ sr_Name r +:+ lf +:+ "Output:" +:+ lf +:+ output +:+ lf +:+ lf +:+
    "Fix these issues before producing the branch."
  end.

Definition formatExecutorError (o : Outcome) : string :=
  let errMsg := match fl_Err (out_Failure o) with
                | Some e => e | None => "unknown executor error" end in
  "Your previous attempt failed: the executor encountered an error." +:+ lf +:+
  "Error: " +:+ errMsg +:+ lf +:+ "Fix any issues and retry.".

Definition formatExecutorIncomplete (o : Outcome) : string :=
  "Your previous attempt did not complete: the executor did not produce a branch." +:+ lf +:+
  "Ensure your implementation writes the produced branch name to the designated output file.".

Definition FormatFailure (o : Outcome) : string :=
  match fl_Reason (out_Failure o) with
  | FailureGate => formatGateFailure o
  | FailureExecutorError => formatExecutorError o
  | FailureExecutorIncomplete => formatExecutorIncomplete o
  | FailureBlockedAction => formatBlockedAction o
  | FailureNone => "Unknown failure reason"
  end.

(** ** One cycle *)

Section World.
Context {W : Type}.

(** The seams of the loop. *)
Definition Executor := Task -> W -> result string ExecResult * W.
Definition GateFn := string -> W -> Verdict * W.
Definition TaskSourceFn := W -> result string (option Task) * W.
Definition StatusWriterFn :=
  string -> WritableStatus -> W -> result string StatusWriteResult * W.

Record Loop := mkLoop {
  lp_source : TaskSourceFn;
  lp_executor : Executor;
  lp_gate : GateFn;
  lp_worktreePath : string
}.

(** [loop.New]; nil interfaces are [None]. *)
Definition NewLoop (source : option TaskSourceFn) (executor : option Executor)
  (verifier : option GateFn) (worktreePath : string) : result LoopErr Loop :=
  match source, executor, verifier with
  | None, _, _ => Err LErrNilTaskSource
  | _, None, _ => Err LErrNilExecutor
  | _, _, None => Err LErrNilGate
  | Some s, Some e, Some g =>
    if blank worktreePath then Err LErrBlankWorktreePath
    else Ok (mkLoop s e g worktreePath)
  end.

(** [Loop.RunOnce]: the outcome, the error if any, and the world. *)
Definition RunOnce (l : Loop) (w : W) : Outcome * option LoopErr * W :=
  let trace := [StatePick] in
  let '(picked, w) := lp_source l w in
  match picked with
  | Err e => (mkOutcome OutcomeNone zero_task "" zero_verdict zero_failure trace,
              Some (LErrPick e), w)
  | Ok None => (mkOutcome OutcomeIdle zero_task "" zero_verdict zero_failure trace, None, w)
  | Ok (Some task) =>
    let trace := trace ++ [StateAttempt] in
    let '(result, w) := lp_executor l task w in
    match result with
    | Err e => (mkOutcome OutcomeFail task "" zero_verdict
                  (mkFailure FailureExecutorError (Some e) None) trace, None, w)
    | Ok r =>
      if negb (res_OK r) then
        (mkOutcome OutcomeFail task (res_Branch r) zero_verdict
           (mkFailure FailureExecutorIncomplete None None) trace, None, w)
      else
        let trace := trace ++ [StateVerify] in
        let '(verdict, w) := lp_gate l (lp_worktreePath l) w in
        if negb (v_OK verdict) then
          (mkOutcome OutcomeFail task (res_Branch r) verdict
             (mkFailure FailureGate None None) trace, None, w)
        else
          (mkOutcome OutcomeDone task (res_Branch r) verdict zero_failure
             (trace ++ [StateAdvance]), None, w)
    end
  end.

(** ** Bounded retries *)

(** [EscalationRequest] and [EscalationHook]. *)
Record EscalationRequest := mkEscalationRequest {
  er_Task : Task;
  er_Attempt : Z;
  er_Outcome : Outcome;
  er_CurrentExecutor : Executor
}.

Definition EscalationHook := EscalationRequest -> W -> result string (option Executor) * W.

(** [BootstrapEscalationHook]: stay on the same executor. *)
Definition BootstrapEscalationHook : EscalationHook :=
  fun r w => (Ok (Some (er_CurrentExecutor r)), w).

Record RetryPolicy := mkRetryPolicy {
  rp_MaxAttempts : Z;
  rp_Escalate : option EscalationHook
}.

Definition validateRetryPolicy (p : RetryPolicy) : option LoopErr :=
  if rp_MaxAttempts p <? 0 then Some LErrNegativeMaxAttempts
  else match rp_Escalate p with None => Some LErrNilEscalationHook | Some _ => None end.

Definition NewRetryPolicy (maxAttempts : Z) (hook : option EscalationHook)
  : result LoopErr RetryPolicy :=
  let policy := mkRetryPolicy maxAttempts hook in
  match validateRetryPolicy policy with Some e => Err e | None => Ok policy end.

Inductive RetryOutcomeKind := RetryOutcomeIdle | RetryOutcomeDone | RetryOutcomeEscalated.

Record RetryOutcome := mkRetryOutcome {
  ro_Kind : RetryOutcomeKind;
  ro_Task : Task;
  ro_Branch : string;
  ro_Attempts : Z;
  ro_LastOutcome : Outcome;
  ro_StatusWrite : option StatusWriteResult;
  ro_Advanced : bool;
  ro_Terminal : bool
}.

Record RetryingLoop := mkRetryingLoop {
  rl_source : TaskSourceFn;
  rl_executor : Executor;
  rl_gate : GateFn;
  rl_worktreePath : string;
  rl_statusWriter : StatusWriterFn;
  rl_MaxAttempts : Z;
  rl_Escalate : EscalationHook
}.

(** [NewRetryingLoop]. *)
Definition NewRetryingLoop (source : option TaskSourceFn) (executor : option Executor)
  (verifier : option GateFn) (worktreePath : string) (sw : option StatusWriterFn)
  (policy : RetryPolicy) : result LoopErr RetryingLoop :=
  match validateRetryPolicy policy with
  | Some e => Err e
  | None =>
    match sw with
    | None => Err LErrNilStatusWriter
    | Some sw =>
      let? l := NewLoop source executor verifier worktreePath in
      match rp_Escalate policy with
      | None => Err LErrNilEscalationHook
      | Some hook =>
        Ok (mkRetryingLoop (lp_source l) (lp_executor l) (lp_gate l) worktreePath sw
              (rp_MaxAttempts policy) hook)
      end
    end
  end.

(** [markNeedsHuman]. *)
Definition markNeedsHuman (l : RetryingLoop) (task : Task) (attempts : Z) (last : Outcome)
  (w : W) : result LoopErr RetryOutcome * W :=
  let '(r, w) := rl_statusWriter l (task_ID task) WritableStatusNeedsHuman w in
  match r with
  | Err e => (Err (LErrMarkNeedsHuman (task_ID task) e), w)
  | Ok sw => (Ok (mkRetryOutcome RetryOutcomeEscalated task "" attempts last (Some sw) true true), w)
  end.

(** [singleTaskSource]: yields its task every time. *)
Definition singleTaskSource (task : Task) : TaskSourceFn := fun w => (Ok (Some task), w).

Definition set_prior (t : Task) (f : string) : Task :=
  mkTask (task_ID t) (task_Repo t) (task_Spec t) f.

(** The attempts loop of [RetryingLoop.RunOnce]: [remaining] counts the
    iterations [attempt .. MaxAttempts] left. *)
Fixpoint attempts_loop (l : RetryingLoop) (remaining : nat) (attempt : Z)
  (task : Task) (executor : Executor) (last : Outcome) (w : W)
  : result LoopErr RetryOutcome * W :=
  match remaining with
  | O => markNeedsHuman l task (rl_MaxAttempts l) last w
  | S n =>
    match NewLoop (Some (singleTaskSource task)) (Some executor) (Some (rl_gate l))
            (rl_worktreePath l) with
    | Err e => (Err e, w)
    | Ok cycle =>
      let '(outcome, err, w) := RunOnce cycle w in
      match err with
      | Some e => (Err e, w)
      | None =>
        match out_Kind outcome with
        | OutcomeDone =>
          (Ok (mkRetryOutcome RetryOutcomeDone task (out_Branch outcome) attempt outcome
                 None true true), w)
        | OutcomeFail =>
          if attempt =? rl_MaxAttempts l then
            markNeedsHuman l task (rl_MaxAttempts l) outcome w
          else
            let task := set_prior task (FormatFailure outcome) in
            let '(next, w) := rl_Escalate l (mkEscalationRequest task attempt outcome executor) w in
            match next with
            | Err e => (Err (LErrEscalation attempt e), w)
            | Ok None => (Err (LErrEscalationNilExecutor attempt), w)
            | Ok (Some next) => attempts_loop l n (attempt + 1) task next outcome w
            end
        | k => (Err (LErrUnexpectedOutcome k), w)
        end
      end
    end
  end.

(** [RetryingLoop.RunOnce]. *)
Definition Retry_RunOnce (l : RetryingLoop) (w : W) : result LoopErr RetryOutcome * W :=
  let '(picked, w) := rl_source l w in
  match picked with
  | Err e => (Err (LErrPick e), w)
  | Ok None =>
    (Ok (mkRetryOutcome RetryOutcomeIdle zero_task "" 0 zero_outcome None false true), w)
  | Ok (Some task) =>
    if rl_MaxAttempts l =? 0 then markNeedsHuman l task 0 zero_outcome w
    else attempts_loop l (Z.to_nat (rl_MaxAttempts l)) 1 task (rl_executor l) zero_outcome w
  end.

(** ** Bounded re-evaluation of a blocked action *)

Record Reevaluation := mkReevaluation {
  re_AllowedResources : list string;
  re_StillBlocked : bool
}.

Definition ReplanFunc := BlockedAction -> W -> result string Reevaluation * W.

Record ReevaluationPolicy := mkReevaluationPolicy {
  rv_MaxReevaluations : Z;
  rv_Replan : option ReplanFunc
}.

Definition NewReevaluationPolicy (n : Z) (replan : option ReplanFunc)
  : result LoopErr ReevaluationPolicy :=
  if n <? 0 then Err LErrNegativeMaxReevaluations
  else match replan with
       | None => Err LErrNilReplanFunc
       | Some _ => Ok (mkReevaluationPolicy n replan)
       end.

Inductive ReevaluationOutcomeKind := ReevaluationResolved | ReevaluationEscalated.

Record Escalation := mkEscalation {
  esc_Status : WritableStatus;
  esc_Blocked : BlockedAction;
  esc_Reevaluations : Z
}.

(** [Escalation.Reason]. *)
Definition Escalation_Reason (e : Escalation) : string :=
  "blocked action requires an independent human grant after " +:+
  FormatInt (esc_Reevaluations e) +:+ " reevaluation(s): " +:+
  BlockedAction_String (esc_Blocked e).

Record ReevaluationOutcome := mkReevaluationOutcome {
  rvo_Kind : ReevaluationOutcomeKind;
  rvo_Reevaluations : Z;
  rvo_AllowedResources : list string;
  rvo_Escalation : option Escalation;
  rvo_StatusWrite : option StatusWriteResult
}.

(** The replan loop: [inl] an early return, [inr] the last allow set. *)
Fixpoint replan_loop (replan : ReplanFunc) (remaining : nat) (reeval : Z)
  (blocked : BlockedAction) (lastAllowed : list string) (w : W)
  : (result LoopErr ReevaluationOutcome + list string) * W :=
  match remaining with
  | O => (inr lastAllowed, w)
  | S n =>
    let '(r, w) := replan blocked w in
    match r with
    | Err e => (inl (Err (LErrReplan reeval e)), w)
    | Ok re =>
      if negb (re_StillBlocked re) then
        (inl (Ok (mkReevaluationOutcome ReevaluationResolved reeval
                    (re_AllowedResources re) None None)), w)
      else replan_loop replan n (reeval + 1) blocked (re_AllowedResources re) w
    end
  end.

(** [ReevaluationPolicy.ReevaluateBlocked]. *)
Definition ReevaluateBlocked (p : ReevaluationPolicy) (taskID : string)
  (blocked : BlockedAction) (sw : option StatusWriterFn) (w : W)
  : result LoopErr ReevaluationOutcome * W :=
  match sw with
  | None => (Err LErrNilStatusWriter, w)
  | Some sw =>
    if IsZero blocked then (Err LErrEmptyBlockedAction, w)
    else match rv_Replan p with
    | None => (Err LErrNilReplanFunc, w)
    | Some replan =>
      let '(r, w) := replan_loop replan (Z.to_nat (rv_MaxReevaluations p)) 1 blocked [] w in
      match r with
      | inl res => (res, w)
      | inr lastAllowed =>
        let escalation := mkEscalation WritableStatusNeedsHuman blocked (rv_MaxReevaluations p) in
        let '(wr, w) := sw taskID WritableStatusNeedsHuman w in
        match wr with
        | Err e => (Err (LErrMarkNeedsHuman taskID e), w)
        | Ok res =>
          (Ok (mkReevaluationOutcome ReevaluationEscalated (rv_MaxReevaluations p) lastAllowed
                 (Some escalation) (Some res)), w)
        end
      end
    end
  end.
End World.
End Format.

(** ** What one cycle reports *)

(** The outcome of one cycle on a known task, in terms of the executor and the
    gate: [Done] needs both, and a failure names the seam that failed. *)
Definition cycle_spec {W} (ex : @Executor W) (g : GateFn) (path : string) (task : Task) (w : W)
  (o : Outcome) (w' : W) : Prop :=
  out_Task o = task /\
  match ex task w with
  | (Err e, w1) =>
    out_Kind o = OutcomeFail /\ fl_Reason (out_Failure o) = FailureExecutorError /\
    fl_Err (out_Failure o) = Some e /\ w' = w1
  | (Ok r, w1) =>
    out_Branch o = res_Branch r /\
    if res_OK r then
      let '(v, w2) := g path w1 in
      w' = w2 /\ out_Verdict o = v /\
      if v_OK v then out_Kind o = OutcomeDone
      else out_Kind o = OutcomeFail /\ fl_Reason (out_Failure o) = FailureGate
    else out_Kind o = OutcomeFail /\ fl_Reason (out_Failure o) = FailureExecutorIncomplete /\
         w' = w1
  end.

Section LoopFacts.
Context (quote : string -> string) {W : Type}.
Implicit Types (l : @RetryingLoop W) (w : W) (ex : @Executor W).

(** The cycle built by each retry never errs and never idles. *)
Lemma single_cycle ex (g : GateFn) path task w :
  let '(o, err, w') := RunOnce (mkLoop (singleTaskSource task) ex g path) w in
  err = None /\ cycle_spec ex g path task w o w' /\
  (out_Kind o = OutcomeDone \/ out_Kind o = OutcomeFail).
Proof.
  unfold RunOnce, cycle_spec. simpl.
  destruct (ex task w) as [[r|e] w1]; [|by split_and!; auto].
  destruct (res_OK r) eqn:Er; simpl.
  - destruct (g path w1) as [v w2]. destruct (v_OK v) eqn:Ev; simpl; rewrite ?Ev;
      split_and!; auto.
  - split_and!; auto.
Qed.

(** A sequence of attempts: every one but the last failed, and each retry is
    the same task with the feedback of the attempt before it. *)
Fixpoint linked (tries : list (Task * Outcome)) : Prop :=
  match tries with
  | [] => True
  | (t, o) :: rest =>
    match rest with
    | [] => True
    | (t', _) :: _ => out_Kind o = OutcomeFail /\ t' = set_prior t (FormatFailure quote o)
    end /\ linked rest
  end.

Definition same_work (t t' : Task) : Prop :=
  task_ID t = task_ID t' /\ task_Repo t = task_Repo t' /\ task_Spec t = task_Spec t'.

(** The ghost log [seen]: the tasks executors were run on. *)
Variable seen : W -> list Task.
Definition logs ex : Prop := forall t w, seen (ex t w).2 = seen w ++ [t].
Definition keeps {A} (f : W -> A * W) : Prop := forall w, seen (f w).2 = seen w.

Variable l : @RetryingLoop W.
Definition honest_seams : Prop :=
  logs (rl_executor l) /\ keeps (rl_source l) /\ (forall p, keeps (rl_gate l p)) /\
  (forall id s, keeps (rl_statusWriter l id s)) /\ (forall r, keeps (rl_Escalate l r)) /\
  (forall r w ex w', logs (er_CurrentExecutor r) ->
     rl_Escalate l r w = (Ok (Some ex), w') -> logs ex).

(** The verdict of a run over the attempts [tries]. *)
Definition retry_result (tries : list (Task * Outcome)) (w' : W) (ro : RetryOutcome) : Prop :=
  ro_Attempts ro = Z.of_nat (length tries) /\
  match ro_Kind ro with
  | RetryOutcomeIdle => False
  | RetryOutcomeDone =>
    exists t o, last tries = Some (t, o) /\ ro_LastOutcome ro = o /\ ro_Task ro = t /\
      out_Kind o = OutcomeDone /\ v_OK (out_Verdict o) = true /\
      ro_Branch ro = out_Branch o /\ ro_StatusWrite ro = None
  | RetryOutcomeEscalated =>
    ro_Attempts ro = rl_MaxAttempts l /\
    Forall (fun to => out_Kind to.2 = OutcomeFail) tries /\
    exists sw w1, ro_StatusWrite ro = Some sw /\
      rl_statusWriter l (task_ID (ro_Task ro)) WritableStatusNeedsHuman w1 = (Ok sw, w')
  end.

Lemma seen_step (H : honest_seams) ex path task w o w' :
  logs ex -> cycle_spec ex (rl_gate l) path task w o w' -> seen w' = seen w ++ [task].
Proof.
  intros He [_ Hc]. destruct H as (_ & _ & Hg & _). specialize (He task w).
  destruct (ex task w) as [[r|e] w1]; simpl in He.
  - destruct Hc as [_ Hc]. destruct (res_OK r).
    + specialize (Hg path w1). destruct (rl_gate l path w1) as [v w2].
      destruct Hc as [-> _]. simpl in Hg. congruence.
    + destruct Hc as (_ & _ & ->). done.
  - destruct Hc as (_ & _ & _ & ->). done.
Qed.

Lemma cycle_done ex path task w o w' :
  cycle_spec ex (rl_gate l) path task w o w' -> out_Kind o = OutcomeDone ->
  v_OK (out_Verdict o) = true.
Proof.
  intros [_ Hc] K. destruct (ex task w) as [[r|e] w1].
  - destruct Hc as [_ Hc]. destruct (res_OK r); [|by destruct Hc; congruence].
    destruct (rl_gate l path w1) as [v w2]. destruct Hc as (_ & -> & Hv).
    destruct (v_OK v); [done|]. destruct Hv; congruence.
  - destruct Hc; congruence.
Qed.

Lemma markNeedsHuman_ok task n o w ro w' :
  markNeedsHuman l task n o w = (Ok ro, w') ->
  ro_Kind ro = RetryOutcomeEscalated /\ ro_Attempts ro = n /\ ro_Task ro = task /\
  exists sw, ro_StatusWrite ro = Some sw /\
    rl_statusWriter l (task_ID task) WritableStatusNeedsHuman w = (Ok sw, w').
Proof.
  unfold markNeedsHuman.
  destruct (rl_statusWriter l (task_ID task) WritableStatusNeedsHuman w) as [[sw|e] w1] eqn:E;
    intros; simplify_eq. simpl. split_and!; eauto.
Qed.

(** [pre] are the attempts made before iteration [attempt]. *)
Lemma attempts_loop_log (H : honest_seams) n attempt task ex last0 w w0 pre ro w' :
  attempt = Z.of_nat (length pre) + 1 -> (0 < n)%nat ->
  attempt + Z.of_nat n = rl_MaxAttempts l + 1 ->
  logs ex -> seen w = seen w0 ++ map fst pre ->
  Forall (fun to => out_Kind to.2 = OutcomeFail) pre ->
  (forall o, linked (pre ++ [(task, o)])) ->
  Forall (fun to => same_work task to.1) pre ->
  attempts_loop quote l n attempt task ex last0 w = (Ok ro, w') ->
  exists tries, seen w' = seen w0 ++ map fst tries /\ linked tries /\
    (length tries <= Z.to_nat (rl_MaxAttempts l))%nat /\
    pre `prefix_of` tries /\
    (exists o, pre ++ [(task, o)] `prefix_of` tries) /\
    Forall (fun to => same_work task to.1) tries /\ retry_result tries w' ro.
Proof.
  revert attempt task ex last0 w pre.
  induction n as [|n IH]; intros attempt task ex last0 w pre Ha Hn Hm He Hs Hf Hl Hw; [lia|].
  simpl. unfold NewLoop. destruct (blank (rl_worktreePath l)); [done|].
  pose proof (single_cycle ex (rl_gate l) (rl_worktreePath l) task w) as Hc.
  destruct (RunOnce _ w) as [[o err] w1]. destruct Hc as (-> & Hc & HK).
  pose proof (seen_step H _ _ _ _ _ _ He Hc) as Hs1.
  assert (Hs' : seen w1 = seen w0 ++ map fst (pre ++ [(task, o)])).
  { rewrite Hs1, Hs, map_app, <- app_assoc. done. }
  assert (Hw' : Forall (fun to => same_work task to.1) (pre ++ [(task, o)])).
  { apply Forall_app. split; [done|]. repeat constructor. }
  assert (Hlen : Z.of_nat (length (pre ++ [(task, o)])) = attempt).
  { rewrite length_app. simpl. lia. }
  destruct HK as [K|K]; rewrite K.
  - intros E. injection E as <- <-. exists (pre ++ [(task, o)]).
    split_and!; try done; [lia | by eexists | by eexists |].
    unfold retry_result. simpl. split; [lia|]. exists task, o.
    rewrite last_snoc. split_and!; try done. by eapply cycle_done.
  - destruct (attempt =? rl_MaxAttempts l) eqn:Em; to_prop.
    + intros E. destruct H as (_ & _ & _ & Hk & _).
      pose proof (Hk (task_ID task) WritableStatusNeedsHuman w1) as Hk1.
      apply markNeedsHuman_ok in E as (Hk' & Hatt & Ht & sw & Hsw & Hwr).
      rewrite Hwr in Hk1. simpl in Hk1.
      exists (pre ++ [(task, o)]). split_and!; try done; [congruence | lia | by eexists | by eexists |].
      unfold retry_result. rewrite Hk', Ht. split_and!; try lia.
      * apply Forall_app. split; [done|]. by repeat constructor.
      * eauto.
    + set (task' := set_prior task (FormatFailure quote o)).
      destruct (rl_Escalate l _ w1) as [[[nx|]|e] w2] eqn:Er; try done.
      intros E. pose proof H as (_ & _ & _ & _ & Hr & Hx).
      specialize (Hr (mkEscalationRequest task' attempt o ex) w1) as Hr1.
      rewrite Er in Hr1. simpl in Hr1.
      assert (Hnx : logs nx) by (refine (Hx _ w1 nx w2 _ Er); exact He).
      apply (IH (attempt + 1) task' nx o w2 (pre ++ [(task, o)])) in E;
        [| lia | lia | lia | done | congruence | | | ].
      * destruct E as (tries & P1 & P2 & P3 & P4 & P5 & P6 & P7). exists tries.
        split_and!; try done; [| by exists o].
        etrans; [|exact P4]. by eexists.
      * apply Forall_app. split; [done|]. by repeat constructor.
      * intros o'. clear -Hl K. specialize (Hl o). rewrite <- app_assoc. simpl.
        induction pre as [|[t1 o1] pre IHp]; simpl in *; [done|].
        destruct Hl as [H1 H2]. split; [|by apply IHp]. by destruct pre as [|[t2 o2] pre].
      * exact Hw'.
Qed.
End LoopFacts.

(** One RunOnce of the retrying loop runs the executor at most MaxAttempts times, on
    the picked task and with nothing changed but the failure text: the first attempt
    sees the task as picked and each later one the formatted failure of the attempt
    before; the outcome reported is that of the attempts made. *)
Theorem retry_attempts_are_bounded_and_linked (quote : string -> string) {W} (seen : W -> list Task)
  (l : RetryingLoop) (w w' : W) (ro : RetryOutcome) :
  honest_seams seen l -> 0 <= rl_MaxAttempts l ->
  Retry_RunOnce quote l w = (Ok ro, w') ->
  exists tries : list (Task * Outcome),
    seen w' = seen w ++ map fst tries /\
    linked quote tries /\ Z.of_nat (length tries) <= rl_MaxAttempts l /\
    match (rl_source l w).1 with
    | Ok (Some task) =>
      Forall (fun to => same_work task to.1) tries /\
      (forall to, head tries = Some to -> to.1 = task) /\
      retry_result l tries w' ro
    | _ => tries = [] /\ ro_Kind ro = RetryOutcomeIdle
    end.
Proof.
  intros H Hmax E. unfold Retry_RunOnce in E. pose proof H as (He & Hsrc & _ & Hk & _).
  specialize (Hsrc w). destruct (rl_source l w) as [[[task|]|e] w1]; simpl in *; try done.
  - destruct (rl_MaxAttempts l =? 0) eqn:Em; to_prop.
    + apply markNeedsHuman_ok in E as (Hk' & Hatt & Ht & sw & Hsw & Hwr).
      specialize (Hk (task_ID task) WritableStatusNeedsHuman w1). rewrite Hwr in Hk. simpl in Hk.
      exists []. rewrite app_nil_r. split_and!; try done; [congruence|].
      unfold retry_result. rewrite Hk', Ht. split_and!; try done; [lia|]. eauto.
    + eapply (attempts_loop_log quote seen l H _ 1 task _ _ w1 w1 []) in E;
        [| done | lia | lia | done | by rewrite app_nil_r | done | done | done].
      destruct E as (tries & P1 & P2 & P3 & P4 & [o [k P5]] & P6 & P7).
      exists tries. rewrite <- Hsrc. split_and!; try done; [lia|].
      intros to. rewrite P5. simpl. by intros [= <-].
  - injection E as <- <-. exists []. rewrite app_nil_r. done.
Qed.

(** A world that is the log itself, with an executor that produces a branch
    only on its second run. *)
Definition demo_loop : @RetryingLoop (list Task) :=
  mkRetryingLoop (fun w => (Ok (Some (mkTask "7" "r" "s" "")), w))
    (fun t w => (Ok (mkExecResult "b" (1 <=? length w)%nat), w ++ [t]))
    (fun _ w => (mkVerdict true [], w)) "/wt"
    (fun id s w => (Err "", w)) 3 BootstrapEscalationHook.

Lemma retry_attempts_are_bounded_and_linked_witness :
  exists tries : list (Task * Outcome),
    (Retry_RunOnce (fun s => s) demo_loop []).2 = [] ++ map fst tries /\
    linked (fun s => s) tries /\ Z.of_nat (length tries) <= 3 /\
    match (rl_source demo_loop []).1 with
    | Ok (Some task) =>
      Forall (fun to => same_work task to.1) tries /\
      (forall to, head tries = Some to -> to.1 = task) /\
      exists ro, retry_result demo_loop tries (Retry_RunOnce (fun s => s) demo_loop []).2 ro /\
        ro_Kind ro = RetryOutcomeDone /\ ro_Attempts ro = 2
    | _ => tries = []
    end.
Proof.
  edestruct (retry_attempts_are_bounded_and_linked (fun s => s) (fun w => w) demo_loop []
    (Retry_RunOnce (fun s => s) demo_loop []).2) as (tries & H1 & H2 & H3 & H4).
  - split_and!; try done. intros r w ex w' Hl E. simpl in E. by injection E as <- _.
  - done.
  - vm_compute. reflexivity.
  - exists tries. split_and!; try done. simpl in H4. destruct H4 as (P1 & P2 & P3).
    simpl. split_and!; try done. eexists. split_and!; [exact P3 | done | done].
Defined.

Section Settles.
Context (quote : string -> string) {W : Type} (l : @RetryingLoop W).

(** Seams that answer: a worktree, a source that reads, a hook that names an
    executor and a status file that can be written. *)
Definition seams_answer : Prop :=
  blank (rl_worktreePath l) = false /\ 0 <= rl_MaxAttempts l /\
  (forall w, is_ok (rl_source l w).1 = true) /\
  (forall r w, exists ex, (rl_Escalate l r w).1 = Ok (Some ex)) /\
  (forall id s w, is_ok (rl_statusWriter l id s w).1 = true).

Definition settles (r : result LoopErr (@RetryOutcome) * W) : Prop :=
  exists ro w', r = (Ok ro, w') /\ ro_Terminal ro = true /\ ro_Advanced ro = true.

Lemma markNeedsHuman_settles t n o w : seams_answer -> settles (markNeedsHuman l t n o w).
Proof.
  intros (_ & _ & _ & _ & Hw). unfold markNeedsHuman.
  specialize (Hw (task_ID t) WritableStatusNeedsHuman w).
  destruct (rl_statusWriter l (task_ID t) WritableStatusNeedsHuman w) as [[sw|e] w1]; [|done].
  eexists _, _. split; [reflexivity|]. done.
Qed.

Lemma attempts_loop_settles n a t ex o w :
  seams_answer -> settles (attempts_loop quote l n a t ex o w).
Proof.
  intros H. revert a t ex o w.
  induction n as [|n IH]; intros a t ex o w; simpl; [by apply markNeedsHuman_settles|].
  pose proof H as (Hp & _ & _ & Hr & _). unfold NewLoop. rewrite Hp.
  pose proof (single_cycle ex (rl_gate l) (rl_worktreePath l) t w) as Hc.
  destruct (RunOnce _ w) as [[o' err] w1]. destruct Hc as (-> & _ & [K|K]); rewrite K.
  - eexists _, _. split; [reflexivity|]. done.
  - destruct (a =? rl_MaxAttempts l); [by apply markNeedsHuman_settles|].
    set (req := mkEscalationRequest _ _ _ _). destruct (Hr req w1) as [ex' E].
    destruct (rl_Escalate l req w1) as [x w2]. simpl in E. subst x. apply IH.
Qed.
End Settles.

(** When the seams answer, RunOnce of the retrying loop returns a terminal outcome,
    and it reports no advance exactly when the source had no task. *)
Theorem retry_always_settles (quote : string -> string) {W} (l : @RetryingLoop W) (w : W) :
  seams_answer l ->
  exists ro w', Retry_RunOnce quote l w = (Ok ro, w') /\ ro_Terminal ro = true /\
    (ro_Advanced ro = false <-> exists w1, rl_source l w = (Ok None, w1)).
Proof.
  intros H. pose proof H as (_ & _ & Hs & _). specialize (Hs w). unfold Retry_RunOnce.
  destruct (rl_source l w) as [[[t|]|e] w1]; [| |done].
  - assert (S : settles (if rl_MaxAttempts l =? 0 then markNeedsHuman l t 0 zero_outcome w1
      else attempts_loop quote l (Z.to_nat (rl_MaxAttempts l)) 1 t (rl_executor l) zero_outcome w1)).
    { destruct (rl_MaxAttempts l =? 0);
        [by apply markNeedsHuman_settles | by apply attempts_loop_settles]. }
    destruct S as (ro & w' & E & T & A). exists ro, w'. rewrite A. split_and!; try done.
    split; [done|]. by intros [? ?].
  - eexists _, _. split; [reflexivity|]. simpl. split; [done|]. split; [by eauto|done].
Qed.

(** A task that never passes its gate, escalated to a human. *)
Definition stuck_loop : @RetryingLoop (list Task) :=
  mkRetryingLoop (fun w => (Ok (Some (mkTask "7" "r" "s" "")), w))
    (fun t w => (Ok (mkExecResult "b" true), w ++ [t]))
    (fun _ w => (mkVerdict false [], w)) "/wt"
    (fun id s w => (Ok (mkStatusWriteResult id true), w)) 2 BootstrapEscalationHook.

Lemma retry_always_settles_witness :
  exists ro w', Retry_RunOnce (fun s => s) stuck_loop [] = (Ok ro, w') /\ ro_Terminal ro = true /\
    (ro_Advanced ro = false <-> exists w1, rl_source stuck_loop [] = (Ok None, w1)).
Proof.
  apply (retry_always_settles (fun s => s) stuck_loop []).
  split_and!; try done. intros r w. by eexists.
Defined.

(** ** Re-evaluation of blocked actions *)

(** [asks replan b n w rs w']: [n] consecutive replans from [w] answered [rs]. *)
Inductive asks {W} (replan : @ReplanFunc W) (b : BlockedAction) : W -> list Reevaluation -> W -> Prop :=
| asks_nil w : asks replan b w [] w
| asks_cons w r w1 rs w2 :
    replan b w = (Ok r, w1) -> asks replan b w1 rs w2 -> asks replan b w (r :: rs) w2.

Lemma replan_loop_spec {W} (replan : @ReplanFunc W) b n i allowed w r w' :
  replan_loop replan n i b allowed w = (r, w') ->
  match r with
  | inr allowed' => exists rs, asks replan b w rs w' /\ length rs = n /\
      Forall (fun r => re_StillBlocked r = true) rs /\
      allowed' = from_option re_AllowedResources allowed (last rs)
  | inl (Ok ro) => exists rs r0, asks replan b w (rs ++ [r0]) w' /\
      (length rs < n)%nat /\ Forall (fun r => re_StillBlocked r = true) rs /\
      re_StillBlocked r0 = false /\ rvo_Kind ro = ReevaluationResolved /\
      rvo_Reevaluations ro = i + Z.of_nat (length rs) /\
      rvo_AllowedResources ro = re_AllowedResources r0 /\
      rvo_Escalation ro = None /\ rvo_StatusWrite ro = None
  | inl (Err _) => True
  end.
Proof.
  revert i allowed w. induction n as [|n IH]; intros i allowed w; simpl.
  - intros [= <- <-]. exists []. split_and!; try done; constructor.
  - destruct (replan b w) as [[re|e] w1] eqn:E; [|by intros [= <- <-]].
    destruct (re_StillBlocked re) eqn:Eb; simpl.
    + intros H. apply IH in H. destruct r as [[ro|e]|allowed']; [| done |].
      * destruct H as (rs & r0 & A & L & F & B & K & N & R). exists (re :: rs), r0.
        split_and!; try apply R; try done; [by econstructor | simpl; lia | by constructor | simpl length; lia].
      * destruct H as (rs & A & L & F & ->). exists (re :: rs).
        split_and!; [by econstructor | simpl; lia | by constructor |].
        rewrite last_cons. by destruct (last rs).
    + intros [= <- <-]. exists [], re. simpl. split_and!; try done; [|lia|lia].
      econstructor; [done|constructor].
Qed.

(** The outcome of re-evaluating a blocked action carries exactly the allow set the
    last replan returned (nothing is added to it), after at most MaxReevaluations
    replans; it is resolved at the first replan that no longer needs the denied
    resource, and otherwise escalates once, with a needs-human status write naming
    the blocked action. *)
Theorem reevaluation_never_self_grants {W} (p : ReevaluationPolicy) taskID blocked sw (w w' : W) ro :
  0 <= rv_MaxReevaluations p ->
  ReevaluateBlocked p taskID blocked sw w = (Ok ro, w') ->
  exists replan writer rs w1,
    rv_Replan p = Some replan /\ sw = Some writer /\ asks replan blocked w rs w1 /\
    IsZero blocked = false /\
    rvo_Reevaluations ro = Z.of_nat (length rs) /\ rvo_Reevaluations ro <= rv_MaxReevaluations p /\
    rvo_AllowedResources ro = from_option re_AllowedResources [] (last rs) /\
    match rvo_Kind ro with
    | ReevaluationResolved =>
      w1 = w' /\ rvo_StatusWrite ro = None /\
      exists pre r, rs = pre ++ [r] /\ re_StillBlocked r = false /\
        Forall (fun r => re_StillBlocked r = true) pre
    | ReevaluationEscalated =>
      rvo_Reevaluations ro = rv_MaxReevaluations p /\
      Forall (fun r => re_StillBlocked r = true) rs /\
      exists res, writer taskID WritableStatusNeedsHuman w1 = (Ok res, w') /\
        rvo_StatusWrite ro = Some res /\
        rvo_Escalation ro = Some (mkEscalation WritableStatusNeedsHuman blocked (rv_MaxReevaluations p))
    end.
Proof.
  intros Hm. unfold ReevaluateBlocked. destruct sw as [writer|]; [|done].
  destruct (IsZero blocked) eqn:Ez; [done|]. destruct (rv_Replan p) as [replan|]; [|done].
  destruct (replan_loop replan _ 1 blocked [] w) as [r w1] eqn:E. apply replan_loop_spec in E.
  destruct r as [[ro'|e]|allowed]; [| by intros | ].
  - intros [= -> ->]. destruct E as (rs & r0 & A & L & F & B & K & N & R & G & S).
    exists replan, writer, (rs ++ [r0]), w'. rewrite K, length_app, last_snoc. simpl.
    split_and!; try done; [lia | lia |]. by exists rs, r0.
  - destruct E as (rs & A & L & F & ->).
    destruct (writer taskID WritableStatusNeedsHuman w1) as [[res|e] w2] eqn:Ew; [|done].
    intros [= <- <-]. exists replan, writer, rs, w1. simpl.
    split_and!; try done; [lia |]. by exists res.
Qed.

Definition demo_policy : @ReevaluationPolicy nat :=
  mkReevaluationPolicy 2 (Some (fun b w => (Ok (mkReevaluation ["a"] (w <? 1)%nat), S w))).
Definition demo_writer : @StatusWriterFn nat := fun id s w => (Ok (mkStatusWriteResult id true), w).

Lemma reevaluation_never_self_grants_witness :
  let blocked := mkBlockedAction "r" "a" "no" in
  exists replan writer rs w1,
    rv_Replan demo_policy = Some replan /\ Some demo_writer = Some writer /\
    asks replan blocked 0%nat rs w1 /\ length rs = 2%nat.
Proof.
  intros blocked.
  edestruct (reevaluation_never_self_grants demo_policy "t" blocked (Some demo_writer) 0%nat)
    as (replan & writer & rs & w1 & H1 & H2 & H3 & _ & H5 & _).
  - done.
  - vm_compute. reflexivity.
  - exists replan, writer, rs, w1. split_and!; try done. simpl in H5. lia.
Defined.

(** ** Truncation of feedback *)

(** The shape of UTF-8: a lead byte announces how many continuation bytes
    follow. Every valid UTF-8 string has this shape. *)
Definition follows (c : ascii) : option nat :=
  let b := byte_of c in
  if b <? 0x80 then Some 0%nat
  else if b <? 0xC2 then None
  else if b <? 0xE0 then Some 1%nat
  else if b <? 0xF0 then Some 2%nat
  else if b <? 0xF5 then Some 3%nat
  else None.

(** Continuation bytes still expected after reading [s]. *)
Fixpoint utf8_run (pending : nat) (s : string) : option nat :=
  match s with
  | "" => Some pending
  | String c s' =>
    match pending with
    | O => match follows c with Some k => utf8_run k s' | None => None end
    | S p => if is_continuation c then utf8_run p s' else None
    end
  end.

Definition utf8_shaped (s : string) : bool :=
  match utf8_run 0 s with Some O => true | _ => false end.

Lemma utf8_run_app k s t :
  utf8_run k (s +:+ t) = match utf8_run k s with Some k' => utf8_run k' t | None => None end.
Proof.
  revert k. induction s as [|c s IH]; intros k; simpl; [done|].
  destruct k; [destruct (follows c) | destruct (is_continuation c)]; auto.
Qed.

Lemma TrimLeft_split p s :
  exists u, s = u +:+ TrimLeft p s /\ str_forall p u = true /\
    match TrimLeft p s with "" => True | String c _ => p c = false end.
Proof.
  induction s as [|c s (u & E & F & N)]; simpl; [by exists ""|].
  destruct (p c) eqn:Ep.
  - exists (String c u). simpl. rewrite Ep, F. split_and!; try done.
    rewrite str_app_cons. by f_equal.
  - exists "". simpl. done.
Qed.

Lemma is_continuation_range c : is_continuation c = (0x80 <=? byte_of c) && (byte_of c <? 0xC0).
Proof. destruct c as [[] [] [] [] [] [] [] []]; vm_compute; reflexivity. Qed.

Lemma str_take_drop n s : str_take n s +:+ str_drop n s = s.
Proof. revert s. induction n as [|n IH]; intros [|c s]; simpl; try done. rewrite str_app_cons, IH. done. Qed.

Lemma str_take_length n s : (n <= String.length s)%nat -> String.length (str_take n s) = n.
Proof. revert s. induction n as [|n IH]; intros [|c s] H; simpl in *; try lia. by rewrite IH by lia. Qed.

(** The truncated text, the bytes dropped after it and its last byte. *)
Lemma truncateAtRune_split s cap :
  (cap < String.length s)%nat ->
  exists u, s = truncateAtRune s cap +:+ u +:+ str_drop cap s /\
    str_take cap s = truncateAtRune s cap +:+ u /\
    str_forall is_continuation u = true /\
    (truncateAtRune s cap = "" \/
     exists t c, truncateAtRune s cap = t +:+ String c "" /\ is_continuation c = false).
Proof.
  intros H. unfold truncateAtRune. destruct (Nat.leb_spec (String.length s) cap) as [|_]; [lia|].
  destruct (TrimLeft_split is_continuation (String.rev (str_take cap s))) as (u & E & F & N).
  exists (String.rev u). assert (E' := f_equal String.rev E).
  rewrite rev_involutive, rev_str_app in E'. split_and!; try done.
  - rewrite <- str_app_assoc, <- E'. by rewrite str_take_drop.
  - by rewrite str_forall_rev.
  - destruct (TrimLeft is_continuation _) as [|c r]; [by left|]. right.
    exists (String.rev r), c. by rewrite rev_cons.
Qed.

Lemma follows_cases c :
  follows c = if byte_of c <? 0x80 then Some 0%nat
              else if is_continuation c then None
              else match follows c with Some (S k) => Some (S k) | _ => None end.
Proof. destruct c as [[] [] [] [] [] [] [] []]; vm_compute; reflexivity. Qed.

Lemma continuation_high c : is_continuation c = true -> (byte_of c <? 0x80) = false.
Proof. rewrite is_continuation_range. intros H. to_prop. apply Z.ltb_ge. lia. Qed.

(** Text cut just before a continuation byte lost the rest of a rune. *)
Lemma cut_before_continuation k d u :
  is_continuation d = true -> utf8_run k (String d u) <> None -> k <> 0%nat.
Proof.
  intros Hd H ->. apply H. simpl. rewrite follows_cases, (continuation_high _ Hd), Hd. done.
Qed.

Lemma str_snoc u : u = "" \/ exists v d, u = v +:+ String d "".
Proof.
  destruct (String.rev u) as [|d v] eqn:Eu; [left | right].
  - rewrite <- (rev_involutive u), Eu. done.
  - exists (String.rev v), d. by rewrite <- (rev_involutive u), Eu, rev_cons.
Qed.

Lemma str_get_last cap s q d :
  (cap <= String.length s)%nat -> str_take cap s = q +:+ String d "" ->
  String.get (cap - 1) s = Some d.
Proof.
  intros H Hq. assert (Hl := f_equal String.length Hq).
  rewrite str_take_length in Hl by lia. rewrite str_length_app in Hl. simpl in Hl.
  rewrite <- (str_take_drop cap s), Hq.
  replace (cap - 1)%nat with (String.length q) by lia.
  clear. induction q; simpl; done.
Qed.

(** Truncating well-formed UTF-8 text keeps a prefix of at most cap bytes, and the
    result is well-formed exactly when the byte before the cut is ASCII: a cut
    inside or at the end of a longer character leaves an incomplete one. *)
Theorem truncate_at_rune_keeps_shape_iff_ascii_boundary s cap c :
  utf8_shaped s = true -> (0 < cap < String.length s)%nat -> String.get (cap - 1) s = Some c ->
  utf8_shaped (truncateAtRune s cap) = (byte_of c <? 0x80) /\
  HasPrefix s (truncateAtRune s cap) = true /\
  (String.length (truncateAtRune s cap) <= cap)%nat.
Proof.
  intros Hs Hcap Hget.
  destruct (truncateAtRune_split s cap) as (u & E & T & F & N); [lia|].
  assert (L : (String.length (truncateAtRune s cap) + String.length u = cap)%nat).
  { rewrite <- str_length_app, <- T. apply str_take_length. lia. }
  split_and!; [| unfold HasPrefix; rewrite E at 2; apply prefix_of_app | lia].
  remember (truncateAtRune s cap) as r eqn:Er. clear Er.
  unfold utf8_shaped in *. rewrite E, utf8_run_app in Hs.
  destruct (utf8_run 0 r) as [k|] eqn:Ek; [|done].
  destruct (str_snoc u) as [->|(v & d & ->)].
  - rewrite str_app_nil_r in T. destruct N as [->|(t & d & -> & Nc)]; [simpl in L; lia|].
    rewrite (str_get_last cap s t d) in Hget by (done || lia). injection Hget as <-.
    rewrite utf8_run_app in Ek.
    destruct (utf8_run 0 t) as [[|k']|]; simpl in Ek; [| by rewrite Nc in Ek | done].
    rewrite follows_cases, Nc in Ek. by destruct (byte_of d <? 0x80), (follows d) as [[]|]; simplify_eq.
  - rewrite (str_get_last cap s (r +:+ v) d) in Hget by (rewrite ?str_app_assoc; done || lia).
    injection Hget as <-. rewrite str_forall_app in F. simpl in F. rewrite andb_true_r in F.
    apply andb_true_iff in F as [Fv Fd]. rewrite (continuation_high _ Fd).
    destruct (utf8_run k ((v +:+ String d "") +:+ str_drop cap s)) as [m|] eqn:Hr; [|done].
    assert (Hk : k <> 0%nat).
    { destruct v as [|e v]; simpl in Fv; to_prop;
        [eapply (cut_before_continuation k d) | eapply (cut_before_continuation k e)];
        try done; intros Hn; discriminate (eq_trans (eq_sym Hn) Hr). }
    by destruct k.
Qed.

(** A two-byte rune cut after its first byte. *)
Lemma truncate_at_rune_keeps_shape_iff_ascii_boundary_witness :
  let s := String "a"%char (String (ascii_of_N 0xC3) (String (ascii_of_N 0xA9) "")) in
  utf8_shaped s = true /\ utf8_shaped (truncateAtRune s 2) = false.
Proof.
  intros s. split; [reflexivity|].
  destruct (truncate_at_rune_keeps_shape_iff_ascii_boundary s 2 (ascii_of_N 0xC3)) as (H & _).
  - reflexivity.
  - simpl. lia.
  - reflexivity.
  - rewrite H. reflexivity.
Defined.
