(* ===== verification/Registry.v ===== *)
(** * The executor registry ([internal/registry])

    [types.go]: entries; [catalog.go]: the catalog, a map with a stable order;
    [loader.go]: the entries enabled by the environment. [CatalogLike] is the
    view of a catalog that its clients (the router) rely on; the catalog of the
    source is an instance of it. *)

From stdpp Require Import base gmap strings list.
From Stdlib Require Import ZArith Lia Ascii.
From S2P Require Import Prelude GoStrings.

Local Open Scope Z_scope.

(** ** Data *)

(** [HarnessDriver]; [HarnessOther] is any other string. *)
Inductive HarnessDriver :=
| HarnessClaudeCLI
| HarnessCodexCLI
| HarnessGeminiCLI
| HarnessAntigravityCLI
| HarnessOllamaNative
| HarnessOther (s : string).

(** [HarnessDriver.String]. *)
Definition HarnessDriver_String (h : HarnessDriver) : string :=
  match h with
  | HarnessClaudeCLI => "claude-cli"
  | HarnessCodexCLI => "codex-cli"
  | HarnessGeminiCLI => "gemini-cli"
  | HarnessAntigravityCLI => "antigravity-cli"
  | HarnessOllamaNative => "ollama-native"
  | HarnessOther s => s
  end.

(** [QuotaBudget]; the window is a [time.Duration] in nanoseconds. *)
Record QuotaBudget := mkQuotaBudget { qb_Limit : Z; qb_Window : Z }.

(** [AvailStatus]; [AvailOther] is any other string, the zero value included. *)
Inductive AvailStatus := AvailStatusAvailable | AvailStatusExhausted | AvailOther (s : string).

Definition AvailStatus_string (a : AvailStatus) : string :=
  match a with
  | AvailStatusAvailable => "available"
  | AvailStatusExhausted => "exhausted"
  | AvailOther s => s
  end.

(** The conversion [registry.AvailStatus(s)]. *)
Definition AvailStatus_of (s : string) : AvailStatus :=
  if String.eqb s "available" then AvailStatusAvailable
  else if String.eqb s "exhausted" then AvailStatusExhausted
  else AvailOther s.

(** [Availability]; instants are nanoseconds since the zero [time.Time]. *)
Record Availability := mkAvailability { av_Status : AvailStatus; av_ResetAt : Z }.

Record RegistryEntry := mkEntry {
  re_ID : string;
  re_Harness : HarnessDriver;
  re_CapabilityTier : Z;
  re_CostWeight : Z;
  re_ModelID : string;
  re_Endpoint : string;
  re_SecretRef : string;
  re_Budget : QuotaBudget;
  re_Usage : Z;
  re_Availability : Availability
}.

Definition zero_entry : RegistryEntry :=
  mkEntry "" (HarnessOther "") 0 0 "" "" "" (mkQuotaBudget 0 0) 0 (mkAvailability (AvailOther "") 0).

(** [RegistryEntry.IsUnlimited]. *)
Definition IsUnlimited (e : RegistryEntry) : bool := qb_Limit (re_Budget e) =? 0.

Definition set_availability (e : RegistryEntry) (usage : Z) (a : Availability) : RegistryEntry :=
  mkEntry (re_ID e) (re_Harness e) (re_CapabilityTier e) (re_CostWeight e) (re_ModelID e)
    (re_Endpoint e) (re_SecretRef e) (re_Budget e) usage a.

#[export] Instance AvailStatus_eq_dec : EqDecision AvailStatus.
Proof. solve_decision. Defined.
#[export] Instance HarnessDriver_eq_dec : EqDecision HarnessDriver.
Proof. solve_decision. Defined.
#[export] Instance RegistryEntry_eq_dec : EqDecision RegistryEntry.
Proof.
  assert (EqDecision Availability) by solve_decision.
  assert (EqDecision QuotaBudget) by solve_decision. solve_decision.
Defined.

(** ** The catalog *)

(** [Catalog]: entries by ID and the order of registration. *)
Record Catalog := mkCatalog {
  cat_entries : gmap string RegistryEntry;
  cat_order : list string
}.

Definition NewCatalog : Catalog := mkCatalog ∅ [].

(** [RegisterEntry]; [None] is the panic on a duplicate ID. *)
Definition RegisterEntry (c : Catalog) (e : RegistryEntry) : option Catalog :=
  match cat_entries c !! re_ID e with
  | Some _ => None
  | None => Some (mkCatalog (<[re_ID e := e]> (cat_entries c)) (cat_order c ++ [re_ID e]))
  end.

Definition LookupEntry (c : Catalog) (id : string) : option RegistryEntry :=
  if String.eqb id "" then None else cat_entries c !! id.

Definition UpdateEntry (c : Catalog) (e : RegistryEntry) : Catalog :=
  match cat_entries c !! re_ID e with
  | None => c
  | Some _ => mkCatalog (<[re_ID e := e]> (cat_entries c)) (cat_order c)
  end.

Definition ListEntries (c : Catalog) : list RegistryEntry :=
  map (fun id => default zero_entry (cat_entries c !! id)) (cat_order c).

(** ** Loading from the environment *)

(** Errors of [LoadFromEnv]: the missing or malformed field and the entry. *)
Inductive LoadErr :=
| LoadMissing (field entry : string)
| LoadInvalid (field entry value : string).

(** [localHarnessEntries]. *)
Definition localHarnessEntries : list string :=
  ["local-qwen"; "local"; "local-ollama"; "gemini"; "antigravity"; "agy-gemini-flash";
   "agy-gemini-pro"].

(** [knownEntries]. *)
Definition knownEntries : list (string * HarnessDriver) :=
  [("claude-oauth", HarnessClaudeCLI); ("claude-haiku", HarnessClaudeCLI);
   ("claude-sonnet", HarnessClaudeCLI); ("claude-opus", HarnessClaudeCLI);
   ("local-qwen", HarnessClaudeCLI); ("local", HarnessClaudeCLI);
   ("local-ollama", HarnessOllamaNative); ("codex", HarnessCodexCLI);
   ("gemini", HarnessGeminiCLI); ("antigravity", HarnessAntigravityCLI);
   ("agy-gemini-flash", HarnessAntigravityCLI); ("agy-gemini-pro", HarnessAntigravityCLI)].

(** [envSafeID]; entry IDs are ASCII. *)
Definition envSafeID (id : string) : string :=
  str_map ascii_upper (ReplaceByte "-"%char "_"%char id).

Definition env_key (id field : string) : string :=
  "AGENT_BUILDER_REGISTRY_" +:+ envSafeID id +:+ "_" +:+ field.

Section Load.
(** [strings.ToLower] on non-ASCII text, [time.ParseDuration] and
    [os.Getenv]. *)
Variable (uni : string -> string) (ParseDuration : string -> option Z) (Getenv : string -> string).

(** A required integer field. *)
Definition load_int (id field : string) : result LoadErr Z :=
  let v := Getenv (env_key id field) in
  if String.eqb v "" then Err (LoadMissing field id)
  else match ParseInt v with Some n => Ok n | None => Err (LoadInvalid field id v) end.

(** An optional field with its parser; absent is zero. *)
Definition load_opt (parse : string -> option Z) (id field : string) : result LoadErr Z :=
  let v := Getenv (env_key id field) in
  if String.eqb v "" then Ok 0
  else match parse v with Some n => Ok n | None => Err (LoadInvalid field id v) end.

(** A required text field. *)
Definition load_text (id field : string) : result LoadErr string :=
  let v := Getenv (env_key id field) in
  if String.eqb v "" then Err (LoadMissing field id) else Ok v.

Definition entry_enabled (id : string) : bool :=
  let v := Getenv (env_key id "ENABLED") in
  negb (String.eqb v "" || String.eqb (ToLower uni v) "false").

(** The body of the loop for an enabled entry. *)
Definition load_entry (id : string) (harness : HarnessDriver) : result LoadErr RegistryEntry :=
  let? endpoint := load_text id "ENDPOINT" in
  let secretRef := Getenv (env_key id "SECRET_REF") in
  if String.eqb secretRef "" && negb (bool_decide (id ∈ localHarnessEntries))
  then Err (LoadMissing "SECRET_REF" id)
  else
    let? model := load_text id "MODEL" in
    let? tier := load_int id "CAPABILITY_TIER" in
    let? cost := load_int id "COST_WEIGHT" in
    let? limit := load_opt ParseInt id "BUDGET_LIMIT" in
    let? window := load_opt ParseDuration id "BUDGET_WINDOW" in
    Ok (mkEntry id harness tier cost model endpoint secretRef (mkQuotaBudget limit window) 0
          (mkAvailability AvailStatusAvailable 0)).

(** [LoadFromEnv], over the iteration [order] of the [knownEntries] map. *)
Fixpoint LoadFromEnv (order : list (string * HarnessDriver)) : result LoadErr (list RegistryEntry) :=
  match order with
  | [] => Ok []
  | (id, harness) :: rest =>
    if entry_enabled id then
      let? e := load_entry id harness in
      let? es := LoadFromEnv rest in
      Ok (e :: es)
    else LoadFromEnv rest
  end.
End Load.

(** ** What clients rely on *)

(** Replace the entry of the same ID in a list. *)
Definition replace_entry (e : RegistryEntry) (l : list RegistryEntry) : list RegistryEntry :=
  map (fun x => if String.eqb (re_ID x) (re_ID e) then e else x) l.

Definition find_entry (id : string) (l : list RegistryEntry) : option RegistryEntry :=
  List.find (fun x => String.eqb (re_ID x) id) l.

Class CatalogLike (C : Type) := {
  cl_wf : C -> Prop;
  cl_list : C -> list RegistryEntry;
  cl_lookup : C -> string -> option RegistryEntry;
  cl_update : C -> RegistryEntry -> C;
  cl_list_nodup : forall c, cl_wf c -> NoDup (map re_ID (cl_list c));
  cl_lookup_spec : forall c id, cl_wf c ->
    cl_lookup c id = if String.eqb id "" then None else find_entry id (cl_list c);
  cl_update_wf : forall c e, cl_wf c -> cl_wf (cl_update c e);
  cl_update_list : forall c e, cl_wf c -> cl_list (cl_update c e) = replace_entry e (cl_list c)
}.

(** ** The catalog implements its interface *)

(** Well-formed catalogs: the order lists every key once, and entries sit
    under their own ID. *)
Definition catalog_wf (c : Catalog) : Prop :=
  NoDup (cat_order c) /\
  (forall id, id ∈ cat_order c <-> is_Some (cat_entries c !! id)) /\
  (forall id e, cat_entries c !! id = Some e -> re_ID e = id).

Lemma NewCatalog_wf : catalog_wf NewCatalog.
Proof.
  split_and!; simpl; [constructor | | by intros ? ?].
  intros id. rewrite lookup_empty. split; [by intros ?%not_elem_of_nil | by intros [? ?]].
Qed.

Lemma RegisterEntry_wf c e c' : catalog_wf c -> RegisterEntry c e = Some c' -> catalog_wf c'.
Proof.
  intros (N & K & I). unfold RegisterEntry. destruct (cat_entries c !! re_ID e) eqn:E; [done|].
  intros [= <-]. split_and!; simpl.
  - apply NoDup_app. split_and!; [done | | apply NoDup_singleton].
    intros x Hx Hs. apply list_elem_of_singleton in Hs as ->. apply K in Hx as [? ?]. congruence.
  - intros id. rewrite elem_of_app, K, list_elem_of_singleton.
    destruct (decide (id = re_ID e)) as [->|Hn].
    + rewrite lookup_insert_eq. split; eauto.
    + rewrite lookup_insert_ne by done. naive_solver.
  - intros id e'. rewrite lookup_insert_Some. naive_solver.
Qed.

Lemma UpdateEntry_wf c e : catalog_wf c -> catalog_wf (UpdateEntry c e).
Proof.
  intros (N & K & I). unfold UpdateEntry. destruct (cat_entries c !! re_ID e) eqn:E; [|done].
  split_and!; simpl; [done | |].
  - intros id. rewrite K. destruct (decide (id = re_ID e)) as [->|Hn].
    + rewrite lookup_insert_eq, E. split; eauto.
    + by rewrite lookup_insert_ne.
  - intros id e'. rewrite lookup_insert_Some. naive_solver.
Qed.

Lemma ListEntries_ids c : catalog_wf c -> map re_ID (ListEntries c) = cat_order c.
Proof.
  intros (_ & K & I). unfold ListEntries. rewrite map_map.
  assert (H : forall id, id ∈ cat_order c -> re_ID (default zero_entry (cat_entries c !! id)) = id).
  { intros id [e He]%K. rewrite He. by apply I. }
  clear K I. induction (cat_order c) as [|id l IH]; simpl; [done|].
  f_equal; [apply H; left | apply IH; intros; apply H; by right].
Qed.

Lemma find_entry_list (m : gmap string RegistryEntry) order id :
  (forall i, i ∈ order -> exists e, m !! i = Some e /\ re_ID e = i) ->
  find_entry id (map (fun i => default zero_entry (m !! i)) order) =
  if bool_decide (id ∈ order) then m !! id else None.
Proof.
  intros H. induction order as [|i order IH].
  - rewrite bool_decide_eq_false_2; [done | apply not_elem_of_nil].
  - destruct (H i) as (e & He & Hi); [left|]. unfold find_entry in *. simpl. rewrite He. simpl.
    rewrite Hi. destruct (String.eqb_spec i id) as [->|Hn].
    + rewrite bool_decide_eq_true_2 by left. done.
    + rewrite IH by (intros; apply H; by right).
      repeat case_bool_decide; set_solver.
Qed.

Lemma replace_entry_ids e l : map re_ID (replace_entry e l) = map re_ID l.
Proof.
  unfold replace_entry. rewrite map_map. apply map_ext. intros x.
  destruct (String.eqb_spec (re_ID x) (re_ID e)); congruence.
Qed.

#[export] Program Instance Catalog_CatalogLike : CatalogLike Catalog := {|
  cl_wf := catalog_wf;
  cl_list := ListEntries;
  cl_lookup := LookupEntry;
  cl_update := UpdateEntry
|}.
Next Obligation. intros c H. rewrite ListEntries_ids by done. apply H. Qed.
Next Obligation.
  intros c id (N & K & I). unfold LookupEntry, ListEntries.
  destruct (String.eqb id ""); [done|]. rewrite find_entry_list.
  - case_bool_decide as E; [done|]. rewrite K in E. by apply eq_None_not_Some.
  - intros i [e He]%K. eauto.
Qed.
Next Obligation. intros c e H. by apply UpdateEntry_wf. Qed.
Next Obligation.
  intros c e (N & K & I). unfold UpdateEntry, ListEntries, replace_entry. rewrite map_map.
  assert (Hid : forall id, id ∈ cat_order c -> re_ID (default zero_entry (cat_entries c !! id)) = id).
  { intros id [e' He]%K. rewrite He. by apply I. }
  assert (Hg : forall (m : gmap string RegistryEntry) order, order ⊆ cat_order c ->
      (forall id, id ∈ cat_order c -> m !! id = if String.eqb id (re_ID e) then Some e
                                                else cat_entries c !! id) ->
      map (fun id => default zero_entry (m !! id)) order =
      map (fun id => if String.eqb (re_ID (default zero_entry (cat_entries c !! id))) (re_ID e)
                     then e else default zero_entry (cat_entries c !! id)) order).
  { intros m order Ho Hm. induction order as [|id order IH]; [done|].
    simpl. rewrite Hm, Hid by (apply Ho; left). f_equal; [by case_match|].
    apply IH. intros x Hx. apply Ho. by right. }
  destruct (cat_entries c !! re_ID e) eqn:E; simpl; apply Hg; try done; intros id Hin.
  - destruct (String.eqb_spec id (re_ID e)) as [->|Hn];
      [apply lookup_insert_eq | by rewrite lookup_insert_ne].
  - destruct (String.eqb_spec id (re_ID e)) as [->|Hn]; [|done].
    apply K in Hin as [? ?]. congruence.
Qed.

(** ** Lists of entries with distinct IDs *)

Lemma find_entry_some id l e : find_entry id l = Some e -> e ∈ l /\ re_ID e = id.
Proof.
  intros [H1 H2]%List.find_some. apply String.eqb_eq in H2. by apply list_elem_of_In in H1.
Qed.

Lemma find_entry_in l e : NoDup (map re_ID l) -> e ∈ l -> find_entry (re_ID e) l = Some e.
Proof.
  unfold find_entry. induction l as [|x l IH]; simpl; intros N Hin; [by apply not_elem_of_nil in Hin|].
  apply NoDup_cons in N as [Nx N]. apply elem_of_cons in Hin as [->|Hin].
  - by rewrite String.eqb_refl.
  - destruct (String.eqb_spec (re_ID x) (re_ID e)) as [E|]; [|by apply IH].
    exfalso. apply Nx. rewrite E. by apply list_elem_of_fmap_2.
Qed.

Lemma replace_entry_elem e l x :
  x ∈ replace_entry e l <->
  (x ∈ l /\ re_ID x <> re_ID e) \/ (x = e /\ exists y, y ∈ l /\ re_ID y = re_ID e).
Proof.
  unfold replace_entry. rewrite list_elem_of_fmap. split.
  - intros (y & -> & Hy). destruct (String.eqb_spec (re_ID y) (re_ID e)); [right|left]; eauto.
  - intros [[Hx Hn]|[-> (y & Hy & E)]].
    + exists x. rewrite (proj2 (String.eqb_neq _ _) Hn). done.
    + exists y. rewrite E, String.eqb_refl. done.
Qed.

(** ** Loaded entries *)

Lemma load_entry_head pd env id h e :
  load_entry pd env id h = Ok e -> re_ID e = id /\ re_Harness e = h.
Proof. unfold load_entry. intros H. go_cases. done. Qed.

Lemma LoadFromEnv_ok uni pd env order es :
  LoadFromEnv uni pd env order = Ok es ->
  map re_ID es = map fst (filter (fun p => entry_enabled uni env p.1 = true) order) /\
  Forall (fun e => exists h, (re_ID e, h) ∈ order /\ load_entry pd env (re_ID e) h = Ok e) es.
Proof.
  revert es. induction order as [|[id h] order IH]; intros es; simpl.
  - intros [= <-]. done.
  - destruct (entry_enabled uni env id) eqn:En.
    + destruct (load_entry pd env id h) as [e|] eqn:El; [|done].
      destruct (LoadFromEnv uni pd env order) as [es'|]; [|done]. intros [= <-].
      destruct (IH es' eq_refl) as [H1 H2].
      destruct (load_entry_head _ _ _ _ _ El) as [Hid _].
      rewrite filter_cons_True by done. simpl. rewrite H1, Hid. split; [done|].
      constructor; [exists h; rewrite Hid; split; [left | done] |].
      eapply Forall_impl; [exact H2|]. intros x (h' & Hx & Hl). exists h'. split; [by right|done].
    + intros H. destruct (IH es H) as [H1 H2]. rewrite filter_cons_False by (simpl; congruence).
      split; [done|]. eapply Forall_impl; [exact H2|].
      intros x (h' & Hx & Hl). exists h'. split; [by right|done].
Qed.

(** What a loaded entry satisfies. *)
Definition loaded_ok (e : RegistryEntry) : Prop :=
  re_Endpoint e <> "" /\ re_ModelID e <> "" /\ re_Usage e = 0 /\
  re_Availability e = mkAvailability AvailStatusAvailable 0 /\
  in_int64 (re_CapabilityTier e) = true /\ in_int64 (re_CostWeight e) = true /\
  in_int64 (qb_Limit (re_Budget e)) = true /\
  (re_SecretRef e = "" -> re_ID e ∈ localHarnessEntries).

Lemma load_entry_ok pd env id h e : load_entry pd env id h = Ok e -> loaded_ok e.
Proof.
  unfold load_entry, load_text, load_int, load_opt. intros H.
  repeat match type of H with
  | context [if ?b then _ else _] => let E := fresh "E" in destruct b eqn:E; try done
  | context [match ?o with Some _ => _ | None => _ end] =>
      let E := fresh "E" in destruct o eqn:E; try done
  end; injection H as <-; unfold loaded_ok; simpl; to_prop; split_and!; try done;
    try (by eapply ParseInt_range); intros Hs; rewrite Hs in *; simpl in *; to_prop; done.
Qed.

(** Register a list of entries in order; [None] is a panic. *)
Fixpoint register_all (c : Catalog) (es : list RegistryEntry) : option Catalog :=
  match es with
  | [] => Some c
  | e :: es => match RegisterEntry c e with Some c' => register_all c' es | None => None end
  end.

Lemma RegisterEntry_list c e c' :
  catalog_wf c -> RegisterEntry c e = Some c' -> ListEntries c' = ListEntries c ++ [e].
Proof.
  intros (N & K & I). unfold RegisterEntry, ListEntries.
  destruct (cat_entries c !! re_ID e) eqn:E; [done|]. intros [= <-]. simpl.
  rewrite map_app. simpl. rewrite lookup_insert_eq. simpl. f_equal.
  assert (Hn : forall id, id ∈ cat_order c -> id <> re_ID e).
  { intros id [x Hx]%K ->. congruence. }
  induction (cat_order c) as [|id l IH]; [done|]. simpl.
  rewrite lookup_insert_ne by (symmetry; apply Hn; left). f_equal.
  apply NoDup_cons in N as [_ N]. clear K. unfold not in *.
  assert (Hn' : forall i, i ∈ l -> i = re_ID e -> False) by (intros; eapply Hn; [by right | done]).
  clear IH Hn I. induction l as [|i l IH]; [done|]. simpl.
  rewrite lookup_insert_ne by (intros <-; by eapply Hn'; [left|]). f_equal.
  apply NoDup_cons in N as [_ N]. apply IH; [done|]. intros; eapply Hn'; [by right|done].
Qed.

Lemma register_all_ok c es :
  catalog_wf c -> NoDup (cat_order c ++ map re_ID es) ->
  exists c', register_all c es = Some c' /\ catalog_wf c' /\ ListEntries c' = ListEntries c ++ es.
Proof.
  revert c. induction es as [|e es IH]; intros c W N; simpl.
  - exists c. by rewrite app_nil_r.
  - assert (E : cat_entries c !! re_ID e = None).
    { apply eq_None_not_Some. intros H. destruct W as (_ & K & _). apply K in H.
      apply NoDup_app in N as (_ & D & _). apply (D _ H). left. }
    assert (R : RegisterEntry c e = Some (mkCatalog (<[re_ID e := e]> (cat_entries c))
                                            (cat_order c ++ [re_ID e])))
      by (unfold RegisterEntry; by rewrite E).
    rewrite R. destruct (IH _ (RegisterEntry_wf _ _ _ W R)) as (c' & H1 & H2 & H3).
    { simpl. by rewrite <- app_assoc. }
    exists c'. split_and!; [done..|]. rewrite H3, (RegisterEntry_list _ _ _ W R), <- app_assoc. done.
Qed.

(** Loading never panics: the entries loaded from the environment register into a
    well-formed catalog, one per enabled known entry. *)
Theorem load_from_env_registers_without_panic uni pd env order es :
  order ≡ₚ knownEntries -> LoadFromEnv uni pd env order = Ok es ->
  exists c, register_all NewCatalog es = Some c /\ catalog_wf c /\ ListEntries c = es /\
    Forall (fun e => loaded_ok e /\ (re_ID e, re_Harness e) ∈ knownEntries /\
                     entry_enabled uni env (re_ID e) = true) es /\
    (forall id, id ∈ map fst knownEntries -> entry_enabled uni env id = true ->
       exists e, LookupEntry c id = Some e).
Proof.
  intros Hp H. apply LoadFromEnv_ok in H as [Hids Hall].
  assert (Nk : NoDup (map fst knownEntries)) by (apply (bool_decide_unpack _); vm_compute; exact I).
  assert (No : NoDup (map fst order)) by (by rewrite Hp).
  assert (Ne : NoDup (map re_ID es)).
  { rewrite Hids. clear -No. induction order as [|p o IH]; [constructor|].
    apply NoDup_cons in No as [Np No]. rewrite filter_cons. case_decide; [|auto].
    simpl. constructor; [|auto]. intros (q & Eq & Hq)%list_elem_of_fmap. apply Np.
    apply list_elem_of_filter in Hq as [_ Hq]. rewrite Eq. by apply list_elem_of_fmap_2. }
  destruct (register_all_ok NewCatalog es NewCatalog_wf) as (c & H1 & H2 & H3); [done|].
  exists c. split_and!; try done.
  - apply Forall_forall. intros e He. rewrite Forall_forall in Hall.
    destruct (Hall e He) as (h & Hin & Hl). split; [by eapply load_entry_ok|].
    destruct (load_entry_head _ _ _ _ _ Hl) as [_ Hh].
    rewrite Hh, <- Hp. split; [done|].
    assert (Hm : re_ID e ∈ map re_ID es) by (by apply list_elem_of_fmap_2).
    rewrite Hids in Hm. apply list_elem_of_fmap in Hm as (q & -> & Hq).
    by apply list_elem_of_filter in Hq as [? _].
  - intros id Hid Hen. change (LookupEntry c id) with (cl_lookup c id). rewrite cl_lookup_spec by done.
    change (cl_list c) with (ListEntries c). rewrite H3.
    assert (Hm : id ∈ map re_ID es).
    { rewrite Hids. apply list_elem_of_fmap in Hid as (q & -> & Hq).
      apply list_elem_of_fmap_2, list_elem_of_filter. by rewrite Hp. }
    apply list_elem_of_fmap in Hm as (e & -> & He). exists e.
    rewrite find_entry_in by done. destruct (String.eqb_spec (re_ID e) "") as [E0|]; [|done].
    rewrite E0 in Hid. apply (bool_decide_pack _) in Hid. by vm_compute in Hid.
Qed.

(** An environment that enables one local entry. *)
Definition demo_env (k : string) : string :=
  if String.eqb k (env_key "local" "ENABLED") then "true"
  else if String.eqb k (env_key "local" "ENDPOINT") then "http://localhost"
  else if String.eqb k (env_key "local" "MODEL") then "qwen"
  else if String.eqb k (env_key "local" "CAPABILITY_TIER") then "1"
  else if String.eqb k (env_key "local" "COST_WEIGHT") then "0"
  else "".

Lemma load_from_env_registers_without_panic_witness :
  exists es c, LoadFromEnv (fun s => s) (fun _ => None) demo_env knownEntries = Ok es /\
    length es = 1%nat /\ register_all NewCatalog es = Some c /\ catalog_wf c.
Proof.
  eexists. edestruct (load_from_env_registers_without_panic (fun s => s) (fun _ => None) demo_env
    knownEntries) as (c & H1 & H2 & _).
  - reflexivity.
  - vm_compute. reflexivity.
  - exists c. split_and!; [vm_compute; reflexivity | reflexivity | exact H1 | exact H2].
Defined.
