(* ===== verification/Router.v ===== *)
(** * The model router ([internal/router])

    [router.go]: selection of the cheapest eligible entry, the two fallback
    axes (gate failure, quota exhaustion) and the quota state on disk;
    [resolve.go]: the harness of the selected entry. The router is written
    against [CatalogLike], the interface of the registry. *)

From stdpp Require Import base gmap strings list.
From Stdlib Require Import ZArith Lia.
From S2P Require Import Prelude GoStrings Registry.

Local Open Scope Z_scope.

Inductive Sensitivity := SensitivityNone | SensitivitySensitive.

Record RoutingSpec := mkRoutingSpec { rs_MinCapability : Z; rs_SensitivityHint : Sensitivity }.

Inductive RouterErr :=
| ErrNoEligibleExecutor
| ErrUnknownHarness (harness entry : string)
| ErrRead (e : string)
| ErrParse
| ErrNoEntries
| ErrUnknownStatus (id status : string)
| ErrMarshal
| ErrWrite.

(** [isLocal]. *)
Definition isLocal (e : RegistryEntry) : bool := String.eqb (re_SecretRef e) "" && IsUnlimited e.

(** [less]: cheapest first, then local entries under a sensitive hint, then ID. *)
Definition less (hint : Sensitivity) (a b : RegistryEntry) : bool :=
  if negb (re_CostWeight a =? re_CostWeight b) then re_CostWeight a <? re_CostWeight b
  else
    let by_id := String.ltb (re_ID a) (re_ID b) in
    match hint with
    | SensitivitySensitive =>
      if negb (Bool.eqb (isLocal a) (isLocal b)) then isLocal a else by_id
    | SensitivityNone => by_id
    end.

(** [entryState]: what is saved of one entry. *)
Record entryState := mkEntryState {
  es_Usage : Z;
  es_Exhausted : bool;
  es_ResetAt : Z;
  es_AvailStatus : string
}.

Definition DefaultCooldown : Z := 5 * 60 * 1000000000.

(** The executors [buildExecutor] knows. *)
Inductive ExecutorKind := ClaudeCLIExecutor | CodexCLIExecutor | GeminiCLIExecutor.

Section Router.
Context {C : Type} `{CatalogLike C}.

(** [Router]; the clock is read by each operation. *)
Record Router := mkRouter {
  rt_catalog : C;
  rt_escalated : gset string;
  rt_cooldown : Z
}.

(** [NewWithClock] and [New]. *)
Definition NewWithClock (catalog : C) (cooldown : Z) : Router := mkRouter catalog ∅ cooldown.
Definition NewRouter (catalog : C) : Router := NewWithClock catalog DefaultCooldown.

Definition update (r : Router) (e : RegistryEntry) : Router :=
  mkRouter (cl_update (rt_catalog r) e) (rt_escalated r) (rt_cooldown r).

(** [tryAutoRecover], with the reading [now] of the clock. *)
Definition tryAutoRecover (r : Router) (now : Z) (e : RegistryEntry) : RegistryEntry * Router :=
  if negb (bool_decide (av_Status (re_Availability e) = AvailStatusExhausted)) then (e, r)
  else if av_ResetAt (re_Availability e) <? now then
    let e := set_availability e 0 (mkAvailability AvailStatusAvailable 0) in (e, update r e)
  else (e, r).

(** The loop of [Select] over the listed entries; [now i] is what the clock
    says when the [i]-th entry is examined. *)
Fixpoint select_loop (spec : RoutingSpec) (now : nat -> Z) (i : nat) (es : list RegistryEntry)
  (eligible : list RegistryEntry) (r : Router) : list RegistryEntry * Router :=
  match es with
  | [] => (eligible, r)
  | e :: es =>
    let '(e, r) := tryAutoRecover r (now i) e in
    if bool_decide (re_ID e ∈ rt_escalated r) then select_loop spec now (S i) es eligible r
    else if re_CapabilityTier e <? rs_MinCapability spec then
      select_loop spec now (S i) es eligible r
    else if negb (bool_decide (av_Status (re_Availability e) = AvailStatusAvailable)) then
      select_loop spec now (S i) es eligible r
    else select_loop spec now (S i) es (eligible ++ [e]) r
  end.

(** [Select]. *)
Definition Select (spec : RoutingSpec) (now : nat -> Z) (r : Router)
  : result RouterErr RegistryEntry * Router :=
  let '(eligible, r) := select_loop spec now 0 (cl_list (rt_catalog r)) [] r in
  match sort_by (less (rs_SensitivityHint spec)) eligible with
  | [] => (Err ErrNoEligibleExecutor, r)
  | e :: _ => (Ok e, r)
  end.

Definition OnGateFailure (id : string) (r : Router) : Router :=
  mkRouter (rt_catalog r) ({[id]} ∪ rt_escalated r) (rt_cooldown r).

Definition ResetEscalation (r : Router) : Router :=
  mkRouter (rt_catalog r) ∅ (rt_cooldown r).

Definition OnQuotaExhausted (id : string) (resetAt : Z) (r : Router) : Router :=
  match cl_lookup (rt_catalog r) id with
  | None => r
  | Some e =>
    if IsUnlimited e then r
    else update r (set_availability e (re_Usage e) (mkAvailability AvailStatusExhausted resetAt))
  end.

Definition RecordDispatch (id : string) (now : Z) (r : Router) : Router :=
  match cl_lookup (rt_catalog r) id with
  | None => r
  | Some e =>
    if IsUnlimited e then r
    else
      let usage := wrap64 (re_Usage e + 1) in
      let avail := if qb_Limit (re_Budget e) <=? usage
                   then mkAvailability AvailStatusExhausted (now + qb_Window (re_Budget e))
                   else re_Availability e in
      update r (set_availability e usage avail)
  end.

(** [OnRateLimit]. [retry_after] is [strconv.ParseFloat] followed by the test
    [secs >= 0] and the conversion [time.Duration(secs * float64(time.Second))];
    [None] when the header does not parse or is negative. *)
Definition OnRateLimit (retry_after : string -> option Z) (id header : string) (now : Z)
  (r : Router) : Router :=
  match cl_lookup (rt_catalog r) id with
  | None => r
  | Some e =>
    if IsUnlimited e then r
    else
      let resetAt :=
        if String.eqb header "" then now + rt_cooldown r
        else match retry_after (TrimSpace header) with
             | Some d => now + d
             | None => now + rt_cooldown r
             end in
      update r (set_availability e (re_Usage e) (mkAvailability AvailStatusExhausted resetAt))
  end.

(** ** Quota state on disk *)

(** The codec of [encoding/json] for [quotaState]: [unmarshal] gives
    [Some None] for a document without an [entries] object. [range] is the
    iteration order of a Go map. *)
Variable (marshal : gmap string entryState -> option string)
         (unmarshal : string -> option (option (gmap string entryState)))
         (range : gmap string entryState -> list (string * entryState)).

Definition entry_state (e : RegistryEntry) : entryState :=
  mkEntryState (re_Usage e)
    (bool_decide (av_Status (re_Availability e) = AvailStatusExhausted))
    (av_ResetAt (re_Availability e))
    (AvailStatus_string (av_Status (re_Availability e))).

(** The map built by [SaveState]. *)
Definition quota_state (es : list RegistryEntry) : gmap string entryState :=
  foldl (fun m e => <[re_ID e := entry_state e]> m) ∅ es.

(** [SaveState]: the file at [path] is the data; [writable] says whether
    [os.WriteFile] succeeds. *)
Definition SaveState (r : Router) (writable : bool) (path : string) (files : gmap string string)
  : option RouterErr * gmap string string :=
  match marshal (quota_state (cl_list (rt_catalog r))) with
  | None => (Some ErrMarshal, files)
  | Some data => if writable then (None, <[path := data]> files) else (Some ErrWrite, files)
  end.

(** The loop of [LoadState]: entries applied before an error stay applied. *)
Fixpoint load_loop (es : list (string * entryState)) (r : Router) : option RouterErr * Router :=
  match es with
  | [] => (None, r)
  | (id, saved) :: es =>
    match cl_lookup (rt_catalog r) id with
    | None => load_loop es r
    | Some e =>
      match AvailStatus_of (es_AvailStatus saved) with
      | AvailOther s => (Some (ErrUnknownStatus id s), r)
      | avail =>
        load_loop es (update r (set_availability e (es_Usage saved)
                                  (mkAvailability avail (es_ResetAt saved))))
      end
    end
  end.

(** [LoadState]. *)
Definition LoadState (path : string) (files : gmap string string) (r : Router)
  : option RouterErr * Router :=
  match files !! path with
  | None => (Some (ErrRead path), r)
  | Some data =>
    match unmarshal data with
    | None => (Some ErrParse, r)
    | Some None => (Some ErrNoEntries, r)
    | Some (Some state) => load_loop (range state) r
    end
  end.

(** ** Resolution *)

(** [buildExecutor]. *)
Definition buildExecutor (e : RegistryEntry) : result RouterErr ExecutorKind :=
  match re_Harness e with
  | HarnessClaudeCLI => Ok ClaudeCLIExecutor
  | HarnessCodexCLI => Ok CodexCLIExecutor
  | HarnessGeminiCLI => Ok GeminiCLIExecutor
  | h => Err (ErrUnknownHarness (HarnessDriver_String h) (re_ID e))
  end.

(** [ResolveExecutor]. *)
Definition ResolveExecutor (spec : RoutingSpec) (now : nat -> Z) (r : Router)
  : result RouterErr (ExecutorKind * RegistryEntry) * Router :=
  let '(sel, r) := Select spec now r in
  match sel with
  | Err e => (Err e, r)
  | Ok entry =>
    match buildExecutor entry with
    | Err e => (Err e, r)
    | Ok exec => (Ok (exec, entry), r)
    end
  end.

(** ** The order of selection *)

Lemma less_asym hint a b : less hint a b = true -> less hint b a = false.
Proof.
  unfold less. rewrite (Z.eqb_sym (re_CostWeight b)).
  destruct (re_CostWeight a =? re_CostWeight b) eqn:E; simpl.
  - destruct hint; [apply ltb_asym|]. destruct (isLocal a), (isLocal b); simpl; try done;
      apply ltb_asym.
  - intros. to_prop. apply Z.ltb_ge. lia.
Qed.

Lemma nless_trans_router hint a b c :
  less hint b a = false -> less hint c b = false -> less hint c a = false.
Proof.
  unfold less. intros H1 H2.
  destruct (Z.eqb_spec (re_CostWeight b) (re_CostWeight a));
    destruct (Z.eqb_spec (re_CostWeight c) (re_CostWeight b));
    destruct (Z.eqb_spec (re_CostWeight c) (re_CostWeight a)); simpl in *; to_prop;
    try lia; try (apply Z.ltb_ge; lia); try done.
  destruct hint; [by eapply nltb_trans|].
  destruct (isLocal a), (isLocal b), (isLocal c); simpl in *; try done; by eapply nltb_trans.
Qed.

Lemma less_total hint a b : less hint a b = false -> less hint b a = false -> re_ID a = re_ID b.
Proof.
  unfold less. rewrite (Z.eqb_sym (re_CostWeight b)).
  destruct (re_CostWeight a =? re_CostWeight b) eqn:E; simpl; intros H1 H2; to_prop.
  - destruct hint; [by apply ltb_total|].
    destruct (isLocal a), (isLocal b); simpl in *; try done; by apply ltb_total.
  - lia.
Qed.

(** ** Eligibility *)

(** An entry after the automatic recovery of [Select]. *)
Definition recovered (now : Z) (e : RegistryEntry) : RegistryEntry :=
  if bool_decide (av_Status (re_Availability e) = AvailStatusExhausted) &&
     (av_ResetAt (re_Availability e) <? now)
  then set_availability e 0 (mkAvailability AvailStatusAvailable 0) else e.

Definition eligible (spec : RoutingSpec) (esc : gset string) (e : RegistryEntry) : bool :=
  negb (bool_decide (re_ID e ∈ esc)) && (rs_MinCapability spec <=? re_CapabilityTier e) &&
  bool_decide (av_Status (re_Availability e) = AvailStatusAvailable).

Lemma recovered_ID now e : re_ID (recovered now e) = re_ID e.
Proof. unfold recovered. by case_match. Qed.

Definition wf (r : Router) : Prop := cl_wf (rt_catalog r).

Lemma update_wf r e : wf r -> wf (update r e).
Proof. apply cl_update_wf. Qed.

Lemma replace_same e l : NoDup (map re_ID l) -> e ∈ l -> replace_entry e l = l.
Proof.
  intros N Hin. unfold replace_entry. rewrite <- (map_id l) at 2. apply map_ext_in.
  intros x Hx. apply list_elem_of_In in Hx.
  destruct (String.eqb_spec (re_ID x) (re_ID e)) as [E|]; [|done].
  assert (F := find_entry_in l e N Hin). rewrite <- E, (find_entry_in l x N Hx) in F. congruence.
Qed.

Lemma tryAutoRecover_spec r now e :
  wf r -> e ∈ cl_list (rt_catalog r) ->
  let '(e', r') := tryAutoRecover r now e in
  e' = recovered now e /\ wf r' /\ rt_escalated r' = rt_escalated r /\
  rt_cooldown r' = rt_cooldown r /\
  cl_list (rt_catalog r') = replace_entry (recovered now e) (cl_list (rt_catalog r)).
Proof.
  intros W Hin. pose proof (cl_list_nodup _ W) as N.
  unfold tryAutoRecover, recovered. case_bool_decide as E; simpl.
  - destruct (_ <? now); simpl; split_and!; try done.
    + by apply update_wf.
    + by apply cl_update_list.
    + by rewrite replace_same.
  - split_and!; try done. by rewrite replace_same.
Qed.

(** Entries with the readings of the clock at their positions. *)
Fixpoint recover_all (now : nat -> Z) (i : nat) (es : list RegistryEntry) : list RegistryEntry :=
  match es with
  | [] => []
  | e :: es => recovered (now i) e :: recover_all now (S i) es
  end.

Lemma recover_all_ids now i es : map re_ID (recover_all now i es) = map re_ID es.
Proof.
  revert i. induction es as [|e es IH]; intros i; simpl; [done|]. by rewrite recovered_ID, IH.
Qed.

Lemma replace_entry_mid e x pre post :
  re_ID x = re_ID e -> NoDup (map re_ID (pre ++ x :: post)) ->
  replace_entry e (pre ++ x :: post) = pre ++ e :: post.
Proof.
  intros E N. assert (Hout : forall l, (forall y, y ∈ l -> re_ID y <> re_ID x) -> replace_entry e l = l).
  { intros l Hl. unfold replace_entry. rewrite <- (map_id l) at 2. apply map_ext_in.
    intros y Hy%list_elem_of_In. apply Hl in Hy. rewrite <- E.
    by rewrite (proj2 (String.eqb_neq _ _) Hy). }
  rewrite map_app in N. simpl in N. apply NoDup_app in N as (_ & D & N2).
  apply NoDup_cons in N2 as [Nx _].
  unfold replace_entry in *. rewrite map_app. simpl. rewrite E, String.eqb_refl, !Hout; [done| |].
  - intros y Hy Ey. apply Nx. rewrite <- Ey. by apply list_elem_of_fmap_2.
  - intros y Hy Ey. apply (D (re_ID y)); [by apply list_elem_of_fmap_2|]. rewrite Ey. left.
Qed.

Lemma select_loop_spec spec now i es acc r pre :
  wf r -> cl_list (rt_catalog r) = pre ++ es ->
  let '(l, r') := select_loop spec now i es acc r in
  l = acc ++ List.filter (eligible spec (rt_escalated r)) (recover_all now i es) /\
  wf r' /\ rt_escalated r' = rt_escalated r /\ rt_cooldown r' = rt_cooldown r /\
  cl_list (rt_catalog r') = pre ++ recover_all now i es.
Proof.
  revert i acc r pre. induction es as [|e es IH]; intros i acc r pre W L.
  - simpl. rewrite !app_nil_r. rewrite app_nil_r in L. by split_and!.
  - simpl. pose proof (tryAutoRecover_spec r (now i) e W) as T.
    rewrite L in T. specialize (T ltac:(apply elem_of_app; right; left)).
    destruct (tryAutoRecover r (now i) e) as [e' r1]. destruct T as (-> & W1 & Ee & Ec & L1).
    rewrite replace_entry_mid in L1;
      [| by rewrite recovered_ID | rewrite <- L; by apply cl_list_nodup].
    rewrite cons_middle, app_assoc in L1.
    unfold eligible at 1. rewrite <- Ee.
    set (e' := recovered (now i) e) in *.
    assert (Hgen : forall acc, let '(l, r') := select_loop spec now (S i) es acc r1 in
      l = acc ++ List.filter (eligible spec (rt_escalated r)) (recover_all now (S i) es) /\
      wf r' /\ rt_escalated r' = rt_escalated r /\ rt_cooldown r' = rt_cooldown r /\
      cl_list (rt_catalog r') = pre ++ e' :: recover_all now (S i) es).
    { intros acc'. specialize (IH (S i) acc' r1 _ W1 L1).
      destruct (select_loop spec now (S i) es acc' r1) as [l r'].
      destruct IH as (-> & W2 & E2 & C2 & L2). rewrite Ee, L2, <- app_assoc. split_and!; congruence || done. }
    rewrite (Z.ltb_antisym (rs_MinCapability spec) (re_CapabilityTier e')).
    destruct (bool_decide (re_ID e' ∈ rt_escalated r1)); simpl; [rewrite Ee; apply Hgen|].
    destruct (rs_MinCapability spec <=? re_CapabilityTier e'); simpl; [|rewrite Ee; apply Hgen].
    destruct (bool_decide (av_Status (re_Availability e') = AvailStatusAvailable)); simpl;
      [|rewrite Ee; apply Hgen].
    specialize (Hgen (acc ++ [e'])). rewrite <- app_assoc in Hgen. rewrite Ee. apply Hgen.
Qed.
End Router.

Arguments Router C : clear implicits.

Section Facts.
Context {C : Type} `{CatalogLike C}.
Implicit Types (r : Router C) (spec : RoutingSpec).

Lemma Select_spec spec now r :
  wf r ->
  let '(res, r') := Select spec now r in
  let es := recover_all now 0 (cl_list (rt_catalog r)) in
  wf r' /\ rt_escalated r' = rt_escalated r /\ rt_cooldown r' = rt_cooldown r /\
  cl_list (rt_catalog r') = es /\
  match res with
  | Ok e => e ∈ es /\ eligible spec (rt_escalated r) e = true /\
      forall e', e' ∈ es -> eligible spec (rt_escalated r) e' = true ->
        e' = e \/ less (rs_SensitivityHint spec) e e' = true
  | Err err => err = ErrNoEligibleExecutor /\
      Forall (fun e => eligible spec (rt_escalated r) e = false) es
  end.
Proof.
  intros W. unfold Select.
  pose proof (select_loop_spec spec now 0 (cl_list (rt_catalog r)) [] r [] W eq_refl) as L.
  destruct (select_loop _ _ _ _ _ _) as [l r']. destruct L as (-> & W' & E & Cd & Ll). simpl in *.
  set (es := recover_all now 0 (cl_list (rt_catalog r))) in *.
  assert (N : NoDup (map re_ID es)).
  { unfold es. rewrite recover_all_ids. by apply cl_list_nodup. }
  destruct (sort_by _ _) as [|e rest] eqn:S.
  - split_and!; try done. apply Forall_forall. intros e He.
    destruct (eligible spec (rt_escalated r) e) eqn:El; [|done]. exfalso.
    assert (Hin : e ∈ sort_by (less (rs_SensitivityHint spec))
                        (List.filter (eligible spec (rt_escalated r)) es)).
    { apply sort_by_elem, list_elem_of_In, filter_In. by rewrite <- list_elem_of_In. }
    rewrite S in Hin. by apply not_elem_of_nil in Hin.
  - apply sort_by_head_min in S as [Hin Hmin];
      [| apply less_asym | intros; by eapply nless_trans_router].
    apply list_elem_of_In, filter_In in Hin as [Hin El]. apply list_elem_of_In in Hin.
    split_and!; try done. intros e' He' El'.
    destruct (less (rs_SensitivityHint spec) e e') eqn:Lt; [by right|]. left.
    assert (Hl : less (rs_SensitivityHint spec) e' e = false).
    { apply Hmin, list_elem_of_In, filter_In. by rewrite <- list_elem_of_In. }
    assert (Hid := less_total _ _ _ Lt Hl).
    assert (F := find_entry_in es e N Hin). rewrite Hid, (find_entry_in es e' N He') in F. congruence.
Qed.

(** ** Sequences of operations *)

Inductive RouterOp :=
| OpSelect (spec : RoutingSpec) (now : nat -> Z)
| OpGateFailure (id : string)
| OpResetEscalation
| OpQuotaExhausted (id : string) (resetAt : Z)
| OpRecordDispatch (id : string) (now : Z)
| OpRateLimit (id header : string) (now : Z).

Variable retry_after : string -> option Z.

Definition do_op (r : Router C) (op : RouterOp) : Router C :=
  match op with
  | OpSelect spec now => (Select spec now r).2
  | OpGateFailure id => OnGateFailure id r
  | OpResetEscalation => ResetEscalation r
  | OpQuotaExhausted id t => OnQuotaExhausted id t r
  | OpRecordDispatch id now => RecordDispatch id now r
  | OpRateLimit id h now => OnRateLimit retry_after id h now r
  end.

Definition do_ops (r : Router C) (ops : list RouterOp) : Router C := foldl do_op r ops.

(** What the router may do to one entry: its configuration stays, an
    unlimited entry stays as it was. *)
Definition evolves (e e' : RegistryEntry) : Prop :=
  (exists u a, e' = set_availability e u a) /\
  (IsUnlimited e = true -> av_Status (re_Availability e) = AvailStatusAvailable -> e' = e).

(** Quota discipline of one entry. *)
Definition within_quota (e : RegistryEntry) : Prop :=
  0 < qb_Limit (re_Budget e) -> av_Status (re_Availability e) = AvailStatusAvailable ->
  re_Usage e < qb_Limit (re_Budget e).

Lemma evolves_refl e : evolves e e.
Proof. split; [|done]. exists (re_Usage e), (re_Availability e). by destruct e. Qed.

Lemma evolves_trans e1 e2 e3 : evolves e1 e2 -> evolves e2 e3 -> evolves e1 e3.
Proof.
  intros [(u & a & ->) U1] [(u' & a' & ->) U2]. split; [by exists u', a'|].
  intros Hu Ha. rewrite (U1 Hu Ha) in U2. rewrite <- (U2 Hu Ha). by destruct e1.
Qed.

Lemma recovered_evolves now e : evolves e (recovered now e) /\ (within_quota e -> within_quota (recovered now e)).
Proof.
  unfold recovered. destruct (bool_decide _ && _) eqn:E; [|split; [apply evolves_refl|done]].
  to_prop. split; [split|].
  - eauto.
  - intros _ Ha. congruence.
  - intros _ Hl _. simpl in *. lia.
Qed.

Lemma update_evolves r e0 e' :
  wf r -> e0 ∈ cl_list (rt_catalog r) -> re_ID e' = re_ID e0 -> evolves e0 e' ->
  Forall2 evolves (cl_list (rt_catalog r)) (cl_list (rt_catalog (update r e'))).
Proof.
  intros W Hin Hid Hev. simpl. rewrite cl_update_list by done. unfold replace_entry.
  apply Forall2_fmap_r. apply Forall_Forall2_diag, Forall_forall. intros x Hx.
  change (evolves x (if String.eqb (re_ID x) (re_ID e') then e' else x)).
  destruct (String.eqb_spec (re_ID x) (re_ID e')) as [E|]; [|apply evolves_refl].
  pose proof (cl_list_nodup _ W) as N.
  assert (F := find_entry_in _ x N Hx). rewrite E, Hid, (find_entry_in _ e0 N Hin) in F. by simplify_eq.
Qed.

Lemma lookup_in r id e :
  wf r -> cl_lookup (rt_catalog r) id = Some e -> e ∈ cl_list (rt_catalog r) /\ re_ID e = id.
Proof.
  intros W. rewrite cl_lookup_spec by done. destruct (String.eqb id ""); [done|]. apply find_entry_some.
Qed.

Lemma update_quota r e' :
  wf r -> within_quota e' -> Forall within_quota (cl_list (rt_catalog r)) ->
  Forall within_quota (cl_list (rt_catalog (update r e'))).
Proof.
  intros W Hq Hf. simpl. rewrite cl_update_list by done. rewrite Forall_forall in *.
  intros x [[Hx _]|[-> _]]%replace_entry_elem; auto.
Qed.

Lemma limited_update_ok r id e u a :
  wf r -> cl_lookup (rt_catalog r) id = Some e -> IsUnlimited e = false ->
  within_quota (set_availability e u a) ->
  let r' := update r (set_availability e u a) in
  wf r' /\ Forall2 evolves (cl_list (rt_catalog r)) (cl_list (rt_catalog r')) /\
  (Forall within_quota (cl_list (rt_catalog r)) -> Forall within_quota (cl_list (rt_catalog r'))).
Proof.
  intros W [Hin Hid]%lookup_in Hu Hq; [|done]. split_and!.
  - by apply update_wf.
  - apply (update_evolves r e); try done. split; [eauto|]. congruence.
  - by apply update_quota.
Qed.

Lemma do_op_ok r op :
  wf r -> wf (do_op r op) /\
  Forall2 evolves (cl_list (rt_catalog r)) (cl_list (rt_catalog (do_op r op))) /\
  (Forall within_quota (cl_list (rt_catalog r)) ->
   Forall within_quota (cl_list (rt_catalog (do_op r op)))).
Proof.
  intros W. assert (Hsame : wf r /\ Forall2 evolves (cl_list (rt_catalog r)) (cl_list (rt_catalog r)) /\
    (Forall within_quota (cl_list (rt_catalog r)) -> Forall within_quota (cl_list (rt_catalog r)))).
  { split_and!; try done. apply Forall_Forall2_diag, Forall_forall. intros. apply evolves_refl. }
  destruct op as [spec now| | |id t|id now|id h now]; simpl; try exact Hsame.
  - pose proof (Select_spec spec now r W) as S. destruct (Select spec now r) as [res r'].
    destruct S as (W' & _ & _ & L & _). simpl. rewrite L. split; [done|].
    generalize 0%nat. generalize (cl_list (rt_catalog r)).
    induction l as [|e l IH]; intros i; simpl; [done|]. destruct (recovered_evolves (now i) e).
    destruct (IH (S i)). split; [by constructor|]. rewrite !Forall_cons. naive_solver.
  - unfold OnQuotaExhausted. destruct (cl_lookup _ id) as [e|] eqn:E; [|done].
    destruct (IsUnlimited e) eqn:U; [done|]. eapply limited_update_ok; [done..|].
    intros _ Ha. done.
  - unfold RecordDispatch. destruct (cl_lookup _ id) as [e|] eqn:E; [|done].
    destruct (IsUnlimited e) eqn:U; [done|]. eapply limited_update_ok; [done..|].
    unfold within_quota. simpl. destruct (_ <=? _) eqn:Q; [done|]. to_prop. lia.
  - unfold OnRateLimit. destruct (cl_lookup _ id) as [e|] eqn:E; [|done].
    destruct (IsUnlimited e) eqn:U; [done|]. eapply limited_update_ok; [done..|].
    intros _ Ha. done.
Qed.

Lemma Forall2_evolves_trans l1 l2 l3 : Forall2 evolves l1 l2 -> Forall2 evolves l2 l3 -> Forall2 evolves l1 l3.
Proof.
  intros H1. revert l3. induction H1; intros l3 H3; inversion H3; subst; constructor; eauto.
  by eapply evolves_trans.
Qed.

Lemma do_ops_ok r ops :
  wf r -> wf (do_ops r ops) /\
  Forall2 evolves (cl_list (rt_catalog r)) (cl_list (rt_catalog (do_ops r ops))) /\
  (Forall within_quota (cl_list (rt_catalog r)) ->
   Forall within_quota (cl_list (rt_catalog (do_ops r ops)))).
Proof.
  revert r. unfold do_ops. induction ops as [|op ops IH]; intros r W; simpl.
  - split_and!; try done. apply Forall_Forall2_diag, Forall_forall. intros. apply evolves_refl.
  - destruct (do_op_ok r op W) as (W1 & F1 & Q1). destruct (IH _ W1) as (W2 & F2 & Q2).
    split_and!; [done | by eapply Forall2_evolves_trans | auto].
Qed.
End Facts.


(** Two entries of the same cost, one of them local. *)
Definition cloud_entry : RegistryEntry :=
  mkEntry "codex" HarnessCodexCLI 3 2 "m" "u" "vault" (mkQuotaBudget 2 10) 0
    (mkAvailability AvailStatusAvailable 0).
Definition local_entry : RegistryEntry :=
  mkEntry "local" HarnessClaudeCLI 3 2 "m" "u" "" (mkQuotaBudget 0 0) 0
    (mkAvailability AvailStatusAvailable 0).
Definition demo_catalog : Catalog :=
  default NewCatalog (register_all NewCatalog [cloud_entry; local_entry]).
Definition demo_router : Router Catalog := NewRouter demo_catalog.

Lemma demo_router_wf : wf demo_router.
Proof.
  destruct (register_all_ok NewCatalog [cloud_entry; local_entry] NewCatalog_wf) as (c & H1 & H2 & _).
  - apply (bool_decide_unpack _). vm_compute. exact I.
  - change (catalog_wf demo_catalog). unfold demo_catalog. by rewrite H1.
Qed.


(** Any sequence of dispatches, rate limits, exhaustions, escalations and selections
    changes only usage and availability of the entries, keeps every available entry
    with a limit below it, and never touches an available entry without a limit. *)
Theorem quota_discipline_is_invariant {C} `{CatalogLike C} (retry_after : string -> option Z)
  (r : Router C) (ops : list RouterOp) :
  wf r -> Forall within_quota (cl_list (rt_catalog r)) ->
  let r' := do_ops retry_after r ops in
  wf r' /\ Forall within_quota (cl_list (rt_catalog r')) /\
  Forall2 (fun e e' =>
    (exists u a, e' = set_availability e u a) /\
    (IsUnlimited e = true -> av_Status (re_Availability e) = AvailStatusAvailable -> e' = e))
    (cl_list (rt_catalog r)) (cl_list (rt_catalog r')).
Proof. intros W Q. destruct (do_ops_ok retry_after r ops W) as (W' & F & Q'). auto. Qed.

Lemma quota_discipline_is_invariant_witness :
  let ops := [OpRecordDispatch "codex" 5; OpRecordDispatch "codex" 6; OpQuotaExhausted "local" 9;
              OpRateLimit "local" "60" 7; OpSelect (mkRoutingSpec 1 SensitivityNone) (fun _ => 7)] in
  let r' := do_ops (fun _ => None) demo_router ops in
  wf r' /\ Forall within_quota (cl_list (rt_catalog r')) /\ local_entry ∈ cl_list (rt_catalog r') /\
  cloud_entry ∉ cl_list (rt_catalog r').
Proof.
  intros ops r'.
  destruct (quota_discipline_is_invariant (fun _ => None) demo_router ops demo_router_wf) as (W & Q & _).
  - repeat constructor; intros H; vm_compute in H; done.
  - split_and!; [exact W | exact Q | |]; apply (bool_decide_unpack _); vm_compute; exact I.
Defined.

(** ** The gate-failure ladder *)

Section Ladder.
Context {C : Type} `{CatalogLike C}.

(** Repeated [Select] and [OnGateFailure], as a dispatch whose gate keeps
    failing performs them; [now k] are the clock readings of round [k]. *)
Fixpoint climb (fuel : nat) (spec : RoutingSpec) (now : nat -> nat -> Z) (r : Router C)
  : list string * option RouterErr * Router C :=
  match fuel with
  | O => ([], None, r)
  | S fuel =>
    let '(res, r) := Select spec (now fuel) r in
    match res with
    | Err e => ([], Some e, r)
    | Ok e =>
      let '(tried, err, r) := climb fuel spec now (OnGateFailure (re_ID e) r) in
      (re_ID e :: tried, err, r)
    end
  end.

Lemma climb_spec fuel spec now (r : Router C) :
  wf r ->
  let '(tried, err, r') := climb fuel spec now r in
  NoDup tried /\ (forall id, id ∈ tried -> id ∉ rt_escalated r /\ id ∈ map re_ID (cl_list (rt_catalog r))) /\
  (err = None -> length tried = fuel) /\ (forall e, err = Some e -> e = ErrNoEligibleExecutor).
Proof.
  revert r. induction fuel as [|fuel IH]; intros r W; simpl.
  - split_and!; try done; [constructor | by intros ? ?%not_elem_of_nil].
  - pose proof (Select_spec spec (now fuel) r W) as S.
    destruct (Select spec (now fuel) r) as [[e|e] r1]; destruct S as (W1 & E1 & _ & L1 & S).
    + destruct S as (Hin & El & _). specialize (IH (OnGateFailure (re_ID e) r1) W1).
      destruct (climb fuel spec now _) as [[tried err] r']. destruct IH as (N & D & K & Ek).
      simpl in D. rewrite L1, E1, recover_all_ids in D. split_and!; try done.
      * constructor; [|done]. intros Hx. apply D in Hx. set_solver.
      * intros id [->|Hid]%elem_of_cons.
        -- unfold eligible in El. to_prop. split; [done|].
           rewrite <- (recover_all_ids (now fuel) 0). by apply list_elem_of_fmap_2.
        -- apply D in Hid. set_solver.
      * intros He. simpl. by rewrite K.
    + destruct S as [-> _]. split_and!; try done; [constructor | by intros ? ?%not_elem_of_nil | congruence].
Qed.
End Ladder.

(** Selecting and reporting a gate failure over and over tries pairwise distinct
    entries of the catalog, none of them escalated before, and ends with no-
    eligible-executor after at most one selection more than there are entries. *)
Theorem gate_failure_ladder_terminates {C} `{CatalogLike C} (spec : RoutingSpec)
  (now : nat -> nat -> Z) (r : Router C) :
  wf r ->
  let '(tried, err, r') := climb (S (length (cl_list (rt_catalog r)))) spec now r in
  err = Some ErrNoEligibleExecutor /\ NoDup tried /\
  (forall id, id ∈ tried -> id ∉ rt_escalated r /\ id ∈ map re_ID (cl_list (rt_catalog r))).
Proof.
  intros W. pose proof (climb_spec (S (length (cl_list (rt_catalog r)))) spec now r W) as Hc.
  destruct (climb _ spec now r) as [[tried err] r']. destruct Hc as (N & D & K & E).
  split_and!; try done. destruct err as [e|]; [by rewrite (E e)|]. exfalso.
  assert (Hl : (length tried <= length (map re_ID (cl_list (rt_catalog r))))%nat).
  { apply submseteq_length, NoDup_submseteq; [done|]. intros id Hid. by apply D. }
  rewrite length_map, K in Hl by done. lia.
Qed.

Lemma gate_failure_ladder_terminates_witness :
  let '(tried, err, r') := climb 3 (mkRoutingSpec 1 SensitivityNone) (fun _ _ => 0) demo_router in
  err = Some ErrNoEligibleExecutor /\ NoDup tried /\ tried = ["codex"; "local"].
Proof.
  pose proof (gate_failure_ladder_terminates (mkRoutingSpec 1 SensitivityNone) (fun _ _ => 0)
    demo_router demo_router_wf) as Hc.
  change (length (cl_list (rt_catalog demo_router))) with 2%nat in Hc.
  assert (E : (climb 3 (mkRoutingSpec 1 SensitivityNone) (fun _ _ => 0) demo_router).1.1 = ["codex"; "local"])
    by (vm_compute; reflexivity).
  destruct (climb 3 _ _ demo_router) as [[tried err] r']. simpl in E.
  destruct Hc as (H1 & H2 & _). split_and!; assumption.
Defined.

(** ** The quota state round trip *)

Section Persistence.
Context {C : Type} `{CatalogLike C}.

Definition known_status (e : RegistryEntry) : Prop :=
  av_Status (re_Availability e) = AvailStatusAvailable \/
  av_Status (re_Availability e) = AvailStatusExhausted.

(** Same configuration: only usage and availability may differ. *)
Definition same_config (e e' : RegistryEntry) : Prop :=
  set_availability e' (re_Usage e) (re_Availability e) = e.

Lemma same_config_ID e e' : same_config e e' -> re_ID e' = re_ID e.
Proof. unfold same_config. intros <-. done. Qed.

Lemma quota_state_lookup es e :
  NoDup (map re_ID es) -> e ∈ es -> quota_state es !! re_ID e = Some (entry_state e).
Proof.
  intros N. unfold quota_state. generalize (∅ : gmap string entryState).
  induction es as [|x es IH]; intros m Hin; [by apply not_elem_of_nil in Hin|]. simpl.
  apply NoDup_cons in N as [Nx N]. apply elem_of_cons in Hin as [->|Hin]; [|by apply IH].
  clear IH. assert (Hk : forall es (m : gmap string entryState), re_ID x ∉ map re_ID es ->
    foldl (fun m e => <[re_ID e := entry_state e]> m) m es !! re_ID x = m !! re_ID x).
  { clear. induction es as [|y es IH]; intros m Hx; simpl; [done|].
    rewrite IH by set_solver. apply lookup_insert_ne. set_solver. }
  rewrite Hk by done. apply lookup_insert_eq.
Qed.

Lemma quota_state_dom es id st :
  quota_state es !! id = Some st -> exists e, e ∈ es /\ re_ID e = id.
Proof.
  unfold quota_state. assert (Hg : forall m : gmap string entryState,
    foldl (fun m e => <[re_ID e := entry_state e]> m) m es !! id = Some st ->
    m !! id = Some st \/ exists e, e ∈ es /\ re_ID e = id).
  { induction es as [|x es IH]; intros m Hl; simpl in *; [by left|].
    destruct (IH _ Hl) as [Hm|(e & He & <-)]; [|right; exists e; split; [by right|done]].
    apply lookup_insert_Some in Hm as [[<- _]|[_ Hm]]; [|by left]. right. exists x. split; [left|done]. }
  intros Hl. apply Hg in Hl as [Hl|Hl]; [by rewrite lookup_empty in Hl | done].
Qed.

Lemma status_roundtrip e :
  known_status e -> AvailStatus_of (AvailStatus_string (av_Status (re_Availability e))) =
                    av_Status (re_Availability e).
Proof. intros [-> | ->]; reflexivity. Qed.

(** One saved entry restores the entry of its ID and leaves the others. *)
Lemma restore_one (l l' : list RegistryEntry) e :
  NoDup (map re_ID l) -> Forall2 same_config l l' -> e ∈ l ->
  Forall2 same_config l (replace_entry e l') /\
  forall x, x ∈ l -> x ∈ l' -> x ∈ replace_entry e l'.
Proof.
  intros N F Hin. split.
  - assert (Hl : forall x, x ∈ l -> re_ID x = re_ID e -> x = e).
    { intros x Hx E. assert (G := find_entry_in l x N Hx).
      rewrite E, (find_entry_in l e N Hin) in G. congruence. }
    clear N Hin. unfold replace_entry. induction F as [|x y l l' S F IH]; simpl; constructor.
    + destruct (String.eqb_spec (re_ID y) (re_ID e)) as [E|]; [|done].
      rewrite (same_config_ID _ _ S) in E. rewrite (Hl x) by (done || left).
      unfold same_config. by destruct e.
    + apply IH. intros z Hz. apply Hl. by right.
  - intros x Hx Hx'. apply replace_entry_elem.
    destruct (decide (re_ID x = re_ID e)) as [E|]; [right|left; done].
    assert (G := find_entry_in l x N Hx). rewrite E, (find_entry_in l e N Hin) in G.
    split; [congruence|]. eauto.
Qed.

Lemma load_loop_restores (r' : Router C) (l : list RegistryEntry) todo :
  wf r' -> NoDup (map re_ID l) -> Forall (fun e => known_status e /\ re_ID e <> "") l ->
  Forall2 same_config l (cl_list (rt_catalog r')) ->
  Forall (fun p => exists e, e ∈ l /\ re_ID e = p.1 /\ entry_state e = p.2) todo ->
  exists r'', load_loop todo r' = (None, r'') /\ wf r'' /\
    Forall2 same_config l (cl_list (rt_catalog r'')) /\
    forall e, e ∈ l -> (e ∈ cl_list (rt_catalog r') \/ (re_ID e, entry_state e) ∈ todo) ->
      e ∈ cl_list (rt_catalog r'').
Proof.
  intros W N K F T. revert r' W F.
  induction T as [|[id st] todo (e & He & Eid & Est) T IH]; intros r' W F; simpl.
  - exists r'. split_and!; try done. intros e He [Hl|Hl]; [done|]. by apply not_elem_of_nil in Hl.
  - simpl in Eid, Est. subst id st. rewrite Forall_forall in K. destruct (K e He) as [Ks Hne].
    pose proof (cl_list_nodup _ W) as N'.
    destruct (proj1 (list_elem_of_lookup _ _) He) as [i Hi].
    destruct (Forall2_lookup_l _ _ _ _ _ F Hi) as (e' & Hi' & Hs).
    assert (He' : e' ∈ cl_list (rt_catalog r')) by (eapply list_elem_of_lookup_2; eassumption).
    rewrite cl_lookup_spec by done. rewrite (proj2 (String.eqb_neq _ _) Hne).
    rewrite <- (same_config_ID _ _ Hs), (find_entry_in _ e' N' He').
    change (es_AvailStatus (entry_state e)) with (AvailStatus_string (av_Status (re_Availability e))).
    rewrite status_roundtrip by done.
    assert (Hset : set_availability e' (es_Usage (entry_state e))
      (mkAvailability (av_Status (re_Availability e)) (es_ResetAt (entry_state e))) = e).
    { transitivity (set_availability e' (re_Usage e) (re_Availability e)); [|exact Hs].
      simpl. by destruct (re_Availability e). }
    assert (Hgo : exists r'', load_loop todo (update r' e) = (None, r'') /\ wf r'' /\
      Forall2 same_config l (cl_list (rt_catalog r'')) /\
      forall x, x ∈ l -> (x ∈ cl_list (rt_catalog r') \/
         (re_ID x, entry_state x) ∈ (re_ID e', entry_state e) :: todo) ->
         x ∈ cl_list (rt_catalog r'')).
    { destruct (restore_one l _ e N F He) as [F2 Keep].
      rewrite <- cl_update_list in F2 by done.
      destruct (IH (update r' e) (update_wf r' e W) F2) as (r'' & L & W2 & F3 & All).
      exists r''. split_and!; try done. intros x Hx Hor. apply All; [done|].
      simpl. rewrite cl_update_list by done.
      destruct Hor as [Hor|[Hor|Hor]%elem_of_cons]; [left; by apply Keep | | by right].
      left. assert (Eid : re_ID x = re_ID e) by (rewrite <- (same_config_ID _ _ Hs); congruence).
      assert (G := find_entry_in l x N Hx). rewrite Eid, (find_entry_in l e N He) in G.
      injection G as <-. apply replace_entry_elem. right. split; [done|].
      exists e'. split; [done|]. by apply same_config_ID. }
    destruct Ks as [Ks|Ks]; rewrite Ks in *; rewrite Hset; exact Hgo.
Qed.

Lemma same_config_nodup_eq (l l' : list RegistryEntry) :
  Forall2 same_config l l' -> NoDup (map re_ID l') -> (forall e, e ∈ l -> e ∈ l') -> l = l'.
Proof.
  intros F N Hin. apply list_eq_Forall2.
  assert (Hx : forall e e', same_config e e' -> e ∈ l -> e' ∈ l' -> e = e').
  { intros e e' S He He'. assert (G := find_entry_in l' e N (Hin e He)).
    rewrite <- (same_config_ID _ _ S), (find_entry_in l' e' N He') in G. congruence. }
  clear N Hin. induction F as [|x y l l' S F IH]; constructor.
  - apply Hx; [done | left | left].
  - apply IH. intros. apply Hx; [done | by right | by right].
Qed.
End Persistence.

(** Loading the quota state that a router saved restores the usage and availability
    of every entry in a router with the same configuration. *)
Theorem quota_state_round_trip {C} `{CatalogLike C} marshal unmarshal range
  (r r' : Router C) writable path files files' :
  (forall st data, marshal st = Some data -> unmarshal data = Some (Some st)) ->
  (forall m : gmap string entryState, range m ≡ₚ map_to_list m) ->
  wf r -> wf r' -> Forall2 same_config (cl_list (rt_catalog r)) (cl_list (rt_catalog r')) ->
  Forall (fun e => known_status e /\ re_ID e <> "") (cl_list (rt_catalog r)) ->
  SaveState marshal r writable path files = (None, files') ->
  exists r'', LoadState unmarshal range path files' r' = (None, r'') /\
    cl_list (rt_catalog r'') = cl_list (rt_catalog r).
Proof.
  intros Hcodec Hrange W W' F K HS. unfold SaveState in HS.
  destruct (marshal _) as [data|] eqn:M; [|done]. destruct writable; [|done]. injection HS as <-.
  unfold LoadState. rewrite lookup_insert_eq, (Hcodec _ _ M).
  pose proof (cl_list_nodup _ W) as N.
  destruct (load_loop_restores r' (cl_list (rt_catalog r))
              (range (quota_state (cl_list (rt_catalog r)))) W' N K F) as (r'' & L & W2 & F2 & All).
  - apply Forall_forall. intros [id st] Hin. rewrite Hrange in Hin. apply elem_of_map_to_list in Hin.
    destruct (quota_state_dom _ _ _ Hin) as (e & He & <-). exists e.
    rewrite (quota_state_lookup _ e N He) in Hin. by injection Hin.
  - exists r''. split; [done|]. symmetry. apply same_config_nodup_eq; [done | by apply cl_list_nodup |].
    intros e He. apply All; [done|]. right. rewrite Hrange. apply elem_of_map_to_list.
    by apply quota_state_lookup.
Qed.

(** A concrete codec: the decimal code of the finite map. *)
#[export] Instance entryState_eq_dec : EqDecision entryState.
Proof. solve_decision. Defined.
#[export] Program Instance entryState_countable : Countable entryState :=
  inj_countable' (fun s => (es_Usage s, es_Exhausted s, es_ResetAt s, es_AvailStatus s))
    (fun '(u, x, t, a) => mkEntryState u x t a) _.
Next Obligation. by intros []. Qed.

Definition demo_marshal (st : gmap string entryState) : option string :=
  Some (format_nonneg (Z.pos (encode st))).
Definition demo_unmarshal (data : string) : option (option (gmap string entryState)) :=
  match parse_digits data with Some (Z.pos p) => Some (decode p) | _ => None end.

Lemma quota_state_round_trip_witness :
  let r := do_ops (fun _ => None) demo_router [OpRecordDispatch "codex" 5; OpRecordDispatch "codex" 6] in
  exists files' r'', SaveState demo_marshal r true "/q.json" ∅ = (None, files') /\
    LoadState demo_unmarshal map_to_list "/q.json" files' demo_router = (None, r'') /\
    cl_list (rt_catalog r'') = cl_list (rt_catalog r).
Proof.
  intros r.
  assert (W : wf r) by (apply do_ops_ok, demo_router_wf).
  eexists. edestruct (quota_state_round_trip demo_marshal demo_unmarshal map_to_list r demo_router
    true "/q.json" ∅) as (r'' & L & E).
  - intros st data [= <-]. unfold demo_unmarshal. rewrite parse_format_nonneg by done.
    by rewrite decode_encode.
  - done.
  - exact W.
  - exact demo_router_wf.
  - repeat constructor.
  - repeat constructor; done.
  - reflexivity.
  - exists r''. split_and!; [reflexivity | exact L | exact E].
Defined.
