(* ===== verification/Envelope.v ===== *)
(** * Signed envelopes and the worker transport

    [internal/envelope]: [envelope.go] (signatures and the ordered opening of
    an inbound envelope), [confidentiality.go] (sealing), [replay.go] (the
    replay cache); [internal/channel/worker/transport.go]: work items and
    results between orchestrator and workers. The primitives of
    [crypto/ed25519] and [nacl/box], the timestamp parsers and the JSON codec
    of tasks are parameters; instants and durations are nanoseconds. *)

From stdpp Require Import base gmap strings list.
From Stdlib Require Import ZArith Lia Ascii.
From S2P Require Import Prelude GoStrings Encoding Seams.

Local Open Scope Z_scope.

(** ** The replay cache *)

Inductive EnvErr :=
| ErrUnknownKey
| ErrBadSignature
| ErrReplay
| ErrStaleTimestamp
| ErrDecryptionFailed
| ErrNonceHex
| ErrNonceSize (n : nat)
| ErrTimestampFormat
| ErrPayloadHex
| ErrPrivateKeySize (n : nat)
| ErrNonceGeneration.

Record ReplayCache := mkReplayCache {
  rc_Window : Z;
  rc_nonces : gmap string Z
}.

(** [NewReplayCache]. *)
Definition NewReplayCache (window : Z) : ReplayCache :=
  mkReplayCache (if window =? 0 then 60 * 1000000000 else window) ∅.

(** [evict]: drop the nonces whose timestamp is before the horizon. *)
Definition evict (now : Z) (rc : ReplayCache) : ReplayCache :=
  let horizon := now + wrap64 (-2 * rc_Window rc) in
  mkReplayCache (rc_Window rc) (filter (fun p => horizon <= p.2) (rc_nonces rc)).

(** [Check] at the instant [now]. *)
Definition Check_nonce (now : Z) (nonce : string) (ts : Z) (rc : ReplayCache)
  : option EnvErr * ReplayCache :=
  if (ts <? now + wrap64 (- rc_Window rc)) || (now + rc_Window rc <? ts)
  then (Some ErrStaleTimestamp, rc)
  else match rc_nonces rc !! nonce with
  | Some _ => (Some ErrReplay, rc)
  | None =>
    let rc := evict now rc in
    (None, mkReplayCache (rc_Window rc) (<[nonce := ts]> (rc_nonces rc)))
  end.

(** [Len] and [Evict]. *)
Definition Len (rc : ReplayCache) : nat := size (rc_nonces rc).
Definition Evict (now : Z) (rc : ReplayCache) : ReplayCache := evict now rc.

(** ** Envelopes *)

Record Envelope := mkEnvelope {
  env_From : string;
  env_To : string;
  env_Nonce : string;
  env_TS : string;
  env_Payload : string;
  env_Sig : string
}.

Definition json_field (name value : string) : string :=
  String dquote (name +:+ String dquote ":") +:+ json_string value.

(** [signingBytes]: the JSON object of the envelope with an empty signature. *)
Definition signingBytes (e : Envelope) : string :=
  "{" +:+ json_field "from" (env_From e) +:+ "," +:+ json_field "to" (env_To e) +:+ "," +:+
  json_field "nonce" (env_Nonce e) +:+ "," +:+ json_field "ts" (env_TS e) +:+ "," +:+
  json_field "payload" (env_Payload e) +:+ "," +:+ json_field "sig" "" +:+ "}".

Section Crypto.
Variables (ed_sign : string -> string -> string)
          (ed_verify : string -> string -> string -> bool)
          (box_seal : string -> string -> string -> string -> string)
          (box_open : string -> string -> string -> string -> option string)
          (ParseRFC3339 : string -> option Z) (Sscanf_d : string -> option Z)
          (FormatRFC3339 : Z -> string).

Definition set_sig (e : Envelope) (s : string) : Envelope :=
  mkEnvelope (env_From e) (env_To e) (env_Nonce e) (env_TS e) (env_Payload e) s.

(** [Sign]. *)
Definition Sign (e : Envelope) (priv : string) : result EnvErr Envelope :=
  if negb (String.length priv =? 64)%nat then Err (ErrPrivateKeySize (String.length priv))
  else Ok (set_sig e (hex_encode (ed_sign priv (signingBytes e)))).

(** [Verify]; [None] is success. *)
Definition VerifySig (e : Envelope) (pub : string) : option EnvErr :=
  if negb (String.length pub =? 32)%nat then Some ErrUnknownKey
  else match hex_decode (env_Sig e) with
  | None => Some ErrBadSignature
  | Some sig =>
    if negb (String.length sig =? 64)%nat then Some ErrBadSignature
    else if negb (ed_verify pub (signingBytes e) sig) then Some ErrBadSignature
    else None
  end.

(** [Seal], with the nonce read from [crypto/rand] ([None] when it fails). *)
Definition Seal (rand : option string) (plaintext senderPriv recipPub : string)
  : result EnvErr (string * string) :=
  match rand with
  | None => Err ErrNonceGeneration
  | Some nonce => Ok (box_seal plaintext nonce recipPub senderPriv, nonce)
  end.

(** [Open]. *)
Definition Open (ciphertext nonce recipPriv senderPub : string) : result EnvErr string :=
  match box_open ciphertext nonce senderPub recipPriv with
  | None => Err ErrDecryptionFailed
  | Some p => Ok p
  end.

(** The timestamp of an envelope: RFC3339, else Unix seconds. *)
Definition parse_ts (ts : string) : option Z :=
  match ParseRFC3339 ts with
  | Some t => Some t
  | None => match Sscanf_d ts with Some s => Some (s * 1000000000) | None => None end
  end.

(** [VerifyAndOpen]: the result and the cache. *)
Definition VerifyAndOpen (now : Z) (e : Envelope) (signPub : string) (rc : ReplayCache)
  (recipPriv senderPub : string) : result EnvErr string * ReplayCache :=
  match VerifySig e signPub with
  | Some err => (Err err, rc)
  | None =>
    match hex_decode (env_Nonce e) with
    | None => (Err ErrNonceHex, rc)
    | Some nonce =>
      if negb (String.length nonce =? 24)%nat then (Err (ErrNonceSize (String.length nonce)), rc)
      else match parse_ts (env_TS e) with
      | None => (Err ErrTimestampFormat, rc)
      | Some ts =>
        let '(err, rc) := Check_nonce now (env_Nonce e) ts rc in
        match err with
        | Some err => (Err err, rc)
        | None =>
          match hex_decode (env_Payload e) with
          | None => (Err ErrPayloadHex, rc)
          | Some ciphertext => (Open ciphertext nonce recipPriv senderPub, rc)
          end
        end
      end
    end
  end.

(** ** The worker transport *)

Inductive TransportErr := TErrEnvelope (e : EnvErr) | TErrRoleMismatch | TErrDecode | TErrMarshal.

Definition roleOrchestrator : string := "orchestrator".
Definition roleWorker : string := "worker".

Record Sender := mkSender {
  sd_from : string;
  sd_to : string;
  sd_edPriv : string;
  sd_xPriv : string;
  sd_recipPub : string
}.

(** [NewWorkItemSender] and [NewResultSender]. *)
Definition NewWorkItemSender (edPriv xPriv recipPub : string) : Sender :=
  mkSender roleOrchestrator roleWorker edPriv xPriv recipPub.
Definition NewResultSender (edPriv xPriv recipPub : string) : Sender :=
  mkSender roleWorker roleOrchestrator edPriv xPriv recipPub.

(** [sealSign]; [now] is the instant [NowRFC3339] formats. *)
Definition sealSign (s : Sender) (rand : option string) (now : Z) (plaintext : string)
  : result TransportErr Envelope :=
  match Seal rand plaintext (sd_xPriv s) (sd_recipPub s) with
  | Err e => Err (TErrEnvelope e)
  | Ok (ciphertext, nonce) =>
    let e := mkEnvelope (sd_from s) (sd_to s) (hex_encode nonce) (FormatRFC3339 now)
               (hex_encode ciphertext) "" in
    match Sign e (sd_edPriv s) with Err e => Err (TErrEnvelope e) | Ok e => Ok e end
  end.

(** [DispatchWorkItem] and [DispatchResult], with the JSON encoder of the
    value sent. *)
Definition Dispatch {A} (marshal : A -> option string) (s : Sender) (rand : option string)
  (now : Z) (a : A) : result TransportErr Envelope :=
  match marshal a with None => Err TErrMarshal | Some p => sealSign s rand now p end.

Record Receiver := mkReceiver {
  rv_expectFrom : string;
  rv_expectTo : string;
  rv_signPub : string;
  rv_recipPriv : string;
  rv_senderPub : string
}.

Definition NewWorkItemReceiver (signPub recipPriv senderPub : string) : Receiver :=
  mkReceiver roleOrchestrator roleWorker signPub recipPriv senderPub.
Definition NewResultReceiver (signPub recipPriv senderPub : string) : Receiver :=
  mkReceiver roleWorker roleOrchestrator signPub recipPriv senderPub.

(** [classify]. *)
Definition classify (e : EnvErr) : string :=
  match e with
  | ErrReplay | ErrStaleTimestamp => "replay_detected"
  | ErrUnknownKey => "unknown_key"
  | ErrBadSignature => "bad_signature"
  | ErrDecryptionFailed => "decryption_failed"
  | _ => "envelope_rejected"
  end.

(** What a receiver shares with others: its replay cache and the audit log
    of rejections (when a sink is configured). *)
Record TransportState := mkTransportState {
  ts_cache : ReplayCache;
  ts_rejects : list string
}.

Definition emitReject (reason : string) (st : TransportState) : TransportState :=
  mkTransportState (ts_cache st) (ts_rejects st ++ [reason]).

(** [verifyOpen]. *)
Definition verifyOpen (r : Receiver) (now : Z) (e : Envelope) (st : TransportState)
  : result TransportErr string * TransportState :=
  let '(res, rc) := VerifyAndOpen now e (rv_signPub r) (ts_cache st) (rv_recipPriv r) (rv_senderPub r) in
  let st := mkTransportState rc (ts_rejects st) in
  match res with
  | Err err => (Err (TErrEnvelope err), emitReject (classify err) st)
  | Ok plaintext =>
    if negb (String.eqb (env_From e) (rv_expectFrom r)) || negb (String.eqb (env_To e) (rv_expectTo r))
    then (Err TErrRoleMismatch, emitReject "role_mismatch" st)
    else (Ok plaintext, st)
  end.

(** [ReceiveWorkItem] and [ReceiveResult], with the JSON decoder. *)
Definition Receive {A} (unmarshal : string -> option A) (r : Receiver) (now : Z) (e : Envelope)
  (st : TransportState) : result TransportErr A * TransportState :=
  let '(res, st) := verifyOpen r now e st in
  match res with
  | Err err => (Err err, st)
  | Ok plaintext =>
    match unmarshal plaintext with
    | None => (Err TErrDecode, emitReject "payload_decode_failed" st)
    | Some a => (Ok a, st)
    end
  end.
End Crypto.

(** ** Runs of the cache *)

(** A cache sees checks and evictions at successive instants. *)
Inductive CacheOp := OpCheck (now : Z) (nonce : string) (ts : Z) | OpEvict (now : Z).

Definition op_time (o : CacheOp) : Z := match o with OpCheck now _ _ => now | OpEvict now => now end.

(** The cache after an operation, and the pair it accepted. *)
Definition cache_op (rc : ReplayCache) (o : CacheOp) : option (string * Z) * ReplayCache :=
  match o with
  | OpEvict now => (None, Evict now rc)
  | OpCheck now nonce ts =>
    let '(err, rc) := Check_nonce now nonce ts rc in
    (match err with None => Some (nonce, ts) | Some _ => None end, rc)
  end.

(** The accepted pairs of a run, in order. *)
Fixpoint accepted (rc : ReplayCache) (ops : list CacheOp) : list (string * Z) :=
  match ops with
  | [] => []
  | o :: ops => let '(a, rc) := cache_op rc o in option_list a ++ accepted rc ops
  end.

(** Clock readings do not go back. *)
Fixpoint clock_from (t : Z) (ops : list CacheOp) : Prop :=
  match ops with [] => True | o :: ops => t <= op_time o /\ clock_from (op_time o) ops end.

Definition window_ok (rc : ReplayCache) : Prop := 0 <= rc_Window rc < 2 ^ 62.

Lemma window_wrap rc : window_ok rc ->
  wrap64 (- rc_Window rc) = - rc_Window rc /\ wrap64 (-2 * rc_Window rc) = -2 * rc_Window rc.
Proof. intros H. unfold window_ok in H. split; apply wrap64_small; unfold int64_min, int64_max; lia. Qed.

Lemma Check_accepts now nonce ts rc rc' :
  window_ok rc -> Check_nonce now nonce ts rc = (None, rc') ->
  now - rc_Window rc <= ts <= now + rc_Window rc /\ rc_nonces rc !! nonce = None /\
  rc' = mkReplayCache (rc_Window rc) (<[nonce := ts]> (rc_nonces (evict now rc))).
Proof.
  intros W. unfold Check_nonce. destruct (window_wrap rc W) as [-> _].
  destruct (_ || _) eqn:E; [done|]. to_prop. destruct (rc_nonces rc !! nonce); [done|].
  intros [= <-]. split_and!; [lia | lia | done | done].
Qed.

Lemma Check_rejects now nonce ts rc e rc' : Check_nonce now nonce ts rc = (Some e, rc') -> rc' = rc.
Proof. unfold Check_nonce. intros H. go_cases; done. Qed.

(** A pair that was accepted is remembered, or lies before the horizon. *)
Definition spent (t : Z) (nonce : string) (ts : Z) (rc : ReplayCache) : Prop :=
  rc_nonces rc !! nonce = Some ts \/ ts + 2 * rc_Window rc < t.

Lemma evict_spent t now nonce ts rc :
  window_ok rc -> t <= now -> spent t nonce ts rc -> spent now nonce ts (evict now rc).
Proof.
  intros W Ht [L|L]; unfold spent; simpl; [|right; lia].
  destruct (window_wrap rc W) as [_ ->].
  destruct (decide (now + -2 * rc_Window rc <= ts)) as [Hle|Hgt]; [left|right; lia].
  by apply map_lookup_filter_Some.
Qed.

Lemma cache_op_spent t o nonce ts rc a rc' :
  window_ok rc -> t <= op_time o -> spent t nonce ts rc -> cache_op rc o = (a, rc') ->
  rc_Window rc' = rc_Window rc /\
  (forall ts', a = Some (nonce, ts') -> ts + rc_Window rc < ts') /\
  (spent (op_time o) nonce ts rc' \/ ts + 2 * rc_Window rc < op_time o).
Proof.
  intros W Ht S. destruct o as [now n ts0|now]; simpl in *.
  - destruct (Check_nonce now n ts0 rc) as [[e|] rc1] eqn:E; intros [= <- <-].
    + apply Check_rejects in E as ->. split_and!; try done.
      destruct S as [S|S]; [left; by left | right; lia].
    + apply Check_accepts in E as (F & Nn & ->); [|done]. simpl. split_and!; [done | |].
      * intros ts' [= -> ->]. destruct S as [S|S]; [congruence | lia].
      * pose proof (evict_spent t now nonce ts rc W Ht S) as [S'|S']; [|right; simpl in S'; lia].
        left. left. simpl in *. destruct (decide (n = nonce)) as [->|Hn].
        -- apply map_lookup_filter_Some in S' as [S' _]. congruence.
        -- by rewrite lookup_insert_ne.
  - intros [= <- <-]. split_and!; try done. left. by eapply evict_spent.
Qed.

Lemma accepted_after_spent t nonce ts rc ops :
  window_ok rc -> clock_from t ops -> spent t nonce ts rc ->
  forall ts', (nonce, ts') ∈ accepted rc ops -> ts + rc_Window rc < ts'.
Proof.
  revert t rc. induction ops as [|o ops IH]; intros t rc W Hc S ts' Hin; simpl in *.
  - by apply not_elem_of_nil in Hin.
  - destruct Hc as [Ht Hc]. destruct (cache_op rc o) as [a rc'] eqn:E.
    destruct (cache_op_spent t o nonce ts rc a rc' W Ht S E) as (Ew & Ha & Hs).
    apply elem_of_app in Hin as [Hin|Hin].
    + destruct a as [p|]; simpl in Hin; [|by apply not_elem_of_nil in Hin].
      apply list_elem_of_singleton in Hin as <-. by apply Ha.
    + assert (S' : spent (op_time o) nonce ts rc').
      { destruct Hs as [?|?]; [done|]. right. rewrite Ew. lia. }
      assert (W' : window_ok rc') by (unfold window_ok in *; by rewrite Ew).
      rewrite <- Ew. by eapply IH.
Qed.

(** In every history of checks and evictions under a clock that does not go back, a
    nonce that was accepted with one timestamp is accepted again only with a
    timestamp more than the window later. *)
Theorem accepted_message_is_never_replayed rc t ops pre nonce ts post :
  window_ok rc -> clock_from t ops -> accepted rc ops = pre ++ (nonce, ts) :: post ->
  forall ts', (nonce, ts') ∈ post -> ts + rc_Window rc < ts'.
Proof.
  revert rc t pre. induction ops as [|o ops IH]; intros rc t pre W Hc E; simpl in *.
  - by destruct pre.
  - destruct Hc as [Ht Hc]. destruct (cache_op rc o) as [a rc'] eqn:Eo.
    assert (Ew : rc_Window rc' = rc_Window rc).
    { unfold cache_op, Check_nonce in Eo. go_cases; done. }
    assert (W' : window_ok rc') by (unfold window_ok in *; by rewrite Ew).
    rewrite <- Ew. destruct a as [p|]; simpl in E; [|by eapply IH].
    destruct pre as [|q pre]; injection E as -> E; [|by eapply IH].
    rewrite <- E. apply (accepted_after_spent (op_time o)); [done..|].
    destruct o as [now n ts0|now]; [|done]. simpl in Eo.
    destruct (Check_nonce now n ts0 rc) as [[e|] rc1] eqn:Ek; [done|]. injection Eo as -> -> ->.
    apply Check_accepts in Ek as (_ & _ & ->); [|done]. left. simpl. apply lookup_insert_eq.
Qed.

Lemma accepted_message_is_never_replayed_witness :
  let rc := NewReplayCache 10 in
  let ops := [OpCheck 100 "n" 100; OpCheck 105 "n" 100; OpEvict 121; OpCheck 122 "n" 122] in
  accepted rc ops = [("n", 100); ("n", 122)] /\ forall ts', ("n", ts') ∈ [("n", 122)] -> 110 < ts'.
Proof.
  intros rc ops. split; [reflexivity|].
  apply (accepted_message_is_never_replayed rc 0 ops [] "n" 100 [("n", 122)]).
  - vm_compute. split; congruence.
  - repeat split; vm_compute; congruence.
  - reflexivity.
Defined.

(** ** Signatures *)

Definition ascii_env (e : Envelope) : bool :=
  is_ascii (env_From e) && is_ascii (env_To e) && is_ascii (env_Nonce e) &&
  is_ascii (env_TS e) && is_ascii (env_Payload e).

Lemma json_field_inj name s t u v :
  is_ascii s = true -> is_ascii t = true ->
  json_field name s +:+ u = json_field name t +:+ v -> s = t /\ u = v.
Proof.
  intros Hs Ht. unfold json_field. rewrite !str_app_assoc. intros E%str_app_inv_head.
  by apply json_string_inj_app in E.
Qed.

(** On envelopes with ASCII fields the signed bytes agree exactly when all fields
    but the signature agree, so a signature covers every field and no field boundary
    can be shifted. *)
Theorem signing_bytes_bind_every_field e1 e2 :
  ascii_env e1 = true -> ascii_env e2 = true ->
  signingBytes e1 = signingBytes e2 <-> set_sig e1 "" = set_sig e2 "".
Proof.
  unfold ascii_env. intros H1 H2. to_prop. split.
  - unfold signingBytes. intros E. apply str_app_inv_head in E.
    apply json_field_inj in E as [E1 E]; [|done..]. apply str_app_inv_head in E.
    apply json_field_inj in E as [E2 E]; [|done..]. apply str_app_inv_head in E.
    apply json_field_inj in E as [E3 E]; [|done..]. apply str_app_inv_head in E.
    apply json_field_inj in E as [E4 E]; [|done..]. apply str_app_inv_head in E.
    apply json_field_inj in E as [E5 _]; [|done..].
    unfold set_sig. congruence.
  - unfold set_sig, signingBytes. intros [= -> -> -> -> ->]. done.
Qed.

Definition demo_env1 : Envelope := mkEnvelope "a" "b," "0" "1" "ff" "".
Definition demo_env2 : Envelope := mkEnvelope "a" "b" ",0" "1" "ff" "".

Lemma signing_bytes_bind_every_field_witness : signingBytes demo_env1 <> signingBytes demo_env2.
Proof.
  intros E. apply (signing_bytes_bind_every_field demo_env1 demo_env2) in E; [|reflexivity..].
  discriminate.
Defined.

Section CryptoFacts.
Variables (ed_sign : string -> string -> string)
          (ed_verify : string -> string -> string -> bool)
          (box_seal : string -> string -> string -> string -> string)
          (box_open : string -> string -> string -> string -> option string)
          (ParseRFC3339 : string -> option Z) (Sscanf_d : string -> option Z)
          (FormatRFC3339 : Z -> string).

(** An opened envelope was signed by the key, fresh and new; the signature is
    checked before the cache is touched, and the cache before decryption. *)
Definition opened (now : Z) (e : Envelope) (pub : string) (rc rc' : ReplayCache)
  (recipPriv senderPub plaintext : string) : Prop :=
  VerifySig ed_verify e pub = None /\
  exists nonce ts ciphertext,
    hex_decode (env_Nonce e) = Some nonce /\ String.length nonce = 24%nat /\
    parse_ts ParseRFC3339 Sscanf_d (env_TS e) = Some ts /\
    Check_nonce now (env_Nonce e) ts rc = (None, rc') /\
    hex_decode (env_Payload e) = Some ciphertext /\
    box_open ciphertext nonce senderPub recipPriv = Some plaintext.

Lemma VerifyAndOpen_spec now e pub rc recipPriv senderPub :
  let '(res, rc') := VerifyAndOpen ed_verify box_open ParseRFC3339 Sscanf_d now e pub rc recipPriv senderPub in
  match res with
  | Ok p => opened now e pub rc rc' recipPriv senderPub p
  | Err err => rc' = rc \/
      (VerifySig ed_verify e pub = None /\ (err = ErrDecryptionFailed \/ err = ErrPayloadHex) /\
       exists ts, parse_ts ParseRFC3339 Sscanf_d (env_TS e) = Some ts /\
         Check_nonce now (env_Nonce e) ts rc = (None, rc'))
  end.
Proof.
  unfold VerifyAndOpen. destruct (VerifySig ed_verify e pub) eqn:V; [by left|].
  destruct (hex_decode (env_Nonce e)) as [nonce|] eqn:N; [|by left].
  destruct (Nat.eqb_spec (String.length nonce) 24) as [L|]; simpl; [|by left].
  destruct (parse_ts _ _ (env_TS e)) as [ts|] eqn:T; [|by left].
  destruct (Check_nonce now (env_Nonce e) ts rc) as [[err|] rc'] eqn:K.
  - left. by eapply Check_rejects.
  - destruct (hex_decode (env_Payload e)) as [c|] eqn:P; [|right; eauto 8].
    unfold Open. destruct (box_open c nonce senderPub recipPriv) as [p|] eqn:O; [|right; eauto 8].
    split; [done|]. exists nonce, ts, c. done.
Qed.
End CryptoFacts.


(** ** Work items arrive *)

Section Delivery.
Variables (ed_sign : string -> string -> string)
          (ed_verify : string -> string -> string -> bool)
          (box_seal : string -> string -> string -> string -> string)
          (box_open : string -> string -> string -> string -> option string)
          (ParseRFC3339 : string -> option Z) (Sscanf_d : string -> option Z)
          (FormatRFC3339 : Z -> string).

(** What the primitives promise to a pair of key owners. *)
Record keys_agree (edPriv signPub senderPriv senderPub recipPriv recipPub : string) : Prop := {
  ka_sizes : String.length edPriv = 64%nat /\ String.length signPub = 32%nat;
  ka_sig_size : forall m, String.length (ed_sign edPriv m) = 64%nat;
  ka_verify : forall m, ed_verify signPub m (ed_sign edPriv m) = true;
  ka_open : forall p n, box_open (box_seal p n recipPub senderPriv) n senderPub recipPriv = Some p
}.

Lemma VerifySig_Sign e edPriv signPub senderPriv senderPub recipPriv recipPub :
  keys_agree edPriv signPub senderPriv senderPub recipPriv recipPub ->
  exists e', Sign ed_sign e edPriv = Ok e' /\ VerifySig ed_verify e' signPub = None /\
    set_sig e' (env_Sig e) = e.
Proof.
  intros [[S1 S2] S3 S4 _]. unfold Sign. rewrite S1. simpl. eexists. split; [reflexivity|].
  split; [|by destruct e]. unfold VerifySig. rewrite S2. simpl. rewrite hex_decode_encode, S3. simpl.
  change (signingBytes (set_sig e (hex_encode (ed_sign edPriv (signingBytes e))))) with (signingBytes e).
  by rewrite S4.
Qed.
End Delivery.

(** A value sent by a sender arrives at the receiver that expects its roles. *)
Lemma wire_round_trip {A} (marshal : A -> option string) (unmarshal : string -> option A)
  ed_sign ed_verify box_seal box_open ParseRFC3339 Sscanf_d FormatRFC3339
  edPriv signPub senderPriv senderPub recipPriv recipPub from to nonce sent now (a : A) p rc rejects :
  keys_agree ed_sign ed_verify box_seal box_open edPriv signPub senderPriv senderPub recipPriv recipPub ->
  ParseRFC3339 (FormatRFC3339 sent) = Some (sent / 1000000000 * 1000000000) ->
  marshal a = Some p -> unmarshal p = Some a ->
  String.length nonce = 24%nat -> rc_nonces rc !! hex_encode nonce = None -> window_ok rc ->
  now - rc_Window rc <= sent / 1000000000 * 1000000000 <= now + rc_Window rc ->
  exists e rc',
    Dispatch ed_sign box_seal FormatRFC3339 marshal (mkSender from to edPriv senderPriv recipPub)
      (Some nonce) sent a = Ok e /\
    Receive ed_verify box_open ParseRFC3339 Sscanf_d unmarshal
      (mkReceiver from to signPub recipPriv senderPub) now e (mkTransportState rc rejects)
    = (Ok a, mkTransportState rc' rejects) /\
    Receive ed_verify box_open ParseRFC3339 Sscanf_d unmarshal
      (mkReceiver from to signPub recipPriv senderPub) now e (mkTransportState rc' rejects)
    = (Err (TErrEnvelope ErrReplay), mkTransportState rc' (rejects ++ ["replay_detected"])).
Proof.
  intros K HT HM HU HN Hn HW Hf. unfold Dispatch, sealSign, Seal. rewrite HM. simpl.
  set (e := mkEnvelope from to (hex_encode nonce) (FormatRFC3339 sent)
              (hex_encode (box_seal p nonce recipPub senderPriv)) "").
  destruct (VerifySig_Sign _ _ _ _ e edPriv signPub senderPriv senderPub recipPriv recipPub K)
    as (e' & -> & HV & Hs).
  assert (Hf2 : forall f : Envelope -> string, (forall x s, f (set_sig x s) = f x) -> f e' = f e).
  { intros f Hfx. rewrite <- Hs. by rewrite Hfx. }
  assert (Hfresh : forall n : gmap string Z,
    (sent / 1000000000 * 1000000000 <? now + wrap64 (- rc_Window (mkReplayCache (rc_Window rc) n))) ||
    (now + rc_Window rc <? sent / 1000000000 * 1000000000) = false).
  { intros n. simpl. destruct (window_wrap rc HW) as [-> _]. apply orb_false_iff.
    split; apply Z.ltb_ge; lia. }
  exists e', (mkReplayCache (rc_Window rc)
    (<[hex_encode nonce := sent / 1000000000 * 1000000000]> (rc_nonces (evict now rc)))).
  unfold Receive, verifyOpen, VerifyAndOpen. cbn [ts_cache ts_rejects rv_signPub rv_recipPriv
    rv_senderPub rv_expectFrom rv_expectTo].
  rewrite HV, (Hf2 env_Nonce), (Hf2 env_TS), (Hf2 env_Payload), (Hf2 env_From), (Hf2 env_To) by done.
  cbn [e env_Nonce env_TS env_Payload env_From env_To].
  rewrite !hex_decode_encode, HN. simpl negb. cbv iota. unfold parse_ts. rewrite HT.
  unfold Check_nonce. cbn [rc_Window rc_nonces].
  pose proof (Hfresh ∅) as Hf1. cbn [rc_Window] in Hf1. rewrite Hf1, Hn, lookup_insert_eq.
  unfold Open. rewrite (ka_open _ _ _ _ _ _ _ _ _ _ K). simpl. rewrite !String.eqb_refl. simpl. rewrite HU. done.
Qed.

(** A work item that is sealed, signed and received in time with matching keys and a
    fresh nonce is recovered unchanged, and the same envelope received again is
    rejected as a replay and audited. *)
Theorem work_item_round_trip {A} (marshal : A -> option string) (unmarshal : string -> option A)
  ed_sign ed_verify box_seal box_open ParseRFC3339 Sscanf_d FormatRFC3339
  edPriv signPub senderPriv senderPub recipPriv recipPub nonce sent now (a : A) p rc rejects :
  keys_agree ed_sign ed_verify box_seal box_open edPriv signPub senderPriv senderPub recipPriv recipPub ->
  ParseRFC3339 (FormatRFC3339 sent) = Some (sent / 1000000000 * 1000000000) ->
  marshal a = Some p -> unmarshal p = Some a ->
  String.length nonce = 24%nat -> rc_nonces rc !! hex_encode nonce = None -> window_ok rc ->
  now - rc_Window rc <= sent / 1000000000 * 1000000000 <= now + rc_Window rc ->
  exists e rc',
    Dispatch ed_sign box_seal FormatRFC3339 marshal (NewWorkItemSender edPriv senderPriv recipPub)
      (Some nonce) sent a = Ok e /\
    Receive ed_verify box_open ParseRFC3339 Sscanf_d unmarshal
      (NewWorkItemReceiver signPub recipPriv senderPub) now e (mkTransportState rc rejects)
    = (Ok a, mkTransportState rc' rejects) /\
    Receive ed_verify box_open ParseRFC3339 Sscanf_d unmarshal
      (NewWorkItemReceiver signPub recipPriv senderPub) now e (mkTransportState rc' rejects)
    = (Err (TErrEnvelope ErrReplay), mkTransportState rc' (rejects ++ ["replay_detected"])).
Proof. apply wire_round_trip. Qed.

(** Toy primitives: a constant signature and a transparent box. *)
Definition pad (n : nat) : string := Nat.iter n (String "k"%char) "".

Lemma work_item_round_trip_witness :
  exists e rc',
    Dispatch (fun _ _ => pad 64) (fun p _ _ _ => p) (fun t => FormatInt (t / 1000000000)) Some
      (NewWorkItemSender (pad 64) "x" "y") (Some (pad 24)) 5000000007 "task" = Ok e /\
    Receive (fun _ _ s => String.eqb s (pad 64)) (fun c _ _ _ => Some c)
      (fun s => option_map (fun n => n * 1000000000) (ParseInt s)) (fun _ => None) Some
      (NewWorkItemReceiver (pad 32) "p" "q") 6000000000 e (mkTransportState (NewReplayCache 0) [])
    = (Ok "task", mkTransportState rc' []).
Proof.
  edestruct (work_item_round_trip (A := string) Some Some (fun _ _ => pad 64)
    (fun _ _ s => String.eqb s (pad 64)) (fun p _ _ _ => p) (fun c _ _ _ => Some c)
    (fun s => option_map (fun n => n * 1000000000) (ParseInt s)) (fun _ => None)
    (fun t => FormatInt (t / 1000000000)) (pad 64) (pad 32) "x" "q" "p" "y" (pad 24)
    5000000007 6000000000 "task" "task" (NewReplayCache 0) []) as (e & rc' & H1 & H2 & _).
  - by split.
  - reflexivity.
  - reflexivity.
  - reflexivity.
  - reflexivity.
  - reflexivity.
  - vm_compute. split; congruence.
  - vm_compute. split; congruence.
  - exists e, rc'. split; [exact H1 | exact H2].
Defined.
