(* ===== verification/Ingestion.v ===== *)
(** * The ingestion boundary ([internal/ingestion/ingestion.go])

    Attacker-reachable content and tool calls become candidates, a guard
    decides on each, and the broker releases only what was allowed. [url.Parse],
    the JSON compactor and SHA-256 are parameters. *)

From stdpp Require Import base gmap strings list.
From Stdlib Require Import ZArith Lia.
From S2P Require Import Prelude GoStrings.

(** ** Data *)

Record Provenance := mkProvenance { pv_TaskID : string; pv_Executor : string }.

Inductive CandidateKind := CandidateKindContent | CandidateKindToolCall.

Definition CandidateKind_string (k : CandidateKind) : string :=
  match k with CandidateKindContent => "content" | CandidateKindToolCall => "tool-call" end.

(** [ContentInput] and [ContentCandidate] have the same fields; [RetrievedAt]
    is kept as its RFC3339Nano text. *)
Record ContentCandidate := mkContent {
  cc_ID : string;
  cc_Content : string;
  cc_SourceURI : string;
  cc_MediaType : string;
  cc_RetrievedAt : string;
  cc_Provenance : Provenance
}.

(** [ToolCallInput] and [ToolCallCandidate]. *)
Record ToolCallCandidate := mkToolCall {
  tc_ID : string;
  tc_ToolName : string;
  tc_Arguments : string;
  tc_TargetURI : string;
  tc_Provenance : Provenance
}.

Inductive IngestErr :=
| ErrBlankSourceURI
| ErrUnsupportedSourceURI
| ErrBlankToolName
| ErrMalformedToolArguments
| ErrUnsupportedTargetURI.

(** [DecisionOutcome]; any other string is [DecisionOther]. *)
Inductive DecisionOutcome := DecisionAllow | DecisionBlock | DecisionQuarantine | DecisionOther (s : string).

Record Decision := mkDecision {
  dc_CandidateID : string;
  dc_Kind : CandidateKind;
  dc_Outcome : DecisionOutcome;
  dc_Reason : string;
  dc_Metadata : gmap string string
}.

#[export] Instance CandidateKind_eq_dec : EqDecision CandidateKind.
Proof. solve_decision. Defined.
#[export] Instance DecisionOutcome_eq_dec : EqDecision DecisionOutcome.
Proof. solve_decision. Defined.

(** What [url.Parse] yields: scheme, host and the text of [URL.String]. *)
Record ParsedURL := mkParsedURL { pu_Scheme : string; pu_Host : string; pu_String : string }.

(** ** Candidates *)

Section Candidates.
Variables (uni : string -> string) (url_Parse : string -> option ParsedURL)
          (json_Compact : string -> option string) (sha256_hex12 : list string -> string).

Definition normalizeProvenance (p : Provenance) : Provenance :=
  mkProvenance (TrimSpace (pv_TaskID p)) (TrimSpace (pv_Executor p)).

(** [normalizeURI]: http or https with a host. *)
Definition normalizeURI (raw : string) (unsupported : IngestErr) : result IngestErr string :=
  match url_Parse raw with
  | None => Err unsupported
  | Some u =>
    if String.eqb (pu_Scheme u) "" then Err unsupported
    else
      let scheme := ToLower uni (pu_Scheme u) in
      if String.eqb scheme "http" || String.eqb scheme "https" then
        if String.eqb (pu_Host u) "" then Err unsupported else Ok (pu_String u)
      else Err unsupported
  end.

Definition normalizeRequiredURI (raw : string) (blankErr unsupported : IngestErr)
  : result IngestErr string :=
  let trimmed := TrimSpace raw in
  if String.eqb trimmed "" then Err blankErr else normalizeURI trimmed unsupported.

Definition normalizeOptionalURI (raw : string) (unsupported : IngestErr) : result IngestErr string :=
  let trimmed := TrimSpace raw in
  if String.eqb trimmed "" then Ok "" else normalizeURI trimmed unsupported.

(** [normalizeJSON]; [json_Compact] is [json.Valid] and [json.Compact]. *)
Definition normalizeJSON (raw : string) : result IngestErr string :=
  let trimmed := TrimSpace raw in
  if String.eqb trimmed "" then Err ErrMalformedToolArguments
  else match json_Compact trimmed with None => Err ErrMalformedToolArguments | Some s => Ok s end.

(** [deriveID]: the kind and twelve bytes of the hash of the chunks. *)
Definition deriveID (kind : CandidateKind) (chunks : list string) : string :=
  CandidateKind_string kind +:+ "-" +:+ sha256_hex12 (CandidateKind_string kind :: chunks).

Definition NewContentCandidate (input : ContentCandidate) : result IngestErr ContentCandidate :=
  let? sourceURI := normalizeRequiredURI (cc_SourceURI input) ErrBlankSourceURI ErrUnsupportedSourceURI in
  let mediaType := TrimSpace (cc_MediaType input) in
  let mediaType := if String.eqb mediaType "" then "application/octet-stream" else mediaType in
  let p := normalizeProvenance (cc_Provenance input) in
  let id := if String.eqb (cc_ID input) ""
            then deriveID CandidateKindContent
                   [cc_Content input; sourceURI; mediaType; cc_RetrievedAt input; pv_TaskID p; pv_Executor p]
            else cc_ID input in
  Ok (mkContent id (cc_Content input) sourceURI mediaType (cc_RetrievedAt input) p).

Definition NewToolCallCandidate (input : ToolCallCandidate) : result IngestErr ToolCallCandidate :=
  let toolName := TrimSpace (tc_ToolName input) in
  if String.eqb toolName "" then Err ErrBlankToolName
  else
    let? arguments := normalizeJSON (tc_Arguments input) in
    let? targetURI := normalizeOptionalURI (tc_TargetURI input) ErrUnsupportedTargetURI in
    let p := normalizeProvenance (tc_Provenance input) in
    let id := if String.eqb (tc_ID input) ""
              then deriveID CandidateKindToolCall
                     [arguments; toolName; targetURI; pv_TaskID p; pv_Executor p]
              else tc_ID input in
    Ok (mkToolCall id toolName arguments targetURI p).
End Candidates.

(** ** The broker *)

(** [validDecision]. *)
Definition validDecision (d : Decision) (id : string) (kind : CandidateKind) : bool :=
  if negb (String.eqb (dc_CandidateID d) id) || negb (bool_decide (dc_Kind d = kind)) then false
  else match dc_Outcome d with DecisionOther _ => false | _ => true end.

(** [failClosed]. *)
Definition failClosed (id : string) (kind : CandidateKind) (err : string) : Decision :=
  mkDecision id kind DecisionBlock ("fail closed: " +:+ err) ∅.

(** What the [select] of [decide] observes first. *)
Inductive GuardAnswer :=
| CtxDone (err : string)
| GuardReturned (r : result string Decision).

(** [Broker.decide]: [entry_err] is [ctx.Err()] when the call starts, [answer]
    what arrives first. [cloneDecision] copies the metadata. *)
Definition decide (entry_err : option string) (id : string) (kind : CandidateKind)
  (answer : GuardAnswer) : Decision :=
  match entry_err with
  | Some e => failClosed id kind e
  | None =>
    match answer with
    | CtxDone e => failClosed id kind e
    | GuardReturned (Err e) => failClosed id kind e
    | GuardReturned (Ok d) =>
      if negb (validDecision d id kind) then failClosed id kind "malformed guard decision" else d
    end
  end.

(** The answer of a guard that may be nil, or of a context that expired. *)
Definition guard_answer {A} (guard : option (A -> result string Decision)) (timed_out : option string)
  (c : A) : GuardAnswer :=
  match timed_out with
  | Some e => CtxDone e
  | None =>
    match guard with
    | None => GuardReturned (Err "guard unavailable")
    | Some g => GuardReturned (g c)
    end
  end.

Definition ReviewContent guard (entry_err timed_out : option string) (c : ContentCandidate)
  : ContentCandidate * Decision :=
  (c, decide entry_err (cc_ID c) CandidateKindContent (guard_answer guard timed_out c)).

Definition ReviewToolCall guard (entry_err timed_out : option string) (c : ToolCallCandidate)
  : ToolCallCandidate * Decision :=
  (c, decide entry_err (tc_ID c) CandidateKindToolCall (guard_answer guard timed_out c)).

(** [ContentReview.Release] and [ToolCallReview.Release]. *)
Definition ReleaseContent (r : ContentCandidate * Decision) : option ContentCandidate :=
  if negb (validDecision r.2 (cc_ID r.1) CandidateKindContent) ||
     negb (bool_decide (dc_Outcome r.2 = DecisionAllow)) then None else Some r.1.

Definition ReleaseToolCall (r : ToolCallCandidate * Decision) : option ToolCallCandidate :=
  if negb (validDecision r.2 (tc_ID r.1) CandidateKindToolCall) ||
     negb (bool_decide (dc_Outcome r.2 = DecisionAllow)) then None else Some r.1.

(** ** The broker fails closed *)

Lemma validDecision_spec d id kind :
  validDecision d id kind = true <->
  dc_CandidateID d = id /\ dc_Kind d = kind /\ (forall s, dc_Outcome d <> DecisionOther s).
Proof.
  unfold validDecision. destruct (String.eqb_spec (dc_CandidateID d) id); simpl; [|naive_solver].
  case_bool_decide; simpl; [|naive_solver]. destruct (dc_Outcome d); naive_solver.
Qed.

Lemma decide_valid entry_err id kind answer : validDecision (decide entry_err id kind answer) id kind = true.
Proof.
  assert (F : forall e, validDecision (failClosed id kind e) id kind = true)
    by (intros e; by apply validDecision_spec).
  unfold decide. destruct entry_err; [done|]. destruct answer as [e|[d|e]]; try done.
  destruct (validDecision d id kind) eqn:V; simpl; done.
Qed.

Lemma decide_allow entry_err id kind answer :
  dc_Outcome (decide entry_err id kind answer) = DecisionAllow ->
  entry_err = None /\ exists d, answer = GuardReturned (Ok d) /\ dc_CandidateID d = id /\
    dc_Kind d = kind /\ dc_Outcome d = DecisionAllow.
Proof.
  unfold decide. destruct entry_err; [done|]. destruct answer as [e|[d|e]]; try done.
  destruct (validDecision d id kind) eqn:V; [|done]. simpl. intros A. split; [done|].
  apply validDecision_spec in V as (V1 & V2 & _). eauto 8.
Qed.

(** A review releases content exactly when the guard answered in time, without
    error, with an allow decision naming this candidate and its kind; what is
    released is the candidate that was reviewed. *)
Theorem release_only_what_the_guard_allowed guard entry_err timed_out (c c' : ContentCandidate) :
  ReleaseContent (ReviewContent guard entry_err timed_out c) = Some c' <->
  c' = c /\ entry_err = None /\ timed_out = None /\
  exists g d, guard = Some g /\ g c = Ok d /\ dc_CandidateID d = cc_ID c /\
    dc_Kind d = CandidateKindContent /\ dc_Outcome d = DecisionAllow.
Proof.
  unfold ReleaseContent, ReviewContent. simpl. rewrite decide_valid. simpl. split.
  - case_bool_decide as A; simpl; [|done]. intros [= <-].
    apply decide_allow in A as (-> & d & Ha & H1 & H2 & H3). unfold guard_answer in Ha.
    destruct timed_out; [done|]. destruct guard as [g|]; [|done]. injection Ha as Ha.
    split_and!; try done. by exists g, d.
  - intros (-> & -> & -> & g & d & -> & Hg & H1 & H2 & H3). simpl. rewrite Hg.
    replace (validDecision d (cc_ID c) CandidateKindContent) with true;
      [|symmetry; apply validDecision_spec; split_and!; [done | done | congruence]].
    simpl. by rewrite bool_decide_eq_true_2.
Qed.

Lemma release_only_what_the_guard_allowed_witness :
  let c := mkContent "c1" "text" "https://h/" "text/plain" "" (mkProvenance "" "") in
  ReleaseContent (ReviewContent (Some (fun _ => Ok (mkDecision "c1" CandidateKindContent DecisionAllow "" ∅)))
    None None c) = Some c.
Proof.
  intros c. apply release_only_what_the_guard_allowed. split_and!; try reflexivity.
  eexists _, _. split_and!; reflexivity.
Defined.

(** ** The armor adapter ([internal/armor/guard.go]) *)

Module Armor.
Record Finding := mkFinding { fd_Category : string; fd_Severity : string; fd_Message : string }.

Record Request := mkRequest {
  rq_CandidateID : string;
  rq_Kind : string;
  rq_Content : string;
  rq_SourceURI : string;
  rq_MediaType : string;
  rq_ToolName : string;
  rq_Arguments : string;
  rq_TargetURI : string;
  rq_Provenance : gmap string string
}.

Record Response := mkResponse {
  rp_Decision : string;
  rp_Reason : string;
  rp_Findings : list Finding;
  rp_Warnings : list string;
  rp_Metadata : gmap string string
}.

Definition provenanceMetadata (p : Provenance) : gmap string string :=
  let m : gmap string string := ∅ in
  let m := if blank (pv_TaskID p) then m else <["task_id" := TrimSpace (pv_TaskID p)]> m in
  if blank (pv_Executor p) then m else <["executor" := TrimSpace (pv_Executor p)]> m.

(** [sortedUnique]: sorted, with runs of equal strings collapsed. *)
Fixpoint dedup (previous : option string) (l : list string) : list string :=
  match l with
  | [] => []
  | x :: l =>
    if bool_decide (previous = Some x) then dedup previous l else x :: dedup (Some x) l
  end.

Definition sortedUnique (l : list string) : list string := dedup None (sort_by String.ltb l).

Definition trimmed_nonblank (l : list string) : list string :=
  List.filter (fun s => negb (String.eqb s "")) (map TrimSpace l).

Definition normalizeList (l : list string) : list string := sortedUnique (trimmed_nonblank l).

Definition addWarnings (m : gmap string string) (warnings : list string) : gmap string string :=
  match normalizeList warnings with
  | [] => m
  | l => <["warnings" := Join "," l]> m
  end.

Definition addFindings (m : gmap string string) (fs : list Finding) : gmap string string :=
  match fs with
  | [] => m
  | _ =>
    let cats := trimmed_nonblank (map fd_Category fs) in
    let sevs := trimmed_nonblank (map fd_Severity fs) in
    let m := match cats with
             | [] => m | _ => <["finding_categories" := Join "," (sortedUnique cats)]> m end in
    match sevs with
    | [] => m | _ => <["finding_severities" := Join "," (sortedUnique sevs)]> m end
  end.

Definition reasonOrDefault (reason fallback : string) : string :=
  if negb (blank reason) then TrimSpace reason
  else if negb (blank fallback) then TrimSpace fallback
  else "armor finding".

Fixpoint firstFindingMessage (fs : list Finding) : string :=
  match fs with
  | [] => ""
  | f :: fs =>
    if negb (blank (fd_Message f)) then TrimSpace (fd_Message f)
    else if negb (blank (fd_Category f)) then TrimSpace (fd_Category f)
    else firstFindingMessage fs
  end.

Definition failClosedWithMetadata (id : string) (kind : CandidateKind) (reason : string)
  (m : gmap string string) : Decision :=
  mkDecision id kind DecisionBlock ("fail closed: " +:+ TrimSpace reason) m.

Definition findingDecision (id : string) (kind : CandidateKind) (o : DecisionOutcome)
  (r : Response) (m : gmap string string) : Decision :=
  mkDecision id kind o (reasonOrDefault (rp_Reason r) (firstFindingMessage (rp_Findings r))) m.

Section Guard.
Variable uni : string -> string.

(** [mapResponse]. *)
Definition mapResponse (id : string) (kind : CandidateKind) (r : Response) : Decision :=
  let m := addFindings (addWarnings (rp_Metadata r) (rp_Warnings r)) (rp_Findings r) in
  let d := ToLower uni (TrimSpace (rp_Decision r)) in
  if bool_decide (d ∈ ["allow"; "ok"; "clean"; "pass"]) then
    match rp_Findings r with
    | _ :: _ => findingDecision id kind DecisionBlock r m
    | [] => mkDecision id kind DecisionAllow "" m
    end
  else if bool_decide (d ∈ ["block"; "deny"; "flag"; "flagged"]) then
    findingDecision id kind DecisionBlock r m
  else if String.eqb d "quarantine" then findingDecision id kind DecisionQuarantine r m
  else if bool_decide (d ∈ ["error"; "fail"; "failed"]) then
    failClosedWithMetadata id kind (reasonOrDefault (rp_Reason r) "armor error") m
  else failClosedWithMetadata id kind "malformed armor decision" m.

(** [Guard.decide]: [before] and [after] are [ctx.Err()] around the run of
    the external process, [runner] is nil when [None]. *)
Definition decide (runner : option (Request -> result string Response)) (before after : option string)
  (id : string) (kind : CandidateKind) (rq : Request) : Decision :=
  match runner with
  | None => failClosedWithMetadata id kind "armor unavailable" ∅
  | Some run =>
    match before with
    | Some e => failClosedWithMetadata id kind e ∅
    | None =>
      match run rq with
      | Err e => failClosedWithMetadata id kind e ∅
      | Ok r =>
        match after with
        | Some e => failClosedWithMetadata id kind e ∅
        | None => mapResponse id kind r
        end
      end
    end
  end.

(** The requests of [DecideContent] and [DecideToolCall]. *)
Definition content_request (c : ContentCandidate) : Request :=
  mkRequest (cc_ID c) "content" (cc_Content c) (cc_SourceURI c) (cc_MediaType c) "" "" ""
    (provenanceMetadata (cc_Provenance c)).

Definition tool_request (c : ToolCallCandidate) : Request :=
  mkRequest (tc_ID c) "tool-call" "" "" "" (tc_ToolName c) (tc_Arguments c) (tc_TargetURI c)
    (provenanceMetadata (tc_Provenance c)).

Definition DecideContent runner (before after : option string) (c : ContentCandidate)
  : result string Decision :=
  Ok (decide runner before after (cc_ID c) CandidateKindContent (content_request c)).

Definition DecideToolCall runner (before after : option string) (c : ToolCallCandidate)
  : result string Decision :=
  Ok (decide runner before after (tc_ID c) CandidateKindToolCall (tool_request c)).

Lemma decide_id runner before after id kind rq :
  dc_CandidateID (decide runner before after id kind rq) = id /\
  dc_Kind (decide runner before after id kind rq) = kind.
Proof. unfold decide, mapResponse. repeat case_match; done. Qed.

Lemma decide_allows runner before after id kind rq :
  dc_Outcome (decide runner before after id kind rq) = DecisionAllow <->
  before = None /\ after = None /\ exists run r, runner = Some run /\ run rq = Ok r /\
    rp_Findings r = [] /\ ToLower uni (TrimSpace (rp_Decision r)) ∈ ["allow"; "ok"; "clean"; "pass"].
Proof.
  unfold decide. split.
  - destruct runner as [run|]; [|done]. destruct before; [done|].
    destruct (run rq) as [r|e] eqn:E; [|done]. destruct after; [done|]. unfold mapResponse.
    case_bool_decide as A; [|repeat case_match; done].
    destruct (rp_Findings r) eqn:F; [|done]. eauto 10.
  - intros (-> & -> & run & r & -> & E & F & A). rewrite E. unfold mapResponse.
    rewrite bool_decide_eq_true_2 by done. by rewrite F.
Qed.
End Guard.
End Armor.

(** Content reviewed through the armor guard is released exactly when the guard
    process answered without error in time, reported no findings, and gave one of
    the four clean decisions; it is then released unchanged. *)
Theorem content_enters_only_when_armor_is_clean uni runner before after entry_err timed_out
  (c c' : ContentCandidate) :
  ReleaseContent (ReviewContent (Some (Armor.DecideContent uni runner before after))
    entry_err timed_out c) = Some c' <->
  c' = c /\ entry_err = None /\ timed_out = None /\ before = None /\ after = None /\
  exists run r, runner = Some run /\ run (Armor.content_request c) = Ok r /\
    Armor.rp_Findings r = [] /\
    ToLower uni (TrimSpace (Armor.rp_Decision r)) ∈ ["allow"; "ok"; "clean"; "pass"].
Proof.
  pose proof (Armor.decide_id uni runner before after (cc_ID c) CandidateKindContent
    (Armor.content_request c)) as [I1 I2].
  pose proof (Armor.decide_allows uni runner before after (cc_ID c) CandidateKindContent
    (Armor.content_request c)) as A.
  set (d := Armor.decide uni runner before after (cc_ID c) CandidateKindContent
    (Armor.content_request c)) in *.
  unfold ReleaseContent, ReviewContent. simpl. rewrite decide_valid. simpl.
  unfold guard_answer, Armor.DecideContent. fold d. split.
  - case_bool_decide as D; simpl; [|done]. intros [= <-].
    apply decide_allow in D as (-> & d' & Ha & _ & _ & H3). destruct timed_out; [done|].
    injection Ha as <-. apply A in H3 as (-> & -> & H). done.
  - intros (-> & -> & -> & H). apply A in H. simpl.
    rewrite (proj2 (validDecision_spec d _ _)) by (split_and!; [done | done | congruence]). simpl.
    by rewrite bool_decide_eq_true_2.
Qed.

Lemma content_enters_only_when_armor_is_clean_witness :
  let c := mkContent "c1" "text" "https://h/" "text/plain" "" (mkProvenance "" "") in
  ReleaseContent (ReviewContent (Some (Armor.DecideContent (fun s => s)
    (Some (fun _ => Ok (Armor.mkResponse " OK" "" [] [] ∅))) None None)) None None c) = Some c.
Proof.
  intros c. apply content_enters_only_when_armor_is_clean. split_and!; try reflexivity.
  eexists _, _. split_and!; try reflexivity. apply (bool_decide_unpack _). vm_compute. exact I.
Defined.
