(* ===== verification/Authz.v ===== *)
(** * Sender authorization of the Telegram channel

    [internal/channel/telegram/authz]: [authz.go] (auth modes and the persisted
    store of approved senders), [decide.go] (the per-update decision) and
    [pairing.go] (the owner-gated approve/deny grammar). The JSON codec of the
    store file is a parameter. *)

From stdpp Require Import base gmap strings list.
From Stdlib Require Import ZArith Lia Ascii.
From S2P Require Import Prelude GoStrings.

Local Open Scope Z_scope.

(** ** Modes *)

(** [Mode]; [ModeOther] is any other string, the zero value included. *)
Inductive Mode := ModeEnvelope | ModeAllowlist | ModePairing | ModeOpen | ModeDisabled | ModeOther (s : string).

Inductive AuthzErr :=
| ErrUnknownMode (raw : string)
| ErrEmptySenderID
| ErrNonNumericSenderID (raw : string)
| ErrStoreRead
| ErrStoreMalformed
| ErrStoreCreateTemp
| ErrStoreChmodTemp
| ErrStoreWriteTemp
| ErrStoreCloseTemp
| ErrStoreRename
| ErrStoreChmod.

(** [ParseMode]. *)
Definition ParseMode (raw : string) : result AuthzErr Mode :=
  if blank raw then Ok ModeEnvelope
  else if String.eqb raw "envelope" then Ok ModeEnvelope
  else if String.eqb raw "allowlist" then Ok ModeAllowlist
  else if String.eqb raw "pairing" then Ok ModePairing
  else if String.eqb raw "open" then Ok ModeOpen
  else if String.eqb raw "disabled" then Ok ModeDisabled
  else Err (ErrUnknownMode raw).

(** [Mode.ConsultsStore]. *)
Definition ConsultsStore (m : Mode) : bool :=
  match m with ModeAllowlist | ModePairing => true | _ => false end.

(** [Normalize]: the canonical numeric form of a sender ID. *)
Definition Normalize (raw : string) : result AuthzErr Z :=
  let trimmed := TrimSpace raw in
  if String.eqb trimmed "" then Err ErrEmptySenderID
  else match ParseInt trimmed with Some id => Ok id | None => Err (ErrNonNumericSenderID raw) end.

(** ** The approved-sender store *)

Record Store := mkStore { st_path : string; st_approved : gset Z }.

Definition NewStore (path : string) : Store := mkStore path ∅.

Definition with_approved (s : Store) (a : gset Z) : Store := mkStore (st_path s) a.

(** [Add], [Remove], [Contains] and [Len]. *)
Definition Add (s : Store) (raw : string) : option AuthzErr * Store :=
  match Normalize raw with
  | Err e => (Some e, s)
  | Ok id => (None, with_approved s ({[id]} ∪ st_approved s))
  end.

Definition Remove (s : Store) (raw : string) : option AuthzErr * Store :=
  match Normalize raw with
  | Err e => (Some e, s)
  | Ok id => (None, with_approved s (st_approved s ∖ {[id]}))
  end.

Definition Contains_id (s : Store) (raw : string) : result AuthzErr bool :=
  let? id := Normalize raw in Ok (bool_decide (id ∈ st_approved s)).

Definition StoreLen (s : Store) : nat := size (st_approved s).

(** Where a persist cycle may fail: before the rename, at it, or at the final
    chmod. *)
Inductive PersistFault :=
| FaultCreateTemp | FaultChmodTemp | FaultWriteTemp | FaultCloseTemp | FaultRename | FaultChmod.

(** A file that exists but cannot be read. *)
Inductive FileState := FileAbsent | FileUnreadable | FileData (d : string).

Section Persistence.
Variables (marshal : list Z -> string) (unmarshal : string -> option (list Z)).

(** [Load]. *)
Definition Load (s : Store) (file : FileState) : option AuthzErr * Store :=
  match file with
  | FileAbsent => (None, with_approved s ∅)
  | FileUnreadable => (Some ErrStoreRead, s)
  | FileData data =>
    match unmarshal data with
    | None => (Some ErrStoreMalformed, s)
    | Some ids => (None, with_approved s (list_to_set ids))
    end
  end.

(** The document [Persist] writes: the sorted IDs, [marshal] with the final
    newline. *)
Definition store_document (s : Store) : string :=
  marshal (sort_by Z.ltb (elements (st_approved s))) +:+ String nl "".

(** [Persist]: the error and the file at the store's path. *)
Definition Persist (s : Store) (fault : option PersistFault) (file : FileState)
  : option AuthzErr * FileState :=
  match fault with
  | Some FaultCreateTemp => (Some ErrStoreCreateTemp, file)
  | Some FaultChmodTemp => (Some ErrStoreChmodTemp, file)
  | Some FaultWriteTemp => (Some ErrStoreWriteTemp, file)
  | Some FaultCloseTemp => (Some ErrStoreCloseTemp, file)
  | Some FaultRename => (Some ErrStoreRename, file)
  | Some FaultChmod => (Some ErrStoreChmod, FileData (store_document s))
  | None => (None, FileData (store_document s))
  end.
End Persistence.

(** ** Decisions *)

(** [Action], the pairing actions included. *)
Inductive Action :=
| ActionRouteEnvelope
| ActionAcceptPlaintext
| ActionRejectDisabled
| ActionRejectUnapproved
| ActionPairingPending
| ActionPairingApprove
| ActionPairingDeny
| ActionPairingMalformed.

(** [Decision] with its audit reason. *)
Record Decision := mkAuthDecision { ad_Action : Action; ad_Reason : string; ad_TargetID : Z }.

(** [Decide]; a nil store is [None]. *)
Definition Decide (mode : Mode) (raw : string) (store : option Store) : Decision :=
  match mode with
  | ModeDisabled => mkAuthDecision ActionRejectDisabled "channel_disabled" 0
  | ModeOpen => mkAuthDecision ActionAcceptPlaintext "plaintext_accepted" 0
  | ModeAllowlist | ModePairing =>
    match store with
    | None => mkAuthDecision ActionRejectUnapproved "sender_not_approved" 0
    | Some s =>
      match Contains_id s raw with
      | Ok true => mkAuthDecision ActionAcceptPlaintext "plaintext_accepted" 0
      | _ => mkAuthDecision ActionRejectUnapproved "sender_not_approved" 0
      end
    end
  | _ => mkAuthDecision ActionRouteEnvelope "" 0
  end.

(** [approveDenyGrammar]. *)
Record approveDenyGrammar := mkGrammar { g_isVerb : bool; g_deny : bool; g_validID : bool; g_id : Z }.

Section Pairing.
Variable uni : string -> string.

(** [parseApproveDeny]. *)
Definition parseApproveDeny (text : string) : approveDenyGrammar :=
  let none := mkGrammar false false false 0 in
  match Fields text with
  | [] => none
  | v :: args =>
    let verb := ToLower uni v in
    let go (deny : bool) :=
      match args with
      | [a] => match Normalize a with
               | Ok id => mkGrammar true deny true id
               | Err _ => mkGrammar true deny false 0
               end
      | _ => mkGrammar true deny false 0
      end in
    if String.eqb verb "approve" then go false
    else if String.eqb verb "deny" then go true
    else none
  end.

(** [DecidePairing]: the owner gate comes first, then the store. *)
Definition DecidePairing (raw : string) (ownerID : Z) (text : string) (store : option Store)
  : Decision :=
  let isOwner := match Normalize raw with Ok id => id =? ownerID | Err _ => false end in
  let ordinary :=
    match store with
    | Some s =>
      match Contains_id s raw with
      | Ok true => mkAuthDecision ActionAcceptPlaintext "plaintext_accepted" 0
      | _ => mkAuthDecision ActionPairingPending "pairing_request" 0
      end
    | None => mkAuthDecision ActionPairingPending "pairing_request" 0
    end in
  if isOwner then
    let g := parseApproveDeny text in
    if g_isVerb g then
      if negb (g_validID g) then mkAuthDecision ActionPairingMalformed "pairing_malformed" 0
      else if g_deny g then mkAuthDecision ActionPairingDeny "pairing_denied" (g_id g)
      else mkAuthDecision ActionPairingApprove "pairing_approved" (g_id g)
    else ordinary
  else ordinary.
End Pairing.

(** ** Normalization *)

Lemma Normalize_range raw id : Normalize raw = Ok id -> in_int64 id = true.
Proof.
  unfold Normalize. destruct (String.eqb _ _); [done|].
  destruct (ParseInt (TrimSpace raw)) eqn:E; [|done]. intros [= <-]. by eapply ParseInt_range.
Qed.

(** A spelling of a sender ID: padding, [k] leading zeros, digits. *)
Definition zeros (k : nat) : string := Nat.iter k (String "0"%char) "".

Definition spelling (k : nat) (n : Z) : string :=
  if n <? 0 then String "-"%char (zeros k +:+ format_nonneg (- n)) else zeros k +:+ format_nonneg n.

Definition spells (raw : string) (n : Z) : Prop :=
  exists w1 k w2, raw = w1 +:+ spelling k n +:+ w2 /\
    str_forall ascii_space w1 = true /\ str_forall ascii_space w2 = true.

Lemma digits_val_zeros k s : digits_val 0 (zeros k +:+ s) = digits_val 0 s.
Proof. induction k as [|k IH]; [done|]. exact IH. Qed.

Lemma zeros_digits k s : str_forall is_digit (zeros k +:+ s) = str_forall is_digit s.
Proof. induction k as [|k IH]; [done|]. exact IH. Qed.

Lemma parse_zeros k n : 0 <= n -> parse_digits (zeros k +:+ format_nonneg n) = Some n.
Proof.
  intros Hn. pose proof (parse_format_nonneg n Hn) as P. unfold parse_digits in *.
  destruct (String.eqb (format_nonneg n) "") eqn:E; [done|]. rewrite digits_val_zeros.
  destruct (String.eqb (zeros k +:+ format_nonneg n) "") eqn:E2; [|done].
  to_prop. destruct k; simpl in E2; done.
Qed.

Lemma ParseInt_spelling k n : in_int64 n = true -> ParseInt (spelling k n) = Some n.
Proof.
  intros Hn. unfold spelling. destruct (n <? 0) eqn:E; to_prop; unfold ParseInt.
  - rewrite Ascii.eqb_refl, parse_zeros by lia. simpl. by rewrite Z.opp_involutive, Hn.
  - pose proof (parse_zeros k n E) as P.
    assert (D : str_forall is_digit (zeros k +:+ format_nonneg n) = true)
      by (rewrite zeros_digits; by apply format_nonneg_digits).
    destruct (zeros k +:+ format_nonneg n) as [|c s] eqn:Es; [done|].
    destruct (digits_no_sign _ c s D eq_refl) as [-> ->]. by rewrite P, Hn.
Qed.

Lemma spelling_plain k n : str_forall plain (spelling k n) = true /\ spelling k n <> "".
Proof.
  unfold spelling. destruct (n <? 0) eqn:E; to_prop.
  - split; [|done]. simpl. eapply str_forall_impl; [apply digit_plain|].
    rewrite zeros_digits. apply format_nonneg_digits. lia.
  - split; [eapply str_forall_impl; [apply digit_plain|]; rewrite zeros_digits; by apply format_nonneg_digits|].
    intros Es. pose proof (parse_zeros k n E) as P. by rewrite Es in P.
Qed.

Lemma Normalize_spells raw n : in_int64 n = true -> spells raw n -> Normalize raw = Ok n.
Proof.
  intros Hn (w1 & k & w2 & -> & H1 & H2). unfold Normalize.
  destruct (spelling_plain k n) as [P N].
  rewrite TrimSpace_pad by done. rewrite (proj2 (String.eqb_neq _ _) N).
  by rewrite ParseInt_spelling.
Qed.

Lemma Normalize_FormatInt n : in_int64 n = true -> Normalize (FormatInt n) = Ok n.
Proof.
  intros Hn. apply Normalize_spells; [done|]. exists "", O, "". split_and!; try done.
  rewrite str_app_nil_r. unfold FormatInt, spelling. by destruct (n <? 0).
Qed.

(** Any two accepted spellings of a sender ID (sign, leading zeros, surrounding
    space) denote the same store entry: adding one makes the other contained, adding
    again changes nothing, and removing either removes the sender. *)
Theorem approval_is_independent_of_spelling s raw1 raw2 n :
  in_int64 n = true -> spells raw1 n -> spells raw2 n ->
  exists s', Add s raw1 = (None, s') /\ st_approved s' = {[n]} ∪ st_approved s /\
    Contains_id s' raw2 = Ok true /\ Add s' raw2 = (None, s') /\
    exists s'', Remove s' raw2 = (None, s'') /\ Contains_id s'' raw1 = Ok false /\
      st_approved s'' = st_approved s ∖ {[n]}.
Proof.
  intros Hn H1 H2. apply Normalize_spells in H1, H2; try done.
  unfold Add, Contains_id, Remove. rewrite H1, H2. eexists. split_and!; [reflexivity | done | | |].
  - f_equal. apply bool_decide_eq_true. set_solver.
  - unfold with_approved. simpl. do 2 f_equal. set_solver.
  - eexists. split_and!; [reflexivity | f_equal; apply bool_decide_eq_false; set_solver |].
    simpl. set_solver.
Qed.

Lemma approval_is_independent_of_spelling_witness :
  exists s', Add (NewStore "p") "042" = (None, s') /\ Contains_id s' " 42 " = Ok true.
Proof.
  destruct (approval_is_independent_of_spelling (NewStore "p") "042" " 42 " 42)
    as (s' & H1 & _ & H2 & _).
  - reflexivity.
  - exists "", 1%nat, "". split_and!; reflexivity.
  - exists " ", 0%nat, " ". split_and!; reflexivity.
  - exists s'. split; [exact H1 | exact H2].
Defined.

(** Loading what a successful persist wrote yields exactly the approved senders that
    were persisted, whatever the loading store held before. *)
Theorem approved_store_survives_restart marshal unmarshal s fault file file' s0 :
  (forall ids, Forall (fun i => in_int64 i = true) ids ->
     unmarshal (marshal ids +:+ String nl "") = Some ids) ->
  (forall i, i ∈ st_approved s -> in_int64 i = true) ->
  Persist marshal s fault file = (None, file') ->
  exists s', Load unmarshal s0 file' = (None, s') /\ st_approved s' = st_approved s.
Proof.
  intros Hc Hi H. unfold Persist in H. destruct fault as [[]|]; try done. injection H as <-.
  unfold Load, store_document. rewrite Hc.
  - eexists. split; [reflexivity|]. simpl. apply set_eq. intros x.
    by rewrite elem_of_list_to_set, sort_by_elem, elem_of_elements.
  - apply Forall_forall. intros x. rewrite sort_by_elem, elem_of_elements. apply Hi.
Qed.

(** A concrete document: the IDs separated by commas. *)
Definition demo_marshal_ids (ids : list Z) : string := format_nonneg (Z.pos (encode ids)).
Definition demo_unmarshal_ids (data : string) : option (list Z) :=
  match parse_digits (TrimSpace data) with Some (Z.pos p) => decode p | _ => None end.

Lemma approved_store_survives_restart_witness :
  let s := mkStore "p" {[7; 42]} in
  exists file' s', Persist demo_marshal_ids s None FileAbsent = (None, file') /\
    Load demo_unmarshal_ids (NewStore "p") file' = (None, s') /\ st_approved s' = st_approved s.
Proof.
  intros s. edestruct (approved_store_survives_restart demo_marshal_ids demo_unmarshal_ids s None
    FileAbsent) as (s' & H1 & H2).
  - intros ids _. unfold demo_unmarshal_ids, demo_marshal_ids.
    assert (D : str_forall is_digit (format_nonneg (Z.pos (encode ids))) = true)
      by (by apply format_nonneg_digits).
    assert (N : format_nonneg (Z.pos (encode ids)) <> "") by (by apply format_nonneg_nonempty).
    assert (T : TrimSpace (format_nonneg (Z.pos (encode ids)) +:+ String nl "") =
                format_nonneg (Z.pos (encode ids))).
    { apply (TrimSpace_pad "" (format_nonneg (Z.pos (encode ids))) (String nl "")); try done.
      by eapply str_forall_impl; [apply digit_plain|]. }
    rewrite T.
    rewrite parse_format_nonneg by done. by rewrite decode_encode.
  - intros i Hi. simpl in Hi. apply elem_of_union in Hi as [->%elem_of_singleton | ->%elem_of_singleton]; done.
  - reflexivity.
  - eexists _, s'. split_and!; [reflexivity | exact H1 | exact H2].
Defined.

(** ** Decisions *)

Lemma Contains_true s raw :
  Contains_id s raw = Ok true <-> exists id, Normalize raw = Ok id /\ id ∈ st_approved s.
Proof.
  unfold Contains_id. destruct (Normalize raw) as [id|e]; [|naive_solver].
  split; [|naive_solver (eauto using bool_decide_eq_true_2 with f_equal)].
  intros [= H]. to_prop. eauto.
Qed.

(** A sender the mode accepts as plaintext. *)
Definition may_speak (mode : Mode) (raw : string) (store : option Store) : Prop :=
  match mode with
  | ModeOpen => True
  | ModeAllowlist | ModePairing =>
    exists s id, store = Some s /\ Normalize raw = Ok id /\ id ∈ st_approved s
  | _ => False
  end.

Lemma Decide_accepts mode raw store :
  ad_Action (Decide mode raw store) = ActionAcceptPlaintext <-> may_speak mode raw store.
Proof.
  destruct mode; simpl; try (split; done); destruct store as [s|]; simpl;
    try (split; [done | by intros (? & ? & ? & _)]);
    (destruct (Contains_id s raw) as [[]|] eqn:E; simpl;
     [ apply Contains_true in E as (id & H1 & H2); split; [|done]; eauto
     | split; [done|]; intros (s' & id & [= <-] & H1 & H2) ..]);
    (rewrite (proj2 (Contains_true s raw)) in E by eauto; done).
Qed.

Lemma DecidePairing_accepts uni raw ownerID text store :
  ad_Action (DecidePairing uni raw ownerID text store) = ActionAcceptPlaintext ->
  may_speak ModePairing raw store.
Proof.
  assert (Hord : forall d, d = match store with
      | Some s => match Contains_id s raw with
                  | Ok true => mkAuthDecision ActionAcceptPlaintext "plaintext_accepted" 0
                  | _ => mkAuthDecision ActionPairingPending "pairing_request" 0
                  end
      | None => mkAuthDecision ActionPairingPending "pairing_request" 0 end ->
    ad_Action d = ActionAcceptPlaintext -> may_speak ModePairing raw store).
  { intros d -> Hd. destruct store as [s|]; [|done].
    destruct (Contains_id s raw) as [[]|] eqn:C; try done.
    apply Contains_true in C as (id & C1 & C2). simpl. eauto. }
  unfold DecidePairing.
  destruct (match Normalize raw with Ok _ => _ | Err _ => _ end); [|by apply Hord].
  destruct (parseApproveDeny uni text) as [[] [] [] t]; simpl; try done; by apply Hord.
Qed.
