(* ===== verification/Telegram.v ===== *)
(** * The Telegram channel ([internal/channel/telegram])

    [adapter.go]: the poll loop, the per-update pipeline (mode decision,
    envelope, armor) and the derivation of typed messages; [pairing.go]: the
    side effects of the pairing flow. The batches are given here and polled in
    [Polling]; the content guard and the primitives of the envelope are parameters. *)

From stdpp Require Import base gmap strings list sorting.
From Stdlib Require Import ZArith Lia Ascii.
From S2P Require Import Prelude GoStrings Seams Envelope Ingestion Authz.

Local Open Scope Z_scope.

(** ** Data *)

(** [Message]: a sender and a chat are their numeric IDs. *)
Inductive TMessage := mkTMessage {
  tm_MessageID : Z;
  tm_Text : string;
  tm_From : option Z;
  tm_Chat : option Z;
  tm_ReplyToMessage : option TMessage
}.

(** [Update]. *)
Record Update := mkUpdate { up_UpdateID : Z; up_Message : option TMessage }.

(** [senderID] and [chatID]. *)
Definition senderID (m : TMessage) : string :=
  match tm_From m with
  | Some id => FormatInt id
  | None => match tm_Chat m with Some id => FormatInt id | None => "" end
  end.

Definition chatID (m : TMessage) : string :=
  match tm_Chat m with
  | Some id => FormatInt id
  | None => match tm_From m with Some id => FormatInt id | None => "" end
  end.

(** The fields of [Config] the pipeline reads; [cf_Notifier] and
    [cf_AuditSink] say whether the seam is present. *)
Record Config := mkConfig {
  cf_TrustedSigningKey : string;
  cf_TrustedX25519Pub : string;
  cf_OrchestratorPriv : string;
  cf_MaxBodyBytes : Z;
  cf_MaxMessageBytes : Z;
  cf_GuardTimeout : Z;
  cf_PollBackoff : Z;
  cf_AuthMode : Mode;
  cf_OwnerID : Z;
  cf_OwnerChatID : string;
  cf_Notifier : bool;
  cf_AuditSink : bool
}.

Definition default_pos (v d : Z) : Z := if v <=? 0 then d else v.

(** The defaults of [NewAdapter]. *)
Definition NewAdapter (c : Config) : Config :=
  mkConfig (cf_TrustedSigningKey c) (cf_TrustedX25519Pub c) (cf_OrchestratorPriv c)
    (default_pos (cf_MaxBodyBytes c) (4 * 1024 * 1024))
    (default_pos (cf_MaxMessageBytes c) (64 * 1024))
    (default_pos (cf_GuardTimeout c) (5 * 1000000000))
    (default_pos (cf_PollBackoff c) 1000000000)
    (match cf_AuthMode c with ModeOther "" => ModeEnvelope | m => m end)
    (cf_OwnerID c) (cf_OwnerChatID c) (cf_Notifier c) (cf_AuditSink c).

(** The mutable state of [Adapter], with what it has written to its seams: the
    store file, the audit reasons and the notifications sent. *)
Record AState := mkAState {
  a_offset : Z;
  a_store : option Store;
  a_file : FileState;
  a_cache : ReplayCache;
  a_goals : gmap string string;
  a_audit : list string;
  a_sent : list (string * string)
}.

Definition set_offset (st : AState) (o : Z) : AState :=
  mkAState o (a_store st) (a_file st) (a_cache st) (a_goals st) (a_audit st) (a_sent st).
Definition set_store (st : AState) (s : option Store) (f : FileState) : AState :=
  mkAState (a_offset st) s f (a_cache st) (a_goals st) (a_audit st) (a_sent st).
Definition set_cache (st : AState) (c : ReplayCache) : AState :=
  mkAState (a_offset st) (a_store st) (a_file st) c (a_goals st) (a_audit st) (a_sent st).
Definition set_goals (st : AState) (g : gmap string string) : AState :=
  mkAState (a_offset st) (a_store st) (a_file st) (a_cache st) g (a_audit st) (a_sent st).

(** ** Verbs *)

Definition is_verb_space (c : ascii) : bool :=
  is_byte 32 c || is_byte 9 c || is_byte 10 c || is_byte 13 c.

(** [splitVerb]: [pre] is the part of the text already scanned, reversed. *)
Fixpoint splitVerb_from (pre : string) (text : string) : string * string :=
  match text with
  | "" => (String.rev pre, "")
  | String c rest =>
    if is_verb_space c then (String.rev pre, TrimLeft is_verb_space rest)
    else splitVerb_from (String c pre) rest
  end.

Definition splitVerb (text : string) : string * string := splitVerb_from "" text.

Section Adapter.
Variables (ed_verify : string -> string -> string -> bool)
          (box_open : string -> string -> string -> string -> option string)
          (ParseRFC3339 : string -> option Z) (Sscanf_d : string -> option Z)
          (env_Unmarshal : string -> result string Envelope)
          (uni : string -> string) (url_Parse : string -> option ParsedURL)
          (sha256_hex12 : list string -> string)
          (guard : ContentCandidate -> result string Ingestion.Decision)
          (marshal_ids : list Z -> string) (err_text : AuthzErr -> string)
          (cfg : Config).

(** [emitAuditEvent] and [notify]. *)
Definition emitAuditEvent (reason : string) (st : AState) : AState :=
  if cf_AuditSink cfg then
    mkAState (a_offset st) (a_store st) (a_file st) (a_cache st) (a_goals st)
      (a_audit st ++ [reason]) (a_sent st)
  else st.

Definition notify (chat text : string) (st : AState) : AState :=
  if negb (cf_Notifier cfg) || String.eqb chat "" then st
  else mkAState (a_offset st) (a_store st) (a_file st) (a_cache st) (a_goals st)
         (a_audit st) (a_sent st ++ [(chat, text)]).

(** ** Pairing *)

Definition pairingPendingMessage : string :=
  "Access pending: your request is awaiting owner approval.".

Definition quoted (s : string) : string := String (ascii_of_N 34) (s +:+ String (ascii_of_N 34) "").

Definition pairingOwnerNotification (sender : string) : string :=
  "User " +:+ sender +:+ " requests access — reply " +:+ quoted ("approve " +:+ sender) +:+
  " or " +:+ quoted ("deny " +:+ sender).

Definition handlePairingPending (m : TMessage) (st : AState) : AState :=
  let st := emitAuditEvent "pairing_request" st in
  let st := notify (chatID m) pairingPendingMessage st in
  notify (cf_OwnerChatID cfg) (pairingOwnerNotification (senderID m)) st.

(** [err_text] is the [%v] of an error. *)
Definition handlePairingApprove (targetID : Z) (fault : option PersistFault) (st : AState) : AState :=
  let target := FormatInt targetID in
  match a_store st with
  | None =>
    let st := emitAuditEvent "pairing_approve_no_store" st in
    notify (cf_OwnerChatID cfg) ("approve " +:+ target +:+ " failed: no approval store configured") st
  | Some s =>
    let '(err, s) := Add s target in
    let st := set_store st (Some s) (a_file st) in
    match err with
    | Some e =>
      let st := emitAuditEvent "pairing_approve_add_failed" st in
      notify (cf_OwnerChatID cfg) ("approve " +:+ target +:+ " failed: " +:+ err_text e) st
    | None =>
      let '(err, file) := Persist marshal_ids s fault (a_file st) in
      let st := set_store st (Some s) file in
      match err with
      | Some e =>
        let st := emitAuditEvent "pairing_approve_persist_failed" st in
        notify (cf_OwnerChatID cfg) ("approve " +:+ target +:+ " failed to persist: " +:+ err_text e) st
      | None =>
        let st := emitAuditEvent "pairing_approved" st in
        notify (cf_OwnerChatID cfg) ("approved: user " +:+ target +:+ " can now send commands") st
      end
    end
  end.

Definition handlePairingDeny (targetID : Z) (st : AState) : AState :=
  let st := emitAuditEvent "pairing_denied" st in
  notify (cf_OwnerChatID cfg) ("denied: user " +:+ FormatInt targetID +:+ " was not approved") st.

Definition handlePairingMalformed (reason : string) (st : AState) : AState :=
  let st := emitAuditEvent reason st in
  notify (cf_OwnerChatID cfg)
    ("malformed command — use " +:+ quoted "approve <id>" +:+ " or " +:+ quoted "deny <id>" +:+
     " with a numeric id") st.

(** ** Messages *)

(** [deriveMessage]. *)
Definition deriveMessage (m : TMessage) (text : string) (st : AState) : Message * AState :=
  let msgID := FormatInt (tm_MessageID m) in
  let chat := match tm_Chat m with Some id => FormatInt id | None => "" end in
  let replyTo := match tm_ReplyToMessage m with
                 | Some r => default "" (a_goals st !! FormatInt (tm_MessageID r))
                 | None => "" end in
  let '(verb, rest) := splitVerb text in
  let verb := ToLower uni verb in
  let newGoal :=
    let goalID := "tg-" +:+ chat +:+ "-" +:+ msgID in
    (mkMessage MsgNewGoal goalID (mkTask goalID "" text "") "" "",
     set_goals st (<[msgID := goalID]> (a_goals st))) in
  if String.eqb verb "status" then
    let goalID := if String.eqb replyTo "" && negb (String.eqb rest "") then rest else replyTo in
    (mkMessage MsgStatus goalID zero_task "" "", st)
  else if String.eqb verb "info" then (mkMessage MsgInfo replyTo zero_task rest "", st)
  else if String.eqb verb "cancel" then (mkMessage MsgCancel replyTo zero_task "" "", st)
  else if String.eqb verb "confirm" || String.eqb verb "go" || String.eqb verb "proceed" then
    if negb (String.eqb replyTo "") then (mkMessage MsgConfirm replyTo zero_task "" "", st)
    else newGoal
  else if String.eqb verb "approve" || String.eqb verb "deny" then
    if negb (String.eqb replyTo "") then
      (mkMessage (if String.eqb verb "deny" then MsgDeny else MsgApprove) replyTo zero_task ""
         (TrimSpace rest), st)
    else newGoal
  else newGoal.

(** The candidate armor sees. *)
Definition telegram_candidate (updateID : Z) (plaintext : string) : result IngestErr ContentCandidate :=
  NewContentCandidate uni url_Parse sha256_hex12
    (mkContent ("tg-" +:+ FormatInt updateID) plaintext "https://telegram/message" "text/plain" ""
       (mkProvenance (FormatInt updateID) "telegram-channel")).

(** [processPlaintext]. *)
Definition processPlaintext (updateID : Z) (m : TMessage) (plaintext : string) (st : AState)
  : option Message * AState :=
  match telegram_candidate updateID plaintext with
  | Err _ => (None, emitAuditEvent "candidate_invalid" st)
  | Ok c =>
    match guard c with
    | Err _ => (None, emitAuditEvent "armor_error" st)
    | Ok d =>
      if negb (bool_decide (dc_Outcome d = DecisionAllow)) then
        (None, emitAuditEvent ("armor_blocked: " +:+ dc_Reason d) st)
      else let '(msg, st) := deriveMessage m plaintext st in (Some msg, st)
    end
  end.

(** The audit reason of a rejected envelope. *)
Definition reject_reason (e : EnvErr) : string :=
  match e with
  | ErrUnknownKey | ErrBadSignature => "unknown_key"
  | ErrReplay | ErrStaleTimestamp => "replay_detected"
  | ErrDecryptionFailed => "decryption_failed"
  | _ => "envelope_rejected"
  end.

(** The envelope pipeline of [processBatch]. *)
Definition processEnvelope (now : Z) (updateID : Z) (m : TMessage) (st : AState)
  : option Message * AState :=
  if cf_MaxMessageBytes cfg <? Z.of_nat (String.length (tm_Text m)) then
    (None, emitAuditEvent "text_too_long" st)
  else match env_Unmarshal (tm_Text m) with
  | Err e => (None, emitAuditEvent ("envelope_parse_failed: " +:+ e) st)
  | Ok env =>
    let '(res, rc) := VerifyAndOpen ed_verify box_open ParseRFC3339 Sscanf_d now env
                        (cf_TrustedSigningKey cfg) (a_cache st) (cf_OrchestratorPriv cfg)
                        (cf_TrustedX25519Pub cfg) in
    let st := set_cache st rc in
    match res with
    | Err e => (None, emitAuditEvent (reject_reason e) st)
    | Ok plaintext =>
      if negb (String.eqb (env_From env) "operator") || negb (String.eqb (env_To env) "orchestrator")
      then (None, emitAuditEvent "role_mismatch" st)
      else processPlaintext updateID m plaintext st
    end
  end.

(** What the mode says about a message. *)
Definition mode_decision (m : TMessage) (st : AState) : Authz.Decision :=
  match cf_AuthMode cfg with
  | ModePairing => DecidePairing uni (senderID m) (cf_OwnerID cfg) (tm_Text m) (a_store st)
  | mode => Decide mode (senderID m) (a_store st)
  end.

(** One update of [processBatch]: [now] is the clock of the replay cache and
    [fault] what happens to a persist. *)
Definition processUpdate (now : Z) (fault : option PersistFault) (u : Update) (st : AState)
  : option Message * AState :=
  let st := set_offset st (wrap64 (up_UpdateID u + 1)) in
  match up_Message u with
  | None => (None, st)
  | Some m =>
    if String.eqb (tm_Text m) "" then (None, st)
    else
      let d := mode_decision m st in
      match ad_Action d with
      | ActionRejectDisabled | ActionRejectUnapproved => (None, emitAuditEvent (ad_Reason d) st)
      | ActionPairingPending => (None, handlePairingPending m st)
      | ActionPairingApprove => (None, handlePairingApprove (ad_TargetID d) fault st)
      | ActionPairingDeny => (None, handlePairingDeny (ad_TargetID d) st)
      | ActionPairingMalformed => (None, handlePairingMalformed (ad_Reason d) st)
      | ActionAcceptPlaintext =>
        if cf_MaxMessageBytes cfg <? Z.of_nat (String.length (tm_Text m)) then
          (None, emitAuditEvent "text_too_long" st)
        else
          let '(msg, st) := processPlaintext (up_UpdateID u) m (tm_Text m) st in
          match msg with
          | None => (None, st)
          | Some msg => (Some msg, emitAuditEvent (ad_Reason d) st)
          end
      | ActionRouteEnvelope => processEnvelope now (up_UpdateID u) m st
      end
  end.

(** An update with what the world does while it is processed. *)
Record Arrival := mkArrival { ar_update : Update; ar_now : Z; ar_fault : option PersistFault }.

(** [processBatch]: the first deliverable message ends the scan. *)
Fixpoint processBatch (batch : list Arrival) (st : AState) : option Message * AState :=
  match batch with
  | [] => (None, st)
  | a :: batch =>
    let '(msg, st) := processUpdate (ar_now a) (ar_fault a) (ar_update a) st in
    match msg with
    | Some m => (Some m, st)
    | None => processBatch batch st
    end
  end.

(** One [getUpdates]: a transport failure or a batch. *)
Inductive Poll := PollFailed | PollBatch (batch : list Arrival).

(** [Next] over the successive polls; the boolean is what [waitOrShutdown]
    answers after a poll that delivered nothing. [Delivered] is [ok = true],
    [Shutdown] is [ok = false]; [Polling] means the polls are used up and the
    loop is still running. *)
Inductive NextResult := Delivered (m : Message) | Shutdown | Polling.

Fixpoint Next (polls : list (Poll * bool)) (st : AState) : NextResult * AState :=
  match polls with
  | [] => (Polling, st)
  | (p, wait) :: polls =>
    match p with
    | PollFailed => if wait then Next polls st else (Shutdown, st)
    | PollBatch batch =>
      let '(msg, st) := processBatch batch st in
      match msg with
      | Some m => (Delivered m, st)
      | None => if wait then Next polls st else (Shutdown, st)
      end
    end
  end.

(** ** What an update may change *)

Definition approved_of (st : AState) : gset Z :=
  match a_store st with Some s => st_approved s | None => ∅ end.

Lemma emit_store r st : a_store (emitAuditEvent r st) = a_store st.
Proof. unfold emitAuditEvent. by case_match. Qed.
Lemma notify_store c t st : a_store (notify c t st) = a_store st.
Proof. unfold notify. by case_match. Qed.
Lemma emit_offset r st : a_offset (emitAuditEvent r st) = a_offset st.
Proof. unfold emitAuditEvent. by case_match. Qed.
Lemma notify_offset c t st : a_offset (notify c t st) = a_offset st.
Proof. unfold notify. by case_match. Qed.

Lemma emit_file r st : a_file (emitAuditEvent r st) = a_file st.
Proof. unfold emitAuditEvent. by case_match. Qed.
Lemma notify_file c t st : a_file (notify c t st) = a_file st.
Proof. unfold notify. by case_match. Qed.

Lemma derive_store m p st : a_store (deriveMessage m p st).2 = a_store st.
Proof. unfold deriveMessage. destruct (splitVerb p). repeat case_match; done. Qed.
Lemma derive_offset m p st : a_offset (deriveMessage m p st).2 = a_offset st.
Proof. unfold deriveMessage. destruct (splitVerb p). repeat case_match; done. Qed.

(** Armor let the plaintext through. *)
Definition armor_allows (updateID : Z) (p : string) : Prop :=
  exists c d, telegram_candidate updateID p = Ok c /\ cc_Content c = p /\ guard c = Ok d /\
    dc_Outcome d = DecisionAllow.

Lemma telegram_candidate_content id p c : telegram_candidate id p = Ok c -> cc_Content c = p.
Proof.
  unfold telegram_candidate, NewContentCandidate.
  destruct (normalizeRequiredURI _ _ _ _ _) as [uri|]; [|done]. by intros [= <-].
Qed.

Lemma processPlaintext_spec id m p st :
  let '(msg, st') := processPlaintext id m p st in
  a_store st' = a_store st /\ a_offset st' = a_offset st /\
  match msg with
  | Some x => armor_allows id p /\ (x, st') = deriveMessage m p st
  | None => True
  end.
Proof.
  unfold processPlaintext.
  destruct (telegram_candidate id p) as [c|] eqn:Ec; [|by rewrite emit_store, emit_offset].
  destruct (guard c) as [d|] eqn:Eg; [|by rewrite emit_store, emit_offset].
  case_bool_decide as Ea; simpl; [|by rewrite emit_store, emit_offset].
  pose proof (derive_store m p st) as S. pose proof (derive_offset m p st) as O.
  destruct (deriveMessage m p st) as [x st']. split_and!; try done.
  exists c, d. split_and!; try done. by eapply telegram_candidate_content.
Qed.

(** The text of an update came in an envelope for the orchestrator, signed by
    the operator's key. *)
Definition came_in_envelope (now : Z) (text p : string) (rc : ReplayCache) : Prop :=
  exists env rc', env_Unmarshal text = Ok env /\ env_From env = "operator" /\
    env_To env = "orchestrator" /\
    opened ed_verify box_open ParseRFC3339 Sscanf_d now env (cf_TrustedSigningKey cfg) rc rc'
      (cf_OrchestratorPriv cfg) (cf_TrustedX25519Pub cfg) p.

Lemma processEnvelope_spec now id m st :
  let '(msg, st') := processEnvelope now id m st in
  a_store st' = a_store st /\ a_offset st' = a_offset st /\
  match msg with
  | Some x => exists p, came_in_envelope now (tm_Text m) p (a_cache st) /\ armor_allows id p /\
      exists rc, x = (deriveMessage m p (set_cache st rc)).1
  | None => True
  end.
Proof.
  unfold processEnvelope. destruct (_ <? _); [by rewrite emit_store, emit_offset|].
  destruct (env_Unmarshal (tm_Text m)) as [env|] eqn:Eu; [|by rewrite emit_store, emit_offset].
  pose proof (VerifyAndOpen_spec ed_verify box_open ParseRFC3339 Sscanf_d now env
    (cf_TrustedSigningKey cfg) (a_cache st) (cf_OrchestratorPriv cfg) (cf_TrustedX25519Pub cfg)) as V.
  destruct (VerifyAndOpen _ _ _ _ _ _ _ _ _ _) as [[p|e] rc];
    [|by rewrite emit_store, emit_offset].
  destruct (negb _ || negb _) eqn:R; [by rewrite emit_store, emit_offset|]. to_prop.
  pose proof (processPlaintext_spec id m p (set_cache st rc)) as P.
  destruct (processPlaintext id m p (set_cache st rc)) as [[x|] st']; [|done].
  destruct P as (P1 & P2 & P3 & P4). split_and!; try done. exists p. split_and!; try done.
  - exists env, rc. done.
  - exists rc. by rewrite <- P4.
Qed.

(** ** The owner's approvals *)

(** The owner approved [id] with this message. *)
Definition owner_approves (m : TMessage) (id : Z) : Prop :=
  cf_AuthMode cfg = ModePairing /\ Normalize (senderID m) = Ok (cf_OwnerID cfg) /\
  parseApproveDeny uni (tm_Text m) = mkGrammar true false true id.

Lemma parse_id_range text id d :
  parseApproveDeny uni text = mkGrammar true d true id -> in_int64 id = true.
Proof.
  unfold parseApproveDeny. destruct (Fields text) as [|v args]; [done|].
  intros H. go_cases; by eapply Normalize_range.
Qed.

Lemma mode_decision_approve m st :
  ad_Action (mode_decision m st) = ActionPairingApprove ->
  owner_approves m (ad_TargetID (mode_decision m st)).
Proof.
  unfold mode_decision. destruct (cf_AuthMode cfg) eqn:Em; simpl;
    try (destruct (a_store st); simpl; repeat case_match; done); try done.
  unfold DecidePairing. destruct (Normalize (senderID m)) as [id|] eqn:En.
  - destruct (Z.eqb_spec id (cf_OwnerID cfg)) as [->|]; [|repeat case_match; done].
    destruct (parseApproveDeny uni (tm_Text m)) as [v d ok t] eqn:Eg. simpl.
    destruct v, d, ok; simpl; try (repeat case_match; done).
  - repeat case_match; done.
Qed.

Lemma handlePairingApprove_spec t fault st :
  in_int64 t = true ->
  let st' := handlePairingApprove t fault st in
  a_offset st' = a_offset st /\
  (forall s, a_store st = Some s -> exists s', a_store st' = Some s' /\
     st_approved s' = {[t]} ∪ st_approved s) /\
  (a_store st = None -> a_store st' = None).
Proof.
  intros Ht. unfold handlePairingApprove. destruct (a_store st) as [s|] eqn:Es.
  - unfold Add. rewrite Normalize_FormatInt by done.
    destruct (Persist _ _ fault _) as [[e|] f]; rewrite notify_offset, notify_store, emit_offset, emit_store;
      simpl; split_and!; try done; intros s' [= <-]; eauto.
  - rewrite notify_offset, notify_store, emit_offset, emit_store. done.
Qed.

(** Effect of an update on offset and approvals. *)
Definition update_effect (u : Update) (st st' : AState) : Prop :=
  a_offset st' = wrap64 (up_UpdateID u + 1) /\
  approved_of st ⊆ approved_of st' /\
  (forall id, id ∈ approved_of st' -> id ∈ approved_of st \/
     exists m, up_Message u = Some m /\ owner_approves m id).

(** Where a delivered message comes from. *)
Definition authorized (now : Z) (u : Update) (st : AState) (x : Message) : Prop :=
  exists m p st1, up_Message u = Some m /\ x = (deriveMessage m p st1).1 /\ a_goals st1 = a_goals st /\
    armor_allows (up_UpdateID u) p /\
    ((p = tm_Text m /\ Z.of_nat (String.length p) <= cf_MaxMessageBytes cfg /\
      may_speak (cf_AuthMode cfg) (senderID m) (a_store st)) \/
     came_in_envelope now (tm_Text m) p (a_cache st)).

Lemma effect_keep u st st' :
  a_offset st' = wrap64 (up_UpdateID u + 1) -> a_store st' = a_store st -> update_effect u st st'.
Proof. intros Ho Hs. unfold update_effect, approved_of. rewrite Hs. split_and!; auto. Qed.

Lemma effect_approve fault u m st :
  up_Message u = Some m ->
  let st1 := set_offset st (wrap64 (up_UpdateID u + 1)) in
  ad_Action (mode_decision m st1) = ActionPairingApprove ->
  update_effect u st (handlePairingApprove (ad_TargetID (mode_decision m st1)) fault st1).
Proof.
  intros Em st1 Ea. apply mode_decision_approve in Ea as Eo. pose proof Eo as (_ & _ & Hp).
  destruct (handlePairingApprove_spec _ fault st1 (parse_id_range _ _ _ Hp)) as (H1 & H2 & H3).
  unfold update_effect, approved_of. change (a_store st1) with (a_store st) in *.
  destruct (a_store st) as [s|].
  - destruct (H2 s eq_refl) as (s' & -> & ->). split_and!; [done | set_solver |].
    intros id [->%elem_of_singleton|Hid]%elem_of_union; [right; by exists m | by left].
  - rewrite H3 by done. split_and!; [done | done | auto].
Qed.

Lemma mode_decision_accepts m st :
  ad_Action (mode_decision m st) = ActionAcceptPlaintext ->
  may_speak (cf_AuthMode cfg) (senderID m) (a_store st).
Proof.
  unfold mode_decision. destruct (cf_AuthMode cfg); intros Ea;
    try (by apply Decide_accepts in Ea); by eapply DecidePairing_accepts.
Qed.

Local Ltac keep := apply effect_keep;
  by rewrite ?notify_offset, ?notify_store, ?emit_offset, ?emit_store.

Lemma processUpdate_spec now fault u st :
  let '(msg, st') := processUpdate now fault u st in
  update_effect u st st' /\ match msg with None => True | Some x => authorized now u st x end.
Proof.
  unfold processUpdate. set (st1 := set_offset st (wrap64 (up_UpdateID u + 1))).
  destruct (up_Message u) as [m|] eqn:Em; [|split; [by apply effect_keep|done]].
  destruct (String.eqb (tm_Text m) ""); [split; [by apply effect_keep|done]|].
  destruct (ad_Action (mode_decision m st1)) eqn:Ea.
  - pose proof (processEnvelope_spec now (up_UpdateID u) m st1) as P.
    destruct (processEnvelope now (up_UpdateID u) m st1) as [[x|] st'];
      destruct P as (P1 & P2 & P3); (split; [by apply effect_keep|]); [|done].
    destruct P3 as (p & P3 & P4 & rc & ->). exists m, p, (set_cache st1 rc). split_and!; try done. by right.
  - apply mode_decision_accepts in Ea as Sp.
    destruct (cf_MaxMessageBytes cfg <? _) eqn:El; [split; [keep|done]|]. to_prop.
    pose proof (processPlaintext_spec (up_UpdateID u) m (tm_Text m) st1) as P.
    destruct (processPlaintext _ m (tm_Text m) st1) as [[x|] st'];
      destruct P as (P1 & P2 & P3); [|split; [by apply effect_keep|done]].
    split; [keep|]. destruct P3 as [P3 P4]. exists m, (tm_Text m), st1. rewrite <- P4.
    split_and!; try done. left. split_and!; done.
  - split; [keep|done].
  - split; [keep|done].
  - split; [unfold handlePairingPending; keep|done].
  - split; [by apply effect_approve|done].
  - split; [unfold handlePairingDeny; keep|done].
  - split; [unfold handlePairingMalformed; keep|done].
Qed.

(** ** Batches and polls *)

(** The approvals of the owner among some arrivals. *)
Definition approvals_in (l : list Arrival) (id : Z) : Prop :=
  exists a m, a ∈ l /\ up_Message (ar_update a) = Some m /\ owner_approves m id.

Lemma processBatch_spec batch st :
  let '(msg, st') := processBatch batch st in
  approved_of st ⊆ approved_of st' /\
  (forall id, id ∈ approved_of st' -> id ∈ approved_of st \/ approvals_in batch id) /\
  match msg with
  | None => last (map (fun a => wrap64 (up_UpdateID (ar_update a) + 1)) batch) =
            (if bool_decide (batch = []) then None else Some (a_offset st'))
  | Some x => exists pre a post st1, batch = pre ++ a :: post /\
      processBatch pre st = (None, st1) /\ authorized (ar_now a) (ar_update a) st1 x /\
      a_offset st' = wrap64 (up_UpdateID (ar_update a) + 1)
  end.
Proof.
  revert st. induction batch as [|a batch IH]; intros st; simpl.
  - split_and!; auto.
  - pose proof (processUpdate_spec (ar_now a) (ar_fault a) (ar_update a) st) as P.
    destruct (processUpdate (ar_now a) (ar_fault a) (ar_update a) st) as [[x|] st1] eqn:E;
      destruct P as ((P1 & P2 & P3) & P4).
    + split_and!; try done.
      * intros id Hid. destruct (P3 id Hid) as [?|(m & ? & ?)]; [by left|]. right.
        exists a, m. split_and!; try done. left.
      * exists [], a, batch, st. done.
    + specialize (IH st1). destruct (processBatch batch st1) as [msg st'] eqn:Eb.
      destruct IH as (I1 & I2 & I3). split_and!.
      * set_solver.
      * intros id Hid. destruct (I2 id Hid) as [Hid1|(b & m & Hb & ? & ?)].
        -- destruct (P3 id Hid1) as [?|(m & ? & ?)]; [by left|]. right. exists a, m.
           split_and!; try done. left.
        -- right. exists b, m. split_and!; try done. by right.
      * destruct msg as [x|].
        -- destruct I3 as (pre & b & post & st2 & -> & J1 & J2 & J3).
           exists (a :: pre), b, post, st2. simpl. rewrite E. done.
        -- rewrite last_cons, I3. destruct batch; simpl in *; [|done].
           injection Eb as <-. by rewrite P1.
Qed.

Definition arrivals (polls : list (Poll * bool)) : list Arrival :=
  concat (map (fun p => match p.1 with PollFailed => [] | PollBatch b => b end) polls).

Lemma approvals_app_l b l id : approvals_in b id -> approvals_in (b ++ l) id.
Proof. intros (a & m & Ha & ?). exists a, m. split; [set_solver|done]. Qed.
Lemma approvals_app_r b l id : approvals_in b id -> approvals_in (l ++ b) id.
Proof. intros (a & m & Ha & ?). exists a, m. split; [set_solver|done]. Qed.

Lemma Next_spec polls st :
  let '(r, st') := Next polls st in
  approved_of st ⊆ approved_of st' /\
  (forall id, id ∈ approved_of st' -> id ∈ approved_of st \/ approvals_in (arrivals polls) id) /\
  match r with
  | Delivered x => exists a st1, a ∈ arrivals polls /\ authorized (ar_now a) (ar_update a) st1 x /\
      a_offset st' = wrap64 (up_UpdateID (ar_update a) + 1) /\
      (forall id, id ∈ approved_of st1 -> id ∈ approved_of st \/ approvals_in (arrivals polls) id)
  | Shutdown => exists p, (p, false) ∈ polls
  | Polling => Forall (fun p => p.2 = true) polls
  end.
Proof.
  revert st. induction polls as [|[p wait] polls IH]; intros st; simpl; [split_and!; auto|].
  destruct p as [|batch].
  - destruct wait; [|split_and!; auto; exists PollFailed; left].
    specialize (IH st). destruct (Next polls st) as [r st']. destruct IH as (I1 & I2 & I3).
    split_and!; try done. destruct r; [exact I3 | destruct I3 as [q ?]; exists q; by right | constructor; [done | exact I3]].
  - change (arrivals ((PollBatch batch, wait) :: polls)) with (batch ++ arrivals polls).
    pose proof (processBatch_spec batch st) as P.
    destruct (processBatch batch st) as [[x|] st1] eqn:Eb; destruct P as (P1 & P2 & P3).
    + split_and!; try done.
      * intros id Hid. destruct (P2 id Hid) as [?|Ha]; [by left|]. right. by apply approvals_app_l.
      * destruct P3 as (pre & a & post & st2 & -> & J1 & J2 & J3). exists a, st2. split_and!; try done.
        -- set_solver.
        -- pose proof (processBatch_spec pre st) as Q. rewrite J1 in Q. destruct Q as (_ & Q & _).
           intros id Hid. destruct (Q id Hid) as [?|Ha]; [by left|]. right.
           rewrite <- app_assoc.
           by apply approvals_app_l.
    + destruct wait; [|split_and!; try done; [|exists (PollBatch batch); left];
        intros id Hid; destruct (P2 id Hid) as [?|Ha]; [by left | right; by apply approvals_app_l]].
      specialize (IH st1). destruct (Next polls st1) as [r st']. destruct IH as (I1 & I2 & I3).
      assert (Hcomb : forall id, id ∈ approved_of st1 \/ approvals_in (arrivals polls) id ->
        id ∈ approved_of st \/ approvals_in (batch ++ arrivals polls) id).
      { intros id [Hid|Ha]; [|right; by apply approvals_app_r].
        destruct (P2 id Hid) as [?|Ha]; [by left | right; by apply approvals_app_l]. }
      split_and!; [set_solver | intros id Hid; by apply Hcomb, I2 |].
      destruct r; [| destruct I3 as [q ?]; exists q; by right | constructor; [done | exact I3]].
      destruct I3 as (a & st2 & J1 & J2 & J3 & J4). exists a, st2. split_and!; try done.
      * set_solver.
      * intros id Hid. by apply Hcomb, J4.
Qed.

(** Polling never removes an approved sender, and a sender becomes approved only by
    a well-formed approve message whose sender is the configured owner, in pairing
    mode. *)
Theorem only_the_owner_grows_the_store polls st :
  let '(r, st') := Next polls st in
  approved_of st ⊆ approved_of st' /\
  forall id, id ∈ approved_of st' -> id ∈ approved_of st \/
    exists a m, a ∈ arrivals polls /\ up_Message (ar_update a) = Some m /\
      cf_AuthMode cfg = ModePairing /\ Normalize (senderID m) = Ok (cf_OwnerID cfg) /\
      parseApproveDeny uni (tm_Text m) = mkGrammar true false true id.
Proof.
  pose proof (Next_spec polls st) as N. destruct (Next polls st) as [r st'].
  destruct N as (N1 & N2 & _). done.
Qed.

(** C38. A message the Telegram adapter delivers was derived from an update of the
    polled batches whose text passed the content guard, and either came as bounded
    plaintext from a sender the mode lets speak, under the store as the owner's
    approvals so far made it, or inside an envelope that verified, was fresh and
    named operator and orchestrator; the adapter stops only on shutdown. *)
Theorem delivered_message_is_authorized polls st :
  match Next polls st with
  | (Delivered x, st') =>
    exists a m p st1 st2, a ∈ arrivals polls /\ up_Message (ar_update a) = Some m /\
      x = (deriveMessage m p st2).1 /\ armor_allows (up_UpdateID (ar_update a)) p /\
      (forall id, id ∈ approved_of st1 -> id ∈ approved_of st \/ approvals_in (arrivals polls) id) /\
      ((p = tm_Text m /\ Z.of_nat (String.length p) <= cf_MaxMessageBytes cfg /\
        may_speak (cf_AuthMode cfg) (senderID m) (a_store st1)) \/
       came_in_envelope (ar_now a) (tm_Text m) p (a_cache st1))
  | (Shutdown, _) => exists p, (p, false) ∈ polls
  | (Polling, _) => Forall (fun p => p.2 = true) polls
  end.
Proof.
  pose proof (Next_spec polls st) as N. destruct (Next polls st) as [r st'].
  destruct N as (_ & _ & N). destruct r as [x| |]; [|done..].
  destruct N as (a & st1 & Ha & (m & p & st2 & Hm & Hx & _ & Harm & Hor) & _ & Happ).
  exists a, m, p, st1, st2. done.
Qed.

(** After a batch in ascending order is processed, the stored offset is past every
    update that was looked at and not past any that was not: an update behind the
    delivered one is fetched again, and no update is processed twice. *)
Theorem undelivered_updates_are_refetched batch st msg st' :
  StronglySorted Z.lt (map (fun a => up_UpdateID (ar_update a)) batch) ->
  Forall (fun a => 0 <= up_UpdateID (ar_update a) < int64_max) batch -> batch <> [] ->
  processBatch batch st = (msg, st') ->
  exists seen rest, batch = seen ++ rest /\ (msg = None -> rest = []) /\ seen <> [] /\
    Forall (fun a => up_UpdateID (ar_update a) < a_offset st') seen /\
    Forall (fun a => a_offset st' <= up_UpdateID (ar_update a)) rest.
Proof.
  intros Hs Hr Hne E. pose proof (processBatch_spec batch st) as P. rewrite E in P.
  assert (Hsplit : forall pre a post, batch = pre ++ a :: post ->
    a_offset st' = wrap64 (up_UpdateID (ar_update a) + 1) ->
    Forall (fun b => up_UpdateID (ar_update b) < a_offset st') (pre ++ [a]) /\
    Forall (fun b => a_offset st' <= up_UpdateID (ar_update b)) post).
  { intros pre a post -> ->. rewrite Forall_app, Forall_cons in Hr. destruct Hr as (_ & Ha & _).
    rewrite wrap64_small by (unfold int64_min, int64_max in *; lia).
    rewrite map_app in Hs. simpl in Hs. clear -Hs. split.
    - apply Forall_app. split; [|constructor; [lia|done]].
      apply Forall_forall. intros b Hb.
      pose proof (StronglySorted_app_1_elem_of _ _ _ (up_UpdateID (ar_update b))
        (up_UpdateID (ar_update a)) Hs) as L.
      specialize (L (list_elem_of_fmap_2 (fun a => up_UpdateID (ar_update a)) pre b Hb)).
      specialize (L ltac:(left)). lia.
    - apply StronglySorted_app_1_r in Hs.
      apply StronglySorted_inv in Hs as [_ Hf].
      apply Forall_forall. intros b Hb. rewrite Forall_forall in Hf.
      specialize (Hf _ (list_elem_of_fmap_2 (fun a => up_UpdateID (ar_update a)) post b Hb)). lia. }
  destruct P as (_ & _ & P). destruct msg as [x|].
  - destruct P as (pre & a & post & st1 & -> & _ & _ & Ho).
    exists (pre ++ [a]), post. destruct (Hsplit pre a post eq_refl Ho) as [F1 F2].
    split_and!; try done; [by rewrite <- app_assoc | by destruct pre].
  - destruct (exists_last Hne) as (batch0 & b0 & ->).
    rewrite map_app in P. simpl in P.
    rewrite last_snoc, bool_decide_eq_false_2 in P by (by destruct batch0).
    injection P as P. exists (batch0 ++ [b0]), []. rewrite app_nil_r.
    destruct (Hsplit batch0 b0 [] eq_refl (eq_sym P)) as [F1 F2].
    split_and!; try done.
Qed.
End Adapter.

(** ** Concrete channels *)

Definition demo_cfg (mode : Mode) : Config :=
  NewAdapter (mkConfig "" "" "" 0 0 0 0 mode 1 "1" true true).
Definition demo_state : AState :=
  mkAState 0 (Some (NewStore "p")) FileAbsent (NewReplayCache 0) ∅ [] [].
Definition demo_guard (c : ContentCandidate) : result string Ingestion.Decision :=
  Ok (Ingestion.mkDecision (cc_ID c) CandidateKindContent DecisionAllow "" ∅).
Definition demo_url (s : string) : option ParsedURL := Some (mkParsedURL "https" "telegram" s).
Definition say (id from : Z) (text : string) : Arrival :=
  mkArrival (mkUpdate id (Some (mkTMessage id text (Some from) (Some from) None))) 0 None.
Definition demo_batch (mode : Mode) : list Arrival -> AState -> option Message * AState :=
  processBatch (fun _ _ _ => false) (fun _ _ _ _ => None) (fun _ => None) (fun _ => None)
    (fun _ => Err "") (fun s => s) demo_url (fun _ => "") demo_guard (fun _ => "") (fun _ => "")
    (demo_cfg mode).

(** A stranger, the owner's approval, then the stranger again: the last update
    is left for the next poll. *)
Definition demo_arrivals : list Arrival :=
  [say 10 77 "approve 77"; say 11 1 "approve 077"; say 12 77 "fix the bug"; say 13 77 "status"].

Lemma undelivered_updates_are_refetched_witness :
  exists seen rest, demo_arrivals = seen ++ rest /\ seen <> [] /\
    Forall (fun a => up_UpdateID (ar_update a) < 13) seen /\
    Forall (fun a => 13 <= up_UpdateID (ar_update a)) rest.
Proof.
  edestruct (undelivered_updates_are_refetched (fun _ _ _ => false) (fun _ _ _ _ => None)
    (fun _ => None) (fun _ => None) (fun _ => Err "") (fun s => s) demo_url (fun _ => "") demo_guard
    (fun _ => "") (fun _ => "") (demo_cfg ModePairing) demo_arrivals demo_state)
    as (seen & rest & H1 & _ & H2 & H3 & H4).
  - repeat constructor.
  - repeat constructor; done.
  - done.
  - vm_compute. reflexivity.
  - exists seen, rest. split_and!; [exact H1 | exact H2 | exact H3 | exact H4].
Defined.

(** A reply is threaded by the message ID alone: a reply in another chat to a
    message of the same number is taken for a reply to the first chat's goal. *)
Theorem reply_threads_by_message_id_only uni (k j a b from : Z) st :
  let goal_msg := mkTMessage k "fix the bug" (Some from) (Some a) None in
  let st1 := (deriveMessage uni goal_msg "fix the bug" st).2 in
  let reply := mkTMessage j "cancel" (Some b) (Some b) (Some (mkTMessage k "hi" (Some b) (Some b) None)) in
  (deriveMessage uni goal_msg "fix the bug" st).1 =
    mkMessage MsgNewGoal ("tg-" +:+ FormatInt a +:+ "-" +:+ FormatInt k)
      (mkTask ("tg-" +:+ FormatInt a +:+ "-" +:+ FormatInt k) "" "fix the bug" "") "" "" /\
  (deriveMessage uni reply "cancel" st1).1 =
    mkMessage MsgCancel ("tg-" +:+ FormatInt a +:+ "-" +:+ FormatInt k) zero_task "" "".
Proof.
  simpl. unfold deriveMessage. simpl. split; [done|].
  unfold set_goals. simpl. rewrite lookup_insert_eq. done.
Qed.

(** When persisting an approval fails, the sender stays approved in memory until the
    restart. *)
Theorem failed_persist_still_approves_in_memory marshal_ids err_text cfg t fault e file' st s :
  in_int64 t = true -> a_store st = Some s ->
  Persist marshal_ids (with_approved s ({[t]} ∪ st_approved s)) (Some fault) (a_file st) = (Some e, file') ->
  let st' := handlePairingApprove marshal_ids err_text cfg t (Some fault) st in
  exists s', a_store st' = Some s' /\ t ∈ st_approved s' /\ a_file st' = file' /\
    forall m, senderID m = FormatInt t ->
      ad_Action (Decide ModeAllowlist (senderID m) (a_store st')) = ActionAcceptPlaintext.
Proof.
  intros Ht Hs Hp. unfold handlePairingApprove. rewrite Hs. unfold Add.
  rewrite Normalize_FormatInt by done.
  change (a_file (set_store st (Some (with_approved s ({[t]} ∪ st_approved s))) (a_file st)))
    with (a_file st). rewrite Hp.
  rewrite notify_store, emit_store, notify_file, emit_file.
  exists (with_approved s ({[t]} ∪ st_approved s)). split_and!; [done | simpl; set_solver | done |].
  intros m ->. simpl. unfold Contains_id. rewrite Normalize_FormatInt by done. simpl.
    rewrite bool_decide_eq_true_2 by set_solver. done.
Qed.

Lemma failed_persist_still_approves_in_memory_witness :
  exists s', a_store (handlePairingApprove (fun _ => "") (fun _ => "") (demo_cfg ModePairing) 77
    (Some FaultRename) demo_state) = Some s' /\ 77 ∈ st_approved s'.
Proof.
  edestruct (failed_persist_still_approves_in_memory (fun _ => "") (fun _ => "")
    (demo_cfg ModePairing) 77 FaultRename) with (st := demo_state) (s := NewStore "p")
    as (s' & H1 & H2 & _).
  - reflexivity.
  - reflexivity.
  - reflexivity.
  - exists s'. split; [exact H1 | exact H2].
Defined.
