(* ===== verification/RunStore.v ===== *)
(** * The durable run journal ([internal/runstore])

    [record.go]: the record of one goal's run; [filestore.go]: an append-only
    journal with snapshots. Files are byte strings; what the disk does to an
    operation (a full disk, a crash half way) is an explicit fault. The JSON
    codecs of records and snapshots are parameters, with what the store relies
    on as named hypotheses. *)

From stdpp Require Import base gmap strings list.
From Stdlib Require Import ZArith Lia Ascii.
From S2P Require Import Prelude GoStrings.

Local Open Scope Z_scope.

(** ** Records *)

(** [Status]; [StatusOther] is any other string. *)
Inductive RunStatus :=
| StatusPending
| StatusRunning
| StatusAwaitingApproval
| StatusCompleted
| StatusFailed
| StatusNeedsHuman
| StatusOther (s : string).

(** [isTerminal]. *)
Definition isTerminal (s : RunStatus) : bool :=
  match s with StatusCompleted | StatusFailed => true | _ => false end.

(** [AttemptState]; instants are nanoseconds since the zero [time.Time]. *)
Record AttemptState := mkAttempt {
  at_TaskID : string;
  at_Attempt : Z;
  at_Status : RunStatus;
  at_Detail : string;
  at_UpdatedAt : Z
}.

Record PendingApproval := mkPending {
  pa_TaskID : string;
  pa_Reason : string;
  pa_RequestedAt : Z;
  pa_Escalated : bool
}.

(** [Record]; [Plan] is its raw JSON. *)
Record RunRecord := mkRecord {
  rr_GoalID : string;
  rr_Goal : string;
  rr_Plan : string;
  rr_Attempts : list AttemptState;
  rr_Pending : list PendingApproval;
  rr_Status : RunStatus;
  rr_CreatedAt : Z;
  rr_UpdatedAt : Z;
  rr_Deleted : bool;
  rr_Attempt : Z
}.

Definition zero_record : RunRecord := mkRecord "" "" "" [] [] (StatusOther "") 0 0 false 0.

#[export] Instance RunStatus_eq_dec : EqDecision RunStatus.
Proof. solve_decision. Defined.
#[export] Instance RunRecord_eq_dec : EqDecision RunRecord.
Proof.
  assert (EqDecision AttemptState) by solve_decision.
  assert (EqDecision PendingApproval) by solve_decision. solve_decision.
Defined.

Definition stamp (r : RunRecord) (created updated : Z) : RunRecord :=
  mkRecord (rr_GoalID r) (rr_Goal r) (rr_Plan r) (rr_Attempts r) (rr_Pending r) (rr_Status r)
    created updated (rr_Deleted r) (rr_Attempt r).

Inductive RunStoreErr :=
| RSErrReadSnapshot
| RSErrParseSnapshot
| RSErrReadJournal
| RSErrParseJournal (line : nat)
| RSErrMarshal
| RSErrOpen
| RSErrWrite
| RSErrSync
| RSErrRename
| RSErrTruncate.

(** ** The index *)

Notation Index := (gmap string RunRecord).

(** [apply]: a tombstone removes the goal, other records are last-write-wins. *)
Definition apply (idx : Index) (r : RunRecord) : Index :=
  if rr_Deleted r then delete (rr_GoalID r) idx else <[rr_GoalID r := r]> idx.

(** The two files; [None] is an absent file. *)
Record Disk := mkDisk { d_snapshot : option string; d_journal : option string }.

(** [FileStore]: the index in memory and the disk under it. *)
Record FileStore := mkFileStore { fs_index : Index; fs_disk : Disk }.

(** What happens to an append: it may fail before writing, after [n] bytes,
    or after all of them (at the sync or the close). *)
Inductive AppendFault := AppendOpenFails | AppendWriteFails (n : nat) | AppendSyncFails.

(** What happens to a compaction. *)
Inductive CompactFault := CompactTempFails | CompactRenameFails | CompactTruncateFails.

Section Store.
Variables (marshal : RunRecord -> option string) (unmarshal : string -> option RunRecord)
          (marshal_snap : Index -> option string) (unmarshal_snap : string -> option Index)
          (range : Index -> list (string * RunRecord)).

(** [loadSnapshot]. *)
Definition loadSnapshot (snap : option string) (idx : Index) : result RunStoreErr Index :=
  match snap with
  | None => Ok idx
  | Some "" => Ok idx
  | Some data =>
    match unmarshal_snap data with
    | None => Err RSErrParseSnapshot
    | Some m => Ok (foldl (fun i p => apply i p.2) idx (range m))
    end
  end.

(** The loop of [replayJournal]: [i] is the number of the line. *)
Fixpoint replay_loop (finalNewline : bool) (i : nat) (lines : list string) (idx : Index)
  : result RunStoreErr Index :=
  match lines with
  | [] => Ok idx
  | line :: rest =>
    let isLast := match rest with [] => true | _ => false end in
    let tolerate := isLast && negb finalNewline in
    if blank line then replay_loop finalNewline (S i) rest idx
    else match unmarshal line with
    | None => if tolerate then Ok idx else Err (RSErrParseJournal i)
    | Some r => replay_loop finalNewline (S i) rest (apply idx r)
    end
  end.

(** [replayJournal]. *)
Definition replayJournal (journal : option string) (idx : Index) : result RunStoreErr Index :=
  match journal with
  | None => Ok idx
  | Some "" => Ok idx
  | Some data =>
    let finalNewline := HasSuffix data (String nl "") in
    let lines := Split nl data in
    let lines := if finalNewline && bool_decide (last lines = Some "") then removelast lines
                 else lines in
    replay_loop finalNewline 1 lines idx
  end.

(** [NewFileStore] on a disk whose files can be read. *)
Definition NewFileStore (d : Disk) : result RunStoreErr FileStore :=
  let? idx := loadSnapshot (d_snapshot d) ∅ in
  let? idx := replayJournal (d_journal d) idx in
  Ok (mkFileStore idx d).

(** [appendLine]: the error and the disk afterwards. *)
Definition appendLine (r : RunRecord) (fault : option AppendFault) (d : Disk)
  : option RunStoreErr * Disk :=
  let add s := mkDisk (d_snapshot d) (Some (default "" (d_journal d) +:+ s)) in
  match marshal r with
  | None => (Some RSErrMarshal, d)
  | Some data =>
    let line := data +:+ String nl "" in
    match fault with
    | Some AppendOpenFails => (Some RSErrOpen, d)
    | Some (AppendWriteFails n) => (Some RSErrWrite, add (str_take n line))
    | Some AppendSyncFails => (Some RSErrSync, add line)
    | None => (None, add line)
    end
  end.

Definition append_apply (r : RunRecord) (fault : option AppendFault) (fs : FileStore)
  : option RunStoreErr * FileStore :=
  let '(err, d) := appendLine r fault (fs_disk fs) in
  match err with
  | Some e => (Some e, mkFileStore (fs_index fs) d)
  | None => (None, mkFileStore (apply (fs_index fs) r) d)
  end.

(** [Save] at the instant [now]. *)
Definition Save (now : Z) (r : RunRecord) (fault : option AppendFault) (fs : FileStore)
  : option RunStoreErr * FileStore :=
  let created := if rr_CreatedAt r =? 0 then now else rr_CreatedAt r in
  append_apply (stamp r created now) fault fs.

(** [Load]. *)
Definition LoadRecord (goalID : string) (fs : FileStore) : option RunRecord := fs_index fs !! goalID.

(** [ListInFlight]. *)
Definition ListInFlight (fs : FileStore) : list RunRecord :=
  sort_by (fun a b => String.ltb (rr_GoalID a) (rr_GoalID b))
    (List.filter (fun r => negb (isTerminal (rr_Status r))) (map snd (range (fs_index fs)))).

(** [Delete] at the instant [now]. *)
Definition Delete (now : Z) (goalID : string) (fault : option AppendFault) (fs : FileStore)
  : option RunStoreErr * FileStore :=
  append_apply (mkRecord goalID "" "" [] [] (StatusOther "") 0 now true 0) fault fs.

(** [Compact]. *)
Definition Compact (fault : option CompactFault) (fs : FileStore) : option RunStoreErr * FileStore :=
  match marshal_snap (fs_index fs) with
  | None => (Some RSErrMarshal, fs)
  | Some data =>
    let d := fs_disk fs in
    match fault with
    | Some CompactTempFails => (Some RSErrWrite, fs)
    | Some CompactRenameFails => (Some RSErrRename, fs)
    | Some CompactTruncateFails =>
      (Some RSErrTruncate, mkFileStore (fs_index fs) (mkDisk (Some data) (d_journal d)))
    | None =>
      (None, mkFileStore (fs_index fs)
               (mkDisk (Some data) (match d_journal d with Some _ => Some "" | None => None end)))
    end
  end.

(** ** What the codecs promise *)

(** A record is one line of JSON; a proper prefix of it is not JSON. *)
Record codec_ok : Prop := {
  co_line : forall r data, marshal r = Some data -> str_forall (fun c => negb (Ascii.eqb c nl)) data = true;
  co_blank : forall r data, marshal r = Some data -> blank data = false;
  co_roundtrip : forall r data, marshal r = Some data -> unmarshal data = Some r;
  co_prefix : forall r data n, marshal r = Some data -> (n < String.length data)%nat ->
    unmarshal (str_take n data) = None;
  co_snap : forall m data, marshal_snap m = Some data -> data <> "" /\ unmarshal_snap data = Some m;
  co_range : forall m, range m ≡ₚ map_to_list m
}.

(** ** Lines *)

(** The journal of complete lines followed by a rest. *)
Fixpoint journal_of (lines : list string) (rest : string) : string :=
  match lines with
  | [] => rest
  | l :: lines => l +:+ String nl (journal_of lines rest)
  end.

Definition no_nl (s : string) : bool := str_forall (fun c => negb (Ascii.eqb c nl)) s.

Lemma split_from_no_nl cur s : no_nl s = true -> split_from nl cur s = [String.rev cur +:+ s].
Proof.
  revert cur. induction s as [|c s IH]; intros cur H; simpl in *.
  - by rewrite str_app_nil_r.
  - unfold no_nl in H. simpl in H. to_prop. rewrite H.
    rewrite IH by done. rewrite rev_cons, str_app_assoc. done.
Qed.

Lemma split_from_line cur s t :
  no_nl s = true -> split_from nl cur (s +:+ String nl t) = (String.rev cur +:+ s) :: split_from nl "" t.
Proof.
  revert cur. induction s as [|c s IH]; intros cur H.
  - simpl. by rewrite str_app_nil_r.
  - unfold no_nl in H. simpl in H. to_prop. rewrite str_app_cons. simpl.
    rewrite H, IH by done. rewrite rev_cons, str_app_assoc. done.
Qed.

Lemma Split_journal lines rest :
  Forall (fun l => no_nl l = true) lines -> no_nl rest = true ->
  Split nl (journal_of lines rest) = lines ++ [rest].
Proof.
  intros H Hr. unfold Split. induction H as [|l lines Hl H IH]; simpl.
  - by rewrite split_from_no_nl.
  - by rewrite split_from_line, IH.
Qed.

Lemma HasSuffix_nl s c : HasSuffix (s +:+ String c "") (String nl "") = Ascii.eqb nl c.
Proof.
  unfold HasSuffix. rewrite rev_str_app.
  change (String.prefix (String nl "") (String c (String.rev s)) = Ascii.eqb nl c).
  generalize (String.rev s). intros t.
  destruct c as [[] [] [] [] [] [] [] []], t; reflexivity.
Qed.

Lemma str_snoc' s : s = "" \/ exists t c, s = t +:+ String c "".
Proof.
  destruct (String.rev s) as [|c t] eqn:E; [left|right];
    [by rewrite <- (rev_involutive s), E|].
  exists (String.rev t), c. by rewrite <- (rev_involutive s), E, rev_cons.
Qed.

Lemma journal_of_app lines rest : journal_of lines rest = journal_of lines "" +:+ rest.
Proof. induction lines as [|l lines IH]; simpl; [done|]. by rewrite IH, str_app_assoc, str_app_cons. Qed.

Lemma journal_of_snoc lines l rest :
  journal_of (lines ++ [l]) rest = journal_of lines (l +:+ String nl rest).
Proof. induction lines as [|x lines IH]; simpl; [done|]. by rewrite IH. Qed.

Lemma journal_final lines rest :
  no_nl rest = true -> journal_of lines rest <> "" ->
  HasSuffix (journal_of lines rest) (String nl "") = String.eqb rest "".
Proof.
  intros Hr Hne. destruct (str_snoc' rest) as [->|(t & c & ->)].
  - destruct (decide (lines = [])) as [->|Hl]; [done|].
    destruct (exists_last Hl) as (ls & l & ->). rewrite journal_of_snoc, journal_of_app, <- str_app_assoc.
    by rewrite HasSuffix_nl, Ascii.eqb_refl.
  - unfold no_nl in Hr. rewrite str_forall_app in Hr. simpl in Hr. to_prop.
    rewrite journal_of_app, <- str_app_assoc, HasSuffix_nl, Ascii.eqb_sym, H0. symmetry.
    apply String.eqb_neq. by destruct t.
Qed.

Hypothesis Hcodec : codec_ok.

(** [lines] are the encodings of [recs]. *)
Definition encodes (recs : list RunRecord) (lines : list string) : Prop :=
  Forall2 (fun r l => marshal r = Some l) recs lines.

Lemma encodes_no_nl recs lines : encodes recs lines -> Forall (fun l => no_nl l = true) lines.
Proof. induction 1 as [|r l recs lines E H IH]; constructor; [by eapply co_line | done]. Qed.

Lemma replay_complete fn i recs lines rest idx :
  encodes recs lines ->
  replay_loop fn i (lines ++ rest) idx =
  replay_loop fn (i + length lines) rest (foldl apply idx recs).
Proof.
  intros H. revert i idx. induction H as [|r l recs lines E H IH]; intros i idx; simpl.
  - by rewrite Nat.add_0_r.
  - rewrite (co_blank Hcodec _ _ E), (co_roundtrip Hcodec _ _ E), IH. f_equal. lia.
Qed.

(** Replay of complete lines and a partial one. *)
Definition replayed (idx : Index) (recs : list RunRecord) (rest : string) : Index :=
  if blank rest then foldl apply idx recs
  else match unmarshal rest with
  | Some r => apply (foldl apply idx recs) r
  | None => foldl apply idx recs
  end.

Lemma replayJournal_spec recs lines rest idx :
  encodes recs lines -> no_nl rest = true ->
  replayJournal (Some (journal_of lines rest)) idx = Ok (replayed idx recs rest).
Proof.
  intros H Hr. unfold replayJournal, replayed.
  destruct (decide (journal_of lines rest = "")) as [E|Hne].
  - rewrite E. destruct H as [|r l recs lines]; simpl in E; [by subst|].
    by destruct l.
  - assert (Hm : forall X Y : result RunStoreErr Index,
      match journal_of lines rest with "" => X | _ => Y end = Y) by (by destruct (journal_of lines rest)).
    rewrite Hm. rewrite (journal_final lines rest Hr Hne).
    rewrite (Split_journal lines rest (encodes_no_nl _ _ H) Hr).
    rewrite last_snoc. destruct (String.eqb_spec rest "") as [->|Hrest]; simpl.
    + rewrite removelast_last. rewrite <- (app_nil_r lines), (replay_complete _ _ _ _ _ _ H). done.
    + rewrite (replay_complete _ _ _ _ _ _ H). simpl. destruct (blank rest); [done|].
      destruct (unmarshal rest); done.
Qed.

(** ** The store and its disk *)

(** Entries sit under their own ID and are not tombstones. *)
Definition index_ok (idx : Index) : Prop :=
  forall id r, idx !! id = Some r -> rr_GoalID r = id /\ rr_Deleted r = false.

Lemma apply_ok idx r : index_ok idx -> index_ok (apply idx r).
Proof.
  intros H. unfold apply. destruct (rr_Deleted r) eqn:E; intros id r'.
  - intros [_ Hl]%lookup_delete_Some. by apply H.
  - intros [[<- <-]|[_ Hl]]%lookup_insert_Some; [done | by apply H].
Qed.

Lemma foldl_apply_ok recs idx : index_ok idx -> index_ok (foldl apply idx recs).
Proof. revert idx. induction recs; simpl; auto using apply_ok. Qed.

Lemma restore_snapshot idx :
  index_ok idx -> foldl (fun i p => apply i p.2) ∅ (range idx) = idx.
Proof.
  intros H. pose proof (co_range Hcodec idx) as P.
  assert (Hin : forall p, p ∈ range idx -> idx !! p.1 = Some p.2).
  { intros [k v] Hp. rewrite P in Hp. by apply elem_of_map_to_list in Hp. }
  assert (Hall : forall k v, idx !! k = Some v -> (k, v) ∈ range idx).
  { intros k v Hk. rewrite P. by apply elem_of_map_to_list. }
  apply map_eq. intros k.
  assert (G : forall l (m : Index), (forall p, p ∈ l -> idx !! p.1 = Some p.2) ->
    foldl (fun i p => apply i p.2) m l !! k =
    match idx !! k with Some v => if bool_decide ((k, v) ∈ l) then Some v else m !! k | None => m !! k end).
  { clear -H. induction l as [|[k' v'] l IH]; intros m Hl; simpl.
    - by destruct (idx !! k).
    - assert (Hk' := Hl (k', v') ltac:(left)). simpl in Hk'. destruct (H _ _ Hk') as [Hid Hd].
      rewrite IH by (intros; apply Hl; by right).
      assert (Ha : apply m v' !! k = if decide (k' = k) then Some v' else m !! k).
      { unfold apply. rewrite Hd, Hid. case_decide; subst; [apply lookup_insert_eq | by apply lookup_insert_ne]. }
      rewrite Ha. destruct (idx !! k) as [v|] eqn:Ek.
      + destruct (decide (k' = k)) as [->|Hn].
        * assert (v' = v) as -> by congruence. rewrite (bool_decide_eq_true_2 ((k, v) ∈ (k, v) :: l)) by left.
          by destruct (bool_decide _).
        * assert (Hb : bool_decide ((k, v) ∈ (k', v') :: l) = bool_decide ((k, v) ∈ l)).
          { apply bool_decide_ext. rewrite elem_of_cons. naive_solver. }
          by rewrite Hb.
      + case_decide; [congruence|done]. }
  rewrite G by done. destruct (idx !! k) as [v|] eqn:Ek; [|apply lookup_empty].
  by rewrite bool_decide_eq_true_2 by auto.
Qed.

(** Replaying records over the index they produced changes nothing. *)
Lemma replay_idempotent recs idx : foldl apply (foldl apply idx recs) recs = foldl apply idx recs.
Proof.
  assert (G : forall recs (i j : Index) k, (i !! k = j !! k \/ exists r, r ∈ recs /\ rr_GoalID r = k) ->
    foldl apply i recs !! k = foldl apply j recs !! k).
  { clear. induction recs as [|r recs IH]; intros i j k Hk; simpl.
    - destruct Hk as [?|(r & Hr & _)]; [done|]. by apply not_elem_of_nil in Hr.
    - apply IH. destruct (decide (rr_GoalID r = k)) as [<-|Hn].
      + left. unfold apply. destruct (rr_Deleted r); [by rewrite !lookup_delete_eq | by rewrite !lookup_insert_eq].
      + destruct Hk as [Hk|(r' & [->|Hr]%elem_of_cons & Hid)]; [left | done | right; eauto].
        unfold apply. destruct (rr_Deleted r); [by rewrite !lookup_delete_ne | by rewrite !lookup_insert_ne]. }
  assert (U : forall recs (i : Index) k, (forall r, r ∈ recs -> rr_GoalID r <> k) ->
    foldl apply i recs !! k = i !! k).
  { clear. induction recs as [|r recs IH]; intros i k Hk; simpl; [done|].
    rewrite IH by (intros; apply Hk; by right). assert (rr_GoalID r <> k) by (apply Hk; left).
    unfold apply. destruct (rr_Deleted r); [by rewrite lookup_delete_ne | by rewrite lookup_insert_ne]. }
  apply map_eq. intros k.
  destruct (decide (Exists (fun r => rr_GoalID r = k) recs)) as [He|Hn].
  - apply G. right. by apply Exists_exists in He.
  - apply G. left. apply U. intros r Hr E. apply Hn, Exists_exists. eauto.
Qed.

(** A disk that holds an index: a snapshot (or none) and complete lines. *)
Definition holds (d : Disk) (idx : Index) : Prop :=
  exists base recs lines, index_ok base /\
    loadSnapshot (d_snapshot d) ∅ = Ok base /\
    default "" (d_journal d) = journal_of lines "" /\ encodes recs lines /\
    idx = foldl apply base recs.

Definition healthy (fs : FileStore) : Prop := holds (fs_disk fs) (fs_index fs).

Lemma holds_ok d idx : holds d idx -> index_ok idx.
Proof. intros (b & recs & lines & Hb & _ & _ & _ & ->). by apply foldl_apply_ok. Qed.

Lemma replayed_empty idx recs : replayed idx recs "" = foldl apply idx recs.
Proof. reflexivity. Qed.

(** Opening a disk with a partial last line [rest]. *)
Lemma open_partial d base recs lines rest :
  loadSnapshot (d_snapshot d) ∅ = Ok base -> default "" (d_journal d) = journal_of lines rest ->
  encodes recs lines -> no_nl rest = true ->
  NewFileStore d = Ok (mkFileStore (replayed base recs rest) d).
Proof.
  intros Hs Hj He Hr. unfold NewFileStore. rewrite Hs.
  destruct (d_journal d) as [j|] eqn:Ej; simpl in Hj.
  - subst j. by rewrite (replayJournal_spec recs lines rest base He Hr).
  - destruct He as [|r l recs lines]; simpl in Hj; [by subst|]. by destruct l.
Qed.

Lemma open_holds d idx : holds d idx -> NewFileStore d = Ok (mkFileStore idx d).
Proof.
  intros (base & recs & lines & Hb & Hs & Hj & He & ->).
  by rewrite (open_partial d base recs lines "" Hs Hj He eq_refl), replayed_empty.
Qed.

Lemma str_take_no_nl n s : no_nl s = true -> no_nl (str_take n s) = true.
Proof.
  unfold no_nl. revert n. induction s as [|c s IH]; intros [|n]; simpl; try done.
  intros. to_prop. by rewrite H, IH.
Qed.

Lemma str_take_app_le n s t : (n <= String.length s)%nat -> str_take n (s +:+ t) = str_take n s.
Proof.
  revert n. induction s as [|c s IH]; intros [|n] H; simpl in *; try done; [lia|]. by rewrite IH by lia.
Qed.

(** A disk after [n] bytes of the line of [r] were appended. *)
Lemma open_torn d idx r data n :
  holds d idx -> marshal r = Some data ->
  let d' := mkDisk (d_snapshot d) (Some (default "" (d_journal d) +:+ str_take n (data +:+ String nl ""))) in
  NewFileStore d' = Ok (mkFileStore (if (n <? String.length data)%nat then idx else apply idx r) d').
Proof.
  intros (base & recs & lines & Hb & Hs & Hj & He & ->) Hm d'.
  destruct (Nat.ltb_spec n (String.length data)) as [Hn|Hn].
  - rewrite (open_partial d' base recs lines (str_take n data)); try done.
    + unfold replayed. rewrite (co_prefix Hcodec _ _ _ Hm Hn). by destruct (blank _).
    + simpl. by rewrite Hj, <- journal_of_app, str_take_app_le by lia.
    + apply str_take_no_nl. by eapply (co_line Hcodec).
  - destruct (Nat.leb_spec (String.length data + 1) n) as [Hn2|Hn2].
    + apply open_holds. exists base, (recs ++ [r]), (lines ++ [data]). split_and!; try done.
      * simpl. rewrite Hj, str_take_all by (rewrite str_length_app; simpl; lia).
        by rewrite journal_of_snoc, (journal_of_app lines (data +:+ String nl "")).
      * apply Forall2_app; [done|]. by repeat constructor.
      * by rewrite foldl_snoc.
    + rewrite (open_partial d' base recs lines data); try done.
      * unfold replayed. by rewrite (co_blank Hcodec _ _ Hm), (co_roundtrip Hcodec _ _ Hm).
      * simpl. rewrite Hj, (str_take_app_le n) by lia. rewrite str_take_all by lia.
        by rewrite <- journal_of_app.
      * by eapply (co_line Hcodec).
Qed.

Lemma append_healthy r fs fs' :
  healthy fs -> append_apply r None fs = (None, fs') ->
  healthy fs' /\ fs_index fs' = apply (fs_index fs) r.
Proof.
  unfold append_apply, appendLine. intros H. destruct (marshal r) as [data|] eqn:Em; [|done].
  intros [= <-]. split; [|done]. destruct H as (base & recs & lines & Hb & Hs & Hj & He & Hi).
  exists base, (recs ++ [r]), (lines ++ [data]). simpl. split_and!; try done.
  - by rewrite Hj, journal_of_snoc, (journal_of_app lines (data +:+ String nl "")).
  - apply Forall2_app; [done|]. by repeat constructor.
  - by rewrite foldl_snoc, Hi.
Qed.

Lemma compact_healthy fault fs :
  healthy fs -> holds (fs_disk (Compact fault fs).2) (fs_index fs) /\
                fs_index (Compact fault fs).2 = fs_index fs.
Proof.
  intros H. unfold Compact. destruct (marshal_snap (fs_index fs)) as [data|] eqn:Em; [|done].
  destruct (co_snap Hcodec _ _ Em) as [Hne Hu].
  pose proof (holds_ok _ _ H) as Hok.
  assert (Hs : loadSnapshot (Some data) ∅ = Ok (fs_index fs)).
  { simpl. rewrite Hu, restore_snapshot by done. by destruct data. }
  destruct fault as [[]|]; simpl; split; try done.
  - destruct H as (base & recs & lines & Hb & _ & Hj & He & Hi).
    exists (fs_index fs), recs, lines. split_and!; try done.
    rewrite Hi. by rewrite replay_idempotent.
  - exists (fs_index fs), [], []. split_and!; try done; [|constructor].
    simpl. by destruct (d_journal (fs_disk fs)).
Qed.

(** ** Operations *)

Inductive StoreOp :=
| OpSave (now : Z) (r : RunRecord)
| OpDelete (now : Z) (id : string)
| OpCompact.

(** The disk's part in an operation. *)
Inductive StoreFault := NoFault | OnAppend (f : AppendFault) | OnCompact (f : CompactFault).

Definition append_fault (f : StoreFault) : option AppendFault :=
  match f with OnAppend f => Some f | _ => None end.
Definition compact_fault (f : StoreFault) : option CompactFault :=
  match f with OnCompact f => Some f | _ => None end.

Definition do_op (o : StoreOp) (f : StoreFault) (fs : FileStore) : option RunStoreErr * FileStore :=
  match o with
  | OpSave now r => Save now r (append_fault f) fs
  | OpDelete now id => Delete now id (append_fault f) fs
  | OpCompact => Compact (compact_fault f) fs
  end.

(** The abstract store: a map from goals to records. *)
Definition spec_op (o : StoreOp) (idx : Index) : Index :=
  match o with
  | OpSave now r => apply idx (stamp r (if rr_CreatedAt r =? 0 then now else rr_CreatedAt r) now)
  | OpDelete _ id => delete id idx
  | OpCompact => idx
  end.

(** Run operations until one fails. *)
Fixpoint run_ops (ops : list StoreOp) (fs : FileStore) : option RunStoreErr * FileStore :=
  match ops with
  | [] => (None, fs)
  | o :: ops =>
    let '(err, fs) := do_op o NoFault fs in
    match err with Some e => (Some e, fs) | None => run_ops ops fs end
  end.

Lemma journal_op_ok o fs fs' :
  healthy fs -> do_op o NoFault fs = (None, fs') ->
  healthy fs' /\ fs_index fs' = spec_op o (fs_index fs).
Proof.
  intros H. destruct o as [now r|now id|]; simpl.
  - apply append_healthy. done.
  - intros E. apply append_healthy in E as [? ->]; done.
  - intros E. destruct (compact_healthy None fs H) as [H1 H2]. simpl in E. rewrite E in *. simpl in *.
    split; [|done]. unfold healthy. by rewrite H2.
Qed.

(** An operation under any fault leaves a disk that opens with the index
    before it or after it. *)
Lemma journal_op_crash o f fs :
  healthy fs ->
  exists idx, NewFileStore (fs_disk (do_op o f fs).2) = Ok (mkFileStore idx (fs_disk (do_op o f fs).2)) /\
    (idx = fs_index fs \/ idx = spec_op o (fs_index fs)).
Proof.
  intros H. assert (Happ : forall r fa, exists idx,
    NewFileStore (fs_disk (append_apply r fa fs).2) = Ok (mkFileStore idx (fs_disk (append_apply r fa fs).2)) /\
    (idx = fs_index fs \/ idx = apply (fs_index fs) r)).
  { intros r fa. unfold append_apply, appendLine.
    destruct (marshal r) as [data|] eqn:Em; [|exists (fs_index fs); split; [by apply open_holds|by left]].
    pose proof (fun n => open_torn (fs_disk fs) (fs_index fs) r data n H Em) as T.
    pose proof (T (String.length (data +:+ String nl ""))) as Tall.
    rewrite str_take_all in Tall by lia.
    assert (Hif : forall b : bool, (if b then fs_index fs else apply (fs_index fs) r) = fs_index fs \/
      (if b then fs_index fs else apply (fs_index fs) r) = apply (fs_index fs) r)
      by (intros []; auto).
    destruct fa as [[|n|]|];
      [exists (fs_index fs); split; [by apply open_holds | by left]
      | eexists; split; [apply T | apply Hif]
      | eexists; split; [apply Tall | apply Hif]
      | eexists; split; [apply Tall | apply Hif]]. }
  destruct o as [now r|now id|]; simpl; [apply Happ | apply Happ |].
  exists (fs_index fs). split; [|by left]. apply open_holds. by apply compact_healthy.
Qed.
End Store.



(** After an append that wrote only part of its line, the store reopens; but the
    next successful save extends the torn line, and if the merged line is not JSON
    every later open of the store fails. *)
Theorem save_after_torn_append_poisons_journal marshal unmarshal marshal_snap unmarshal_snap range
  fs now1 r1 data1 n now2 r2 data2 fs1 fs2 :
  codec_ok marshal unmarshal marshal_snap unmarshal_snap range ->
  healthy marshal unmarshal_snap range fs ->
  marshal (stamp r1 (if rr_CreatedAt r1 =? 0 then now1 else rr_CreatedAt r1) now1) = Some data1 ->
  (0 < n < String.length data1)%nat ->
  NewFileStore unmarshal unmarshal_snap range
    (fs_disk (Save marshal now1 r1 (Some (AppendWriteFails n)) fs).2) = Ok fs1 ->
  Save marshal now2 r2 None fs1 = (None, fs2) ->
  marshal (stamp r2 (if rr_CreatedAt r2 =? 0 then now2 else rr_CreatedAt r2) now2) = Some data2 ->
  blank (str_take n data1 +:+ data2) = false -> unmarshal (str_take n data1 +:+ data2) = None ->
  exists k, NewFileStore unmarshal unmarshal_snap range (fs_disk fs2) = Err (RSErrParseJournal k).
Proof.
  intros Hc H Hm1 Hn Ho HS Hm2 Hb Hu.
  set (r1' := stamp r1 _ now1) in *. set (r2' := stamp r2 _ now2) in *.
  destruct H as (base & recs & lines & Hbo & Hs & Hj & He & Hi).
  assert (Hd1 : fs_disk fs1 = mkDisk (d_snapshot (fs_disk fs)) (Some (journal_of lines "" +:+ str_take n data1))).
  { unfold Save, append_apply, appendLine in Ho. fold r1' in Ho. rewrite Hm1 in Ho. simpl in Ho.
    rewrite Hj, str_take_app_le in Ho by lia. unfold NewFileStore in Ho. by go_cases. }
  assert (Hd2 : fs_disk fs2 = mkDisk (d_snapshot (fs_disk fs))
    (Some (journal_of (lines ++ [str_take n data1 +:+ data2]) ""))).
  { unfold Save, append_apply, appendLine in HS. fold r2' in HS. rewrite Hm2, Hd1 in HS. simpl in HS.
    injection HS as <-. simpl. f_equal. f_equal.
    by rewrite journal_of_snoc, (journal_of_app lines (_ +:+ _)), !str_app_assoc. }
  assert (Hnl : no_nl (str_take n data1 +:+ data2) = true).
  { unfold no_nl. rewrite str_forall_app. apply andb_true_iff. split.
    - apply str_take_no_nl. by eapply (co_line _ _ _ _ _ Hc).
    - by eapply (co_line _ _ _ _ _ Hc). }
  unfold NewFileStore. rewrite Hd2. simpl. rewrite Hs. unfold replayJournal.
  assert (Hne : journal_of (lines ++ [str_take n data1 +:+ data2]) "" <> "").
  { rewrite journal_of_snoc, journal_of_app. intros Hx. apply (f_equal String.length) in Hx.
    rewrite !str_length_app in Hx. simpl in Hx. lia. }
  assert (Hm : forall X Y : result RunStoreErr Index,
    match journal_of (lines ++ [str_take n data1 +:+ data2]) "" with "" => X | _ => Y end = Y)
    by (by destruct (journal_of (lines ++ [str_take n data1 +:+ data2]) "")).
  rewrite Hm, journal_final by done.
  rewrite Split_journal; [|apply Forall_app; split; [by eapply encodes_no_nl|by repeat constructor]|done].
  rewrite last_snoc, removelast_last. simpl.
  rewrite (replay_complete _ _ _ _ _ Hc _ _ _ _ _ _ He). simpl. rewrite Hb, Hu. simpl. eauto.
Qed.

(** ** A concrete codec *)

#[export] Instance RunStatus_countable : Countable RunStatus.
Proof.
  refine (inj_countable' (fun s => match s with
    | StatusPending => (0%nat, "") | StatusRunning => (1%nat, "") | StatusAwaitingApproval => (2%nat, "")
    | StatusCompleted => (3%nat, "") | StatusFailed => (4%nat, "") | StatusNeedsHuman => (5%nat, "")
    | StatusOther t => (6%nat, t) end)
    (fun p => match p.1 with
    | 0%nat => StatusPending | 1%nat => StatusRunning | 2%nat => StatusAwaitingApproval
    | 3%nat => StatusCompleted | 4%nat => StatusFailed | 5%nat => StatusNeedsHuman
    | _ => StatusOther p.2 end) _).
  by intros [].
Defined.

#[export] Instance AttemptState_eq_dec : EqDecision AttemptState.
Proof. solve_decision. Defined.
#[export] Program Instance AttemptState_countable : Countable AttemptState :=
  inj_countable' (fun a => (at_TaskID a, at_Attempt a, at_Status a, at_Detail a, at_UpdatedAt a))
    (fun '(t, n, s, d, u) => mkAttempt t n s d u) _.
Next Obligation. by intros []. Qed.

#[export] Instance PendingApproval_eq_dec : EqDecision PendingApproval.
Proof. solve_decision. Defined.
#[export] Program Instance PendingApproval_countable : Countable PendingApproval :=
  inj_countable' (fun p => (pa_TaskID p, pa_Reason p, pa_RequestedAt p, pa_Escalated p))
    (fun '(t, r, a, e) => mkPending t r a e) _.
Next Obligation. by intros []. Qed.

#[export] Program Instance RunRecord_countable : Countable RunRecord :=
  inj_countable' (fun r => (rr_GoalID r, rr_Goal r, rr_Plan r, rr_Attempts r, rr_Pending r,
                            rr_Status r, rr_CreatedAt r, rr_UpdatedAt r, rr_Deleted r, rr_Attempt r))
    (fun '(i, g, p, a, q, s, c, u, d, n) => mkRecord i g p a q s c u d n) _.
Next Obligation. by intros []. Qed.

(** Digits between braces: like a JSON object, no proper prefix parses. *)
Definition brace (s : string) : string := String "{"%char (s +:+ "}").

Fixpoint upto_brace (s : string) : option string :=
  match s with
  | "" => None
  | String c t =>
    if Ascii.eqb c "}"%char then match t with "" => Some "" | _ => None end
    else String c <$> upto_brace t
  end.

Definition unbrace (s : string) : option string :=
  match s with String c t => if Ascii.eqb c "{"%char then upto_brace t else None | "" => None end.

Lemma digit_not_brace c : is_digit c = true -> Ascii.eqb c "}"%char = false /\ Ascii.eqb c nl = false.
Proof. destruct c as [[] [] [] [] [] [] [] []]; vm_compute; auto. Qed.

Lemma upto_brace_digits s : str_forall is_digit s = true -> upto_brace (s +:+ "}") = Some s.
Proof.
  induction s as [|c s IH]; [done|]. simpl. intros. to_prop.
  destruct (digit_not_brace c) as [-> _]; [done|]. by rewrite IH.
Qed.

Lemma upto_brace_prefix s n :
  str_forall is_digit s = true -> (n <= String.length s)%nat -> upto_brace (str_take n (s +:+ "}")) = None.
Proof.
  revert n. induction s as [|c s IH]; intros [|n] Hs Hn; simpl in *; try done; [lia|]. to_prop.
  destruct (digit_not_brace c) as [-> _]; [done|]. by rewrite IH by (done || lia).
Qed.

Section DemoCodec.
Context {A : Type} `{Countable A}.
Definition demo_enc (a : A) : string := brace (format_nonneg (Z.pos (encode a))).
Definition demo_dec (s : string) : option A :=
  match unbrace s with
  | Some d => match parse_digits d with Some (Z.pos p) => decode p | _ => None end
  | None => None
  end.

Lemma demo_roundtrip a : demo_dec (demo_enc a) = Some a.
Proof.
  unfold demo_dec, demo_enc, brace, unbrace. rewrite Ascii.eqb_refl.
  rewrite upto_brace_digits by (by apply format_nonneg_digits).
  rewrite parse_format_nonneg by done. apply decode_encode.
Qed.

Lemma demo_prefix a n : (n < String.length (demo_enc a))%nat -> demo_dec (str_take n (demo_enc a)) = None.
Proof.
  unfold demo_dec, demo_enc, brace. simpl. rewrite str_length_app. simpl. intros Hn.
  destruct n as [|n]; [done|]. simpl.
  by rewrite upto_brace_prefix by (first [by apply format_nonneg_digits | lia]).
Qed.

Lemma demo_long a : (0 < 1 < String.length (demo_enc a))%nat.
Proof. unfold demo_enc, brace. simpl. rewrite str_length_app. simpl. lia. Qed.

Lemma demo_double a : demo_dec (String "{"%char (demo_enc a)) = None /\ blank (String "{"%char (demo_enc a)) = false.
Proof.
  assert (D : str_forall is_digit (format_nonneg (Z.pos (encode a))) = true)
    by (by apply format_nonneg_digits).
  unfold demo_enc, brace. generalize dependent (format_nonneg (Z.pos (encode a))). intros s D. split.
  - unfold demo_dec, unbrace. rewrite Ascii.eqb_refl. simpl.
    by rewrite upto_brace_digits.
  - assert (P : str_forall plain (String "{"%char (String "{"%char (s +:+ "}"))) = true).
    { simpl. rewrite str_forall_app. simpl. rewrite andb_true_r.
      by eapply str_forall_impl; [apply digit_plain|]. }
    unfold blank. pose proof (TrimSpace_pad "" (String "{"%char (String "{"%char (s +:+ "}"))) "") as T.
    rewrite str_app_nil_r in T.
    change ("" +:+ String "{"%char (String "{"%char (s +:+ "}")))
      with (String "{"%char (String "{"%char (s +:+ "}"))) in T.
    rewrite T by done. done.
Qed.

Lemma demo_no_nl a : no_nl (demo_enc a) = true.
Proof.
  unfold demo_enc, brace, no_nl. simpl. rewrite str_forall_app. simpl.
  rewrite andb_true_r. eapply str_forall_impl; [|by apply format_nonneg_digits].
  intros c Hc. by destruct (digit_not_brace c Hc) as [_ ->].
Qed.

Lemma demo_nonblank a : blank (demo_enc a) = false.
Proof.
  assert (P : str_forall plain (demo_enc a) = true).
  { unfold demo_enc, brace. simpl. rewrite str_forall_app. simpl. rewrite andb_true_r.
    eapply str_forall_impl; [apply digit_plain | by apply format_nonneg_digits]. }
  unfold blank. pose proof (TrimSpace_pad "" (demo_enc a) "") as T.
  rewrite str_app_nil_r in T. change ("" +:+ demo_enc a) with (demo_enc a) in T.
  rewrite T by done. done.
Qed.
End DemoCodec.

Lemma demo_codec_ok :
  codec_ok (fun r => Some (demo_enc r)) demo_dec (fun m => Some (demo_enc m)) demo_dec map_to_list.
Proof.
  split.
  - intros r data [= <-]. apply demo_no_nl.
  - intros r data [= <-]. apply demo_nonblank.
  - intros r data [= <-]. apply demo_roundtrip.
  - intros r data n [= <-]. apply demo_prefix.
  - intros m data [= <-]. split; [done | apply demo_roundtrip].
  - done.
Qed.

Definition fresh_store : FileStore := mkFileStore ∅ (mkDisk None None).

Lemma fresh_healthy :
  healthy (fun r => Some (demo_enc r)) demo_dec map_to_list fresh_store.
Proof. exists ∅, [], []. split_and!; try done; constructor. Qed.

Definition demo_rec (id : string) : RunRecord := mkRecord id "goal" "" [] [] StatusRunning 0 0 false 0.
Definition demo_ops : list StoreOp :=
  [OpSave 5 (demo_rec "a"); OpSave 6 (demo_rec "b"); OpCompact; OpDelete 7 "a"].



Lemma save_after_torn_append_poisons_journal_witness :
  let fs1 := mkFileStore ∅ (mkDisk None (Some "{")) in
  let fs2 := (Save (fun r => Some (demo_enc r)) 6 (demo_rec "b") None fs1).2 in
  NewFileStore demo_dec demo_dec map_to_list
    (fs_disk (Save (fun r => Some (demo_enc r)) 5 (demo_rec "a") (Some (AppendWriteFails 1)) fresh_store).2) = Ok fs1 /\
  exists k, NewFileStore demo_dec demo_dec map_to_list (fs_disk fs2) = Err (RSErrParseJournal k).
Proof.
  intros fs1 fs2.
  assert (Ho : NewFileStore demo_dec demo_dec map_to_list
    (fs_disk (Save (fun r => Some (demo_enc r)) 5 (demo_rec "a") (Some (AppendWriteFails 1)) fresh_store).2) = Ok fs1).
  { change (NewFileStore demo_dec demo_dec map_to_list (mkDisk None (Some "{")) = Ok fs1).
    vm_compute. reflexivity. }
  split; [exact Ho|].
  destruct (demo_double (stamp (demo_rec "b") 6 6)) as [Hd Hb].
  apply (save_after_torn_append_poisons_journal (fun r => Some (demo_enc r)) demo_dec
    (fun m => Some (demo_enc m)) demo_dec map_to_list fresh_store 5 (demo_rec "a")
    (demo_enc (stamp (demo_rec "a") 5 5)) 1 6 (demo_rec "b") (demo_enc (stamp (demo_rec "b") 6 6)) fs1 fs2).
  - exact demo_codec_ok.
  - exact fresh_healthy.
  - reflexivity.
  - apply demo_long.
  - exact Ho.
  - reflexivity.
  - reflexivity.
  - exact Hb.
  - exact Hd.
Defined.
