(* ===== verification/Policy.v ===== *)
(** * The policy client ([internal/policy])

    [client.go]: decisions over a Unix socket, failing closed; [obligation.go]:
    the obligations attached to a decision. The socket and the JSON decoder are
    parameters. *)

From stdpp Require Import base gmap strings list.
From Stdlib Require Import ZArith Lia.
From S2P Require Import Prelude GoStrings.

Local Open Scope Z_scope.

(** [Decision]; a response always carries one of the three. *)
Inductive PolicyDecision := PolicyAllow | PolicyDeny | PolicyRequireApproval.

#[export] Instance PolicyDecision_eq_dec : EqDecision PolicyDecision.
Proof. solve_decision. Defined.

Definition PolicyDecision_string (d : PolicyDecision) : string :=
  match d with
  | PolicyAllow => "allow"
  | PolicyDeny => "deny"
  | PolicyRequireApproval => "require_approval"
  end.

(** A decoded [any]: a string, a bool or something else. *)
Inductive AnyValue := VString (s : string) | VBool (b : bool) | VOther.

Record Obligation := mkObligation { ob_Type : string; ob_Value : AnyValue }.

(** [DecideRequest], with its nested structs flattened. *)
Record DecideRequest := mkDecideRequest {
  dr_SubjectType : string;
  dr_SubjectID : string;
  dr_Action : string;
  dr_ResourceType : string;
  dr_ResourceID : string;
  dr_EgressHosts : list string;
  dr_TargetRepo : string;
  dr_Sink : string;
  dr_Risk : string
}.

Record DecideResponse := mkDecideResponse {
  dp_Decision : PolicyDecision;
  dp_Obligations : list Obligation;
  dp_Reason : string
}.

Definition denied : DecideResponse := mkDecideResponse PolicyDeny [] "".

Inductive PolicyErr :=
| PErrTransport (e : string)
| PErrParse
| PErrWire (code message : string)
| PErrMissingDecision
| PErrNotOK.

(** [genericWire]: the decoded response. *)
Record genericWire := mkWire {
  w_Decision : string;
  w_Reason : string;
  w_Obligations : list Obligation;
  w_OK : bool;
  w_Error : option (string * string)
}.

Section Client.
(** The JSON decoder; the exchange of one line is a result of [do]'s dial,
    write and read. *)
Variable unmarshal : string -> option genericWire.

(** [do]: [Err] for a failed dial, deadline, marshal, write or empty read. *)
Definition do (exchange : result string string) : result PolicyErr genericWire :=
  match exchange with
  | Err e => Err (PErrTransport e)
  | Ok line => match unmarshal line with None => Err PErrParse | Some w => Ok w end
  end.

(** [Ping]. *)
Definition Ping (exchange : result string string) : option PolicyErr :=
  match do exchange with
  | Err e => Some e
  | Ok w =>
    match w_Error w with
    | Some (code, msg) => Some (PErrWire code msg)
    | None => if negb (w_OK w) then Some PErrNotOK else None
    end
  end.

(** [Decide]: the response and the error beside it. *)
Definition PolicyDecide (exchange : result string string) : DecideResponse * option PolicyErr :=
  match do exchange with
  | Err e => (denied, Some e)
  | Ok w =>
    match w_Error w with
    | Some (code, msg) => (denied, Some (PErrWire code msg))
    | None =>
      if String.eqb (w_Decision w) "" then (denied, Some PErrMissingDecision)
      else
        let pass d := (mkDecideResponse d (w_Obligations w) (w_Reason w), None) in
        if String.eqb (w_Decision w) "allow" then pass PolicyAllow
        else if String.eqb (w_Decision w) "deny" then pass PolicyDeny
        else if String.eqb (w_Decision w) "require_approval" then pass PolicyRequireApproval
        else (denied, None)
    end
  end.

(** The policy client reports allow or require-approval exactly when the daemon
    answered with a parsable line that carries no error and exactly that decision;
    every other exchange is a denial. *)
Theorem policy_client_fails_closed exchange d :
  d = PolicyAllow \/ d = PolicyRequireApproval ->
  dp_Decision (PolicyDecide exchange).1 = d <->
  exists line w, exchange = Ok line /\ unmarshal line = Some w /\ w_Error w = None /\
    w_Decision w = PolicyDecision_string d.
Proof.
  intros Hd. unfold PolicyDecide, do. split.
  - destruct exchange as [line|e]; [|by destruct Hd; subst].
    destruct (unmarshal line) as [w|] eqn:Eu; [|by destruct Hd; subst].
    destruct (w_Error w) as [[c m]|] eqn:Ee; [by destruct Hd; subst|].
    intros H. exists line, w. split_and!; try done.
    go_cases; destruct Hd; subst; simpl in *; congruence || done.
  - intros (line & w & -> & -> & -> & ->). destruct Hd; subst; reflexivity.
Qed.
End Client.

Lemma policy_client_fails_closed_witness :
  dp_Decision (PolicyDecide (fun _ => Some (mkWire "allow" "" [] false None)) (Ok "x")).1 = PolicyAllow.
Proof.
  apply (policy_client_fails_closed (fun _ => Some (mkWire "allow" "" [] false None)) (Ok "x") PolicyAllow).
  - by left.
  - eexists _, _. split_and!; reflexivity.
Defined.

(** ** Obligations *)

Definition ObligationTierSelect : string := "tier_select".
Definition ObligationVaultInjectionFloor : string := "vault_injection_floor".
Definition ObligationAuditEmit : string := "audit_emit".

(** [injectionRank]. *)
Definition injectionRank (mode : string) : Z :=
  if String.eqb mode "proxy" then 2
  else if String.eqb mode "env" then 1
  else if String.eqb mode "" then 0
  else -1.

(** [TierSelect]: an obligation whose value is not a string is passed over. *)
Fixpoint TierSelect (obs : list Obligation) : string :=
  match obs with
  | [] => ""
  | ob :: obs =>
    if negb (String.eqb (ob_Type ob) ObligationTierSelect) then TierSelect obs
    else match ob_Value ob with VString s => s | _ => TierSelect obs end
  end.

(** [AuditEmit]. *)
Fixpoint AuditEmit (obs : list Obligation) : bool :=
  match obs with
  | [] => false
  | ob :: obs =>
    if negb (String.eqb (ob_Type ob) ObligationAuditEmit) then AuditEmit obs
    else match ob_Value ob with VBool true => true | _ => AuditEmit obs end
  end.

(** [RaiseInjectionFloor]. *)
Fixpoint RaiseInjectionFloor (current : string) (obs : list Obligation) : string :=
  match obs with
  | [] => current
  | ob :: obs =>
    if negb (String.eqb (ob_Type ob) ObligationVaultInjectionFloor) then RaiseInjectionFloor current obs
    else match ob_Value ob with
    | VString floor =>
      RaiseInjectionFloor (if injectionRank current <? injectionRank floor then floor else current) obs
    | _ => RaiseInjectionFloor current obs
    end
  end.

(** A floor demanded by the obligations. *)
Definition demands (obs : list Obligation) (floor : string) : Prop :=
  mkObligation ObligationVaultInjectionFloor (VString floor) ∈ obs.

(** RaiseInjectionFloor never lowers the current mode, reaches at least the rank of
    every floor the obligations demand, and returns the current mode or one of the
    demanded floors. *)
Theorem injection_floor_is_raise_only_and_maximal current obs :
  let r := RaiseInjectionFloor current obs in
  injectionRank current <= injectionRank r /\
  (forall floor, demands obs floor -> injectionRank floor <= injectionRank r) /\
  (r = current \/ demands obs r).
Proof.
  simpl. revert current. induction obs as [|[ty v] obs IH]; intros current; simpl.
  - split_and!; [lia | by intros f ?%not_elem_of_nil | by left].
  - assert (Hskip : ty <> ObligationVaultInjectionFloor \/ (forall f, v <> VString f) ->
      injectionRank current <= injectionRank (RaiseInjectionFloor current obs) /\
      (forall floor, demands (mkObligation ty v :: obs) floor ->
         injectionRank floor <= injectionRank (RaiseInjectionFloor current obs)) /\
      (RaiseInjectionFloor current obs = current \/
       demands (mkObligation ty v :: obs) (RaiseInjectionFloor current obs))).
    { intros Hne. destruct (IH current) as (I1 & I2 & I3). split_and!; [done | |].
      - intros f [Hf|Hf]%elem_of_cons; [|by apply I2]. exfalso. injection Hf as <- <-. naive_solver.
      - destruct I3 as [?|?]; [by left | right; by right]. }
    destruct (String.eqb_spec ty ObligationVaultInjectionFloor) as [->|Hn]; simpl; [|apply Hskip; by left].
    destruct v as [f| |]; [|apply Hskip; by right..].
    destruct (IH (if injectionRank current <? injectionRank f then f else current)) as (I1 & I2 & I3).
    assert (Hmax : injectionRank current <= injectionRank (if injectionRank current <? injectionRank f then f else current) /\
      injectionRank f <= injectionRank (if injectionRank current <? injectionRank f then f else current)).
    { destruct (Z.ltb_spec (injectionRank current) (injectionRank f)); lia. }
    split_and!; [lia | |].
    + intros g [[= ->]|Hg]%elem_of_cons; [lia | by apply I2].
    + destruct I3 as [->|?]; [|right; by right].
      destruct (_ <? _); [right; left | by left].
Qed.
