(* ===== verification/AuditTrail.v ===== *)
(** * The audit seam ([internal/audit])

    [audit.go]: events and their validation; [blocksink.go]: the production sink,
    one call of the audit-trail program per event; [fake.go]: the in-memory sink;
    [verify.go], [checkpoint.go], [checkpoint_verify.go]: the verdicts on a sealed
    chain. The audit-trail program is a parameter ([ExecRunner]), and so is the
    JSON decoder of its answers. *)

From stdpp Require Import base gmap strings list.
From Stdlib Require Import ZArith Lia Ascii.
From S2P Require Import Prelude GoStrings.

Local Open Scope Z_scope.

(** ** Events *)

(** [AuditAction]; a string outside the closed set is [ActionOther]. *)
Inductive AuditAction :=
| ActionContainment
| ActionPick
| ActionAttempt
| ActionVerify
| ActionPublish
| ActionEscalate
| ActionFinish
| ActionPolicyDecision
| ActionChannelReject
| ActionTamper
| ActionGoalIntake
| ActionPlanDecided
| ActionSpawnDecided
| ActionCompletion
| ActionOther (s : string).

(** [AuditAction.String]. *)
Definition AuditAction_String (a : AuditAction) : string :=
  match a with
  | ActionContainment => "containment"
  | ActionPick => "pick"
  | ActionAttempt => "attempt"
  | ActionVerify => "verify"
  | ActionPublish => "publish"
  | ActionEscalate => "escalate"
  | ActionFinish => "finish"
  | ActionPolicyDecision => "policy-decision"
  | ActionChannelReject => "channel-reject"
  | ActionTamper => "tamper"
  | ActionGoalIntake => "goal-intake"
  | ActionPlanDecided => "plan-decided"
  | ActionSpawnDecided => "spawn-decided"
  | ActionCompletion => "completion"
  | ActionOther s => s
  end.

Definition all_actions : list AuditAction :=
  [ActionContainment; ActionPick; ActionAttempt; ActionVerify; ActionPublish; ActionEscalate;
   ActionFinish; ActionPolicyDecision; ActionChannelReject; ActionTamper; ActionGoalIntake;
   ActionPlanDecided; ActionSpawnDecided; ActionCompletion].

(** [validActions] and [AuditAction.Valid]: membership of the string. *)
Definition validActions : gset string := list_to_set (map AuditAction_String all_actions).

Definition Action_Valid (a : AuditAction) : bool := bool_decide (AuditAction_String a ∈ validActions).

Definition VerdictPass : string := "pass".
Definition VerdictFail : string := "fail".

(** [AuditVerdict.Valid]. *)
Definition Verdict_Valid (v : string) : bool := String.eqb v VerdictPass || String.eqb v VerdictFail.

Definition OutcomeCompleted : string := "completed".
Definition OutcomeFailed : string := "failed".
Definition OutcomeTimedOut : string := "timed-out".

(** [EventDetail]. *)
Record EventDetail := mkDetail {
  ed_Launcher : string;
  ed_Branch : string;
  ed_Remote : string;
  ed_Attempt : Z;
  ed_PolicyDecision : string;
  ed_PolicyReason : string;
  ed_Reason : string;
  ed_TamperDetected : bool
}.

Definition zero_detail : EventDetail := mkDetail "" "" "" 0 "" "" "" false.

(** [AuditEvent]. *)
Record AuditEvent := mkEvent {
  ae_Action : AuditAction;
  ae_RunID : string;
  ae_TaskID : string;
  ae_Verdict : string;
  ae_Outcome : string;
  ae_Detail : EventDetail
}.

Definition ae_PolicyDecision (ev : AuditEvent) : string := ed_PolicyDecision (ae_Detail ev).

Inductive AuditErr :=
| ValidationError (field : string)
| ErrAfterSeal
| ErrBlockEmitFailed (action e : string)
| ErrUnparseable (action out : string).

(** [Validate]: the first offending field. *)
Definition Validate (ev : AuditEvent) : option AuditErr :=
  if negb (Action_Valid (ae_Action ev)) then Some (ValidationError "action")
  else match ae_Action ev with
       | ActionVerify => if Verdict_Valid (ae_Verdict ev) then None else Some (ValidationError "verdict")
       | _ => None
       end.

(** ** The arguments of one emit *)

(** [buildTarget]. *)
Definition buildTarget (ev : AuditEvent) : string :=
  match ae_Action ev with
  | ActionContainment =>
    if negb (String.eqb (ed_Launcher (ae_Detail ev)) "") then ed_Launcher (ae_Detail ev) else "containment"
  | ActionPublish =>
    let branch := ed_Branch (ae_Detail ev) in
    let remote := ed_Remote (ae_Detail ev) in
    if negb (String.eqb branch "") && negb (String.eqb remote "") then branch +:+ "@" +:+ remote
    else if negb (String.eqb branch "") then branch else "publish"
  | a => if negb (String.eqb (ae_TaskID ev) "") then "task/" +:+ ae_TaskID ev else AuditAction_String a
  end.

(** [buildDecision]. *)
Definition buildDecision (ev : AuditEvent) : string :=
  match ae_Action ev with
  | ActionVerify => if Verdict_Valid (ae_Verdict ev) then ae_Verdict ev else ""
  | ActionFinish => if negb (String.eqb (ae_Outcome ev) "") then ae_Outcome ev else ""
  | _ => ""
  end.

(** [buildArgs]. *)
Definition buildArgs (logfile : string) (ev : AuditEvent) : list string :=
  let actor := if negb (String.eqb (ae_RunID ev) "") then "agent-builder/" +:+ ae_RunID ev
               else "agent-builder" in
  let args := ["emit"; "-logfile"; logfile; "-actor"; actor;
               "-action"; AuditAction_String (ae_Action ev); "-target"; buildTarget ev] in
  let decision := buildDecision ev in
  if negb (String.eqb decision "") then args ++ ["-decision"; decision] else args.

(** ** Sinks *)

(** What a process run answered: its standard output, and the error if it did
    not exit with 0; [unavailable] is whether the error wraps the sentinel
    [ErrVerifierUnavailable] (the program could not be started). *)
Record RunError := mkRunError { rerr_text : string; rerr_unavailable : bool }.

Section Runner.
(** [ExecRunner.Run] over the state [X] of the outside. *)
Context {X : Type} (Run : list string -> X -> (string * option RunError) * X).

(** The outside, and the calls made to the program so far. *)
Record Calls := mkCalls { c_ext : X; c_argvs : list (list string) }.

Definition call (args : list string) (c : Calls) : (string * option RunError) * Calls :=
  let '(r, x) := Run args (c_ext c) in (r, mkCalls x (c_argvs c ++ [args])).

(** [BlockSink]. *)
Record BlockSink := mkBlockSink { bs_logfile : string; bs_sealed : bool }.

Definition NewBlockSink (logfile : string) : BlockSink := mkBlockSink logfile false.

(** The decoder of [emitResponse]. *)
Variable parse_emit : string -> option (Z * string).

(** [BlockSink.Append]. *)
Definition Append (ev : AuditEvent) (b : BlockSink) (c : Calls) : option AuditErr * Calls :=
  if bs_sealed b then (Some ErrAfterSeal, c)
  else match Validate ev with
  | Some e => (Some e, c)
  | None =>
    let '((out, err), c) := call (buildArgs (bs_logfile b) ev) c in
    match err with
    | Some e => (Some (ErrBlockEmitFailed (AuditAction_String (ae_Action ev)) (rerr_text e)), c)
    | None =>
      match parse_emit out with
      | None => (Some (ErrUnparseable (AuditAction_String (ae_Action ev)) out), c)
      | Some _ => (None, c)
      end
    end
  end.

(** [BlockSink.Seal]. *)
Definition Seal (b : BlockSink) : option AuditErr * BlockSink := (None, mkBlockSink (bs_logfile b) true).

(** [FakeSink], with its [Append] and [Seal]. *)
Record FakeSink := mkFakeSink { fk_events : list AuditEvent; fk_sealCount : Z }.

Definition NewFakeSink : FakeSink := mkFakeSink [] 0.

Definition FakeSink_Append (ev : AuditEvent) (f : FakeSink) : option AuditErr * FakeSink :=
  if 0 <? fk_sealCount f then (Some ErrAfterSeal, f)
  else match Validate ev with
  | Some e => (Some e, f)
  | None => (None, mkFakeSink (fk_events f ++ [ev]) (fk_sealCount f))
  end.

Definition FakeSink_Seal (f : FakeSink) : option AuditErr * FakeSink :=
  (None, mkFakeSink (fk_events f) (fk_sealCount f + 1)).

(** ** Verdicts on a chain *)

(** [VerifyResult] and its wire shape [verifyResponse]. *)
Record VerifyResult := mkVerifyResult { vr_Valid : bool; vr_TamperedAt : option Z; vr_Message : string }.

Definition IsTampered (r : VerifyResult) : bool := negb (vr_Valid r).

Definition invalid_result : VerifyResult := mkVerifyResult false None "".

Variable parse_verify : string -> option VerifyResult.

(** [VerifyChainWithRunner]: a verdict, or the error of an unavailable verifier. *)
Definition VerifyChainWithRunner (logfile : string) (c : Calls)
  : (VerifyResult * option string) * Calls :=
  let '((out, runErr), c) := call ["verify"; "-logfile"; logfile] c in
  match parse_verify out with
  | None =>
    let e := match runErr with
             | Some e => if rerr_unavailable e then rerr_text e
                         else "audit: verifier unavailable: " +:+ rerr_text e
             | None => "audit: verifier unavailable: unparseable response " +:+ out
             end in
    ((invalid_result, Some e), c)
  | Some r => ((r, None), c)
  end.

(** [CheckpointSigner]; both of its runners are the same program. *)
Record CheckpointSigner := mkCheckpointSigner {
  cs_logfile : string;
  cs_logID : string;
  cs_signingKeyPath : string;
  cs_outPath : string
}.

Definition VerifyChain (cs : CheckpointSigner) (c : Calls) : (VerifyResult * option string) * Calls :=
  VerifyChainWithRunner (cs_logfile cs) c.

Definition checkpoint_args (cs : CheckpointSigner) : list string :=
  ["checkpoint"; "create"; "--logfile"; cs_logfile cs; "--log-id"; cs_logID cs;
   "--signing-key"; cs_signingKeyPath cs] ++
  (if negb (String.eqb (cs_outPath cs) "") then ["--out"; cs_outPath cs] else []).

(** [CreateCheckpoint]. *)
Definition CreateCheckpoint (cs : CheckpointSigner) (c : Calls) : option string * Calls :=
  let '((_, err), c) := call (checkpoint_args cs) c in
  (match err with Some e => Some ("audit: checkpoint create failed: " +:+ rerr_text e) | None => None end, c).

(** [CheckpointVerifier] and [VerifyCheckpoint]. *)
Record CheckpointVerifier := mkCheckpointVerifier {
  cv_checkpointPath : string;
  cv_publicKeyPath : string;
  cv_logfile : string
}.

Record CheckpointVerifyResult := mkCheckpointVerifyResult { cvr_Valid : bool; cvr_Message : string }.

Variable parse_checkpoint : string -> option CheckpointVerifyResult.

Definition VerifyCheckpoint (v : CheckpointVerifier) (c : Calls)
  : (CheckpointVerifyResult * option string) * Calls :=
  let args := ["checkpoint"; "verify"; "--checkpoint"; cv_checkpointPath v;
               "--public-key"; cv_publicKeyPath v] ++
              (if negb (String.eqb (cv_logfile v) "") then ["--logfile"; cv_logfile v] else []) in
  let '((out, runErr), c) := call args c in
  match parse_checkpoint out with
  | None =>
    let e := match runErr with
             | Some e => if rerr_unavailable e then rerr_text e
                         else "audit: checkpoint verifier unavailable: " +:+ rerr_text e
             | None => "audit: checkpoint verifier unavailable: unparseable response " +:+ out
             end in
    ((mkCheckpointVerifyResult false "", Some e), c)
  | Some r => ((r, None), c)
  end.

(** ** The production sink against the in-memory one *)

Inductive SinkOp := OpAppend (ev : AuditEvent) | OpSeal.

Definition block_op (op : SinkOp) (s : BlockSink * Calls) : option AuditErr * (BlockSink * Calls) :=
  match op with
  | OpAppend ev => let '(e, c) := Append ev s.1 s.2 in (e, (s.1, c))
  | OpSeal => let '(e, b) := Seal s.1 in (e, (b, s.2))
  end.

Definition fake_op (op : SinkOp) (f : FakeSink) : option AuditErr * FakeSink :=
  match op with OpAppend ev => FakeSink_Append ev f | OpSeal => FakeSink_Seal f end.

(** An error of the block itself, which the in-memory sink does not have. *)
Definition block_fault (e : AuditErr) : bool :=
  match e with ErrBlockEmitFailed _ _ | ErrUnparseable _ _ => true | _ => false end.

(** The two sinks agree on an operation, up to faults of the block. *)
Definition same_answer (eb ef : option AuditErr) : Prop :=
  eb = ef \/ ef = None /\ exists e, eb = Some e /\ block_fault e = true.

Fixpoint block_ops (ops : list SinkOp) (s : BlockSink * Calls) : list (option AuditErr) * (BlockSink * Calls) :=
  match ops with
  | [] => ([], s)
  | op :: ops => let '(e, s) := block_op op s in let '(es, s) := block_ops ops s in (e :: es, s)
  end.

Fixpoint fake_ops (ops : list SinkOp) (f : FakeSink) : list (option AuditErr) * FakeSink :=
  match ops with
  | [] => ([], f)
  | op :: ops => let '(e, f) := fake_op op f in let '(es, f) := fake_ops ops f in (e :: es, f)
  end.

(** The simulation relation: same seal, and one emit per recorded event. *)
Definition sink_sim (logfile : string) (old : list (list string)) (s : BlockSink * Calls) (f : FakeSink) : Prop :=
  bs_logfile s.1 = logfile /\ bs_sealed s.1 = (0 <? fk_sealCount f) /\ 0 <= fk_sealCount f /\
  c_argvs s.2 = old ++ map (buildArgs logfile) (fk_events f).

Lemma call_argvs args c : c_argvs (call args c).2 = c_argvs c ++ [args].
Proof. unfold call. by destruct (Run args (c_ext c)). Qed.

Lemma sink_sim_op logfile old op s f :
  sink_sim logfile old s f ->
  same_answer (block_op op s).1 (fake_op op f).1 /\ sink_sim logfile old (block_op op s).2 (fake_op op f).2.
Proof.
  intros (El & Es & Hn & Ea). destruct op as [ev|]; simpl.
  - unfold Append, FakeSink_Append. rewrite Es. destruct (0 <? fk_sealCount f) eqn:Ef; simpl.
    { split; [by left|]. unfold sink_sim. by rewrite Ef. }
    destruct (Validate ev) as [e|]; simpl; [split; [by left|]; unfold sink_sim; by rewrite Ef|].
    pose proof (call_argvs (buildArgs (bs_logfile s.1) ev) s.2) as Ec.
    destruct (call _ s.2) as [[out err] c]. simpl in Ec.
    assert (S : sink_sim logfile old (s.1, c) (mkFakeSink (fk_events f ++ [ev]) (fk_sealCount f))).
    { unfold sink_sim. simpl. split_and!; try done; [congruence|].
      by rewrite Ec, Ea, map_app, El, <- app_assoc. }
    destruct err as [e|]; simpl; [|destruct (parse_emit out)]; simpl; (split; [|done]).
    + right. split; [done|]. eexists. split; [done|]. done.
    + by left.
    + right. split; [done|]. eexists. split; [done|]. done.
  - split; [by left|]. unfold sink_sim. simpl. split_and!; try done; [|lia].
    symmetry. apply Z.ltb_lt. lia.
Qed.

Lemma sink_sim_ops logfile old ops s f :
  sink_sim logfile old s f ->
  Forall2 same_answer (block_ops ops s).1 (fake_ops ops f).1 /\
  sink_sim logfile old (block_ops ops s).2 (fake_ops ops f).2.
Proof.
  revert s f. induction ops as [|op ops IH]; intros s f S; simpl; [by split|].
  apply (sink_sim_op logfile old op) in S as [A S].
  destruct (block_op op s) as [e1 s1], (fake_op op f) as [e2 f1]. simpl in *.
  apply IH in S as [F S]. destruct (block_ops ops s1), (fake_ops ops f1). simpl in *. by split; [constructor|].
Qed.
End Runner.
Arguments Calls X : clear implicits.

(** ** What the chain keeps of an event *)

Lemma all_actions_in a : a ∈ all_actions \/ exists s, a = ActionOther s.
Proof. destruct a; try (left; by repeat constructor); right; eauto. Qed.

Lemma buildArgs_eq logfile ev ev' :
  buildArgs logfile ev = buildArgs logfile ev' <->
  AuditAction_String (ae_Action ev) = AuditAction_String (ae_Action ev') /\ ae_RunID ev = ae_RunID ev' /\
  buildTarget ev = buildTarget ev' /\ buildDecision ev = buildDecision ev'.
Proof.
  unfold buildArgs. split.
  - intros E. assert (Ht := f_equal (take 9) E). assert (Hd := f_equal (drop 9) E). clear E.
    assert (take9 : forall (a0 a1 a2 a3 a4 a5 a6 a7 a8 d : string) (b : bool),
      take 9 (if b then [a0;a1;a2;a3;a4;a5;a6;a7;a8] ++ ["-decision"; d] else [a0;a1;a2;a3;a4;a5;a6;a7;a8])
      = [a0;a1;a2;a3;a4;a5;a6;a7;a8]) by (intros; by destruct b).
    rewrite !take9 in Ht. injection Ht as Ha Hact Htg. split_and!; try done.
    + destruct (String.eqb_spec (ae_RunID ev) "") as [->|], (String.eqb_spec (ae_RunID ev') "") as [->|];
        simpl in Ha; try done. by injection Ha.
    + revert Hd. generalize (buildDecision ev) (buildDecision ev'). intros d d' Hd.
      destruct (String.eqb_spec d ""), (String.eqb_spec d' ""); simpl in Hd; congruence.
  - intros (-> & -> & -> & ->). done.
Qed.

(** The actions whose point is a decision, a reason or a tamper signal of
    [EventDetail]. *)
Definition carries_detail (a : AuditAction) : bool :=
  match a with
  | ActionPolicyDecision | ActionChannelReject | ActionTamper | ActionPlanDecided | ActionSpawnDecided => true
  | _ => false
  end.

(** The production audit sink answers every sequence of appends and seals as the in-
    memory sink the tests use, except for failures of the audit-trail program, and
    passes to the program exactly the events the in-memory sink keeps, in order. *)
Theorem production_sink_matches_fake_sink {X : Type}
    (Run : list string -> X -> (string * option RunError) * X) parse_emit logfile ops x argvs :
  let '(eb, (b, c)) := block_ops Run parse_emit ops (NewBlockSink logfile, mkCalls x argvs) in
  let '(ef, f) := fake_ops ops NewFakeSink in
  Forall2 same_answer eb ef /\ bs_sealed b = (0 <? fk_sealCount f) /\
  c_argvs c = argvs ++ map (buildArgs logfile) (fk_events f).
Proof.
  assert (S : sink_sim logfile argvs (NewBlockSink logfile, mkCalls x argvs) NewFakeSink).
  { unfold sink_sim. simpl. by rewrite app_nil_r. }
  apply (sink_sim_ops Run parse_emit logfile argvs ops) in S as [F (_ & S & _ & C)].
  destruct (block_ops _ _ ops _) as [eb [b c]], (fake_ops ops _) as [ef f]. done.
Qed.

(** Two events of an action that carries a decision are passed to the audit-trail
    program with the same arguments as soon as run and task agree: decision, reason
    and tamper mark are dropped. *)
Theorem chain_keeps_no_policy_decision logfile ev ev' :
  ae_Action ev' = ae_Action ev -> carries_detail (ae_Action ev) = true ->
  buildArgs logfile ev = buildArgs logfile ev' <-> ae_RunID ev = ae_RunID ev' /\ ae_TaskID ev = ae_TaskID ev'.
Proof.
  intros Ea Hc. rewrite buildArgs_eq, Ea.
  assert (Ht : buildTarget ev = buildTarget ev' <-> ae_TaskID ev = ae_TaskID ev').
  { unfold buildTarget. rewrite Ea. destruct (ae_Action ev); try discriminate;
      destruct (String.eqb_spec (ae_TaskID ev) ""), (String.eqb_spec (ae_TaskID ev') ""); simpl;
      (split; [intros E; try congruence; by injection E | congruence]). }
  assert (Hd : buildDecision ev = buildDecision ev')
    by (unfold buildDecision; rewrite Ea; by destruct (ae_Action ev)).
  tauto.
Qed.

Lemma chain_keeps_no_policy_decision_witness :
  let ev d := mkEvent ActionSpawnDecided "goal" "goal-0" "" "" (mkDetail "" "" "" 0 d "" "recipe" false) in
  ev "deny" <> ev "allow" /\ buildArgs "chain" (ev "deny") = buildArgs "chain" (ev "allow").
Proof.
  intros ev. split; [discriminate|].
  apply (chain_keeps_no_policy_decision "chain" (ev "deny") (ev "allow") eq_refl eq_refl). by split.
Defined.

(** A chain or a checkpoint counts as valid only on the program's own word, and
    never together with an error. *)
Theorem verdict_is_valid_only_when_reported {X : Type}
    (Run : list string -> X -> (string * option RunError) * X) parse_verify parse_checkpoint logfile v c :
  let '((r, err), _) := VerifyChainWithRunner Run parse_verify logfile c in
  let '((q, err'), _) := VerifyCheckpoint Run parse_checkpoint v c in
  (IsTampered r = false -> err = None /\ exists out e, (Run ["verify"; "-logfile"; logfile] (c_ext c)).1 = (out, e) /\
     parse_verify out = Some r) /\
  (err <> None -> IsTampered r = true) /\
  (err' <> None -> cvr_Valid q = false).
Proof.
  unfold VerifyChainWithRunner, VerifyCheckpoint, call.
  destruct (Run ["verify"; "-logfile"; logfile] (c_ext c)) as [[out e] x].
  destruct (Run _ (c_ext c)) as [[out' e'] x'] in |- *.
  destruct (parse_verify out) as [r|] eqn:Ep, (parse_checkpoint out') as [q|]; simpl; split_and!; try done;
    intros _; split; try done; by exists out, e.
Qed.
