(* ===== verification/Supervisor.v ===== *)
(** * The supervisor ([internal/supervisor])

    [supervisor.go]: one run of the in-box loop between the creation of the box
    and its teardown; [run_record.go]: the durable record of the run. The loop
    runs in a goroutine of its own: it is a process that takes one step at a
    time, and a run is an interleaving of its steps with a caller's cancellation,
    the wall-clock timer and the supervisor's [select]. The box, the record file,
    the audit sink and the checkpoint signer are seams over a world [W]; every
    call is kept in a log. *)

From stdpp Require Import base gmap strings list.
From Stdlib Require Import ZArith Lia Ascii.
From S2P Require Import Prelude GoStrings Seams AuditTrail.

Local Open Scope Z_scope.

(** ** Data *)

(** [BoxHandle]. *)
Record BoxHandle := mkBoxHandle { bh_ID : string; bh_Worktree : string; bh_Backend : string }.

(** [RunOutcome]. *)
Inductive RunOutcome := RunOutcomeCompleted | RunOutcomeFailed | RunOutcomeTimedOut.

Definition RunOutcome_string (o : RunOutcome) : string :=
  match o with
  | RunOutcomeCompleted => "completed"
  | RunOutcomeFailed => "failed"
  | RunOutcomeTimedOut => "timed-out"
  end.

(** The errors of [Run]; [errors.Join] is the concatenation of lists, and a nil
    error the empty list. *)
Inductive SupErr :=
| SErrNilContainmentBox
| SErrNilInBoxLoop
| SErrMissingTask
| SErrCreate (e : string)
| SErrRecordCreate (e : string)
| SErrRecordStart (e : string)
| SErrRecordFile (e : string)
| SErrCommand (e : string)
| SErrLoop (e : string)
| SErrLoopPanic (v : string)
| SErrRunCancelled
| SErrRunTimedOut
| SErrLeakedBox (id worktree e : string)
| SErrFinishRecord (e : string)
| SErrCloseRecord (e : string)
| SErrSeal (e : string)
| SErrTeardown (e : string).

(** [RunRecordMetadata]. *)
Record RunRecordMetadata := mkMeta {
  rm_RunID : string;
  rm_TaskID : string;
  rm_Repo : string;
  rm_Spec : string;
  rm_BoxID : string;
  rm_Worktree : string
}.

(** [runID]. *)
Definition runID (task : Task) (h : BoxHandle) : string :=
  let parts := (if blank (task_ID task) then [] else [task_ID task]) ++
               (if blank (bh_ID h) then [] else [bh_ID h]) in
  match parts with [] => "run" | _ => Join "/" parts end.

(** The calls a run makes. *)
Inductive SupEvent :=
| EvCreate (ok : bool)
| EvRecordWrite (kind : string)
| EvLoopStep
| EvKill
| EvRecordClose
| EvSeal
| EvVerifyChain (valid : bool)
| EvCheckpoint
| EvTeardown.

Section Supervisor.
Context {W L : Type}.

(** ** The run record *)

(** The record file, the clock's text and the JSON encoder. *)
Record RecordFile := mkRecordFile {
  rf_Create : string -> W -> option string * W;
  rf_Write : string -> W -> option string * W;
  rf_Close : W -> option string * W;
  rf_Now : W -> string;
  rf_Encode : gmap string string -> result string string
}.

Variable file : RecordFile.

Definition runRecordVersion : string := "1".

(** [writeEvent]: the given fields override the common ones. *)
Definition writeEvent (meta : RunRecordMetadata) (fields : gmap string string) (w : W) : option string * W :=
  let common : gmap string string :=
    <["version" := runRecordVersion]> (<["type" := default "" (fields !! "type")]>
    (<["run_id" := rm_RunID meta]> (<["timestamp" := rf_Now file w]> ∅))) in
  match rf_Encode file (fields ∪ common) with
  | Err e => (Some e, w)
  | Ok line => rf_Write file (line +:+ String nl "") w
  end.

(** [Start], [Command], [writeStream] and [Finish]. *)
Definition record_Start (meta : RunRecordMetadata) (w : W) : option string * W :=
  writeEvent meta (<["type" := "run_started"]> (<["task_id" := rm_TaskID meta]> (<["repo" := rm_Repo meta]>
    (<["spec" := rm_Spec meta]> (<["box_id" := rm_BoxID meta]> (<["worktree" := rm_Worktree meta]> ∅)))))) w.

Definition record_Command (meta : RunRecordMetadata) (command : string) (w : W) : option string * W :=
  writeEvent meta (<["type" := "command"]> (<["command" := command]> ∅)) w.

Definition writeStream (meta : RunRecordMetadata) (eventType field payload : string) (w : W)
  : option string * W :=
  writeEvent meta (<[field := payload]> (<["type" := eventType]> ∅)) w.

Definition record_Finish (meta : RunRecordMetadata) (outcome : RunOutcome) (runErr : option string) (w : W)
  : option string * W :=
  let event : gmap string string :=
    <["type" := "run_finished"]> (<["outcome" := RunOutcome_string outcome]> ∅) in
  writeEvent meta (match runErr with Some e => <["error" := e]> event | None => event end) w.

(** ** The seams *)

(** [ContainmentBox]. *)
Record Box := mkBox {
  box_Create : Task -> W -> result string BoxHandle * W;
  box_Kill : BoxHandle -> W -> option string * W;
  box_Teardown : BoxHandle -> W -> option string * W
}.

(** [InBoxLoop] as a process: [RunInside] starts in a state and takes steps; a
    step sees whether the context it was given is cancelled. *)
Inductive LoopStatus :=
| LoopRunning (l : L)
| LoopReturned (e : option string)
| LoopPanicked (v : string).

Record InBoxLoop := mkInBoxLoop {
  il_start : BoxHandle -> Task -> L;
  il_step : bool -> L -> W -> LoopStatus * W
}.

(** [audit.CheckpointSigner], as the supervisor calls it. *)
Record Signer := mkSigner {
  sg_VerifyChain : W -> (VerifyResult * option string) * W;
  sg_CreateCheckpoint : W -> option string * W
}.

(** [Supervisor]; nil seams are [None]. *)
Record Supervisor := mkSupervisor {
  sup_box : option Box;
  sup_loop : option InBoxLoop;
  sup_task : Task;
  sup_runRecordPath : string;
  sup_sink : option (W -> option string * W);
  sup_checkpointSigner : option Signer;
  sup_runTimeout : Z
}.

Variables (show : list SupErr -> string) (s : Supervisor).

(** The world and the log of calls. *)
Record Env := mkEnv { en_w : W; en_log : list SupEvent }.

Definition did (ev : SupEvent) (w : W) (e : Env) : Env := mkEnv w (en_log e ++ [ev]).

Definition lift_err (f : string -> SupErr) (e : option string) : list SupErr :=
  match e with Some e => [f e] | None => [] end.

(** [openRunRecord]. *)
Definition openRunRecord (h : BoxHandle) (e : Env) : result (list SupErr) (option RunRecordMetadata) * Env :=
  if blank (sup_runRecordPath s) then (Ok None, e)
  else
    let '(err, w) := rf_Create file (sup_runRecordPath s) (en_w e) in
    match err with
    | Some err => (Err [SErrRecordCreate err], mkEnv w (en_log e))
    | None =>
      let t := sup_task s in
      let meta := mkMeta (runID t h) (task_ID t) (task_Repo t) (task_Spec t) (bh_ID h) (bh_Worktree h) in
      let '(err, w) := record_Start meta w in
      let e := did (EvRecordWrite "run_started") w e in
      match err with
      | Some err =>
        let '(cerr, w) := rf_Close file (en_w e) in
        (Err (SErrRecordStart err :: lift_err SErrRecordFile cerr), did EvRecordClose w e)
      | None => (Ok (Some meta), e)
      end
    end.

(** [closeRunRecord]. *)
Definition closeRunRecord (record : option RunRecordMetadata) (outcome : RunOutcome) (runErr : list SupErr)
  (e : Env) : list SupErr * Env :=
  match record with
  | None => ([], e)
  | Some meta =>
    let '(ferr, w) := record_Finish meta outcome (match runErr with [] => None | _ => Some (show runErr) end) (en_w e) in
    let e := did (EvRecordWrite "run_finished") w e in
    let '(cerr, w) := rf_Close file (en_w e) in
    (lift_err SErrFinishRecord ferr ++ lift_err SErrCloseRecord cerr, did EvRecordClose w e)
  end.

(** [sealSink]. *)
Definition sealSink (e : Env) : list SupErr * Env :=
  match sup_sink s with
  | None => ([], e)
  | Some seal => let '(err, w) := seal (en_w e) in (lift_err SErrSeal err, did EvSeal w e)
  end.

(** [maybeCreateCheckpoint]. *)
Definition maybeCreateCheckpoint (e : Env) : Env :=
  match sup_checkpointSigner s with
  | None => e
  | Some cs =>
    let '((result, err), w) := sg_VerifyChain cs (en_w e) in
    let e := did (EvVerifyChain (match err with None => negb (IsTampered result) | Some _ => false end)) w e in
    match err with
    | Some _ => e
    | None =>
      if IsTampered result then e
      else let '(_, w) := sg_CreateCheckpoint cs (en_w e) in did EvCheckpoint w e
    end
  end.

(** The deferred function of [Run]. *)
Definition deferred (box : Box) (h : BoxHandle) (record : option RunRecordMetadata) (outcome : RunOutcome)
  (err : list SupErr) (e : Env) : list SupErr * Env :=
  let '(recordErr, e) := closeRunRecord record outcome err e in
  let '(sealErr, e) := sealSink e in
  let e := match err, recordErr, sealErr with [], [], [] => maybeCreateCheckpoint e | _, _, _ => e end in
  let '(terr, w) := box_Teardown box h (en_w e) in
  (err ++ recordErr ++ sealErr ++ lift_err SErrTeardown terr, did EvTeardown w e).

(** ** The run as a machine *)

(** Where [Run] stands: at its [select], joining the loop after a kill,
    returning, or finished with its deferred function done. *)
Inductive Phase :=
| Selecting
| Joining (outcome : RunOutcome) (trigger : SupErr) (killErr : list SupErr)
| Returning (outcome : RunOutcome) (err : list SupErr)
| Finished (err : list SupErr).

(** [m_ctx]: the caller's context is cancelled; [m_runCtx]: [cancelRun] was
    called; [m_timer]: the timer has fired. *)
Record Machine := mkMachine {
  m_env : Env;
  m_loop : LoopStatus;
  m_ctx : bool;
  m_timer : bool;
  m_runCtx : bool;
  m_phase : Phase
}.

Inductive Arm := ArmLoop | ArmCancel | ArmTimer.
Inductive SupTurn := TurnLoop | TurnCancel | TurnTimer | TurnSup (a : Arm).

(** The error [runLoop] sends on its channel, when the loop has ended. *)
Definition loop_result (st : LoopStatus) : option (list SupErr) :=
  match st with
  | LoopRunning _ => None
  | LoopReturned e => Some (lift_err SErrLoop e)
  | LoopPanicked v => Some [SErrLoopPanic v]
  end.

(** The kill of [killAndJoin]. *)
Definition kill (box : Box) (h : BoxHandle) (e : Env) : list SupErr * Env :=
  let '(err, w) := box_Kill box h (en_w e) in
  (lift_err (SErrLeakedBox (bh_ID h) (bh_Worktree h)) err, did EvKill w e).

(** One turn; [None] when it is not enabled. *)
Definition sup_step (box : Box) (loop : InBoxLoop) (h : BoxHandle) (record : option RunRecordMetadata)
  (t : SupTurn) (m : Machine) : option Machine :=
  match t with
  | TurnLoop =>
    match m_loop m with
    | LoopRunning l =>
      let '(st, w) := il_step loop (m_ctx m || m_runCtx m) l (en_w (m_env m)) in
      Some (mkMachine (did EvLoopStep w (m_env m)) st (m_ctx m) (m_timer m) (m_runCtx m) (m_phase m))
    | _ => None
    end
  | TurnCancel => Some (mkMachine (m_env m) (m_loop m) true (m_timer m) (m_runCtx m) (m_phase m))
  | TurnTimer =>
    if 0 <? sup_runTimeout s
    then Some (mkMachine (m_env m) (m_loop m) (m_ctx m) true (m_runCtx m) (m_phase m)) else None
  | TurnSup arm =>
    match m_phase m with
    | Selecting =>
      match arm with
      | ArmLoop =>
        match loop_result (m_loop m) with
        | None => None
        | Some err =>
          let outcome := match err with [] => RunOutcomeCompleted | _ => RunOutcomeFailed end in
          Some (mkMachine (m_env m) (m_loop m) (m_ctx m) (m_timer m) (m_runCtx m) (Returning outcome err))
        end
      | ArmCancel =>
        if m_ctx m then
          let '(kerr, e) := kill box h (m_env m) in
          Some (mkMachine e (m_loop m) (m_ctx m) (m_timer m) (m_runCtx m)
                  (Joining RunOutcomeFailed SErrRunCancelled kerr))
        else None
      | ArmTimer =>
        if m_timer m then
          let '(kerr, e) := kill box h (m_env m) in
          Some (mkMachine e (m_loop m) (m_ctx m) (m_timer m) true
                  (Joining RunOutcomeTimedOut SErrRunTimedOut kerr))
        else None
      end
    | Joining outcome trigger kerr =>
      match loop_result (m_loop m) with
      | None => None
      | Some err =>
        Some (mkMachine (m_env m) (m_loop m) (m_ctx m) (m_timer m) (m_runCtx m)
                (Returning outcome (trigger :: kerr ++ err)))
      end
    | Returning outcome err =>
      let '(err, e) := deferred box h record outcome err (m_env m) in
      Some (mkMachine e (m_loop m) (m_ctx m) (m_timer m) true (Finished err))
    | Finished _ => None
    end
  end.

Fixpoint sup_run (box : Box) (loop : InBoxLoop) (h : BoxHandle) (record : option RunRecordMetadata)
  (sched : list SupTurn) (m : Machine) : option Machine :=
  match sched with
  | [] => Some m
  | t :: sched =>
    match sup_step box loop h record t m with
    | None => None
    | Some m => sup_run box loop h record sched m
    end
  end.

(** Up to the start of the loop: an early return, or the created box with its
    record and the machine. A failure after the creation returns through the
    deferred function, with no loop. *)
Definition begin_run (w : W)
  : (list SupErr * Env) + (Box * InBoxLoop * BoxHandle * option RunRecordMetadata * Machine) :=
  let e := mkEnv w [] in
  match sup_box s, sup_loop s with
  | None, _ => inl ([SErrNilContainmentBox], e)
  | _, None => inl ([SErrNilInBoxLoop], e)
  | Some box, Some loop =>
    if blank (task_ID (sup_task s)) then inl ([SErrMissingTask], e)
    else
      let '(created, w) := box_Create box (sup_task s) (en_w e) in
      let e := did (EvCreate (is_ok created)) w e in
      match created with
      | Err err => inl ([SErrCreate err], e)
      | Ok h =>
        let '(opened, e) := openRunRecord h e in
        match opened with
        | Err err =>
          inr (box, loop, h, None,
               mkMachine e (LoopReturned None) false false false (Returning RunOutcomeFailed err))
        | Ok record =>
          let '(cerr, e) :=
            match record with
            | None => (None, e)
            | Some meta =>
              let '(err, w) := record_Command meta ("RunInside task " +:+ task_ID (sup_task s)) (en_w e) in
              (err, did (EvRecordWrite "command") w e)
            end in
          match cerr with
          | Some err =>
            inr (box, loop, h, record,
                 mkMachine e (LoopReturned None) false false false (Returning RunOutcomeFailed [SErrCommand err]))
          | None =>
            inr (box, loop, h, record,
                 mkMachine e (LoopRunning (il_start loop h (sup_task s))) false false false Selecting)
          end
        end
      end
  end.

(** [Run] under a schedule; [None] when the schedule does not finish it. *)
Definition Run (sched : list SupTurn) (w : W) : option (list SupErr * Env) :=
  match begin_run w with
  | inl r => Some r
  | inr (box, loop, h, record, m) =>
    match sup_run box loop h record sched m with
    | Some m => match m_phase m with Finished err => Some (err, m_env m) | _ => None end
    | None => None
    end
  end.
End Supervisor.

(** ** The order of a run's calls *)

(** Calls made while the loop may be running, and calls of the deferred function
    before the teardown. *)
Definition during (ev : SupEvent) : bool :=
  match ev with EvRecordWrite _ | EvLoopStep | EvKill | EvRecordClose => true | _ => false end.
Definition closing (ev : SupEvent) : bool :=
  match ev with
  | EvRecordWrite _ | EvRecordClose | EvSeal | EvVerifyChain _ | EvCheckpoint => true
  | _ => false
  end.

Definition kills (l : list SupEvent) : nat :=
  length (List.filter (fun ev => match ev with EvKill => true | _ => false end) l).

Lemma kills_app l l' : kills (l ++ l') = (kills l + kills l')%nat.
Proof. unfold kills. by rewrite List.filter_app, length_app. Qed.

Section Lifecycle.
Context {W L : Type} (file : @RecordFile W) (show : list SupErr -> string) (s : @Supervisor W L).
Context (box : @Box W) (loop : @InBoxLoop W L) (h : BoxHandle) (record : option RunRecordMetadata).
Local Notation sup_step := (sup_step file show s box loop h record).
Local Notation sup_run := (sup_run file show s box loop h record).

(** The log while the box exists, with [k] kills so far. *)
Definition alive (k : nat) (m : @Machine W L) : Prop :=
  exists mid, en_log (m_env m) = EvCreate true :: mid /\ Forall during mid /\ kills mid = k.

(** The log of a finished run. *)
Definition torn_down (err : list SupErr) (log : list SupEvent) : Prop :=
  exists mid fin, log = EvCreate true :: mid ++ fin ++ [EvTeardown] /\
    Forall during mid /\ Forall closing fin /\ (kills mid <= 1)%nat /\
    (sup_sink s <> None -> EvSeal ∈ fin) /\ (record <> None -> EvRecordClose ∈ fin) /\
    (EvCheckpoint ∈ fin -> EvVerifyChain true ∈ fin /\ kills mid = 0%nat) /\
    (kills mid = 1%nat -> SErrRunCancelled ∈ err \/ SErrRunTimedOut ∈ err).

Definition ended (st : @LoopStatus L) : Prop := match st with LoopRunning _ => False | _ => True end.

(** There is a record unless none is configured or it could not be opened. *)
Definition record_ok (err : list SupErr) : Prop :=
  record = None -> blank (sup_runRecordPath s) = true \/
  exists x, SErrRecordCreate x ∈ err \/ SErrRecordStart x ∈ err.

Definition sup_inv (m : @Machine W L) : Prop :=
  match m_phase m with
  | Selecting => record_ok [] /\ alive 0 m
  | Joining outcome trigger _ =>
    record_ok [] /\ alive 1 m /\ (m_ctx m || m_runCtx m) = true /\
    (trigger = SErrRunCancelled \/ trigger = SErrRunTimedOut)
  | Returning outcome err =>
    record_ok err /\ ended (m_loop m) /\ exists k, (k <= 1)%nat /\ alive k m /\
      (k = 1%nat -> SErrRunCancelled ∈ err \/ SErrRunTimedOut ∈ err)
  | Finished err => record_ok err /\ ended (m_loop m) /\ torn_down err (en_log (m_env m))
  end.

Lemma record_ok_mono err err' : err ⊆ err' -> record_ok err -> record_ok err'.
Proof. intros Hi H Hr. destruct (H Hr) as [?|(x & [?|?])]; [by left | right; exists x; set_solver..]. Qed.

Lemma alive_did k m ev w st c t r p :
  alive k m -> during ev = true ->
  alive (k + kills [ev])%nat (mkMachine (did ev w (m_env m)) st c t r p).
Proof.
  intros (mid & El & Fd & <-) Hd. exists (mid ++ [ev]). simpl. rewrite El, kills_app.
  split_and!; [done | | done]. rewrite Forall_app. split; [done|]. repeat constructor. by rewrite Hd.
Qed.

Lemma loop_result_ended (st : @LoopStatus L) err : loop_result st = Some err -> ended st.
Proof. by destruct st. Qed.

(** What the deferred function appends to the log. *)
Lemma deferred_log outcome err (e : @Env W) err' e' :
  deferred file show s box h record outcome err e = (err', e') ->
  exists fin, en_log e' = en_log e ++ fin ++ [EvTeardown] /\ Forall closing fin /\
    (sup_sink s <> None -> EvSeal ∈ fin) /\ (record <> None -> EvRecordClose ∈ fin) /\
    (EvCheckpoint ∈ fin -> EvVerifyChain true ∈ fin /\ err = []) /\ err ⊆ err'.
Proof.
  unfold deferred. intros E.
  destruct (closeRunRecord file show record outcome err e) as [recordErr e1] eqn:E1.
  assert (H1 : exists f1, en_log e1 = en_log e ++ f1 /\ Forall closing f1 /\ EvCheckpoint ∉ f1 /\
                (record <> None -> EvRecordClose ∈ f1)).
  { unfold closeRunRecord in E1. destruct record as [meta|].
    - destruct (record_Finish _ _ _ _ _) as [ferr w]. destruct (rf_Close _ _) as [cerr w1].
      injection E1 as _ <-. simpl. exists [EvRecordWrite "run_finished"; EvRecordClose].
      rewrite <- app_assoc. split_and!; [done | by repeat constructor | set_solver | set_solver].
    - injection E1 as _ <-. exists []. rewrite app_nil_r. split_and!; [done.. | set_solver | done]. }
  destruct (sealSink s e1) as [sealErr e2] eqn:E2.
  assert (H2 : exists f2, en_log e2 = en_log e1 ++ f2 /\ Forall closing f2 /\ EvCheckpoint ∉ f2 /\
                (sup_sink s <> None -> EvSeal ∈ f2)).
  { unfold sealSink in E2. destruct (sup_sink s) as [seal|].
    - destruct (seal _) as [serr w]. injection E2 as _ <-. exists [EvSeal].
      split_and!; [done | by repeat constructor | set_solver | set_solver].
    - injection E2 as _ <-. exists []. rewrite app_nil_r. split_and!; [done.. | set_solver | done]. }
  set (e3 := match err, recordErr, sealErr with [], [], [] => _ | _, _, _ => _ end) in E.
  assert (H3 : exists f3, en_log e3 = en_log e2 ++ f3 /\ Forall closing f3 /\
                (EvCheckpoint ∈ f3 -> EvVerifyChain true ∈ f3 /\ err = [])).
  { assert (Hno : exists f3, en_log e2 = en_log e2 ++ f3 /\ Forall closing f3 /\
                (EvCheckpoint ∈ f3 -> EvVerifyChain true ∈ f3 /\ err = [])).
    { exists []. rewrite app_nil_r. split_and!; [done.. | set_solver]. }
    unfold e3. destruct err; [|done]. destruct recordErr; [|done]. destruct sealErr; [|done].
    unfold maybeCreateCheckpoint. destruct (sup_checkpointSigner s) as [cs|]; [|done].
    destruct (sg_VerifyChain cs (en_w e2)) as [[r verr] w]. destruct verr as [verr|].
    { exists [EvVerifyChain false]. split_and!; [done | by repeat constructor | set_solver]. }
    destruct (IsTampered r) eqn:Et; simpl.
    { exists [EvVerifyChain false]. split_and!; [done | by repeat constructor | set_solver]. }
    destruct (sg_CreateCheckpoint cs w) as [cerr w']. exists [EvVerifyChain true; EvCheckpoint]. simpl.
    rewrite <- app_assoc. split_and!; [done | by repeat constructor | set_solver]. }
  destruct (box_Teardown box h (en_w e3)) as [terr w]. injection E as <- <-. simpl.
  destruct H1 as (f1 & L1 & F1 & N1 & R1), H2 as (f2 & L2 & F2 & N2 & S2), H3 as (f3 & L3 & F3 & C3).
  exists (f1 ++ f2 ++ f3). rewrite L3, L2, L1, <- !app_assoc. split_and!; try done.
  - by rewrite !Forall_app.
  - intros Hs. apply S2 in Hs. set_solver.
  - intros Hr. apply R1 in Hr. set_solver.
  - rewrite !elem_of_app. intros [?|[?|Hc]]; [done..|]. apply C3 in Hc as [? ?]. split; [set_solver | done].
  - set_solver.
Qed.

Lemma sup_step_inv t m m' : sup_inv m -> sup_step t m = Some m' -> sup_inv m'.
Proof.
  intros I E. destruct t as [| | |arm]; simpl in E.
  - destruct (m_loop m) as [l| |] eqn:El; try discriminate.
    destruct (il_step loop _ l _) as [st w]. injection E as <-. unfold sup_inv in *. simpl.
    destruct (m_phase m) as [|o t k|o er|er]; simpl in *.
    + destruct I as [? A]. split; [done|]. by apply (alive_did 0 m EvLoopStep).
    + destruct I as (? & A & ? & ?). split_and!; [done | by apply (alive_did 1 m EvLoopStep) | done..].
    + destruct I as (_ & I & _). by rewrite El in I.
    + destruct I as (_ & I & _). by rewrite El in I.
  - injection E as <-. unfold sup_inv in *. simpl. destruct (m_phase m); [done | | done..].
    destruct I as (? & ? & ? & ?). by split_and!.
  - destruct (0 <? _); [|discriminate]. injection E as <-. exact I.
  - unfold sup_inv in I. destruct (m_phase m) as [|o t k|o er|er] eqn:Ep; [destruct arm| | |]; try discriminate.
    + destruct I as [Hr A]. destruct (loop_result (m_loop m)) as [err|] eqn:Er; [|discriminate]. injection E as <-.
      unfold sup_inv. simpl. split; [by eapply record_ok_mono; [apply list_subseteq_nil|]|].
      split; [by eapply loop_result_ended|]. exists 0%nat. split_and!; [lia | done | done].
    + destruct I as [Hr A]. destruct (m_ctx m) eqn:Ec; [|discriminate]. unfold kill in E.
      destruct (box_Kill box h _) as [kerr w]. injection E as <-. unfold sup_inv. simpl. split_and!; try tauto.
      by apply (alive_did 0 m EvKill).
    + destruct I as [Hr A]. destruct (m_timer m) eqn:Ec; [|discriminate]. unfold kill in E.
      destruct (box_Kill box h _) as [kerr w]. injection E as <-. unfold sup_inv. simpl. split_and!; try tauto.
      * by apply (alive_did 0 m EvKill).
      * apply orb_true_r.
    + destruct (loop_result (m_loop m)) as [err|] eqn:Er; [|discriminate]. injection E as <-.
      destruct I as (Hr & A & Hc & Ht). unfold sup_inv. simpl.
      split; [by eapply record_ok_mono; [apply list_subseteq_nil|]|]. split; [by eapply loop_result_ended|].
      exists 1%nat. split_and!; [lia | done |]. intros _. destruct Ht as [->| ->]; set_solver.
    + destruct (deferred _ _ _ _ _ _ _ _ _) as [err' e'] eqn:Ed. injection E as <-.
      destruct I as (Hro & I0 & k & Hk & (mid & Em & Fd & Ek) & Ht). unfold sup_inv. simpl.
      apply deferred_log in Ed as (fin & El & Fc & Hs & Hr & Hc & Hi).
      split; [by eapply record_ok_mono|]. split; [done|].
      exists mid, fin. rewrite El, Em. split_and!; try done; [lia | | ].
      * intros Hx. apply Hc in Hx as [? ->]. split; [done|]. destruct (decide (k = 1%nat)) as [E1|]; [|lia].
        exfalso. destruct (Ht E1); by eapply not_elem_of_nil.
      * intros E1. rewrite Ek in E1. destruct (Ht E1); [left | right]; by apply Hi.
Qed.

Lemma sup_run_inv sched m m' : sup_inv m -> sup_run sched m = Some m' -> sup_inv m'.
Proof.
  revert m. induction sched as [|t sched IH]; intros m I E; simpl in E; [by injection E as <-|].
  destruct (sup_step t m) as [m1|] eqn:Es; [|discriminate]. eapply IH; [|done]. by eapply sup_step_inv.
Qed.

(** ** A cancelled run returns *)

(** The loop's own steps under a cancelled context. *)
Definition cancelled_step (c' c : L * W) : Prop := il_step loop true c.1 c.2 = (LoopRunning c'.1, c'.2).

Lemma sup_run_app s1 s2 m m1 : sup_run s1 m = Some m1 -> sup_run (s1 ++ s2) m = sup_run s2 m1.
Proof.
  revert m. induction s1 as [|t s1 IH]; intros m E; simpl in *; [by injection E as ->|].
  destruct (sup_step t m) as [m2|]; [|discriminate]. by apply IH.
Qed.

Definition own (t : SupTurn) : bool := match t with TurnLoop | TurnSup _ => true | _ => false end.

(** Under a cancelled context the loop runs to its end. *)
Lemma loop_drains m :
  well_founded cancelled_step -> (m_ctx m || m_runCtx m) = true ->
  exists sched m', Forall own sched /\ sup_run sched m = Some m' /\ ended (m_loop m') /\
    m_phase m' = m_phase m /\ m_ctx m' = m_ctx m /\ m_timer m' = m_timer m /\ m_runCtx m' = m_runCtx m.
Proof.
  intros WF Hc. destruct (m_loop m) as [l|e|v] eqn:El.
  2,3: exists [], m; rewrite El; by split_and!.
  remember (l, en_w (m_env m)) as c eqn:Ecfg. revert l m Hc El Ecfg.
  induction (WF c) as [c _ IH]. intros l m Hc El ->.
  destruct (il_step loop true l (en_w (m_env m))) as [st w] eqn:Es.
  set (m1 := mkMachine (did EvLoopStep w (m_env m)) st (m_ctx m) (m_timer m) (m_runCtx m) (m_phase m)).
  assert (E1 : sup_step TurnLoop m = Some m1) by (unfold sup_step, m1; by rewrite El, Hc, Es).
  destruct st as [l'|e|v].
  2,3: exists [TurnLoop], m1; (split_and!; [by repeat constructor | cbn [Supervisor.sup_run]; by rewrite E1 | done..]).
  destruct (IH (l', w) Es l' m1 Hc eq_refl eq_refl) as (sched & m' & Fo & Er & ?).
  exists (TurnLoop :: sched), m'. split; [by constructor|]. split; [|done].
  cbn [Supervisor.sup_run]. by rewrite E1.
Qed.

Lemma returns_from m :
  well_founded cancelled_step -> sup_inv m -> m_ctx m = true \/ m_timer m = true ->
  exists sched m' err, Forall own sched /\ sup_run sched m = Some m' /\ m_phase m' = Finished err.
Proof.
  intros WF I Hc.
  assert (Hfin : forall m o er, m_phase m = Returning o er ->
            exists m' err, sup_run [TurnSup ArmLoop] m = Some m' /\ m_phase m' = Finished err).
  { intros m0 o er Ep. simpl. rewrite Ep. destruct (deferred _ _ _ _ _ _ _ _ _) as [err e]. eauto. }
  assert (Hjoin : forall m o t k, m_phase m = Joining o t k -> (m_ctx m || m_runCtx m) = true ->
            exists sched m' err, Forall own sched /\ sup_run sched m = Some m' /\ m_phase m' = Finished err).
  { intros m0 o t k Ep Hx. destruct (loop_drains m0 WF Hx) as (sc & m1 & Fo & Er & En & Eph & _).
    destruct (loop_result (m_loop m1)) as [err|] eqn:Elr; [|by destruct (m_loop m1)].
    set (m2 := mkMachine (m_env m1) (m_loop m1) (m_ctx m1) (m_timer m1) (m_runCtx m1)
                 (Returning o (t :: k ++ err))).
    assert (E2 : sup_run [TurnSup ArmLoop] m1 = Some m2) by (simpl; by rewrite Eph, Ep, Elr).
    destruct (Hfin m2 _ _ eq_refl) as (m3 & er & E3 & Ep3).
    exists (sc ++ [TurnSup ArmLoop] ++ [TurnSup ArmLoop]), m3, er. split_and!; [|by rewrite (sup_run_app _ _ _ _ Er), (sup_run_app _ _ _ _ E2)|done].
    rewrite !Forall_app. split_and!; [done | by repeat constructor | by repeat constructor]. }
  destruct (m_phase m) as [|o t k|o er|er] eqn:Ep.
  - assert (Hsel : exists arm m1 o t k, sup_run [TurnSup arm] m = Some m1 /\ m_phase m1 = Joining o t k /\
              (m_ctx m1 || m_runCtx m1) = true).
    { destruct Hc as [Hc|Hc]; [exists ArmCancel | exists ArmTimer]; simpl; rewrite Ep, Hc;
        destruct (kill box h (m_env m)) as [kerr e]; do 4 eexists; (split; [done|]); (split; [done|]); simpl;
        [done | apply orb_true_r]. }
    destruct Hsel as (arm & m1 & o & t & k & E1 & Ep1 & Hx).
    destruct (Hjoin m1 o t k Ep1 Hx) as (sc & m' & err & Fo & Er & Ef).
    exists ([TurnSup arm] ++ sc), m', err. split_and!; [|by rewrite (sup_run_app _ _ _ _ E1)|done].
    rewrite Forall_app. split; [by repeat constructor | done].
  - eapply Hjoin; [done|]. unfold sup_inv in I. rewrite Ep in I. by destruct I as (_ & _ & ? & _).
  - destruct (Hfin m o er Ep) as (m' & err & E & Ef). exists [TurnSup ArmLoop], m', err.
    split_and!; [by repeat constructor | done..].
  - exists [], m, er. by split_and!.
Qed.
End Lifecycle.

(** What a run that gets past its checks and the creation of its box starts from. *)
Lemma begin_inv {W L : Type} (file : @RecordFile W) (s : @Supervisor W L) w :
  match begin_run file s w with
  | inl (err, e) => err <> [] /\ (en_log e = [] \/ en_log e = [EvCreate false])
  | inr (_, _, _, record, m) => sup_inv s record m
  end.
Proof.
  unfold begin_run. destruct (sup_box s) as [box|], (sup_loop s) as [loop|]; simpl; [|by split; [|left]..].
  destruct (blank _); [by split; [|left]|].
  destruct (box_Create box (sup_task s) w) as [[h|err] w1]; simpl; [|by split; [|right]].
  unfold openRunRecord. destruct (blank (sup_runRecordPath s)) eqn:Eb.
  { simpl. split; [intros _; by left|]. by exists []. }
  assert (Hlost : forall x rest mid k, Forall during mid -> kills mid = 0%nat ->
    (x = SErrRecordCreate k \/ x = SErrRecordStart k) ->
    forall w, sup_inv s None (@mkMachine W L (mkEnv w (EvCreate true :: mid)) (LoopReturned None) false false false
                (Returning RunOutcomeFailed (x :: rest)))).
  { intros x rest mid k Fd Hk Hx w2. unfold sup_inv. simpl. split_and!; [|done|].
    - intros _. right. exists k. destruct Hx as [->| ->]; set_solver.
    - exists 0%nat. split_and!; [lia | by exists mid | done]. }
  destruct (rf_Create file _ _) as [[err|] w2]; simpl.
  { apply (Hlost (SErrRecordCreate err) [] [] err); [constructor | done | by left]. }
  destruct (record_Start file _ w2) as [[err|] w3]; simpl.
  { destruct (rf_Close file w3) as [cerr w4]. simpl.
    apply (Hlost (SErrRecordStart err) _ [EvRecordWrite "run_started"; EvRecordClose] err);
      [by repeat constructor | done | by right]. }
  destruct (record_Command file _ _ w3) as [[err|] w4]; simpl.
  - split_and!; [done | done |]. exists 0%nat. split_and!; [lia | | done].
    exists [EvRecordWrite "run_started"; EvRecordWrite "command"]. by split_and!; [|repeat constructor|].
  - split; [done|]. exists [EvRecordWrite "run_started"; EvRecordWrite "command"].
    by split_and!; [|repeat constructor|].
Qed.

(** ** What a run does to the world *)

(** A property of the world that the supervisor's own calls keep holds at the end
    of a run when the box's creation and the loop's steps establish it. *)
Section WorldInvariant.
Context {W L : Type} (file : @RecordFile W) (show : list SupErr -> string) (s : @Supervisor W L).
Context (box : @Box W) (loop : @InBoxLoop W L).

(** The calls of the supervisor keep [Q]. *)
Record quiet (Q : W -> Prop) : Prop := mkQuiet {
  q_create : forall p w, Q w -> Q (rf_Create file p w).2;
  q_write : forall l w, Q w -> Q (rf_Write file l w).2;
  q_close : forall w, Q w -> Q (rf_Close file w).2;
  q_kill : forall h w, Q w -> Q (box_Kill box h w).2;
  q_teardown : forall h w, Q w -> Q (box_Teardown box h w).2;
  q_seal : forall seal w, sup_sink s = Some seal -> Q w -> Q (seal w).2;
  q_verify : forall cs w, sup_checkpointSigner s = Some cs -> Q w -> Q (sg_VerifyChain cs w).2;
  q_sign : forall cs w, sup_checkpointSigner s = Some cs -> Q w -> Q (sg_CreateCheckpoint cs w).2
}.

Lemma writeEvent_quiet Q meta fields w : quiet Q -> Q w -> Q (writeEvent file meta fields w).2.
Proof. intros HQ Hw. unfold writeEvent. destruct (rf_Encode file _); [by apply (q_write Q HQ) | done]. Qed.

Lemma deferred_quiet Q h record outcome err e :
  quiet Q -> Q (en_w e) -> Q (en_w (deferred file show s box h record outcome err e).2).
Proof.
  intros HQ Hw. unfold deferred.
  destruct (closeRunRecord file show record outcome err e) as [recordErr e1] eqn:E1.
  assert (H1 : Q (en_w e1)).
  { unfold closeRunRecord in E1. destruct record as [meta|]; [|by injection E1 as _ <-].
    destruct (record_Finish file meta outcome _ (en_w e)) as [ferr w] eqn:Ef.
    assert (Hf : Q w) by (replace w with (ferr, w).2 by done; rewrite <- Ef; exact (writeEvent_quiet Q _ _ _ HQ Hw)).
    destruct (rf_Close file _) as [cerr w1] eqn:Ec. injection E1 as _ <-. simpl in *.
    replace w1 with (cerr, w1).2 by done. rewrite <- Ec. by apply (q_close Q HQ). }
  destruct (sealSink s e1) as [sealErr e2] eqn:E2.
  assert (H2 : Q (en_w e2)).
  { unfold sealSink in E2. destruct (sup_sink s) as [seal|] eqn:Es; [|by injection E2 as _ <-].
    destruct (seal (en_w e1)) as [serr w] eqn:El. injection E2 as _ <-. simpl.
    replace w with (serr, w).2 by done. rewrite <- El. by apply (q_seal Q HQ). }
  set (e3 := match err, recordErr, sealErr with [], [], [] => _ | _, _, _ => _ end).
  assert (H3 : Q (en_w e3)).
  { unfold e3. destruct err, recordErr, sealErr; try done. unfold maybeCreateCheckpoint.
    destruct (sup_checkpointSigner s) as [cs|] eqn:Es; [|done].
    destruct (sg_VerifyChain cs (en_w e2)) as [[r verr] w] eqn:Ev.
    assert (Hv : Q w) by (replace w with ((r, verr), w).2 by done; rewrite <- Ev; by apply (q_verify Q HQ)).
    destruct verr; [done|]. destruct (IsTampered r); [done|]. simpl.
    destruct (sg_CreateCheckpoint cs w) as [cerr w1] eqn:Ec. simpl.
    replace w1 with (cerr, w1).2 by done. rewrite <- Ec. by apply (q_sign Q HQ). }
  destruct (box_Teardown box h (en_w e3)) as [terr w] eqn:Et. simpl.
  replace w with (terr, w).2 by done. rewrite <- Et. by apply (q_teardown Q HQ).
Qed.

Variable P : @LoopStatus L -> W -> Prop.
Hypothesis P_quiet : forall st, quiet (P st).
Hypothesis P_step : forall c l w, P (LoopRunning l) w -> P (il_step loop c l w).1 (il_step loop c l w).2.

(** Once the run returns, the world is as some status of the loop left it; an
    error-free run saw the loop return cleanly. *)
Definition world_inv (m : @Machine W L) : Prop :=
  match m_phase m with
  | Selecting | Joining _ _ _ => P (m_loop m) (en_w (m_env m))
  | Returning _ err | Finished err =>
      ended (m_loop m) /\ exists st, P st (en_w (m_env m)) /\ (err = [] -> loop_result st = Some [])
  end.

Lemma sup_step_world h record t m m' :
  world_inv m -> sup_step file show s box loop h record t m = Some m' -> world_inv m'.
Proof.
  intros I E. destruct t as [| | |arm]; simpl in E.
  - destruct (m_loop m) as [l| |] eqn:El; try discriminate. unfold world_inv in I. rewrite El in I.
    assert (Hst := P_step (m_ctx m || m_runCtx m) l (en_w (m_env m))).
    destruct (il_step loop _ l _) as [st w]. simpl in Hst. injection E as <-. unfold world_inv. simpl.
    destruct (m_phase m); [auto | auto | by destruct I | by destruct I].
  - by injection E as <-.
  - destruct (0 <? _); [|discriminate]. by injection E as <-.
  - unfold world_inv in I. destruct (m_phase m) as [|o t k|o er|er] eqn:Ep; [destruct arm| | |]; try discriminate.
    + destruct (loop_result (m_loop m)) as [err|] eqn:Er; [|discriminate]. injection E as <-. unfold world_inv. simpl.
      split; [by eapply loop_result_ended|]. exists (m_loop m). split; [done|]. by intros ->.
    + destruct (m_ctx m); [|discriminate]. unfold kill in E. destruct (box_Kill box h (en_w (m_env m))) as [kerr w] eqn:Ek.
      injection E as <-. unfold world_inv. simpl. replace w with (kerr, w).2 by done. rewrite <- Ek. by apply (q_kill _ (P_quiet _)).
    + destruct (m_timer m); [|discriminate]. unfold kill in E. destruct (box_Kill box h (en_w (m_env m))) as [kerr w] eqn:Ek.
      injection E as <-. unfold world_inv. simpl. replace w with (kerr, w).2 by done. rewrite <- Ek. by apply (q_kill _ (P_quiet _)).
    + destruct (loop_result (m_loop m)) as [err|] eqn:Er; [|discriminate]. injection E as <-. unfold world_inv. simpl.
      split; [by eapply loop_result_ended|]. by exists (m_loop m).
    + destruct I as (En & st & Hp & He).
      assert (Hd := deferred_quiet (P st) h record o er (m_env m) (P_quiet st) Hp).
      destruct (deferred file show s box h record o er (m_env m)) as [err' e'] eqn:Ed. injection E as <-.
      unfold world_inv. simpl in *. split; [done|]. exists st. split; [done|]. intros ->.
      apply He. by apply deferred_log in Ed as (_ & _ & _ & _ & _ & _ & Hi%list_nil_subseteq).
Qed.

Lemma sup_run_world h record sched m m' :
  world_inv m -> sup_run file show s box loop h record sched m = Some m' -> world_inv m'.
Proof.
  revert m. induction sched as [|t sched IH]; intros m I E; simpl in E; [by injection E as <-|].
  destruct (sup_step _ _ _ _ _ _ _ t m) as [m1|] eqn:Es; [|discriminate]. eapply IH; [|done]. by eapply sup_step_world.
Qed.

(** A run that got as far as its box. *)
Lemma Run_world sched w err e :
  sup_box s = Some box -> sup_loop s = Some loop ->
  (forall h w', box_Create box (sup_task s) w = (Ok h, w') -> P (LoopRunning (il_start loop h (sup_task s))) w') ->
  Run file show s sched w = Some (err, e) ->
  (err <> [] /\ (en_w e = w \/ exists x, box_Create box (sup_task s) w = (Err x, en_w e))) \/
  exists st, P st (en_w e) /\ (err = [] -> loop_result st = Some []).
Proof.
  intros Hb Hl Hc. unfold Run, begin_run. rewrite Hb, Hl. simpl.
  destruct (blank _); [intros [= <- <-]; left; split; [done | by left]|].
  destruct (box_Create box (sup_task s) w) as [[h|x] w1]; simpl;
    [|intros [= <- <-]; left; split; [done | right; by exists x]].
  specialize (Hc h w1 eq_refl). set (st0 := LoopRunning _) in *. intros E. right.
  assert (Hfin : forall record m, world_inv m ->
     match sup_run file show s box loop h record sched m with
     | Some m => match m_phase m with Finished er => Some (er, m_env m) | _ => None end
     | None => None
     end = Some (err, e) -> exists st, P st (en_w e) /\ (err = [] -> loop_result st = Some [])).
  { intros record m I Er. destruct (sup_run _ _ _ _ _ _ _ _ m) as [m'|] eqn:Es; [|done].
    apply sup_run_world in Es; [|done]. unfold world_inv in Es. destruct (m_phase m'); try done.
    injection Er as <- <-. by destruct Es. }
  unfold openRunRecord in E. destruct (blank (sup_runRecordPath s)); [by eapply Hfin in E|].
  destruct (rf_Create file (sup_runRecordPath s) (en_w _)) as [cerr w2] eqn:Ec.
  assert (H2 : P st0 w2) by (replace w2 with (cerr, w2).2 by done; rewrite <- Ec; by apply (q_create _ (P_quiet _))).
  assert (Hlost : forall w er lg, P st0 w -> er <> [] ->
            world_inv (mkMachine (mkEnv w lg) (LoopReturned None) false false false (Returning RunOutcomeFailed er))).
  { intros w3 er lg Hp He. split; [done|]. by exists st0. }
  destruct cerr as [x|]; [by eapply Hfin in E; [|by apply Hlost]|].
  destruct (record_Start file _ w2) as [serr w3] eqn:Es.
  assert (H3 : P st0 w3) by (replace w3 with (serr, w3).2 by done; rewrite <- Es; exact (writeEvent_quiet _ _ _ _ (P_quiet _) H2)).
  destruct serr as [x|].
  { simpl in E. destruct (rf_Close file w3) as [clerr w4] eqn:Ecl. eapply Hfin in E; [done|]. apply Hlost; [|done].
    simpl. replace w4 with (clerr, w4).2 by done. rewrite <- Ecl. by apply (q_close _ (P_quiet _)). }
  simpl in E. destruct (record_Command file _ _ w3) as [merr w4] eqn:Em.
  assert (H4 : P st0 w4) by (replace w4 with (merr, w4).2 by done; rewrite <- Em; exact (writeEvent_quiet _ _ _ _ (P_quiet _) H3)).
  destruct merr as [x|]; (eapply Hfin in E; [done|]); [by apply Hlost | done].
Qed.
End WorldInvariant.


(** C15. From every state a run can reach after a cancellation or timeout, some
    continuation made of the supervisor's and the loop's own steps makes Run return,
    provided the loop stops when its context is cancelled. *)
Theorem cancelled_run_always_returns {W L : Type} (file : @RecordFile W) show (s : @Supervisor W L) w
    box loop h record m0 sched m :
  begin_run file s w = inr (box, loop, h, record, m0) ->
  sup_run file show s box loop h record sched m0 = Some m ->
  well_founded (cancelled_step loop) -> m_ctx m = true \/ m_timer m = true ->
  exists more err e, Forall own more /\ Run file show s (sched ++ more) w = Some (err, e).
Proof.
  intros Eb Er WF Hc. pose proof (begin_inv file s w) as B. rewrite Eb in B.
  pose proof (sup_run_inv file show s box loop h record sched m0 m B Er) as I.
  destruct (returns_from file show s box loop h record m WF I Hc) as (more & m' & err & Fo & E & Ep).
  exists more, err, (m_env m'). split; [done|]. unfold Run. rewrite Eb.
  rewrite (sup_run_app _ _ _ _ _ _ _ _ _ _ _ Er), E, Ep. done.
Qed.

(** ** Instances *)

(** A world that counts down the loop's work; a loop that stops at once when
    its context is cancelled. *)
Definition demo_file : @RecordFile nat :=
  mkRecordFile (fun _ w => (None, w)) (fun _ w => (None, w)) (fun w => (None, w)) (fun _ => "t") (fun _ => Ok "{}").
Definition demo_box : @Box nat :=
  mkBox (fun t w => (Ok (mkBoxHandle ("sandbox-" +:+ task_ID t) "/w" "podman"), w)) (fun _ w => (None, w)) (fun _ w => (None, w)).
Definition demo_proc : @InBoxLoop nat unit :=
  mkInBoxLoop (fun _ _ => tt)
    (fun cancelled _ w => if cancelled then (LoopReturned (Some "killed"), w)
                          else match w with O => (LoopReturned None, w) | S n => (LoopRunning tt, n) end).
Definition demo_sup : @Supervisor nat unit :=
  mkSupervisor (Some demo_box) (Some demo_proc) (mkTask "t1" "r" "s" "") "rec"
    (Some (fun w => (None, w)))
    (Some (mkSigner (fun w => ((mkVerifyResult true None "", None), w)) (fun w => (None, w)))) 10.

Local Notation demo_sched := [TurnLoop; TurnTimer; TurnLoop; TurnSup ArmTimer; TurnLoop; TurnSup ArmLoop; TurnSup ArmLoop].
Local Notation demo_run sched := (Run demo_file (fun _ => "") demo_sup sched 5%nat).


Local Notation demo_begin := (begin_run demo_file demo_sup 5%nat).
Local Notation demo_two m0 :=
  (sup_run demo_file (fun _ => "") demo_sup demo_box demo_proc (mkBoxHandle "sandbox-t1" "/w" "podman")
    (Some (mkMeta "t1/sandbox-t1" "t1" "r" "s" "sandbox-t1" "/w")) [TurnLoop; TurnCancel] m0).

Lemma cancelled_run_always_returns_witness :
  exists more err e, Forall own more /\ demo_run ([TurnLoop; TurnCancel] ++ more) = Some (err, e).
Proof.
  destruct demo_begin as [r|[[[[box loop] h] record] m0]] eqn:Eb; [by vm_compute in Eb|].
  assert (Hb : (box, loop, h, record) = (demo_box, demo_proc, mkBoxHandle "sandbox-t1" "/w" "podman",
    Some (mkMeta "t1/sandbox-t1" "t1" "r" "s" "sandbox-t1" "/w"))) by (vm_compute in Eb; by injection Eb as <- <- <- <- <-).
  injection Hb as -> -> -> ->.
  assert (C : match demo_begin with
              | inr (_, _, _, _, m0) => match demo_two m0 with Some m => m_ctx m | None => false end
              | inl _ => false end = true) by (vm_compute; reflexivity).
  rewrite Eb in C. destruct (demo_two m0) as [m|] eqn:Er; [|discriminate].
  refine (cancelled_run_always_returns demo_file (fun _ => "") demo_sup 5%nat _ _ _ _ m0 _ m Eb Er _ (or_introl C)).
  intros [l w]. constructor. intros y Hy. discriminate.
Defined.
