(* ===== verification/RunConfig.v ===== *)
(** * The run configuration ([internal/runtime/run.go], [ConfigFromEnv])

    The environment is a function [getenv]; a run's [Config] is read from it,
    defaults filled in, and refused with the first missing or malformed
    variable. The registry entries the credential check looks at come from the
    process environment, through [registry.LoadFromEnv]. *)

From stdpp Require Import base gmap strings list.
From Stdlib Require Import ZArith Lia Ascii.
From S2P Require Import Prelude GoStrings Paths Seams TaskSource Registry.

Local Open Scope Z_scope.

(** ** Data *)

Definition EnvTaskRoot : string := "AGENT_BUILDER_TASK_ROOT".
Definition EnvWorktree : string := "AGENT_BUILDER_WORKTREE".
Definition EnvClaudeCLI : string := "AGENT_BUILDER_CLAUDE_CLI".
Definition EnvExecBoxLauncher : string := "AGENT_BUILDER_EXEC_BOX_LAUNCHER".
Definition EnvExecSandboxBin : string := "AGENT_BUILDER_EXEC_SANDBOX_BIN".
Definition EnvRunRecord : string := "AGENT_BUILDER_RUN_RECORD".
Definition EnvAuditRecord : string := "AGENT_BUILDER_AUDIT_RECORD".
Definition EnvAuditBin : string := "AGENT_BUILDER_AUDIT_BIN".
Definition EnvRunTimeout : string := "AGENT_BUILDER_RUN_TIMEOUT".
Definition EnvMaxAttempts : string := "AGENT_BUILDER_MAX_ATTEMPTS".
Definition EnvPublishRemote : string := "AGENT_BUILDER_PUBLISH_REMOTE".
Definition EnvGitCLI : string := "AGENT_BUILDER_GIT_CLI".
Definition EnvGitHubCLI : string := "AGENT_BUILDER_GH_CLI".
Definition EnvGitToken : string := "AGENT_BUILDER_GIT_TOKEN".
Definition EnvGitHubToken : string := "AGENT_BUILDER_GITHUB_TOKEN".
Definition EnvRecipeName : string := "AGENT_BUILDER_RECIPE".
Definition EnvVaultBin : string := "AGENT_BUILDER_VAULT_BIN".
Definition EnvVaultSocket : string := "AGENT_BUILDER_VAULT_SOCKET".
Definition EnvVaultStorePath : string := "AGENT_BUILDER_VAULT_STORE_PATH".
Definition EnvPolicyBin : string := "AGENT_BUILDER_POLICY_BIN".
Definition EnvPolicySocket : string := "AGENT_BUILDER_POLICY_SOCKET".
Definition EnvPolicyRisk : string := "AGENT_BUILDER_POLICY_RISK".
Definition EnvAuditCheckpointKey : string := "AGENT_BUILDER_AUDIT_CHECKPOINT_KEY".
Definition EnvAuditCheckpointLogID : string := "AGENT_BUILDER_AUDIT_CHECKPOINT_LOG_ID".
Definition EnvAuditCheckpointOut : string := "AGENT_BUILDER_AUDIT_CHECKPOINT_OUT".
Definition EnvAuditCheckpointPublicKey : string := "AGENT_BUILDER_AUDIT_CHECKPOINT_PUBLIC_KEY".
Definition EnvSandboxRuntime : string := "AGENT_BUILDER_SANDBOX_RUNTIME".
Definition EnvRouterStatePath : string := "AGENT_BUILDER_ROUTER_STATE_PATH".
Definition defaultExecBoxLauncher : string := "containment/execution-box/run.sh".

(** [executor.ClaudeCLIAuthEnv] and [executor.ClaudeCLIOAuthEnv]. *)
Definition ClaudeCLIAuthEnv : string := "ANTHROPIC_API_KEY".
Definition ClaudeCLIOAuthEnv : string := "CLAUDE_CODE_OAUTH_TOKEN".

(** [Config], without the approval hook, which [Run] takes beside it. *)
Record Config := mkConfig {
  cf_TaskRoot : string;
  cf_Worktree : string;
  cf_ClaudeCLI : string;
  cf_ClaudeToken : string;
  cf_ClaudeOAuthToken : string;
  cf_ExecBoxLauncher : string;
  cf_ExecSandboxBin : string;
  cf_RunRecordPath : string;
  cf_AuditRecordPath : string;
  cf_AuditBin : string;
  cf_RunTimeout : Z;
  cf_MaxAttempts : Z;
  cf_PublishRemote : string;
  cf_GitCLI : string;
  cf_GitHubCLI : string;
  cf_GitToken : string;
  cf_GitHubToken : string;
  cf_RecipeName : string;
  cf_DispatchedTask : option Task;
  cf_VaultBin : string;
  cf_VaultSocket : string;
  cf_VaultStorePath : string;
  cf_PolicyBin : string;
  cf_PolicySocket : string;
  cf_PolicyRisk : string;
  cf_AuditCheckpointKey : string;
  cf_AuditCheckpointLogID : string;
  cf_AuditCheckpointOut : string;
  cf_AuditCheckpointPublicKey : string;
  cf_RouterStatePath : string
}.

Inductive ConfigErr :=
| CErrSandboxRuntime
| CErrMissing (name : string)
| CErrMissingCredential
| CErrInvalid (name value : string).

(** [cleanPath]. *)
Definition cleanPath (path : string) : string :=
  let path := TrimSpace path in if String.eqb path "" then "" else Clean path.

Definition or_default (value d : string) : string := if String.eqb value "" then d else value.

Section FromEnv.
(** [time.ParseDuration], in nanoseconds, and the result of
    [registry.LoadFromEnv] on the process environment. *)
Variables (ParseDuration : string -> option Z) (loaded : result LoadErr (list RegistryEntry)).
Variable getenv : string -> string.

(** The local-only test of the credential check. *)
Definition allLocal : bool :=
  match loaded with
  | Ok (e :: es) => forallb (fun e => String.eqb (re_SecretRef e) "") (e :: es)
  | _ => false
  end.

(** [ConfigFromEnv], with the [SecretSource] of [getenvSecretSource]. *)
Definition ConfigFromEnv : result ConfigErr Config :=
  if negb (blank (getenv EnvSandboxRuntime)) then Err CErrSandboxRuntime
  else
    let trimmed name := TrimSpace (getenv name) in
    let path name := cleanPath (getenv name) in
    let config timeout attempts :=
      mkConfig (path EnvTaskRoot) (path EnvWorktree) (or_default (trimmed EnvClaudeCLI) "claude")
        (getenv ClaudeCLIAuthEnv) (getenv ClaudeCLIOAuthEnv)
        (or_default (path EnvExecBoxLauncher) defaultExecBoxLauncher) (path EnvExecSandboxBin)
        (path EnvRunRecord) (path EnvAuditRecord) (trimmed EnvAuditBin) timeout attempts
        (trimmed EnvPublishRemote) (or_default (trimmed EnvGitCLI) "git")
        (or_default (trimmed EnvGitHubCLI) "gh") (getenv EnvGitToken) (getenv EnvGitHubToken)
        (or_default (trimmed EnvRecipeName) "coding-agent") None
        (path EnvVaultBin) (path EnvVaultSocket) (path EnvVaultStorePath)
        (path EnvPolicyBin) (path EnvPolicySocket) (trimmed EnvPolicyRisk)
        (path EnvAuditCheckpointKey) (trimmed EnvAuditCheckpointLogID) (path EnvAuditCheckpointOut)
        (path EnvAuditCheckpointPublicKey) (path EnvRouterStatePath) in
    if String.eqb (path EnvTaskRoot) "" then Err (CErrMissing EnvTaskRoot)
    else if String.eqb (path EnvWorktree) "" then Err (CErrMissing EnvWorktree)
    else if negb allLocal && blank (getenv ClaudeCLIAuthEnv) && blank (getenv ClaudeCLIOAuthEnv)
    then Err CErrMissingCredential
    else if String.eqb (trimmed EnvPublishRemote) "" then Err (CErrMissing EnvPublishRemote)
    else
      let timeoutRaw := trimmed EnvRunTimeout in
      if String.eqb timeoutRaw "" then Err (CErrMissing EnvRunTimeout)
      else match ParseDuration timeoutRaw with
      | None => Err (CErrInvalid EnvRunTimeout timeoutRaw)
      | Some timeout =>
        let attemptsRaw := trimmed EnvMaxAttempts in
        if String.eqb attemptsRaw "" then Err (CErrMissing EnvMaxAttempts)
        else match ParseInt attemptsRaw with
        | None => Err (CErrInvalid EnvMaxAttempts attemptsRaw)
        | Some attempts => Ok (config timeout attempts)
        end
      end.
End FromEnv.

(** ** What a configuration needs *)

Lemma Clean_nonempty p : Clean p <> "".
Proof.
  unfold Clean. destruct (HasPrefix p "/"); [done|].
  destruct (String.eqb_spec (Join "/" (clean_segs false [] (Split "/" p))) ""); done.
Qed.

Lemma cleanPath_empty p : String.eqb (cleanPath p) "" = blank p.
Proof.
  unfold cleanPath, blank. destruct (String.eqb_spec (TrimSpace p) ""); [done|].
  apply String.eqb_neq, Clean_nonempty.
Qed.

Lemma or_default_nonempty v d : d <> "" -> or_default v d <> "".
Proof. intros Hd. unfold or_default. by destruct (String.eqb_spec v ""). Qed.

(** The environments [ConfigFromEnv] accepts. *)
Definition complete_env (pd : string -> option Z) (loaded : result LoadErr (list RegistryEntry))
  (getenv : string -> string) (timeout attempts : Z) : Prop :=
  blank (getenv EnvSandboxRuntime) = true /\
  (forall name, name ∈ [EnvTaskRoot; EnvWorktree; EnvPublishRemote; EnvRunTimeout; EnvMaxAttempts] ->
     blank (getenv name) = false) /\
  (blank (getenv ClaudeCLIAuthEnv) = false \/ blank (getenv ClaudeCLIOAuthEnv) = false \/
   exists es, loaded = Ok es /\ es <> [] /\ Forall (fun e => re_SecretRef e = "") es) /\
  pd (TrimSpace (getenv EnvRunTimeout)) = Some timeout /\
  ParseInt (TrimSpace (getenv EnvMaxAttempts)) = Some attempts.

(** The fields a run cannot do without. *)
Definition usable (c : Config) : Prop :=
  Forall (fun s => s <> "") [cf_TaskRoot c; cf_Worktree c; cf_PublishRemote c; cf_ClaudeCLI c; cf_ExecBoxLauncher c;
                             cf_GitCLI c; cf_GitHubCLI c; cf_RecipeName c] /\
  in_int64 (cf_MaxAttempts c) = true /\ cf_DispatchedTask c = None.

Lemma allLocal_spec loaded :
  allLocal loaded = true <-> exists es, loaded = Ok es /\ es <> [] /\ Forall (fun e => re_SecretRef e = "") es.
Proof.
  unfold allLocal. split.
  - destruct loaded as [[|e es]|]; [done| |done]. intros H. exists (e :: es). split_and!; [done..|].
    apply Forall_forall. intros x Hx. rewrite forallb_forall in H. apply String.eqb_eq, H, list_elem_of_In, Hx.
  - intros (es & -> & Hn & Hf). destruct es as [|e es]; [done|]. apply forallb_forall. intros x Hx.
    rewrite Forall_forall in Hf. apply String.eqb_eq, Hf, list_elem_of_In, Hx.
Qed.

(** ConfigFromEnv succeeds exactly when the container runtime override is unset, all
    required variables are set, a provider token is set or every enabled executor is
    local, and timeout and attempt count parse; the configuration it returns is
    usable: its required fields are not empty, its attempt count fits an int, and it
    dispatches no task of its own. *)
Theorem config_needs_exactly_a_complete_environment pd loaded getenv :
  (forall timeout attempts, complete_env pd loaded getenv timeout attempts <->
     exists c, ConfigFromEnv pd loaded getenv = Ok c /\ cf_RunTimeout c = timeout /\ cf_MaxAttempts c = attempts) /\
  (forall c, ConfigFromEnv pd loaded getenv = Ok c -> usable c).
Proof.
  unfold ConfigFromEnv, complete_env. rewrite !cleanPath_empty. fold (blank (getenv EnvPublishRemote)).
  fold (blank (getenv EnvRunTimeout)) (blank (getenv EnvMaxAttempts)). split.
  - intros timeout attempts. split.
    + intros (-> & Hb & Hc & -> & ->).
      rewrite (Hb EnvTaskRoot), (Hb EnvWorktree), (Hb EnvPublishRemote), (Hb EnvRunTimeout), (Hb EnvMaxAttempts)
        by set_solver. cbn [negb].
      replace (negb (allLocal loaded) && blank (getenv ClaudeCLIAuthEnv) && blank (getenv ClaudeCLIOAuthEnv)) with false
        by (symmetry; destruct Hc as [Hc|[Hc|Hc%allLocal_spec]]; rewrite Hc; by rewrite ?andb_false_r).
      eexists. split_and!; [reflexivity | done..].
    + intros (c & E & <- & <-). go_cases. split_and!; [done | | | done..].
      * set_unfold. naive_solver.
      * destruct (allLocal loaded) eqn:El; [right; right; by apply allLocal_spec|].
        destruct (blank (getenv ClaudeCLIAuthEnv)); [|by left]. right. left. by destruct (blank (getenv ClaudeCLIOAuthEnv)).
  - intros c E. go_cases. unfold usable. cbn. split_and!; [|by eapply ParseInt_range|done].
    repeat (apply Forall_cons; split); try (apply or_default_nonempty; done); try apply Forall_nil_2.
    + apply String.eqb_neq. by rewrite cleanPath_empty.
    + apply String.eqb_neq. by rewrite cleanPath_empty.
    + apply String.eqb_neq. done.
Qed.
