(* ===== verification/Vault.v ===== *)
(** * Secrets, the vault and the side daemons

    [internal/secrets]: the sources of tokens; [internal/vault/client.go]: the
    requests to the vault; [internal/vault/lifecycle.go] and
    [internal/policy/lifecycle.go]: the two daemons, which are started, awaited
    and stopped in the same way. The socket, the processes and the clock are
    seams over a world [X]. *)

From stdpp Require Import base gmap strings list.
From Stdlib Require Import ZArith Lia Ascii.
From S2P Require Import Prelude GoStrings Paths TaskSource Registry.

Local Open Scope Z_scope.

(** ** Sources of tokens *)

(** [SecretSource], reading a world that it may change. *)
Record SecretSource (X : Type) := mkSource {
  ss_ProviderToken : X -> (string * string) * X;
  ss_PublisherTokens : string * string;
  ss_NamedProviderToken : string -> X -> option string * X
}.
Arguments mkSource {X} _ _ _.
Arguments ss_ProviderToken {X} _ _.
Arguments ss_PublisherTokens {X} _.
Arguments ss_NamedProviderToken {X} _ _ _.

(** [strings.ToUpper] of the reference with its hyphens replaced; [uni] is the
    Unicode case table, for a reference that is not ASCII. *)
Definition secret_env_name (uni : string -> string) (ref : string) : string :=
  let s := ReplaceByte "-" "_" ref in
  "AGENT_BUILDER_SECRET_" +:+ (if is_ascii s then str_map ascii_upper s else uni s).

(** [EnvSecretSource]; [ErrSecretNotFound] is [None]. *)
Definition EnvSecretSource {X} (uni getenv : string -> string) : SecretSource X :=
  mkSource (fun x => ((getenv "ANTHROPIC_API_KEY", getenv "CLAUDE_CODE_OAUTH_TOKEN"), x))
    (getenv "AGENT_BUILDER_GIT_TOKEN", getenv "AGENT_BUILDER_GITHUB_TOKEN")
    (fun ref x => let token := getenv (secret_env_name uni ref) in
                  (if String.eqb token "" then None else Some token, x)).

(** [DiskOAuthSecretSource]: [access_token] decodes the credentials file. *)
Definition DiskOAuthSecretSource {X} (read : string -> X -> option string) (access_token : string -> option string)
  (home : string) : SecretSource X :=
  mkSource (fun x =>
      (("", if blank home then ""
            else match read (PathJoin (PathJoin home ".claude") ".credentials.json") x with
                 | None => ""
                 | Some data => match access_token data with None => "" | Some t => TrimSpace t end
                 end), x))
    ("", "") (fun _ x => (None, x)).

(** [ChainedSecretSource]. *)
Definition ChainedSecretSource {X} (env disk : SecretSource X) : SecretSource X :=
  mkSource (fun x =>
      let '((envAuth, envOAuth), x) := ss_ProviderToken env x in
      if negb (blank envAuth) || negb (blank envOAuth) then ((envAuth, envOAuth), x)
      else ss_ProviderToken disk x)
    (ss_PublisherTokens env) (ss_NamedProviderToken env).

(** ** The vault client *)

Record Binding := mkBinding { bi_Host : string; bi_Header : string; bi_Scheme : string; bi_EnvVar : string }.

(** The requests on the wire. *)
Inductive VaultRequest :=
| VPing
| VPut (secretRef value floor : string) (binding : Binding)
| VResolve (secretRef : string) (ttl : Z).

(** [wireError] and [genericResponse]. *)
Record wireError := mkWireError { we_Code : string; we_Message : string }.

Record VaultResponse := mkVaultResponse {
  vr_OK : bool;
  vr_Handle : string;
  vr_TTL : Z;
  vr_InjectionMode : string;
  vr_Error : option wireError
}.

(** [wireError.String]. *)
Definition wireError_String (e : wireError) : string :=
  if negb (String.eqb (we_Code e) "") && negb (String.eqb (we_Message e) "")
  then we_Code e +:+ ": " +:+ we_Message e
  else if negb (String.eqb (we_Code e) "") then we_Code e else we_Message e.

Record ResolveResult := mkResolveResult { rr_Handle : string; rr_TTL : Z; rr_InjectionMode : string }.

Section Client.
Context {X : Type}.
(** [do]: dial, write one line, read one line, decode it. *)
Variable exchange : VaultRequest -> X -> result string VaultResponse * X.

(** [Ping]. *)
Definition Vault_Ping (x : X) : option string * X :=
  let '(resp, x) := exchange VPing x in
  (match resp with
   | Err e => Some e
   | Ok r => match vr_Error r with
             | Some e => Some ("vault ping: " +:+ wireError_String e)
             | None => if vr_OK r then None else Some "vault ping: daemon did not return ok"
             end
   end, x).

(** [Put]. *)
Definition Vault_Put (secretRef value floor : string) (binding : Binding) (x : X) : option string * X :=
  let '(resp, x) := exchange (VPut secretRef value floor binding) x in
  let said m := Some ("vault put " +:+ secretRef +:+ ": " +:+ m) in
  (match resp with
   | Err e => said e
   | Ok r => match vr_Error r with
             | Some e => said (wireError_String e)
             | None => if vr_OK r then None else said "daemon did not return ok"
             end
   end, x).

(** [Resolve]. *)
Definition Vault_Resolve (secretRef : string) (ttl : Z) (x : X) : result string ResolveResult * X :=
  let '(resp, x) := exchange (VResolve secretRef ttl) x in
  let said m := Err ("vault resolve " +:+ secretRef +:+ ": " +:+ m) in
  (match resp with
   | Err e => said e
   | Ok r => match vr_Error r with
             | Some e => said (wireError_String e)
             | None => if String.eqb (vr_Handle r) "" then said "empty handle in response"
                       else Ok (mkResolveResult (vr_Handle r) (vr_TTL r) (vr_InjectionMode r))
             end
   end, x).

(** ** The vault as a source of handles *)

Definition SecretRefGitToken : string := "vault://agent-builder/git-token".
Definition SecretRefGitHubToken : string := "vault://agent-builder/github-token".
Definition gitHubHost : string := "api.github.com".

(** [registerToken]. *)
Definition registerToken (secretRef value envVar : string) (ttl : Z) (x : X) : result string string * X :=
  let '(err, x) := Vault_Put secretRef value "proxy" (mkBinding gitHubHost "Authorization" "Bearer" envVar) x in
  match err with
  | Some e => (Err ("vault secret source: register " +:+ secretRef +:+ ": " +:+ e), x)
  | None =>
    let '(res, x) := Vault_Resolve secretRef ttl x in
    (match res with
     | Err e => Err ("vault secret source: resolve " +:+ secretRef +:+ ": " +:+ e)
     | Ok r => Ok (rr_Handle r)
     end, x)
  end.

(** [VaultSecretSource], without its client. *)
Record VaultSecretSource := mkVaultSource {
  vs_authToken : string;
  vs_oauthToken : string;
  vs_handles : list string;
  vs_ttl : Z
}.

(** A token is skipped when it is empty. *)
Definition register_if (secretRef value envVar : string) (ttl : Z) (handles : list string) (x : X)
  : result string (list string) * X :=
  if String.eqb value "" then (Ok handles, x)
  else let '(h, x) := registerToken secretRef value envVar ttl x in
       (match h with Err e => Err e | Ok h => Ok (handles ++ [h]) end, x).

(** [NewVaultSecretSource]. *)
Definition NewVaultSecretSource (authToken oauthToken gitToken gitHubToken : string) (ttl : Z) (x : X)
  : result string VaultSecretSource * X :=
  let ttl := if ttl <=? 0 then 300 else ttl in
  let '(h, x) := register_if SecretRefGitToken gitToken "GIT_TOKEN" ttl [] x in
  match h with
  | Err e => (Err e, x)
  | Ok h =>
    let '(h, x) := register_if SecretRefGitHubToken gitHubToken "GITHUB_TOKEN" ttl h x in
    (match h with Err e => Err e | Ok h => Ok (mkVaultSource authToken oauthToken h ttl) end, x)
  end.

(** The methods of the source. *)
Definition Vault_Source (s : VaultSecretSource) : SecretSource X :=
  mkSource (fun x => ((vs_authToken s, vs_oauthToken s), x)) ("", "")
    (fun ref x => let '(r, x) := Vault_Resolve ref (vs_ttl s) x in
                  (match r with Ok r => Some (rr_Handle r) | Err _ => None end, x)).
End Client.

(** ** The daemons *)

(** The processes, the files and the clock. *)
Record DaemonOS (X : Type) := mkDaemonOS {
  os_Stat : string -> X -> result string (bool * bool);
  os_Start : string -> list string -> list string -> X -> result string nat * X;
  os_Kill : nat -> X -> option string * X;
  os_Remove : string -> X -> option string * X;
  os_now : X -> Z;
  os_sleep : X -> X;
  os_cancelled : X -> bool;
  os_ping : string -> X -> bool * X
}.
Arguments os_Stat {X} _ _ _.
Arguments os_Start {X} _ _ _ _ _.
Arguments os_Kill {X} _ _ _.
Arguments os_Remove {X} _ _ _.
Arguments os_now {X} _ _.
Arguments os_sleep {X} _ _.
Arguments os_cancelled {X} _ _.
Arguments os_ping {X} _ _ _.

Inductive DaemonErr :=
| DErrAlreadyStarted
| DErrNoBin
| DErrBinStat (e : string)
| DErrBinIsDir
| DErrBinNotExecutable
| DErrNoSocket
| DErrPrepare (e : string)
| DErrExec (e : string)
| DErrNotReachable
| DErrCancelled.

(** [Daemon] and [PolicyDaemon]. *)
Record Daemon := mkDaemon { dm_BinPath : string; dm_SocketPath : string; dm_cmd : option nat }.

Definition set_cmd (d : Daemon) (c : option nat) : Daemon := mkDaemon (dm_BinPath d) (dm_SocketPath d) c.

Definition pingTimeout : Z := 5 * 1000000000.
Definition pingInterval : Z := 100 * 1000000.

Section Lifecycle.
Context {X : Type} (os : DaemonOS X).

(** [waitForReady]: [None] when the fuel runs out. *)
Fixpoint wait_loop (fuel : nat) (socket : string) (deadline : Z) (x : X) : option (option DaemonErr * X) :=
  match fuel with
  | O => None
  | S fuel =>
    let '(alive, x) := os_ping os socket x in
    if alive then Some (None, x)
    else if deadline <? os_now os x then Some (Some DErrNotReachable, x)
    else if os_cancelled os x then Some (Some DErrCancelled, x)
    else wait_loop fuel socket deadline (os_sleep os x)
  end.

Definition wait_fuel : nat := 60.

Definition waitForReady (d : Daemon) (x : X) : option (option DaemonErr * X) :=
  wait_loop wait_fuel (dm_SocketPath d) (os_now os x + pingTimeout) x.

(** [Stop]. *)
Definition Stop (d : Daemon) (x : X) : (option string * Daemon) * X :=
  let '(kerr, x) := match dm_cmd d with Some p => os_Kill os p x | None => (None, x) end in
  let d := set_cmd d None in
  let socket := TrimSpace (dm_SocketPath d) in
  if String.eqb socket "" then ((kerr, d), x)
  else let '(rerr, x) := os_Remove os socket x in
       ((match kerr with Some _ => kerr | None => rerr end, d), x).

(** [Start]: [prepare] gives the arguments and the added environment. *)
Definition Start (prepare : string -> X -> result string (list string * list string)) (d : Daemon) (x : X)
  : option ((option DaemonErr * Daemon) * X) :=
  let refuse e := Some ((Some e, d), x) in
  match dm_cmd d with
  | Some _ => refuse DErrAlreadyStarted
  | None =>
    let binPath := TrimSpace (dm_BinPath d) in
    if String.eqb binPath "" then refuse DErrNoBin
    else match os_Stat os binPath x with
    | Err e => refuse (DErrBinStat e)
    | Ok (isDir, executable) =>
      if isDir : bool then refuse DErrBinIsDir
      else if negb executable then refuse DErrBinNotExecutable
      else
        let socketPath := TrimSpace (dm_SocketPath d) in
        if String.eqb socketPath "" then refuse DErrNoSocket
        else match prepare socketPath x with
        | Err e => refuse (DErrPrepare e)
        | Ok (args, env) =>
          let '(started, x) := os_Start os binPath args env x in
          match started with
          | Err e => Some ((Some (DErrExec e), d), x)
          | Ok p =>
            let d := set_cmd d (Some p) in
            match waitForReady d x with
            | None => None
            | Some (None, x) => Some ((None, d), x)
            | Some (Some e, x) => let '((_, d), x) := Stop d x in Some ((Some e, d), x)
            end
          end
        end
    end
  end.

(** What the policy daemon is started with. *)
Definition policy_prepare (allow : list string) (socket : string) (x : X) : result string (list string * list string) :=
  Ok (["serve"; "--socket"; socket; "--allow"; Join "," allow], []).

(** [resolveMasterKey]; [hex.DecodeString] of an even number of hexadecimal digits. *)
Definition is_hex (c : ascii) : bool := is_digit c || in_range 97 102 c || in_range 65 70 c.

Definition resolveMasterKey (getenv : string -> string) (read : string -> X -> result string string) (x : X)
  : result string string :=
  let file := TrimSpace (getenv "VAULT_MASTER_KEY_FILE") in
  let? raw := (if String.eqb file "" then Ok (TrimSpace (getenv "VAULT_MASTER_KEY"))
               else match read file x with
                    | Err e => Err ("vault daemon: read VAULT_MASTER_KEY_FILE: " +:+ e)
                    | Ok data => Ok (TrimSpace data)
                    end) in
  if String.eqb raw "" then Err "vault daemon: no master key"
  else if negb (str_forall is_hex raw && Nat.even (String.length raw)) then Err "vault daemon: master key is not valid hex"
  else if negb (Nat.eqb (String.length raw) 64) then Err "vault daemon: master key must decode to 32 bytes"
  else Ok raw.

(** What the vault daemon is started with. *)
Definition vault_prepare (getenv : string -> string) (read : string -> X -> result string string) (storePath : string)
  (socket : string) (x : X) : result string (list string * list string) :=
  let? key := resolveMasterKey getenv read x in
  let store := TrimSpace storePath in
  Ok (["serve"; "--socket"; socket] ++ (if String.eqb store "" then [] else ["--store-path"; store]),
      ["VAULT_MASTER_KEY=" +:+ key]).
End Lifecycle.

(** ** A started daemon is either ready or gone *)

Section Progress.
Context {X : Type} (os : DaemonOS X).

(** The clock does not run backwards in a ping, and a sleep lasts. *)
Definition clock_advances : Prop :=
  (forall socket x, os_now os x <= os_now os (os_ping os socket x).2) /\
  (forall x, os_now os x + pingInterval <= os_now os (os_sleep os x)).

Lemma wait_loop_ends fuel socket deadline x :
  clock_advances -> deadline < os_now os x + Z.of_nat fuel * pingInterval ->
  exists r x', wait_loop os (S fuel) socket deadline x = Some (r, x').
Proof.
  intros [Hp Hs]. revert x. induction fuel as [|fuel IH]; intros x Hd; remember pingInterval as step;
    (specialize (Hp socket x) as Hx; cbn [wait_loop]; destruct (os_ping os socket x) as [alive x1]; simpl in Hx;
     destruct alive; [eauto|]; destruct (Z.ltb_spec deadline (os_now os x1)); [eauto|]).
  - lia.
  - destruct (os_cancelled os x1); [eauto|]. apply IH. specialize (Hs x1). lia.
Qed.

Lemma waitForReady_ends d x : clock_advances -> exists r x', waitForReady os d x = Some (r, x').
Proof. intros Hc. apply wait_loop_ends; [done|]. unfold pingTimeout, pingInterval. simpl. lia. Qed.

(** A successful wait ends with an answered ping. *)
Lemma wait_loop_ready fuel socket deadline x x' :
  wait_loop os fuel socket deadline x = Some (None, x') -> exists x1, os_ping os socket x1 = (true, x').
Proof.
  revert x. induction fuel as [|fuel IH]; intros x H; [done|]. cbn [wait_loop] in H.
  destruct (os_ping os socket x) as [[] x1] eqn:Ep; [naive_solver|]. go_cases; naive_solver.
Qed.
End Progress.

Local Ltac refused := eexists _, _, _; split; [reflexivity | first [done | by split_and!]].

(** Starting a service daemon always returns, within the ping timeout; it returns
    success only after a ping was answered, and after a failure no process is kept:
    one that was started is stopped. *)
Theorem daemon_start_is_ready_or_gone {X} (os : DaemonOS X) prepare d x :
  clock_advances os ->
  exists err d' x', Start os prepare d x = Some ((err, d'), x') /\
    match err with
    | None => dm_cmd d = None /\ (exists p, d' = set_cmd d (Some p)) /\
              exists x1, os_ping os (dm_SocketPath d) x1 = (true, x')
    | Some DErrAlreadyStarted => d' = d /\ x' = x /\ dm_cmd d <> None
    | Some DErrNotReachable | Some DErrCancelled =>
        dm_cmd d' = None /\ exists p x1, (Stop os (set_cmd d (Some p)) x1) .2 = x'
    | Some (DErrExec _) => dm_cmd d' = None
    | Some _ => dm_cmd d' = None /\ x' = x
    end.
Proof.
  intros Hc. unfold Start. destruct (dm_cmd d) as [p|] eqn:Ed; [refused|].
  destruct (String.eqb (TrimSpace (dm_BinPath d)) ""); [refused|].
  destruct (os_Stat _ _ _) as [[[] []]|e]; try (refused). cbn [negb].
  destruct (String.eqb (TrimSpace (dm_SocketPath d)) ""); [refused|].
  destruct (prepare _ _) as [[args env]|e]; [|refused].
  destruct (os_Start _ _ _ _ _) as [[p|e] x1]; [|refused].
  destruct (waitForReady_ends os (set_cmd d (Some p)) x1 Hc) as (r & x2 & E). rewrite E. destruct r as [e|].
  - destruct (Stop os (set_cmd d (Some p)) x2) as [[se d'] x3] eqn:Es. exists (Some e), d', x3. split; [done|].
    assert (Hd : dm_cmd d' = None).
    { unfold Stop in Es. simpl in Es. destruct (os_Kill os p x2) as [k xk]. go_cases; done. }
    assert (He : e = DErrNotReachable \/ e = DErrCancelled).
    { clear -E. unfold waitForReady in E. revert E. generalize wait_fuel at 1. intros n.
      generalize (os_now os x1 + pingTimeout). intros dl. revert x1.
      induction n as [|n IH]; intros x1 E; [done|]. cbn [wait_loop] in E.
      destruct (os_ping _ _ _) as [[] x3]; [done|]. go_cases; naive_solver. }
    assert (Hx : exists p x1, (Stop os (set_cmd d (Some p)) x1) .2 = x3) by (exists p, x2; by rewrite Es).
    destruct He as [-> | ->]; done.
  - exists None, (set_cmd d (Some p)), x2. split_and!; [done.. | by exists p |]. by eapply wait_loop_ready.
Qed.

(** A daemon that answers from its third ping on. *)
Definition demo_os (up : Z) : DaemonOS Z :=
  mkDaemonOS Z (fun _ _ => Ok (false, true)) (fun _ _ _ x => (Ok 7%nat, x)) (fun _ x => (None, x))
    (fun _ x => (None, x)) (fun x => x) (fun x => x + pingInterval) (fun _ => false)
    (fun _ x => (up <=? x, x)).

Lemma daemon_start_is_ready_or_gone_witness :
  clock_advances (demo_os 0) /\
  Start (demo_os 200000000) (policy_prepare []) (mkDaemon "/bin/p" "/tmp/s" None) 0 =
    Some ((None, mkDaemon "/bin/p" "/tmp/s" (Some 7%nat)), 200000000) /\
  exists err d' x', Start (demo_os (10 * pingTimeout)) (policy_prepare []) (mkDaemon "/bin/p" "/tmp/s" None) 0 =
    Some ((err, d'), x') /\ err = Some DErrNotReachable /\ dm_cmd d' = None.
Proof.
  assert (Hc : forall n, clock_advances (demo_os n)) by (intros n; split; intros; simpl; lia).
  split; [apply Hc|]. split; [reflexivity|].
  destruct (daemon_start_is_ready_or_gone (demo_os (10 * pingTimeout)) (policy_prepare [])
              (mkDaemon "/bin/p" "/tmp/s" None) 0 (Hc _)) as (err & d' & x' & E & H).
  exists err, d', x'. split; [exact E|]. vm_compute in E. injection E as <- <- <-. by split.
Defined.

(** ** What the vault is told *)

(** Requests sent are appended to a log. *)
Definition logged {X} (exchange : VaultRequest -> X -> result string VaultResponse * X)
  (r : VaultRequest) (s : X * list VaultRequest) : result string VaultResponse * (X * list VaultRequest) :=
  let '(a, x) := exchange r s.1 in (a, (x, s.2 ++ [r])).

(** The requests that register one token. *)
Definition registration (secretRef value envVar : string) (ttl : Z) : list VaultRequest :=
  if String.eqb value "" then []
  else [VPut secretRef value "proxy" (mkBinding gitHubHost "Authorization" "Bearer" envVar); VResolve secretRef ttl].

Lemma register_if_log {X} (exchange : VaultRequest -> X -> result string VaultResponse * X) ref value envVar ttl hs s r s' :
  register_if (logged exchange) ref value envVar ttl hs s = (r, s') ->
  exists sent, s'.2 = s.2 ++ sent /\ sent `prefix_of` registration ref value envVar ttl /\
    (forall hs', r = Ok hs' -> sent = registration ref value envVar ttl /\
       exists h, hs' = hs ++ h /\ Forall (fun x => x <> "") h /\ (length sent = 2 * length h)%nat).
Proof.
  unfold register_if, registration. destruct (String.eqb_spec value "") as [->|Hv].
  { intros [= <- <-]. exists []. rewrite app_nil_r. split_and!; [done | by apply prefix_nil |].
    intros hs' [= <-]. split; [done|]. exists []. by rewrite app_nil_r. }
  unfold registerToken, Vault_Put, Vault_Resolve, logged. destruct s as [x l]. simpl.
  set (q1 := VPut _ _ _ _). set (q2 := VResolve _ _).
  assert (P1 : [q1] `prefix_of` [q1; q2]) by (by exists [q2]).
  destruct (exchange q1 x) as [a1 x1]. destruct (exchange q2 x1) as [a2 x2] eqn:E2. intros E.
  destruct a1 as [r1|e1]; [destruct (vr_Error r1); [|destruct (vr_OK r1)]|]; simpl in E;
    try (injection E as <- <-; exists [q1]; by split_and!).
  rewrite E2 in E. simpl in E.
  assert (L : s'.2 = l ++ [q1; q2]) by (destruct a2 as [r2|]; go_cases; simpl; by rewrite <- app_assoc).
  exists [q1; q2]. split_and!; [done..|]. intros hs' ->. split; [done|].
  destruct a2 as [r2|]; [|by simplify_eq]. destruct (vr_Error r2); [by simplify_eq|].
  destruct (String.eqb_spec (vr_Handle r2) ""); [by simplify_eq|]. injection E as <- <-.
  exists [vr_Handle r2]. split_and!; [done | by repeat constructor | done].
Qed.

(** Constructing the vault source puts each non-empty token once and resolves it
    once, in order, stopping at the first failure; on success it keeps only non-
    empty handles. *)
Theorem tokens_go_to_the_vault_once {X} (exchange : VaultRequest -> X -> result string VaultResponse * X)
  authToken oauthToken gitToken gitHubToken ttl x :
  let ttl' := if ttl <=? 0 then 300 else ttl in
  let plan := registration SecretRefGitToken gitToken "GIT_TOKEN" ttl' ++
              registration SecretRefGitHubToken gitHubToken "GITHUB_TOKEN" ttl' in
  let '(r, (_, sent)) := NewVaultSecretSource (logged exchange) authToken oauthToken gitToken gitHubToken ttl (x, []) in
  sent `prefix_of` plan /\
  forall src, r = Ok src ->
    sent = plan /\ Forall (fun h => h <> "") (vs_handles src) /\ (length plan = 2 * length (vs_handles src))%nat /\
    @ss_PublisherTokens X (Vault_Source exchange src) = ("", "").
Proof.
  intros ttl' plan. unfold NewVaultSecretSource. fold ttl'.
  destruct (register_if _ _ gitToken _ _ _ _) as [r1 s1] eqn:E1.
  apply register_if_log in E1 as (l1 & L1 & P1 & O1). simpl in L1. destruct r1 as [h1|e1].
  - destruct (O1 _ eq_refl) as (-> & h & -> & F1 & N1). clear O1 P1.
    destruct (register_if _ _ gitHubToken _ _ _ s1) as [r2 [x2 s2]] eqn:E2.
    apply register_if_log in E2 as (l2 & L2 & P2 & O2). simpl in L2. rewrite L1 in L2. subst s2. split.
    { destruct P2 as [k Hk]. destruct r2; exists k; unfold plan; by rewrite Hk, app_assoc. }
    intros src Hs. destruct r2 as [h2|]; [|done]. injection Hs as <-.
    destruct (O2 _ eq_refl) as (-> & h' & -> & F2 & N2). split_and!; simpl; [done | by apply Forall_app | | done].
    unfold plan. rewrite !length_app. lia.
  - destruct s1 as [x1 s1]. simpl in L1. subst s1. split; [by apply prefix_app_r | done].
Qed.
