(* ===== verification/Sandbox.v ===== *)
(** * The sandbox seam ([internal/sandbox/run.go], [tier.go])

    What the host asks a sandbox backend to run and what it gets back; the contract
    every backend checks first, the host as the backends see it, and the in-process
    fake. *)

From stdpp Require Import base gmap strings list.
From Stdlib Require Import ZArith Lia Ascii.
From S2P Require Import Prelude GoStrings Paths.

Local Open Scope Z_scope.

(** [RunWiring] and its zero value. *)
Record RunWiring := mkWiring { wi_VaultSocket : string; wi_SecretRefs : list string; wi_InjectionMode : string }.
Definition zero_wiring : RunWiring := mkWiring "" [] "".

(** [Limits]; a duration is a number of nanoseconds. *)
Record Limits := mkLimits {
  lm_WallClockTimeout : Z;
  lm_MemoryBytes : Z;
  lm_CPUCount : Z;
  lm_PidsLimit : Z;
  lm_EgressAllowlist : list string
}.

(** [Request]. *)
Record Request := mkRequest {
  rq_Command : list string;
  rq_Worktree : string;
  rq_Limits : Limits;
  rq_Tier : string;
  rq_Wiring : RunWiring
}.

(** [ValidTier]. *)
Definition ValidTier (tier : string) : bool :=
  String.eqb tier "" || String.eqb tier "bubblewrap" || String.eqb tier "gvisor".

(** [Result] and its zero value. *)
Record SandboxResult := mkSandboxResult {
  sb_Stdout : string;
  sb_Stderr : string;
  sb_Duration : Z;
  sb_SandboxID : string;
  sb_Tier : string;
  sb_Status : string;
  sb_Degraded : list string
}.
Definition zero_result : SandboxResult := mkSandboxResult "" "" 0 "" "" "" [].

(** What a run returns: the result, the exit code and the error, if any. *)
Definition BoxOutcome (E : Type) : Type := SandboxResult * Z * option E.
Definition run_failed {E} (e : E) : BoxOutcome E := (zero_result, 0, Some e).

(** [ValidateRequest]: the command is valid, or else [ErrInvalidCommand]. *)
Definition ValidateRequest (req : Request) : bool :=
  match rq_Command req with [] => false | c :: _ => negb (blank c) end.

(** ** The host *)

(** [os.FileInfo], as far as it is looked at. *)
Record FileInfo := mkFileInfo { fi_IsDir : bool; fi_Mode : Z }.

(** A finished command: its outputs, and its exit code (-1 when a signal ended it) or
    why there is none. *)
Inductive ProcEnd := Exited (code : Z) | NotRun (err : string).
Record Proc := mkProc { pr_stdout : string; pr_stderr : string; pr_end : ProcEnd }.

(** What the host offers: [os.Getwd], [os.Stat], [os.Getenv]; a command's name,
    arguments, directory, environment and standard input, run to its end (with neither
    directory nor environment, those of the process); [cmd.CombinedOutput]. *)
Record Host (X : Type) := mkHost {
  ho_Getwd : X -> result string string;
  ho_Stat : string -> X -> result string FileInfo;
  ho_Getenv : string -> X -> string;
  ho_run : string -> list string -> string -> list string -> string -> X -> Proc * X;
  ho_CombinedOutput : string -> list string -> X -> (string * option string) * X
}.
Arguments mkHost {X} _ _ _ _ _.
Arguments ho_CombinedOutput {X} _ _ _ _.
Arguments ho_Getwd {X} _ _.
Arguments ho_Stat {X} _ _ _.
Arguments ho_Getenv {X} _ _ _.
Arguments ho_run {X} _ _ _ _ _ _ _.

Section Host.
Context {X : Type} (host : Host X).

(** [filepath.Abs]. *)
Definition Abs (path : string) (x : X) : result string string :=
  if IsAbs path then Ok (Clean path) else let? wd := ho_Getwd host x in Ok (PathJoin wd path).

(** [validateWorktree], the same in the three backends; the error is the text after
    the sentinel [ErrInvalidWorktree]. *)
Definition validateWorktree (worktree : string) (x : X) : result string string :=
  if blank worktree then Err ""
  else match Abs worktree x with
  | Err e => Err (": " +:+ e)
  | Ok abs =>
    match ho_Stat host abs x with
    | Err e => Err (": " +:+ e)
    | Ok info => if fi_IsDir info then Ok abs else Err (": not a directory: " +:+ abs)
    end
  end.

Definition exists_dir (path : string) (x : X) : bool :=
  match ho_Stat host path x with Ok info => fi_IsDir info | Err _ => false end.

Lemma validateWorktree_ok worktree x abs :
  validateWorktree worktree x = Ok abs -> blank worktree = false /\ Abs worktree x = Ok abs /\ exists_dir abs x = true.
Proof.
  unfold validateWorktree, exists_dir. destruct (blank worktree); [done|]. destruct (Abs worktree x) as [a|]; [|done].
  destruct (ho_Stat host a x) as [info|] eqn:E; [|done]. destruct (fi_IsDir info) eqn:Ed; [|done]. intros [= <-].
  by rewrite E, Ed.
Qed.
End Host.

(** ** Runs under a deadline *)

(** A command run under a context: the process, how long it took, and [ctx.Err()] after
    it. The world of such a run has the temporary files and the rest. *)
Record TimedProc := mkTimed { tp_proc : Proc; tp_duration : Z; tp_ctx : option string }.
Record TempWorld (X : Type) := mkTemp { tw_files : gmap string string; tw_x : X }.
Arguments mkTemp {X} _ _.
Arguments tw_files {X} _.
Arguments tw_x {X} _.

(** What the two local backends return: a run whose deadline has passed is an error with
    exit code -1; a command that has ended is a result, whatever its exit code. *)
Inductive LocalErr := LInvalidCommand | LInvalidWorktree (detail : string) | LDeadline (err : string) | LInvoke (bin err : string) | LSetup (err : string).
Definition timed_outcome (bin : string) (t : TimedProc) : BoxOutcome LocalErr :=
  let p := tp_proc t in
  let result := mkSandboxResult (pr_stdout p) (pr_stderr p) (tp_duration t) "" "" "" [] in
  match tp_ctx t with
  | Some e => (result, -1, Some (LDeadline e))
  | None =>
    match pr_end p with
    | Exited code => (result, code, None)
    | NotRun e => (result, 0, Some (LInvoke bin e))
    end
  end.

(** ** The fake runner *)

Inductive FakeErr := ErrInvalidCommand | ErrNoFakeResponse | ErrQueued (text : string).

(** [FakeResponse] and [FakeRunner]; a request is a value of the model, so
    [copyRequest] copies nothing. *)
Record FakeResponse := mkFakeResponse { fr_Result : SandboxResult; fr_ExitCode : Z; fr_Err : option string }.
Record FakeBox := mkFakeRunner { fn_responses : list FakeResponse; fn_requests : list Request }.
Definition NewFakeBox (responses : list FakeResponse) : FakeBox := mkFakeRunner responses [].

(** [FakeRunner.Run] and [FakeRunner.CallCount]. *)
Definition Fake_Run (req : Request) (f : FakeBox) : BoxOutcome FakeErr * FakeBox :=
  if negb (ValidateRequest req) then (run_failed ErrInvalidCommand, f)
  else
    let requests := fn_requests f ++ [req] in
    match fn_responses f with
    | [] => (run_failed ErrNoFakeResponse, mkFakeRunner [] requests)
    | r :: rest => ((fr_Result r, fr_ExitCode r, ErrQueued <$> fr_Err r), mkFakeRunner rest requests)
    end.
Definition CallCount (f : FakeBox) : nat := length (fn_requests f).

(** A fake answers the valid requests with its responses in order, records exactly
    them, and says so when it has no response left. *)
Fixpoint fake_runs (reqs : list Request) (f : FakeBox) : list (BoxOutcome FakeErr) * FakeBox :=
  match reqs with
  | [] => ([], f)
  | req :: reqs =>
    let '(o, f) := Fake_Run req f in
    let '(os, f) := fake_runs reqs f in (o :: os, f)
  end.
Definition fake_answer (responses : list FakeResponse) (i : nat) : BoxOutcome FakeErr :=
  match responses !! i with
  | Some r => (fr_Result r, fr_ExitCode r, ErrQueued <$> fr_Err r)
  | None => run_failed ErrNoFakeResponse
  end.

Lemma fake_runs_in_order reqs responses earlier :
  Forall (fun r => ValidateRequest r = true) reqs ->
  (fake_runs reqs (mkFakeRunner responses earlier)).1 = map (fake_answer responses) (seq 0 (length reqs)) /\
  fn_requests (fake_runs reqs (mkFakeRunner responses earlier)).2 = earlier ++ reqs.
Proof.
  intros H. revert responses earlier. induction H as [|req reqs Hr H IH]; intros responses earlier; [by rewrite app_nil_r|].
  cbn [fake_runs length seq map]. unfold Fake_Run. rewrite Hr. cbn [negb fn_responses fn_requests].
  destruct responses as [|r rest]; cbn beta iota.
  - specialize (IH [] (earlier ++ [req])). destruct (fake_runs reqs _) as [os f]. simpl in *. destruct IH as [-> ->].
    rewrite <- app_assoc. split; [|done]. f_equal. rewrite <- seq_shift, map_map. apply map_ext. intros i. by destruct i.
  - specialize (IH rest (earlier ++ [req])). destruct (fake_runs reqs _) as [os f]. simpl in *. destruct IH as [-> ->].
    rewrite <- app_assoc. split; [|done]. f_equal. by rewrite <- seq_shift, map_map.
Qed.
