(* ===== verification/Runtime.v ===== *)
(** * The run pipeline ([internal/runtime/run.go])

    [Run] takes at most one task from its source to a published branch: it checks
    the recipe's gate, picks the task, resolves an executor through the router,
    asks the policy engine, and hands the box and the retrying in-box loop to the
    supervisor. Everything outside the process (executors, daemons, commands,
    other files) is a [Platform] over an outside world [X]; the task files, the
    router and the loop's current entry are state of the run, and what the run
    does is kept in a trace. *)

From stdpp Require Import base gmap strings list.
From Stdlib Require Import ZArith Lia Ascii.
From S2P Require Import Prelude GoStrings Paths Seams Gate TaskSource GateSteps Loop Registry Router.
From S2P Require Import Policy AuditTrail Supervisor Publisher RunConfig Vault Sandbox.

Local Open Scope Z_scope.

(** ** Data *)

(** The concrete executors. *)
Inductive ExecutorSpec :=
| ClaudeFromConfig
| ClaudeFromEntry (e : RegistryEntry)
| CodexFromEntry (e : RegistryEntry)
| GeminiFromEntry (e : RegistryEntry)
| AntigravityFromEntry (e : RegistryEntry)
| OllamaFromEntry (e : RegistryEntry).

(** [gateOutcome]. *)
Record gateOutcome := mkGateOutcome {
  go_allowed : bool;
  go_reason : string;
  go_tier : string;
  go_auditEmit : bool;
  go_policyDecision : string;
  go_policyReason : string;
  go_transportFailure : bool;
  go_classifyReason : string
}.

Definition policyTransportErrorReason : string := "policy_transport_error".
Definition genuineDenyReason : string := "policy: decision denied".
Definition requireApprovalDecision : string := PolicyDecision_string PolicyRequireApproval.

(** The errors of a run. *)
Inductive RunErr :=
| RErrPath (name e : string)
| RErrRecipe (e : string)
| RErrGate (e : string)
| RErrGoalSource (e : string)
| RErrResultSink (e : string)
| RErrPick (e : string)
| RErrRegistry (e : LoadErr)
| RErrCatalogPanic
| RErrLoadState (e : RouterErr)
| RErrSelect (e : RouterErr)
| RErrExecutor (e : string)
| RErrAttempts (e : LoopErr)
| RErrVault (e : string)
| RErrAudit (e : string)
| RErrPolicyBin (e : string)
| RErrPolicyStart (e : DaemonErr)
| RErrStatus (reason id : string) (e : TSErr)
| RErrSigner (e : string)
| RErrSupervisor (e : list SupErr)
| RErrSaveState (after : list SupErr) (e : RouterErr)
| RErrLoop (e : LoopErr)
| RErrNoPublisher (id : string)
| RErrPublish (id e : string)
| RErrEscalated (id : string) (attempts : Z).

(** What a run does, in order; the last two are its messages [run idle: no ready
    task] and [run completed: task ...]. *)
Inductive RunEvent :=
| EvDecision (o : gateOutcome)
| EvHalted (id reason : string)
| EvApprovalHook (task : Task) (reason : string)
| EvBox (req : Request) (ok : bool)
| EvAttempt (entry : string) (task : Task) (r : result string ExecResult)
| EvVerified (v : Verdict)
| EvNeedsHuman (id : string) (ok : bool)
| EvPublish (req : PublishRequest) (ok : bool)
| EvAudited (ev : AuditEvent)
| EvQuotaSaved (ok : bool)
| EvIdle
| EvCompleted (id : string).

(** A gate object: whether it has the marker method [Blocks] and what that
    returns, and [Verify]. *)
Record GateObj (X : Type) := mkGateObj {
  g_Blocks : option bool;
  g_Verify : string -> X -> Verdict * X
}.
Arguments mkGateObj {X} _ _.
Arguments g_Blocks {X} _.
Arguments g_Verify {X} _ _ _.

(** [recipe.RoutingSpec], with its hint as the Go integer, and [recipe.Recipe];
    a factory may be nil, and may read the world. *)
Record RecipeSpec := mkRecipeSpec { rsp_MinCapability : Z; rsp_SensitivityHint : Z }.

Record Recipe (X : Type) := mkRecipe {
  rc_Name : string;
  rc_GoalSource : Config -> result string (FS -> X -> result string (option Task) * X);
  rc_RoutingSpec : RecipeSpec;
  rc_GateFactory : option (X -> option (GateObj X) * X);
  rc_ResultSink : Config -> result string (PublishRequest -> X -> result string PublishResult * X)
}.
Arguments mkRecipe {X} _ _ _ _ _.
Arguments rc_Name {X} _.
Arguments rc_GoalSource {X} _ _.
Arguments rc_RoutingSpec {X} _.
Arguments rc_GateFactory {X} _.
Arguments rc_ResultSink {X} _ _.

(** The outside of the process. *)
Record Platform (X : Type) := mkPlatform {
  (* files and programs: [os.Stat] (is it a directory), [exec.LookPath] *)
  pf_StatDir : string -> X -> result string bool;
  pf_LookPath : string -> X -> result string string;
  (* the registered recipes, and the process environment as the registry reads it *)
  pf_recipes : gmap string (X -> result string (Recipe X) * X);
  pf_registry : result LoadErr (list RegistryEntry);
  (* the clock, and the quota state's file, codec and map order *)
  pf_now : X -> nat -> Z;
  pf_state_files : X -> gmap string string;
  pf_set_state_files : gmap string string -> X -> X;
  pf_state_unreadable : string -> X -> bool;
  pf_state_writable : string -> X -> bool;
  pf_marshal : gmap string entryState -> option string;
  pf_unmarshal : string -> option (option (gmap string entryState));
  pf_range : gmap string entryState -> list (string * entryState);
  (* the constructors that can fail, and the executors' runs under a context *)
  pf_NewToolSet : string -> X -> option string;
  pf_NewOllama : RegistryEntry -> X -> option string;
  pf_exec : Config -> ExecutorSpec -> bool -> Task -> X -> result string ExecResult * X;
  (* the box, the vault, the policy daemon and its socket *)
  pf_runner : Request -> X -> result string Z * X;
  pf_getenv : string -> string;
  pf_read : string -> X -> result string string;
  pf_vault_os : DaemonOS X;
  pf_vault_socket : string;
  pf_vault_exchange : string -> VaultRequest -> X -> result string VaultResponse * X;
  pf_policy_os : DaemonOS X;
  pf_policy_socket : string;
  pf_exchange : string -> DecideRequest -> X -> result string string * X;
  pf_wire : string -> option genericWire;
  pf_show_policy : PolicyErr -> string;
  (* the audit sink and the checkpoint signer *)
  pf_requireWritable : string -> X -> option string * X;
  pf_append : AuditEvent -> X -> option AuditErr * X;
  pf_seal : X -> option string * X;
  pf_writable_dir : string -> X -> option string * X;
  pf_signer : Config -> string -> @Signer X;
  (* the run record, the task files the system refuses to write, error texts *)
  pf_record : @RecordFile X;
  pf_write_fails : string -> bool;
  pf_show_ts : TSErr -> string;
  pf_show_run : RunErr -> string;
  pf_show_sup : list SupErr -> string;
  pf_quote : string -> string
}.
Arguments pf_StatDir {X} _ _ _.
Arguments pf_LookPath {X} _ _ _.
Arguments pf_recipes {X} _.
Arguments pf_registry {X} _.
Arguments pf_now {X} _ _ _.
Arguments pf_state_files {X} _ _.
Arguments pf_set_state_files {X} _ _ _.
Arguments pf_state_unreadable {X} _ _ _.
Arguments pf_state_writable {X} _ _ _.
Arguments pf_marshal {X} _ _.
Arguments pf_unmarshal {X} _ _.
Arguments pf_range {X} _ _.
Arguments pf_NewToolSet {X} _ _ _.
Arguments pf_NewOllama {X} _ _ _.
Arguments pf_exec {X} _ _ _ _ _ _.
Arguments pf_runner {X} _ _ _.
Arguments pf_getenv {X} _ _.
Arguments pf_read {X} _ _ _.
Arguments pf_vault_os {X} _.
Arguments pf_vault_socket {X} _.
Arguments pf_vault_exchange {X} _ _ _ _.
Arguments pf_policy_os {X} _.
Arguments pf_policy_socket {X} _.
Arguments pf_exchange {X} _ _ _ _.
Arguments pf_wire {X} _ _.
Arguments pf_show_policy {X} _ _.
Arguments pf_requireWritable {X} _ _ _.
Arguments pf_append {X} _ _ _.
Arguments pf_seal {X} _ _.
Arguments pf_writable_dir {X} _ _ _.
Arguments pf_signer {X} _ _ _.
Arguments pf_record {X} _.
Arguments pf_write_fails {X} _ _.
Arguments pf_show_ts {X} _ _.
Arguments pf_show_run {X} _ _.
Arguments pf_show_sup {X} _ _.
Arguments pf_quote {X} _ _.

(** The state of a run. [w_router] and [w_entry] are those of the dispatch once
    the executor is resolved; [w_cancelled] is the context the loop was given. *)
Record World (X : Type) := mkWorld {
  w_x : X;
  w_fs : FS;
  w_router : Router Catalog;
  w_entry : string;
  w_cancelled : bool;
  w_trace : list RunEvent
}.
Arguments mkWorld {X} _ _ _ _ _ _.
Arguments w_x {X} _.
Arguments w_fs {X} _.
Arguments w_router {X} _.
Arguments w_entry {X} _.
Arguments w_cancelled {X} _.
Arguments w_trace {X} _.

Definition set_x {X} (x : X) (w : World X) : World X :=
  mkWorld x (w_fs w) (w_router w) (w_entry w) (w_cancelled w) (w_trace w).
Definition set_router {X} (r : Router Catalog) (w : World X) : World X :=
  mkWorld (w_x w) (w_fs w) r (w_entry w) (w_cancelled w) (w_trace w).
Definition set_entry {X} (id : string) (w : World X) : World X :=
  mkWorld (w_x w) (w_fs w) (w_router w) id (w_cancelled w) (w_trace w).
Definition set_ctx {X} (c : bool) (w : World X) : World X :=
  mkWorld (w_x w) (w_fs w) (w_router w) (w_entry w) c (w_trace w).
Definition set_fs {X} (fs : FS) (w : World X) : World X :=
  mkWorld (w_x w) fs (w_router w) (w_entry w) (w_cancelled w) (w_trace w).
Definition note {X} (ev : RunEvent) (w : World X) : World X :=
  mkWorld (w_x w) (w_fs w) (w_router w) (w_entry w) (w_cancelled w) (w_trace w ++ [ev]).

(** ** Assembly *)

Section Runtime.
Context {X : Type} (pf : Platform X).
Local Notation World := (World X).

(** [requireDir] and [validatePaths]. *)
Definition requireDir (name path : string) (x : X) : option RunErr :=
  match pf_StatDir pf path x with
  | Err e => Some (RErrPath name e)
  | Ok false => Some (RErrPath name "is not a directory")
  | Ok true => None
  end.

Definition validatePaths (config : Config) (x : X) : option RunErr :=
  match requireDir EnvTaskRoot (cf_TaskRoot config) x with
  | Some e => Some e
  | None => requireDir EnvWorktree (cf_Worktree config) x
  end.

(** [recipe.SelectRecipe]. *)
Definition SelectRecipe (name : string) (x : X) : result string (Recipe X) * X :=
  if String.eqb name "" then (Err "recipe.SelectRecipe: empty recipe name", x)
  else match pf_recipes pf !! name with
  | None => (Err ("recipe.SelectRecipe: recipe " +:+ pf_quote pf name +:+ " not found"), x)
  | Some factory =>
    let '(r, x) := factory x in
    (match r with
     | Err e => Err e
     | Ok r => Ok (mkRecipe name (rc_GoalSource r) (rc_RoutingSpec r) (rc_GateFactory r) (rc_ResultSink r))
     end, x)
  end.

(** [verifyGateExists]. *)
Definition verifyGateExists (factory : option (X -> option (GateObj X) * X)) (x : X) : option RunErr * X :=
  match factory with
  | None => (Some (RErrGate "recipe's GateFactory is nil"), x)
  | Some factory =>
    let '(g, x) := factory x in
    (match g with
     | None => Some (RErrGate "GateFactory returned nil")
     | Some g =>
       match g_Blocks g with
       | None => Some (RErrGate "gate does not implement the Blocker marker interface")
       | Some b => if b then None else Some (RErrGate "gate.Blocks() returned false")
       end
     end, x)
  end.

(** [buildCatalog], with [defaultClaudeEntry]; registering a duplicate panics. *)
Definition defaultClaudeEntryID : string := "claude-default".

Definition defaultClaudeEntry : RegistryEntry :=
  mkEntry defaultClaudeEntryID HarnessClaudeCLI 1 1 "" "" "" (mkQuotaBudget 0 0) 0
    (mkAvailability AvailStatusAvailable 0).

Definition buildCatalog : result RunErr Catalog :=
  match pf_registry pf with
  | Err e => Err (RErrRegistry e)
  | Ok entries =>
    match register_all NewCatalog (match entries with [] => [defaultClaudeEntry] | _ => entries end) with
    | Some c => Ok c
    | None => Err RErrCatalogPanic
    end
  end.

(** [toRouterSpec]. *)
Definition toRouterSpec (spec : RecipeSpec) : RoutingSpec :=
  mkRoutingSpec (rsp_MinCapability spec)
    (if rsp_SensitivityHint spec =? 1 then SensitivitySensitive else SensitivityNone).

(** [buildExecutorForEntry]. *)
Definition buildExecutorForEntry (entry : RegistryEntry) (config : Config) (x : X) : result string ExecutorSpec :=
  if String.eqb (re_ID entry) defaultClaudeEntryID then Ok ClaudeFromConfig
  else match re_Harness entry with
  | HarnessClaudeCLI => Ok (ClaudeFromEntry entry)
  | HarnessCodexCLI => Ok (CodexFromEntry entry)
  | HarnessGeminiCLI => Ok (GeminiFromEntry entry)
  | HarnessAntigravityCLI => Ok (AntigravityFromEntry entry)
  | HarnessOllamaNative =>
    match pf_NewToolSet pf (cf_Worktree config) x with
    | Some e => Err ("run: create ollama toolset: " +:+ e)
    | None => match pf_NewOllama pf entry x with
              | Some e => Err ("run: create ollama executor: " +:+ e)
              | None => Ok (OllamaFromEntry entry)
              end
    end
  | h => Err ("run: entry " +:+ pf_quote pf (re_ID entry) +:+ " names unknown harness driver " +:+
              pf_quote pf (HarnessDriver_String h))
  end.

(** [recordDispatchWrap]: [dispatchRecordingExecutor.Run]. *)
Definition recordDispatchWrap (config : Config) (entryID : string) (next : ExecutorSpec) : @Executor World :=
  fun t w =>
    let w := set_router (RecordDispatch entryID (pf_now pf (w_x w) 0) (w_router w)) w in
    let '(r, x) := pf_exec pf config next (w_cancelled w) t (w_x w) in
    (r, note (EvAttempt entryID t r) (set_x x w)).

(** [resolveExecutor]: the initial executor; the router and the entry are left in
    the world. *)
Definition resolveExecutor (spec : RecipeSpec) (config : Config) (w : World)
  : result RunErr (@Executor World) * World :=
  match buildCatalog with
  | Err e => (Err e, w)
  | Ok catalog =>
    let r := NewRouter catalog in
    let '(lerr, r) :=
      if String.eqb (cf_RouterStatePath config) "" then (None, r)
      else if pf_state_unreadable pf (cf_RouterStatePath config) (w_x w)
      then (Some (ErrRead (cf_RouterStatePath config)), r)
      else match LoadState (pf_unmarshal pf) (pf_range pf) (cf_RouterStatePath config) (pf_state_files pf (w_x w)) r with
           | (Some (ErrRead _), r) => (None, r)
           | res => res
           end in
    match lerr with
    | Some e => (Err (RErrLoadState e), w)
    | None =>
      let '(sel, r) := Select (toRouterSpec spec) (pf_now pf (w_x w)) r in
      match sel with
      | Err e => (Err (RErrSelect e), w)
      | Ok entry =>
        match buildExecutorForEntry entry config (w_x w) with
        | Err e => (Err (RErrExecutor e), w)
        | Ok ex => (Ok (recordDispatchWrap config (re_ID entry) ex), set_entry (re_ID entry) (set_router r w))
        end
      end
    end
  end.

(** [newRouterEscalationHook]; its [currentEntryID] is [w_entry]. *)
Definition newRouterEscalationHook (spec : RecipeSpec) (config : Config) : @EscalationHook World :=
  fun request w =>
    let '(next, r) := Select (toRouterSpec spec) (pf_now pf (w_x w)) (OnGateFailure (w_entry w) (w_router w)) in
    let w := set_router r w in
    match next with
    | Err ErrNoEligibleExecutor => (Ok (Some (er_CurrentExecutor request)), w)
    | Err _ => (Err "run: escalation re-select", w)
    | Ok next =>
      match buildExecutorForEntry next config (w_x w) with
      | Err e => (Err e, w)
      | Ok ex => (Ok (Some (recordDispatchWrap config (re_ID next) ex)), set_entry (re_ID next) w)
      end
    end.

(** [buildRetryPolicyAndRouter]. *)
Definition buildRetryPolicyAndRouter (spec : RecipeSpec) (config : Config) (w : World)
  : result RunErr (@RetryPolicy World * @Executor World) * World :=
  let '(ex, w) := resolveExecutor spec config w in
  match ex with
  | Err e => (Err e, w)
  | Ok ex =>
    match NewRetryPolicy (cf_MaxAttempts config) (Some (newRouterEscalationHook spec config)) with
    | Err e => (Err (RErrAttempts e), w)
    | Ok policy => (Ok (policy, ex), w)
    end
  end.

(** ** The policy gate *)

(** [resolvePolicyBin] and [resolveAuditBin]. *)
Definition resolveBin (configured fallback : string) (x : X) : result string string :=
  pf_LookPath pf (if String.eqb configured "" then fallback else configured) x.

(** [newTransportFailureOutcome]. *)
Definition newTransportFailureOutcome (decideErr : PolicyErr) (policyReason : string) : gateOutcome :=
  mkGateOutcome false ("policy: decide call failed, fail-closed to deny: " +:+ pf_show_policy pf decideErr)
    "" false (PolicyDecision_string PolicyDeny) policyReason true policyTransportErrorReason.

(** The routing of a response, after the obligations are read. *)
Definition route_response (resp : DecideResponse) : gateOutcome :=
  let tier := TierSelect (dp_Obligations resp) in
  let auditEmit := AuditEmit (dp_Obligations resp) in
  let halt reason d := mkGateOutcome false reason "" auditEmit (PolicyDecision_string d) (dp_Reason resp) false "" in
  match dp_Decision resp with
  | PolicyAllow =>
    if negb (ValidTier tier)
    then halt ("policy: tier_select obligation names unknown tier " +:+ pf_quote pf tier) PolicyAllow
    else mkGateOutcome true "" tier auditEmit (PolicyDecision_string PolicyAllow) (dp_Reason resp) false ""
  | PolicyRequireApproval => halt "policy: requires human approval" PolicyRequireApproval
  | PolicyDeny => halt genuineDenyReason PolicyDeny
  end.

(** [decideGate]: the outcome and the wiring, its floor raised. [None] when the
    daemon's start does not return. *)
Definition decideGate (config : Config) (task : Task) (egressHosts : list string) (wiring : RunWiring) (x : X)
  : option (result RunErr (gateOutcome * RunWiring) * X) :=
  match resolveBin (cf_PolicyBin config) "policy-engine" x with
  | Err e => Some (Err (RErrPolicyBin e), x)
  | Ok binPath =>
    let socketPath := if String.eqb (cf_PolicySocket config) "" then pf_policy_socket pf else cf_PolicySocket config in
    match Start (pf_policy_os pf) (policy_prepare egressHosts) (mkDaemon binPath socketPath None) x with
    | None => None
    | Some ((Some e, _), x) => Some (Err (RErrPolicyStart e), x)
    | Some ((None, daemon), x) =>
      let risk := if String.eqb (cf_PolicyRisk config) "" then "low" else cf_PolicyRisk config in
      let req := mkDecideRequest "agent" "agent-builder" "run-task" "task" (task_ID task) egressHosts "" "" risk in
      let '(answer, x) := pf_exchange pf socketPath req x in
      let '(resp, decideErr) := PolicyDecide (pf_wire pf) answer in
      let '(_, x) := Stop (pf_policy_os pf) daemon x in
      Some (match decideErr with
            | Some e => Ok (newTransportFailureOutcome e (dp_Reason resp), wiring)
            | None =>
              Ok (route_response resp,
                  mkWiring (wi_VaultSocket wiring) (wi_SecretRefs wiring)
                    (RaiseInjectionFloor (wi_InjectionMode wiring) (dp_Obligations resp)))
            end, x)
    end
  end.

(** ** Audit projection *)

(** [emitAudit] on a sink: an error of [Append] is dropped. *)
Definition emitAudit (sink : bool) (ev : AuditEvent) (w : World) : World :=
  if sink then let '(_, x) := pf_append pf ev (w_x w) in note (EvAudited ev) (set_x x w) else w.

(** [maybeEmitPolicyDecision]. *)
Definition maybeEmitPolicyDecision (sink : bool) (taskID : string) (o : gateOutcome) (w : World) : World :=
  if negb (go_auditEmit o) && negb (go_transportFailure o) then w
  else emitAudit sink (mkEvent ActionPolicyDecision taskID taskID "" ""
         (mkDetail "" "" "" 0 (go_policyDecision o) (go_policyReason o)
            (if go_transportFailure o then go_classifyReason o else "") false)) w.

(** [auditRunID] and [auditVerdict]. *)
Definition auditRunID (task : Task) (h : BoxHandle) : string :=
  let parts := (if blank (task_ID task) then [] else [TrimSpace (task_ID task)]) ++
               (if blank (bh_ID h) then [] else [TrimSpace (bh_ID h)]) in
  match parts with [] => "run" | _ => Join "/" parts end.

Definition auditVerdict (v : Verdict) : string := if v_OK v then VerdictPass else VerdictFail.

(** ** The in-box loop *)

(** The writers of [RunStreams] over a run record; without one they discard. *)
Definition write_record (record : option RunRecordMetadata) (kind field text : string) (w : World) : World :=
  match record with
  | None => w
  | Some meta => let '(_, x) := writeStream (pf_record pf) meta kind field text (w_x w) in set_x x w
  end.

Definition writeCommand record := write_record record "command" "command".
Definition writeStdout record := write_record record "stdout" "data".
Definition writeStderr record := write_record record "stderr" "data".

(** [summarizeVerdict]. *)
Definition summarizeVerdict (v : Verdict) : string :=
  match v_Results v with
  | [] => if v_OK v then "no steps" else "failed before steps"
  | rs => Join "; " (map (fun r => (if sr_OK r then "PASS" else "FAIL") +:+ " " +:+ sr_Name r) rs)
  end.

(** [writeFailureEvidence]. *)
Definition writeFailureEvidence (record : option RunRecordMetadata) (o : Outcome) (w : World) : World :=
  match fl_Reason (out_Failure o) with
  | FailureExecutorError =>
    match fl_Err (out_Failure o) with
    | Some e => writeStderr record ("executor error: " +:+ e +:+ lf) w
    | None => w
    end
  | FailureExecutorIncomplete => writeStderr record ("executor incomplete: branch=" +:+ out_Branch o +:+ lf) w
  | FailureGate =>
    let w := writeStderr record ("gate failed: " +:+ summarizeVerdict (out_Verdict o) +:+ lf) w in
    match List.find (fun r => negb (sr_OK r)) (v_Results (out_Verdict o)) with
    | None => w
    | Some r =>
      let output := if blank (sr_Output r) then "no output" else TrimSpace (sr_Output r) in
      writeStderr record ("gate step " +:+ sr_Name r +:+ " failed: " +:+ output +:+ lf) w
    end
  | _ => w
  end.

(** The gate and the status writer as seams of the loop. *)
Definition gate_fn (g : GateObj X) : @GateFn World :=
  fun path w => let '(v, x) := g_Verify g path (w_x w) in (v, note (EvVerified v) (set_x x w)).

Definition DefaultRoadmapPath : string := "docs/plans/roadmap.md".
Definition DefaultTaskDirs : list string := ["docs/tasks/backlog"; "docs/tasks/active"; "docs/tasks/completed"].

(** [NewStatusWriter(config.TaskRoot, ...).WriteStatus]. *)
Definition write_status (config : Config) (id : string) (status : WritableStatus) (w : World)
  : result TSErr StatusWriteResult * World :=
  let '(r, fs) := WriteStatus (pf_write_fails pf) (Some (mkStatusWriter (cf_TaskRoot config) DefaultTaskDirs))
                    id (WritableStatus_string status) (w_fs w) in
  (r, note (EvNeedsHuman id (is_ok r)) (set_fs fs w)).

Definition status_fn (config : Config) : @StatusWriterFn World :=
  fun id status w => let '(r, w) := write_status config id status w in
    (match r with Ok r => Ok r | Err e => Err (pf_show_ts pf e) end, w).

(** [retryingInBoxLoop]. *)
Record retryingInBoxLoop := mkInBox {
  ib_executor : @Executor World;
  ib_gate : option (GateObj X);
  ib_worktree : string;
  ib_launcher : string;
  ib_config : Config;
  ib_policy : @RetryPolicy World;
  ib_publisher : option (PublishRequest -> X -> result string PublishResult * X);
  ib_publishRemote : string;
  ib_publishSecrets : list string
}.

(** The projection of one state of the last cycle. *)
Definition project_state (l : retryingInBoxLoop) (record : option RunRecordMetadata) (sink : bool) (run : string)
  (task : Task) (outcome : RetryOutcome) (w : World) (st : LoopState) : World :=
  match st with
  | StateAttempt =>
    let w := writeCommand record ("attempt task " +:+ task_ID task +:+ " attempt=" +:+ FormatInt (ro_Attempts outcome)) w in
    emitAudit sink (mkEvent ActionAttempt run (task_ID task) "" ""
      (mkDetail "" "" "" (ro_Attempts outcome) "" "" "" false)) w
  | StateVerify =>
    let w := writeCommand record ("verify worktree " +:+ ib_worktree l) w in
    emitAudit sink (mkEvent ActionVerify run (task_ID task) (auditVerdict (out_Verdict (ro_LastOutcome outcome))) ""
      zero_detail) w
  | _ => w
  end.

(** The publication of a verified branch. *)
Definition publish_branch (l : retryingInBoxLoop) (record : option RunRecordMetadata) (sink : bool) (run : string)
  (task : Task) (outcome : RetryOutcome) (w : World) : option RunErr * World :=
  let redact text := Redact text (ib_publishSecrets l) in
  let branch := ro_Branch outcome in
  let w := writeStdout record ("executor attempt completed: branch=" +:+ branch +:+ lf) w in
  let w := writeStdout record ("gate passed: " +:+ summarizeVerdict (out_Verdict (ro_LastOutcome outcome)) +:+ lf) w in
  let w := writeCommand record ("publish branch " +:+ branch +:+ " remote=" +:+ redact (ib_publishRemote l)) w in
  let w := emitAudit sink (mkEvent ActionPublish run (task_ID task) "" ""
             (mkDetail "" branch (redact (ib_publishRemote l)) 0 "" "" "" false)) w in
  match ib_publisher l with
  | None => (Some (RErrNoPublisher (task_ID task)), w)
  | Some publish =>
    let req := mkPublishRequest task (ib_worktree l) branch (ib_publishRemote l) in
    let '(res, x) := publish req (w_x w) in
    let w := note (EvPublish req (is_ok res)) (set_x x w) in
    match res with
    | Err e =>
      let message := redact e in
      (Some (RErrPublish (task_ID task) message), writeStderr record ("publication failed: " +:+ message +:+ lf) w)
    | Ok result =>
      let pr := redact (if String.eqb (pb_PRURL result) "" then pb_PRID result else pb_PRURL result) in
      let w := writeStdout record ("publication recorded: branch=" +:+ branch +:+ " pr=" +:+ pr +:+ lf) w in
      let w := writeCommand record ("finish task " +:+ task_ID task +:+ " outcome=completed branch=" +:+ branch +:+
                                    " pr=" +:+ pr) w in
      (None, emitAudit sink (mkEvent ActionFinish run (task_ID task) "" OutcomeCompleted
               (mkDetail "" branch "" 0 "" "" "" false)) w)
    end
  end.

(** [RunInside]. *)
Definition RunInside (l : retryingInBoxLoop) (record : option RunRecordMetadata) (sink : bool) (h : BoxHandle)
  (task : Task) (w : World) : option RunErr * World :=
  let run := auditRunID task h in
  let w := writeCommand record ("containment=" +:+ bh_Backend h +:+ " launcher=" +:+ ib_launcher l) w in
  let w := emitAudit sink (mkEvent ActionContainment run (task_ID task) "" ""
             (mkDetail (ib_launcher l) "" "" 0 "" "" "" false)) w in
  let w := writeCommand record ("pick task " +:+ task_ID task) w in
  let w := emitAudit sink (mkEvent ActionPick run (task_ID task) "" "" zero_detail) w in
  let w := writeStdout record ("task " +:+ task_ID task +:+ " selected" +:+ lf) w in
  match NewRetryingLoop (Some (singleTaskSource task)) (Some (ib_executor l)) (gate_fn <$> ib_gate l) (ib_worktree l)
          (Some (status_fn (ib_config l))) (ib_policy l) with
  | Err e => (Some (RErrLoop e), w)
  | Ok runner =>
    let '(res, w) := Retry_RunOnce (pf_quote pf) runner w in
    match res with
    | Err e => (Some (RErrLoop e), w)
    | Ok outcome =>
      let w := foldl (project_state l record sink run task outcome) w (out_Trace (ro_LastOutcome outcome)) in
      match ro_Kind outcome with
      | RetryOutcomeDone => publish_branch l record sink run task outcome w
      | RetryOutcomeEscalated =>
        let w := writeFailureEvidence record (ro_LastOutcome outcome) w in
        let w := writeStderr record ("task " +:+ task_ID task +:+ " escalated after " +:+
                                     FormatInt (ro_Attempts outcome) +:+ " attempts" +:+ lf) w in
        let w := emitAudit sink (mkEvent ActionEscalate run (task_ID task) "" ""
                   (mkDetail "" "" "" (ro_Attempts outcome) "" "" "" false)) w in
        let w := emitAudit sink (mkEvent ActionFinish run (task_ID task) "" OutcomeFailed zero_detail) w in
        (Some (RErrEscalated (task_ID task) (ro_Attempts outcome)), w)
      | RetryOutcomeIdle => (None, writeStdout record ("no ready task" +:+ lf) w)
      end
    end
  end.

(** ** The box, the audit sink, the signer and the vault *)

(** [sandboxBox]: [Kill] and [Teardown] do nothing. *)
Definition sandboxBox (config : Config) (backend : string) (wiring : RunWiring) (tier : string) (limits : Limits)
  : @Box World :=
  mkBox (fun task w =>
      let req := mkRequest ["-c"; "true"] (cf_Worktree config) limits tier wiring in
      let '(r, x) := pf_runner pf req (w_x w) in
      let ok := match r with Ok code => code =? 0 | Err _ => false end in
      (match r with
       | Err e => Err e
       | Ok code =>
         if code =? 0 then Ok (mkBoxHandle ("sandbox-" +:+ TrimSpace (task_ID task)) (cf_Worktree config) backend)
         else Err ("sandbox: create probe exited " +:+ FormatInt code)
       end, note (EvBox req ok) (set_x x w)))
    (fun _ w => (None, w)) (fun _ w => (None, w)).

(** [newBlockSink]: the chain's binary resolves and its file is writable. *)
Definition newBlockSink (config : Config) (x : X) : option RunErr * X :=
  match resolveBin (cf_AuditBin config) "audit-trail" x with
  | Err e => (Some (RErrAudit e), x)
  | Ok _ => let '(err, x) := pf_requireWritable pf (cf_AuditRecordPath config) x in (RErrAudit <$> err, x)
  end.

(** [resolveCheckpointConfig] with [requireWritableDir], and [newCheckpointSigner]. *)
Definition resolveCheckpointConfig (config : Config) (x : X) : option RunErr * X :=
  match pf_StatDir pf (cf_AuditCheckpointKey config) x with
  | Err e => (Some (RErrSigner e), x)
  | Ok _ =>
    if String.eqb (cf_AuditCheckpointOut config) "" then (None, x)
    else
      let dir := PathDir (cf_AuditCheckpointOut config) in
      match pf_StatDir pf dir x with
      | Err e => (Some (RErrSigner e), x)
      | Ok false => (Some (RErrSigner "is not a directory"), x)
      | Ok true => let '(err, x) := pf_writable_dir pf dir x in (RErrSigner <$> err, x)
      end
  end.

Definition newCheckpointSigner (config : Config) (x : X) : result RunErr (option (@Signer X)) * X :=
  if String.eqb (cf_AuditCheckpointKey config) "" then (Ok None, x)
  else
    let '(err, x) := resolveCheckpointConfig config x in
    match err with
    | Some e => (Err e, x)
    | None =>
      (match resolveBin (cf_AuditBin config) "audit-trail" x with
       | Err e => Err (RErrSigner e)
       | Ok bin => Ok (Some (pf_signer pf config bin))
       end, x)
    end.

(** [startVault]: the wiring and the running daemon. [None] when the start does
    not return. *)
Definition startVault (config : Config) (x : X) : option (result RunErr (RunWiring * Daemon) * X) :=
  let socketPath := if String.eqb (cf_VaultSocket config) "" then pf_vault_socket pf else cf_VaultSocket config in
  match Start (pf_vault_os pf) (vault_prepare (pf_getenv pf) (pf_read pf) (cf_VaultStorePath config))
          (mkDaemon (cf_VaultBin config) socketPath None) x with
  | None => None
  | Some ((Some e, _), x) => Some (Err (RErrVault "start vault daemon"), x)
  | Some ((None, daemon), x) =>
    let '(src, x) := NewVaultSecretSource (pf_vault_exchange pf socketPath) (cf_ClaudeToken config)
                       (cf_ClaudeOAuthToken config) (cf_GitToken config) (cf_GitHubToken config) 0 x in
    match src with
    | Err e => let '(_, x) := Stop (pf_vault_os pf) daemon x in Some (Err (RErrVault e), x)
    | Ok src => Some (Ok (mkWiring socketPath (vs_handles src) "proxy", daemon), x)
    end
  end.

(** ** The supervised run *)

(** The seams of the supervisor on this world. *)
Definition lift_file : @RecordFile World :=
  let f := pf_record pf in
  mkRecordFile (fun p w => let '(e, x) := rf_Create f p (w_x w) in (e, set_x x w))
    (fun line w => let '(e, x) := rf_Write f line (w_x w) in (e, set_x x w))
    (fun w => let '(e, x) := rf_Close f (w_x w) in (e, set_x x w))
    (fun w => rf_Now f (w_x w)) (rf_Encode f).

Definition lift_signer (s : @Signer X) : @Signer World :=
  mkSigner (fun w => let '(r, x) := sg_VerifyChain s (w_x w) in (r, set_x x w))
    (fun w => let '(e, x) := sg_CreateCheckpoint s (w_x w) in (e, set_x x w)).

(** [RunInside] as the supervisor's process: one step, under the context it is
    given; what is cancelled while it runs is for the executors to see. *)
Definition in_box (l : retryingInBoxLoop) (config : Config) (sink : bool) : @InBoxLoop World (BoxHandle * Task) :=
  mkInBoxLoop (fun h t => (h, t)) (fun cancelled '(h, t) w =>
    let record := if blank (cf_RunRecordPath config) then None
                  else Some (mkMeta (runID t h) (task_ID t) (task_Repo t) (task_Spec t) (bh_ID h) (bh_Worktree h)) in
    let '(err, w) := RunInside l record sink h t (set_ctx cancelled w) in
    (LoopReturned (pf_show_run pf <$> err), w)).

(** The supervisor on the box and the loop. *)
Definition supervise (config : Config) (task : Task) (policy : @RetryPolicy World) (ex : @Executor World)
  (verifier : option (GateObj X)) (publish : PublishRequest -> X -> result string PublishResult * X) (sink : bool)
  (wiring : RunWiring) (tier : string) (limits : Limits) (cs : option (@Signer X)) (sched : list SupTurn) (w : World)
  : option (list SupErr * World) :=
  let backend := if String.eqb (cf_ExecSandboxBin config) "" then "podman" else "exec-sandbox" in
  let inBox := mkInBox ex verifier (cf_Worktree config) (cf_ExecBoxLauncher config) config policy (Some publish)
                 (cf_PublishRemote config) [cf_GitToken config; cf_GitHubToken config] in
  let sup := mkSupervisor (Some (sandboxBox config backend wiring tier limits)) (Some (in_box inBox config sink)) task
               (cf_RunRecordPath config)
               (if sink then Some (fun w => let '(e, x) := pf_seal pf (w_x w) in (e, set_x x w)) else None)
               (lift_signer <$> cs) (cf_RunTimeout config) in
  (fun r => (r.1, en_w r.2)) <$> Supervisor.Run lift_file (pf_show_sup pf) sup sched w.

(** From the box to the saved quota state. *)
Definition run_boxed (config : Config) (task : Task) (policy : @RetryPolicy World) (ex : @Executor World)
  (verifier : option (GateObj X)) (publish : PublishRequest -> X -> result string PublishResult * X) (sink : bool)
  (wiring : RunWiring) (tier : string) (limits : Limits) (sched : list SupTurn) (w : World)
  : option (option RunErr * World) :=
  let '(cs, x) := newCheckpointSigner config (w_x w) in
  let w := set_x x w in
  match cs with
  | Err e => Some (Some e, w)
  | Ok cs =>
    match supervise config task policy ex verifier publish sink wiring tier limits cs sched w with
    | None => None
    | Some (runErr, w) =>
      let '(saveErr, w) :=
        if String.eqb (cf_RouterStatePath config) "" then (None, w)
        else
          let path := cf_RouterStatePath config in
          let '(err, files) := SaveState (pf_marshal pf) (w_router w) (pf_state_writable pf path (w_x w)) path
                                 (pf_state_files pf (w_x w)) in
          (err, note (EvQuotaSaved (match err with None => true | Some _ => false end))
                  (set_x (pf_set_state_files pf files (w_x w)) w)) in
      Some (match saveErr, runErr with
            | Some e, _ => (Some (RErrSaveState runErr e), w)
            | None, [] => (None, note (EvCompleted (task_ID task)) w)
            | None, _ => (Some (RErrSupervisor runErr), w)
            end)
    end
  end.

(** The policy gate and what follows it. *)
Definition run_gated (config : Config) (hook : option (Task -> string -> X -> X)) (task : Task)
  (policy : @RetryPolicy World) (ex : @Executor World) (verifier : option (GateObj X))
  (publish : PublishRequest -> X -> result string PublishResult * X) (sink : bool) (wiring : RunWiring)
  (sched : list SupTurn) (w : World) : option (option RunErr * World) :=
  let limits := mkLimits (cf_RunTimeout config) 0 0 0 [] in
  if String.eqb (cf_PolicyBin config) ""
  then run_boxed config task policy ex verifier publish sink wiring "" limits sched w
  else match decideGate config task (lm_EgressAllowlist limits) wiring (w_x w) with
  | None => None
  | Some (Err e, x) => Some (Some e, set_x x w)
  | Some (Ok (outcome, wiring), x) =>
    let w := maybeEmitPolicyDecision sink (task_ID task) outcome (note (EvDecision outcome) (set_x x w)) in
    if negb (go_allowed outcome) then
      let '(werr, w) := write_status config (task_ID task) WritableStatusNeedsHuman w in
      match werr with
      | Err e => Some (Some (RErrStatus (go_reason outcome) (task_ID task) e), w)
      | Ok _ =>
        let w := match hook with
                 | Some f => if String.eqb (go_policyDecision outcome) requireApprovalDecision
                             then note (EvApprovalHook task (go_reason outcome)) (set_x (f task (go_reason outcome) (w_x w)) w)
                             else w
                 | None => w
                 end in
        Some (None, note (EvHalted (task_ID task) (go_reason outcome)) w)
      end
    else run_boxed config task policy ex verifier publish sink wiring (go_tier outcome) limits sched w
  end.

(** The audit sink, before the policy gate. *)
Definition run_audited (config : Config) (hook : option (Task -> string -> X -> X)) (task : Task)
  (policy : @RetryPolicy World) (ex : @Executor World) (verifier : option (GateObj X))
  (publish : PublishRequest -> X -> result string PublishResult * X) (sched : list SupTurn) (wiring : RunWiring)
  (w : World) : option (option RunErr * World) :=
  let audited := negb (String.eqb (cf_AuditRecordPath config) "") in
  let '(aerr, x) := if audited then newBlockSink config (w_x w) else (None, w_x w) in
  let w := set_x x w in
  match aerr with
  | Some e => Some (Some e, w)
  | None => run_gated config hook task policy ex verifier publish audited wiring sched w
  end.

(** The vault, around the rest: its daemon is stopped on every return. *)
Definition run_wired (config : Config) (hook : option (Task -> string -> X -> X)) (task : Task)
  (policy : @RetryPolicy World) (ex : @Executor World) (verifier : option (GateObj X))
  (publish : PublishRequest -> X -> result string PublishResult * X) (sched : list SupTurn) (w : World)
  : option (option RunErr * World) :=
  if String.eqb (cf_VaultBin config) ""
  then run_audited config hook task policy ex verifier publish sched zero_wiring w
  else match startVault config (w_x w) with
  | None => None
  | Some (Err e, x) => Some (Some e, set_x x w)
  | Some (Ok (wiring, daemon), x) =>
    match run_audited config hook task policy ex verifier publish sched wiring (set_x x w) with
    | None => None
    | Some (err, w) => let '(_, x) := Stop (pf_vault_os pf) daemon (w_x w) in Some (err, set_x x w)
    end
  end.

(** [Run]; [hook] is [config.OnRequireApproval], [sched] the interleaving under
    which the supervisor runs. [None]: the schedule does not finish the run. *)
Definition Run (config : Config) (hook : option (Task -> string -> X -> X)) (sched : list SupTurn) (w : World)
  : option (option RunErr * World) :=
  match validatePaths config (w_x w) with
  | Some e => Some (Some e, w)
  | None =>
    let '(r, x) := SelectRecipe (cf_RecipeName config) (w_x w) in
    match r with
    | Err e => Some (Some (RErrRecipe e), set_x x w)
    | Ok r =>
      let '(gerr, x) := verifyGateExists (rc_GateFactory r) x in
      match gerr with
      | Some e => Some (Some e, set_x x w)
      | None =>
        let source := match cf_DispatchedTask config with
                      | Some t => Ok (fun (_ : FS) (x : X) => (Ok (Some t), x))
                      | None => rc_GoalSource r config
                      end in
        match source, rc_ResultSink r config with
        | Err e, _ => Some (Some (RErrGoalSource e), set_x x w)
        | _, Err e => Some (Some (RErrResultSink e), set_x x w)
        | Ok next, Ok publish =>
          let '(picked, x) := next (w_fs w) x in
          match picked with
          | Err e => Some (Some (RErrPick e), set_x x w)
          | Ok None => Some (None, note EvIdle (set_x x w))
          | Ok (Some task) =>
            let '(verifier, x) := match rc_GateFactory r with Some f => f x | None => (None, x) end in
            let '(built, w) := buildRetryPolicyAndRouter (rc_RoutingSpec r) config (set_x x w) in
            match built with
            | Err e => Some (Some e, w)
            | Ok (policy, ex) => run_wired config hook task policy ex verifier publish sched w
            end
          end
        end
      end
    end
  end.
End Runtime.

(** ** The coding-agent recipe *)

Section CodingAgent.
Context {X : Type}.
(** The tools of the gate and its clock; the commands, the environment and the
    URL test of the publisher; the Unicode case table and the error texts. *)
Variables (quote : string -> string) (tl : Tools X) (clock : X -> Z).
Variables (exec : string -> list string -> string -> list string -> X -> ((string * string) * option string) * X).
Variables (environ : list string) (is_url : string -> bool).
Variables (uni : string -> string) (show_ts : TSErr -> string) (show_pub : PublishErr -> string).

(** [os.DirFS]: the files under a root, by their paths from it. *)
Definition root_prefix (root : string) : string :=
  if String.eqb root "." then "" else if String.eqb root "/" then "/" else root +:+ "/".

Definition DirFS (root : string) (fs : FS) : FS :=
  let prefix := root_prefix root in
  mkFS (fun d => fs_dir fs (PathJoin root d))
    (list_to_map (omap (fun '(p, body) =>
       if HasPrefix p prefix then Some (str_drop (String.length prefix) p, body) else None) (map_to_list (fs_files fs))))
    (fun p => fs_stat_fails fs (PathJoin root p)).

(** [newProductionGateFactory]. *)
Definition newProductionGateFactory (x : X) : option (GateObj X) * X :=
  (match newProductionGate quote tl with
   | Ok g => Some (mkGateObj (Some (Blocks g)) (Gate.Verify clock g))
   | Err _ => None
   end, x).

(** [newCodingAgentRecipe]; [publisherAdapter] copies the fields across. *)
Definition newCodingAgentRecipe (x : X) : result string (Recipe X) * X :=
  (Ok (mkRecipe ""
     (fun cfg => Ok (fun fs x =>
        (match TaskSource.Next uni (Some (DirFS (cf_TaskRoot cfg) fs)) DefaultRoadmapPath DefaultTaskDirs with
         | Ok t => Ok t
         | Err e => Err (show_ts e)
         end, x)))
     (mkRecipeSpec 1 1) (Some newProductionGateFactory)
     (fun cfg => Ok (fun req x =>
        let p := NewGitHubCLI (cf_GitCLI cfg) (cf_GitHubCLI cfg) (cf_Worktree cfg) (cf_PublishRemote cfg)
                   (cf_GitToken cfg) (cf_GitHubToken cfg) in
        let '(r, x) := Publish exec environ is_url p req x in
        (match r with Ok r => Ok r | Err e => Err (show_pub e) end, x)))), x).
End CodingAgent.

(** ** A small platform *)

(** The outside world counts executor runs: the gate passes from the second on,
    and the policy engine gives the same answer to every question. *)
Definition demo_daemons : DaemonOS nat :=
  mkDaemonOS nat (fun _ _ => Ok (false, true)) (fun _ _ _ x => (Ok 1%nat, x)) (fun _ x => (None, x)) (fun _ x => (None, x))
    (fun _ => 0) (fun x => x) (fun _ => false) (fun _ x => (true, x)).

Definition demo_recipe : Recipe nat :=
  mkRecipe "" (fun _ => Ok (fun _ x => (Ok (Some (mkTask "042" "repo" "spec" "")), x))) (mkRecipeSpec 1 0)
    (Some (fun x => (Some (mkGateObj (Some true) (fun _ x => (mkVerdict (2 <=? x)%nat [], x))), x)))
    (fun _ => Ok (fun req x => (Ok (mkPublishResult (pq_Branch req) "https://h/pull/7" "7"), x))).

Definition demo_platform (answer : string) : Platform nat :=
  let entry id cost := mkEntry id HarnessCodexCLI 1 cost "" "" "ref" (mkQuotaBudget 0 0) 0 (mkAvailability AvailStatusAvailable 0) in
  mkPlatform nat (fun _ _ => Ok true) (fun p _ => Ok p) (<["coding-agent" := fun x => (Ok demo_recipe, x)]> ∅)
    (Ok [entry "codex" 1; entry "gemini" 2]) (fun _ _ => 0) (fun _ => ∅) (fun _ x => x) (fun _ _ => false) (fun _ _ => true)
    (fun _ => Some "") (fun _ => None) map_to_list (fun _ _ => None) (fun _ _ => None)
    (fun _ _ _ t x => (Ok (mkExecResult ("task/" +:+ task_ID t) true), S x)) (fun _ x => (Ok 0, x))
    (fun _ => "") (fun _ _ => Ok "") demo_daemons "/tmp/v.sock"
    (fun _ _ x => (Ok (mkVaultResponse true "h" 0 "proxy" None), x)) demo_daemons "/tmp/p.sock"
    (fun _ _ x => (Ok answer, x)) (fun d => Some (mkWire d "" [] false None)) (fun _ => "")
    (fun _ x => (None, x)) (fun _ x => (None, x)) (fun x => (None, x)) (fun _ x => (None, x))
    (fun _ _ => mkSigner (fun x => ((invalid_result, None), x)) (fun x => (None, x)))
    (mkRecordFile (fun _ x => (None, x)) (fun _ x => (None, x)) (fun x => (None, x)) (fun _ => "") (fun _ => Ok ""))
    (fun _ => false) (fun _ => "") (fun _ => "") (fun _ => "") id.

Definition demo_config (policyBin : string) (dispatched : option Task) : Config :=
  mkConfig "root" "tree" "claude" "" "" "run.sh" "" "" "" "" 0 3 "origin" "git" "gh" "" "" "coding-agent" dispatched
    "" "" "" policyBin "" "" "" "" "" "" "".

(** A task root with one task file, or none. *)
Definition demo_root (files : gmap string string) : FS :=
  mkFS (fun d => if String.eqb d "root/docs/tasks/backlog"
                 then DirEntries (map (fun p => mkDirEntry (str_drop 24 p.1) false) (map_to_list files)) else DirNotExist)
    files (fun _ => false).

Definition demo_world (files : gmap string string) : World nat :=
  mkWorld 0%nat (demo_root files) (NewRouter NewCatalog) "" false [].

(** The supervisor's turns: the loop runs, is joined, and the box torn down. *)
Definition demo_turns : list SupTurn := [TurnLoop; TurnSup ArmLoop; TurnSup ArmLoop].

Definition demo_file : gmap string string :=
  {[ "root/docs/tasks/backlog/042.md" := "# Task 042: x" +:+ lf +:+ "**Status:** ready" +:+ lf ]}.
