(* ===== verification/FileWalk.v ===== *)
(** * [filepath.Walk] over a file tree

    The gate steps of the recipes look for their files with [filepath.Walk]: the
    directories from a root down, each one's names in order, links not followed. The
    walk function of both is the same: an error ends the walk, and a path that is not
    a directory is collected if it passes a test. [walk_finds] says that a walk that
    succeeds has found exactly those files. *)

From stdpp Require Import base gmap strings list.
From Stdlib Require Import ZArith Lia Ascii.
From S2P Require Import Prelude GoStrings Paths OSFiles.

(** [filepath.Base] and [filepath.Ext]. *)
Definition is_slash (c : ascii) : bool := Ascii.eqb c "/".
Definition PathBase (p : string) : string :=
  if String.eqb p "" then "."
  else let r := TrimLeft is_slash (String.rev p) in
       if String.eqb r "" then "/" else String.rev (hd "" (Split "/" r)).
Fixpoint ext_from (seen : string) (r : string) : string :=
  match r with
  | "" => ""
  | String c r =>
    if Ascii.eqb c "/" then "" else if Ascii.eqb c "." then String c seen else ext_from (String c seen) r
  end.
Definition PathExt (p : string) : string := ext_from "" (String.rev p).

(** [os.Lstat] with its error. *)
Definition lstat (path : string) (fs : Tree) : result FsErr Node :=
  match resolve kernel_links false path fs with
  | WFound p => Ok (node_at fs p)
  | WMissing _ => Err ENOENT
  | WFail e => Err e
  end.

Section Walk.
Context (readable : list string -> bool) (keep : string -> bool).

(** [walk] of [path/filepath] with the collecting walk function; [None] when the
    depth [fuel] does not suffice. *)
Fixpoint visit (fuel : nat) (fs : Tree) (path : string) (info : Node) (files : list string)
  : option (result FsErr (list string)) :=
  match info with
  | NDir =>
    match fuel with
    | O => None
    | S fuel =>
      match ReadDir readable path fs with
      | Err e => Some (Err e)
      | Ok names =>
        (fix go (names files : list string) : option (result FsErr (list string)) :=
           match names with
           | [] => Some (Ok files)
           | x :: names =>
             match lstat (PathJoin path x) fs with
             | Err e => Some (Err e)
             | Ok info =>
               match visit fuel fs (PathJoin path x) info files with
               | Some (Ok files) => go names files
               | r => r
               end
             end
           end) names files
      end
    end
  | _ => Some (Ok (if keep path then files ++ [path] else files))
  end.

(** No path of the tree is longer than this. *)
Definition walk_fuel (fs : Tree) : nat := S (max_list (map (fun q => length q.1) (map_to_list fs))).

Definition find_files (root : string) (fs : Tree) : option (result FsErr (list string)) :=
  match lstat root fs with
  | Err e => Some (Err e)
  | Ok info => visit (walk_fuel fs) fs root info []
  end.

(** ** Locations of a well-formed tree *)

Lemma is_dir_lookup fs d x : is_dir fs (d ++ [x]) = true <-> fs !! (d ++ [x]) = Some NDir.
Proof. rewrite is_dir_snoc. destruct (fs !! (d ++ [x])) as [[]|]; split; congruence. Qed.

Lemma tree_names fs p : tree_ok fs -> is_dir fs p = true \/ is_Some (fs !! p) -> names_ok p.
Proof.
  intros Ht. induction p as [|x p IH] using rev_ind; intros H; [constructor|].
  assert (exists n, fs !! (p ++ [x]) = Some n) as [n Hn].
  { destruct H as [H|[n H]]; [apply is_dir_lookup in H; by exists NDir | by exists n]. }
  apply Ht in Hn as (d & y & E & Hd & Hy). apply app_inj_tail in E as [-> ->].
  apply Forall_app; split; [by apply IH; left | by repeat constructor].
Qed.

(** What lies below a location makes it a directory. *)
Lemma tree_above fs p q n : tree_ok fs -> q <> [] -> fs !! (p ++ q) = Some n -> is_dir fs p = true.
Proof.
  intros Ht Hq. revert n. induction q as [|x q IH] using rev_ind; intros n H; [done|].
  rewrite app_assoc in H. apply Ht in H as (d & y & E & Hd & _). apply app_inj_tail in E as [<- _].
  destruct q as [|z q] using rev_ind; [by rewrite app_nil_r in Hd|].
  rewrite app_assoc in Hd. apply is_dir_lookup in Hd. rewrite <- app_assoc in Hd.
  eapply IH; [by destruct q | done].
Qed.

Lemma walk_dir k fs f p : tree_ok fs -> is_dir fs p = true -> walk k fs f [] p = WFound p.
Proof.
  intros Ht. revert f. induction p as [|x p IH] using rev_ind; intros f H; [apply walk_nil|].
  apply is_dir_lookup in H. pose proof H as (d & y & E & Hd & Hy)%Ht. apply app_inj_tail in E as [<- <-].
  destruct (walk_last k fs p x Hy) as [r Hr]. by rewrite Hr, IH, Hd, H.
Qed.

Lemma lstat_child fs p x n : tree_ok fs -> fs !! (p ++ [x]) = Some n -> lstat (abs_path (p ++ [x])) fs = Ok n.
Proof.
  intros Ht H. pose proof (tree_names fs _ Ht (or_intror (mk_is_Some _ _ H))) as Hn.
  pose proof H as (d & y & E & Hd & Hy)%Ht. apply app_inj_tail in E as [<- <-].
  unfold lstat. rewrite resolve_abs by done. destruct (walk_last kernel_links fs p x Hy) as [r Hr].
  rewrite Hr, walk_dir, Hd, H by done. cbn [negb]. by destruct n; unfold node_at; rewrite is_dir_snoc, H.
Qed.

Lemma lstat_dir fs p : tree_ok fs -> is_dir fs p = true -> lstat (abs_path p) fs = Ok NDir.
Proof.
  intros Ht H. unfold lstat. rewrite resolve_abs, walk_dir by (by try eapply tree_names; try left).
  unfold node_at. by rewrite H.
Qed.

Lemma ReadDir_dir fs p : tree_ok fs -> is_dir fs p = true ->
  ReadDir readable (abs_path p) fs = if readable p then Ok (children fs p) else Err EACCES.
Proof.
  intros Ht H. unfold ReadDir. rewrite resolve_abs, walk_dir by (by try eapply tree_names; try left). by rewrite H.
Qed.

Lemma elem_children fs p x : x ∈ children fs p <-> is_Some (fs !! (p ++ [x])).
Proof.
  unfold children. rewrite sort_by_elem, list_elem_of_omap. split.
  - intros ([q n] & Hq & E). apply elem_of_map_to_list in Hq. unfold child_of in E. simpl in E.
    destruct (last q); [|done]. case_bool_decide; [|done]. simplify_eq. by exists n.
  - intros [n H]. exists (p ++ [x], n). split; [by apply elem_of_map_to_list|]. unfold child_of. simpl.
    rewrite last_snoc. by rewrite bool_decide_eq_true_2.
Qed.

Lemma PathJoin_child fs p x : tree_ok fs -> is_Some (fs !! (p ++ [x])) -> PathJoin (abs_path p) x = abs_path (p ++ [x]).
Proof.
  intros Ht H. assert (Hn : names_ok (p ++ [x])) by (eapply tree_names; eauto).
  apply Forall_app in Hn as [Hp Hx]. apply Forall_cons in Hx as [Hx _].
  pose proof (name_ok_spec x Hx) as (H1 & H2 & H3 & H4).
  rewrite PathJoin_abs, Split_name by done. f_equal. rewrite <- (app_nil_r (_ :: [])).
  change [x] with ([x] ++ @nil string). rewrite clean_segs_names by (by repeat constructor).
  simpl. by rewrite reverse_cons, reverse_involutive.
Qed.

(** ** What a walk finds *)

(** Nothing in the tree is as deep as [p] and [fuel] together. *)
Definition fits (fs : Tree) (p : list string) (fuel : nat) : Prop :=
  forall q n, fs !! q = Some n -> length q < length p + fuel.

Lemma walk_fuel_fits fs p : fits fs p (walk_fuel fs).
Proof.
  intros q n H. unfold walk_fuel. apply elem_of_map_to_list in H.
  assert (length q <= max_list (map (fun q => length q.1) (map_to_list fs))); [|lia].
  apply max_list_elem_of_le. apply list_elem_of_fmap. by exists (q, n).
Qed.

(** The paths of the kept files at and below a location. *)
Definition file_below (fs : Tree) (p : list string) (s : string) : Prop :=
  exists q n, fs !! (p ++ q) = Some n /\ n <> NDir /\ s = abs_path (p ++ q) /\ keep s = true.

(** Every directory at and below a location can be read. *)
Definition dirs_readable (fs : Tree) (p : list string) : Prop :=
  forall q, is_dir fs (p ++ q) = true -> readable (p ++ q) = true.

Definition finds (fs : Tree) (p : list string) (files : list string) (r : option (result FsErr (list string))) : Prop :=
  match r with
  | None => False
  | Some (Err _) => ~ dirs_readable fs p
  | Some (Ok files') =>
    dirs_readable fs p /\ exists out, files' = files ++ out /\ forall s, s ∈ out <-> file_below fs p s
  end.

Lemma file_below_child fs p x s : fs !! (p ++ [x]) = None -> tree_ok fs -> ~ file_below fs (p ++ [x]) s.
Proof.
  intros H Ht (q & n & Hq & _). destruct q as [|y q]; [by rewrite app_nil_r, H in Hq|].
  apply tree_above in Hq; [|done..]. apply is_dir_lookup in Hq. congruence.
Qed.

(** Below a directory is what is below its children. *)
Lemma file_below_dir fs p s : tree_ok fs -> is_dir fs p = true ->
  file_below fs p s <-> exists x, x ∈ children fs p /\ file_below fs (p ++ [x]) s.
Proof.
  intros Ht Hd. split.
  - intros (q & n & Hq & Hn & E & Hk). destruct q as [|x q].
    { rewrite app_nil_r in Hq. destruct p as [|y p] using rev_ind; [|apply is_dir_lookup in Hd; congruence].
      apply Ht in Hq as ([|] & ? & ? & _); done. }
    exists x. replace (p ++ x :: q) with ((p ++ [x]) ++ q) in * by by rewrite <- app_assoc. split.
    + apply elem_children. destruct q; [rewrite app_nil_r in Hq; by exists n|].
      apply tree_above in Hq; [|done..]. apply is_dir_lookup in Hq. by exists NDir.
    + by exists q, n.
  - intros (x & _ & q & n & Hq & Hn & E & Hk). exists (x :: q), n.
    replace (p ++ x :: q) with ((p ++ [x]) ++ q) by by rewrite <- app_assoc. done.
Qed.

(** Readable directories are readable at the location and below its children. *)
Lemma dirs_readable_dir fs p : tree_ok fs -> is_dir fs p = true ->
  dirs_readable fs p <-> readable p = true /\ forall x, x ∈ children fs p -> dirs_readable fs (p ++ [x]).
Proof.
  intros Ht Hd. split.
  - intros H. split; [specialize (H []); rewrite app_nil_r in H; by apply H|].
    intros x _ q. rewrite <- app_assoc. apply H.
  - intros [Hp H] [|x q]; [by rewrite app_nil_r|]. intros Hq.
    replace (p ++ x :: q) with ((p ++ [x]) ++ q) in * by by rewrite <- app_assoc. apply (H x); [|done].
    apply elem_children. destruct q as [|y q].
    + rewrite app_nil_r in Hq. apply is_dir_lookup in Hq. by exists NDir.
    + assert (exists n, fs !! ((p ++ [x]) ++ y :: q) = Some n) as [n Hn].
      { destruct (exists_last (l := y :: q)) as (l & z & E); [done|]. rewrite E, app_assoc in *. apply is_dir_lookup in Hq. by exists NDir. }
      apply tree_above in Hn; [|done..]. apply is_dir_lookup in Hn. by exists NDir.
Qed.

Lemma dirs_readable_file fs p n : tree_ok fs -> fs !! p = Some n -> n <> NDir -> dirs_readable fs p.
Proof.
  intros Ht Hp Hn q Hq. exfalso. pose proof Hp as (d & y & -> & _)%Ht.
  destruct q as [|x q _] using rev_ind.
  - rewrite app_nil_r in Hq. apply is_dir_lookup in Hq. congruence.
  - rewrite app_assoc in Hq. apply is_dir_lookup in Hq. rewrite <- app_assoc in Hq.
    apply tree_above in Hq; [|done|by destruct q]. apply is_dir_lookup in Hq. congruence.
Qed.

(** The loop over the names of a directory. *)
Lemma names_find (go : list string -> list string -> option (result FsErr (list string)))
  (step : string -> list string -> option (result FsErr (list string))) fs p names files :
  (forall files, go [] files = Some (Ok files)) ->
  (forall x names files, go (x :: names) files = match step x files with Some (Ok files) => go names files | r => r end) ->
  (forall x files, x ∈ names -> finds fs (p ++ [x]) files (step x files)) ->
  match go names files with
  | None => False
  | Some (Err _) => exists x, x ∈ names /\ ~ dirs_readable fs (p ++ [x])
  | Some (Ok files') =>
    (forall x, x ∈ names -> dirs_readable fs (p ++ [x])) /\
    exists out, files' = files ++ out /\ forall s, s ∈ out <-> exists x, x ∈ names /\ file_below fs (p ++ [x]) s
  end.
Proof.
  intros H0 H1. revert files. induction names as [|x names IH]; intros files Hs.
  - rewrite H0. split; [by intros x ?%not_elem_of_nil|]. exists []. rewrite app_nil_r. split; [done|]. set_solver.
  - rewrite H1. pose proof (Hs x files ltac:(left)) as Hx. destruct (step x files) as [[files1|e]|]; [|simpl in *|done].
    + destruct Hx as (Hx & out1 & -> & H2). specialize (IH (files ++ out1) ltac:(intros; apply Hs; by right)).
      destruct (go names (files ++ out1)) as [[files2|e]|]; [| |done].
      * destruct IH as (Hd & out2 & -> & H3). split; [intros y [->|Hy]%elem_of_cons; auto|].
        exists (out1 ++ out2). rewrite app_assoc. split; [done|]. intros s. rewrite elem_of_app, H2, H3. set_solver.
      * destruct IH as (y & Hy & H). exists y. split; [by right | done].
    + exists x. split; [left | done].
Qed.

Lemma dir_finds go step fs p files :
  tree_ok fs -> is_dir fs p = true -> readable p = true ->
  (forall files, go [] files = Some (Ok files)) ->
  (forall x names files, go (x :: names) files = match step x files with Some (Ok files) => go names files | r => r end) ->
  (forall x files, x ∈ children fs p -> finds fs (p ++ [x]) files (step x files)) ->
  finds fs p files (go (children fs p) files).
Proof.
  intros Ht Hd Hr H0 H1 Hs. pose proof (names_find go step fs p (children fs p) files H0 H1 Hs) as H.
  destruct (go (children fs p) files) as [[files'|e]|]; [| |done].
  - destruct H as (Hc & out & -> & H). split; [by apply dirs_readable_dir|].
    exists out. split; [done|]. intros s. by rewrite H, <- file_below_dir.
  - destruct H as (x & Hx & H). intros Ha. apply H. by apply dirs_readable_dir in Ha as [_ Ha]; [apply Ha|..].
Qed.

Lemma visit_finds fuel fs p info files :
  tree_ok fs -> fits fs p fuel -> (info = NDir /\ is_dir fs p = true /\ (0 < fuel)%nat \/ fs !! p = Some info) ->
  finds fs p files (visit fuel fs (abs_path p) info files).
Proof.
  intros Ht. revert p info files. induction fuel as [|fuel IH]; intros p info files Hf Hi.
  - destruct Hi as [[_ [_ ?]]|Hi]; [lia|]. apply Hf in Hi. lia.
  - assert (Hfile : info <> NDir -> finds fs p files (Some (Ok (if keep (abs_path p) then files ++ [abs_path p] else files)))).
    { intros Hne. destruct Hi as [[-> _]|Hi]; [done|].
      assert (Hb : forall s, file_below fs p s <-> s = abs_path p /\ keep s = true).
      { intros s. split; [|intros [-> Hk]; exists [], info; by rewrite app_nil_r].
        intros ([|y q] & n & Hq & _ & -> & Hk); [by rewrite app_nil_r in *|].
        apply tree_above in Hq; [|done..]. pose proof Hi as (d & x & -> & _)%Ht. apply is_dir_lookup in Hq. congruence. }
      split; [by eapply dirs_readable_file|].
      destruct (keep (abs_path p)) eqn:Ek; [exists [abs_path p] | exists []; rewrite app_nil_r];
        (split; [done|]); intros s; rewrite Hb.
      - rewrite list_elem_of_singleton. split; [by intros -> | by intros [-> _]].
      - split; [by intros ?%not_elem_of_nil | intros [-> ?]; congruence]. }
    destruct info; try by apply Hfile. clear Hfile.
    assert (Hd : is_dir fs p = true).
    { destruct Hi as [(_ & ? & _)|Hi]; [done|]. pose proof Hi as (d & x & -> & _)%Ht. by apply is_dir_lookup. }
    cbn [visit]. rewrite ReadDir_dir by done. destruct (readable p) eqn:Er.
    2:{ intros H. apply dirs_readable_dir in H as [H _]; [congruence | done..]. }
    match goal with |- finds _ _ _ (?go _ _) => apply (dir_finds go
      (fun x files => match lstat (PathJoin (abs_path p) x) fs with
         | Err e => Some (Err e) | Ok info => visit fuel fs (PathJoin (abs_path p) x) info files end)) end; try done.
    { intros x ? ?. by destruct (lstat (PathJoin (abs_path p) x) fs). }
    intros x files' Hx. apply elem_children in Hx as [n Hn]. rewrite (PathJoin_child fs) by (done || by exists n).
    rewrite (lstat_child fs p x n) by done. apply IH; [|by right].
    intros q m Hq. apply Hf in Hq. rewrite length_app. simpl. lia.
Qed.

(** A walk from a directory always comes to an end. It succeeds exactly if every
    directory below can be read, and has then found exactly the kept files. *)
Theorem walk_finds fs root :
  tree_ok fs -> is_dir fs root = true -> finds fs root [] (find_files (abs_path root) fs).
Proof.
  intros Ht Hd. unfold find_files. rewrite lstat_dir by done. apply visit_finds; [done | apply walk_fuel_fits|].
  left. split_and!; [done..|]. unfold walk_fuel. lia.
Qed.
End Walk.
