(* ===== verification/GeneratedGate.v ===== *)
(** * The agent-builder-worker recipe ([internal/recipe/agentbuilderworker])

    The recipe whose work is a new recipe. Its gate scans the generated code and its
    dependencies and then looks into the syntax trees of the generated files: each
    recipe they register is to bind a gate. The trees are modelled as package [go/ast]
    has them, with the node types the step looks at and one more constructor for the
    rest; the parser itself is the parameter [ParseFile]. *)

From stdpp Require Import base gmap strings list.
From Stdlib Require Import ZArith Lia Ascii.
From S2P Require Import Prelude GoStrings Paths OSFiles FileWalk Seams Gate GateSteps Publisher AuditTrail.

(** ** Syntax trees *)

(** [ast.Node]. [Other] is any other node, with its children in the order of
    [ast.Walk]; a function has its receiver, its type and its body. *)
Inductive node :=
| Ident (name : string)
| BasicLit (value : string)
| SelectorExpr (x : node) (sel : string)
| CallExpr (fn : node) (args : list node)
| CompositeLit (type : option node) (elts : list node)
| KeyValueExpr (key value : node)
| FuncLit (type body : node)
| FuncDecl (recv : option node) (name : string) (type : node) (body : option node)
| Other (kids : list node).

(** [ast.Inspect] with a function that always returns true calls it on these nodes. *)
Fixpoint inspected (n : node) : list node :=
  n :: match n with
       | Ident _ | BasicLit _ => []
       | SelectorExpr x sel => inspected x ++ [Ident sel]
       | CallExpr fn args => inspected fn ++ flat_map inspected args
       | CompositeLit type elts =>
         match type with Some t => inspected t | None => [] end ++ flat_map inspected elts
       | KeyValueExpr key value => inspected key ++ inspected value
       | FuncLit type body => inspected type ++ inspected body
       | FuncDecl recv name type body =>
         match recv with Some r => inspected r | None => [] end ++ Ident name :: inspected type ++
         match body with Some b => inspected b | None => [] end
       | Other kids => flat_map inspected kids
       end.

(** [ast.File]. *)
Record File := mkFile { f_Name : string; f_Decls : list node }.
Definition inspected_file (f : File) : list node := Ident (f_Name f) :: flat_map inspected (f_Decls f).

(** [pkg.name]. *)
Definition is_selector (pkg name : string) (e : node) : bool :=
  match e with SelectorExpr (Ident x) sel => String.eqb x pkg && String.eqb sel name | _ => false end.

(** ** Bindings *)

(** [RecipeBinding]. *)
Record RecipeBinding := mkRecipeBinding { rb_Name : string; rb_HasGateFactory : bool; rb_IsNilBinding : bool }.

(** [isNilExpr]. *)
Definition is_nil_ident (e : node) : bool := match e with Ident x => String.eqb x "nil" | _ => false end.
Definition isNilExpr (e : node) : bool :=
  is_nil_ident e || match e with CallExpr _ (arg :: _) => is_nil_ident arg | _ => false end.

(** The value of the first field [GateFactory] of a literal. *)
Fixpoint gate_field (elts : list node) : option node :=
  match elts with
  | [] => None
  | KeyValueExpr (Ident k) v :: elts => if String.eqb k "GateFactory" then Some v else gate_field elts
  | _ :: elts => gate_field elts
  end.

(** What a node says of the gate: the third argument of [recipe.New], or the field of
    a literal [recipe.Recipe]. *)
Definition node_gate (n : node) : option node :=
  match n with
  | CallExpr fn args => if is_selector "recipe" "New" fn then args !! 2%nat else None
  | CompositeLit (Some t) elts => if is_selector "recipe" "Recipe" t then gate_field elts else None
  | _ => None
  end.

(** The variable [gateExpr] after the inspection: the last word counts. *)
Definition gate_expr (ns : list node) : option node :=
  foldl (fun acc n => match node_gate n with Some e => Some e | None => acc end) None ns.

(** The functions a file declares, by name; of two with a name (a method, say), the
    later. *)
Definition function_bodies (f : File) : gmap string node :=
  foldl (fun m d => match d with FuncDecl _ name _ _ => <[name := d]> m | _ => m end) ∅ (f_Decls f).

(** [extractRecipeBindingFromFactory]. *)
Definition factory_gate (functionBodies : gmap string node) (arg : node) : option node :=
  match arg with
  | FuncLit _ _ => gate_expr (inspected arg)
  | Ident x => match functionBodies !! x with Some fn => gate_expr (inspected fn) | None => None end
  | _ => None
  end.
Definition extractRecipeBindingFromFactory (arg : node) (recipeName : string) (functionBodies : gmap string node)
  : option RecipeBinding :=
  match factory_gate functionBodies arg with
  | Some e => Some (mkRecipeBinding recipeName true (isNilExpr e))
  | None => None
  end.

(** What [extractRecipeBindings] appends at a node: for a call of [recipe.Register]
    the binding of its factory, if there is one; for a call of [recipe.New] its gate,
    if it is not nil. *)
Definition node_bindings (functionBodies : gmap string node) (n : node) : list RecipeBinding :=
  match n with
  | CallExpr fn args =>
    (if is_selector "recipe" "Register" fn then
       match args with
       | name :: factory :: _ =>
         let recipeName := match name with BasicLit v => v | _ => "" end in
         match extractRecipeBindingFromFactory factory recipeName functionBodies with Some rb => [rb] | None => [] end
       | _ => []
       end
     else []) ++
    (if is_selector "recipe" "New" fn then
       match args !! 2%nat with
       | Some e =>
         let rb := mkRecipeBinding "(recipe.New direct)" (negb (isNilExpr e)) (isNilExpr e) in
         if rb_HasGateFactory rb && negb (rb_IsNilBinding rb) then [rb] else []
       | None => []
       end
     else [])
  | _ => []
  end.
Definition extractRecipeBindings (f : File) : list RecipeBinding :=
  flat_map (node_bindings (function_bodies f)) (inspected_file f).

(** ** The gate step *)

(** The files the walk collects. *)
Definition go_file (path : string) : bool :=
  String.eqb (PathExt path) ".go" && negb (HasSuffix (PathBase path) "_test.go").

Definition no_binding (quote : string -> string) (rb : RecipeBinding) : option string :=
  if negb (rb_HasGateFactory rb) then
    Some ("generated-gate-existence: recipe " +:+ quote (rb_Name rb) +:+ " has no GateFactory binding; a recipe must bind a non-nil, blocking gate (ADR 044, ADR 047)")
  else if rb_IsNilBinding rb then
    Some ("generated-gate-existence: recipe " +:+ quote (rb_Name rb) +:+ " binds GateFactory to nil; a recipe must bind a non-nil, blocking gate (ADR 044, ADR 047)")
  else None.

Section Step.
(** [strconv.Quote]; [go/parser]; the text of a file error; the files of a world. *)
Context {W : Type} (quote : string -> string) (ParseFile : string -> string -> result string File)
        (fs_text : string -> FsErr -> string) (readable : W -> list string -> bool) (tree : W -> Tree).

(** [findGoFiles]. *)
Definition findGoFiles (repoPath : string) (w : W) : option (result FsErr (list string)) :=
  find_files (readable w) go_file repoPath (tree w).

(** One file: its bindings, or the error that is noted. *)
Definition read_recipes (w : W) (path : string) : result string (list RecipeBinding) :=
  match ReadFile (readable w) path (tree w) with
  | Err e => Err (PathBase path +:+ ": read failed: " +:+ fs_text path e)
  | Ok src =>
    match ParseFile path src with
    | Err e => Err (PathBase path +:+ ": parse failed: " +:+ e)
    | Ok f => Ok (extractRecipeBindings f)
    end
  end.

(** The loop over the files. *)
Fixpoint read_loop (w : W) (files : list string) (parseErrors : list string) (recipes : list RecipeBinding)
  : list string * list RecipeBinding :=
  match files with
  | [] => (parseErrors, recipes)
  | path :: files =>
    match read_recipes w path with
    | Err e => read_loop w files (parseErrors ++ [e]) recipes
    | Ok rs => read_loop w files parseErrors (recipes ++ rs)
    end
  end.

(** [GeneratedGateExistenceStep.Run]; the walk of a directory never runs out of fuel. *)
Definition generated_gate_run (repoPath : string) (w : W) : StepResult :=
  match findGoFiles repoPath w with
  | None => step_result false ""
  | Some (Err e) =>
    step_result false ("generated-gate-existence: walk directory " +:+ quote repoPath +:+ ": " +:+ fs_text repoPath e)
  | Some (Ok []) =>
    step_result false "generated-gate-existence: no .go files found in output directory; generated recipe must be a .go source file"
  | Some (Ok goFiles) =>
    let '(parseErrors, recipes) := read_loop w goFiles [] [] in
    match parseErrors with
    | _ :: _ =>
      step_result false (foldl (fun out msg => out +:+ "  " +:+ msg +:+ String nl "")
        ("generated-gate-existence: parse error(s) in generated code (gate failure — generated recipe must be valid Go):" +:+ String nl "") parseErrors)
    | [] =>
      match recipes with
      | [] => step_result false "generated-gate-existence: no recipes registered in generated code; a generated recipe must call recipe.Register()"
      | _ =>
        match omap (no_binding quote) recipes with
        | out :: _ => step_result false out
        | [] => step_result true ("generated-gate-existence: verified " +:+ FormatInt (Z.of_nat (length recipes)) +:+ " recipe binding(s) with non-nil GateFactory")
        end
      end
    end
  end.
Definition GeneratedGateExistenceStep : Step W :=
  mkStep "generated-gate-existence" (fun repoPath w => (generated_gate_run repoPath w, w)).

(** [newAgentBuilderWorkerGate], and the gate it builds. *)
Definition newAgentBuilderWorkerGate (tl : Tools W) : result GateErr (list (registeredStep W)) :=
  Gate.New (map Some [CodeScannerStep quote tl; DepScanStep quote tl; GeneratedGateExistenceStep]).
Definition worker_gate (tl : Tools W) : list (registeredStep W) :=
  map (fun s => mkRegisteredStep (step_Name s) s) [CodeScannerStep quote tl; DepScanStep quote tl; GeneratedGateExistenceStep].

Lemma newAgentBuilderWorkerGate_ok tl : newAgentBuilderWorkerGate tl = Ok (worker_gate tl).
Proof. reflexivity. Qed.
End Step.

(** ** The goal source and the result sink *)

(** [AgentBuilderWorkerGoalSource] and its [Next]. *)
Record WorkerGoalSource := mkWorkerGoalSource { wg_PolicyDecision : string; wg_ApprovalSolicited : bool; wg_served : bool }.
Definition author_task : Task := mkTask "agent-builder-worker-task" "agent-builder" "author a new agent recipe" "".
Definition worker_Next (g : WorkerGoalSource) : option Task * WorkerGoalSource :=
  if String.eqb (wg_PolicyDecision g) "require_approval" then
    (None, mkWorkerGoalSource (wg_PolicyDecision g) true (wg_served g))
  else if wg_served g then (None, g)
  else (Some author_task, mkWorkerGoalSource (wg_PolicyDecision g) (wg_ApprovalSolicited g) true).

(** [AgentBuilderWorkerResultSink.Publish], and [EmitAuditEvent]; [append] is the
    audit sink's [Append], which may be absent from the result sink. *)
Section Sink.
Context {S : Type} (append : AuditEvent -> S -> option AuditErr * S) (sha256_hex : string -> string).

Definition worker_Publish (sink : bool) (req : PublishRequest) (s : S) : PublishResult * S :=
  let s := if sink then (append (mkEvent ActionPublish (pq_Branch req) (task_ID (pq_Task req)) "" ""
             (mkDetail "" (pq_Branch req) (pq_Remote req) 0 "" "" "" false)) s).2 else s in
  (mkPublishResult (pq_Branch req) "" "", s).

Definition EmitAuditEvent (taskID runID generatedFilePath contents : string) (s : S) : option AuditErr * S :=
  append (mkEvent ActionPublish runID taskID "" ""
    (mkDetail "" generatedFilePath (sha256_hex contents) 0 "" "" "" false)) s.
End Sink.

(** ** What the step checks *)

Lemma omap_nil {A B} (g : A -> option B) l : omap g l = [] <-> forall x, x ∈ l -> g x = None.
Proof.
  induction l as [|x l IH]; [split; [set_solver|done]|]. simpl. destruct (g x) eqn:E.
  - split; [done|]. intros H. rewrite H in E by left. done.
  - rewrite IH. split; [intros H y [->|Hy]%elem_of_cons; auto | intros H y Hy; apply H; by right].
Qed.

Lemma and_iff_compat (A B C D : Prop) : (A <-> B) -> (C <-> D) -> (A /\ C <-> B /\ D).
Proof. tauto. Qed.

(** A registration in a file, and a gate it binds; a call of [recipe.New] with a gate
    that is not nil. *)
Definition registration (f : File) (name factory : node) : Prop :=
  exists fn rest, CallExpr fn (name :: factory :: rest) ∈ inspected_file f /\ is_selector "recipe" "Register" fn = true.
Definition bound_gate (f : File) (factory e : node) : Prop := factory_gate (function_bodies f) factory = Some e.
Definition direct_gate (f : File) (e : node) : Prop :=
  exists fn args, CallExpr fn args ∈ inspected_file f /\ is_selector "recipe" "New" fn = true /\
    args !! 2%nat = Some e /\ isNilExpr e = false.
Definition literal_name (name : node) : string := match name with BasicLit v => v | _ => "" end.

Lemma elem_node_bindings m n rb :
  rb ∈ node_bindings m n <->
  (exists fn name factory rest e, n = CallExpr fn (name :: factory :: rest) /\ is_selector "recipe" "Register" fn = true /\
     factory_gate m factory = Some e /\ rb = mkRecipeBinding (literal_name name) true (isNilExpr e)) \/
  (exists fn args e, n = CallExpr fn args /\ is_selector "recipe" "New" fn = true /\ args !! 2%nat = Some e /\
     isNilExpr e = false /\ rb = mkRecipeBinding "(recipe.New direct)" true false).
Proof.
  split.
  - destruct n as [| | |fn args| | | | |]; try by intros ?%not_elem_of_nil. unfold node_bindings. intros [H|H]%elem_of_app.
    + left. destruct (is_selector "recipe" "Register" fn) eqn:Es; [|by apply not_elem_of_nil in H].
      destruct args as [|name [|factory rest]]; try by apply not_elem_of_nil in H.
      unfold extractRecipeBindingFromFactory in H. destruct (factory_gate m factory) as [e|] eqn:Ef; [|by apply not_elem_of_nil in H].
      apply list_elem_of_singleton in H as ->. by exists fn, name, factory, rest, e.
    + right. destruct (is_selector "recipe" "New" fn) eqn:Es; [|by apply not_elem_of_nil in H].
      destruct (args !! 2%nat) as [e|] eqn:Ea; [|by apply not_elem_of_nil in H]. simpl in H.
      destruct (isNilExpr e) eqn:En; [by apply not_elem_of_nil in H|]. apply list_elem_of_singleton in H as ->.
      by exists fn, args, e.
  - intros [(fn & name & factory & rest & e & -> & Hs & Hf & ->)|(fn & args & e & -> & Hs & Ha & Hn & ->)].
    + apply elem_of_app. left. cbn beta iota. rewrite Hs. unfold extractRecipeBindingFromFactory. rewrite Hf. by left.
    + apply elem_of_app. right. rewrite Hs, Ha, Hn. by left.
Qed.

Lemma elem_bindings f rb :
  rb ∈ extractRecipeBindings f <->
  (exists name factory e, registration f name factory /\ bound_gate f factory e /\
     rb = mkRecipeBinding (literal_name name) true (isNilExpr e)) \/
  (exists e, direct_gate f e /\ rb = mkRecipeBinding "(recipe.New direct)" true false).
Proof.
  unfold extractRecipeBindings. rewrite list_elem_of_In, in_flat_map. setoid_rewrite <- list_elem_of_In.
  setoid_rewrite elem_node_bindings. split.
  - intros (n & Hn & [(fn & name & factory & rest & e & -> & Hs & Hf & ->)|(fn & args & e & -> & Hs & Ha & Hni & ->)]).
    + left. exists name, factory, e. split; [by exists fn, rest | done].
    + right. exists e. split; [by exists fn, args | done].
  - intros [(name & factory & e & (fn & rest & Hn & Hs) & Hf & ->)|(e & (fn & args & Hn & Hs & Ha & Hni) & ->)];
      (eexists; split; [exact Hn|]); [left | right].
    + by exists fn, name, factory, rest, e.
    + by exists fn, args, e.
Qed.

Section StepFacts.
Context {W : Type} (quote : string -> string) (ParseFile : string -> string -> result string File)
        (fs_text : string -> FsErr -> string) (readable : W -> list string -> bool) (tree : W -> Tree).

Notation run := (generated_gate_run quote ParseFile fs_text readable tree).
Notation reads := (read_recipes ParseFile fs_text readable tree).

(** A file that can be read and parsed. *)
Definition parsed (w : W) (path : string) (f : File) : Prop :=
  exists src, ReadFile (readable w) path (tree w) = Ok src /\ ParseFile path src = Ok f.

Lemma reads_parsed w path rs : reads w path = Ok rs <-> exists f, parsed w path f /\ rs = extractRecipeBindings f.
Proof.
  unfold read_recipes, parsed. split.
  - destruct (ReadFile (readable w) path (tree w)) as [src|e]; [|done].
    destruct (ParseFile path src) as [f|e] eqn:E; [|done]. intros [= <-]. exists f. split; [by exists src | done].
  - intros (f & (src & -> & ->) & ->). done.
Qed.

Lemma read_loop_spec w files errs recs :
  read_loop ParseFile fs_text readable tree w files errs recs =
  (errs ++ omap (fun p => match reads w p with Err e => Some e | Ok _ => None end) files,
   recs ++ flat_map (fun p => match reads w p with Ok rs => rs | Err _ => [] end) files).
Proof.
  revert errs recs. induction files as [|p files IH]; intros errs recs; simpl; [by rewrite !app_nil_r|].
  destruct (reads w p) as [rs|e]; rewrite IH, <- app_assoc; done.
Qed.

(** What a set of generated files has to be: every file can be read and parsed, some
    gate is bound, and no registered recipe whose gate the file shows binds nil. *)
Definition gates_bound (w : W) (files : string -> Prop) : Prop :=
  (forall p, files p -> exists f, parsed w p f) /\
  (exists p f, files p /\ parsed w p f /\
     ((exists name factory e, registration f name factory /\ bound_gate f factory e) \/ exists e, direct_gate f e)) /\
  (forall p f name factory e, files p -> parsed w p f -> registration f name factory -> bound_gate f factory e ->
     isNilExpr e = false).

Lemma elem_collected w files rb :
  rb ∈ flat_map (fun p => match reads w p with Ok rs => rs | Err _ => [] end) files <->
  exists p f, p ∈ files /\ parsed w p f /\ rb ∈ extractRecipeBindings f.
Proof.
  rewrite list_elem_of_In, in_flat_map. setoid_rewrite <- list_elem_of_In. split.
  - intros (p & Hp & H). destruct (reads w p) as [l|e] eqn:E; [|by apply not_elem_of_nil in H].
    apply reads_parsed in E as (f & Hf & ->). by exists p, f.
  - intros (p & f & Hp & Hf & H). exists p. split; [done|].
    by rewrite (proj2 (reads_parsed w p (extractRecipeBindings f)) ltac:(by exists f)).
Qed.

Lemma no_binding_None rb : no_binding quote rb = None <-> rb_HasGateFactory rb = true /\ rb_IsNilBinding rb = false.
Proof. unfold no_binding. destruct (rb_HasGateFactory rb), (rb_IsNilBinding rb); simpl; intuition congruence. Qed.

Lemma gates_bound_step w files :
  gates_bound w (fun p => p ∈ files) <->
  omap (fun p => match reads w p with Err e => Some e | Ok _ => None end) files = [] /\
  flat_map (fun p => match reads w p with Ok rs => rs | Err _ => [] end) files <> [] /\
  omap (no_binding quote) (flat_map (fun p => match reads w p with Ok rs => rs | Err _ => [] end) files) = [].
Proof.
  pose proof (elem_collected w files) as Hrs. set (rs := flat_map _ files) in *. clearbody rs.
  unfold gates_bound. rewrite !omap_nil. repeat apply and_iff_compat.
  - split; intros H p Hp; specialize (H p Hp).
    + destruct H as [f Hf]. by rewrite (proj2 (reads_parsed w p (extractRecipeBindings f)) ltac:(by exists f)).
    + destruct (reads w p) as [l|] eqn:E; [|done]. apply reads_parsed in E as (f & Hf & _). by exists f.
  - split.
    + intros (p & f & Hp & Hf & Hb). assert (exists rb, rb ∈ extractRecipeBindings f) as [rb Hrb].
      { setoid_rewrite elem_bindings. destruct Hb as [(name & factory & e & Hr & He)|(e & He)]; eexists; [left|right]; eauto 10. }
      assert (Hin : rb ∈ rs) by (apply Hrs; by exists p, f). intros Hn. rewrite Hn in Hin. by apply not_elem_of_nil in Hin.
    + intros Hne. destruct rs as [|rb rs']; [done|]. destruct (proj1 (Hrs rb) ltac:(by left)) as (p & f & Hp & Hf & Hb).
      exists p, f. split; [done|]. split; [done|].
      apply elem_bindings in Hb as [(name & factory & e & ? & ? & _)|(e & ? & _)]; [left; by exists name, factory, e | right; by exists e].
  - setoid_rewrite no_binding_None. setoid_rewrite Hrs. split.
    + intros H rb (p & f & Hp & Hf & Hb). apply elem_bindings in Hb as [(name & factory & e & Hr & He & ->)|(e & _ & ->)]; [|done].
      split; [done|]. by eapply H.
    + intros H p f name factory e Hp Hf Hr He.
      refine (proj2 (H (mkRecipeBinding (literal_name name) true (isNilExpr e)) _)). exists p, f. split; [done|]. split; [done|].
      apply elem_bindings. left. by exists name, factory, e.
Qed.

Lemma gates_bound_ext w P Q : (forall p, P p <-> Q p) -> gates_bound w P <-> gates_bound w Q.
Proof. intros H. unfold gates_bound. setoid_rewrite H. done. Qed.

(** [GeneratedGateExistenceStep.Run] passes exactly when the gates are bound in the
    files the walk has collected. *)
Lemma run_spec repoPath w files :
  findGoFiles readable tree repoPath w = Some (Ok files) ->
  sr_OK (run repoPath w) = true <-> gates_bound w (fun p => p ∈ files).
Proof.
  intros E. unfold generated_gate_run. rewrite E. destruct files as [|p files].
  { split; [discriminate|]. by intros (_ & (p & f & ?%not_elem_of_nil & _) & _). }
  rewrite gates_bound_step, read_loop_spec, !app_nil_l. destruct (omap _ (p :: files)); [|by split; [|intros (? & _)]].
  destruct (flat_map _ (p :: files)) as [|rb rs]; [split; [done|intros (_ & Hne & _); by destruct Hne]|].
  destruct (omap (no_binding quote) (rb :: rs)); [done|]. split; [done|]. by intros (_ & _ & ?).
Qed.

(** ... and so exactly when every directory can be read and the gates are bound in the
    Go files below the worktree. *)
Lemma run_below root w :
  tree_ok (tree w) -> is_dir (tree w) root = true ->
  sr_OK (run (abs_path root) w) = true <->
  dirs_readable (readable w) (tree w) root /\ gates_bound w (file_below go_file (tree w) root).
Proof.
  intros Ht Hd. pose proof (walk_finds (readable w) go_file (tree w) root Ht Hd) as H.
  destruct (find_files (readable w) go_file (abs_path root) (tree w)) as [[files|e]|] eqn:E; [| |done].
  - destruct H as (Hr & out & -> & H). rewrite (run_spec _ _ _ E), (gates_bound_ext w _ (file_below go_file (tree w) root)) by done.
    tauto.
  - simpl in H. unfold generated_gate_run, findGoFiles. rewrite E. split; [done | tauto].
Qed.
End StepFacts.

(** ** The whole gate *)

(** The scanners' processes of a passing gate: the dependency scanner may have had
    nothing to scan. *)
Definition scanned (log log' : list Process) : Prop :=
  exists out, log' = log ++ [mkProcess "code-scanner" [] out true] \/
    exists out', log' = log ++ [mkProcess "code-scanner" [] out true; mkProcess "dep-scan" depScanArgs out' true].


(** The documented requirement: every registered recipe binds a gate that is not nil. *)
Definition every_recipe_is_gated {W} (ParseFile : string -> string -> result string File)
  (readable : W -> list string -> bool) (tree : W -> Tree) (w : W) (files : string -> Prop) : Prop :=
  forall p f name factory, files p -> parsed ParseFile readable tree w p f -> registration f name factory ->
    exists e, bound_gate f factory e /\ isNilExpr e = false.

(** When each file shows the gates of the recipes it registers, the step passes
    exactly the readable Go sources that bind some gate and meet the documented
    requirement. *)
Theorem gate_step_is_exact_on_self_contained_code {W} (quote : string -> string)
  (ParseFile : string -> string -> result string File) (fs_text : string -> FsErr -> string)
  (readable : W -> list string -> bool) (tree : W -> Tree) root w :
  tree_ok (tree w) -> is_dir (tree w) root = true ->
  (forall p f name factory, file_below go_file (tree w) root p -> parsed ParseFile readable tree w p f ->
     registration f name factory -> exists e, bound_gate f factory e) ->
  sr_OK (generated_gate_run quote ParseFile fs_text readable tree (abs_path root) w) = true <->
  dirs_readable (readable w) (tree w) root /\
  (forall p, file_below go_file (tree w) root p -> exists f, parsed ParseFile readable tree w p f) /\
  (exists p f, file_below go_file (tree w) root p /\ parsed ParseFile readable tree w p f /\
     ((exists name factory, registration f name factory) \/ exists e, direct_gate f e)) /\
  every_recipe_is_gated ParseFile readable tree w (file_below go_file (tree w) root).
Proof.
  intros Ht Hd Hself. rewrite run_below by done. unfold gates_bound, every_recipe_is_gated.
  apply and_iff_compat; [done|]. apply and_iff_compat; [done|]. apply and_iff_compat.
  - split; intros (p & f & Hp & Hf & H); exists p, f; (split; [done|]); (split; [done|]).
    + destruct H as [(name & factory & e & Hr & _)|H]; [left; by exists name, factory | by right].
    + destruct H as [(name & factory & Hr)|H]; [|by right].
      destruct (Hself p f name factory Hp Hf Hr) as [e He]. left. by exists name, factory, e.
  - split.
    + intros H p f name factory Hp Hf Hr. destruct (Hself p f name factory Hp Hf Hr) as [e He]. exists e. eauto.
    + intros H p f name factory e Hp Hf Hr He. destruct (H p f name factory Hp Hf Hr) as (e' & He' & Hn).
      unfold bound_gate in *. congruence.
Qed.

(** ** Examples *)

Definition call (pkg name : string) (args : list node) : node := CallExpr (SelectorExpr (Ident pkg) name) args.
Definition func (name : string) (stmts : list node) : node := FuncDecl None name (Other []) (Some (Other stmts)).
Definition register (name : string) (factory : node) : node := call "recipe" "Register" [BasicLit name; factory].
Definition new_recipe (gate : node) : node := call "recipe" "New" [Ident "goals"; Ident "spec"; gate; Ident "sink"; Ident "nil"].
Definition recipe_literal (gate : node) : node :=
  CompositeLit (Some (SelectorExpr (Ident "recipe") "Recipe")) [KeyValueExpr (Ident "GateFactory") gate].

Definition gated_file : File :=
  mkFile "mine" [func "newMine" [new_recipe (Ident "newGate")]; func "init" [register "mine" (Ident "newMine")]].

(** A worktree [/w] with these files. *)
Definition code_tree (files : list (string * string)) : Tree :=
  list_to_map ((["w"], NDir) :: map (fun '(x, c) => (["w"; x], NFile c)) files).
Definition demo_parser (files : list (string * File)) (path src : string) : result string File :=
  match list_to_map (M := gmap string File) files !! src with Some f => Ok f | None => Err "expected 'package'" end.
Definition demo_step (files : list (string * string)) (parse : list (string * File)) : StepResult :=
  generated_gate_run (fun s => s) (demo_parser parse) (fun p _ => p) (fun _ _ => true) code_tree "/w" files.

Example gated_recipe_passes : sr_OK (demo_step [("mine.go", "A")] [("A", gated_file)]) = true.
Proof. vm_compute. reflexivity. Qed.
Example nil_gate_fails :
  sr_OK (demo_step [("bad.go", "B")]
    [("B", mkFile "bad" [func "newBad" [recipe_literal (call "recipe" "GateFactory" [Ident "nil"])];
                         func "init" [register "bad" (Ident "newBad")]])]) = false.
Proof. vm_compute. reflexivity. Qed.

(** A recipe whose factory is declared in another file of its package is not looked at:
    next to one gated recipe, a recipe with a nil gate passes. *)
Example ungated_recipe_in_two_files_passes :
  sr_OK (demo_step [("bad.go", "B"); ("init.go", "I"); ("mine.go", "A")]
    [("A", gated_file);
     ("B", mkFile "mine" [func "newBad" [recipe_literal (Ident "nil")]]);
     ("I", mkFile "mine" [func "init" [register "bad" (Ident "newBad")]])]) = true.
Proof. vm_compute. reflexivity. Qed.

(** The last recipe value of a factory's body counts, not the one it returns. *)
Example later_literal_hides_the_nil_gate :
  sr_OK (demo_step [("bad.go", "B")]
    [("B", mkFile "bad" [func "newBad" [recipe_literal (Ident "nil"); recipe_literal (Ident "newGate")];
                         func "init" [register "bad" (Ident "newBad")]])]) = true.
Proof. vm_compute. reflexivity. Qed.

(** A variable that is nil, or [(nil)] with parentheses, is not the identifier nil. *)
Example parenthesized_nil_passes :
  sr_OK (demo_step [("bad.go", "B")]
    [("B", mkFile "bad" [func "newBad" [recipe_literal (Other [Ident "nil"])];
                         func "init" [register "bad" (Ident "newBad")]])]) = true.
Proof. vm_compute. reflexivity. Qed.

(** A factory without any gate passes next to a gated one. *)
Example missing_gate_passes_beside_another :
  sr_OK (demo_step [("bad.go", "B"); ("mine.go", "A")]
    [("A", gated_file);
     ("B", mkFile "bad" [func "newBad" []; func "init" [register "bad" (Ident "newBad")]])]) = true.
Proof. vm_compute. reflexivity. Qed.

Definition demo_worker_tools : Tools Tree :=
  mkTools (fun _ _ => None) (fun _ _ _ w => (("", None), w)) (fun _ _ => StatNotExist).

Lemma demo_code_ok : tree_ok (code_tree [("mine.go", "A")]).
Proof.
  intros p n H. unfold code_tree in H. apply elem_of_list_to_map_2 in H. simpl in H.
  apply elem_of_cons in H as [H|H]; [|apply elem_of_cons in H as [H|H]; [|by apply not_elem_of_nil in H]]; injection H as -> ->.
  - by exists [], "w".
  - by exists ["w"], "mine.go".
Qed.

