(* ===== verification/DocsFix.v ===== *)
(** * The docs-fix recipe ([internal/recipe/docsfix])

    The gate of documentation fixes: a check of every Markdown file of the worktree,
    then the code scanner. The check notes an unreachable example link and headings
    without a space; [markdown_lint_decides] says what exactly passes. *)

From stdpp Require Import base gmap strings list.
From Stdlib Require Import ZArith Lia Ascii.
From S2P Require Import Prelude GoStrings Paths OSFiles FileWalk Seams Gate GateSteps Publisher.

(** ** The check of one file *)

Definition md_file (path : string) : bool := HasSuffix path ".md".
Definition broken_link : string := "http://localhost:99999".

(** [#] followed by neither a space nor another [#]. *)
Definition malformed_heading (line : string) : bool :=
  match TrimSpace line with
  | String h (String c _) => Ascii.eqb h "#" && negb (Ascii.eqb c " ") && negb (Ascii.eqb c "#")
  | _ => false
  end.

Fixpoint heading_issues (filePath : string) (lineNum : Z) (lines : list string) : list string :=
  match lines with
  | [] => []
  | line :: lines =>
    (if malformed_heading line
     then [filePath +:+ ":" +:+ FormatInt lineNum +:+ ": malformed heading (missing space after #)"] else []) ++
    heading_issues filePath (lineNum + 1) lines
  end.

(** The text of a file that can be read. *)
Definition text_issues (filePath text : string) : list string :=
  (if Contains text broken_link
   then [filePath +:+ ": contains broken localhost link (http://localhost:99999)"] else []) ++
  heading_issues filePath 1 (Split nl text).

Section Step.
Context {W : Type} (quote : string -> string) (fs_text : string -> FsErr -> string)
        (readable : W -> list string -> bool) (tree : W -> Tree).

(** [findMarkdownFiles]. *)
Definition findMarkdownFiles (root : string) (w : W) : option (result FsErr (list string)) :=
  find_files (readable w) md_file root (tree w).

(** [checkMarkdownFile]. *)
Definition checkMarkdownFile (w : W) (filePath : string) : list string :=
  match ReadFile (readable w) filePath (tree w) with
  | Err e => [filePath +:+ ": failed to read: " +:+ fs_text filePath e]
  | Ok text => text_issues filePath text
  end.

(** [MarkdownLintStep.Run]; the walk of a directory never runs out of fuel. *)
Definition markdown_lint_run (repoPath : string) (w : W) : StepResult :=
  let result ok output := mkStepResult "markdown-lint" ok output 0 in
  match findMarkdownFiles repoPath w with
  | None => result false ""
  | Some (Err e) => result false ("failed to list markdown files: " +:+ fs_text repoPath e)
  | Some (Ok []) => result true "no markdown files found"
  | Some (Ok mdFiles) =>
    match flat_map (checkMarkdownFile w) mdFiles with
    | [] => result true ("checked " +:+ FormatInt (Z.of_nat (length mdFiles)) +:+ " markdown files")
    | issues => result false (Join "; " issues)
    end
  end.
Definition MarkdownLintStep : Step W :=
  mkStep "markdown-lint" (fun repoPath w => (markdown_lint_run repoPath w, w)).

(** [newDocsFixGate], and the gate it builds. *)
Definition newDocsFixGate (tl : Tools W) : result GateErr (list (registeredStep W)) :=
  Gate.New (map Some [MarkdownLintStep; CodeScannerStep quote tl]).
Definition docs_gate (tl : Tools W) : list (registeredStep W) :=
  map (fun s => mkRegisteredStep (step_Name s) s) [MarkdownLintStep; CodeScannerStep quote tl].

Lemma newDocsFixGate_ok tl : newDocsFixGate tl = Ok (docs_gate tl).
Proof. reflexivity. Qed.

(** ** What passes *)

(** No line is a heading without its space, and the broken link does not occur. *)
Definition clean_markdown (text : string) : Prop :=
  (forall pre post, text <> pre +:+ broken_link +:+ post) /\
  (forall line c rest, line ∈ Split nl text -> TrimSpace line = String "#" (String c rest) -> c = " "%char \/ c = "#"%char).

Definition markdown_ok (w : W) (files : string -> Prop) : Prop :=
  forall p, files p -> exists text, ReadFile (readable w) p (tree w) = Ok text /\ clean_markdown text.

Lemma Contains_unfold s p : Contains s p = String.prefix p s || match s with "" => false | String _ s' => Contains s' p end.
Proof. by destruct s. Qed.

Lemma Contains_spec s p : Contains s p = false <-> forall pre post, s <> pre +:+ p +:+ post.
Proof.
  split.
  - intros H pre post ->. induction pre as [|c pre IH].
    + change ("" +:+ p +:+ post) with (p +:+ post) in H. by rewrite Contains_unfold, prefix_of_app in H.
    + rewrite str_app_cons, Contains_unfold in H. apply orb_false_iff in H as [_ H]. by apply IH.
  - induction s as [|c s IH]; intros H; rewrite Contains_unfold; apply orb_false_iff; (split; [|try done]).
    1, 2: destruct (String.prefix p _) eqn:E; [apply prefix_app in E; by destruct (H "" _ E) | done].
    apply IH. intros pre post ->. by apply (H (String c pre) post).
Qed.

Lemma malformed_heading_spec line :
  malformed_heading line = false <->
  forall c rest, TrimSpace line = String "#" (String c rest) -> c = " "%char \/ c = "#"%char.
Proof.
  unfold malformed_heading. destruct (TrimSpace line) as [|h [|c rest]]; [done..|].
  destruct (Ascii.eqb_spec h "#") as [->|Hh]; simpl.
  - destruct (Ascii.eqb_spec c " "), (Ascii.eqb_spec c "#"); simpl; split; try done; try (intros _ ? ? [= <- _]; auto).
    intros H. destruct (H c rest eq_refl); congruence.
  - split; [intros _ c' r [= ? _ _]; congruence | done].
Qed.

Lemma text_issues_nil p text : text_issues p text = [] <-> clean_markdown text.
Proof.
  unfold text_issues, clean_markdown. rewrite app_nil, <- Contains_spec.
  assert (H : forall n lines, heading_issues p n lines = [] <-> forall line, line ∈ lines -> malformed_heading line = false).
  { intros n lines. revert n. induction lines as [|line lines IH]; intros n; simpl; [split; [set_solver|done]|].
    rewrite app_nil, IH. destruct (malformed_heading line) eqn:E.
    - split; [by intros [? _]|]. intros H. rewrite H in E by left. done.
    - split; [intros [_ H] l [->|Hl]%elem_of_cons; auto | intros H; split; [done|]; intros l Hl; apply H; by right]. }
  rewrite H. setoid_rewrite malformed_heading_spec.
  destruct (Contains text broken_link); split; intros [H1 H2]; (split; [done|]); intros; eapply H2; eauto.
Qed.

Lemma issues_nil w p : checkMarkdownFile w p = [] <-> exists text, ReadFile (readable w) p (tree w) = Ok text /\ clean_markdown text.
Proof.
  unfold checkMarkdownFile. destruct (ReadFile (readable w) p (tree w)) as [text|e].
  - rewrite text_issues_nil. split; [by exists text | by intros (? & [= ->] & ?)].
  - split; [done | by intros (? & ? & _)].
Qed.

(** The step passes exactly when every directory can be read and every Markdown file
    below the worktree can be read and is clean. *)
Theorem markdown_lint_decides root w :
  tree_ok (tree w) -> is_dir (tree w) root = true ->
  sr_OK (markdown_lint_run (abs_path root) w) = true <->
  dirs_readable (readable w) (tree w) root /\ markdown_ok w (file_below md_file (tree w) root).
Proof.
  intros Ht Hd. pose proof (walk_finds (readable w) md_file (tree w) root Ht Hd) as H.
  unfold markdown_lint_run, findMarkdownFiles.
  destruct (find_files (readable w) md_file (abs_path root) (tree w)) as [[files|e]|]; [| |done].
  - destruct H as (Hr & out & -> & H). rewrite app_nil_l.
    assert (Hm : markdown_ok w (file_below md_file (tree w) root) <-> flat_map (checkMarkdownFile w) out = []).
    { unfold markdown_ok. setoid_rewrite <- H. setoid_rewrite <- issues_nil. clear H.
      induction out as [|p out IH]; simpl; [split; [done|set_solver]|]. rewrite app_nil, <- IH.
      split; [intros Ha; split; [apply Ha; left | intros q Hq; apply Ha; by right] | intros [? Ha] q [->|Hq]%elem_of_cons; auto]. }
    rewrite Hm. destruct out as [|p out]; [done|]. destruct (flat_map _ (p :: out)); split; try done. by intros [_ ?].
  - simpl in H. split; [done | tauto].
Qed.
End Step.

(** A passing gate has checked the Markdown files it was given and has had the code
    scanner run to a clean exit. *)
Theorem passing_docs_gate_has_checked_the_files {W} (quote : string -> string) (fs_text : string -> FsErr -> string)
  (readable : W -> list string -> bool) (tree : W -> Tree) (now : W * list Process -> Z) (tl : Tools W)
  root w log v w' log' :
  Verify now (docs_gate quote fs_text (fun s => readable s.1) (fun s => tree s.1) (log_tools tl))
    (abs_path root) (w, log) = (v, (w', log')) ->
  tree_ok (tree w) -> is_dir (tree w) root = true -> v_OK v = true ->
  (exists out, log' = log ++ [mkProcess "code-scanner" [] out true]) /\
  dirs_readable (readable w) (tree w) root /\ markdown_ok readable tree w (file_below md_file (tree w) root).
Proof.
  unfold docs_gate. cbn [map]. intros E Ht Hd Hv.
  apply Verify_peel in E as (r1 & s1 & v1 & E1 & O1 & E & Hv1); [|done].
  apply Verify_peel in E as (r2 & s2 & v2 & E2 & O2 & E & _); [|done].
  injection E as _ ->. simpl in E1, E2. injection E1 as <- <-. split.
  - apply command_passes in E2; [|done]. by exists (sr_Output r2).
  - by apply (markdown_lint_decides (W := W * list Process)) in O1.
Qed.

(** The example the source gives of a malformed heading, [##text], passes. *)
Example double_hash_without_space_passes : text_issues "README.md" "##text" = [].
Proof. vm_compute. reflexivity. Qed.
Example hash_without_space_is_noted :
  text_issues "README.md" ("# Title" +:+ String nl "#text") = ["README.md:2: malformed heading (missing space after #)"].
Proof. vm_compute. reflexivity. Qed.

(** ** The goal source and the result sink *)

(** [HardcodedGoalSource.Next], with its flag; [NoOpResultSink.Publish]. *)
Definition docs_task : Task := mkTask "docs-fix-hardcoded" "example-repo" "docs-fix-spec" "".
Definition docs_Next (called : bool) : option Task * bool := if called then (None, called) else (Some docs_task, true).
Definition docs_Publish (req : PublishRequest) : PublishResult := mkPublishResult (pq_Branch req) "" "".
