(* ===== verification/Recipes.v ===== *)
(** * The recipe registry and the proof recipes ([internal/recipe])

    [New] and [Register] of [recipe.go], with their panics, [ListRecipes], and the two
    recipes registered beside the coding agent's: docs-fix and agent-builder-worker.
    Selection by name is [Runtime.SelectRecipe]. *)

From stdpp Require Import base gmap strings list sorting.
From Stdlib Require Import ZArith Lia Ascii.
From S2P Require Import Prelude GoStrings Paths OSFiles FileWalk Seams Gate TaskSource GateSteps AuditTrail Publisher RunConfig Runtime GeneratedGate DocsFix.

(** ** The registry *)

Section Registry.
(** A factory of recipes, and [strconv.Quote]. *)
Context {F : Type} (quote : string -> string).

(** [Register]: [Err] is the panic. *)
Definition Register (name : string) (factory : F) (registry : gmap string F) : result string (gmap string F) :=
  match registry !! name with
  | Some _ => Err ("recipe.Register: recipe " +:+ quote name +:+ " is already registered")
  | None => Ok (<[name := factory]> registry)
  end.

(** The [init] functions of a program, in their order. *)
Fixpoint register_all (inits : list (string * F)) (registry : gmap string F) : result string (gmap string F) :=
  match inits with
  | [] => Ok registry
  | (name, factory) :: inits => let? registry := Register name factory registry in register_all inits registry
  end.

(** [ListRecipes]. *)
Definition ListRecipes (registry : gmap string F) : list string :=
  sort_by String.ltb (map fst (map_to_list registry)).

Lemma register_all_spec inits registry :
  match register_all inits registry with
  | Ok r => r = list_to_map inits ∪ registry /\ NoDup (map fst inits) /\ forall name, name ∈ map fst inits -> registry !! name = None
  | Err _ => ~ (NoDup (map fst inits) /\ forall name, name ∈ map fst inits -> registry !! name = None)
  end.
Proof.
  revert registry. induction inits as [|[name f] inits IH]; intros registry; simpl.
  { split_and!; [by rewrite (left_id_L ∅ (∪)) | constructor | by intros ? ?%not_elem_of_nil]. }
  unfold Register. destruct (registry !! name) as [g|] eqn:E.
  { intros [_ H]. rewrite H in E by left. done. }
  specialize (IH (<[name := f]> registry)). destruct (register_all inits (<[name := f]> registry)) as [r|e].
  - destruct IH as (-> & Hn & Hf). assert (Hx : name ∉ map fst inits).
    { intros Hx. specialize (Hf name Hx). by rewrite lookup_insert_eq in Hf. }
    split_and!.
    + rewrite <- insert_union_r by by apply not_elem_of_list_to_map_1. by rewrite insert_union_l.
    + by constructor.
    + intros x [->|Hx']%elem_of_cons; [done|]. specialize (Hf x Hx'). by apply lookup_insert_None in Hf as [? _].
  - intros [Hn H]. apply NoDup_cons in Hn as [Hx Hn]. apply IH. split; [done|].
    intros x Hx'. apply lookup_insert_None. split; [apply H; by right | by intros ->].
Qed.

(** Programs that register each name once start; every other program panics. The
    registry then has exactly the registered recipes, and they are listed once each,
    in alphabetical order. *)
Theorem registry_holds_each_recipe_once inits :
  match register_all inits ∅ with
  | Ok r => NoDup (map fst inits) /\ (forall name factory, r !! name = Some factory <-> (name, factory) ∈ inits) /\
            ListRecipes r ≡ₚ map fst inits /\ StronglySorted (fun a b => String.ltb b a = false) (ListRecipes r)
  | Err _ => ~ NoDup (map fst inits)
  end.
Proof.
  pose proof (register_all_spec inits ∅) as H. destruct (register_all inits ∅) as [r|e].
  - destruct H as (-> & Hn & _). rewrite (right_id_L ∅ (∪)). split_and!; [done|..].
    + intros name factory. by rewrite elem_of_list_to_map.
    + unfold ListRecipes. rewrite sort_by_perm. by rewrite map_to_list_to_map.
    + unfold ListRecipes. apply sort_by_sorted; [apply ltb_asym | intros x y z; apply nltb_trans].
  - intros Hn. apply H. split; [done|]. intros. apply lookup_empty.
Qed.
End Registry.

(** ** Construction *)

(** [New] panics on a missing seam; [Ok] is its recipe. *)
Definition New {X} (goalSourceFactory : option (Config -> result string (FS -> X -> result string (option Task) * X)))
  (routingSpec : RecipeSpec) (gateFactory : option (X -> option (GateObj X) * X))
  (resultSinkFactory : option (Config -> result string (PublishRequest -> X -> result string PublishResult * X)))
  : result string (Recipe X) :=
  match goalSourceFactory, gateFactory, resultSinkFactory with
  | None, _, _ => Err "recipe.New: GoalSourceFactory is nil — a Recipe must have a GoalSource"
  | _, None, _ => Err "recipe.New: GateFactory is nil — a Recipe must have a Gate"
  | _, _, None => Err "recipe.New: ResultSinkFactory is nil — a Recipe must have a ResultSink"
  | Some goals, Some gate, Some sink => Ok (mkRecipe "" goals routingSpec (Some gate) sink)
  end.

Section Recipes.
(** The seams of the gates; the world keeps the goal source a factory has made, which
    starts as [WorkerGoalSource] with no decision or as an uncalled [HardcodedGoalSource]. *)
Context {X : Type} (quote : string -> string) (ParseFile : string -> string -> result string File)
        (fs_text : string -> FsErr -> string) (readable : X -> list string -> bool) (tree : X -> Tree)
        (tl : Tools X) (clock : X -> Z).
Context (worker_source : X -> WorkerGoalSource) (set_worker_source : WorkerGoalSource -> X -> X).
Context (docs_called : X -> bool) (set_docs_called : bool -> X -> X).
Context (append : AuditEvent -> X -> option AuditErr * X).

(** [newAgentBuilderWorkerGateFactory], with the marker method of its gate. *)
Definition newAgentBuilderWorkerGateFactory (x : X) : option (GateObj X) * X :=
  (match newAgentBuilderWorkerGate quote ParseFile fs_text readable tree tl with
   | Ok g => Some (mkGateObj (Some true) (Gate.Verify clock g))
   | Err _ => None
   end, x).

(** [newAgentBuilderWorkerRecipe]: its sink has no audit sink. *)
Definition newAgentBuilderWorkerRecipe (x : X) : result string (Recipe X) * X :=
  (New (Some (fun _ => Ok (fun _ x => let '(t, g) := worker_Next (worker_source x) in (Ok t, set_worker_source g x))))
     (mkRecipeSpec 2 1) (Some newAgentBuilderWorkerGateFactory)
     (Some (fun _ => Ok (fun req x => let '(r, x) := worker_Publish append false req x in (Ok r, x)))), x).

(** [newDocsFixGateFactory] and [newDocsFixRecipe]. *)
Definition newDocsFixGateFactory (x : X) : option (GateObj X) * X :=
  (match newDocsFixGate quote fs_text readable tree tl with
   | Ok g => Some (mkGateObj (Some true) (Gate.Verify clock g))
   | Err _ => None
   end, x).
Definition newDocsFixRecipe (x : X) : result string (Recipe X) * X :=
  (New (Some (fun _ => Ok (fun _ x => let '(t, called) := docs_Next (docs_called x) in (Ok t, set_docs_called called x))))
     (mkRecipeSpec 1 0) (Some newDocsFixGateFactory) (Some (fun _ => Ok (fun req x => (Ok (docs_Publish req), x)))), x).

(** The registrations of the three packages. *)
Definition recipe_inits (coding : X -> result string (Recipe X) * X) : list (string * (X -> result string (Recipe X) * X)) :=
  [("agent-builder-worker", newAgentBuilderWorkerRecipe); ("docs-fix", newDocsFixRecipe); ("coding-agent", coding)].

(** The program starts, and lists its three recipes; every registered recipe has a
    gate factory whose gate blocks. *)
Theorem program_registers_three_gated_recipes (coding_quote : string -> string) exec environ is_url uni show_ts show_pub x :
  exists r, register_all quote (recipe_inits (newCodingAgentRecipe coding_quote tl clock exec environ is_url uni show_ts show_pub)) ∅ = Ok r /\
    ListRecipes r = ["agent-builder-worker"; "coding-agent"; "docs-fix"] /\
    forall name factory, r !! name = Some factory ->
      exists rc gf g, (factory x).1 = Ok rc /\ rc_GateFactory rc = Some gf /\ (gf x).1 = Some g /\ g_Blocks g = Some true.
Proof.
  eexists. split; [reflexivity|]. split; [reflexivity|]. intros name factory H.
  apply lookup_insert_Some in H as [[<- <-]|[_ H]]; [by eexists _, _, _|].
  apply lookup_insert_Some in H as [[<- <-]|[_ H]]; [by eexists _, _, _|].
  apply lookup_insert_Some in H as [[<- <-]|[_ H]]; [by eexists _, _, _|]. done.
Qed.

(** The recipe of the worker as it is assembled never withholds its task, publishes
    nothing and records nothing: a publication only repeats the branch's name. *)
Theorem assembled_worker_neither_asks_nor_records rc x cfg :
  (newAgentBuilderWorkerRecipe x).1 = Ok rc -> wg_PolicyDecision (worker_source x) = "" -> wg_served (worker_source x) = false ->
  (exists source, rc_GoalSource rc cfg = Ok source /\
     forall fs, source fs x = (Ok (Some author_task), set_worker_source (mkWorkerGoalSource "" (wg_ApprovalSolicited (worker_source x)) true) x)) /\
  (exists sink, rc_ResultSink rc cfg = Ok sink /\ forall req, sink req x = (Ok (mkPublishResult (pq_Branch req) "" ""), x)).
Proof.
  intros E Hp Hs. injection E as <-. split; eexists; (split; [reflexivity|]); [|done].
  intros fs. unfold worker_Next. by rewrite Hp, Hs.
Qed.
End Recipes.
