(* ===== verification/ExecSandbox.v ===== *)
(** * The exec-sandbox backend ([internal/sandbox/execsandbox])

    A request becomes a JSON document on the standard input of the exec-sandbox binary,
    and the JSON the binary prints becomes the result. Modelled are the whole of
    [Runner.Run], the document with what it grants, the shell text of the command, and
    the decoding of the answer. The binary itself and the host are [Host]. *)

From stdpp Require Import base gmap strings list.
From Stdlib Require Import ZArith Lia Ascii SpecFloat.
From S2P Require Import Prelude GoStrings Texts Encoding Json JsonWriter Paths FileWalk Sandbox.

Local Open Scope Z_scope.

Inductive ExecErr :=
| EInvalidCommand
| EMissingBinary (detail : string)
| EInvalidWorktree (detail : string)
| EEgress (entry : string)
| EInvoke (bin err : string)
| EExit (code : Z) (stderr : string)
| ENoOutput
| EInvalidJSON
| EBlock (err : string).

(** ** The shell text of a command *)

(** The characters for which an argument is quoted: blank, tab, newline, both quotes,
    backslash, dollar, backquote and exclamation mark. *)
Definition quoted_char (c : ascii) : bool :=
  let b := byte_of c in
  (b =? 32) || (b =? 9) || (b =? 10) || (b =? 39) || (b =? 34) || (b =? 92) || (b =? 36) || (b =? 96) || (b =? 33).
Definition squote : ascii := byte_char 39.

(** Inside single quotes: a single quote ends them, is escaped, and reopens them. *)
Fixpoint escape_quotes (s : string) : string :=
  match s with
  | "" => ""
  | String c s =>
    if Ascii.eqb c squote then String squote (String bslash (String squote (String squote (escape_quotes s))))
    else String c (escape_quotes s)
  end.

(** [shellQuote]. *)
Definition shellQuote (s : string) : string :=
  if String.eqb s "" then String squote (String squote "")
  else if str_forall (fun c => negb (quoted_char c)) s then s
  else String squote (escape_quotes s +:+ String squote "").

(** [renderCommand]. *)
Definition renderCommand (cmd : list string) : string :=
  match cmd with
  | [] => ""
  | c :: args =>
    let base := PathBase c in
    let rest := if String.eqb base "sh" || String.eqb base "bash" then args else cmd in
    match rest with
    | dash :: script :: _ => if String.eqb dash "-c" then script else Join " " (map shellQuote cmd)
    | _ => Join " " (map shellQuote cmd)
    end
  end.

(** ** The document *)

Record capabilityData := mkCapability { cd_Type : string; cd_Allowlist : list string; cd_Paths : list string }.
Record limitsData := mkLimitsData { ld_CPUCount : Z; ld_MemoryMB : Z; ld_Pids : Z; ld_DiskMB : Z; ld_TimeoutSec : Z }.
Record profileData := mkProfile { pd_Capabilities : list capabilityData; pd_Limits : limitsData }.
Record runData := mkRunData {
  rd_Payload : string; rd_Profile : profileData; rd_Tier : string; rd_SecretRefs : list string; rd_Workdir : string;
  rd_Env : gmap string string
}.
Record wiringData := mkWiringData {
  wd_VaultSocket : string; wd_AuditSocket : string; wd_OriginMap : gmap string (string * string); wd_RequestID : string;
  wd_InjectionMode : string
}.
Record runRequest := mkRunRequest { rr_Run : runData; rr_Wiring : wiringData }.

(** The members of a map, in the order of their keys. *)
Definition sorted_members {A} (m : gmap string A) (f : A -> json) : list (string * json) :=
  map (fun '(k, v) => (k, f v)) (sort_by (fun a b => String.ltb a.1 b.1) (map_to_list m)).
Definition omitempty {A} (name : string) (l : list A) (v : json) : list (string * json) :=
  match l with [] => [] | _ => [(name, v)] end.

(** The value [json.Marshal] writes. *)
Definition capability_json (c : capabilityData) : json :=
  JObject ([("type", JString (cd_Type c))] ++ omitempty "allowlist" (cd_Allowlist c) (strings (cd_Allowlist c)) ++
           omitempty "paths" (cd_Paths c) (strings (cd_Paths c))).
Definition limits_json (l : limitsData) : json :=
  JObject [("cpu_count", int (ld_CPUCount l)); ("memory_mb", int (ld_MemoryMB l)); ("pids", int (ld_Pids l));
           ("disk_mb", int (ld_DiskMB l)); ("timeout_sec", int (ld_TimeoutSec l))].
Definition profile_json (p : profileData) : json :=
  JObject (omitempty "capabilities" (pd_Capabilities p) (JArray (map capability_json (pd_Capabilities p))) ++
           [("limits", limits_json (pd_Limits p))]).
Definition run_json (r : runData) : json :=
  JObject ([("payload", JString (rd_Payload r)); ("profile", profile_json (rd_Profile r)); ("tier", JString (rd_Tier r));
            ("secret_refs", strings (rd_SecretRefs r)); ("workdir", JString (rd_Workdir r))] ++
           omitempty "env" (map_to_list (rd_Env r)) (JObject (sorted_members (rd_Env r) JString))).
Definition wiring_json (w : wiringData) : json :=
  JObject [("vault_socket", JString (wd_VaultSocket w)); ("audit_socket", JString (wd_AuditSocket w));
           ("origin_map", JObject (sorted_members (wd_OriginMap w) (fun '(h, p) => strings [h; p])));
           ("request_id", JString (wd_RequestID w)); ("injection_mode", JString (wd_InjectionMode w))].
Definition request_json (r : runRequest) : json :=
  JObject [("run", run_json (rr_Run r)); ("wiring", wiring_json (rr_Wiring r))].

(** [parseEgressAllowlist]: host and port around the first colon; the first bad entry
    is the error. *)
Definition split_entry (entry : string) : option (string * string) :=
  match IndexByte entry ":" with
  | Some i =>
    let host := str_take i entry in
    let port := str_drop (S i) entry in
    if String.eqb host "" || String.eqb port "" then None else Some (host, port)
  | None => None
  end.
Fixpoint parseEgressAllowlist_from (m : gmap string (string * string)) (allowlist : list string)
  : result ExecErr (gmap string (string * string)) :=
  match allowlist with
  | [] => Ok m
  | entry :: rest =>
    match split_entry entry with
    | None => Err (EEgress entry)
    | Some (host, port) => parseEgressAllowlist_from (<[host := (host, port)]> m) rest
    end
  end.
Definition parseEgressAllowlist (allowlist : list string) : result ExecErr (gmap string (string * string)) :=
  parseEgressAllowlist_from ∅ allowlist.

(** [int(d.Seconds())]: the whole seconds, plus the nanoseconds left divided by 1e9, in
    64-bit floating point, rounded towards zero. *)
Definition float_of (z : Z) : spec_float := binary_normalize 53 1024 z 0 false.
Definition trunc (f : spec_float) : Z :=
  match f with
  | S754_finite s m e =>
    let v := if 0 <=? e then Z.pos m * 2 ^ e else Z.pos m / 2 ^ (- e) in if s then - v else v
  | _ => 0
  end.
Definition int_seconds (d : Z) : Z :=
  trunc (SFadd 53 1024 (float_of (Z.quot d 1000000000))
           (SFdiv 53 1024 (float_of (Z.rem d 1000000000)) (float_of 1000000000))).

Section Runner.
(** The host; [/dev/urandom], of which eight bytes are read, if it can be opened; the
    clock; [strconv.Quote]; whether [strconv.ParseFloat] accepts a number. *)
Context {X : Type} (host : Host X) (urandom : X -> option string) (now_nanos : X -> Z) (quote : string -> string)
        (float_ok : string -> bool).

(** [discoverGoroot]. *)
Definition discoverGoroot (x : X) : option string * X :=
  let envPath := ho_Getenv host "AGENT_BUILDER_EXEC_SANDBOX_GOROOT" x in
  if negb (String.eqb envPath "") then (Some envPath, x)
  else
    let '((out, err), x) := ho_CombinedOutput host "go" ["env"; "GOROOT"] x in
    (match err with
     | None => let goroot := TrimSpace out in if String.eqb goroot "" then None else Some goroot
     | Some _ => None
     end, x).

(** [discoverGateTools]. *)
Definition discoverGateTools (repoRoot : string) (x : X) : option string :=
  let envPath := ho_Getenv host "AGENT_BUILDER_GATE_TOOLS" x in
  if negb (String.eqb envPath "") then if exists_dir host envPath x then Some envPath else None
  else Some (PathJoin repoRoot "containment/execution-box/gate-tools").

(** [findRepoRoot]: the working directory and nine directories above it. *)
Definition exists_file (path : string) (x : X) : bool :=
  match ho_Stat host path x with Ok info => negb (fi_IsDir info) | Err _ => false end.
Fixpoint find_root (levels : nat) (path : string) (x : X) : option string :=
  match levels with
  | O => None
  | S levels =>
    if exists_dir host (PathJoin path "containment/execution-box") x then Some path
    else if exists_file (PathJoin path "CLAUDE.md") x && exists_dir host (PathJoin path "containment") x then Some path
    else let parent := PathDir path in if String.eqb parent path then None else find_root levels parent x
  end.
Definition findRepoRoot (x : X) : option string :=
  match ho_Getwd host x with Err _ => None | Ok cwd => find_root 10 cwd x end.

(** [generateRequestID]. *)
Definition generateRequestID (x : X) : string :=
  match urandom x with
  | Some b => "req-" +:+ hex_encode (str_take 4 b)
  | None => "req-" +:+ FormatInt (now_nanos x)
  end.

(** The directories that are mounted for reading, and those of [PATH]. *)
Definition tool_paths (x : X) : (list string * list string) * X :=
  let '(goroot, x) := discoverGoroot x in
  let '(reads, dirs) := match goroot with Some g => ([g], [PathJoin g "bin"]) | None => ([], []) end in
  let tools := match findRepoRoot x with Some root => discoverGateTools root x | None => None end in
  match tools with
  | Some t => ((reads ++ [t], dirs ++ [t]), x)
  | None => ((reads, dirs), x)
  end.
Definition system_path : list string := ["/usr/local/sbin"; "/usr/local/bin"; "/usr/sbin"; "/usr/bin"; "/sbin"; "/bin"].

(** [buildRunRequest], with the map the caller has parsed. *)
Definition buildRunRequest (req : Request) (worktree : string) (egress : result ExecErr (gmap string (string * string)))
  (x : X) : result ExecErr runRequest * X :=
  match egress with
  | Err e => (Err e, x)
  | Ok originMap =>
    let limits := rq_Limits req in
    let '((fileReadPaths, pathDirs), x) := tool_paths x in
    let env := match pathDirs with [] => ∅ | _ => {[ "PATH" := Join ":" (pathDirs ++ system_path) ]} end in
    let capabilities :=
      match fileReadPaths with [] => [] | _ => [mkCapability "FileRead" [] fileReadPaths] end ++
      match lm_EgressAllowlist limits with [] => [] | l => [mkCapability "NetConnect" l []] end in
    (Ok (mkRunRequest
       (mkRunData (renderCommand (rq_Command req))
          (mkProfile capabilities
             (mkLimitsData (lm_CPUCount limits) (Z.quot (lm_MemoryBytes limits) (1024 * 1024)) (lm_PidsLimit limits) 0
                (int_seconds (lm_WallClockTimeout limits))))
          (if String.eqb (rq_Tier req) "" then "bubblewrap" else rq_Tier req)
          (wi_SecretRefs (rq_Wiring req)) worktree env)
       (mkWiringData (wi_VaultSocket (rq_Wiring req)) "" originMap (generateRequestID x) (wi_InjectionMode (rq_Wiring req)))), x)
  end.

(** ** The answer *)

(** [blockResult]; [secrets_injected] is decoded and not used. *)
Record statusData := mkStatus { sd_SandboxID : string; sd_Tier : string; sd_DurationMs : Z; sd_Status : string; sd_Limits : option json }.
Record blockResult := mkBlockResult { br_Stdout : string; br_Stderr : string; br_ExitCode : Z; br_Error : string; br_Status : statusData }.
Definition zero_block : blockResult := mkBlockResult "" "" 0 "" (mkStatus "" "" 0 "" None).

(** A value that can be stored in a value of any type. *)
Fixpoint any_ok (v : json) : bool :=
  match v with
  | JNumber l => float_ok l
  | JArray vs => forallb any_ok vs
  | JObject ms => forallb (fun '(_, v) => any_ok v) ms
  | _ => true
  end.

Definition status_fields : list (Field statusData) :=
  [("sandbox_id", store_string (fun s r => mkStatus s (sd_Tier r) (sd_DurationMs r) (sd_Status r) (sd_Limits r)));
   ("tier", store_string (fun s r => mkStatus (sd_SandboxID r) s (sd_DurationMs r) (sd_Status r) (sd_Limits r)));
   ("duration_ms", store_int (fun n r => mkStatus (sd_SandboxID r) (sd_Tier r) n (sd_Status r) (sd_Limits r)));
   ("secrets_injected", fun v r => match v with JNull => Some r | JArray vs => if forallb any_ok vs then Some r else None | _ => None end);
   ("status", store_string (fun s r => mkStatus (sd_SandboxID r) (sd_Tier r) (sd_DurationMs r) s (sd_Limits r)));
   ("limits", fun v r => if any_ok v then
      Some (mkStatus (sd_SandboxID r) (sd_Tier r) (sd_DurationMs r) (sd_Status r) (match v with JNull => None | _ => Some v end)) else None)].
Definition block_fields : list (Field blockResult) :=
  [("stdout", store_string (fun s r => mkBlockResult s (br_Stderr r) (br_ExitCode r) (br_Error r) (br_Status r)));
   ("stderr", store_string (fun s r => mkBlockResult (br_Stdout r) s (br_ExitCode r) (br_Error r) (br_Status r)));
   ("exit_code", store_int (fun n r => mkBlockResult (br_Stdout r) (br_Stderr r) n (br_Error r) (br_Status r)));
   ("error", store_string (fun s r => mkBlockResult (br_Stdout r) (br_Stderr r) (br_ExitCode r) s (br_Status r)));
   ("sandbox_status", fun v r => match v with
      | JNull => Some r
      | JObject ms =>
        match store_members status_fields ms (br_Status r) with
        | Some st => Some (mkBlockResult (br_Stdout r) (br_Stderr r) (br_ExitCode r) (br_Error r) st)
        | None => None
        end
      | _ => None end)].

(** [extractDegraded]: of two members of a name the later counts. *)
Definition member (name : string) (ms : list (string * json)) : option json :=
  foldl (fun acc '(k, v) => if String.eqb k name then Some v else acc) None ms.
Definition extractDegraded (limits : option json) : list string :=
  match limits with
  | Some (JObject ms) =>
    match member "degraded" ms with
    | Some (JArray items) => omap (fun v => match v with JString s => Some s | _ => None end) items
    | _ => []
    end
  | _ => []
  end.

Definition block_result (b : blockResult) : SandboxResult :=
  let st := br_Status b in
  mkSandboxResult (br_Stdout b) (br_Stderr b) (wrap64 (sd_DurationMs st * 1000000)) (sd_SandboxID st) (sd_Tier st) (sd_Status st)
    (extractDegraded (sd_Limits st)).

(** What becomes of the finished process of the binary. *)
Definition read_answer (absPath : string) (p : Proc) : BoxOutcome ExecErr :=
  match pr_end p with
  | NotRun e => run_failed (EInvoke absPath e)
  | Exited code =>
    if negb (code =? 0) then (zero_result, code, Some (EExit code (TrimSpace (pr_stderr p))))
    else if String.eqb (pr_stdout p) "" then run_failed ENoOutput
    else match Unmarshal block_fields zero_block (pr_stdout p) with
    | None => run_failed EInvalidJSON
    | Some b => if negb (String.eqb (br_Error b) "") then run_failed (EBlock (br_Error b)) else (block_result b, br_ExitCode b, None)
    end
  end.

(** ** Run *)

(** [New]: the path of the binary. *)
Definition New (binPath : string) : string := TrimSpace binPath.

(** The checks of the binary; 73 is 0o111, the three execute bits. *)
Definition findBinary (binPath : string) (x : X) : result ExecErr string :=
  if String.eqb binPath "" then Err (EMissingBinary "AGENT_BUILDER_EXEC_SANDBOX_BIN is not set")
  else match Abs host binPath x with
  | Err e => Err (EMissingBinary ("cannot resolve binary path " +:+ quote binPath +:+ ": " +:+ e))
  | Ok absPath =>
    match ho_Stat host absPath x with
    | Err e => Err (EMissingBinary ("binary " +:+ quote absPath +:+ " does not exist or is not readable: " +:+ e))
    | Ok info =>
      if fi_IsDir info then Err (EMissingBinary (quote absPath +:+ " is a directory, not an executable"))
      else if Z.land (fi_Mode info) 73 =? 0 then Err (EMissingBinary (quote absPath +:+ " is not executable"))
      else Ok absPath
    end
  end.

(** [Runner.Run]. *)
Definition Run (binPath : string) (req : Request) (x : X) : BoxOutcome ExecErr * X :=
  if negb (ValidateRequest req) then (run_failed EInvalidCommand, x)
  else match findBinary binPath x with
  | Err e => (run_failed e, x)
  | Ok absPath =>
    match (if blank (rq_Worktree req) then Ok "" else validateWorktree host (rq_Worktree req) x) with
    | Err e => (run_failed (EInvalidWorktree e), x)
    | Ok worktree =>
      let '(r, x) := buildRunRequest req worktree (parseEgressAllowlist (lm_EgressAllowlist (rq_Limits req))) x in
      match r with
      | Err e => (run_failed e, x)
      | Ok runReq =>
        let '(p, x) := ho_run host absPath ["run"] "" [] (write_json (request_json runReq)) x in
        (read_answer absPath p, x)
      end
    end
  end.
End Runner.

(** ** What the shell makes of the text *)

(** Characters with which a word is not plain for [sh]: operators, expansions and
    patterns; some matter only at the start of a word or line, and are refused
    everywhere. *)
Definition sh_meta (c : ascii) : bool :=
  let b := byte_of c in
  existsb (Z.eqb b) [10; 33; 34; 35; 36; 37; 38; 40; 41; 42; 59; 60; 61; 62; 63; 91; 93; 94; 96; 123; 124; 125; 126].
Definition sh_blank (c : ascii) : bool := is_byte 32 c || is_byte 9 c.

(** The words of a simple command, with single quotes and backslashes taken away;
    [None] when the text has anything else in it. [w] is the word begun, in reverse. *)
Fixpoint sh_from (quoted : bool) (w : option string) (s : string) : option (list string) :=
  match s with
  | "" => if quoted then None else Some (match w with Some w => [String.rev w] | None => [] end)
  | String c s' =>
    if quoted then
      if Ascii.eqb c squote then sh_from false w s' else sh_from true (Some (String c (default "" w))) s'
    else if sh_blank c then
      match w with Some w => (fun l => String.rev w :: l) <$> sh_from false None s' | None => sh_from false None s' end
    else if Ascii.eqb c squote then sh_from true (Some (default "" w)) s'
    else if Ascii.eqb c bslash then
      match s' with
      | String d s'' => if Ascii.eqb d nl then None else sh_from false (Some (String d (default "" w))) s''
      | "" => None
      end
    else if sh_meta c then None
    else sh_from false (Some (String c (default "" w))) s'
  end.
Definition sh_words (s : string) : option (list string) := sh_from false None s.

(** An argument that is either quoted or means itself. *)
Definition sh_safe (s : string) : bool := str_forall (fun c => negb (sh_meta c)) s || negb (str_forall (fun c => negb (quoted_char c)) s).

Lemma sh_quoted s w rest :
  sh_from true (Some w) (escape_quotes s +:+ String squote rest) = sh_from false (Some (String.rev s +:+ w)) rest.
Proof.
  revert w. induction s as [|c s IH]; intros w; [done|]. cbn [escape_quotes].
  rewrite rev_cons, str_app_assoc. destruct (Ascii.eqb_spec c squote) as [->|Hc].
  - rewrite !str_app_cons. cbn [sh_from]. apply IH.
  - rewrite str_app_cons. cbn [sh_from]. rewrite (proj2 (Ascii.eqb_neq c squote)) by done. apply IH.
Qed.

Lemma plain_char c : quoted_char c = false -> sh_meta c = false ->
  sh_blank c = false /\ Ascii.eqb c squote = false /\ Ascii.eqb c bslash = false.
Proof.
  unfold quoted_char, sh_blank, is_byte. intros H _. repeat (apply orb_false_iff in H as [H ?]).
  split_and!; [by apply orb_false_iff| |];
    apply Ascii.eqb_neq; intros ->; done.
Qed.

Lemma sh_plain s w rest : str_forall (fun c => negb (quoted_char c)) s = true -> str_forall (fun c => negb (sh_meta c)) s = true ->
  s <> "" -> sh_from false w (s +:+ rest) = sh_from false (Some (String.rev s +:+ default "" w)) rest.
Proof.
  revert w. induction s as [|c s IH]; intros w Hq Hm Hne; [done|]. cbn [str_forall] in *.
  apply andb_true_iff in Hq as [Hc%negb_true_iff Hq], Hm as [Hd%negb_true_iff Hm].
  destruct (plain_char c Hc Hd) as (H1 & H2 & H3). rewrite str_app_cons. cbn [sh_from]. rewrite H1, H2, H3, Hd.
  destruct (decide (s = "")) as [->|Hs]; [done|]. rewrite IH by done. by rewrite rev_cons, str_app_assoc.
Qed.

Lemma sh_argument s w rest : sh_safe s = true ->
  sh_from false w (shellQuote s +:+ rest) = sh_from false (Some (String.rev s +:+ default "" w)) rest.
Proof.
  unfold sh_safe, shellQuote. intros H. destruct (String.eqb_spec s "") as [->|Hne]; [done|].
  destruct (str_forall (fun c => negb (quoted_char c)) s) eqn:Eq.
  - rewrite orb_false_r in H. by apply sh_plain.
  - rewrite str_app_cons, str_app_assoc. cbn [sh_from]. apply sh_quoted.
Qed.

Lemma sh_words_quoted args : Forall (fun s => sh_safe s = true) args -> sh_words (Join " " (map shellQuote args)) = Some args.
Proof.
  unfold sh_words. induction 1 as [|s args Hs H IH]; [done|]. destruct args as [|t args].
  - cbn [map Join]. rewrite <- (str_app_nil_r (shellQuote s)), sh_argument by done. cbn [sh_from default].
    by rewrite str_app_nil_r, rev_involutive.
  - change (Join " " (map shellQuote (s :: t :: args))) with (shellQuote s +:+ String " " (Join " " (map shellQuote (t :: args)))).
    rewrite sh_argument by done. cbn [sh_from]. change (sh_blank " ") with true. cbn iota. rewrite IH. simpl.
    by rewrite str_app_nil_r, rev_involutive.
Qed.

(** The script of a command that the shell is to run, if it has that form. *)
Definition script_of (cmd : list string) : option string :=
  let rest := match cmd with c :: args => if String.eqb (PathBase c) "sh" || String.eqb (PathBase c) "bash" then args else cmd | [] => [] end in
  match rest with dash :: script :: _ => if String.eqb dash "-c" then Some script else None | _ => None end.

(** The payload is the script of a shell command, and for any other command whose
    arguments are safe a text the shell splits into exactly the command. *)
Theorem payload_is_the_command cmd :
  match script_of cmd with
  | Some script => renderCommand cmd = script
  | None => Forall (fun s => sh_safe s = true) cmd -> sh_words (renderCommand cmd) = Some cmd
  end.
Proof.
  destruct cmd as [|c args]; [done|]. unfold script_of, renderCommand.
  set (rest := if _ || _ then args else c :: args).
  destruct rest as [|dash [|script more]]; [apply sh_words_quoted..|].
  destruct (String.eqb dash "-c"); [done|apply sh_words_quoted].
Qed.

(** Quotes and backslashes in an argument are safe, a semicolon is not: the text is two
    commands. *)
Example quoted_argument : renderCommand ["grep"; "it's $x"] = "grep 'it'\''s $x'".
Proof. vm_compute. reflexivity. Qed.
Example semicolon_is_not_quoted : renderCommand ["echo"; "a;reboot"] = "echo a;reboot" /\ sh_words "echo a;reboot" = None.
Proof. vm_compute. done. Qed.

(** ** The document *)

Lemma shallow_omitempty {A} d name (l : list A) v : shallow d v -> Forall (fun m => shallow d m.2) (omitempty name l v).
Proof. intros H. destruct l; [by apply Forall_nil_2|]. apply Forall_cons_2; [exact H|by apply Forall_nil_2]. Qed.
Lemma shallow_sorted {A} d (m : gmap string A) f : (forall a, shallow d (f a)) -> shallow (S d) (JObject (sorted_members m f)).
Proof. intros H. apply shallow_object. unfold sorted_members. apply Forall_map, Forall_true. intros [k a]. apply H. Qed.
#[local] Hint Resolve shallow_omitempty : go.

Lemma request_shallow r : shallow 6 (request_json r).
Proof.
  destruct r as [[payload [caps limits] tier refs workdir env] [vault audit origin id mode]].
  assert (Hc : forall c, shallow 2 (capability_json c)) by (intros c; apply shallow_object; members).
  assert (Hl : shallow 3 (limits_json limits)) by (apply shallow_object; members).
  assert (Hp : shallow 4 (profile_json (mkProfile caps limits))).
  { apply shallow_object. members. apply shallow_omitempty, shallow_array, Forall_map, Forall_true, Hc. }
  assert (He : shallow 4 (JObject (sorted_members env JString))) by (apply shallow_sorted; auto with go).
  assert (Ho : shallow 4 (JObject (sorted_members origin (fun '(h, p) => strings [h; p])))).
  { apply shallow_sorted. intros [h p]. apply shallow_strings. }
  apply shallow_object. members; apply shallow_object; members.
Qed.

(** The binary reads the very document the request was turned into. *)
Lemma document_is_read r : parse_json (write_json (request_json r)) = Some (valid_json (request_json r)).
Proof.
  apply (shallow_is_read_back 6); [apply request_shallow|lia].
Qed.

(** ** What the document grants *)

(** The destination of a host: its last entry. *)
Definition origin_of (host : string) (allowlist : list string) : option (string * string) :=
  last (omap (fun e => match split_entry e with Some (h, p) => if String.eqb h host then Some (h, p) else None | None => None end) allowlist).

Lemma origin_of_cons host entry rest h p : split_entry entry = Some (h, p) ->
  origin_of host (entry :: rest) =
    match origin_of host rest with Some a => Some a | None => if String.eqb h host then Some (h, p) else None end.
Proof.
  intros E. unfold origin_of. set (f := fun e => _). change (omap f (entry :: rest)) with
    (match f entry with Some y => y :: omap f rest | None => omap f rest end).
  assert (Hf : f entry = if String.eqb h host then Some (h, p) else None) by (unfold f; by rewrite E). rewrite Hf.
  destruct (String.eqb h host); [|by destruct (last (omap f rest))].
  destruct (omap f rest) as [|a l]; [done|]. rewrite last_cons_cons. destruct (last (a :: l)) eqn:El; [done|].
  by apply last_None in El.
Qed.

Lemma parse_from_spec allowlist m :
  match parseEgressAllowlist_from m allowlist with
  | Ok m' => (forall e, e ∈ allowlist -> is_Some (split_entry e)) /\
             forall host, m' !! host = match origin_of host allowlist with Some a => Some a | None => m !! host end
  | Err e => exists entry, e = EEgress entry /\ entry ∈ allowlist /\ split_entry entry = None
  end.
Proof.
  revert m. induction allowlist as [|entry rest IH]; intros m; cbn [parseEgressAllowlist_from].
  { split; [by intros e ?%not_elem_of_nil | done]. }
  destruct (split_entry entry) as [[h p]|] eqn:E; [|exists entry; split_and!; [done | left | done]].
  specialize (IH (<[h := (h, p)]> m)). destruct (parseEgressAllowlist_from _ rest) as [m'|e].
  - destruct IH as [Ha Hm]. split; [intros e [->|He]%elem_of_cons; [by rewrite E | by apply Ha]|].
    intros host. rewrite Hm, (origin_of_cons _ _ _ _ _ E). destruct (origin_of host rest); [done|].
    destruct (String.eqb_spec h host) as [->|Hne]; [by rewrite lookup_insert_eq | by rewrite lookup_insert_ne].
  - destruct IH as (en & -> & He & Hs). exists en. split_and!; [done | by right | done].
Qed.

Section RunnerFacts.
Context {X : Type} (host : Host X) (urandom : X -> option string) (now_nanos : X -> Z) (quote : string -> string)
        (float_ok : string -> bool).

(** The document handed to the sandbox block carries the command's text, the
    validated worktree, the handles and the vault of the request. Files are mounted
    for reading only, and only the Go root and the gate's tools; the network is the
    allowlist, and absent without one; each host of it is mapped to its last entry.
    A bad entry is an error. *)
Theorem document_grants_what_was_asked req worktree x :
  let allow := lm_EgressAllowlist (rq_Limits req) in
  match (buildRunRequest host urandom now_nanos req worktree (parseEgressAllowlist allow) x).1 with
  | Err e => exists entry, e = EEgress entry /\ entry ∈ allow /\ split_entry entry = None
  | Ok (mkRunRequest run wiring) =>
    rd_Payload run = renderCommand (rq_Command req) /\ rd_Workdir run = worktree /\
    rd_SecretRefs run = wi_SecretRefs (rq_Wiring req) /\ wd_VaultSocket wiring = wi_VaultSocket (rq_Wiring req) /\
    (forall c, c ∈ pd_Capabilities (rd_Profile run) ->
       (cd_Type c = "FileRead" /\ cd_Allowlist c = [] /\
        forall p, p ∈ cd_Paths c -> (discoverGoroot host x).1 = Some p \/
          exists root, findRepoRoot host (discoverGoroot host x).2 = Some root /\ discoverGateTools host root (discoverGoroot host x).2 = Some p) \/
       c = mkCapability "NetConnect" allow []) /\
    (mkCapability "NetConnect" allow [] ∈ pd_Capabilities (rd_Profile run) <-> allow <> []) /\
    (forall h, wd_OriginMap wiring !! h = origin_of h allow)
  end.
Proof.
  intros allow. unfold buildRunRequest, parseEgressAllowlist. pose proof (parse_from_spec allow ∅) as H.
  destruct (parseEgressAllowlist_from ∅ allow) as [m|e]; [|exact H]. destruct H as [_ H].
  destruct (tool_paths host x) as [[reads dirs] x1] eqn:Et. cbn [fst rd_Payload rd_Workdir rd_SecretRefs wd_VaultSocket rd_Profile pd_Capabilities wd_OriginMap].
  assert (Hr : forall p, p ∈ reads -> (discoverGoroot host x).1 = Some p \/
      exists root, findRepoRoot host (discoverGoroot host x).2 = Some root /\ discoverGateTools host root (discoverGoroot host x).2 = Some p).
  { intros p Hp. unfold tool_paths in Et. destruct (discoverGoroot host x) as [g x0]. cbn [fst snd].
    destruct (findRepoRoot host x0) as [root|] eqn:Er; [destruct (discoverGateTools host root x0) as [t|] eqn:Ed|];
      destruct g as [g|]; simplify_eq/=;
      repeat first [by apply not_elem_of_nil in Hp | apply elem_of_cons in Hp as [->|Hp]]; eauto. }
  fold allow. split_and!; try done.
  - intros c [Hc|Hc]%elem_of_app.
    + destruct reads; [by apply not_elem_of_nil in Hc|]. apply list_elem_of_singleton in Hc as ->. by left.
    + destruct allow; [by apply not_elem_of_nil in Hc|]. apply list_elem_of_singleton in Hc as ->. by right.
  - rewrite elem_of_app. split.
    + intros [Hc|Hc] ->; [|by apply not_elem_of_nil in Hc].
      destruct reads; [by apply not_elem_of_nil in Hc|]. by apply list_elem_of_singleton in Hc.
    + intros Ha. right. destruct allow; [done|]. left.
  - intros h. rewrite H. destruct (origin_of h allow); [done|]. apply lookup_empty.
Qed.

(** ** What a run returns *)

(** C31. A run of the block that fails returns the zero result with its error. A run
    without an error had a valid command, an executable binary and an existing
    worktree, if any; the binary was handed exactly the document and exited with 0;
    and the result and the exit code are those of the JSON object it printed. *)
Theorem run_returns_only_the_blocks_result binPath req x :
  match Run host urandom now_nanos quote float_ok binPath req x with
  | ((r, code, Some e), _) => r = zero_result
  | ((r, code, None), x') =>
    exists absPath info worktree runReq x1 p b,
      ValidateRequest req = true /\ Abs host binPath x = Ok absPath /\
      ho_Stat host absPath x = Ok info /\ fi_IsDir info = false /\ Z.land (fi_Mode info) 73 <> 0 /\
      (blank (rq_Worktree req) = true /\ worktree = "" \/ Abs host (rq_Worktree req) x = Ok worktree /\ exists_dir host worktree x = true) /\
      buildRunRequest host urandom now_nanos req worktree (parseEgressAllowlist (lm_EgressAllowlist (rq_Limits req))) x = (Ok runReq, x1) /\
      ho_run host absPath ["run"] "" [] (write_json (request_json runReq)) x1 = (p, x') /\
      pr_end p = Exited 0 /\ Unmarshal (block_fields float_ok) zero_block (pr_stdout p) = Some b /\ br_Error b = "" /\
      r = block_result b /\ code = br_ExitCode b
  end.
Proof.
  unfold Run, run_failed. destruct (ValidateRequest req); [|done]. cbn [negb]. unfold findBinary.
  destruct (String.eqb binPath ""); [done|]. destruct (Abs host binPath x) as [absPath|] eqn:Ea; [|done].
  destruct (ho_Stat host absPath x) as [info|] eqn:Ei; [|done]. destruct (fi_IsDir info) eqn:Ed; [done|].
  destruct (Z.eqb_spec (Z.land (fi_Mode info) 73) 0) as [|Hm]; [done|].
  destruct (if blank (rq_Worktree req) then _ else _) as [worktree|] eqn:Ew; [|done].
  destruct (buildRunRequest _ _ _ _ _ _ _) as [[runReq|] x1] eqn:Eb; [|done].
  destruct (ho_run _ _ _ _ _ _ _) as [p x'] eqn:Ep. unfold read_answer, run_failed.
  destruct (pr_end p) as [code|] eqn:Ee; [|done]. destruct (Z.eqb_spec code 0) as [->|]; [|done]. cbn [negb].
  destruct (String.eqb (pr_stdout p) ""); [done|].
  destruct (Unmarshal (block_fields float_ok) zero_block (pr_stdout p)) as [b|] eqn:Eu; [|done].
  destruct (String.eqb_spec (br_Error b) "") as [Hb|]; [|done]. cbn [negb].
  exists absPath, info, worktree, runReq, x1, p, b. split_and!; try done.
  destruct (blank (rq_Worktree req)) eqn:Eq; [left; split; [done|congruence]|right].
  by apply validateWorktree_ok in Ew as (_ & ? & ?).
Qed.
End RunnerFacts.

(** ** The round trip of an answer *)

(** What a block prints that has run a command. *)
Definition block_json (stdout stderr id tier status : string) (code ms : Z) (degraded : list string) : json :=
  JObject [("stdout", JString stdout); ("stderr", JString stderr); ("exit_code", int code); ("error", JString "");
           ("sandbox_status", JObject [("sandbox_id", JString id); ("tier", JString tier); ("duration_ms", int ms);
              ("secrets_injected", JArray []); ("status", JString status); ("limits", JObject [("degraded", strings degraded)])])].

Lemma valid_strings l : Forall (fun s => is_ascii s = true) l -> valid_json (strings l) = strings l.
Proof. unfold strings. cbn [valid_json]. intros H. f_equal. induction H as [|s l Hs H IH]; [done|]. cbn. by rewrite to_valid_ascii, IH. Qed.

Lemma degraded_strings l : extractDegraded (Some (JObject [("degraded", strings l)])) = l.
Proof.
  unfold extractDegraded, member, strings. cbn -[omap]. induction l as [|s l IH]; [done|]. cbn in *. by rewrite IH.
Qed.

(** The outputs, the exit code, the duration and the degraded limits a block reports
    are those the run returns. *)
Theorem reported_result_is_returned float_ok absPath stdout stderr id tier status code ms degraded err :
  Forall (fun s => is_ascii s = true) (stdout :: stderr :: id :: tier :: status :: degraded) ->
  in_int64 code = true -> in_int64 ms = true ->
  read_answer float_ok absPath (mkProc (write_json (block_json stdout stderr id tier status code ms degraded)) err (Exited 0)) =
  (mkSandboxResult stdout stderr (wrap64 (ms * 1000000)) id tier status degraded, code, None).
Proof.
  intros Ha Hc Hm. repeat (apply Forall_cons in Ha as [? Ha]).
  assert (Hs : shallow 5 (block_json stdout stderr id tier status code ms degraded)).
  { apply shallow_object; members; apply shallow_object; members; [apply shallow_array, Forall_nil_2|]. apply shallow_object; members. }
  unfold read_answer, pr_end, pr_stdout. cbn [Z.eqb negb].
  destruct (String.eqb_spec (write_json (block_json stdout stderr id tier status code ms degraded)) "") as [E|_]; [done|].
  assert (Hv : valid_json (block_json stdout stderr id tier status code ms degraded) = block_json stdout stderr id tier status code ms degraded).
  { unfold block_json. pose proof (valid_strings degraded Ha) as Hd. revert Hd. generalize (strings degraded). intros j Hd.
    cbn [valid_json map]. rewrite Hd, !to_valid_ascii by done. done. }
  unfold Unmarshal. rewrite (shallow_is_read_back 5), Hv by (done || lia).
  unfold block_json. cbn -[ParseInt FormatInt wrap64 extractDegraded strings].
  rewrite !ParseInt_FormatInt by done. cbn -[ParseInt FormatInt wrap64 extractDegraded strings].
  assert (Ho : any_ok float_ok (strings degraded) = true).
  { unfold strings. cbn [any_ok]. clear. by induction degraded. }
  rewrite Ho. unfold block_result. cbn -[wrap64 extractDegraded strings]. by rewrite degraded_strings.
Qed.

Lemma reported_result_is_returned_witness :
  read_answer (fun _ => true) "/bin/box" (mkProc (write_json (block_json "ok" "" "sb-1" "gvisor" "clean" 3 1500 ["pids"])) "" (Exited 0)) =
  (mkSandboxResult "ok" "" 1500000000 "sb-1" "gvisor" "clean" ["pids"], 3, None).
Proof.
  rewrite reported_result_is_returned; [reflexivity | by repeat constructor | reflexivity | reflexivity].
Defined.

(** Two ports of one host are both in the allowlist, but only the later is mapped. *)
Example later_port_replaces_the_earlier :
  (fun m => m !! "h") <$> match parseEgressAllowlist ["h:443"; "h:8443"] with Ok m => Some m | Err _ => None end =
  Some (Some ("h", "8443")).
Proof. vm_compute. reflexivity. Qed.

(** Whole seconds are kept; a limit below a second becomes zero. *)
Example timeouts : int_seconds 90000000000 = 90 /\ int_seconds 1500000000 = 1 /\ int_seconds 999999999 = 0.
Proof. vm_compute. done. Qed.
