(* ===== verification/Podman.v ===== *)
(** * The podman backend ([internal/sandbox/podman])

    A request becomes an invocation of the execution-box launcher: the allowlist in a
    temporary file, the limits in the environment, the command after a separator.
    Modelled are the whole of [Runner.Run] with the temporary file on every path, and
    the memory limit's text. *)

From stdpp Require Import base gmap strings list.
From Stdlib Require Import ZArith Lia Ascii.
From S2P Require Import Prelude GoStrings Paths Sandbox.

Local Open Scope Z_scope.

(** ** The memory limit *)

(** [bytesToMemoryString]: the largest unit that divides. *)
Definition units : list (string * Z) := [("g", 1024 * 1024 * 1024); ("m", 1024 * 1024); ("k", 1024)].
Fixpoint with_unit (units : list (string * Z)) (bytes : Z) : string :=
  match units with
  | [] => FormatInt bytes
  | (name, size) :: rest => if Z.rem bytes size =? 0 then FormatInt (Z.quot bytes size) +:+ name else with_unit rest bytes
  end.
Definition bytesToMemoryString (bytes : Z) : string := if bytes =? 0 then "0" else with_unit units bytes.

(** How podman reads a size: digits and perhaps a unit. *)
Definition memory_bytes (s : string) : option Z :=
  let n := match String.rev s with String _ r => parse_digits (String.rev r) | "" => None end in
  match String.rev s with
  | String u _ =>
    if Ascii.eqb u "g" then Z.mul (1024 * 1024 * 1024) <$> n
    else if Ascii.eqb u "m" then Z.mul (1024 * 1024) <$> n
    else if Ascii.eqb u "k" then Z.mul 1024 <$> n
    else parse_digits s
  | "" => None
  end.

Lemma memory_bytes_digits n : 0 <= n -> memory_bytes (FormatInt n) = Some n.
Proof.
  intros H. unfold FormatInt. rewrite (proj2 (Z.ltb_ge n 0)) by done. unfold memory_bytes.
  pose proof (format_nonneg_digits n H) as Hd. rewrite <- str_forall_rev in Hd.
  destruct (String.rev (format_nonneg n)) as [|u r] eqn:E.
  - apply (f_equal String.rev) in E. rewrite rev_involutive in E. by apply format_nonneg_nonempty in E.
  - cbn [str_forall] in Hd. apply andb_true_iff in Hd as [Hu _].
    destruct (Ascii.eqb_spec u "g") as [->|_]; [done|]. destruct (Ascii.eqb_spec u "m") as [->|_]; [done|].
    destruct (Ascii.eqb_spec u "k") as [->|_]; [done|]. by apply parse_format_nonneg.
Qed.

Lemma memory_bytes_unit n u size : 0 <= n -> (u, size) ∈ units -> memory_bytes (FormatInt n +:+ u) = Some (size * n).
Proof.
  intros H Hu. unfold FormatInt. rewrite (proj2 (Z.ltb_ge n 0)) by done.
  assert (P : parse_digits (format_nonneg n) = Some n) by by apply parse_format_nonneg.
  unfold units in Hu. unfold memory_bytes. rewrite rev_str_app.
  repeat (apply elem_of_cons in Hu as [[= -> ->]|Hu];
    [cbn [String.rev String.rev_app]; rewrite str_app_cons; change ("" +:+ ?x) with x; rewrite rev_involutive, P; done|]).
  by apply not_elem_of_nil in Hu.
Qed.

(** The launcher is told the exact number of bytes of a limit. *)
Theorem memory_limit_is_exact bytes : 0 <= bytes -> memory_bytes (bytesToMemoryString bytes) = Some bytes.
Proof.
  intros H. unfold bytesToMemoryString. destruct (Z.eqb_spec bytes 0) as [->|Hn]; [done|].
  assert (U : forall us, (forall u, u ∈ us -> u ∈ units) -> memory_bytes (with_unit us bytes) = Some bytes).
  { induction us as [|[name size] us IH]; intros Hu; cbn [with_unit]; [by apply memory_bytes_digits|].
    assert (Hs : 0 < size).
    { pose proof (Hu _ ltac:(left)) as Hin. unfold units in Hin.
      repeat (apply elem_of_cons in Hin as [[= -> ->]|Hin]; [done|]). by apply not_elem_of_nil in Hin. }
    destruct (Z.eqb_spec (Z.rem bytes size) 0) as [Hr|_]; [|apply IH; intros u Hi; apply Hu; by right].
    rewrite (memory_bytes_unit _ _ size) by (apply Hu; left) || (apply Z.quot_pos; lia).
    f_equal. rewrite (Z.quot_rem' bytes size) at 2. lia. }
  by apply U.
Qed.

Lemma memory_limit_is_exact_witness :
  bytesToMemoryString (2 * 1024 * 1024 * 1024) = "2g" /\ memory_bytes (bytesToMemoryString 1500) = Some 1500.
Proof. split; [reflexivity|]. apply (memory_limit_is_exact 1500). lia. Defined.

(** ** Run *)

(** One line of the allowlist file: an entry without a comment gets one. *)
Definition allowlist_line (entry : string) : string :=
  (if Contains entry "#" then entry else entry +:+ " # agent-builder egress allowlist entry") +:+ String nl "".

Section Runner.
(** The host; the inherited environment; [os.CreateTemp], the name of a new empty file;
    a failing write; the launcher under a deadline (0 for none), which can read the
    temporary files. *)
Context {X : Type} (host : Host X) (environ : X -> list string)
        (create_temp : gmap string string -> X -> result string string * X)
        (write_error : string -> string -> X -> option string)
        (launch : string -> list string -> string -> list string -> Z -> gmap string string -> X -> TimedProc * X).

(** The loop of [createEgressAllowlist]; a failed write removes the file. *)
Fixpoint write_lines (path : string) (entries : list string) (w : TempWorld X) : option string * TempWorld X :=
  match entries with
  | [] => (None, w)
  | entry :: entries =>
    let line := allowlist_line entry in
    match write_error path line (tw_x w) with
    | Some e => (Some ("podman: write allowlist entry: " +:+ e), mkTemp (delete path (tw_files w)) (tw_x w))
    | None => write_lines path entries (mkTemp (<[path := default "" (tw_files w !! path) +:+ line]> (tw_files w)) (tw_x w))
    end
  end.
Definition createEgressAllowlist (entries : list string) (w : TempWorld X) : result string string * TempWorld X :=
  let '(r, x) := create_temp (tw_files w) (tw_x w) in
  match r with
  | Err e => (Err ("podman: create allowlist temp file: " +:+ e), mkTemp (tw_files w) x)
  | Ok path =>
    let '(err, w) := write_lines path entries (mkTemp (<[path := ""]> (tw_files w)) x) in
    (match err with Some e => Err e | None => Ok path end, w)
  end.

Definition launcher_args (worktree allowlistPath : string) (command : list string) : list string :=
  ["--worktree"; worktree] ++ (if String.eqb allowlistPath "" then [] else ["--egress-allowlist"; allowlistPath]) ++ ["--"] ++ command.
Definition launcher_env (limits : Limits) (x : X) : list string :=
  environ x ++ (if 0 <? lm_CPUCount limits then ["EXEC_BOX_CPUS=" +:+ FormatInt (lm_CPUCount limits)] else []) ++
  (if 0 <? lm_MemoryBytes limits then ["EXEC_BOX_MEMORY=" +:+ bytesToMemoryString (lm_MemoryBytes limits)] else []) ++
  (if 0 <? lm_PidsLimit limits then ["EXEC_BOX_PIDS_LIMIT=" +:+ FormatInt (lm_PidsLimit limits)] else []).

(** [Runner.Run]: the deferred removal of the allowlist file comes last. *)
Definition Run (launcherPath : string) (req : Request) (w : TempWorld X) : BoxOutcome LocalErr * TempWorld X :=
  if negb (ValidateRequest req) then (run_failed LInvalidCommand, w)
  else match validateWorktree host (rq_Worktree req) (tw_x w) with
  | Err e => (run_failed (LInvalidWorktree e), w)
  | Ok worktree =>
    let '(r, w) := match lm_EgressAllowlist (rq_Limits req) with
                   | [] => (Ok "", w)
                   | entries => createEgressAllowlist entries w
                   end in
    match r with
    | Err e => (run_failed (LSetup e), w)
    | Ok allowlistPath =>
      let timeout := Z.max 0 (lm_WallClockTimeout (rq_Limits req)) in
      let '(t, x) := launch launcherPath (launcher_args worktree allowlistPath (rq_Command req)) worktree
                       (launcher_env (rq_Limits req) (tw_x w)) timeout (tw_files w) (tw_x w) in
      (timed_outcome launcherPath t,
       mkTemp (if String.eqb allowlistPath "" then tw_files w else delete allowlistPath (tw_files w)) x)
    end
  end.

(** ** The temporary file *)

(** [os.CreateTemp] makes a new file, under a name. *)
Hypothesis create_temp_fresh : forall files x path x', create_temp files x = (Ok path, x') -> files !! path = None /\ path <> "".

Lemma write_lines_spec path entries files content x :
  match write_lines path entries (mkTemp (<[path := content]> files) x) with
  | (Some _, w) => tw_files w = delete path files /\ tw_x w = x
  | (None, w) => tw_files w = <[path := foldl (fun c e => c +:+ allowlist_line e) content entries]> files /\ tw_x w = x
  end.
Proof.
  revert content. induction entries as [|e entries IH]; intros content; cbn [write_lines]; [done|]. cbn [tw_files tw_x].
  destruct (write_error path (allowlist_line e) x); [by rewrite delete_insert_eq|].
  rewrite lookup_insert_eq, insert_insert_eq. apply IH.
Qed.

(** A run leaves the temporary files as they were, on every path. The launcher is
    started only for a valid command in an existing worktree, with exactly the command
    after the separator, and with the allowlist's lines in the file it is given, if
    there is one. *)
Theorem launcher_is_handed_the_request launcherPath req w :
  tw_files (Run launcherPath req w).2 = tw_files w /\
  ((exists o, (Run launcherPath req w).1 = run_failed o) \/
   exists worktree path x files t x',
     ValidateRequest req = true /\ validateWorktree host (rq_Worktree req) (tw_x w) = Ok worktree /\
     launch launcherPath (launcher_args worktree path (rq_Command req)) worktree (launcher_env (rq_Limits req) x)
       (Z.max 0 (lm_WallClockTimeout (rq_Limits req))) files x = (t, x') /\
     Run launcherPath req w = (timed_outcome launcherPath t, mkTemp (tw_files w) x') /\
     (lm_EgressAllowlist (rq_Limits req) = [] /\ path = "" /\ files = tw_files w \/
      lm_EgressAllowlist (rq_Limits req) <> [] /\ path <> "" /\ tw_files w !! path = None /\
      files = <[path := foldl (fun c e => c +:+ allowlist_line e) "" (lm_EgressAllowlist (rq_Limits req))]> (tw_files w))).
Proof.
  unfold Run. destruct (ValidateRequest req); [cbn [negb]|split; [done|by left; eexists]].
  destruct (validateWorktree host _ _) as [worktree|e]; [|split; [done|by left; eexists]].
  destruct (lm_EgressAllowlist (rq_Limits req)) as [|entry rest].
  - destruct (launch _ _ _ _ _ _ _) as [t x'] eqn:El. split; [done|]. right.
    exists worktree, "", (tw_x w), (tw_files w), t, x'. split_and!; try done. by left.
  - unfold createEgressAllowlist. destruct (create_temp (tw_files w) (tw_x w)) as [[path|e] x] eqn:Ec; [|split; [done|by left; eexists]].
    apply create_temp_fresh in Ec as [Hf Hp]. pose proof (write_lines_spec path (entry :: rest) (tw_files w) "" x) as H.
    destruct (write_lines path (entry :: rest) _) as [[e|] w1]; destruct H as [H1 H2].
    + cbn beta iota. cbn [fst snd]. rewrite H1. split; [by apply delete_id|by left; eexists].
    + cbn beta iota. destruct (launch _ _ _ _ _ _ _) as [t x'] eqn:El. rewrite (proj2 (String.eqb_neq path "")) by done.
      cbn [fst snd tw_files]. rewrite H1, delete_insert_id by done. split; [done|]. right.
      exists worktree, path, x, (tw_files w1), t, x'. rewrite H2 in El. split_and!; try done. right. by split_and!.
Qed.
End Runner.

(** ** An example *)

(** A directory [/w], one name for temporary files, and a launcher that succeeds. *)
Definition demo_host : Host unit :=
  mkHost (fun _ => Ok "/") (fun p _ => if String.eqb p "/w" then Ok (mkFileInfo true 0) else Err "no such file") (fun _ _ => "")
    (fun _ _ _ _ _ x => (mkProc "" "" (Exited 0), x)) (fun _ _ x => (("", None), x)).
Definition demo_create (files : gmap string string) (x : unit) : result string string * unit :=
  (match files !! "/tmp/a" with None => Ok "/tmp/a" | Some _ => Err "file exists" end, x).
Definition demo_launch (bin : string) (args : list string) (dir : string) (env : list string) (timeout : Z)
  (files : gmap string string) (x : unit) : TimedProc * unit :=
  (mkTimed (mkProc (Join " " args +:+ "|" +:+ default "" (files !! "/tmp/a")) "" (Exited 3)) 5 None, x).
Definition demo_request : Request :=
  mkRequest ["-c"; "true"] "/w" (mkLimits 0 0 2 0 ["proxy.golang.org:443"]) "" zero_wiring.

Lemma launcher_is_handed_the_request_witness :
  let run := Run demo_host (fun _ => []) demo_create (fun _ _ _ => None) demo_launch "run.sh" demo_request (mkTemp ∅ tt) in
  run.1 = (mkSandboxResult
             ("--worktree /w --egress-allowlist /tmp/a -- -c true|proxy.golang.org:443 # agent-builder egress allowlist entry" +:+ String nl "")
             "" 5 "" "" "" [], 3, None) /\
  tw_files run.2 = ∅.
Proof.
  split; [vm_compute; reflexivity|].
  apply (launcher_is_handed_the_request demo_host (fun _ => []) demo_create (fun _ _ _ => None) demo_launch) with (w := mkTemp ∅ tt).
  intros files x path x'. unfold demo_create. destruct (files !! "/tmp/a") eqn:E; [done|]. by intros [= <- _].
Defined.
