(* ===== verification/SandboxRuntime.v ===== *)
(** * The sandbox-runtime backend ([internal/sandbox/sandboxruntime])

    A request becomes a settings file of the sandbox-runtime command line and a run
    under it. Modelled are the hosts of the allowlist with [net.SplitHostPort] and
    [net.ParseIP], the settings and their file, and the whole of [Runner.Run]. *)

From stdpp Require Import base gmap strings list sorting.
From Stdlib Require Import ZArith Lia Ascii.
From S2P Require Import Prelude GoStrings Texts Encoding Json JsonWriter Paths Sandbox.

Local Open Scope Z_scope.

(** ** Hosts *)

(** [net.SplitHostPort]. *)
Definition last_colon (s : string) : option nat :=
  match IndexByte (String.rev s) ":" with Some i => Some (String.length s - 1 - i)%nat | None => None end.
Definition has_byte (c : ascii) (s : string) : bool := match IndexByte s c with Some _ => true | None => false end.
Definition SplitHostPort (hostport : string) : option (string * string) :=
  match last_colon hostport with
  | None => None
  | Some i =>
    let port := str_drop (S i) hostport in
    if HasPrefix hostport "[" then
      match IndexByte hostport "]" with
      | None => None
      | Some j =>
        if negb (Nat.eqb (S j) i) then None
        else
          let host := str_drop 1 (str_take j hostport) in
          if has_byte "[" (str_drop 1 hostport) || has_byte "]" (str_drop (S j) hostport) then None else Some (host, port)
      end
    else
      let host := str_take i hostport in
      if has_byte ":" host then None
      else if has_byte "[" hostport || has_byte "]" hostport then None
      else Some (host, port)
  end.

(** [net.ParseIP] accepts. An IPv4 address: four decimal fields without leading zeros. *)
Definition octet (s : string) : bool :=
  match s with
  | "" => false
  | String c rest =>
    str_forall is_digit s && (String.eqb rest "" || negb (Ascii.eqb c "0")) && (Z.of_nat (String.length s) <=? 3) &&
    match parse_digits s with Some n => n <=? 255 | None => false end
  end.
Definition ipv4 (s : string) : bool :=
  match Split "." s with [a; b; c; d] => octet a && octet b && octet c && octet d | _ => false end.

(** An IPv6 address, without a zone: after [used] of eight groups and perhaps the
    ellipsis. *)
Definition is_hex (c : ascii) : bool := match hex_value c with Some _ => true | None => false end.
Fixpoint span_hex (s : string) : string * string :=
  match s with
  | String c s' => if is_hex c then let '(h, r) := span_hex s' in (String c h, r) else ("", s)
  | "" => ("", "")
  end.
Definition ipv6_end (used : nat) (ellipsis : bool) : bool := if (used <? 8)%nat then ellipsis else negb ellipsis.
Fixpoint ipv6_groups (fuel used : nat) (ellipsis : bool) (s : string) : bool :=
  match fuel with
  | O => String.eqb s "" && ipv6_end used ellipsis
  | S fuel =>
    let '(h, rest) := span_hex s in
    if String.eqb h "" || (4 <? String.length h)%nat then false
    else match rest with
    | "" => ipv6_end (S used) ellipsis
    | String c s' =>
      if Ascii.eqb c "." then
        (ellipsis || Nat.eqb used 6) && (used <=? 6)%nat && ipv4 s && ipv6_end (used + 2) ellipsis
      else if negb (Ascii.eqb c ":") then false
      else match s' with
      | "" => false
      | String d s'' =>
        if Ascii.eqb d ":" then
          if ellipsis then false
          else if String.eqb s'' "" then ipv6_end (S used) true else ipv6_groups fuel (S used) true s''
        else ipv6_groups fuel (S used) ellipsis s'
      end
    end
  end.
Definition ipv6 (s : string) : bool :=
  if HasPrefix s "::" then String.eqb (str_drop 2 s) "" || ipv6_groups 8 0 true (str_drop 2 s)
  else ipv6_groups 8 0 false s.

(** The first of the bytes dot, colon and percent decides. *)
Fixpoint first_special (s : string) : option ascii :=
  match s with
  | "" => None
  | String c s => if Ascii.eqb c "." || Ascii.eqb c ":" || Ascii.eqb c "%" then Some c else first_special s
  end.
Definition ParseIP (s : string) : bool :=
  match first_special s with
  | Some c => if Ascii.eqb c "." then ipv4 s else if Ascii.eqb c ":" then negb (has_byte "%" s) && ipv6 s else false
  | None => false
  end.

Example addresses :
  map ParseIP ["127.0.0.1"; "::1"; "fe80::1:2"; "1:2:3:4:5:6:7:8"; "::ffff:1.2.3.4"; "1:2:3:4:5:6:1.2.3.4"; "::"] = repeat true 7 /\
  map ParseIP ["github.com"; "1.2.3"; "01.2.3.4"; "1.2.3.256"; "1:2"; "1::2::3"; "1:2:3:4:5:6:7:8:9"; "fe80::1%eth0"; "12345::"] = repeat false 9.
Proof. vm_compute. done. Qed.

(** ** The allowlist *)

Inductive SrtErr := ErrInvalidAllowlistEntry (value : string).

(** Slash, backslash, star, percent, blank and tab are refused. *)
Definition refused_char (c : ascii) : bool :=
  let b := byte_of c in (b =? 47) || (b =? 92) || (b =? 42) || (b =? 37) || (b =? 32) || (b =? 9).
Definition bracket (c : ascii) : bool := Ascii.eqb c "[" || Ascii.eqb c "]".

Section Allowlist.
(** [strings.ToLower] beyond ASCII. *)
Context (uni : string -> string).

(** The host before it is trimmed: the whole entry, or what is before its port. *)
Definition entry_host (value : string) : option string :=
  if negb (has_byte ":" value) then Some value
  else match SplitHostPort value with
  | Some (host, port) => match ParseInt port with Some _ => Some host | None => None end
  | None =>
    match Split ":" value with
    | [a; b] => if String.eqb a "" || String.eqb b "" then None else match ParseInt b with Some _ => Some a | None => None end
    | _ => None
    end
  end.

(** [hostFromAllowlistEntry]. *)
Definition hostFromAllowlistEntry (value : string) : result SrtErr string :=
  if Contains value "://" || negb (str_forall (fun c => negb (refused_char c)) value) then Err (ErrInvalidAllowlistEntry value)
  else match entry_host value with
  | None => Err (ErrInvalidAllowlistEntry value)
  | Some host =>
    let host := ToLower uni (Trim bracket host) in
    if String.eqb host "" || ParseIP host then Err (ErrInvalidAllowlistEntry value) else Ok host
  end.

(** [allowedDomains]: blank entries are skipped, hosts taken once, and sorted. *)
Fixpoint domains_loop (entries : list string) (seen : gset string) (domains : list string) : result SrtErr (list string) :=
  match entries with
  | [] => Ok domains
  | raw :: entries =>
    let value := TrimSpace raw in
    if String.eqb value "" then domains_loop entries seen domains
    else let? host := hostFromAllowlistEntry value in
         if bool_decide (host ∈ seen) then domains_loop entries seen domains
         else domains_loop entries ({[host]} ∪ seen) (domains ++ [host])
  end.
Definition allowedDomains (entries : list string) : result SrtErr (list string) :=
  let? domains := domains_loop entries ∅ [] in Ok (sort_by String.ltb domains).

(** A host an entry stands for. *)
Definition entry_allows (entries : list string) (host : string) : Prop :=
  exists raw, raw ∈ entries /\ TrimSpace raw <> "" /\ hostFromAllowlistEntry (TrimSpace raw) = Ok host.

Lemma domains_loop_spec entries seen domains :
  (forall h, h ∈ seen <-> h ∈ domains) -> NoDup domains ->
  match domains_loop entries seen domains with
  | Ok ds => NoDup ds /\ (forall h, h ∈ ds <-> h ∈ domains \/ entry_allows entries h) /\
             forall raw, raw ∈ entries -> TrimSpace raw <> "" -> is_ok (hostFromAllowlistEntry (TrimSpace raw)) = true
  | Err e => exists raw, raw ∈ entries /\ TrimSpace raw <> "" /\ hostFromAllowlistEntry (TrimSpace raw) = Err e
  end.
Proof.
  assert (Hc : forall raw entries h, entry_allows (raw :: entries) h <->
    TrimSpace raw <> "" /\ hostFromAllowlistEntry (TrimSpace raw) = Ok h \/ entry_allows entries h).
  { clear. unfold entry_allows. intros raw es h. split.
    - intros (r & [->|Hr]%elem_of_cons & H); [by left|right; by exists r].
    - intros [H|(r & Hr & H)]; [exists raw; split; [left|done] | exists r; split; [by right|done]]. }
  revert seen domains. induction entries as [|raw entries IH]; intros seen domains Hs Hn; cbn [domains_loop].
  { split_and!; [done| |by intros ? ?%not_elem_of_nil]. intros h. split; [by left|].
    intros [?|(raw & ?%not_elem_of_nil & _)]; done. }
  destruct (String.eqb_spec (TrimSpace raw) "") as [E|Hne].
  - specialize (IH seen domains Hs Hn). destruct (domains_loop entries seen domains) as [ds|e].
    + destruct IH as (H1 & H2 & H3). split_and!; [done| |intros r [->|Hr]%elem_of_cons; [done|by apply H3]].
      intros h. rewrite H2, Hc. tauto.
    + destruct IH as (r & Hr & H). exists r. split; [by right|done].
  - destruct (hostFromAllowlistEntry (TrimSpace raw)) as [host|e] eqn:Eh; [|exists raw; split_and!; [left|done|done]].
    assert (Hall : forall ds : list string, (forall h, h ∈ ds <-> (h ∈ domains \/ h = host) \/ entry_allows entries h) ->
      forall h, h ∈ ds <-> h ∈ domains \/ entry_allows (raw :: entries) h).
    { intros ds H h. rewrite H, Hc, Eh. assert (Ok host = (Ok h : result SrtErr string) <-> h = host) by (split; congruence). tauto. }
    case_bool_decide as Hseen.
    + specialize (IH seen domains Hs Hn). destruct (domains_loop entries seen domains) as [ds|e].
      * destruct IH as (H1 & H2 & H3). split_and!; [done| |intros r [->|Hr]%elem_of_cons; [by rewrite Eh|by apply H3]].
        apply Hall. intros h. rewrite H2. apply Hs in Hseen. split; [tauto|]. intros [[?| ->]|?]; tauto.
      * destruct IH as (r & Hr & H). exists r. split; [by right|done].
    + specialize (IH ({[host]} ∪ seen) (domains ++ [host])).
      destruct (domains_loop entries ({[host]} ∪ seen) (domains ++ [host])) as [ds|e].
      * destruct IH as (H1 & H2 & H3).
        { intros h. rewrite elem_of_union, elem_of_singleton, elem_of_app, list_elem_of_singleton, Hs. tauto. }
        { apply NoDup_app. split_and!; [done| |apply NoDup_singleton]. intros h Hh ->%list_elem_of_singleton. by apply Hseen, Hs. }
        split_and!; [done| |intros r [->|Hr]%elem_of_cons; [by rewrite Eh|by apply H3]].
        apply Hall. intros h. by rewrite H2, elem_of_app, list_elem_of_singleton.
      * destruct IH as (r & Hr & H); [| |exists r; split; [by right|done]].
        { intros h. rewrite elem_of_union, elem_of_singleton, elem_of_app, list_elem_of_singleton, Hs. tauto. }
        { apply NoDup_app. split_and!; [done| |apply NoDup_singleton]. intros h Hh ->%list_elem_of_singleton. by apply Hseen, Hs. }
Qed.

(** The allowed domains are exactly the hosts of the entries that are not blank, each
    once and in order, and none of them is empty or an address; one entry that is not a
    host is an error. *)
Theorem allowed_domains_are_the_hosts entries :
  match allowedDomains entries with
  | Ok ds => NoDup ds /\ StronglySorted (fun a b => String.ltb b a = false) ds /\ (forall h, h ∈ ds <-> entry_allows entries h) /\
             (forall h, h ∈ ds -> h <> "" /\ ParseIP h = false)
  | Err e => exists raw, raw ∈ entries /\ TrimSpace raw <> "" /\ e = ErrInvalidAllowlistEntry (TrimSpace raw)
  end.
Proof.
  unfold allowedDomains. pose proof (domains_loop_spec entries ∅ [] ltac:(set_solver) ltac:(constructor)) as H.
  assert (He : forall v e, hostFromAllowlistEntry v = Err e -> e = ErrInvalidAllowlistEntry v).
  { intros v e. unfold hostFromAllowlistEntry. destruct (_ || _); [by intros [= <-]|].
    destruct (entry_host v); [|by intros [= <-]]. destruct (_ || _); [by intros [= <-]|done]. }
  destruct (domains_loop entries ∅ []) as [ds|e].
  - destruct H as (Hn & Ha & _).
    assert (Hd : forall h, h ∈ ds <-> entry_allows entries h) by (intros h; rewrite Ha; set_solver). split_and!.
    + by rewrite sort_by_perm.
    + apply sort_by_sorted; [apply ltb_asym | intros x y z; apply nltb_trans].
    + intros h. by rewrite sort_by_perm.
    + intros h. rewrite sort_by_perm, Hd. intros (raw & _ & _ & E). revert E. unfold hostFromAllowlistEntry.
      destruct (_ || _); [done|]. destruct (entry_host _) as [host|]; [|done].
      destruct (String.eqb_spec (ToLower uni (Trim bracket host)) ""); [done|].
      destruct (ParseIP _) eqn:Ep; [done|]. by intros [= <-].
  - destruct H as (raw & Hr & Hne & E). exists raw. split_and!; [done..|]. by apply He.
Qed.
End Allowlist.

(** ** The settings file *)

Record settings := mkSettings { st_AllowedDomains : list string; st_worktree : string; st_TempDir : string }.

(** [settingsFromRequest] and the value it is written as. *)
Definition settingsFromRequest (uni : string -> string) (req : Request) (worktree tempDir : string) : result SrtErr settings :=
  let? domains := allowedDomains uni (lm_EgressAllowlist (rq_Limits req)) in Ok (mkSettings domains worktree tempDir).
Definition settings_json (s : settings) : json :=
  JObject [("network", JObject [("allowedDomains", strings (st_AllowedDomains s)); ("deniedDomains", strings []);
                                ("allowLocalBinding", JBool false)]);
           ("filesystem", JObject [("denyRead", strings ["~/.ssh"; "~/.aws"; "~/.config"; "~/.gnupg"]);
                                   ("allowRead", strings [st_worktree s]);
                                   ("allowWrite", strings [st_worktree s; st_TempDir s]);
                                   ("denyWrite", strings [".env"])]);
           ("ignoreViolations", JObject []); ("enableWeakerNestedSandbox", JBool false);
           ("enableWeakerNetworkIsolation", JBool false); ("allowAppleEvents", JBool false)].
Definition settings_text (s : settings) : string := indent_json 0 (settings_json s) +:+ String nl "".

(** The command line reads the settings from the file. *)
Lemma settings_are_read s : parse_json (settings_text s) = Some (valid_json (settings_json s)).
Proof.
  apply (shallow_is_read_indented 4); [|lia]. apply shallow_object. members; apply shallow_object; members.
Qed.

(** ** Run *)

Section Runner.
(** The host; [strings.ToLower] beyond ASCII; [os.TempDir]; [os.MkdirTemp], which gives
    the name of a new directory; a failing write; the command line under a deadline
    (0 for none), which can read the temporary files. *)
Context {X : Type} (host : Host X) (uni : string -> string) (temp_dir : X -> string)
        (mkdir_temp : gmap string string -> X -> result string string * X)
        (write_error : string -> X -> option string)
        (launch : string -> list string -> string -> Z -> gmap string string -> X -> TimedProc * X).

(** [New]. *)
Definition New (cliPath : string) : string := let cliPath := TrimSpace cliPath in if String.eqb cliPath "" then "srt" else cliPath.

(** [os.RemoveAll] of a temporary directory. *)
Definition below (dir path : string) : bool := String.eqb path dir || HasPrefix path (dir +:+ "/").
Definition RemoveAll (dir : string) (files : gmap string string) : gmap string string :=
  filter (fun f => below dir f.1 = false) files.

(** [Runner.Run]: the deferred removal of the settings' directory comes last. *)
Definition Run (cliPath : string) (req : Request) (w : TempWorld X) : BoxOutcome (LocalErr + SrtErr) * TempWorld X :=
  if negb (ValidateRequest req) then (run_failed (inl LInvalidCommand), w)
  else match validateWorktree host (rq_Worktree req) (tw_x w) with
  | Err e => (run_failed (inl (LInvalidWorktree e)), w)
  | Ok worktree =>
    match settingsFromRequest uni req worktree (temp_dir (tw_x w)) with
    | Err e => (run_failed (inr e), w)
    | Ok settings =>
      let '(r, x) := mkdir_temp (tw_files w) (tw_x w) in
      match r with
      | Err e => (run_failed (inl (LSetup ("sandbox-runtime: create settings dir: " +:+ e))), mkTemp (tw_files w) x)
      | Ok settingsDir =>
        let settingsPath := PathJoin settingsDir "settings.json" in
        match write_error settingsPath x with
        | Some e => (run_failed (inl (LSetup ("sandbox-runtime: write settings: " +:+ e))),
                     mkTemp (RemoveAll settingsDir (<[settingsPath := ""]> (tw_files w))) x)
        | None =>
          let files := <[settingsPath := settings_text settings]> (tw_files w) in
          let '(t, x) := launch cliPath (["--settings"; settingsPath] ++ rq_Command req) worktree
                           (Z.max 0 (lm_WallClockTimeout (rq_Limits req))) files x in
          let '((result, code), err) := timed_outcome cliPath t in
          ((result, code, inl <$> err), mkTemp (RemoveAll settingsDir files) x)
        end
      end
    end
  end.

(** ** The settings' directory *)

(** [os.MkdirTemp] makes a new directory: an absolute path with nothing below it. *)
Hypothesis mkdir_temp_fresh : forall files x dir x', mkdir_temp files x = (Ok dir, x') ->
  (exists l, l <> [] /\ names_ok l /\ dir = abs_path l) /\ forall p, is_Some (files !! p) -> below dir p = false.

Lemma settings_below l : l <> [] -> names_ok l -> below (abs_path l) (PathJoin (abs_path l) "settings.json") = true.
Proof.
  intros Hl Hn. assert (E : PathJoin (abs_path l) "settings.json" = abs_path (l ++ ["settings.json"])).
  { rewrite PathJoin_abs by done. f_equal. change (Split "/" "settings.json") with (["settings.json"] ++ []).
    rewrite clean_segs_names by (by repeat constructor). simpl. by rewrite reverse_cons, reverse_involutive. }
  rewrite E. unfold below, HasPrefix. rewrite abs_snoc, decide_False by done. by rewrite prefix_of_app, orb_true_r.
Qed.

Lemma RemoveAll_restores dir path text files : below dir path = true -> (forall p, is_Some (files !! p) -> below dir p = false) ->
  RemoveAll dir (<[path := text]> files) = files.
Proof.
  intros Hb Hf. unfold RemoveAll. apply map_eq. intros p. destruct (decide (p = path)) as [->|Hp].
  - rewrite map_lookup_filter, lookup_insert_eq. simpl. rewrite option_guard_False by (simpl; congruence).
    symmetry. apply eq_None_not_Some. intros H. apply Hf in H. congruence.
  - rewrite map_lookup_filter, lookup_insert_ne by done. destruct (files !! p) as [t|] eqn:E; [|done]. simpl.
    rewrite option_guard_True; [done|]. apply Hf. by exists t.
Qed.

(** A run leaves the temporary files as they were, on every path. The command line is
    started only for a valid command in an existing worktree with a valid allowlist,
    and then with exactly the command, under a settings file that is read back as the
    settings: the hosts of the allowlist, the worktree and the temporary directory. *)
Theorem command_runs_under_its_settings cliPath req w :
  tw_files (Run cliPath req w).2 = tw_files w /\
  ((exists e, (Run cliPath req w).1 = run_failed e) \/
   exists worktree domains path x files t x',
     ValidateRequest req = true /\ validateWorktree host (rq_Worktree req) (tw_x w) = Ok worktree /\
     allowedDomains uni (lm_EgressAllowlist (rq_Limits req)) = Ok domains /\
     launch cliPath (["--settings"; path] ++ rq_Command req) worktree (Z.max 0 (lm_WallClockTimeout (rq_Limits req))) files x = (t, x') /\
     (exists text, files !! path = Some text /\
        parse_json text = Some (valid_json (settings_json (mkSettings domains worktree (temp_dir (tw_x w)))))) /\
     (Run cliPath req w).1 = ((timed_outcome cliPath t).1, inl <$> (timed_outcome cliPath t).2)).
Proof.
  unfold Run, settingsFromRequest. destruct (ValidateRequest req); [cbn [negb]|split; [done|by left; eexists]].
  destruct (validateWorktree host _ _) as [worktree|e]; [|split; [done|by left; eexists]].
  destruct (allowedDomains uni _) as [domains|e]; [|split; [done|by left; eexists]].
  destruct (mkdir_temp (tw_files w) (tw_x w)) as [[dir|e] x] eqn:Em; [|split; [done|by left; eexists]].
  apply mkdir_temp_fresh in Em as [(l & Hl & Hn & ->) Hf]. pose proof (settings_below l Hl Hn) as Hb.
  destruct (write_error _ x) as [e|].
  { cbn [fst snd tw_files]. rewrite RemoveAll_restores by done. split; [done|by left; eexists]. }
  destruct (launch _ _ _ _ _ _) as [t x'] eqn:El. destruct (timed_outcome cliPath t) as [[r code] err] eqn:Et.
  cbn [fst snd tw_files]. rewrite RemoveAll_restores by done. split; [done|right].
  eexists worktree, domains, (PathJoin (abs_path l) "settings.json"), x, _, t, x'. split_and!; [done|done|done|exact El| |by rewrite Et].
  eexists. split; [apply lookup_insert_eq|apply settings_are_read].
Qed.
End Runner.

(** ** An example *)

Definition demo_host : Host unit :=
  mkHost (fun _ => Ok "/") (fun p _ => if String.eqb p "/w" then Ok (mkFileInfo true 0) else Err "no such file") (fun _ _ => "")
    (fun _ _ _ _ _ x => (mkProc "" "" (Exited 0), x)) (fun _ _ x => (("", None), x)).
Definition demo_mkdir (files : gmap string string) (x : unit) : result string string * unit :=
  (if bool_decide (map_Forall (fun p _ => below "/tmp/srt" p = false) files) then Ok "/tmp/srt" else Err "file exists", x).
Definition demo_launch (bin : string) (args : list string) (dir : string) (timeout : Z)
  (files : gmap string string) (x : unit) : TimedProc * unit :=
  (mkTimed (mkProc (Join " " args) (default "" (files !! "/tmp/srt/settings.json")) (NotRun "signal: killed")) 7 (Some "context deadline exceeded"), x).
Definition demo_request : Request :=
  mkRequest ["go"; "test"] "/w" (mkLimits 7 0 0 0 ["GitHub.com:443"; " proxy.golang.org "; "github.com:22"]) "" zero_wiring.

Example demo_domains : allowedDomains id (lm_EgressAllowlist (rq_Limits demo_request)) = Ok ["github.com"; "proxy.golang.org"].
Proof. vm_compute. reflexivity. Qed.

Lemma command_runs_under_its_settings_witness :
  let run := Run demo_host id (fun _ => "/tmp") demo_mkdir (fun _ _ => None) demo_launch "srt" demo_request (mkTemp ∅ tt) in
  sb_Stdout run.1.1.1 = "--settings /tmp/srt/settings.json go test" /\ run.1.1.2 = -1 /\
  run.1.2 = Some (inl (LDeadline "context deadline exceeded")) /\ tw_files run.2 = ∅.
Proof.
  split; [vm_compute; reflexivity|]. split; [vm_compute; reflexivity|]. split; [vm_compute; reflexivity|].
  apply (command_runs_under_its_settings demo_host id (fun _ => "/tmp") demo_mkdir (fun _ _ => None) demo_launch) with (w := mkTemp ∅ tt).
  intros files x dir x'. unfold demo_mkdir. case_bool_decide as H; [|done]. intros [= <- _]. split.
  - exists ["tmp"; "srt"]. split; [done|]. split; [by repeat constructor|done].
  - intros p [t Hp]. by apply (H p t).
Defined.

(** The port of an entry is not part of the settings: both entries of a host allow it
    as a whole. *)
Example ports_are_dropped : allowedDomains id ["h.example:443"] = allowedDomains id ["h.example:22"].
Proof. vm_compute. reflexivity. Qed.
