(* ===== verification/RunProtocol.v ===== *)
(** * The protocol of a run

    What [Run] of [internal/runtime/run.go] may do, as a machine on the events of
    its trace, and the proof that every run follows it: nothing starts before the
    policy engine has allowed it, and nothing is published but a branch the gate
    has just passed. The entries the escalation hook moves through, and the runs
    that end before a box is created. *)

From stdpp Require Import base gmap strings list.
From Stdlib Require Import ZArith Lia Ascii.
From S2P Require Import Prelude GoStrings Seams Gate TaskSource GateSteps Loop Registry Router Sandbox.
From S2P Require Import Policy AuditTrail Supervisor Publisher RunConfig Vault Runtime.

Local Open Scope Z_scope.

(** ** The protocol *)

(** How far a run has come. *)
Inductive Stage :=
| Deciding
| Halting (o : gateOutcome)
| Cleared (tier : string)
| Working
| Produced (branch : string)
| Passed (branch : string)
| Published (branch : string)
| GaveUp.

(** The policy gate is skipped when it is not configured. *)
Definition first_stage (config : Config) : Stage :=
  if String.eqb (cf_PolicyBin config) "" then Cleared "" else Deciding.

(** The audit chain speaks of a publication or a completed run only at the stage
    that has it. *)
Definition audit_fits (s : Stage) (ev : AuditEvent) : bool :=
  match ae_Action ev with
  | ActionPublish => match s with Passed b => String.eqb (ed_Branch (ae_Detail ev)) b | _ => false end
  | ActionFinish =>
    match s with
    | Published b => String.eqb (ed_Branch (ae_Detail ev)) b
    | _ => negb (String.eqb (ae_Outcome ev) OutcomeCompleted)
    end
  | _ => true
  end.

(** One event; [None] when the stage does not admit it. *)
Definition advance (s : Stage) (ev : RunEvent) : option Stage :=
  match ev, s with
  | EvAudited a, _ => if audit_fits s a then Some s else None
  | EvDecision o, Deciding => Some (if go_allowed o then Cleared (go_tier o) else Halting o)
  | EvNeedsHuman _ _, Halting _ => Some s
  | EvApprovalHook _ reason, Halting o =>
    if String.eqb (go_policyDecision o) requireApprovalDecision && String.eqb reason (go_reason o) then Some s else None
  | EvHalted _ reason, Halting o => if String.eqb reason (go_reason o) then Some s else None
  | EvBox req ok, Cleared tier =>
    if String.eqb (rq_Tier req) tier && ValidTier tier then Some (if ok then Working else GaveUp) else None
  | EvAttempt _ _ r, Working =>
    Some (match r with Ok r => if res_OK r then Produced (res_Branch r) else Working | Err _ => Working end)
  | EvVerified v, Produced b => Some (if v_OK v then Passed b else Working)
  | EvNeedsHuman _ _, Working => Some GaveUp
  | EvPublish req ok, Passed b =>
    if String.eqb (pq_Branch req) b then Some (if ok then Published b else GaveUp) else None
  | EvQuotaSaved _, (Deciding | Halting _) => None
  | EvQuotaSaved _, Published _ => Some s
  | EvQuotaSaved _, _ => Some GaveUp
  | EvIdle, (Deciding | Cleared _) => Some s
  | EvCompleted _, Published _ => Some s
  | _, _ => None
  end.

Fixpoint follow (s : Stage) (evs : list RunEvent) : option Stage :=
  match evs with
  | [] => Some s
  | ev :: evs => match advance s ev with Some s => follow s evs | None => None end
  end.

Lemma follow_app s evs evs' : follow s (evs ++ evs') = match follow s evs with Some s' => follow s' evs' | None => None end.
Proof. revert s. induction evs as [|ev evs IH]; intros s; simpl; [done|]. by destruct (advance s ev). Qed.

(** ** The steps of a run follow the protocol *)

(** From one world to a later one, the trace leads from stage to stage. *)
Definition leads {X} (s s' : Stage) (w w' : World X) : Prop :=
  exists evs, w_trace w' = w_trace w ++ evs /\ follow s evs = Some s'.

Lemma leads_refl {X} s (w w' : World X) : w_trace w' = w_trace w -> leads s s w w'.
Proof. intros E. exists []. by rewrite app_nil_r. Qed.

Lemma leads_trans {X} s s1 s2 (w w1 w2 : World X) : leads s s1 w w1 -> leads s1 s2 w1 w2 -> leads s s2 w w2.
Proof.
  intros (a & Ea & Fa) (b & Eb & Fb). exists (a ++ b). rewrite Eb, Ea, app_assoc. split; [done|].
  by rewrite follow_app, Fa.
Qed.

Lemma leads_note {X} s s' ev (w w1 : World X) : w_trace w1 = w_trace w -> advance s ev = Some s' -> leads s s' w (note ev w1).
Proof. intros E A. exists [ev]. simpl. by rewrite E, A. Qed.

Create HintDb protocol.
#[export] Hint Resolve leads_refl leads_note : protocol.

(** ** The supervisor on the world of a run *)

Section Supervised.
Context {X : Type} (pf : Platform X) (config : Config).
Local Notation World := (World X).

(** The creation of the box. *)
Definition created (task : Task) (wiring : RunWiring) (tier : string) (limits : Limits) (w : World) : result string BoxHandle * World :=
  box_Create (sandboxBox pf config (if String.eqb (cf_ExecSandboxBin config) "" then "podman" else "exec-sandbox")
                wiring tier limits) task w.

(** A property of the world that the outside does not touch, that the creation of
    the box establishes and [RunInside] leads on, holds after the supervised run. *)
Lemma supervise_world (P : @LoopStatus (BoxHandle * Task) -> World -> Prop)
  task policy ex verifier publish sink wiring tier limits cs sched w runErr w' :
  let l := mkInBox ex verifier (cf_Worktree config) (cf_ExecBoxLauncher config) config policy (Some publish)
             (cf_PublishRemote config) [cf_GitToken config; cf_GitHubToken config] in
  supervise pf config task policy ex verifier publish sink wiring tier limits cs sched w = Some (runErr, w') ->
  (forall st w1 x, P st w1 -> P st (set_x x w1)) ->
  (forall h w1, created task wiring tier limits w = (Ok h, w1) -> P (LoopRunning (h, task)) w1) ->
  (forall record h t c w1 ierr w2, P (LoopRunning (h, t)) w1 ->
     RunInside pf l record sink h t (set_ctx c w1) = (ierr, w2) -> P (LoopReturned (pf_show_run pf <$> ierr)) w2) ->
  (runErr <> [] /\ (w' = w \/ exists e, created task wiring tier limits w = (Err e, w'))) \/
  exists st, P st w' /\ (runErr = [] -> loop_result st = Some []).
Proof.
  intros l E Px Pc Pi. unfold supervise in E. fold l in E. set (sup := mkSupervisor _ _ _ _ _ _ _) in E.
  destruct (Supervisor.Run _ _ sup sched w) as [[err e]|] eqn:ER; [|done]. injection E as <- <-. simpl.
  eapply (Run_world _ _ sup _ (in_box pf l config sink) P) in ER; [exact ER|clear ER..|reflexivity|reflexivity|].
  - intros st. constructor; simpl.
    + intros p w1 H. destruct (rf_Create _ _ _). by apply Px.
    + intros p w1 H. destruct (rf_Write _ _ _). by apply Px.
    + intros w1 H. destruct (rf_Close _ _). by apply Px.
    + done.
    + done.
    + intros seal w1 Hs H. destruct sink; [|done]. injection Hs as <-. destruct (pf_seal _ _). by apply Px.
    + intros cs' w1 Hs H. destruct cs; [|done]. injection Hs as <-. simpl. destruct (sg_VerifyChain _ _). by apply Px.
    + intros cs' w1 Hs H. destruct cs; [|done]. injection Hs as <-. simpl. destruct (sg_CreateCheckpoint _ _). by apply Px.
  - intros c [h t] w1 H. simpl.
    match goal with |- context [RunInside pf l ?rec ?sk h t ?w2] => destruct (RunInside pf l rec sk h t w2) as [ierr w3] eqn:Ei end.
    by eapply Pi.
  - intros h w1 Hc. by apply Pc.
Qed.
End Supervised.

Section Protocol.
Context {X : Type} (pf : Platform X) (config : Config).
Local Notation World := (World X).

Lemma write_record_trace record kind field text (w : World) : w_trace (write_record pf record kind field text w) = w_trace w.
Proof. unfold write_record. destruct record; [|done]. by destruct (writeStream _ _ _ _ _ _). Qed.

Lemma emit_leads s sink ev (w w1 : World) :
  w_trace w1 = w_trace w -> audit_fits s ev = true -> leads s s w (emitAudit pf sink ev w1).
Proof.
  intros E A. unfold emitAudit. destruct sink; [|by apply leads_refl].
  destruct (pf_append pf ev (w_x w1)) as [err x]. apply leads_note; [done|]. simpl. by rewrite A.
Qed.

(** The executors of a run are those of the router. *)
Definition routed (ex : @Executor World) : Prop := exists id sp, ex = recordDispatchWrap pf config id sp.

Lemma routed_leads ex t w r w' :
  routed ex -> ex t w = (r, w') ->
  leads Working (match r with Ok r => if res_OK r then Produced (res_Branch r) else Working | Err _ => Working end) w w'.
Proof.
  intros (id & sp & ->). unfold recordDispatchWrap. simpl. destruct (pf_exec pf config sp _ t _) as [r1 x].
  intros [= <- <-]. by apply leads_note.
Qed.

Lemma hook_routed spec req w r w' :
  routed (er_CurrentExecutor req) -> newRouterEscalationHook pf spec config req w = (r, w') ->
  w_trace w' = w_trace w /\ (forall ex, r = Ok (Some ex) -> routed ex).
Proof.
  intros Hc. unfold newRouterEscalationHook. destruct (Select _ _ _) as [sel rt].
  destruct sel as [e|[]]; try (intros [= <- <-]; split; [done | naive_solver]).
  destruct (buildExecutorForEntry pf e config _) as [sp|err]; intros [= <- <-]; (split; [done|]); [|done].
  intros ex [= <-]. by exists (re_ID e), sp.
Qed.

Lemma write_status_leads s s' id st w r w' :
  (forall b, advance s (EvNeedsHuman id b) = Some s') -> write_status pf config id st w = (r, w') -> leads s s' w w'.
Proof.
  intros A. unfold write_status. destruct (WriteStatus _ _ _ _ _) as [res fs]. intros [= <- <-]. by apply leads_note.
Qed.

Section Attempts.
(** A retrying loop as [RunInside] builds it. *)
Context (spec : RecipeSpec) (g : GateObj X) (l : @RetryingLoop World).
Hypothesis l_gate : rl_gate l = gate_fn g.
Hypothesis l_status : rl_statusWriter l = status_fn pf config.
Hypothesis l_hook : rl_Escalate l = newRouterEscalationHook pf spec config.
Local Notation quote := (pf_quote pf).

Lemma mark_leads task n last w res w' :
  markNeedsHuman l task n last w = (res, w') ->
  leads Working GaveUp w w' /\ (forall ro, res = Ok ro -> ro_Kind ro = RetryOutcomeEscalated).
Proof.
  unfold markNeedsHuman. rewrite l_status. unfold status_fn.
  destruct (write_status pf config (task_ID task) _ w) as [r w1] eqn:E.
  apply (write_status_leads Working GaveUp) in E; [|done].
  destruct r; intros [= <- <-]; (split; [done|]); naive_solver.
Qed.

(** One cycle: a passing one leads to its branch, a failing one back to work. *)
Lemma cycle_leads task ex cycle w o err w' :
  routed ex -> NewLoop (Some (singleTaskSource task)) (Some ex) (Some (rl_gate l)) (rl_worktreePath l) = Ok cycle ->
  RunOnce cycle w = (o, err, w') ->
  err = None /\
  (out_Kind o = OutcomeDone /\ leads Working (Passed (out_Branch o)) w w' \/
   out_Kind o = OutcomeFail /\ leads Working Working w w').
Proof.
  intros Hr Hn. unfold NewLoop in Hn. destruct (blank _); [done|]. injection Hn as <-.
  unfold RunOnce. simpl. destruct (ex task w) as [r w1] eqn:Ex.
  apply routed_leads in Ex; [|done]. destruct r as [r|e]; [|intros [= <- <- <-]; eauto].
  destruct (res_OK r) eqn:Eok; simpl; [|intros [= <- <- <-]; eauto].
  rewrite l_gate. unfold gate_fn. destruct (g_Verify g _ _) as [v x].
  assert (Hv : leads (Produced (res_Branch r)) (if v_OK v then Passed (res_Branch r) else Working) w1
                 (note (EvVerified v) (set_x x w1))) by (by apply leads_note).
  destruct (v_OK v); simpl; intros [= <- <- <-]; split; try done; [left | right]; (split; [done|]); by eapply leads_trans.
Qed.

Lemma attempts_lead n attempt task ex last w res w' :
  routed ex -> attempts_loop quote l n attempt task ex last w = (res, w') ->
  exists s, leads Working s w w' /\ (s = Working \/ s = GaveUp \/ exists b, s = Passed b) /\
  forall ro, res = Ok ro ->
    ro_Kind ro = RetryOutcomeDone /\ s = Passed (ro_Branch ro) \/ ro_Kind ro = RetryOutcomeEscalated /\ s = GaveUp.
Proof.
  revert attempt task ex last w. induction n as [|n IH]; intros attempt task ex last w Hr E; cbn [attempts_loop] in E.
  { apply mark_leads in E as [E Hk]. exists GaveUp. split_and!; [done | auto | naive_solver]. }
  destruct (NewLoop _ _ _ _) as [cycle|e] eqn:En.
  2:{ injection E as <- <-. exists Working. split_and!; [by apply leads_refl | auto | done]. }
  destruct (RunOnce cycle w) as [[o err] w1] eqn:Eo.
  apply cycle_leads with (task := task) (ex := ex) in Eo as [-> Ho]; [|done..].
  destruct Ho as [[Ek Ho]|[Ek Ho]]; rewrite Ek in E.
  { injection E as <- <-. exists (Passed (out_Branch o)). split_and!; [done | eauto |]. intros ro [= <-]. by left. }
  destruct (attempt =? rl_MaxAttempts l).
  { apply mark_leads in E as [E Hk]. exists GaveUp. split_and!; [by eapply leads_trans | auto | naive_solver]. }
  rewrite l_hook in E. destruct (newRouterEscalationHook pf spec config _ w1) as [next w2] eqn:Eh.
  apply hook_routed in Eh as [Et Hn]; [|done].
  assert (H2 : leads Working Working w w2) by (eapply leads_trans; [done | by apply leads_refl]).
  destruct next as [[next|]|e]; [|injection E as <- <-; exists Working; split_and!; [done | auto | done]..].
  apply IH in E as (s & Hs & Hk & Hro); [|by apply Hn]. exists s. split_and!; [by eapply leads_trans | done..].
Qed.

Lemma retry_leads task w res w' :
  rl_source l = singleTaskSource task -> routed (rl_executor l) ->
  Retry_RunOnce quote l w = (res, w') ->
  exists s, leads Working s w w' /\ (s = Working \/ s = GaveUp \/ exists b, s = Passed b) /\
  forall ro, res = Ok ro ->
    ro_Kind ro = RetryOutcomeDone /\ s = Passed (ro_Branch ro) \/ ro_Kind ro = RetryOutcomeEscalated /\ s = GaveUp.
Proof.
  intros Hs Hr. unfold Retry_RunOnce. rewrite Hs. simpl. destruct (rl_MaxAttempts l =? 0).
  - intros [E Hk]%mark_leads. exists GaveUp. split_and!; [done | auto | naive_solver].
  - by apply attempts_lead.
Qed.
End Attempts.

Lemma project_leads s l record sink run task outcome w sts :
  leads s s w (foldl (project_state pf l record sink run task outcome) w sts).
Proof.
  revert w. induction sts as [|st sts IH]; intros w; simpl; [by apply leads_refl|].
  eapply leads_trans; [|apply IH]. destruct st; simpl; try (by apply leads_refl);
    (apply emit_leads; [apply write_record_trace | done]).
Qed.

Lemma evidence_trace record o (w : World) : w_trace (writeFailureEvidence pf record o w) = w_trace w.
Proof.
  unfold writeFailureEvidence, writeStderr. destruct (fl_Reason _); try done; [|apply write_record_trace|].
  - destruct (fl_Err _); [apply write_record_trace | done].
  - destruct (List.find _ _); [rewrite write_record_trace|]; apply write_record_trace.
Qed.

(** The stages at which a box has been asked for. *)
Definition after_policy (s : Stage) : bool := match s with Deciding | Halting _ => false | _ => true end.

Lemma publish_leads l record sink run task outcome w err w' :
  publish_branch pf l record sink run task outcome w = (err, w') ->
  exists s, leads (Passed (ro_Branch outcome)) s w w' /\ after_policy s = true /\
    (err = None -> s = Published (ro_Branch outcome)).
Proof.
  unfold publish_branch. set (b := ro_Branch outcome). set (ev := mkEvent ActionPublish _ _ _ _ _).
  match goal with |- context [emitAudit pf sink ev ?w0] => set (w0' := w0) end.
  assert (H1 : leads (Passed b) (Passed b) w (emitAudit pf sink ev w0')).
  { apply emit_leads; [|apply String.eqb_refl].
    unfold w0', writeCommand, writeStdout. by rewrite !write_record_trace. }
  destruct (ib_publisher l) as [publish|]; [|intros [= <- <-]; by exists (Passed b)].
  destruct (publish _ _) as [res x]. set (w2 := note (EvPublish _ (is_ok res)) _).
  assert (H2 : leads (Passed b) (if is_ok res then Published b else GaveUp) w w2).
  { eapply leads_trans; [done|]. apply leads_note; [done|]. simpl. by rewrite String.eqb_refl. }
  destruct res as [result|e]; intros [= <- <-].
  - exists (Published b). split_and!; [|done..]. eapply leads_trans; [done|].
    apply emit_leads; [unfold writeCommand, writeStdout; by rewrite !write_record_trace|]. simpl. apply String.eqb_refl.
  - exists GaveUp. split_and!; [|done..]. eapply leads_trans; [done|]. apply leads_refl, write_record_trace.
Qed.

(** The loops [Run] builds: their executor and hook are those of the router. *)
Definition routed_loop (l : @retryingInBoxLoop X) : Prop :=
  routed (ib_executor l) /\ ib_config l = config /\
  exists spec, rp_Escalate (ib_policy l) = Some (newRouterEscalationHook pf spec config).

Lemma inside_leads l record sink h task w err w' :
  routed_loop l -> RunInside pf l record sink h task w = (err, w') ->
  exists s, leads Working s w w' /\ after_policy s = true /\ (err = None -> exists b, s = Published b).
Proof.
  intros (Hr & Hc & spec & Hh). unfold RunInside.
  set (ev1 := mkEvent ActionContainment _ _ _ _ _). set (ev2 := mkEvent ActionPick _ _ _ _ _).
  match goal with |- context [Retry_RunOnce _ _ ?w0] => set (w0' := w0) end.
  assert (H0 : leads Working Working w w0').
  { unfold w0', writeStdout, writeCommand.
    eapply leads_trans; [|apply leads_refl, write_record_trace].
    eapply leads_trans; [|apply emit_leads; [apply write_record_trace | done]].
    apply emit_leads; [apply write_record_trace | done]. }
  assert (Hstop : forall e, (Some (RErrLoop e), w0') = (err, w') ->
            exists s, leads Working s w w' /\ after_policy s = true /\ (err = None -> exists b, s = Published b)).
  { intros e [= <- <-]. by exists Working. }
  unfold NewRetryingLoop, validateRetryPolicy. rewrite Hh.
  destruct (rp_MaxAttempts (ib_policy l) <? 0); [apply Hstop|].
  destruct (ib_gate l) as [g|]; [|apply Hstop]. cbn [fmap option_fmap option_map NewLoop].
  destruct (blank (ib_worktree l)); [apply Hstop|]. cbn [lp_source lp_executor lp_gate].
  match goal with |- context [Retry_RunOnce _ ?runner w0'] => set (r := runner) end.
  destruct (Retry_RunOnce (pf_quote pf) r w0') as [res w1] eqn:Er.
  eapply (retry_leads spec g r) in Er as (s & Hs & Hk & Hro); [| done | by unfold r; rewrite Hc | done | done | done].
  assert (Hs' : leads Working s w w1) by (by eapply leads_trans).
  destruct res as [ro|e].
  2:{ intros [= <- <-]. exists s. split_and!; [done | | done]. by destruct Hk as [->|[->|[b ->]]]. }
  set (w2 := foldl _ w1 _). assert (H2 : leads Working s w w2) by (eapply leads_trans; [done | apply project_leads]).
  destruct (Hro ro eq_refl) as [[-> ->]|[-> ->]].
  - intros (s' & Hp & Ha & Hn)%publish_leads. exists s'. split_and!; [by eapply leads_trans | done |]. eauto.
  - intros [= <- <-]. exists GaveUp. split_and!; [|done..]. eapply leads_trans; [done|].
    eapply leads_trans; [|apply emit_leads; done]. apply emit_leads; [|done].
    unfold writeStderr. by rewrite write_record_trace, evidence_trace.
Qed.

(** Where the loop's status leaves a run whose box was allowed. *)
Definition box_stage (tier : string) (w0 : World) (st : @LoopStatus (BoxHandle * Task)) (w : World) : Prop :=
  match st with
  | LoopRunning _ => leads (Cleared tier) Working w0 w
  | LoopReturned e => exists s, leads (Cleared tier) s w0 w /\ after_policy s = true /\ (e = None -> exists b, s = Published b)
  | LoopPanicked _ => False
  end.

Lemma leads_same s s' (w w1 w2 : World) : w_trace w2 = w_trace w1 -> leads s s' w w1 -> leads s s' w w2.
Proof. intros E (evs & Et & F). exists evs. by rewrite E. Qed.

Lemma box_stage_same tier w0 st w1 w2 : w_trace w2 = w_trace w1 -> box_stage tier w0 st w1 -> box_stage tier w0 st w2.
Proof.
  intros E. destruct st; simpl; [by apply leads_same | | done].
  intros (s & Hs & ?). exists s. split; [by eapply leads_same | done].
Qed.

Lemma supervised_leads task policy ex verifier publish sink wiring tier limits cs sched w runErr w' :
  ValidTier tier = true -> routed ex ->
  (exists spec, rp_Escalate policy = Some (newRouterEscalationHook pf spec config)) ->
  supervise pf config task policy ex verifier publish sink wiring tier limits cs sched w = Some (runErr, w') ->
  exists s, leads (Cleared tier) s w w' /\ after_policy s = true /\ (runErr = [] -> exists b, s = Published b).
Proof.
  intros Ht Hr Hh E.
  assert (Hcreate : forall h w1, created pf config task wiring tier limits w = (h, w1) ->
            leads (Cleared tier) (if is_ok h then Working else GaveUp) w w1).
  { intros h w1. unfold created. simpl. destruct (pf_runner pf _ _) as [[code|er] y]; [destruct (code =? 0) eqn:Ec|]; intros [= <- <-];
      (apply leads_note; [done|]); simpl; by rewrite String.eqb_refl, Ht. }
  apply (supervise_world pf config (box_stage tier w)) in E.
  - destruct E as [[Hne [->|[er Her]]]|(st & Hst & Hn)].
    + exists (Cleared tier). split_and!; [by apply leads_refl | done..].
    + apply Hcreate in Her. by exists GaveUp.
    + destruct st as [|er|]; simpl in Hst; [|destruct Hst as (s & ? & ? & Hp)|done].
      * exists Working. split_and!; [done..|]. intros ->. by specialize (Hn eq_refl).
      * exists s. split_and!; [done..|]. intros ->. apply Hp. specialize (Hn eq_refl). by destruct er.
  - intros st w1 x. by apply box_stage_same.
  - intros h w1 Hc. by apply Hcreate in Hc.
  - intros record h t c w1 ierr w2 H Ei. apply inside_leads in Ei as (s & Hs & Ha & Hn); [|by split_and!].
    exists s. split_and!; [by eapply leads_trans | done |]. intros He. apply Hn. by destruct ierr.
Qed.

Lemma boxed_leads task policy ex verifier publish sink wiring tier limits sched w err w' :
  ValidTier tier = true -> routed ex ->
  (exists spec, rp_Escalate policy = Some (newRouterEscalationHook pf spec config)) ->
  run_boxed pf config task policy ex verifier publish sink wiring tier limits sched w = Some (err, w') ->
  exists s, leads (Cleared tier) s w w' /\ after_policy s = true /\ (err = None -> exists b, s = Published b).
Proof.
  intros Ht Hr Hh. unfold run_boxed. destruct (newCheckpointSigner pf config (w_x w)) as [[cs|e] x].
  2:{ intros [= <- <-]. exists (Cleared tier). split_and!; [by apply leads_refl | done..]. }
  destruct (supervise pf _ _ _ _ _ _ _ _ _ _ _ _ _) as [[runErr w1]|] eqn:E; [|done].
  apply supervised_leads in E as (s & Hs & Ha & Hn); [|done..].
  set (saved := match s with Published b => Published b | _ => GaveUp end).
  assert (Hq : forall w2 b, w_trace w2 = w_trace w1 -> leads (Cleared tier) saved w (note (EvQuotaSaved b) w2)).
  { intros w2 b Et. eapply leads_trans; [exact Hs|]. apply leads_note; [done|]. by destruct s. }
  assert (Hdone : forall w2 s1, s1 = s \/ s1 = saved -> leads (Cleared tier) s1 w w2 -> runErr = [] ->
            exists s', leads (Cleared tier) s' w (note (EvCompleted (task_ID task)) w2) /\ after_policy s' = true /\
              exists b, s' = Published b).
  { intros w2 s1 Hs1 H2 He. destruct (Hn He) as [b Eb]. unfold saved in Hs1. rewrite Eb in Hs1.
    exists (Published b). split_and!; [|done|by exists b].
    eapply leads_trans; [exact H2|]. destruct Hs1 as [->| ->]; by apply leads_note. }
  destruct (String.eqb (cf_RouterStatePath config) "").
  - destruct runErr as [|e1 es]; intros [= <- <-]; [|exists s; by split_and!].
    destruct (Hdone w1 s (or_introl eq_refl) Hs eq_refl) as (s' & ? & ? & ?). by exists s'.
  - destruct (SaveState _ _ _ _ _) as [serr files]. set (w3 := note (EvQuotaSaved _) _).
    assert (H3 : leads (Cleared tier) saved w w3) by (by apply Hq).
    assert (Ha3 : after_policy saved = true) by (by unfold saved; destruct s).
    destruct serr as [se|]; [intros [= <- <-]; exists saved; by split_and!|].
    destruct runErr as [|e1 es]; intros [= <- <-]; [|exists saved; by split_and!].
    destruct (Hdone w3 saved (or_intror eq_refl) H3 eq_refl) as (s' & ? & ? & ?). by exists s'.
Qed.

(** What the policy gate lets through: an explicit allow with a known tier. *)
Lemma decideGate_allows task hosts wiring x o wiring' x' :
  decideGate pf config task hosts wiring x = Some (Ok (o, wiring'), x') -> go_allowed o = true ->
  ValidTier (go_tier o) = true /\ go_policyDecision o = PolicyDecision_string PolicyAllow /\
  exists answer resp, PolicyDecide (pf_wire pf) answer = (resp, None) /\ dp_Decision resp = PolicyAllow.
Proof.
  unfold decideGate. destruct (resolveBin _ _ _ _); [|done]. destruct (Start _ _ _ _) as [[[[] daemon] x1]|]; [done| |done].
  destruct (pf_exchange pf _ _ x1) as [answer x2]. destruct (PolicyDecide (pf_wire pf) answer) as [resp derr] eqn:Ed.
  destruct (Stop _ daemon x2) as [[] x3]. destruct derr as [e|]; intros [= <- <- <-]; [done|].
  unfold route_response. destruct (dp_Decision resp) eqn:Er; [|done..].
  destruct (ValidTier (TierSelect (dp_Obligations resp))) eqn:Ev; [|done]. intros _. split_and!; [done..|].
  by exists answer, resp.
Qed.

(** The stages at which a run may end without an error. *)
Definition settled (s : Stage) : Prop := (exists b, s = Published b) \/ exists o, s = Halting o.

Lemma decision_leads sink id o w : leads Deciding (if go_allowed o then Cleared (go_tier o) else Halting o) w
  (maybeEmitPolicyDecision pf sink id o (note (EvDecision o) w)).
Proof.
  unfold maybeEmitPolicyDecision. destruct (_ && _); [by apply leads_note|].
  eapply leads_trans; [by apply (leads_note _ _ (EvDecision o) w w)|]. apply emit_leads; [done|]. by destruct (go_allowed o).
Qed.

Lemma gated_leads hook task policy ex verifier publish sink wiring sched w err w' :
  routed ex -> (exists spec, rp_Escalate policy = Some (newRouterEscalationHook pf spec config)) ->
  run_gated pf config hook task policy ex verifier publish sink wiring sched w = Some (err, w') ->
  exists s, leads (first_stage config) s w w' /\ (err = None -> settled s).
Proof.
  intros Hr Hh. unfold run_gated, first_stage. destruct (String.eqb (cf_PolicyBin config) "").
  { intros (s & Hs & _ & Hn)%boxed_leads; [|done..]. exists s. split; [done|]. intros He. left. auto. }
  destruct (decideGate pf config task _ wiring (w_x w)) as [[[[o wiring']|e] x]|] eqn:Ed; [| |done].
  2:{ intros [= <- <-]. exists Deciding. split; [by apply leads_refl | done]. }
  assert (H1 := decision_leads sink (task_ID task) o (set_x x w)).
  destruct (go_allowed o) eqn:Ea; cbn [negb].
  - apply decideGate_allows in Ed as (Ht & _); [|done]. intros (s & Hs & _ & Hn)%boxed_leads; [|done..].
    exists s. split; [by eapply leads_trans in Hs; [|exact H1]|]. intros He. left. auto.
  - destruct (write_status pf config (task_ID task) _ _) as [werr w1] eqn:Ew.
    apply (write_status_leads (Halting o) (Halting o)) in Ew; [|done].
    assert (H2 : leads Deciding (Halting o) w w1) by (eapply leads_trans; [exact H1 | done]).
    destruct werr as [r|e]; [|intros [= <- <-]; by exists (Halting o)].
    intros E. exists (Halting o). split; [|intros; right; by exists o].
    match type of E with Some (None, note (EvHalted _ _) ?w2) = _ => assert (H3 : leads Deciding (Halting o) w w2) end.
    { destruct hook as [f|]; [|done]. destruct (String.eqb (go_policyDecision o) _) eqn:Eq; [|done].
      eapply leads_trans; [done|]. apply leads_note; [done|]. simpl. by rewrite Eq, String.eqb_refl. }
    injection E as <- <-. eapply leads_trans; [done|]. apply leads_note; [done|]. simpl. by rewrite String.eqb_refl.
Qed.

Lemma audited_leads hook task policy ex verifier publish sched wiring w err w' :
  routed ex -> (exists spec, rp_Escalate policy = Some (newRouterEscalationHook pf spec config)) ->
  run_audited pf config hook task policy ex verifier publish sched wiring w = Some (err, w') ->
  exists s, leads (first_stage config) s w w' /\ (err = None -> settled s).
Proof.
  intros Hr Hh. unfold run_audited.
  destruct (if negb (String.eqb (cf_AuditRecordPath config) "") then _ else _) as [[e|] x].
  { intros [= <- <-]. exists (first_stage config). split; [by apply leads_refl | done]. }
  intros (s & Hs & Hn)%gated_leads; [|done..]. exists s. split; [|done].
  eapply leads_trans; [by apply (leads_refl _ w (set_x x w))|done].
Qed.

Lemma wired_leads hook task policy ex verifier publish sched w err w' :
  routed ex -> (exists spec, rp_Escalate policy = Some (newRouterEscalationHook pf spec config)) ->
  run_wired pf config hook task policy ex verifier publish sched w = Some (err, w') ->
  exists s, leads (first_stage config) s w w' /\ (err = None -> settled s).
Proof.
  intros Hr Hh. unfold run_wired. destruct (String.eqb (cf_VaultBin config) ""); [by apply audited_leads|].
  destruct (startVault pf config (w_x w)) as [[[[wiring daemon]|e] x]|]; [| |done].
  2:{ intros [= <- <-]. exists (first_stage config). split; [by apply leads_refl | done]. }
  destruct (run_audited _ _ _ _ _ _ _ _ _ _ _) as [[err0 w1]|] eqn:E; [|done].
  destruct (Stop _ _ _) as [[] x1]. intros [= <- <-].
  apply audited_leads in E as (s & Hs & Hn); [|done..]. exists s. split; [|done].
  eapply leads_same; [|eapply leads_trans; [by apply (leads_refl _ w (set_x x w))|exact Hs]]. done.
Qed.

Lemma built_routed spec w policy ex w' :
  buildRetryPolicyAndRouter pf spec config w = (Ok (policy, ex), w') ->
  routed ex /\ rp_Escalate policy = Some (newRouterEscalationHook pf spec config).
Proof.
  unfold buildRetryPolicyAndRouter, resolveExecutor, NewRetryPolicy, validateRetryPolicy. intros E.
  destruct (buildCatalog pf); [|done]. destruct (if String.eqb (cf_RouterStatePath config) "" then _ else _) as [lerr r].
  destruct lerr; [done|]. destruct (Select _ _ _) as [[entry|e] r1]; [|done].
  destruct (buildExecutorForEntry pf entry config (w_x w)) as [sp|e]; [|done]. simpl in E.
  destruct (cf_MaxAttempts config <? 0); [done|]. injection E as <- <- _. split; [by eexists _, sp | done].
Qed.

Lemma built_trace spec w r w' : buildRetryPolicyAndRouter pf spec config w = (r, w') -> w_trace w' = w_trace w.
Proof.
  unfold buildRetryPolicyAndRouter, resolveExecutor. intros E.
  destruct (buildCatalog pf); [|by injection E as <- <-].
  destruct (if String.eqb (cf_RouterStatePath config) "" then _ else _) as [lerr rt].
  destruct lerr; [by injection E as <- <-|]. destruct (Select _ _ _) as [[entry|e] r1]; [|by injection E as <- <-].
  destruct (buildExecutorForEntry pf entry config (w_x w)); [|by injection E as <- <-].
  destruct (NewRetryPolicy _ _); by injection E as <- <-.
Qed.

Lemma Run_leads hook sched w err w' :
  Run pf config hook sched w = Some (err, w') ->
  (err = None /\ exists x, w' = note EvIdle (set_x x w)) \/
  exists s, leads (first_stage config) s w w' /\ (err = None -> settled s).
Proof.
  unfold Run. assert (Hstop : forall e w1, w_trace w1 = w_trace w -> Some (Some e, w1) = Some (err, w') ->
    (err = None /\ exists x, w' = note EvIdle (set_x x w)) \/
    exists s, leads (first_stage config) s w w' /\ (err = None -> settled s)).
  { intros e w1 Et [= <- <-]. right. exists (first_stage config). split; [by apply leads_refl | done]. }
  destruct (validatePaths pf config (w_x w)); [by apply Hstop|].
  destruct (SelectRecipe pf _ _) as [[r|e] x]; [|by apply Hstop].
  destruct (verifyGateExists _ _) as [[e|] x1]; [by apply Hstop|].
  destruct (match cf_DispatchedTask config with Some _ => _ | None => _ end) as [next|e]; [|by apply Hstop].
  destruct (rc_ResultSink r config) as [publish|e]; [|by apply Hstop].
  destruct (next (w_fs w) x1) as [[[task|]|e] x2]; [| |by apply Hstop].
  2:{ intros [= <- <-]. left. split; [done|]. by exists x2. }
  destruct (match rc_GateFactory r with Some f => f x2 | None => _ end) as [verifier x3].
  destruct (buildRetryPolicyAndRouter pf _ config _) as [built w1] eqn:Eb. assert (Et := Eb). apply built_trace in Et.
  destruct built as [[policy ex]|e]; [|by apply Hstop].
  apply built_routed in Eb as [Hr Hh]. intros (s & Hs & Hn)%wired_leads; [|done|by eexists].
  right. exists s. split; [|done]. eapply leads_trans; [by apply (leads_refl _ w w1) | done].
Qed.
End Protocol.

(** ** What the protocol guarantees *)

Definition is_publish (ev : RunEvent) : bool := match ev with EvPublish _ _ => true | _ => false end.
Definition is_audit (ev : RunEvent) : bool := match ev with EvAudited _ => true | _ => false end.
Definition starts_work (ev : RunEvent) : bool :=
  match ev with EvBox _ _ | EvAttempt _ _ _ | EvVerified _ | EvPublish _ _ => true | _ => false end.

(** The stages a publication leads to. *)
Definition over (s : Stage) : bool := match s with Published _ | GaveUp => true | _ => false end.

Lemma advance_over s ev s' : over s = true -> advance s ev = Some s' -> over s' = true /\ is_publish ev = false.
Proof. intros Ho. destruct s; try done; destruct ev; simpl; intros; simplify_eq; go_cases; done. Qed.

Lemma follow_over s evs s' : over s = true -> follow s evs = Some s' -> over s' = true /\ Forall (fun ev => is_publish ev = false) evs.
Proof.
  revert s. induction evs as [|ev evs IH]; intros s Ho E; simpl in E; [by simplify_eq|].
  destruct (advance s ev) as [s1|] eqn:Ea; [|done]. apply advance_over in Ea as [Ho1 Hp]; [|done].
  apply IH in E as [? ?]; [|done]. split; [done|]. by constructor.
Qed.

(** Before a stage that is not over, nothing was published. *)
Lemma follow_unpublished s evs s' : follow s evs = Some s' -> over s' = false -> Forall (fun ev => is_publish ev = false) evs.
Proof.
  revert s. induction evs as [|ev evs IH]; intros s E Ho; simpl in E; [constructor|].
  destruct (advance s ev) as [s1|] eqn:Ea; [|done]. constructor; [|by eapply IH].
  destruct (is_publish ev) eqn:Ep; [|done]. destruct ev; try done. exfalso.
  assert (Ho1 : over s1 = true) by (simpl in Ea; destruct s; try done; go_cases; done).
  apply follow_over in E as [E _]; [|done]. congruence.
Qed.

(** How the last stages were reached. *)
Lemma follow_produced s evs b :
  follow s evs = Some (Produced b) -> (exists b', s = Produced b') \/
  exists pre entry t r audits, evs = pre ++ EvAttempt entry t (Ok r) :: audits /\
    res_OK r = true /\ res_Branch r = b /\ Forall (fun ev => is_audit ev = true) audits.
Proof.
  revert b. induction evs as [|ev evs IH] using rev_ind; intros b E; simpl in E; [left; exists b; by simplify_eq|].
  rewrite follow_app in E. destruct (follow s evs) as [s1|] eqn:E1; [|done]. simpl in E.
  destruct (advance s1 ev) as [s2|] eqn:Ea; [|done]. injection E as ->.
  destruct ev; simpl in Ea; destruct s1; simplify_eq; go_cases.
  - right. eexists evs, _, _, _, []. by split_and!.
  - destruct (IH _ eq_refl) as [?|(pre & en & t & r & au & -> & ? & ? & Hf)]; [by left|]. right.
    exists pre, en, t, r, (au ++ [EvAudited ev]). rewrite <- app_assoc. split_and!; [done..|].
    rewrite Forall_app. split; [done | by repeat constructor].
Qed.

Lemma follow_passed s evs b :
  follow s evs = Some (Passed b) -> (exists b', s = Produced b' \/ s = Passed b') \/
  exists pre entry t r au1 v au2, evs = pre ++ EvAttempt entry t (Ok r) :: au1 ++ EvVerified v :: au2 /\
    res_OK r = true /\ res_Branch r = b /\ v_OK v = true /\ Forall (fun ev => is_audit ev = true) (au1 ++ au2).
Proof.
  revert b. induction evs as [|ev evs IH] using rev_ind; intros b E; simpl in E; [left; exists b; simplify_eq; by right|].
  rewrite follow_app in E. destruct (follow s evs) as [s1|] eqn:E1; [|done]. simpl in E.
  destruct (advance s1 ev) as [s2|] eqn:Ea; [|done]. injection E as ->.
  destruct ev; simpl in Ea; destruct s1; simplify_eq; go_cases.
  - apply follow_produced in E1 as [[b' ->]|(pre & en & t & r & au & -> & ? & ? & Hf)]; [left; exists b'; by left|]. right.
    eexists pre, en, t, r, au, v, []. rewrite app_nil_r, <- app_assoc. by split_and!.
  - destruct (IH _ eq_refl) as [?|(pre & en & t & r & au1 & v & au2 & -> & ? & ? & ? & Hf)]; [by left|]. right.
    exists pre, en, t, r, au1, v, (au2 ++ [EvAudited ev]).
    split_and!; [|done..|rewrite app_assoc, Forall_app; split; [done | by repeat constructor]].
    by rewrite <- !app_assoc, <- !app_comm_cons, <- !app_assoc.
Qed.

(** Work starts only after an allow. *)
Lemma follow_decided evs s ev :
  follow Deciding evs = Some s -> ev ∈ evs -> starts_work ev = true ->
  exists o, EvDecision o ∈ evs /\ go_allowed o = true.
Proof.
  intros E Hin Hw. assert (Hd : forall st, follow st evs = Some s -> after_policy st = false ->
     exists o, EvDecision o ∈ evs /\ go_allowed o = true); [|by eapply Hd].
  clear E. revert Hin. induction evs as [|e evs IH]; intros Hin st E Ha; [by apply not_elem_of_nil in Hin|]. simpl in E.
  destruct (advance st e) as [s1|] eqn:Ea; [|done]. destruct (after_policy s1) eqn:Ea1.
  - destruct e; simpl in Ea; destruct st; simplify_eq; try done; go_cases; try done. exists o. split; [left | done].
  - apply elem_of_cons in Hin as [<-|Hin]; [destruct ev; try done; simpl in Ea; by destruct st|].
    destruct (IH Hin _ E Ea1) as (o & ? & ?). exists o. split; [by right | done].
Qed.

(** C11. Under every schedule of loop, cancellation and timer, the observable events
    of a worker run are a path of the protocol automaton: policy decision before
    anything else when a policy engine is configured, then box creation, then
    attempts each followed by its verdict and its audit events, at most one
    publication, and the escalation; a run that returns without an error had no
    task, published its branch, or was halted at the policy gate. *)
Theorem every_run_follows_the_protocol {X} (pf : Platform X) config hook sched w err w' :
  Run pf config hook sched w = Some (err, w') ->
  exists evs s, w_trace w' = w_trace w ++ evs /\ follow (first_stage config) evs = Some s /\
    (err = None -> evs = [EvIdle] \/ settled s).
Proof.
  intros [[-> [x ->]]|(s & (evs & Et & Ef) & Hn)]%Run_leads.
  - exists [EvIdle], (first_stage config). split_and!; [done | | by left].
    unfold first_stage. by destruct (String.eqb _ _).
  - exists evs, s. split_and!; [done..|]. intros He. right. auto.
Qed.

(** A run that is allowed, fails its gate once, and publishes. *)
Local Notation demo_run := (Run (demo_platform "allow") (demo_config "pb" None) None demo_turns (demo_world ∅)).
Local Notation demo_req := (mkPublishRequest (mkTask "042" "repo" "spec" "") "tree" "task/042" "origin").

Lemma every_run_follows_the_protocol_witness :
  exists w' evs, demo_run = Some (None, w') /\ w_trace w' = evs /\ length evs = 8%nat /\
    exists s, follow (first_stage (demo_config "pb" None)) evs = Some s /\ s = Published "task/042".
Proof.
  assert (L : ((fun r => (fst r, length (w_trace (snd r)))) <$> demo_run) = Some (None, 8%nat)) by (vm_compute; reflexivity).
  assert (S : (demo_run ≫= fun r => follow (first_stage (demo_config "pb" None)) (w_trace (snd r))) = Some (Published "task/042"))
    by (vm_compute; reflexivity).
  destruct demo_run as [[err w']|] eqn:E; [|discriminate L]. simpl in L, S. injection L as -> L.
  destruct (every_run_follows_the_protocol _ _ _ _ _ _ _ E) as (evs & s & Et & Ef & _). simpl in Et.
  exists w', (w_trace w'). split_and!; [reflexivity | reflexivity | exact L |]. exists s. rewrite Et in *. split; [exact Ef|].
  rewrite Ef in S. by injection S.
Defined.

(** C12. A branch is published only directly after an attempt that succeeded on that
    branch and a gate verdict of pass on it, with only audit events in between; when
    a policy engine is configured it allowed the run; and at most one publication is
    made per run. *)
Theorem nothing_is_published_but_verified_work {X} (pf : Platform X) config hook sched w err w' evs pre req ok post :
  Run pf config hook sched w = Some (err, w') -> w_trace w' = w_trace w ++ evs -> evs = pre ++ EvPublish req ok :: post ->
  (exists pre1 entry t r au1 v au2, pre = pre1 ++ EvAttempt entry t (Ok r) :: au1 ++ EvVerified v :: au2 /\
     res_OK r = true /\ res_Branch r = pq_Branch req /\ v_OK v = true /\ Forall (fun ev => is_audit ev = true) (au1 ++ au2)) /\
  (cf_PolicyBin config <> "" -> exists o, EvDecision o ∈ evs /\ go_allowed o = true) /\
  Forall (fun ev => is_publish ev = false) (pre ++ post).
Proof.
  intros HR Et ->.
  assert (H : exists s, follow (first_stage config) (pre ++ EvPublish req ok :: post) = Some s).
  { apply Run_leads in HR as [[-> [x ->]]|(s & (evs & Et' & Ef) & _)].
    - exfalso. apply app_inv_head in Et. destruct pre as [|? [|]]; discriminate Et.
    - rewrite Et in Et'. apply app_inv_head in Et' as ->. by exists s. }
  destruct H as [s Hs]. rewrite follow_app in Hs. destruct (follow (first_stage config) pre) as [s1|] eqn:E1; [|done].
  cbn [follow] in Hs. destruct (advance s1 (EvPublish req ok)) as [s2|] eqn:Ea; [|done]. simpl in Ea.
  destruct s1; try done. destruct (String.eqb_spec (pq_Branch req) branch) as [Hb|]; [|done]. injection Ea as <-.
  assert (Ho : over (if ok then Published branch else GaveUp) = true) by (by destruct ok).
  split_and!.
  - apply follow_passed in E1 as [[b [E|E]]|H].
    + unfold first_stage in E. by destruct (String.eqb _ _).
    + unfold first_stage in E. by destruct (String.eqb _ _).
    + by rewrite Hb.
  - intros Hp. unfold first_stage in E1. apply String.eqb_neq in Hp. rewrite Hp in E1.
    eapply (follow_decided _ s (EvPublish req ok)); [|set_solver|done].
    rewrite follow_app, E1. simpl. by rewrite Hb, String.eqb_refl.
  - apply follow_unpublished in E1; [|done]. apply follow_over in Hs as [_ Hp]; [|done]. by apply Forall_app.
Qed.

Lemma nothing_is_published_but_verified_work_witness :
  exists w' pre post, demo_run = Some (None, w') /\ w_trace w' = pre ++ EvPublish demo_req true :: post /\
    exists o, EvDecision o ∈ w_trace w' /\ go_allowed o = true.
Proof.
  assert (L : ((fun r => (fst r, drop 6 (w_trace (snd r)))) <$> demo_run) =
              Some (None, [EvPublish demo_req true; EvCompleted "042"])) by (vm_compute; reflexivity).
  destruct demo_run as [[err w']|] eqn:E; [|discriminate L]. simpl in L. injection L as -> L.
  assert (Et : w_trace w' = take 6 (w_trace w') ++ EvPublish demo_req true :: [EvCompleted "042"])
    by (rewrite <- L; symmetry; apply take_drop).
  destruct (nothing_is_published_but_verified_work _ _ _ _ _ _ _ (w_trace w') _ _ _ _ E eq_refl Et) as (_ & Hp & _).
  exists w', (take 6 (w_trace w')), [EvCompleted "042"]. split_and!; [reflexivity | exact Et |]. by apply Hp.
Defined.

(** ** Runs that stop at the policy gate *)

Section Halt.
Context {X : Type} (pf : Platform X) (config : Config) (hook : option (Task -> string -> X -> X)).
Local Notation World := (World X).

(** The status write of a halted run. *)
Definition halt_write (t : Task) (fs : FS) : result TSErr StatusWriteResult :=
  (WriteStatus (pf_write_fails pf) (Some (mkStatusWriter (cf_TaskRoot config) DefaultTaskDirs))
     (task_ID t) (WritableStatus_string WritableStatusNeedsHuman) fs).1.

(** What a run halted with [o] on [t] did and returned. *)
Definition halted (t : Task) (o : gateOutcome) (fs : FS) (err : option RunErr) (evs : list RunEvent) : Prop :=
  (err = None <-> is_ok (halt_write t fs) = true) /\
  ((exists t' reason, EvApprovalHook t' reason ∈ evs) <->
   is_ok (halt_write t fs) = true /\ hook <> None /\ go_policyDecision o = requireApprovalDecision) /\
  Forall (fun ev => starts_work ev = false) evs.

Lemma cleared_decides_nothing tier evs s o : follow (Cleared tier) evs = Some s -> EvDecision o ∉ evs.
Proof.
  assert (H : forall st, after_policy st = true -> follow st evs = Some s -> EvDecision o ∉ evs); [|by apply H].
  induction evs as [|ev evs IH]; intros st Ha E; [apply not_elem_of_nil|]. simpl in E.
  destruct (advance st ev) as [s1|] eqn:Ea; [|done]. apply not_elem_of_cons. split.
  - intros <-. by destruct st.
  - eapply IH; [|done]. destruct st; try done; destruct ev; simpl in Ea; simplify_eq; go_cases; done.
Qed.

Lemma decision_trace sink id o w :
  exists au, w_trace (maybeEmitPolicyDecision pf sink id o (note (EvDecision o) w)) = w_trace w ++ EvDecision o :: au /\
    Forall (fun ev => is_audit ev = true) au /\
    w_fs (maybeEmitPolicyDecision pf sink id o (note (EvDecision o) w)) = w_fs w.
Proof.
  unfold maybeEmitPolicyDecision, emitAudit. destruct (_ && _); [|destruct sink]; simpl; [by exists []| |by exists []].
  destruct (pf_append _ _ _) as [e x]. simpl. eexists [EvAudited _]. rewrite <- app_assoc. by repeat constructor.
Qed.

Lemma gated_halts task policy ex verifier publish sink wiring sched w err w' evs o :
  routed pf config ex -> (exists spec, rp_Escalate policy = Some (newRouterEscalationHook pf spec config)) ->
  run_gated pf config hook task policy ex verifier publish sink wiring sched w = Some (err, w') ->
  w_trace w' = w_trace w ++ evs -> EvDecision o ∈ evs -> go_allowed o = false -> halted task o (w_fs w) err evs.
Proof.
  intros Hr Hh E Et Hin Ho. unfold run_gated in E.
  assert (Hbox : forall tier wi l w1 pre, ValidTier tier = true -> w_trace w1 = w_trace w ++ pre ->
    (EvDecision o ∈ pre -> False) ->
    run_boxed pf config task policy ex verifier publish sink wi tier l sched w1 = Some (err, w') -> halted task o (w_fs w) err evs).
  { intros tier wi lm w1 pre Hv E1 Hp Eb. apply boxed_leads in Eb as (s & (evs1 & E2 & Ef) & _); [|done..]. exfalso.
    rewrite E1, Et, <- app_assoc in E2. apply app_inv_head in E2 as ->. apply elem_of_app in Hin as [?|Hin]; [auto|].
    by eapply cleared_decides_nothing. }
  destruct (String.eqb (cf_PolicyBin config) "").
  { eapply (Hbox "" wiring _ w []); [done | by rewrite app_nil_r | apply not_elem_of_nil | exact E]. }
  destruct (decideGate pf config task _ wiring (w_x w)) as [[[[o' wiring']|e] x]|] eqn:Ed; [| |done].
  2:{ injection E as <- <-. simpl in Et. exfalso. rewrite <- (app_nil_r (w_trace w)) in Et at 1.
      apply app_inv_head in Et as <-. by apply not_elem_of_nil in Hin. }
  destruct (decision_trace sink (task_ID task) o' (set_x x w)) as (au & E1 & Fa & Efs). simpl in E1, Efs.
  set (w1 := maybeEmitPolicyDecision pf sink _ o' _) in *.
  assert (Hau : forall ev, ev ∈ au -> is_audit ev = true) by (by apply Forall_forall).
  destruct (go_allowed o') eqn:Ea; cbn [negb] in E.
  { apply decideGate_allows in Ed as (Hv & _); [|done]. eapply Hbox; [exact Hv | exact E1 | | exact E].
    intros [Heq|Hi]%elem_of_cons; [congruence|]. by apply Hau in Hi. }
  unfold write_status in E. unfold halted, halt_write. rewrite Efs in E.
  destruct (WriteStatus _ _ _ _ (w_fs w)) as [r fs]. simpl.
  assert (Hw : forall ev, ev ∈ au -> starts_work ev = false /\ forall t rs, ev <> EvApprovalHook t rs).
  { intros ev Hi. apply Hau in Hi. by destruct ev. }
  destruct r as [res|e].
  2:{ injection E as <- <-. simpl in Et. rewrite E1, <- app_assoc in Et. apply app_inv_head in Et as <-. simpl. split_and!.
      - done.
      - split; [|naive_solver]. intros (t & rs & Hx). exfalso. set_unfold. naive_solver.
      - apply Forall_forall. intros ev. set_unfold. naive_solver. }
  cbn [is_ok] in E.
  assert (Hoo : o = o').
  { clear -E E1 Et Hin Hau. injection E as _ E. rewrite <- E in Et. simpl in Et. destruct hook as [f|]; [destruct (String.eqb _ _)|];
      simpl in Et; rewrite E1, <- ?app_assoc in Et; apply app_inv_head in Et as <-; set_unfold; naive_solver. }
  subst o'. injection E as <- <-. simpl in Et. unfold requireApprovalDecision in *.
  destruct hook as [f|]; [destruct (String.eqb_spec (go_policyDecision o) (PolicyDecision_string PolicyRequireApproval)) as [Eq|Eq]|];
    simpl in Et; rewrite E1, <- ?app_assoc in Et; apply app_inv_head in Et as <-; (split_and!; [done | | apply Forall_forall; intros ev; set_unfold; naive_solver]);
    (split; [intros (t & rs & Hx); set_unfold; naive_solver | intros (_ & Hk & Hd)]); try done.
  exists task, (go_reason o). set_solver.
Qed.

(** Nothing happened, so nothing was decided. *)
Lemma undecided (w : World) evs o : w_trace w = w_trace w ++ evs -> EvDecision o ∈ evs -> False.
Proof.
  intros E Hin. rewrite <- (app_nil_r (w_trace w)) in E at 1. apply app_inv_head in E as <-. by apply not_elem_of_nil in Hin.
Qed.

Lemma wired_halts task policy ex verifier publish sched w err w' evs o :
  routed pf config ex -> (exists spec, rp_Escalate policy = Some (newRouterEscalationHook pf spec config)) ->
  run_wired pf config hook task policy ex verifier publish sched w = Some (err, w') ->
  w_trace w' = w_trace w ++ evs -> EvDecision o ∈ evs -> go_allowed o = false -> halted task o (w_fs w) err evs.
Proof.
  intros Hr Hh E Et Hin Ho.
  assert (Ha : forall wiring w1 w2, w_trace w1 = w_trace w -> w_fs w1 = w_fs w -> w_trace w2 = w_trace w' ->
     run_audited pf config hook task policy ex verifier publish sched wiring w1 = Some (err, w2) -> halted task o (w_fs w) err evs).
  { intros wiring w1 w2 E1 Ef E2 Er. unfold run_audited in Er.
    destruct (if negb (String.eqb (cf_AuditRecordPath config) "") then _ else _) as [[e|] x].
    - injection Er as <- <-. simpl in E2. exfalso. rewrite <- E2, E1 in Et. by eapply undecided.
    - eapply gated_halts in Er; [|done | done | simpl; by rewrite E1, E2 | done | done]. simpl in Er. by rewrite Ef in Er. }
  unfold run_wired in E. destruct (String.eqb (cf_VaultBin config) ""); [by eapply Ha|].
  destruct (startVault pf config (w_x w)) as [[[[wiring daemon]|e] x]|]; [| |done].
  2:{ injection E as <- <-. exfalso. exact (undecided w evs o Et Hin). }
  destruct (run_audited _ _ _ _ _ _ _ _ _ _ _) as [[err0 w1]|] eqn:Er; [|done].
  destruct (Stop _ _ _) as [[] x1]. injection E as <- <-. eapply Ha; [| | |exact Er]; done.
Qed.
End Halt.

(** A run that the policy engine does not allow returns exactly the outcome of
    writing the needs-human status of its task: an error when the task file is
    missing (and then the approval hook is not called), and success otherwise,
    whether the decision was a denial or a request for approval; the hook is called
    only for the latter, and no box is created. *)
Theorem halted_run_returns_its_status_write {X} (pf : Platform X) config hook sched w err w' evs o :
  Run pf config hook sched w = Some (err, w') -> w_trace w' = w_trace w ++ evs ->
  EvDecision o ∈ evs -> go_allowed o = false ->
  exists t, (forall t', cf_DispatchedTask config = Some t' -> t = t') /\ halted pf config hook t o (w_fs w) err evs.
Proof.
  intros E Et Hin Ho. unfold Run in E.
  assert (Hno : forall w1 : World X, w_trace w1 = w_trace w -> w_trace w' = w_trace w1 -> False).
  { intros w1 E1 E2. rewrite E2, E1 in Et. exact (undecided w evs o Et Hin). }
  destruct (validatePaths pf config (w_x w)); [injection E as <- <-; exfalso; by eapply Hno|].
  destruct (SelectRecipe pf _ _) as [[r|e] x]; [|injection E as <- <-; exfalso; by eapply Hno].
  destruct (verifyGateExists _ _) as [[e|] x1]; [injection E as <- <-; exfalso; by eapply Hno|].
  destruct (match cf_DispatchedTask config with Some _ => _ | None => _ end) as [next|e] eqn:En;
    [|injection E as <- <-; exfalso; by eapply Hno].
  destruct (rc_ResultSink r config) as [publish|e]; [|injection E as <- <-; exfalso; by eapply Hno].
  destruct (next (w_fs w) x1) as [[[task|]|e] x2] eqn:Ex; [| |injection E as <- <-; exfalso; by eapply Hno].
  2:{ injection E as <- <-. simpl in Et. apply app_inv_head in Et as <-. exfalso. set_unfold. naive_solver. }
  destruct (match rc_GateFactory r with Some f => f x2 | None => _ end) as [verifier x3].
  destruct (buildRetryPolicyAndRouter pf _ config _) as [built w1] eqn:Eb. assert (Et1 := built_trace _ _ _ _ _ _ Eb).
  destruct built as [[policy ex]|e]; [|injection E as <- <-; exfalso; by eapply Hno].
  assert (Ef : w_fs w1 = w_fs w).
  { clear -Eb. unfold buildRetryPolicyAndRouter, resolveExecutor in Eb. destruct (buildCatalog pf); [|done].
    destruct (if String.eqb (cf_RouterStatePath config) "" then _ else _) as [[] rt]; [done|].
    destruct (Select _ _ _) as [[entry|e] r1]; [|done]. destruct (buildExecutorForEntry pf entry config _); [|done].
    destruct (NewRetryPolicy _ _); by simplify_eq. }
  apply built_routed in Eb as [Hr Hh]. exists task. split.
  - intros t' Ht. rewrite Ht in En. injection En as <-. by injection Ex as <-.
  - rewrite <- Ef. eapply wired_halts; [done | by eexists | exact E | by rewrite Et1 | done | done].
Qed.

(** An approval is asked for on a dispatched goal, which has no task file: the run
    fails and the hook is not called. With the file a denial is no error. *)
Local Notation demo_halt answer files :=
  (Run (demo_platform answer) (demo_config "pb" (Some (mkTask "042" "" "" ""))) (Some (fun _ _ x => x)) [] (demo_world files)).

Lemma halted_run_returns_its_status_write_witness :
  (exists w' e, demo_halt "require_approval" ∅ = Some (Some e, w') /\
     forall t reason, EvApprovalHook t reason ∉ w_trace w') /\
  (fst <$> demo_halt "deny" demo_file) = Some None.
Proof.
  split; [|vm_compute; reflexivity].
  assert (L : ((fun r => (match fst r with None => true | _ => false end,
              existsb (fun ev => match ev with EvDecision o => negb (go_allowed o) | _ => false end) (w_trace (snd r))))
              <$> demo_halt "require_approval" ∅) = Some (false, true)) by (vm_compute; reflexivity).
  assert (K : is_ok (halt_write (demo_platform "require_approval") (demo_config "pb" (Some (mkTask "042" "" "" "")))
                (mkTask "042" "" "" "") (w_fs (demo_world ∅))) = false) by (vm_compute; reflexivity).
  destruct (demo_halt "require_approval" ∅) as [[err w']|] eqn:E; [|discriminate L]. simpl in L. injection L as L1 L2.
  destruct err as [e|]; [|discriminate L1]. exists w', e. split; [reflexivity|]. intros t reason Hin.
  apply existsb_exists in L2 as (ev & Hev%list_elem_of_In & Hd). destruct ev as [o| | | | | | | | | | |]; try discriminate Hd.
  destruct (halted_run_returns_its_status_write _ _ _ _ _ _ _ (w_trace w') o E eq_refl Hev (proj1 (negb_true_iff _) Hd))
    as (t0 & Ht & _ & Hh & _).
  rewrite (Ht _ eq_refl), K in Hh. destruct (proj1 Hh (ex_intro _ t (ex_intro _ reason Hin))) as [Hk _]. discriminate Hk.
Defined.
