(* ===== verification/RunLadder.v ===== *)
(** * The executors of a run

    The entries of the registry that [Run] of [internal/runtime/run.go] moves
    through: [resolveExecutor], [dispatchRecordingExecutor] and the escalation
    hook of [newRouterEscalationHook], under every schedule of the supervisor. *)

From stdpp Require Import base gmap strings list.
From Stdlib Require Import ZArith Lia Ascii.
From S2P Require Import Prelude GoStrings Seams Gate TaskSource GateSteps Loop Registry Router.
From S2P Require Import Policy AuditTrail Supervisor Publisher RunConfig Vault Runtime RunProtocol.

Local Open Scope Z_scope.

(** ** The entries a run moves through *)

(** The entries attempted, in order. *)
Definition entries (evs : list RunEvent) : list string :=
  omap (fun ev => match ev with EvAttempt id _ _ => Some id | _ => None end) evs.

(** The same entry is only tried again while no other was tried in between. *)
Definition never_goes_back (ids : list string) : Prop :=
  forall l1 id l2 l3, ids = l1 ++ id :: l2 ++ id :: l3 -> Forall (eq id) l2.

(** Each attempt is on the current entry; a move goes to an entry that has not
    failed. *)
Inductive climbs : gset string -> string -> list string -> Prop :=
| climbs_end F c : climbs F c []
| climbs_try F c c' ids : (c' = c \/ c' ∉ {[c]} ∪ F) -> climbs ({[c]} ∪ F) c' ids -> climbs F c (c :: ids).

Lemma climbs_fresh F c ids id : climbs F c ids -> id ∈ ids -> id = c \/ id ∉ F.
Proof.
  induction 1 as [|F c c' ids Hm Hc IH]; [by intros ?%not_elem_of_nil|].
  intros [->|Hin]%elem_of_cons; [by left|]. destruct (IH Hin) as [->|Hn]; [|set_solver].
  destruct Hm as [->|Hn]; [by left | set_solver].
Qed.

Lemma climbs_never_goes_back F c ids : climbs F c ids -> never_goes_back ids.
Proof.
  induction 1 as [|F c c' ids Hm Hc IH]; intros l1 id l2 l3 E; [by destruct l1|].
  destruct l1 as [|x l1]; [|injection E as -> ->; by eapply IH].
  injection E as <- ->. destruct Hm as [->|Hn].
  - destruct l2 as [|y l2]; [constructor|]. inversion Hc; subst. constructor; [done|]. by eapply (IH []).
  - exfalso. destruct (climbs_fresh _ _ _ c Hc) as [->|Hf]; [set_solver..].
Qed.

Lemma entries_app evs evs' : entries (evs ++ evs') = entries evs ++ entries evs'.
Proof. apply omap_app. Qed.

Section Ladder.
Context {X : Type} (pf : Platform X) (config : Config).
Local Notation World := (World X).

(** From one world to a later one, these entries were tried. *)
Definition tries (ids : list string) (w w' : World) : Prop :=
  exists evs, w_trace w' = w_trace w ++ evs /\ entries evs = ids.

Lemma tries_none w w' : w_trace w' = w_trace w -> tries [] w w'.
Proof. intros E. exists []. by rewrite app_nil_r. Qed.

Lemma tries_note ev w w1 : w_trace w1 = w_trace w -> tries (entries [ev]) w (note ev w1).
Proof. intros E. exists [ev]. simpl. by rewrite E. Qed.

Lemma tries_trans ids ids' w w1 w2 : tries ids w w1 -> tries ids' w1 w2 -> tries (ids ++ ids') w w2.
Proof.
  intros (a & Ea & <-) (b & Eb & <-). exists (a ++ b). by rewrite Eb, Ea, app_assoc, entries_app.
Qed.

Lemma RecordDispatch_keeps id now (r : Router Catalog) :
  wf r -> wf (RecordDispatch id now r) /\ rt_escalated (RecordDispatch id now r) = rt_escalated r.
Proof.
  intros W. unfold RecordDispatch. destruct (cl_lookup _ _); [|done]. destruct (IsUnlimited _); [done|].
  split; [by apply update_wf | done].
Qed.

Context (spec : RecipeSpec) (g : GateObj X) (l : @RetryingLoop World).
Hypothesis l_gate : rl_gate l = gate_fn g.
Hypothesis l_status : rl_statusWriter l = status_fn pf config.
Hypothesis l_hook : rl_Escalate l = newRouterEscalationHook pf spec config.
Local Notation quote := (pf_quote pf).

Lemma mark_tries task n last w res w' : markNeedsHuman l task n last w = (res, w') -> tries [] w w'.
Proof.
  unfold markNeedsHuman. rewrite l_status. unfold status_fn, write_status.
  destruct (WriteStatus _ _ _ _ _) as [r fs]. destruct r; intros [= <- <-]; by apply tries_note.
Qed.

(** One cycle tries its entry once. *)
Lemma cycle_tries task id sp cycle w o err w' :
  NewLoop (Some (singleTaskSource task)) (Some (recordDispatchWrap pf config id sp)) (Some (rl_gate l)) (rl_worktreePath l)
    = Ok cycle ->
  RunOnce cycle w = (o, err, w') -> wf (w_router w) ->
  tries [id] w w' /\ w_entry w' = w_entry w /\ wf (w_router w') /\ rt_escalated (w_router w') = rt_escalated (w_router w).
Proof.
  intros Hn E W. unfold NewLoop in Hn. destruct (blank _); [done|]. injection Hn as <-.
  unfold RunOnce, recordDispatchWrap in E. simpl in E. destruct (pf_exec pf config sp _ task _) as [r x].
  destruct (RecordDispatch_keeps id (pf_now pf (w_x w) 0) (w_router w) W) as [W' Ee].
  set (w1 := note (EvAttempt id task r) _) in E.
  assert (H1 : tries [id] w w1) by (by apply (tries_note (EvAttempt id task r))).
  destruct r as [r|e]; [|by injection E as <- <- <-]. destruct (res_OK r); simpl in E; [|by injection E as <- <- <-].
  rewrite l_gate in E. unfold gate_fn in E. destruct (g_Verify g _ _) as [v y].
  assert (H2 : tries [id] w (note (EvVerified v) (set_x y w1))).
  { change [id] with ([id] ++ entries [EvVerified v]). eapply tries_trans; [done | by apply tries_note]. }
  destruct (v_OK v); by injection E as <- <- <-.
Qed.

(** The hook stays, or moves to an entry that has not failed in this dispatch. *)
Lemma hook_moves req w next w' :
  newRouterEscalationHook pf spec config req w = (next, w') -> wf (w_router w) ->
  w_trace w' = w_trace w /\ wf (w_router w') /\ rt_escalated (w_router w') = {[w_entry w]} ∪ rt_escalated (w_router w) /\
  forall ex, next = Ok (Some ex) ->
    ex = er_CurrentExecutor req /\ w_entry w' = w_entry w \/
    exists sp, ex = recordDispatchWrap pf config (w_entry w') sp /\
      w_entry w' ∉ {[w_entry w]} ∪ rt_escalated (w_router w).
Proof.
  intros E W. unfold newRouterEscalationHook in E.
  pose proof (Select_spec (toRouterSpec spec) (pf_now pf (w_x w)) (OnGateFailure (w_entry w) (w_router w)) W) as S.
  destruct (Select _ _ _) as [sel r]. destruct S as (W' & Ee & _ & _ & S).
  destruct sel as [e|err].
  - destruct S as (_ & El & _). unfold eligible in El. to_prop.
    destruct (buildExecutorForEntry pf e config _) as [sp|er]; injection E as <- <-; split_and!; try done.
    intros ex [= <-]. right. by exists sp.
  - destruct S as [-> _]. injection E as <- <-. split_and!; try done. intros ex [= <-]. by left.
Qed.

Lemma attempts_climb n attempt task id sp last w res w' :
  wf (w_router w) -> w_entry w = id ->
  attempts_loop quote l n attempt task (recordDispatchWrap pf config id sp) last w = (res, w') ->
  exists ids, tries ids w w' /\ climbs (rt_escalated (w_router w)) id ids /\ (length ids <= n)%nat.
Proof.
  revert attempt task id sp last w. induction n as [|n IH]; intros attempt task id sp last w W En E; cbn [attempts_loop] in E.
  { apply mark_tries in E. exists []. split_and!; [done | constructor | simpl; lia]. }
  destruct (NewLoop _ _ _ _) as [cycle|e] eqn:Ec.
  2:{ injection E as <- <-. exists []. split_and!; [by apply tries_none | constructor | simpl; lia]. }
  destruct (RunOnce cycle w) as [[o err] w1] eqn:Eo. eapply cycle_tries in Eo as (T1 & En1 & W1 & Ee1); [|done..].
  assert (Hone : forall w2, tries [] w1 w2 -> exists ids, tries ids w w2 /\ climbs (rt_escalated (w_router w)) id ids /\
            (length ids <= S n)%nat).
  { intros w2 T2. exists [id]. split_and!; [|by eapply climbs_try; [left; reflexivity | constructor] | simpl; lia].
    change [id] with ([id] ++ []). by eapply tries_trans. }
  destruct err; [injection E as <- <-; apply Hone; by apply tries_none|].
  destruct (out_Kind o); try (injection E as <- <-; apply Hone; by apply tries_none).
  destruct (attempt =? rl_MaxAttempts l); [apply mark_tries in E; by apply Hone|].
  rewrite l_hook in E. destruct (newRouterEscalationHook pf spec config _ w1) as [next w2] eqn:Eh.
  apply hook_moves in Eh as (Et & W2 & Ee2 & Hx); [|done]. rewrite En1, En in *.
  destruct next as [[ex|]|e]; [|injection E as <- <-; apply Hone; by apply tries_none..].
  assert (Hnext : exists sp', ex = recordDispatchWrap pf config (w_entry w2) sp' /\
            (w_entry w2 = id \/ w_entry w2 ∉ {[id]} ∪ rt_escalated (w_router w1))).
  { destruct (Hx ex eq_refl) as [[-> ->]|(sp' & -> & Hn)]; [exists sp; by split; [|left] | exists sp'; by split; [|right]]. }
  destruct Hnext as (sp' & -> & Hm).
  eapply IH in E as (ids & T & Hc & Hl); [|done..]. rewrite Ee2 in Hc. rewrite Ee1 in Hm, Hc.
  exists (id :: ids). split_and!; [|by eapply climbs_try | simpl; lia].
  change (id :: ids) with ([id] ++ ids). eapply tries_trans; [done|].
  change ids with ([] ++ ids). eapply tries_trans; [by apply tries_none | done].
Qed.
End Ladder.

Section RunLadder.
Context {X : Type} (pf : Platform X) (config : Config).
Local Notation World := (World X).

(** From a world with this router and entry, a run climbs from its entry. *)
Definition climbs_from (w w' : World) : Prop :=
  exists ids, tries ids w w' /\ climbs (rt_escalated (w_router w)) (w_entry w) ids /\
    Z.of_nat (length ids) <= Z.max 0 (cf_MaxAttempts config).

(** Nothing tried, and the router and the entry as they were. *)
Definition still (w w' : World) : Prop := tries [] w w' /\ w_router w' = w_router w /\ w_entry w' = w_entry w.

Lemma still_refl w w' : w_trace w' = w_trace w -> w_router w' = w_router w -> w_entry w' = w_entry w -> still w w'.
Proof. intros. split_and!; [by apply tries_none | done..]. Qed.

Lemma still_trans w w1 w2 : still w w1 -> still w1 w2 -> still w w2.
Proof. intros (? & E1 & E2) (? & ? & ?). split_and!; [by apply (tries_trans [] [] _ w1) | congruence..]. Qed.

Lemma climbs_after w w1 w2 : still w w1 -> climbs_from w1 w2 -> climbs_from w w2.
Proof.
  intros (T & Er & Ee) (ids & T2 & Hc & Hl). exists ids. rewrite <- Er, <- Ee. split_and!; [|done..].
  by apply (tries_trans [] ids _ w1).
Qed.

Lemma climbs_before w w1 w2 : climbs_from w w1 -> tries [] w1 w2 -> climbs_from w w2.
Proof.
  intros (ids & T & ? & ?) T2. exists ids. split_and!; [|done..]. rewrite <- (app_nil_r ids). by eapply tries_trans.
Qed.

Lemma climbs_none w w' : tries [] w w' -> climbs_from w w'.
Proof. intros T. exists []. split_and!; [done | constructor | simpl; lia]. Qed.

Lemma still_tries w w' : still w w' -> tries [] w w'.
Proof. by intros []. Qed.

Lemma record_still record kind field text w : still w (write_record pf record kind field text w).
Proof.
  unfold write_record. destruct record; [|by apply still_refl]. destruct (writeStream _ _ _ _ _ _). by apply still_refl.
Qed.

Lemma note_still ev w w1 : still w w1 -> entries [ev] = [] -> still w (note ev w1).
Proof.
  intros H E. eapply still_trans; [done|]. split_and!; [rewrite <- E; by apply tries_note | done..].
Qed.

Lemma emit_still sink ev w : still w (emitAudit pf sink ev w).
Proof.
  unfold emitAudit. destruct sink; [|by apply still_refl]. destruct (pf_append _ _ _).
  apply note_still; [by apply still_refl | done].
Qed.

Lemma project_still l record sink run task outcome w sts : still w (foldl (project_state pf l record sink run task outcome) w sts).
Proof.
  revert w. induction sts as [|st sts IH]; intros w; simpl; [by apply still_refl|]. eapply still_trans; [|apply IH].
  destruct st; simpl; try (by apply still_refl); (eapply still_trans; [apply record_still | apply emit_still]).
Qed.

Lemma publish_still l record sink run task outcome w err w' :
  publish_branch pf l record sink run task outcome w = (err, w') -> still w w'.
Proof.
  unfold publish_branch, writeStdout, writeCommand, writeStderr. intros E. set (ev := mkEvent ActionPublish _ _ _ _ _) in E.
  match type of E with context [emitAudit pf sink ev ?w0] => assert (H1 : still w (emitAudit pf sink ev w0)) end.
  { repeat (eapply still_trans; [|apply emit_still]). repeat (eapply still_trans; [|apply record_still]). by apply still_refl. }
  destruct (ib_publisher l) as [publish|]; [|by injection E as <- <-].
  destruct (publish _ _) as [[result|e] x]; injection E as <- <-; repeat (eapply still_trans; [|apply emit_still]);
    repeat (eapply still_trans; [|apply record_still]); (apply note_still; [|done]); (eapply still_trans; [exact H1|]);
    by apply still_refl.
Qed.

(** The loops [Run] builds, on the current entry of the world. *)
Definition on_entry (l : @retryingInBoxLoop X) (w : World) : Prop :=
  wf (w_router w) /\ (exists sp, ib_executor l = recordDispatchWrap pf config (w_entry w) sp) /\ ib_config l = config /\
  rp_MaxAttempts (ib_policy l) = cf_MaxAttempts config /\
  exists spec, rp_Escalate (ib_policy l) = Some (newRouterEscalationHook pf spec config).

Lemma inside_climbs l record sink h task w err w' :
  on_entry l w -> RunInside pf l record sink h task w = (err, w') -> climbs_from w w'.
Proof.
  intros (W & (sp & Hx) & Hc & Hm & spec & Hh). unfold RunInside.
  match goal with |- context [Retry_RunOnce _ _ ?w0] => set (w0' := w0) end.
  assert (H0 : still w w0').
  { unfold w0', writeStdout, writeCommand. repeat (eapply still_trans; [|first [apply record_still | apply emit_still]]).
    by apply still_refl. }
  assert (Hstop : forall e, (Some (RErrLoop e), w0') = (err, w') -> climbs_from w w').
  { intros e [= <- <-]. by apply climbs_none, still_tries. }
  unfold NewRetryingLoop, validateRetryPolicy. rewrite Hh.
  destruct (rp_MaxAttempts (ib_policy l) <? 0); [apply Hstop|].
  destruct (ib_gate l) as [g|]; [|apply Hstop]. cbn [fmap option_fmap option_map NewLoop].
  destruct (blank (ib_worktree l)); [apply Hstop|]. cbn [lp_source lp_executor lp_gate].
  match goal with |- context [Retry_RunOnce _ ?runner w0'] => set (r := runner) end.
  destruct (Retry_RunOnce (pf_quote pf) r w0') as [res w1] eqn:Er.
  assert (H1 : climbs_from w w1).
  { unfold Retry_RunOnce in Er. simpl in Er. destruct H0 as (T0 & Er0 & Ee0). rewrite Hm in Er.
    destruct (cf_MaxAttempts config =? 0).
    - apply (mark_tries pf config r) in Er; [|by unfold r; rewrite Hc].
      apply climbs_none. by apply (tries_trans [] [] _ w0').
    - rewrite Hx in Er. eapply (attempts_climb pf config spec g r) in Er as (ids & T & Hcl & Hl);
        [|done | by unfold r; rewrite Hc | done | by rewrite Er0 | done].
      exists ids. rewrite Er0 in Hcl. split_and!; [by apply (tries_trans [] ids _ w0') | done | lia]. }
  destruct res as [ro|e]; [|by intros [= <- <-]]. destruct (ro_Kind ro).
  - intros [= <- <-]. eapply climbs_before; [done|]. apply still_tries. eapply still_trans; [apply project_still|].
    apply record_still.
  - intros Hp%publish_still. eapply climbs_before; [done|]. apply still_tries. eapply still_trans; [apply project_still | done].
  - intros [= <- <-]. eapply climbs_before; [done|]. apply still_tries. eapply still_trans; [apply project_still|].
    unfold writeFailureEvidence, writeStderr. repeat (eapply still_trans; [|apply emit_still]).
    eapply still_trans; [|apply record_still].
    repeat case_match; repeat (eapply still_trans; [|apply record_still]); by apply still_refl.
Qed.

(** ** From the box to the run *)

(** Where the loop's status leaves the world. *)
Definition ladder_stage (w : World) (st : @LoopStatus (BoxHandle * Task)) (w1 : World) : Prop :=
  match st with LoopRunning _ => still w w1 | _ => climbs_from w w1 end.

Lemma supervised_climbs task policy spec sp verifier publish sink wiring tier limits cs sched w runErr w' :
  wf (w_router w) -> rp_MaxAttempts policy = cf_MaxAttempts config ->
  rp_Escalate policy = Some (newRouterEscalationHook pf spec config) ->
  supervise pf config task policy (recordDispatchWrap pf config (w_entry w) sp) verifier publish sink wiring tier limits cs
    sched w = Some (runErr, w') -> climbs_from w w'.
Proof.
  intros W Hm Hh E.
  assert (Hcreate : forall h w1, created pf config task wiring tier limits w = (h, w1) -> still w w1).
  { intros h w1. unfold created. simpl. destruct (pf_runner pf _ _) as [r y]. intros [= <- <-].
    apply note_still; [by apply still_refl | done]. }
  apply (supervise_world pf config (ladder_stage w)) in E.
  - destruct E as [[_ [->|[er Her]]]|([l0|er|] & Hst & _)]; simpl in *; [| | |done|done].
    + by apply climbs_none, tries_none.
    + apply Hcreate in Her. by apply climbs_none, still_tries.
    + by apply climbs_none, still_tries.
  - intros [] w1 x H; simpl in *; [eapply still_trans; [done | by apply still_refl]|
      eapply climbs_before; [done | by apply tries_none]..].
  - intros h w1 Hc. by apply Hcreate in Hc.
  - intros record h t c w1 ierr w2 (T & Er & Ee) Ei. apply inside_climbs in Ei.
    + eapply climbs_after; [|exact Ei]. by split_and!.
    + split_and!; simpl; [by rewrite Er | exists sp; by rewrite Ee | done | done | by exists spec].
Qed.

Lemma boxed_climbs task policy spec sp verifier publish sink wiring tier limits sched w err w' :
  wf (w_router w) -> rp_MaxAttempts policy = cf_MaxAttempts config ->
  rp_Escalate policy = Some (newRouterEscalationHook pf spec config) ->
  run_boxed pf config task policy (recordDispatchWrap pf config (w_entry w) sp) verifier publish sink wiring tier limits
    sched w = Some (err, w') -> climbs_from w w'.
Proof.
  intros W Hm Hh. unfold run_boxed. destruct (newCheckpointSigner pf config (w_x w)) as [[cs|e] x].
  2:{ intros [= <- <-]. by apply climbs_none, tries_none. }
  change (w_entry w) with (w_entry (set_x x w)).
  destruct (supervise pf _ _ _ _ _ _ _ _ _ _ _ _ _) as [[runErr w1]|] eqn:E; [|done].
  apply (supervised_climbs task policy spec) in E; [|done..].
  assert (Hrun : climbs_from w w1) by (eapply climbs_after; [|exact E]; by apply still_refl).
  destruct (String.eqb (cf_RouterStatePath config) "").
  - destruct runErr; intros [= <- <-]; [|done]. eapply climbs_before; [done|]. by apply (tries_note (EvCompleted _)).
  - destruct (SaveState _ _ _ _ _) as [serr files]. set (w3 := note (EvQuotaSaved _) _).
    assert (H3 : climbs_from w w3) by (eapply climbs_before; [done | by apply (tries_note (EvQuotaSaved _))]).
    destruct serr; [by intros [= <- <-]|]. destruct runErr; intros [= <- <-]; [|done].
    eapply climbs_before; [done|]. by apply (tries_note (EvCompleted _)).
Qed.

Lemma gated_climbs hook task policy spec sp verifier publish sink wiring sched w err w' :
  wf (w_router w) -> rp_MaxAttempts policy = cf_MaxAttempts config ->
  rp_Escalate policy = Some (newRouterEscalationHook pf spec config) ->
  run_gated pf config hook task policy (recordDispatchWrap pf config (w_entry w) sp) verifier publish sink wiring sched w
    = Some (err, w') -> climbs_from w w'.
Proof.
  intros W Hm Hh. unfold run_gated. destruct (String.eqb (cf_PolicyBin config) ""); [by apply boxed_climbs with (spec := spec)|].
  destruct (decideGate _ _ _ _ _ _) as [[[[o wiring']|e] x]|]; [| |done].
  2:{ intros [= <- <-]. by apply climbs_none, tries_none. }
  set (w1 := maybeEmitPolicyDecision pf sink (task_ID task) o _).
  assert (H1 : still w w1).
  { unfold w1, maybeEmitPolicyDecision. destruct (_ && _); [|eapply still_trans; [|apply emit_still]];
      (apply note_still; [by apply still_refl | done]). }
  destruct (negb (go_allowed o)).
  - unfold write_status. destruct (WriteStatus _ _ _ _ _) as [werr fs].
    set (w2 := note (EvNeedsHuman _ _) _).
    assert (H2 : still w w2) by (apply note_still; [eapply still_trans; [exact H1 | by apply still_refl] | done]).
    destruct werr as [r|e]; intros [= <- <-]; [|by apply climbs_none, still_tries].
    apply climbs_none, still_tries, note_still; [|done].
    destruct hook as [f|]; [|done]. destruct (String.eqb _ _); [|done].
    apply note_still; [|done]. eapply still_trans; [exact H2 | by apply still_refl].
  - assert (Er : w_router w1 = w_router w) by apply H1. assert (Ee : w_entry w1 = w_entry w) by apply H1.
    rewrite <- Ee. intros E%(boxed_climbs task policy spec); [|by rewrite Er|done..]. by eapply climbs_after.
Qed.

Lemma wired_climbs hook task policy spec sp verifier publish sched w err w' :
  wf (w_router w) -> rp_MaxAttempts policy = cf_MaxAttempts config ->
  rp_Escalate policy = Some (newRouterEscalationHook pf spec config) ->
  run_wired pf config hook task policy (recordDispatchWrap pf config (w_entry w) sp) verifier publish sched w
    = Some (err, w') -> climbs_from w w'.
Proof.
  intros W Hm Hh.
  assert (Ha : forall w1 wiring err w', w_trace w1 = w_trace w -> w_router w1 = w_router w -> w_entry w1 = w_entry w ->
     run_audited pf config hook task policy (recordDispatchWrap pf config (w_entry w) sp) verifier publish sched wiring w1
       = Some (err, w') -> climbs_from w w').
  { intros w1 wiring err1 w2 Et Er Ee. unfold run_audited.
    destruct (if negb (String.eqb (cf_AuditRecordPath config) "") then _ else _) as [[e|] x].
    { intros [= <- <-]. by apply climbs_none, tries_none. }
    rewrite <- Ee. change (w_entry w1) with (w_entry (set_x x w1)). intros E%(gated_climbs hook task policy spec); [|simpl; by rewrite Er|done..].
    eapply climbs_after; [|exact E]. by apply still_refl. }
  unfold run_wired. destruct (String.eqb (cf_VaultBin config) ""); [by apply Ha|].
  destruct (startVault pf config (w_x w)) as [[[[wiring daemon]|e] x]|]; [| |done].
  2:{ intros [= <- <-]. by apply climbs_none, tries_none. }
  destruct (run_audited _ _ _ _ _ _ _ _ _ _ _) as [[err0 w1]|] eqn:E; [|done]. apply Ha in E; [|done..].
  destruct (Stop _ _ _) as [[] x1]. intros [= <- <-]. eapply climbs_before; [done | by apply tries_none].
Qed.

Lemma load_loop_wf es (r : Router Catalog) : wf r -> wf (load_loop es r).2 /\ rt_escalated (load_loop es r).2 = rt_escalated r.
Proof.
  revert r. induction es as [|[id st] es IH]; intros r W; cbn [load_loop]; [done|].
  destruct (cl_lookup (rt_catalog r) id) as [e|]; [|by apply IH].
  destruct (AvailStatus_of _); [| |done]; (edestruct IH as [? ->]; [by apply update_wf | done]).
Qed.

(** The router of a fresh dispatch: well-formed, nothing escalated. *)
Lemma built_climbs spec w policy ex w' :
  buildRetryPolicyAndRouter pf spec config w = (Ok (policy, ex), w') ->
  wf (w_router w') /\ rt_escalated (w_router w') = ∅ /\ (exists sp, ex = recordDispatchWrap pf config (w_entry w') sp) /\
  rp_MaxAttempts policy = cf_MaxAttempts config /\ rp_Escalate policy = Some (newRouterEscalationHook pf spec config).
Proof.
  unfold buildRetryPolicyAndRouter, resolveExecutor, buildCatalog, NewRetryPolicy, validateRetryPolicy. intros E.
  destruct (pf_registry pf) as [es|]; [|done].
  destruct (register_all NewCatalog _) as [c|] eqn:Ec; [|done].
  assert (Wc : catalog_wf c).
  { revert Ec. generalize (match es with [] => [defaultClaudeEntry] | _ => es end). intros l. assert (Hn := NewCatalog_wf).
    revert Hn. generalize NewCatalog. induction l as [|e l IH]; intros c0 W0 El; simpl in El; [by simplify_eq|].
    destruct (RegisterEntry c0 e) as [c1|] eqn:Er; [|done]. eapply IH; [|done]. by eapply RegisterEntry_wf. }
  destruct (if String.eqb (cf_RouterStatePath config) "" then _ else _) as [lerr r] eqn:El.
  destruct lerr; [done|].
  assert (Wr : wf r /\ rt_escalated r = ∅).
  { destruct (String.eqb (cf_RouterStatePath config) ""); [by simplify_eq|].
    destruct (pf_state_unreadable _ _ _); [done|]. unfold LoadState in El.
    destruct (_ !! _) as [data|]; [|by simplify_eq]. destruct (pf_unmarshal pf data) as [[st|]|]; [|done..].
    destruct (load_loop_wf (pf_range pf st) (NewRouter c) Wc) as [W1 E1].
    destruct (load_loop _ _) as [[[]|] r1]; by simplify_eq. }
  destruct Wr as [Wr Ee]. pose proof (Select_spec (toRouterSpec spec) (pf_now pf (w_x w)) r Wr) as S.
  destruct (Select _ _ _) as [[entry|e] r1]; [|done]. destruct S as (W1 & E1 & _).
  destruct (buildExecutorForEntry pf entry config (w_x w)) as [sp|e]; [|done]. simpl in E.
  destruct (cf_MaxAttempts config <? 0); [done|]. injection E as <- <- <-. simpl. rewrite E1.
  split_and!; [done | done | by exists sp | done | done].
Qed.
End RunLadder.

(** C13. In every run, an executor entry the ladder has climbed away from is not
    attempted again, and the number of attempts is at most the configured maximum. *)
Theorem escalation_never_returns_to_a_failed_executor {X} (pf : Platform X) config hook sched w err w' evs :
  Run pf config hook sched w = Some (err, w') -> w_trace w' = w_trace w ++ evs ->
  never_goes_back (entries evs) /\ Z.of_nat (length (entries evs)) <= Z.max 0 (cf_MaxAttempts config).
Proof.
  intros E Et.
  assert (H : exists ids F c, tries ids w w' /\ climbs F c ids /\ Z.of_nat (length ids) <= Z.max 0 (cf_MaxAttempts config)).
  { revert E. unfold Run.
    assert (Hstop : forall (e : option RunErr) w1, tries [] w w1 -> Some (e, w1) = Some (err, w') ->
      exists ids F c, tries ids w w' /\ climbs F c ids /\ Z.of_nat (length ids) <= Z.max 0 (cf_MaxAttempts config)).
    { intros e w1 T [= _ <-]. exists [], ∅, "". split_and!; [done | constructor | simpl; lia]. }
    destruct (validatePaths pf config (w_x w)); [by apply Hstop, tries_none|].
    destruct (SelectRecipe pf _ _) as [[r|e] x]; [|by apply Hstop, tries_none].
    destruct (verifyGateExists _ _) as [[e|] x1]; [by apply Hstop, tries_none|].
    destruct (match cf_DispatchedTask config with Some _ => _ | None => _ end) as [next|e]; [|by apply Hstop, tries_none].
    destruct (rc_ResultSink r config) as [publish|e]; [|by apply Hstop, tries_none].
    destruct (next (w_fs w) x1) as [[[task|]|e] x2]; [| by apply Hstop, (tries_note EvIdle) |by apply Hstop, tries_none].
    destruct (match rc_GateFactory r with Some f => f x2 | None => _ end) as [verifier x3].
    destruct (buildRetryPolicyAndRouter pf _ config _) as [built w1] eqn:Eb.
    assert (Et1 := built_trace _ _ _ _ _ _ Eb). simpl in Et1.
    destruct built as [[policy ex]|e]; [|by apply Hstop, tries_none].
    apply built_climbs in Eb as (W & Ee & [sp ->] & Hm & Hh).
    intros (ids & T & Hc & Hl)%(wired_climbs pf config hook task policy (rc_RoutingSpec r)); [|done..].
    exists ids, (rt_escalated (w_router w1)), (w_entry w1). split_and!; [|done..].
    apply (tries_trans [] ids _ w1); [by apply tries_none | done]. }
  destruct H as (ids & F & c & (evs' & Et' & <-) & Hc & Hl). rewrite Et in Et'. apply app_inv_head in Et' as ->.
  split; [by eapply climbs_never_goes_back | done].
Qed.

Local Notation demo_run := (Run (demo_platform "allow") (demo_config "pb" None) None demo_turns (demo_world ∅)).

Lemma escalation_never_returns_to_a_failed_executor_witness :
  exists w', demo_run = Some (None, w') /\ entries (w_trace w') = ["codex"; "gemini"] /\ never_goes_back (entries (w_trace w')).
Proof.
  assert (L : ((fun r => (fst r, entries (w_trace (snd r)))) <$> demo_run) = Some (None, ["codex"; "gemini"]))
    by (vm_compute; reflexivity).
  destruct demo_run as [[err w']|] eqn:E; [|discriminate L]. simpl in L. injection L as -> L.
  exists w'. split_and!; [reflexivity | exact L |].
  exact (proj1 (escalation_never_returns_to_a_failed_executor _ _ _ _ _ _ _ (w_trace w') E eq_refl)).
Defined.
