(* ===== verification/Containment.v ===== *)
(** * The self-repo bright line ([internal/orchestrator/containment.go])

    Repository references are brought to a canonical form and compared with
    agent-builder's own repository; what cannot be canonicalized counts as a
    match. [url.Parse] is a parameter yielding the host name and the path. *)

From stdpp Require Import base gmap strings list.
From Stdlib Require Import ZArith Lia Ascii.
From S2P Require Import Prelude GoStrings Seams.

Local Open Scope Z_scope.

(** ** Sub-goals (the type of [planner.go]) *)

(** [SubGoal]: a task with the recipe that runs it and optional overrides. *)
Record SubGoal := mkSubGoal {
  sg_Task : Task;
  sg_RecipeName : string;
  sg_TargetRepo : string;
  sg_Sink : string
}.

Definition OwnRepo : string := "github.com/tkdtaylor/agent-builder".

(** ** Posture *)

(** [Containment] and [defaultContainment]. *)
Record Containment := mkContainment {
  ct_Profile : string;
  ct_Rootless : bool;
  ct_ReadOnlyRootfs : bool;
  ct_ResourceLimited : bool;
  ct_EgressPolicy : string
}.

Definition defaultContainment : Containment :=
  mkContainment "exec-sandbox" true true true "default-deny".

(** ** Static detection *)

Definition containsOwnRepo (s : string) : bool := Contains s OwnRepo.

Definition sink_tokens : list string :=
  ["Sink"; "sink"; "Remote"; "remote"; "Publish"; "publish"; "PublishRemote"].

(** [SelfRepoSinkViolation]. *)
Definition SelfRepoSinkViolation (source : string) : bool :=
  containsOwnRepo source && existsb (Contains source) sink_tokens.

(** ** Canonical form *)

(** [isAllDigits]. *)
Definition isAllDigits (s : string) : bool := negb (String.eqb s "") && str_forall is_digit s.

(** [strings.Index]. *)
Fixpoint Index (s p : string) : option nat :=
  if String.prefix p s then Some 0%nat
  else match s with "" => None | String _ s' => S <$> Index s' p end.

Definition backslash : ascii := ascii_of_N 92.
Definition is_slash (c : ascii) : bool := Ascii.eqb c "/"%char.

(** The scp form [host:path]: a colon before the first slash and after any [@],
    whose next segment is not a port. *)
Definition scp_to_path (s : string) : string :=
  match IndexByte s ":"%char with
  | None => s
  | Some c =>
    let after_at := match IndexByte s "@"%char with None => true | Some a => (a <? c)%nat end in
    let before_slash := match IndexByte s "/"%char with None => true | Some l => (c <? l)%nat end in
    if after_at && before_slash then
      let rest := str_drop (c + 1) s in
      let seg := match IndexByte rest "/"%char with Some e => str_take e rest | None => rest end in
      if negb (isAllDigits seg) then str_take c s +:+ "/" +:+ rest else s
    else s
  end.

(** The steps of [CanonicalizeRepo] between lower-casing and [url.Parse]. *)
Definition repo_authority (s : string) : string :=
  let s := ReplaceByte backslash "/"%char s in
  let s := match Index s "://" with Some i => str_drop (i + 3) s | None => s end in
  let s := TrimPrefix s "//" in
  scp_to_path s.

Section Guard.
Variables (uni : string -> string) (url_Parse : string -> option (string * string)).

(** [CanonicalizeRepo]. *)
Definition CanonicalizeRepo (raw : string) : string :=
  let s := ToLower uni (TrimSpace raw) in
  if String.eqb s "" then ""
  else match url_Parse ("//" +:+ repo_authority s) with
  | None => ""
  | Some (hostname, upath) =>
    let host := TrimSuffix hostname "." in
    if String.eqb host "" then ""
    else
      let path := TrimSuffix (Trim is_slash upath) ".git" in
      let path := Trim is_slash path in
      if String.eqb path "" then host else host +:+ "/" +:+ path
  end.

(** One target: empty is no target, unparsable is a match. *)
Definition target_matches (target : string) : bool :=
  if String.eqb target "" then false
  else
    let canonical := CanonicalizeRepo target in
    String.eqb canonical "" || String.eqb canonical (CanonicalizeRepo OwnRepo).

(** [targetsOwnRepo]. *)
Definition targetsOwnRepo (sub : SubGoal) : bool :=
  target_matches (task_Repo (sg_Task sub)) || target_matches (sg_TargetRepo sub) ||
  target_matches (sg_Sink sub).
End Guard.

(** ** The documented spellings *)

Definition schemes : list string := [""; "https://"; "http://"; "ssh://"; "git://"; "//"].
Definition users : list string := [""; "git@"; "user:pass@"].
Definition ports : list string := [""; ":22"; ":443"].
Definition endings : list string := [""; "/"; ".git"; ".git/"].

(** Lower-case spellings with scheme, user, port and ending, the scp form, and
    both path separators. *)
Definition spellings : list string :=
  let url sep := s ← schemes; u ← users; p ← ports; e ← endings;
    [s +:+ u +:+ "github.com" +:+ p +:+ sep +:+ "tkdtaylor" +:+ sep +:+ "agent-builder" +:+ e] in
  let scp := u ← [""; "git@"]; e ← endings; [u +:+ "github.com:tkdtaylor/agent-builder" +:+ e] in
  url "/" ++ url (String backslash "") ++ scp.

(** What [url.Parse] does with an authority of this host. *)
Definition parses_own_host (url_Parse : string -> option (string * string)) : Prop :=
  forall u p e, u ∈ users -> p ∈ ports -> e ∈ endings ->
    url_Parse ("//" +:+ u +:+ "github.com" +:+ p +:+ "/tkdtaylor/agent-builder" +:+ e) =
    Some ("github.com", "/tkdtaylor/agent-builder" +:+ e).

(** The authority strings a spelling may come down to, with the ending. *)
Definition authorities : list (string * string) :=
  u ← users; p ← ports; e ← endings;
  [(u +:+ "github.com" +:+ p +:+ "/tkdtaylor/agent-builder" +:+ e, e)].

Definition own_after_parse (e : string) : bool :=
  let path := Trim is_slash (TrimSuffix (Trim is_slash ("/tkdtaylor/agent-builder" +:+ e)) ".git") in
  String.eqb ("github.com" +:+ "/" +:+ path) OwnRepo && negb (String.eqb path "").

Lemma spelling_authority s :
  s ∈ spellings -> exists e, (repo_authority s, e) ∈ authorities /\ own_after_parse e = true /\ s <> "".
Proof.
  intros Hs.
  assert (H : forallb (fun s => negb (String.eqb s "") && existsb (fun a => String.eqb (repo_authority s) a.1 &&
      own_after_parse a.2) authorities) spellings = true) by (vm_compute; reflexivity).
  rewrite forallb_forall in H. apply list_elem_of_In in Hs. apply H in Hs. to_prop.
  apply existsb_exists in H1 as ([a e] & Ha & Hb). simpl in Hb. to_prop. subst a.
  exists e. split_and!; try done. by apply list_elem_of_In.
Qed.

Lemma authority_parse url_Parse a e :
  parses_own_host url_Parse -> (a, e) ∈ authorities ->
  url_Parse ("//" +:+ a) = Some ("github.com", "/tkdtaylor/agent-builder" +:+ e).
Proof.
  intros H Ha. unfold authorities in Ha.
  apply list_elem_of_bind in Ha as (u & Ha & Hu).
  apply list_elem_of_bind in Ha as (p & Ha & Hp).
  apply list_elem_of_bind in Ha as (e' & Ha & He).
  apply list_elem_of_singleton in Ha. injection Ha as -> ->. by apply H.
Qed.

Lemma canonical_spelling uni url_Parse raw :
  parses_own_host url_Parse -> ToLower uni (TrimSpace raw) ∈ spellings ->
  CanonicalizeRepo uni url_Parse raw = OwnRepo.
Proof.
  intros H Hs. destruct (spelling_authority _ Hs) as (e & Ha & Ho & Hne).
  unfold CanonicalizeRepo. rewrite (proj2 (String.eqb_neq _ _) Hne), (authority_parse _ _ e H Ha).
  unfold own_after_parse in Ho. apply andb_true_iff in Ho as [Ho1 Ho2].
  apply negb_true_iff in Ho2. apply String.eqb_eq in Ho1. simpl. by rewrite Ho2.
Qed.

(** C40. A sub-goal whose task repository, target repository or sink is a documented
    spelling of agent-builder's own repository (scheme, user, port, scp form,
    backslashes, case, .git and trailing slash), or cannot be canonicalized, is
    recognized by the self-repo bright line. *)
Theorem own_repo_is_refused_in_every_spelling uni url_Parse sub raw :
  parses_own_host url_Parse ->
  raw = task_Repo (sg_Task sub) \/ raw = sg_TargetRepo sub \/ raw = sg_Sink sub -> raw <> "" ->
  ToLower uni (TrimSpace raw) ∈ spellings \/ CanonicalizeRepo uni url_Parse raw = "" ->
  targetsOwnRepo uni url_Parse sub = true.
Proof.
  intros H Hr Hne Hs.
  assert (Hm : target_matches uni url_Parse raw = true).
  { unfold target_matches. rewrite (proj2 (String.eqb_neq _ _) Hne).
    destruct Hs as [Hs| ->]; [|done].
    rewrite (canonical_spelling _ _ raw H Hs), (canonical_spelling _ _ OwnRepo H); [by rewrite orb_true_r|].
    apply (bool_decide_unpack _). vm_compute. exact I. }
  unfold targetsOwnRepo. destruct Hr as [<-|[<-| <-]]; rewrite Hm; by rewrite ?orb_true_r.
Qed.

(** A small URL reader: user information up to [@], port after [:]. *)
Definition cut_at (b : ascii) (s : string) : string * string :=
  match IndexByte s b with Some i => (str_take i s, str_drop i s) | None => (s, "") end.

Definition demo_parse (raw : string) : option (string * string) :=
  let '(authority, path) := cut_at "/"%char (str_drop 2 raw) in
  let host := match IndexByte authority "@"%char with
              | Some i => str_drop (i + 1) authority | None => authority end in
  Some ((cut_at ":"%char host).1, path).

Lemma demo_parse_ok : parses_own_host demo_parse.
Proof.
  intros u p e Hu Hp He.
  assert (H : forallb (fun u => forallb (fun p => forallb (fun e =>
    bool_decide (demo_parse ("//" +:+ u +:+ "github.com" +:+ p +:+ "/tkdtaylor/agent-builder" +:+ e) =
                 Some ("github.com", "/tkdtaylor/agent-builder" +:+ e))) endings) ports) users = true)
    by (vm_compute; reflexivity).
  rewrite forallb_forall in H. specialize (H u (proj1 (list_elem_of_In _ _) Hu)).
  rewrite forallb_forall in H. specialize (H p (proj1 (list_elem_of_In _ _) Hp)).
  rewrite forallb_forall in H. specialize (H e (proj1 (list_elem_of_In _ _) He)).
  by apply bool_decide_eq_true in H.
Qed.

Lemma own_repo_is_refused_in_every_spelling_witness :
  targetsOwnRepo (fun s => s) demo_parse
    (mkSubGoal (mkTask "1" " HTTPS://GitHub.com/tkdtaylor/Agent-Builder.git " "" "") "r" "" "") = true.
Proof.
  apply (own_repo_is_refused_in_every_spelling (fun s => s) demo_parse _
    " HTTPS://GitHub.com/tkdtaylor/Agent-Builder.git ").
  - exact demo_parse_ok.
  - by left.
  - done.
  - left. apply (bool_decide_unpack _). vm_compute. exact I.
Defined.
