(* ===== verification/Planner.v ===== *)
(** * Planning without a model

    [internal/skill] (the registry of skills and [SelectForGoal]),
    [internal/orchestrator/skills.go] and [planner.go] (the structured planner:
    one sub-goal per line of the goal). *)

From stdpp Require Import base gmap strings list.
From Stdlib Require Import ZArith Lia Ascii.
From S2P Require Import Prelude GoStrings Seams Containment.

Local Open Scope Z_scope.

(** ** Skills *)

Record Manifest := mkManifest {
  mf_Name : string;
  mf_Description : string;
  mf_RecipeName : string;
  mf_RequiredPermissions : list string;
  mf_GateChecks : list string
}.

Inductive SkillErr :=
| SErrDuplicate (name : string)
| SErrNotFound (name : string)
| SErrNoMatch (goal fallback : string).

Notation SkillRegistry := (gmap string Manifest).

(** [skill.Register], [skill.Select] and [skill.List]. *)
Definition skill_Register (name : string) (m : Manifest) (reg : SkillRegistry)
  : option SkillErr * SkillRegistry :=
  match reg !! name with
  | Some _ => (Some (SErrDuplicate name), reg)
  | None => (None, <[name := m]> reg)
  end.

Definition skill_Select (name : string) (reg : SkillRegistry) : result SkillErr Manifest :=
  match reg !! name with Some m => Ok m | None => Err (SErrNotFound name) end.

Definition skill_List (reg : SkillRegistry) : list string :=
  sort_by String.ltb (map fst (map_to_list reg)).

(** [liveSkillRegistry]: the snapshot through [List] and [Select]. *)
Definition liveSkillRegistry (reg : SkillRegistry) : SkillRegistry :=
  foldl (fun acc name => match skill_Select name reg with Ok m => <[name := m]> acc | Err _ => acc end)
    ∅ (skill_List reg).

Definition coding_agent_skill : Manifest :=
  mkManifest "coding-agent"
    "contribute code changes to a target repo, the reference build's default capability"
    "coding-agent" ["repo-write"; "branch-publish"]
    ["build"; "test"; "lint"; "dep-scan"; "code-scanner"].

(** The registry after the [init] of [skills.go]. *)
Definition builtin_skills : SkillRegistry := (skill_Register "coding-agent" coding_agent_skill ∅).2.

Section Select.
Variable uni : string -> string.

Definition manifest_matches (lower : string) (m : Manifest) : bool :=
  (negb (String.eqb (mf_Name m) "") && Contains lower (ToLower uni (mf_Name m))) ||
  (negb (String.eqb (mf_Description m) "") && Contains lower (ToLower uni (mf_Description m))).

(** The loop of [SelectForGoal] over the sorted names. *)
Fixpoint first_match (lower : string) (reg : SkillRegistry) (names : list string) : option Manifest :=
  match names with
  | [] => None
  | name :: names =>
    match reg !! name with
    | Some m => if manifest_matches lower m then Some m else first_match lower reg names
    | None => first_match lower reg names
    end
  end.

(** [SelectForGoal]. *)
Definition SelectForGoal (goalText : string) (reg : SkillRegistry) (fallback : string)
  : result SkillErr Manifest :=
  match first_match (ToLower uni goalText) reg (skill_List reg) with
  | Some m => Ok m
  | None => match reg !! fallback with
            | Some m => Ok m
            | None => Err (SErrNoMatch goalText fallback) end
  end.

(** [resolveRecipeName]. *)
Definition resolveRecipeName (text : string) (reg : SkillRegistry) (fallback : string)
  : result SkillErr string :=
  let? m := SelectForGoal text reg fallback in Ok (mf_RecipeName m).

(** ** Plans *)

(** [Plan]. *)
Record Plan := mkPlan { pl_Goal : string; pl_GoalID : string; pl_SubGoals : list SubGoal }.

Definition DefaultRecipeName : string := "coding-agent".

(** [StructuredPlanner]; nil maps are [None]. *)
Record StructuredPlanner := mkPlanner {
  sp_DefaultRecipe : string;
  sp_KnownRecipes : option (gset string);
  sp_Skills : option SkillRegistry
}.

Definition NewStructuredPlanner (known : list string) : StructuredPlanner :=
  mkPlanner DefaultRecipeName
    (match known with [] => None | _ => Some (list_to_set known) end) None.

(** [itoa]. *)
Fixpoint itoa_loop (fuel : nat) (n : Z) (digits : string) : string :=
  match fuel with
  | O => digits
  | S f => if 0 <? n then itoa_loop f (n / 10) (String (digit_char (n mod 10)) digits) else digits
  end.

Definition itoa (n : Z) : string := if n =? 0 then "0" else itoa_loop (fmt_fuel n) n "".

(** [subGoalID]. *)
Definition subGoalID (goalID : string) (idx : Z) : string :=
  (if String.eqb goalID "" then "goal" else goalID) +:+ "-" +:+ itoa idx.

(** [splitLine]: [None] when the line names no recipe. *)
Definition splitLine (p : StructuredPlanner) (line : string) : option (string * string) :=
  match IndexByte line ":"%char with
  | None | Some O => None
  | Some colon =>
    let candidate := TrimSpace (str_take colon line) in
    let rest := TrimSpace (str_drop (colon + 1) line) in
    if String.eqb candidate "" || negb (str_forall (fun c => negb (is_byte 32 c || is_byte 9 c)) candidate)
       || String.eqb rest "" then None
    else match sp_KnownRecipes p with
    | Some known => if bool_decide (candidate ∈ known) then Some (candidate, rest) else None
    | None => Some (candidate, rest)
    end
  end.

Definition mk_sub (goal : Task) (idx : Z) (recipe spec : string) : SubGoal :=
  mkSubGoal (mkTask (subGoalID (task_ID goal) idx) (task_Repo goal) spec "") recipe "" "".

(** The loop of [Plan] over the lines. *)
Fixpoint plan_lines (p : StructuredPlanner) (reg : SkillRegistry) (def : string) (goal : Task)
  (idx : Z) (lines : list string) : result SkillErr (list SubGoal) :=
  match lines with
  | [] => Ok []
  | raw :: lines =>
    let line := TrimSpace raw in
    if String.eqb line "" || HasPrefix line "#" then plan_lines p reg def goal idx lines
    else
      let? named := match splitLine p line with
        | Some (r, spec) => Ok (r, spec)
        | None => let? r := resolveRecipeName line reg def in Ok (r, line)
        end in
      let? rest := plan_lines p reg def goal (idx + 1) lines in
      Ok (mk_sub goal idx named.1 named.2 :: rest)
  end.

(** [Plan], over the process-wide registry [live]. *)
Definition PlanGoal (live : SkillRegistry) (p : StructuredPlanner) (goal : Task) : result SkillErr Plan :=
  let def := if String.eqb (sp_DefaultRecipe p) "" then DefaultRecipeName else sp_DefaultRecipe p in
  let reg := match sp_Skills p with Some r => r | None => liveSkillRegistry live end in
  let? subs := plan_lines p reg def goal 0 (Split nl (task_Spec goal)) in
  match subs with
  | _ :: _ => Ok (mkPlan (task_Spec goal) (task_ID goal) subs)
  | [] =>
    let spec := TrimSpace (task_Spec goal) in
    let? r := resolveRecipeName spec reg def in
    Ok (mkPlan (task_Spec goal) (task_ID goal) [mk_sub goal 0 r spec])
  end.

(** ** Sub-goal IDs *)

Lemma itoa_loop_digits fuel n acc : itoa_loop fuel n acc = fmt_digits fuel n acc.
Proof.
  revert n acc. induction fuel as [|f IH]; intros n acc; simpl; [done|].
  rewrite Z.leb_antisym. destruct (0 <? n); simpl; [apply IH | done].
Qed.

Lemma itoa_FormatInt n : 0 <= n -> itoa n = FormatInt n.
Proof.
  intros Hn. unfold itoa, FormatInt, format_nonneg. rewrite (proj2 (Z.ltb_ge n 0) Hn).
  destruct (n =? 0); [done|]. apply itoa_loop_digits.
Qed.

Lemma format_inj n m : 0 <= n -> 0 <= m -> itoa n = itoa m -> n = m.
Proof.
  intros Hn Hm E. rewrite !itoa_FormatInt in E by done. unfold FormatInt in E.
  rewrite (proj2 (Z.ltb_ge n 0) Hn), (proj2 (Z.ltb_ge m 0) Hm) in E.
  pose proof (parse_format_nonneg n Hn) as P. rewrite E, parse_format_nonneg in P by done. congruence.
Qed.

Lemma str_app_inj_l s t u : s +:+ t = s +:+ u -> t = u.
Proof. induction s as [|c s IH]; simpl; [done|]. intros [= E]. auto. Qed.

Lemma subGoalID_inj g n m : 0 <= n -> 0 <= m -> subGoalID g n = subGoalID g m -> n = m.
Proof.
  unfold subGoalID. intros Hn Hm E. do 2 apply str_app_inj_l in E. by apply format_inj.
Qed.

(** [subs] are numbered from [idx]. *)
Fixpoint numbered (goal : Task) (idx : Z) (subs : list SubGoal) : Prop :=
  match subs with
  | [] => True
  | s :: subs =>
    task_ID (sg_Task s) = subGoalID (task_ID goal) idx /\ task_Repo (sg_Task s) = task_Repo goal /\
    sg_TargetRepo s = "" /\ sg_Sink s = "" /\ numbered goal (idx + 1) subs
  end.

Lemma numbered_ids goal idx subs s :
  0 <= idx -> numbered goal idx subs -> s ∈ subs ->
  exists i, idx <= i /\ task_ID (sg_Task s) = subGoalID (task_ID goal) i.
Proof.
  revert idx. induction subs as [|x subs IH]; intros idx Hi N Hs; [by apply not_elem_of_nil in Hs|].
  simpl in N. destruct N as (E & _ & _ & _ & N). apply elem_of_cons in Hs as [->|Hs]; [exists idx; split; [lia|done]|].
  destruct (IH (idx + 1) ltac:(lia) N Hs) as (i & H1 & H2). exists i. split; [lia|done].
Qed.

Lemma numbered_nodup goal idx subs :
  0 <= idx -> numbered goal idx subs -> NoDup (map (fun s => task_ID (sg_Task s)) subs).
Proof.
  revert idx. induction subs as [|x subs IH]; intros idx Hi N; simpl; [constructor|].
  simpl in N. destruct N as (E & _ & _ & _ & N). constructor; [|by apply (IH (idx + 1)); [lia|]].
  intros (s & Es & Hs)%list_elem_of_fmap.
  destruct (numbered_ids goal (idx + 1) subs s ltac:(lia) N Hs) as (i & H1 & H2).
  rewrite E, H2 in Es. apply subGoalID_inj in Es; lia.
Qed.

Lemma plan_lines_ok p reg def goal idx lines subs :
  plan_lines p reg def goal idx lines = Ok subs -> numbered goal idx subs.
Proof.
  revert idx subs. induction lines as [|raw lines IH]; intros idx subs; simpl; [by intros [= <-]|].
  destruct (_ || _); [apply IH|].
  destruct (match splitLine p _ with Some _ => _ | None => _ end) as [named|]; [|done].
  destruct (plan_lines p reg def goal (idx + 1) lines) as [rest|] eqn:E; [|done].
  intros [= <-]. simpl. split_and!; try done. by apply IH.
Qed.

Lemma SelectForGoal_total text reg fallback :
  is_Some (reg !! fallback) -> exists m, SelectForGoal text reg fallback = Ok m /\
    exists name, reg !! name = Some m.
Proof.
  intros [fb Hfb]. unfold SelectForGoal.
  destruct (first_match (ToLower uni text) reg (skill_List reg)) as [m|] eqn:E.
  - exists m. split; [done|]. clear -E. induction (skill_List reg) as [|n l IH]; simpl in E; [done|].
    destruct (reg !! n) as [m'|] eqn:En; [|by apply IH].
    destruct (manifest_matches _ m'); [|by apply IH]. injection E as <-. eauto.
  - rewrite Hfb. eauto.
Qed.

Lemma plan_lines_total p reg def goal idx lines :
  is_Some (reg !! def) -> exists subs, plan_lines p reg def goal idx lines = Ok subs.
Proof.
  intros H. revert idx. induction lines as [|raw lines IH]; intros idx; simpl; [eauto|].
  destruct (_ || _); [apply IH|]. destruct (IH (idx + 1)) as [rest ->].
  destruct (splitLine p (TrimSpace raw)) as [[r s]|]; [eauto|].
  unfold resolveRecipeName. destruct (SelectForGoal_total (TrimSpace raw) reg def H) as (m & -> & _). eauto.
Qed.

Lemma PlanGoal_id live p goal plan : PlanGoal live p goal = Ok plan -> pl_GoalID plan = task_ID goal.
Proof.
  unfold PlanGoal. intros E.
  destruct (plan_lines _ _ _ _ _ _) as [[|s subs]|e]; [|by injection E as <-|done].
  destruct (resolveRecipeName _ _ _); [by injection E as <- | done].
Qed.
End Select.

(** With the fallback skill registered, the structured planner always produces a
    plan for the goal, with at least one sub-goal, sub-goal IDs numbered from 0
    without gaps and pairwise distinct, each carrying the goal's repository. *)
Theorem plan_is_total_and_numbered uni live p goal :
  let reg := match sp_Skills p with Some r => r | None => liveSkillRegistry live end in
  is_Some (reg !! (if String.eqb (sp_DefaultRecipe p) "" then DefaultRecipeName else sp_DefaultRecipe p)) ->
  exists plan, PlanGoal uni live p goal = Ok plan /\
    pl_Goal plan = task_Spec goal /\ pl_GoalID plan = task_ID goal /\ pl_SubGoals plan <> [] /\
    numbered goal 0 (pl_SubGoals plan) /\
    NoDup (map (fun s => task_ID (sg_Task s)) (pl_SubGoals plan)).
Proof.
  intros reg H. unfold PlanGoal. fold reg. set (def := if String.eqb (sp_DefaultRecipe p) "" then DefaultRecipeName else sp_DefaultRecipe p) in *.
  destruct (plan_lines_total uni p reg def goal 0 (Split nl (task_Spec goal)) H) as [subs E].
  rewrite E. apply plan_lines_ok in E as N. destruct subs as [|s subs].
  - unfold resolveRecipeName.
    destruct (SelectForGoal_total uni (TrimSpace (task_Spec goal)) reg def H) as (m & -> & _).
    eexists. split; [reflexivity|]. simpl. split_and!; try done. apply NoDup_singleton.
  - eexists. split; [reflexivity|]. simpl pl_SubGoals. split_and!; try done.
    by apply (numbered_nodup goal 0).
Qed.

Lemma plan_is_total_and_numbered_witness :
  exists plan, PlanGoal (fun s => s) builtin_skills (NewStructuredPlanner [])
      (mkTask "g" "r" (Join (String nl "") ["docs: fix typos"; "# note"; "build it"]) "") = Ok plan /\
    map (fun s => (task_ID (sg_Task s), sg_RecipeName s)) (pl_SubGoals plan) =
      [("g-0", "docs"); ("g-1", "coding-agent")] /\ pl_SubGoals plan <> [].
Proof.
  destruct (plan_is_total_and_numbered (fun s => s) builtin_skills (NewStructuredPlanner [])
    (mkTask "g" "r" (Join (String nl "") ["docs: fix typos"; "# note"; "build it"]) ""))
    as (plan & H1 & _ & _ & H2 & _).
  - vm_compute. by eexists.
  - exists plan. split_and!; [exact H1 | | exact H2].
    vm_compute in H1. injection H1 as <-. reflexivity.
Defined.
