(* ===== verification/Fleet.v ===== *)
(** * Fleet state ([internal/orchestrator/semaphore.go], [registry.go])

    The worker semaphore shared by all goals and the live status registry. A
    buffered channel of empty structs is its capacity and its length; an
    operation that would block is [None]. A nil [*StatusRegistry] is [None]. *)

From stdpp Require Import base gmap strings list.
From Stdlib Require Import ZArith Lia.
From S2P Require Import Prelude GoStrings.

Local Open Scope Z_scope.

(** ** The semaphore *)

(** [Semaphore]: [sem_used] tokens are in the channel of capacity [sem_cap]. *)
Record Semaphore := mkSemaphore { sem_cap : nat; sem_used : nat }.

(** [NewSemaphore]. *)
Definition NewSemaphore (n : Z) : Semaphore :=
  let n := if n <? 1 then 1 else n in
  mkSemaphore (Z.to_nat n) 0.

(** The send arm of [Acquire]'s select; [None] when the channel is full. *)
Definition Acquire (s : Semaphore) : option Semaphore :=
  if (sem_used s <? sem_cap s)%nat then Some (mkSemaphore (sem_cap s) (S (sem_used s))) else None.

(** [Release]; [None] when the channel is empty. *)
Definition Release (s : Semaphore) : option Semaphore :=
  match sem_used s with
  | O => None
  | S k => Some (mkSemaphore (sem_cap s) k)
  end.

(** [ReleaseN]. *)
Fixpoint ReleaseN (n : nat) (s : Semaphore) : option Semaphore :=
  match n with
  | O => Some s
  | S n => match Release s with None => None | Some s => ReleaseN n s end
  end.

(** The loop of [TryAcquireN]: [todo] more permits to take, [taken] so far; a
    full channel gives the taken ones back. *)
Fixpoint try_acquire_loop (todo taken : nat) (s : Semaphore) : option (bool * Semaphore) :=
  match todo with
  | O => Some (true, s)
  | S todo =>
    match Acquire s with
    | Some s => try_acquire_loop todo (S taken) s
    | None => match ReleaseN taken s with None => None | Some s => Some (false, s) end
    end
  end.

(** [TryAcquireN]. *)
Definition TryAcquireN (n : Z) (s : Semaphore) : option (bool * Semaphore) :=
  try_acquire_loop (Z.to_nat n) 0 s.

(** [Cap]. *)
Definition Cap (s : Semaphore) : nat := sem_cap s.

Lemma ReleaseN_spec n s :
  ReleaseN n s =
  if (n <=? sem_used s)%nat then Some (mkSemaphore (sem_cap s) (sem_used s - n)) else None.
Proof.
  revert s. induction n as [|n IH]; intros [c u]; simpl.
  - by rewrite Nat.sub_0_r.
  - unfold Release. simpl. destruct u as [|u]; [done|]. by rewrite IH.
Qed.

Lemma try_acquire_loop_spec todo taken s :
  (taken <= sem_used s <= sem_cap s)%nat ->
  try_acquire_loop todo taken s =
  if (sem_used s + todo <=? sem_cap s)%nat
  then Some (true, mkSemaphore (sem_cap s) (sem_used s + todo))
  else Some (false, mkSemaphore (sem_cap s) (sem_used s - taken)).
Proof.
  revert taken s. induction todo as [|todo IH]; intros taken [c u] H; simpl in *.
  - rewrite Nat.add_0_r. destruct (Nat.leb_spec u c); [done|lia].
  - unfold Acquire. simpl. destruct (Nat.ltb_spec u c).
    + rewrite IH by (simpl; lia). simpl. replace (u + S todo)%nat with (S (u + todo)) by lia. done.
    + rewrite ReleaseN_spec. simpl. destruct (Nat.leb_spec taken u); [|lia].
      destruct (Nat.leb_spec (u + S todo) c); [lia|done].
Qed.

Lemma NewSemaphore_ok n : (1 <= sem_cap (NewSemaphore n))%nat /\ sem_used (NewSemaphore n) = 0%nat.
Proof. unfold NewSemaphore. destruct (Z.ltb_spec n 1); simpl; lia. Qed.

(** ** Goal states *)

Inductive GoalState :=
| StateQueued
| StateClarifying
| StatePlanning
| StateAwaitingApproval
| StateDispatching
| StateDone
| StateFailed
| StateCancelled
| StateConversing.

#[export] Instance GoalState_eq_dec : EqDecision GoalState.
Proof. solve_decision. Defined.

(** [GoalState.String]. *)
Definition GoalState_String (s : GoalState) : string :=
  match s with
  | StateQueued => "queued"
  | StateClarifying => "clarifying"
  | StatePlanning => "planning"
  | StateAwaitingApproval => "awaiting-approval"
  | StateDispatching => "dispatching"
  | StateDone => "done"
  | StateFailed => "failed"
  | StateCancelled => "cancelled"
  | StateConversing => "conversing"
  end.

(** [GoalState.IsTerminal]. *)
Definition GoalState_IsTerminal (s : GoalState) : bool :=
  match s with StateDone | StateFailed | StateCancelled => true | _ => false end.

(** ** The status registry *)

Record SubGoalProgress := mkProgress {
  sp_Name : string;
  sp_Recipe : string;
  sp_State : string
}.

Record GoalStatus := mkGoalStatus {
  gs_GoalID : string;
  gs_State : GoalState;
  gs_SubGoals : list SubGoalProgress;
  gs_UpdatedAt : Z;
  gs_PendingInfo : list string
}.

(** [GoalStatus{GoalID: goalID}]. *)
Definition blank_status (goalID : string) : GoalStatus := mkGoalStatus goalID StateQueued [] 0 [].

(** [StatusRegistry]; a cancel handle is the number of its context. *)
Record StatusRegistry := mkStatusRegistry {
  sr_goals : gmap string GoalStatus;
  sr_cancels : gmap string nat
}.

(** [NewStatusRegistry]. *)
Definition NewStatusRegistry : StatusRegistry := mkStatusRegistry ∅ ∅.

(** The write of one goal that all mutators share: an absent goal starts
    blank. *)
Definition upsert (goalID : string) (f : GoalStatus -> GoalStatus) (r : StatusRegistry) : StatusRegistry :=
  mkStatusRegistry
    (<[goalID := f (default (blank_status goalID) (sr_goals r !! goalID))]> (sr_goals r))
    (sr_cancels r).

(** [Register]: overwrites. *)
Definition Register (now : Z) (goalID : string) (state : GoalState) (r : option StatusRegistry)
  : option StatusRegistry :=
  (fun r => mkStatusRegistry (<[goalID := mkGoalStatus goalID state [] now []]> (sr_goals r)) (sr_cancels r)) <$> r.

(** [SetState]. *)
Definition SetState (now : Z) (goalID : string) (state : GoalState) (r : option StatusRegistry)
  : option StatusRegistry :=
  upsert goalID (fun g => mkGoalStatus (gs_GoalID g) state (gs_SubGoals g) now (gs_PendingInfo g)) <$> r.

(** [SetCancelFunc]; [None] is a nil [CancelFunc]. *)
Definition SetCancelFunc (goalID : string) (cancel : option nat) (r : option StatusRegistry)
  : option StatusRegistry :=
  match cancel with
  | None => r
  | Some c => (fun r => mkStatusRegistry (sr_goals r) (<[goalID := c]> (sr_cancels r))) <$> r
  end.

(** [Cancel]: the context to fire, [None] for [false]. *)
Definition Cancel (goalID : string) (r : option StatusRegistry) : option nat * option StatusRegistry :=
  match r with
  | None => (None, None)
  | Some r =>
    match sr_cancels r !! goalID with
    | None => (None, Some r)
    | Some c => (Some c, Some (mkStatusRegistry (sr_goals r) (delete goalID (sr_cancels r))))
    end
  end.

(** The loop of [SetSubGoal]: the first entry of that name, or the end. *)
Fixpoint put_progress (p : SubGoalProgress) (l : list SubGoalProgress) : list SubGoalProgress :=
  match l with
  | [] => [p]
  | q :: l => if String.eqb (sp_Name q) (sp_Name p) then p :: l else q :: put_progress p l
  end.

(** [SetSubGoal]. *)
Definition SetSubGoal (now : Z) (goalID : string) (p : SubGoalProgress) (r : option StatusRegistry)
  : option StatusRegistry :=
  upsert goalID (fun g =>
    mkGoalStatus (gs_GoalID g) (gs_State g) (put_progress p (gs_SubGoals g)) now (gs_PendingInfo g)) <$> r.

(** [Get]: the copy is the value. *)
Definition GetStatus (goalID : string) (r : option StatusRegistry) : option GoalStatus :=
  r ← r; sr_goals r !! goalID.

(** [Snapshot], up to the order of Go's map iteration. *)
Definition Snapshot (r : option StatusRegistry) : list GoalStatus :=
  match r with None => [] | Some r => (map_to_list (sr_goals r)).*2 end.

(** [LiveNonQueuedCount]. *)
Definition LiveNonQueuedCount (r : option StatusRegistry) : nat :=
  length (List.filter (fun g => negb (bool_decide (gs_State g = StateQueued)) &&
                                negb (GoalState_IsTerminal (gs_State g))) (Snapshot r)).

(** [EnqueueInfo]. *)
Definition EnqueueInfo (now : Z) (goalID text : string) (r : option StatusRegistry)
  : option StatusRegistry :=
  upsert goalID (fun g =>
    mkGoalStatus (gs_GoalID g) (gs_State g) (gs_SubGoals g) now (gs_PendingInfo g ++ [text])) <$> r.

(** [PendingInfo]. *)
Definition PendingInfo (goalID : string) (r : option StatusRegistry) : list string :=
  match GetStatus goalID r with None => [] | Some g => gs_PendingInfo g end.

(** [DrainInfo]. *)
Definition DrainInfo (now : Z) (goalID : string) (r : option StatusRegistry)
  : list string * option StatusRegistry :=
  match PendingInfo goalID r with
  | [] => ([], r)
  | info =>
    (info, upsert goalID (fun g =>
       mkGoalStatus (gs_GoalID g) (gs_State g) (gs_SubGoals g) now []) <$> r)
  end.

(** ** Facts about the registry *)

Lemma upsert_lookup goalID f r g :
  sr_goals (upsert goalID f r) !! g =
  if decide (g = goalID) then Some (f (default (blank_status goalID) (sr_goals r !! goalID)))
  else sr_goals r !! g.
Proof. simpl. case_decide; [subst; by rewrite lookup_insert_eq | by rewrite lookup_insert_ne]. Qed.

(** No mutator of the projection touches another goal. *)
Lemma GetStatus_upsert goalID f r g :
  GetStatus g (upsert goalID f <$> r) =
  if decide (g = goalID) then (fun r => f (default (blank_status goalID) (sr_goals r !! goalID))) <$> r
  else GetStatus g r.
Proof.
  destruct r as [r|]; simpl; [|by case_decide]. unfold GetStatus. simpl.
  case_decide; [subst; by rewrite lookup_insert_eq | by rewrite lookup_insert_ne].
Qed.

Lemma PendingInfo_SetState now goalID st r g : PendingInfo g (SetState now goalID st r) = PendingInfo g r.
Proof.
  unfold PendingInfo, SetState. rewrite GetStatus_upsert. case_decide; [subst|done].
  destruct r as [r|]; [|done]. unfold GetStatus. simpl. by destruct (_ !! goalID).
Qed.

Lemma GetStatus_SetState now goalID st r :
  gs_State <$> GetStatus goalID (SetState now goalID st (Some r)) = Some st.
Proof. unfold SetState. rewrite GetStatus_upsert. by rewrite decide_True by done. Qed.

(** ** Histories of the registry *)

(** The calls the control loop, the goal actors and the dispatch goroutines
    make; the registry's mutex serializes them in some order. *)
Inductive RegOp :=
| OpRegister (goalID : string) (state : GoalState)
| OpSetState (goalID : string) (state : GoalState)
| OpSetCancel (goalID : string) (cancel : option nat)
| OpCancel (goalID : string)
| OpSetSubGoal (goalID : string) (p : SubGoalProgress)
| OpEnqueue (goalID text : string)
| OpDrain (goalID : string).

(** One call at the instant [now]; the info it drained. *)
Definition reg_step (op : RegOp) (now : Z) (r : option StatusRegistry)
  : list string * option StatusRegistry :=
  match op with
  | OpRegister g s => ([], Register now g s r)
  | OpSetState g s => ([], SetState now g s r)
  | OpSetCancel g c => ([], SetCancelFunc g c r)
  | OpCancel g => ([], (Cancel g r).2)
  | OpSetSubGoal g p => ([], SetSubGoal now g p r)
  | OpEnqueue g t => ([], EnqueueInfo now g t r)
  | OpDrain g => DrainInfo now g r
  end.

(** A history; what the drains of [goal] delivered, in order. *)
Fixpoint reg_run (goal : string) (ops : list (Z * RegOp)) (r : option StatusRegistry)
  : list string * option StatusRegistry :=
  match ops with
  | [] => ([], r)
  | (now, op) :: ops =>
    let '(out, r) := reg_step op now r in
    let '(outs, r) := reg_run goal ops r in
    (match op with OpDrain g => if String.eqb g goal then out ++ outs else outs | _ => outs end, r)
  end.

Definition enqueued (goal : string) (op : Z * RegOp) : list string :=
  match op.2 with OpEnqueue g t => if String.eqb g goal then [t] else [] | _ => [] end.

Definition re_registers (goal : string) (op : Z * RegOp) : bool :=
  match op.2 with OpRegister g _ => String.eqb g goal | _ => false end.

Lemma PendingInfo_Some goal r :
  PendingInfo goal (Some r) = gs_PendingInfo (default (blank_status goal) (sr_goals r !! goal)).
Proof. unfold PendingInfo, GetStatus. simpl. by destruct (_ !! goal). Qed.

Lemma PendingInfo_upsert goalID f goal r :
  PendingInfo goal (upsert goalID f <$> Some r) =
  if decide (goal = goalID) then gs_PendingInfo (f (default (blank_status goal) (sr_goals r !! goal)))
  else PendingInfo goal (Some r).
Proof. unfold PendingInfo. rewrite GetStatus_upsert. case_decide; [by subst|done]. Qed.

Ltac fold_upsert :=
  match goal with |- context [Some (upsert ?g ?f ?r)] =>
    change (Some (upsert g f r)) with (upsert g f <$> Some r) end.

(** One call keeps the account of [goal]: delivered plus pending is what was
    pending plus what was enqueued. *)
Lemma reg_step_account goal now op r :
  re_registers goal (now, op) = false ->
  exists r', (reg_step op now (Some r)).2 = Some r' /\
    (match op with
     | OpDrain g => if String.eqb g goal then (reg_step op now (Some r)).1 else []
     | _ => []
     end) ++ PendingInfo goal (Some r') =
    PendingInfo goal (Some r) ++ enqueued goal (now, op).
Proof.
  intros Hreg. destruct op as [g s|g s|g c|g|g p|g t|g]; cbn [reg_step snd fst enqueued] in *.
  - eexists. split; [done|]. simpl in *. apply String.eqb_neq in Hreg. rewrite app_nil_r.
    unfold PendingInfo, GetStatus. simpl. by rewrite lookup_insert_ne.
  - eexists. split; [done|]. rewrite app_nil_r, app_nil_l. fold_upsert.
    rewrite PendingInfo_upsert, PendingInfo_Some. by case_decide.
  - destruct c as [c|]; eexists; (split; [done|]); by rewrite app_nil_r.
  - unfold Cancel. destruct (sr_cancels r !! g); eexists; (split; [done|]); by rewrite app_nil_r.
  - eexists. split; [done|]. rewrite app_nil_r, app_nil_l.
    fold_upsert.
    rewrite PendingInfo_upsert, PendingInfo_Some. by case_decide.
  - eexists. split; [done|]. rewrite app_nil_l.
    fold_upsert.
    rewrite PendingInfo_upsert, PendingInfo_Some. destruct (String.eqb_spec g goal) as [->|Hn].
    + by rewrite decide_True.
    + rewrite decide_False by congruence. by rewrite app_nil_r.
  - unfold DrainInfo. rewrite app_nil_r.
    destruct (PendingInfo g (Some r)) as [|x xs] eqn:E; simpl.
    { exists r. split; [done|]. by destruct (String.eqb g goal). }
    eexists. split; [done|].
    fold_upsert.
    rewrite PendingInfo_upsert. destruct (String.eqb_spec g goal) as [->|Hn].
    + rewrite decide_True by done. by rewrite app_nil_r.
    + by rewrite decide_False by congruence.
Qed.

(** Over every history of registry calls that does not re-register the goal, the
    info texts the drains of a goal delivered followed by those still pending are
    the texts pending before followed by the texts enqueued, in order: none is lost,
    repeated or given to another goal. *)
Theorem info_is_delivered_exactly_once goal ops r :
  forallb (fun op => negb (re_registers goal op)) ops = true ->
  let '(delivered, r') := reg_run goal ops (Some r) in
  delivered ++ PendingInfo goal r' = PendingInfo goal (Some r) ++ (ops ≫= enqueued goal).
Proof.
  revert r. induction ops as [|[now op] ops IH]; intros r H; simpl.
  - by rewrite app_nil_r.
  - simpl in H. to_prop. destruct (reg_step_account goal now op r) as (r1 & E & Hacc); [done|].
    destruct (reg_step op now (Some r)) as [out r2] eqn:Es. simpl in E. subst r2.
    specialize (IH r1 H0). destruct (reg_run goal ops (Some r1)) as [outs r3].
    rewrite (app_assoc (PendingInfo goal (Some r))), <- Hacc, <- app_assoc.
    etransitivity; [|exact (f_equal _ IH)].
    destruct op; try done. simpl. case_match; [by rewrite <- app_assoc | done].
Qed.

Lemma info_is_delivered_exactly_once_witness :
  let ops := [(1, OpRegister "g" StateQueued); (2, OpEnqueue "h" "a"); (3, OpDrain "g");
              (4, OpEnqueue "h" "b"); (5, OpDrain "h"); (6, OpEnqueue "h" "c")] in
  forallb (fun op => negb (re_registers "h" op)) ops = true /\
  let '(delivered, r') := reg_run "h" ops (Some NewStatusRegistry) in
  delivered ++ PendingInfo "h" r' = PendingInfo "h" (Some NewStatusRegistry) ++ (ops ≫= enqueued "h").
Proof.
  intros ops. assert (H : forallb (fun op => negb (re_registers "h" op)) ops = true) by reflexivity.
  split; [exact H|]. exact (info_is_delivered_exactly_once "h" ops NewStatusRegistry H).
Defined.
