(* ===== verification/Dispatch.v ===== *)
(** * Dispatching a plan ([internal/orchestrator/orchestrator.go])

    The spawn gates, the per-sub-goal pipeline [dispatchOne] and the concurrent
    join [dispatchSubGoals], with the journal writes of [runstore.go] they make.
    A goroutine is a program counter; one step of it is one access to shared
    state, so that any interleaving of the goroutines, of other goals' workers
    and of a cancellation is a schedule. The planner, the policy client, the
    reporter, the audit sink, the worker and the clock are seams over an
    external state; every call made to them is kept in a log. *)

From stdpp Require Import base gmap strings list.
From Stdlib Require Import ZArith Lia Ascii.
From S2P Require Import Prelude GoStrings Seams TaskSource Policy AuditTrail Containment Planner RunStore Loop Fleet.

Local Open Scope Z_scope.

(** ** Data *)

(** The [AuditEvent]s the orchestrator emits: the fields it sets. *)
Definition mkAuditEvent (action : AuditAction) (taskID runID policyDecision reason : string)
  (tamper : bool) : AuditEvent :=
  mkEvent action runID taskID "" "" (mkDetail "" "" "" 0 policyDecision "" reason tamper).

(** [SubGoalOutcome]. *)
Record SubGoalOutcome := mkSubGoalOutcome {
  so_SubGoal : string;
  so_Recipe : string;
  so_Success : bool;
  so_Detail : string;
  so_Blocked : option BlockedAction;
  so_Reevaluation : option ReevaluationOutcome
}.

(** [PlanResult]. *)
Record PlanResult := mkPlanResult { pr_Goal : string; pr_Outcomes : list SubGoalOutcome }.

(** The calls made to the seams, with what they answered. *)
Inductive Event :=
| EvPlan (goal : Task)
| EvDecide (req : DecideRequest) (d : PolicyDecision)
| EvAudit (ev : AuditEvent) (ok : bool)
| EvReport (msg : string) (ok : bool)
| EvDispatch (goalID : string) (sub : SubGoal).

Definition SpawnAction : string := "spawn-plan".
Definition SpawnWorkerAction : string := "spawn-worker".

(** ** Interfaces *)

(** [runstore.Store]; the store reads its clock at a save. *)
Class RunStoreLike (RS : Type) := {
  rs_Load : string -> RS -> result string (option RunRecord);
  rs_Save : Z -> RunRecord -> RS -> option string * RS;
  rs_ListInFlight : RS -> result string (list RunRecord)
}.

(** [PlanStore], and the error-returning pair of a [TamperAwarePlanStore]. A
    read may change the store: a guarded one asks its guard. *)
Class PlanStoreLike (PS : Type) := {
  ps_Put : Plan -> PS -> PS;
  ps_Get : string -> PS -> option Plan * PS;
  ps_Delete : string -> PS -> PS;
  ps_TamperAware : option ((Plan -> PS -> option string * PS) * (string -> PS -> option string * PS))
}.

(** ** Plan-derived authorization *)

Definition add_resource (ordered : list string) (id : string) : list string :=
  if String.eqb id "" then ordered
  else if bool_decide (id ∈ ordered) then ordered
  else ordered ++ [id].

(** [Plan.AllowedResources]. *)
Definition AllowedResources (p : Plan) : list string :=
  let ordered := add_resource [] (pl_GoalID p) in
  let ordered := foldl (fun acc s => add_resource acc (sg_RecipeName s)) ordered (pl_SubGoals p) in
  foldl (fun acc s => add_resource acc (task_ID (sg_Task s))) ordered (pl_SubGoals p).

(** [Plan.authorizesResource]. *)
Definition authorizesResource (p : Plan) (id : string) : bool :=
  existsb (fun r => String.eqb r id) (AllowedResources p).

(** [classifyBlockedSpawn]. *)
Definition classifyBlockedSpawn (sub : SubGoal) (reason : string) : BlockedAction :=
  mkBlockedAction (sg_RecipeName sub) SpawnWorkerAction reason.

(** The text of an error of the re-evaluation. *)
Definition reevaluation_error (e : LoopErr) : string :=
  match e with
  | LErrNilStatusWriter => "loop: nil status writer"
  | LErrEmptyBlockedAction => "loop: blocked-action carries no resource/action/reason"
  | LErrNegativeMaxReevaluations => "loop: negative max reevaluations"
  | LErrNilReplanFunc => "loop: nil replan func"
  | LErrReplan n e =>
    "loop: replan after blocked action (reevaluation " +:+ FormatInt n +:+ "): " +:+ e
  | LErrMarkNeedsHuman id e => "loop: mark blocked task " +:+ id +:+ " needs-human: " +:+ e
  | _ => ""
  end.

(** The errors of the goal-level operations. *)
Inductive OrchErr :=
| OErrPlan (goalID e : string)
| OErrEmptyPlan (goalID : string)
| OErrConfigure (goalID e : string)
| OErrReport (e : string)
| OErrWriteGate (goalID e : string)
| OErrRole (from to : string)
| OErrNoPlan (goalID : string)
| OErrTamper (goalID e : string)
| OErrDenyAudit (e : string)
| OErrAnalyze (goalID e : string)
| OErrClarify (goalID e : string)
| OErrUnmarshal (goalID : string)
| OErrNoRunStore
| OErrLoad (goalID e : string)
| OErrNoRecord (goalID : string)
| OErrNoPending (goalID taskID : string)
| OErrNotInPlan (goalID taskID : string)
| OErrNoConversation (goalID : string)
| OErrNoAnswerer (goalID : string)
| OErrAttemptsExhausted (goalID : string) (attempts : Z).

(** [RenderPlanResult]. *)
Definition RenderPlanResult (r : PlanResult) : string :=
  TrimRight (fun c => Ascii.eqb c nl)
    ("Goal: " +:+ pr_Goal r +:+ lf +:+
     FormatInt (Z.of_nat (length (pr_Outcomes r))) +:+ " sub-goal(s):" +:+ lf +:+
     Join "" (map (fun oc =>
       "  [" +:+ (if so_Success oc then "OK" else "FAIL") +:+ "] " +:+ so_Recipe oc +:+ " -> " +:+
       so_Detail oc +:+ lf) (pr_Outcomes r))).

(** [renderApprovalRequestWithInfo]. *)
Definition renderApprovalRequestWithInfo (plan : Plan) (info : list string) : string :=
  TrimRight (fun c => Ascii.eqb c nl)
    ("Approve? Plan for goal: " +:+ pl_Goal plan +:+ lf +:+
     FormatInt (Z.of_nat (length (pl_SubGoals plan))) +:+ " sub-goal(s):" +:+ lf +:+
     Join "" (map (fun sub =>
       "  - " +:+ sg_RecipeName sub +:+ ": " +:+ task_Spec (sg_Task sub) +:+ lf) (pl_SubGoals plan)) +:+
     match info with
     | [] => ""
     | _ => "Queued info (will be folded on approve):" +:+ lf +:+
            Join "" (map (fun line => "  * " +:+ line +:+ lf) info)
     end).

(** Where a dispatch goroutine stands. *)
Inductive Pc :=
| PcStart
| PcDecide
| PcAudit (d : PolicyDecision) (denyReason : string)
| PcReport (denyReason : string)
| PcMark
| PcRecord
| PcAcquire
| PcCheck
| PcInvoke
| PcHooks (hooks : list (Task * string)) (requested : bool) (err : option string)
| PcRelease (paused requested : bool) (err : option string)
| PcSettle (paused requested : bool) (err : option string)
| PcJournal (status : RunStatus) (detail : string) (outcome : SubGoalOutcome)
| PcDone (outcome : SubGoalOutcome) (auditErr : option string).

(** The program counters at which [dispatchWithSemaphore] holds a permit. *)
Definition holds_permit (pc : Pc) : bool :=
  match pc with PcCheck | PcInvoke | PcHooks _ _ _ | PcRelease _ _ _ => true | _ => false end.

(** The program counter inside [o.dispatch]. *)
Definition running (pc : Pc) : bool :=
  match pc with PcHooks _ _ _ => true | _ => false end.

Definition done_result (pc : Pc) : option (SubGoalOutcome * option string) :=
  match pc with PcDone o e => Some (o, e) | _ => None end.

Section Orchestrator.
Context {X PS RS : Type} `{RunStoreLike RS}.
Variables (uni : string -> string) (url_Parse : string -> option (string * string))
          (quote : string -> string).

(** [recipe.SelectRecipe] on the registered factories; [Some err] is a
    factory that fails. *)
Definition SelectRecipe (registry : gmap string (option string)) (name : string)
  : result string string :=
  if String.eqb name "" then Err "recipe.SelectRecipe: empty recipe name"
  else match registry !! name with
  | None => Err ("recipe.SelectRecipe: recipe " +:+ quote name +:+ " not found")
  | Some (Some err) => Err err
  | Some None => Ok name
  end.

(** The seams and settings of [Orchestrator]; an unset optional seam is
    [None]. [o_dispatch] is told whether the approval hook is set and answers
    with the calls it made to the hook and its error. *)
Record Orch := mkOrch {
  o_planner : Task -> X -> result string Plan * X;
  o_policy : DecideRequest -> X -> DecideResponse * X;
  o_scoper : option (Plan -> X -> option string * X);
  o_reporter : string -> X -> option string * X;
  o_auditSink : option (AuditEvent -> X -> option string * X);
  o_dispatch : bool -> SubGoal -> X -> (list (Task * string) * option string) * X;
  o_clock : X -> Z * X;
  o_recipes : gmap string (option string);
  o_risk : string;
  o_statusWriter : option (string -> WritableStatus -> X -> result string StatusWriteResult * X);
  o_reevaluationBound : Z;
  o_MaxAttempts : Z;
  o_requireApproval : bool;
  o_marshal : Plan -> result string string;
  o_unmarshal : string -> option Plan
}.

(** The shared state. [w_foreign] permits of the semaphore are held by the
    workers of other goals. *)
Record World := mkWorld {
  w_reg : option StatusRegistry;
  w_sem : option Semaphore;
  w_foreign : nat;
  w_cancelled : bool;
  w_plans : PS;
  w_runs : option RS;
  w_log : list Event;
  w_ext : X
}.

Definition set_reg (f : option StatusRegistry -> option StatusRegistry) (w : World) : World :=
  mkWorld (f (w_reg w)) (w_sem w) (w_foreign w) (w_cancelled w) (w_plans w) (w_runs w) (w_log w) (w_ext w).
Definition set_sem (s : option Semaphore) (w : World) : World :=
  mkWorld (w_reg w) s (w_foreign w) (w_cancelled w) (w_plans w) (w_runs w) (w_log w) (w_ext w).
Definition set_plans (p : PS) (w : World) : World :=
  mkWorld (w_reg w) (w_sem w) (w_foreign w) (w_cancelled w) p (w_runs w) (w_log w) (w_ext w).
Definition set_runs (r : option RS) (w : World) : World :=
  mkWorld (w_reg w) (w_sem w) (w_foreign w) (w_cancelled w) (w_plans w) r (w_log w) (w_ext w).
Definition set_ext (x : X) (w : World) : World :=
  mkWorld (w_reg w) (w_sem w) (w_foreign w) (w_cancelled w) (w_plans w) (w_runs w) (w_log w) x.
Definition logged (e : Event) (x : X) (w : World) : World :=
  mkWorld (w_reg w) (w_sem w) (w_foreign w) (w_cancelled w) (w_plans w) (w_runs w) (w_log w ++ [e]) x.

Variable o : Orch.

Definition no_err {E} (e : option E) : bool := match e with None => true | Some _ => false end.

(** *** Seam calls *)

Definition now (w : World) : Z * World :=
  let '(t, x) := o_clock o (w_ext w) in (t, set_ext x w).

(** [o.reporter.Report]. *)
Definition report (msg : string) (w : World) : option string * World :=
  let '(e, x) := o_reporter o msg (w_ext w) in (e, logged (EvReport msg (no_err e)) x w).

(** [o.policy.Decide], whose error is ignored. *)
Definition decide_policy (req : DecideRequest) (w : World) : PolicyDecision * World :=
  let '(resp, x) := o_policy o req (w_ext w) in
  (dp_Decision resp, logged (EvDecide req (dp_Decision resp)) x w).

(** [o.planner.Plan]. *)
Definition plan_goal (goal : Task) (w : World) : result string Plan * World :=
  let '(r, x) := o_planner o goal (w_ext w) in (r, logged (EvPlan goal) x w).

(** [o.registry.SetState] and [o.registry.SetSubGoal]; the registry reads its
    own clock. *)
Definition set_state (goalID : string) (s : GoalState) (w : World) : World :=
  let '(t, w) := now w in set_reg (SetState t goalID s) w.
Definition set_sub_goal (goalID : string) (p : SubGoalProgress) (w : World) : World :=
  let '(t, w) := now w in set_reg (SetSubGoal t goalID p) w.

(** [emitFleetEvent]. *)
Definition emitFleetEvent (ev : AuditEvent) (w : World) : World :=
  match o_auditSink o with
  | None => w
  | Some append =>
    let '(e, x) := append ev (w_ext w) in logged (EvAudit ev (no_err e)) x w
  end.

(** [emitFleetEventForDeny]. *)
Definition emitFleetEventForDeny (ev : AuditEvent) (isDeny : bool) (w : World) : option string * World :=
  match o_auditSink o with
  | None =>
    (if isDeny then
       Some "orchestrator: policy gating enabled but no audit sink configured; cannot audit deny"
     else None, w)
  | Some append =>
    let '(e, x) := append ev (w_ext w) in
    let w := logged (EvAudit ev (no_err e)) x w in
    match e with
    | Some err =>
      (if isDeny then Some ("orchestrator: failed to audit spawn-decided deny: " +:+ err) else None, w)
    | None => (None, w)
    end
  end.

(** [emitTamperEvent]. *)
Definition emitTamperEvent (goalID : string) (w : World) : World :=
  emitFleetEvent
    (mkAuditEvent ActionTamper goalID "" ""
       "memory-guard delete-verify reported tamper (residue_detected or !confirmed)" true) w.

(** ** The gates *)

Definition request (action ty id repo sink : string) : DecideRequest :=
  mkDecideRequest "agent" "orchestrator" action ty id [] repo sink (o_risk o).

(** [decideSpawn]. *)
Definition decideSpawn (plan : Plan) (w : World) : PolicyDecision * World :=
  decide_policy (request SpawnAction "plan" (pl_GoalID plan) "" "") w.

Definition worker_request (sub : SubGoal) : DecideRequest :=
  request SpawnWorkerAction "recipe" (sg_RecipeName sub) (sg_TargetRepo sub) (sg_Sink sub).

(** [decideSpawnWorker]. *)
Definition decideSpawnWorker (plan : Plan) (sub : SubGoal) (w : World)
  : (PolicyDecision * string) * World :=
  if targetsOwnRepo uni url_Parse sub then
    ((PolicyDeny, "self-repo bright line: refusing to dispatch a worker targeting " +:+ OwnRepo), w)
  else if negb (authorizesResource plan (sg_RecipeName sub)) then
    ((PolicyDeny, "plan-derived authorization: recipe " +:+ quote (sg_RecipeName sub) +:+
                  " is not in the plan's allowed set"), w)
  else if negb (authorizesResource plan (task_ID (sg_Task sub))) then
    ((PolicyDeny, "plan-derived authorization: task " +:+ quote (task_ID (sg_Task sub)) +:+
                  " is not in the plan's allowed set"), w)
  else
    let '(d, w) := decide_policy (worker_request sub) w in
    (match d with
     | PolicyAllow => (PolicyAllow, "")
     | PolicyRequireApproval => (PolicyRequireApproval, "policy: worker spawn requires human approval")
     | PolicyDeny => (PolicyDeny, "policy: worker spawn denied")
     end, w).

(** ** The run journal, as dispatch writes it ([runstore.go]) *)

Definition set_attempts (r : RunRecord) (l : list AttemptState) : RunRecord :=
  mkRecord (rr_GoalID r) (rr_Goal r) (rr_Plan r) l (rr_Pending r) (rr_Status r)
    (rr_CreatedAt r) (rr_UpdatedAt r) (rr_Deleted r) (rr_Attempt r).
Definition set_pending (r : RunRecord) (l : list PendingApproval) : RunRecord :=
  mkRecord (rr_GoalID r) (rr_Goal r) (rr_Plan r) (rr_Attempts r) l (rr_Status r)
    (rr_CreatedAt r) (rr_UpdatedAt r) (rr_Deleted r) (rr_Attempt r).
Definition set_status (r : RunRecord) (s : RunStatus) : RunRecord :=
  mkRecord (rr_GoalID r) (rr_Goal r) (rr_Plan r) (rr_Attempts r) (rr_Pending r) s
    (rr_CreatedAt r) (rr_UpdatedAt r) (rr_Deleted r) (rr_Attempt r).
Definition set_attempt (r : RunRecord) (n : Z) : RunRecord :=
  mkRecord (rr_GoalID r) (rr_Goal r) (rr_Plan r) (rr_Attempts r) (rr_Pending r) (rr_Status r)
    (rr_CreatedAt r) (rr_UpdatedAt r) (rr_Deleted r) n.

(** [runstore.Record{GoalID: goalID, Status: status}]. *)
Definition minimal_record (goalID : string) (status : RunStatus) : RunRecord :=
  mkRecord goalID "" "" [] [] status 0 0 false 0.

Definition save (rs : RS) (r : RunRecord) (w : World) : option string * World :=
  let '(t, w) := now w in
  let '(e, rs) := rs_Save t r rs in (e, set_runs (Some rs) w).

(** The loop of [recordAttempt]: the first entry of the task at attempt 1, or
    a new one at the end. *)
Fixpoint put_attempt (taskID : string) (status : RunStatus) (detail : string) (t : Z)
  (l : list AttemptState) : list AttemptState :=
  match l with
  | [] => [mkAttempt taskID 1 status detail t]
  | a :: l =>
    if String.eqb (at_TaskID a) taskID && (at_Attempt a =? 1)
    then mkAttempt (at_TaskID a) (at_Attempt a) status detail t :: l
    else a :: put_attempt taskID status detail t l
  end.

(** [recordAttempt]. *)
Definition recordAttempt (goalID taskID : string) (status : RunStatus) (detail : string)
  (w : World) : World :=
  match w_runs w with
  | None => w
  | Some rs =>
    match rs_Load goalID rs with
    | Err _ => w
    | Ok r =>
      let r := default (minimal_record goalID StatusRunning) r in
      let '(t, w) := now w in
      (save rs (set_attempts r (put_attempt taskID status detail t (rr_Attempts r))) w).2
    end
  end.

(** [recordPendingApproval]. *)
Definition recordPendingApproval (goalID taskID reason : string) (w : World) : World :=
  match w_runs w with
  | None => w
  | Some rs =>
    match rs_Load goalID rs with
    | Err _ => w
    | Ok r =>
      let r := default (minimal_record goalID (StatusOther "")) r in
      let '(t, w) := now w in
      let r := set_pending r (rr_Pending r ++ [mkPending taskID reason t false]) in
      (save rs (set_status r StatusAwaitingApproval) w).2
    end
  end.

(** [planAwaitingApproval]. *)
Definition planAwaitingApproval (goalID : string) (w : World) : bool :=
  match w_runs w with
  | None => false
  | Some rs =>
    match rs_Load goalID rs with
    | Ok (Some r) => bool_decide (rr_Status r = StatusAwaitingApproval)
    | _ => false
    end
  end.

Definition completed_in (attempts : list AttemptState) (taskID : string) : bool :=
  existsb (fun a => bool_decide (at_Status a = StatusCompleted) && String.eqb (at_TaskID a) taskID) attempts.

(** [finalizeGoalStatus]. *)
Definition finalizeGoalStatus (plan : Plan) (w : World) : World :=
  match w_runs w with
  | None => w
  | Some rs =>
    match rs_Load (pl_GoalID plan) rs with
    | Err _ | Ok None => w
    | Ok (Some r) =>
      if bool_decide (rr_Status r = StatusAwaitingApproval) then w
      else
        let allDone := (0 <? length (pl_SubGoals plan))%nat &&
          forallb (fun s => completed_in (rr_Attempts r) (task_ID (sg_Task s))) (pl_SubGoals plan) in
        if allDone && negb (bool_decide (rr_Status r = StatusCompleted))
        then (save rs (set_status r StatusCompleted) w).2
        else w
    end
  end.

(** ** One sub-goal *)

Definition outcome_of (sub : SubGoal) (success : bool) (detail : string) (b : option BlockedAction)
  : SubGoalOutcome :=
  mkSubGoalOutcome (task_Spec (sg_Task sub)) (sg_RecipeName sub) success detail b None.

Definition progress_of (sub : SubGoal) (state : string) : SubGoalProgress :=
  mkProgress (task_ID (sg_Task sub)) (sg_RecipeName sub) state.

Definition is_allow (d : PolicyDecision) : bool :=
  match d with PolicyAllow => true | _ => false end.

(** One access to shared state by the goroutine of [sub] in [dispatchOne] and
    [dispatchWithSemaphore]. [cancelArm] is the arm a select with both arms
    ready takes; [None] is a parked goroutine. *)
Definition thread_step (plan : Plan) (sub : SubGoal) (cancelArm : bool) (pc : Pc) (w : World)
  : option (Pc * World) :=
  let goalID := pl_GoalID plan in
  let taskID := task_ID (sg_Task sub) in
  match pc with
  | PcStart =>
    match SelectRecipe (o_recipes o) (sg_RecipeName sub) with
    | Err _ =>
      Some (PcDone (outcome_of sub false ("recipe not found: " +:+ sg_RecipeName sub) None) None, w)
    | Ok _ => Some (PcDecide, w)
    end
  | PcDecide =>
    let '((d, reason), w) := decideSpawnWorker plan sub w in Some (PcAudit d reason, w)
  | PcAudit d denyReason =>
    let auditReason := if is_allow d then sg_RecipeName sub else denyReason in
    let ev := mkAuditEvent ActionSpawnDecided taskID goalID (PolicyDecision_string d) auditReason false in
    let '(e, w) := emitFleetEventForDeny ev (negb (is_allow d)) w in
    match e with
    | Some err => Some (PcDone (outcome_of sub false "" None) (Some err), w)
    | None => Some (if is_allow d then PcMark else PcReport denyReason, w)
    end
  | PcReport denyReason =>
    let b := classifyBlockedSpawn sub denyReason in
    let blocked := if IsZero b then None else Some b in
    let '(e, w) := report ("Worker spawn denied: recipe " +:+ sg_RecipeName sub +:+ " — " +:+ denyReason) w in
    let detail := match e with
                  | None => denyReason
                  | Some err => denyReason +:+ " (report failed: " +:+ err +:+ ")"
                  end in
    Some (PcDone (outcome_of sub false detail blocked) None, w)
  | PcMark => Some (PcRecord, set_sub_goal goalID (progress_of sub "running") w)
  | PcRecord => Some (PcAcquire, recordAttempt goalID taskID StatusRunning "" w)
  | PcAcquire =>
    match w_sem w with
    | None => Some (PcCheck, w)
    | Some s =>
      if cancelArm then
        if w_cancelled w then
          Some (PcSettle false false
                  (Some ("orchestrator: acquire worker permit for " +:+ quote taskID +:+ ": context canceled")), w)
        else None
      else match Acquire s with
      | None => None
      | Some s => Some (PcCheck, set_sem (Some s) w)
      end
    end
  | PcCheck =>
    if planAwaitingApproval goalID w then Some (PcRelease true false None, w) else Some (PcInvoke, w)
  | PcInvoke =>
    let hook_set := match w_runs w with None => false | Some _ => true end in
    let '((hooks, err), x) := o_dispatch o hook_set sub (w_ext w) in
    Some (PcHooks (if hook_set then hooks else []) false err, logged (EvDispatch goalID sub) x w)
  | PcHooks ((t, reason) :: hooks) _ err =>
    Some (PcHooks hooks true err, recordPendingApproval goalID (task_ID t) reason w)
  | PcHooks [] requested err => Some (PcRelease false requested err, w)
  | PcRelease paused requested err =>
    match w_sem w with
    | None => Some (PcSettle paused requested err, w)
    | Some s =>
      match Release s with
      | None => None
      | Some s => Some (PcSettle paused requested err, set_sem (Some s) w)
      end
    end
  | PcSettle paused requested err =>
    if paused then Some (PcDone (outcome_of sub false "paused: plan awaiting approval" None) None, w)
    else if requested then
      Some (PcJournal StatusAwaitingApproval "requires human approval"
              (outcome_of sub false "awaiting approval" None), w)
    else match err with
    | Some e =>
      Some (PcJournal StatusFailed e (outcome_of sub false e None),
            set_sub_goal goalID (progress_of sub "failed") w)
    | None =>
      Some (PcJournal StatusCompleted "" (outcome_of sub true "dispatched" None),
            set_sub_goal goalID (progress_of sub "done") w)
    end
  | PcJournal status detail outcome =>
    Some (PcDone outcome None, recordAttempt goalID taskID status detail w)
  | PcDone _ _ => None
  end.

(** ** The goroutines of one plan *)

(** Whose turn it is: goroutine [i], a worker of another goal taking or
    returning a permit, or the cancellation of the goal's context. *)
Inductive Turn :=
| RunThread (i : nat) (cancelArm : bool)
| OtherAcquire
| OtherRelease
| CtxCancel.

Definition Team : Type := list (SubGoal * Pc) * World.

Definition other (s : option Semaphore) (foreign : nat) (w : World) : World :=
  mkWorld (w_reg w) s foreign (w_cancelled w) (w_plans w) (w_runs w) (w_log w) (w_ext w).
Definition cancel_ctx (w : World) : World :=
  mkWorld (w_reg w) (w_sem w) (w_foreign w) true (w_plans w) (w_runs w) (w_log w) (w_ext w).

(** One turn; [None] when it is not enabled. *)
Definition team_step (plan : Plan) (t : Turn) (st : Team) : option Team :=
  let '(pcs, w) := st in
  match t with
  | RunThread i cancelArm =>
    match pcs !! i with
    | None => None
    | Some (sub, pc) =>
      match thread_step plan sub cancelArm pc w with
      | None => None
      | Some (pc, w) => Some (<[i := (sub, pc)]> pcs, w)
      end
    end
  | OtherAcquire =>
    match w_sem w with
    | None => None
    | Some s => match Acquire s with
                | None => None
                | Some s => Some (pcs, other (Some s) (S (w_foreign w)) w)
                end
    end
  | OtherRelease =>
    match w_sem w, w_foreign w with
    | Some s, S k => match Release s with
                     | None => None
                     | Some s => Some (pcs, other (Some s) k w)
                     end
    | _, _ => None
    end
  | CtxCancel => Some (pcs, cancel_ctx w)
  end.

Fixpoint run_schedule (plan : Plan) (sched : list Turn) (st : Team) : option Team :=
  match sched with
  | [] => Some st
  | t :: sched => match team_step plan t st with None => None | Some st => run_schedule plan sched st end
  end.

Definition spawn (subs : list SubGoal) : list (SubGoal * Pc) := map (fun s => (s, PcStart)) subs.

(** [wg.Wait()]: the outcomes and audit errors once every goroutine is done. *)
Definition join (pcs : list (SubGoal * Pc)) : option (list (SubGoalOutcome * option string)) :=
  mapM (fun p => done_result p.2) pcs.

(** ** Re-evaluation of blocked outcomes *)

Definition lift_status_writer (sw : string -> WritableStatus -> X -> result string StatusWriteResult * X)
  : @StatusWriterFn World :=
  fun id s w => let '(r, x) := sw id s (w_ext w) in (r, set_ext x w).

(** The [ReplanFunc] of [ReevaluateBlockedSpawn]. *)
Definition spawn_replan (goal : Task) : @ReplanFunc World :=
  fun b w =>
    let '(r, w) := plan_goal goal w in
    match r with
    | Err e => (Err e, w)
    | Ok plan =>
      (Ok (mkReevaluation (AllowedResources plan) (authorizesResource plan (ba_Resource b))), w)
    end.

(** [ReevaluateBlockedSpawn]. *)
Definition ReevaluateBlockedSpawn (goal : Task) (blocked : BlockedAction) (maxReevaluations : Z)
  (sw : option (@StatusWriterFn World)) (w : World) : result LoopErr ReevaluationOutcome * World :=
  match NewReevaluationPolicy maxReevaluations (Some (spawn_replan goal)) with
  | Err e => (Err e, w)
  | Ok pol => ReevaluateBlocked pol (task_ID goal) blocked sw w
  end.

Definition set_reevaluation (oc : SubGoalOutcome) (r : ReevaluationOutcome) : SubGoalOutcome :=
  mkSubGoalOutcome (so_SubGoal oc) (so_Recipe oc) (so_Success oc) (so_Detail oc) (so_Blocked oc) (Some r).

(** The loop over the outcomes after the join. *)
Fixpoint reevaluate_outcomes (plan : Plan) (bound : Z) (sw : @StatusWriterFn World)
  (ocs : list SubGoalOutcome) (w : World) : list SubGoalOutcome * World :=
  match ocs with
  | [] => ([], w)
  | oc :: ocs =>
    let '(oc, w) :=
      match so_Blocked oc with
      | None => (oc, w)
      | Some b =>
        let '(r, w) := ReevaluateBlockedSpawn (mkTask (pl_GoalID plan) "" (pl_Goal plan) "") b bound (Some sw) w in
        match r with
        | Err e => (oc, (report ("reevaluation error: " +:+ reevaluation_error e) w).2)
        | Ok r => (set_reevaluation oc r, w)
        end
      end in
    let '(ocs, w) := reevaluate_outcomes plan bound sw ocs w in
    (oc :: ocs, w)
  end.

(** The first error of [denyAuditErrs]. *)
Fixpoint first_err (errs : list (option string)) : option string :=
  match errs with
  | [] => None
  | Some e :: _ => Some e
  | None :: errs => first_err errs
  end.

(** [dispatchSubGoals] after [wg.Wait]. *)
Definition after_join (plan : Plan) (results : list (SubGoalOutcome * option string)) (w : World)
  : (PlanResult * option OrchErr) * World :=
  let outcomes := results.*1 in
  match first_err results.*2 with
  | Some e =>
    ((mkPlanResult (pl_Goal plan) outcomes, Some (OErrDenyAudit e)), set_state (pl_GoalID plan) StateFailed w)
  | None =>
    let '(outcomes, w) :=
      match o_statusWriter o with
      | None => (outcomes, w)
      | Some sw =>
        let bound := if o_reevaluationBound o <=? 0 then o_MaxAttempts o else o_reevaluationBound o in
        reevaluate_outcomes plan bound (lift_status_writer sw) outcomes w
      end in
    let result := mkPlanResult (pl_Goal plan) outcomes in
    let w := finalizeGoalStatus plan w in
    let w := emitFleetEvent (mkAuditEvent ActionCompletion (pl_GoalID plan) (pl_GoalID plan) "" "" false) w in
    let w := if w_cancelled w then w else set_state (pl_GoalID plan) StateDone w in
    let '(e, w) := report (RenderPlanResult result) w in
    ((result, OErrReport <$> e), w)
  end.

(** [dispatchSubGoals] under the schedule [sched]; [None] when the schedule
    ends, or names a turn that is not enabled, before the join. *)
Definition dispatchSubGoals (sched : list Turn) (plan : Plan) (subs : list SubGoal) (w : World)
  : option ((PlanResult * option OrchErr) * World) :=
  let w := set_state (pl_GoalID plan) StateDispatching w in
  match run_schedule plan sched (spawn subs, w) with
  | None => None
  | Some (pcs, w) =>
    match join pcs with None => None | Some results => Some (after_join plan results w) end
  end.

(** [dispatchPlan]. *)
Definition dispatchPlan (sched : list Turn) (plan : Plan) (w : World)
  : option ((PlanResult * option OrchErr) * World) :=
  dispatchSubGoals sched plan (pl_SubGoals plan) w.
End Orchestrator.
