(* ===== verification/Stores.v ===== *)
(** * The stores behind the orchestrator

    What the orchestrator relies on of a run journal and of a plan store, as
    classes of laws; the [FileStore] of [internal/runstore] and the
    [MemoryPlanStore] of [internal/orchestrator/store.go] discharge them. *)

From stdpp Require Import base gmap strings list.
From Stdlib Require Import ZArith Lia Ascii.
From S2P Require Import Prelude GoStrings Seams TaskSource Policy AuditTrail Containment Planner RunStore Loop Fleet Dispatch.

Local Open Scope Z_scope.

(** ** The run journal *)

(** A saved record is what the next load finds; a failed save changes nothing
    that a load sees. *)
Class RunStoreLaws (RS : Type) `{RunStoreLike RS} := {
  rs_wf : RS -> Prop;
  rs_save_wf t r s e s' : rs_wf s -> rs_Save t r s = (e, s') -> rs_wf s';
  rs_load_key g s r : rs_wf s -> rs_Load g s = Ok (Some r) -> rr_GoalID r = g /\ rr_Deleted r = false;
  rs_save_lookup t r s s' :
    rs_wf s -> rs_Save t r s = (None, s') -> rr_Deleted r = false ->
    exists c, forall g, rs_Load g s' = if decide (g = rr_GoalID r) then Ok (Some (stamp r c t)) else rs_Load g s;
  rs_save_fails t r s e s' : rs_Save t r s = (Some e, s') -> forall g, rs_Load g s' = rs_Load g s
}.

(** A [FileStore] with what the disk will do to its next appends. *)
Definition FaultyFileStore : Type := FileStore * list (option AppendFault).

Section FileStoreInstance.
Variables (marshal : RunRecord -> option string)
          (range : gmap string RunRecord -> list (string * RunRecord))
          (show : RunStoreErr -> string).

Definition faulty_save (t : Z) (r : RunRecord) (s : FaultyFileStore) : option string * FaultyFileStore :=
  let '(fs, faults) := s in
  let '(e, fs) := Save marshal t r (default None (head faults)) fs in
  (show <$> e, (fs, tail faults)).

Definition FileStore_RunStoreLike : RunStoreLike FaultyFileStore := {|
  rs_Load g s := Ok (LoadRecord g s.1);
  rs_Save := faulty_save;
  rs_ListInFlight s := Ok (ListInFlight range s.1)
|}.

(** Every record of the index is live and stands under its goal. *)
Definition index_wf (s : FaultyFileStore) : Prop :=
  forall g r, fs_index s.1 !! g = Some r -> rr_GoalID r = g /\ rr_Deleted r = false.

Lemma apply_wf idx r : (forall g r, idx !! g = Some r -> rr_GoalID r = g /\ rr_Deleted r = false) ->
  forall g r', apply idx r !! g = Some r' -> rr_GoalID r' = g /\ rr_Deleted r' = false.
Proof.
  intros Hi g r'. unfold apply. destruct (rr_Deleted r) eqn:Ed.
  - intros [_ Hg]%lookup_delete_Some. by apply Hi.
  - intros [[<- <-]|[_ Hg]]%lookup_insert_Some; [done | by apply Hi].
Qed.

Lemma faulty_save_spec t r fs faults e s' :
  faulty_save t r (fs, faults) = (e, s') ->
  match e with
  | None => fs_index s'.1 = apply (fs_index fs) (stamp r (if rr_CreatedAt r =? 0 then t else rr_CreatedAt r) t)
  | Some _ => fs_index s'.1 = fs_index fs
  end.
Proof.
  unfold faulty_save, Save, append_apply. destruct (appendLine _ _ _ _) as [[err|] d];
    intros [= <- <-]; done.
Qed.

Definition FileStore_RunStoreLaws :
  @RunStoreLaws FaultyFileStore FileStore_RunStoreLike.
Proof.
  refine {| rs_wf := index_wf : FaultyFileStore -> Prop |}.
  - intros t r [fs faults] e s' Hwf Es. apply faulty_save_spec in Es as Ei. unfold index_wf in *.
    destruct e; rewrite Ei; [exact Hwf | by apply apply_wf].
  - intros g [fs faults] r Hwf. simpl. intros [= Hg]. by apply Hwf.
  - intros t r [fs faults] s' _ Es Ed. apply faulty_save_spec in Es as Ei. eexists. intros g. simpl.
    unfold LoadRecord. rewrite Ei. unfold apply. simpl. rewrite Ed.
    case_decide; [subst; by rewrite lookup_insert_eq | by rewrite lookup_insert_ne].
  - intros t r [fs faults] e s' Es g. apply faulty_save_spec in Es as Ei. simpl. unfold LoadRecord.
    by rewrite Ei.
Defined.
End FileStoreInstance.

(** ** The plan store *)

Class PlanStoreLaws (PS : Type) `{PlanStoreLike PS} := {
  ps_put_get p s g : ps_TamperAware = None ->
    (ps_Get g (ps_Put p s)).1 = if decide (g = pl_GoalID p) then Some p else (ps_Get g s).1;
  ps_delete_get g s g' : ps_TamperAware = None ->
    (ps_Get g' (ps_Delete g s)).1 = if decide (g' = g) then None else (ps_Get g' s).1;
  ps_get_pure g s : ps_TamperAware = None -> (ps_Get g s).2 = s;
  ps_try_delete_get tp td g s s' : ps_TamperAware = Some (tp, td) -> td g s = (None, s') -> ps_Get g s' = (None, s')
}.

(** [MemoryPlanStore]. *)
Notation MemoryPlanStore := (gmap string Plan).
Definition NewMemoryPlanStore : MemoryPlanStore := ∅.
Definition MemoryPlanStore_Put (p : Plan) (s : MemoryPlanStore) : MemoryPlanStore := <[pl_GoalID p := p]> s.
Definition MemoryPlanStore_Get (goalID : string) (s : MemoryPlanStore) : option Plan * MemoryPlanStore :=
  (s !! goalID, s).
Definition MemoryPlanStore_Delete (goalID : string) (s : MemoryPlanStore) : MemoryPlanStore :=
  delete goalID s.

#[export] Instance MemoryPlanStore_PlanStoreLike : PlanStoreLike MemoryPlanStore := {|
  ps_Put := MemoryPlanStore_Put;
  ps_Get := MemoryPlanStore_Get;
  ps_Delete := MemoryPlanStore_Delete;
  ps_TamperAware := None
|}.

#[export] Instance MemoryPlanStore_PlanStoreLaws : PlanStoreLaws MemoryPlanStore.
Proof.
  split; simpl; [| |done|done].
  - intros p s g _. unfold MemoryPlanStore_Get, MemoryPlanStore_Put.
    case_decide; [subst; by rewrite lookup_insert_eq | by rewrite lookup_insert_ne].
  - intros g s g' _. unfold MemoryPlanStore_Get, MemoryPlanStore_Delete.
    case_decide; [subst; by rewrite lookup_delete_eq | by rewrite lookup_delete_ne].
Qed.

(** ** A concrete orchestrator

    A policy engine that allows the recipe [build] and no other, an audit sink
    that loses the events of the tasks it is told to, a reporter and a worker
    that always answer, and a journal on a fault-free disk. *)
Module Demo.
Definition state : Type := nat.   (* the clock *)

Definition planner (goal : Task) (x : state) : result string Plan * state :=
  match PlanGoal (fun s => s) builtin_skills (NewStructuredPlanner ["build"; "publish"]) goal with
  | Ok p => (Ok p, x)
  | Err _ => (Err "no plan", x)
  end.
Definition policy (req : DecideRequest) (x : state) : DecideResponse * state :=
  (mkDecideResponse
     (if String.eqb (dr_Action req) SpawnAction || String.eqb (dr_ResourceID req) "build" then PolicyAllow
      else PolicyDeny) [] "", x).
Definition append (lossy : bool) (ev : AuditEvent) (x : state) : option string * state :=
  (if lossy && String.eqb (ae_PolicyDecision ev) "deny" then Some "disk full" else None, x).

Definition sub (id recipe : string) : SubGoal := mkSubGoal (mkTask id "" "spec" "") recipe "" "".
Definition plan : Plan := mkPlan "goal" "g" [sub "g-0" "build"; sub "g-1" "publish"; sub "g-2" "build"].

(** [lossy]: the audit sink loses denials; [approve]: plans pause for an
    operator; [fails]: every worker fails. *)
Definition orch (lossy approve : bool) (fails : bool) : @Orch state :=
  mkOrch planner policy None (fun _ x => (None, x)) (Some (append lossy))
    (fun _ _ x => (([], if fails then Some "tests failed" else None), x))
    (fun x => (Z.of_nat x, S x)) {["build" := None; "publish" := None; "coding-agent" := None]} "low" None 0 3 approve
    (fun p => Ok (pl_GoalID p)) (fun data => if String.eqb data "g" then Some plan else None).

#[global] Instance store : RunStoreLike FaultyFileStore :=
  FileStore_RunStoreLike (fun _ => Some "{}") map_to_list (fun _ => "runstore: error").

#[global] Instance store_laws : RunStoreLaws FaultyFileStore :=
  FileStore_RunStoreLaws (fun _ => Some "{}") map_to_list (fun _ => "runstore: error").

(** No fault is left to happen. *)
Definition faultless (s : FaultyFileStore) : Prop := s.2 = [].

Definition world (cap : nat) : @World state MemoryPlanStore FaultyFileStore :=
  mkWorld (Some NewStatusRegistry) (Some (mkSemaphore cap 0)) 0 false ∅ (Some (fresh_store, [])) [] 0%nat.

Lemma planner_keeps_id t x p x' : planner t x = (Ok p, x') -> pl_GoalID p = task_ID t.
Proof.
  unfold planner. generalize (NewStructuredPlanner ["build"; "publish"]) builtin_skills. intros sp sk E.
  destruct (PlanGoal _ sk sp t) as [q|e] eqn:Ep; [|done]. injection E as -> _. by eapply PlanGoal_id.
Qed.

Definition goal : Task := mkTask "g" "" "build: it" "".

(** The twelve turns of one goroutine that runs its worker to the end. *)
Definition alone : list Turn := replicate 12 (RunThread 0 false).

(** Rounds in which each goroutine takes one turn, skipping the disabled
    ones: an interleaving that runs any plan to its join. *)
Definition try_turn {X PS RS} `{RunStoreLike RS} (o : @Orch X) (p : Plan) (i : nat)
  (acc : list Turn * @Team X PS RS) : list Turn * Team :=
  match team_step (fun s => s) demo_parse (fun s => s) o p (RunThread i false) acc.2 with
  | None => acc
  | Some st => (acc.1 ++ [RunThread i false], st)
  end.
Definition round_robin {X PS RS} `{RunStoreLike RS} (o : @Orch X) (p : Plan) (rounds : nat)
  (subs : list SubGoal) (w : @World X PS RS) : list Turn :=
  (foldl (fun acc i => try_turn o p i acc) ([], (spawn subs, w))
     (mjoin (replicate rounds (seq 0 (length subs))))).1.
End Demo.
