(* ===== verification/MemoryGuard.v ===== *)
(** * The guarded plan store

    [internal/memoryguard/memoryguard.go]: the requests to the memory-guard
    binary; [store.go]: a store in memory behind them; [durable_store.go]: the
    same with a journal; [internal/orchestrator/memoryguard.go]: the orchestrator's
    plan store on top. The binary is a seam over a world [X], its JSON and that of
    the stored values are parameters, and what the disk does to an append is an
    explicit fault, as in the run journal. *)

From stdpp Require Import base gmap strings list.
From Stdlib Require Import ZArith Lia Ascii.
From S2P Require Import Prelude GoStrings Seams TaskSource Policy AuditTrail Containment Planner RunStore Loop Fleet Dispatch Stores.

(** ** The client *)

(** The requests on the wire. *)
Inductive GuardRequest :=
| GValidateWrite (entry identity : string)
| GVerifyDelete (id : string)
| GValidateRead (query identity : string).

Record validateWriteResponse := mkWriteResponse { vw_Allow : bool; vw_StoredID : string; vw_Flags : list string }.
Record verifyDeleteResponse := mkDeleteResponse {
  vd_Confirmed : bool; vd_ResidueDetected : bool; vd_ResidueSummary : string; vd_DeletionHash : string }.
Record validateReadResponse := mkReadResponse { vr_Allow : bool; vr_ContentRedacted : string; vr_Flags : list string }.

Inductive GuardErr :=
| GErrSubprocess (e : string)
| GErrResponse (out : string)
| GErrWriteGateDenied
| GErrTamperDetected
| GErrReadGateDenied
| GErrSerialise
| GErrStore (e : RunStoreErr).

(** The subprocess, and [json.Unmarshal] of its three answers. *)
Record Guard (X : Type) := mkGuard {
  gd_Run : GuardRequest -> X -> result string string * X;
  gd_write : string -> option validateWriteResponse;
  gd_delete : string -> option verifyDeleteResponse;
  gd_read : string -> option validateReadResponse
}.
Arguments mkGuard {X} _ _ _ _.
Arguments gd_Run {X} _ _ _.
Arguments gd_write {X} _ _.
Arguments gd_delete {X} _ _.
Arguments gd_read {X} _ _.

Section Client.
Context {X : Type} (g : Guard X).

(** One exchange, its answer decoded. *)
Definition ask {A} (dec : string -> option A) (req : GuardRequest) (x : X) : result GuardErr A * X :=
  let '(out, x) := gd_Run g req x in
  (match out with
   | Err e => Err (GErrSubprocess e)
   | Ok out => match dec out with None => Err (GErrResponse out) | Some a => Ok a end
   end, x).

(** [ValidateWrite]. *)
Definition ValidateWrite (entry identity : string) (x : X) : result GuardErr string * X :=
  let '(r, x) := ask (gd_write g) (GValidateWrite entry identity) x in
  (match r with
   | Err e => Err e
   | Ok resp => if vw_Allow resp then Ok (vw_StoredID resp) else Err GErrWriteGateDenied
   end, x).

(** [VerifyDelete]. *)
Definition VerifyDelete (storedID : string) (x : X) : option GuardErr * X :=
  let '(r, x) := ask (gd_delete g) (GVerifyDelete storedID) x in
  (match r with
   | Err e => Some e
   | Ok resp => if negb (vd_Confirmed resp) || vd_ResidueDetected resp then Some GErrTamperDetected else None
   end, x).

(** [ValidateRead]: the redacted content, or the error with the flags. *)
Definition ValidateRead (query identity : string) (x : X) : result (GuardErr * list string) (string * list string) * X :=
  let '(r, x) := ask (gd_read g) (GValidateRead query identity) x in
  (match r with
   | Err e => Err (e, [])
   | Ok resp => if vr_Allow resp then Ok (vr_ContentRedacted resp, vr_Flags resp) else Err (GErrReadGateDenied, vr_Flags resp)
   end, x).
End Client.

(** ** The stores *)

(** [durableEntry] (and [planEntry]) and [durableLine]. *)
Record durableEntry (P : Type) := mkDEntry { de_Value : P; de_StoredID : string }.
Arguments mkDEntry {P} _ _.
Arguments de_Value {P} _.
Arguments de_StoredID {P} _.

Record durableLine (P : Type) := mkDLine { dl_Key : string; dl_Value : P; dl_StoredID : string; dl_Deleted : bool }.
Arguments mkDLine {P} _ _ _ _.
Arguments dl_Key {P} _.
Arguments dl_Value {P} _.
Arguments dl_StoredID {P} _.
Arguments dl_Deleted {P} _.

(** The JSON of values, lines and snapshots; [zero] is the zero value and
    [range] the iteration order of a Go map. *)
Record Codec (P : Type) := mkCodec {
  cd_zero : P;
  cd_value : P -> option string;
  cd_line : durableLine P -> option string;
  cd_unline : string -> option (durableLine P);
  cd_snap : gmap string (durableEntry P) -> option string;
  cd_unsnap : string -> option (gmap string (durableEntry P));
  cd_range : gmap string (durableEntry P) -> list (string * durableEntry P)
}.
Arguments mkCodec {P} _ _ _ _ _ _ _.
Arguments cd_zero {P} _.
Arguments cd_value {P} _ _.
Arguments cd_line {P} _ _.
Arguments cd_unline {P} _ _.
Arguments cd_snap {P} _ _.
Arguments cd_unsnap {P} _ _.
Arguments cd_range {P} _ _.

Section Store.
Context {X P : Type} (g : Guard X) (cd : Codec P) (identity : string).

(** *** In memory: [MemoryGuardStore] *)

Definition MemoryGuardStore : Type := gmap string (durableEntry P).

Definition MGS_Put (key : string) (plan : P) (s : MemoryGuardStore) (x : X) : (option GuardErr * MemoryGuardStore) * X :=
  match cd_value cd plan with
  | None => ((Some GErrSerialise, s), x)
  | Some entryJSON =>
    let '(r, x) := ValidateWrite g entryJSON identity x in
    (match r with
     | Err e => (Some e, s)
     | Ok storedID => (None, <[key := mkDEntry plan storedID]> s)
     end, x)
  end.

Definition MGS_Get (key : string) (s : MemoryGuardStore) : option P := de_Value <$> s !! key.

Definition MGS_Delete (key : string) (s : MemoryGuardStore) (x : X) : (option GuardErr * MemoryGuardStore) * X :=
  match s !! key with
  | None => ((None, s), x)
  | Some e => let '(err, x) := VerifyDelete g (de_StoredID e) x in ((err, delete key s), x)
  end.

(** *** With a journal: [DurableStore] *)

Record DurableStore := mkDurable { ds_index : gmap string (durableEntry P); ds_disk : Disk }.

(** [apply]. *)
Definition ds_apply (idx : gmap string (durableEntry P)) (l : durableLine P) : gmap string (durableEntry P) :=
  if dl_Deleted l then delete (dl_Key l) idx else <[dl_Key l := mkDEntry (dl_Value l) (dl_StoredID l)]> idx.

(** [loadSnapshot]. *)
Definition ds_loadSnapshot (snap : option string) (idx : gmap string (durableEntry P))
  : result RunStoreErr (gmap string (durableEntry P)) :=
  match snap with
  | None => Ok idx
  | Some "" => Ok idx
  | Some data =>
    match cd_unsnap cd data with
    | None => Err RSErrParseSnapshot
    | Some m => Ok (foldl (fun i p => <[p.1 := p.2]> i) idx (cd_range cd m))
    end
  end.

(** The loop of [replayJournal], and [replayJournal]. *)
Fixpoint ds_replay (finalNewline : bool) (i : nat) (lines : list string) (idx : gmap string (durableEntry P))
  : result RunStoreErr (gmap string (durableEntry P)) :=
  match lines with
  | [] => Ok idx
  | line :: rest =>
    let isLast := match rest with [] => true | _ => false end in
    let tolerate := isLast && negb finalNewline in
    if blank line then ds_replay finalNewline (S i) rest idx
    else match cd_unline cd line with
    | None => if tolerate then Ok idx else Err (RSErrParseJournal i)
    | Some l => ds_replay finalNewline (S i) rest (ds_apply idx l)
    end
  end.

Definition ds_replayJournal (journal : option string) (idx : gmap string (durableEntry P))
  : result RunStoreErr (gmap string (durableEntry P)) :=
  match journal with
  | None => Ok idx
  | Some "" => Ok idx
  | Some data =>
    let finalNewline := HasSuffix data (String nl "") in
    let lines := Split nl data in
    let lines := if finalNewline && bool_decide (last lines = Some "") then removelast lines else lines in
    ds_replay finalNewline 1 lines idx
  end.

(** [NewDurableStore] on a disk whose files can be read. *)
Definition NewDurableStore (d : Disk) : result RunStoreErr DurableStore :=
  let? idx := ds_loadSnapshot (d_snapshot d) ∅ in
  let? idx := ds_replayJournal (d_journal d) idx in
  Ok (mkDurable idx d).

(** [appendLine]. *)
Definition ds_appendLine (l : durableLine P) (fault : option AppendFault) (d : Disk) : option RunStoreErr * Disk :=
  let add s := mkDisk (d_snapshot d) (Some (default "" (d_journal d) +:+ s)) in
  match cd_line cd l with
  | None => (Some RSErrMarshal, d)
  | Some data =>
    let line := data +:+ String nl "" in
    match fault with
    | Some AppendOpenFails => (Some RSErrOpen, d)
    | Some (AppendWriteFails n) => (Some RSErrWrite, add (str_take n line))
    | Some AppendSyncFails => (Some RSErrSync, add line)
    | None => (None, add line)
    end
  end.

Definition ds_append_apply (l : durableLine P) (fault : option AppendFault) (s : DurableStore)
  : option RunStoreErr * DurableStore :=
  let '(err, d) := ds_appendLine l fault (ds_disk s) in
  match err with
  | Some e => (Some e, mkDurable (ds_index s) d)
  | None => (None, mkDurable (ds_apply (ds_index s) l) d)
  end.

(** [Put]. *)
Definition DS_Put (key : string) (value : P) (fault : option AppendFault) (s : DurableStore) (x : X)
  : (option GuardErr * DurableStore) * X :=
  match cd_value cd value with
  | None => ((Some GErrSerialise, s), x)
  | Some entryJSON =>
    let '(r, x) := ValidateWrite g entryJSON identity x in
    match r with
    | Err e => ((Some e, s), x)
    | Ok storedID =>
      let '(err, s) := ds_append_apply (mkDLine key value storedID false) fault s in ((GErrStore <$> err, s), x)
    end
  end.

(** [StoredID] and [Get]. *)
Definition DS_StoredID (key : string) (s : DurableStore) : option string := de_StoredID <$> ds_index s !! key.

Definition DS_Get (key : string) (s : DurableStore) (x : X) : result GuardErr (option P) * X :=
  match ds_index s !! key with
  | None => (Ok None, x)
  | Some entry =>
    let '(r, x) := ValidateRead g key identity x in
    (match r with Err (e, _) => Err e | Ok _ => Ok (Some (de_Value entry)) end, x)
  end.

(** [Delete]. *)
Definition DS_Delete (key : string) (fault : option AppendFault) (s : DurableStore) (x : X)
  : (option GuardErr * DurableStore) * X :=
  match ds_index s !! key with
  | None => ((None, s), x)
  | Some entry =>
    let '(err, s) := ds_append_apply (mkDLine key (cd_zero cd) "" true) fault s in
    match err with
    | Some e => ((Some (GErrStore e), s), x)
    | None => let '(err, x) := VerifyDelete g (de_StoredID entry) x in ((err, s), x)
    end
  end.

(** [Compact]. *)
Definition DS_Compact (fault : option CompactFault) (s : DurableStore) : option RunStoreErr * DurableStore :=
  match cd_snap cd (ds_index s) with
  | None => (Some RSErrMarshal, s)
  | Some data =>
    let d := ds_disk s in
    match fault with
    | Some CompactTempFails => (Some RSErrWrite, s)
    | Some CompactRenameFails => (Some RSErrRename, s)
    | Some CompactTruncateFails => (Some RSErrTruncate, mkDurable (ds_index s) (mkDisk (Some data) (d_journal d)))
    | None =>
      (None, mkDurable (ds_index s) (mkDisk (Some data) (match d_journal d with Some _ => Some "" | None => None end)))
    end
  end.
End Store.
Arguments DurableStore : clear implicits.
Arguments MemoryGuardStore : clear implicits.

(** ** The orchestrator's plan store *)

(** [MemoryGuardPlanStore], with the guard's world and what the disk will do to
    the next appends. *)
Record MemoryGuardPlanStore (X : Type) := mkPlanStore {
  mp_inner : DurableStore Plan;
  mp_x : X;
  mp_faults : list (option AppendFault)
}.
Arguments mkPlanStore {X} _ _ _.
Arguments mp_inner {X} _.
Arguments mp_x {X} _.
Arguments mp_faults {X} _.

Section PlanStore.
Context {X : Type} (g : Guard X) (cd : Codec Plan) (identity : string) (show : GuardErr -> string).

Definition TryPut (plan : Plan) (s : MemoryGuardPlanStore X) : option string * MemoryGuardPlanStore X :=
  let '((err, inner), x) := DS_Put g cd identity (pl_GoalID plan) plan (default None (head (mp_faults s))) (mp_inner s) (mp_x s) in
  (show <$> err, mkPlanStore inner x (tail (mp_faults s))).

Definition MP_Get (goalID : string) (s : MemoryGuardPlanStore X) : option Plan * MemoryGuardPlanStore X :=
  let '(r, x) := DS_Get g identity goalID (mp_inner s) (mp_x s) in
  (match r with Ok p => p | Err _ => None end, mkPlanStore (mp_inner s) x (mp_faults s)).

Definition TryDelete (goalID : string) (s : MemoryGuardPlanStore X) : option string * MemoryGuardPlanStore X :=
  let '((err, inner), x) := DS_Delete g cd goalID (default None (head (mp_faults s))) (mp_inner s) (mp_x s) in
  (show <$> err, mkPlanStore inner x (tail (mp_faults s))).

(** [Put] and [Delete] drop the error. *)
Definition MemoryGuardPlanStore_PlanStoreLike : PlanStoreLike (MemoryGuardPlanStore X) := {|
  ps_Put p s := (TryPut p s).2;
  ps_Get := MP_Get;
  ps_Delete k s := (TryDelete k s).2;
  ps_TamperAware := Some (TryPut, TryDelete)
|}.

(** [NewPlanStoreFromEnv]: the configured store, or the one in memory. *)
Definition NewPlanStoreFromEnv (binPath : string) (d : Disk) (x : X) (faults : list (option AppendFault))
  : result RunStoreErr (MemoryPlanStore + MemoryGuardPlanStore X) :=
  if String.eqb binPath "" then Ok (inl NewMemoryPlanStore)
  else let? inner := NewDurableStore cd d in Ok (inr (mkPlanStore inner x faults)).

(** A confirmed deletion leaves nothing to be read. *)
Lemma DS_Delete_gone key fault s x s' x' :
  DS_Delete g cd key fault s x = ((None, s'), x') -> ds_index s' !! key = None.
Proof.
  unfold DS_Delete, ds_append_apply. destruct (ds_index s !! key) as [entry|] eqn:E; [|by intros [= <- <-]].
  destruct (ds_appendLine cd _ fault _) as [[e|] d]; [done|]. destruct (VerifyDelete g _ x) as [err x1].
  intros [= -> <- <-]. apply lookup_delete_eq.
Qed.

#[export] Instance MemoryGuardPlanStore_PlanStoreLaws :
  @PlanStoreLaws (MemoryGuardPlanStore X) MemoryGuardPlanStore_PlanStoreLike.
Proof.
  split; try done. intros tp td key s s' [= <- <-]. unfold TryDelete. simpl. unfold MP_Get, DS_Get.
  destruct (DS_Delete g cd key _ _ _) as [[err inner] x] eqn:E. intros [= Hn <-]. destruct err; [done|]. simpl.
  by rewrite (DS_Delete_gone _ _ _ _ _ _ E).
Qed.
End PlanStore.

(** ** The journal mirrors the run store's *)

Section Mirror.
Context {P : Type} (cd : Codec P).
Variables (marshal : RunRecord -> option string) (unmarshal : string -> option RunRecord)
          (marshal_snap : Index -> option string) (unmarshal_snap : string -> option Index)
          (range : Index -> list (string * RunRecord)).
(** A line seen as a record of the run store. *)
Variable view : durableLine P -> RunRecord.

Definition view_entry (k : string) (e : durableEntry P) : RunRecord := view (mkDLine k (de_Value e) (de_StoredID e) false).
Definition view_index (m : gmap string (durableEntry P)) : Index := map_imap (fun k e => Some (view_entry k e)) m.
Definition view_store (s : DurableStore P) : FileStore := mkFileStore (view_index (ds_index s)) (ds_disk s).

(** The view keeps the key and the tombstone, and the two codecs agree along it. *)
Record agree : Prop := mkAgree {
  ag_key : forall l, rr_GoalID (view l) = dl_Key l;
  ag_deleted : forall l, rr_Deleted (view l) = dl_Deleted l;
  ag_marshal : forall l, marshal (view l) = cd_line cd l;
  ag_unmarshal : forall s, unmarshal s = view <$> cd_unline cd s;
  ag_snap : forall m, marshal_snap (view_index m) = cd_snap cd m;
  ag_unsnap : forall s, unmarshal_snap s = view_index <$> cd_unsnap cd s;
  ag_range : forall m, map snd (range (view_index m)) = map (fun p => view_entry p.1 p.2) (cd_range cd m)
}.
Hypothesis Hagree : agree.

Lemma view_insert k e m : view_index (<[k := e]> m) = <[k := view_entry k e]> (view_index m).
Proof.
  apply map_eq. intros i. unfold view_index. rewrite map_lookup_imap. destruct (decide (i = k)) as [->|Hn].
  - by rewrite !lookup_insert_eq.
  - by rewrite !lookup_insert_ne, map_lookup_imap by done.
Qed.

Lemma view_delete k m : view_index (delete k m) = delete k (view_index m).
Proof.
  apply map_eq. intros i. unfold view_index. rewrite map_lookup_imap. destruct (decide (i = k)) as [->|Hn].
  - by rewrite !lookup_delete_eq.
  - by rewrite !lookup_delete_ne, map_lookup_imap by done.
Qed.

Lemma apply_mirrors idx l : apply (view_index idx) (view l) = view_index (ds_apply idx l).
Proof.
  unfold apply, ds_apply. rewrite (ag_key Hagree), (ag_deleted Hagree). destruct (dl_Deleted l) eqn:Ed.
  - by rewrite view_delete.
  - rewrite view_insert. unfold view_entry. simpl. do 2 f_equal. destruct l; simpl in *. by subst.
Qed.

Lemma replay_mirrors fn i lines idx :
  replay_loop unmarshal fn i lines (view_index idx) =
  match ds_replay cd fn i lines idx with Ok m => Ok (view_index m) | Err e => Err e end.
Proof.
  revert i idx. induction lines as [|line lines IH]; intros i idx; [done|]. cbn [replay_loop ds_replay].
  destruct (blank line); [apply IH|]. rewrite (ag_unmarshal Hagree). destruct (cd_unline cd line) as [l|]; simpl.
  - by rewrite apply_mirrors.
  - by destruct (_ && _).
Qed.

Lemma snapshot_mirrors l idx :
  foldl (fun i p => apply i p.2) (view_index idx) (map (fun p => (p.1, view_entry p.1 p.2)) l) =
  view_index (foldl (fun i p => <[p.1 := p.2]> i) idx l).
Proof.
  revert idx. induction l as [|[k e] l IH]; intros idx; [done|]. simpl.
  assert (A : apply (view_index idx) (view_entry k e) = view_index (<[k := e]> idx)).
  { unfold view_entry. rewrite apply_mirrors. unfold ds_apply. simpl. by destruct e. }
  by rewrite A, IH.
Qed.

(** Only the records of a snapshot's range matter. *)
Lemma foldl_apply_snd (l l' : list (string * RunRecord)) idx :
  map snd l = map snd l' -> foldl (fun i p => apply i p.2) idx l = foldl (fun i p => apply i p.2) idx l'.
Proof.
  revert l' idx. induction l as [|a l IH]; intros [|b l'] idx E; try done. simpl in *. injection E as -> E. by apply IH.
Qed.

Lemma view_empty : view_index ∅ = ∅.
Proof. apply map_eq. intros i. unfold view_index. by rewrite map_lookup_imap, !lookup_empty. Qed.

Lemma open_mirrors d :
  NewFileStore unmarshal unmarshal_snap range d = match NewDurableStore cd d with Ok s => Ok (view_store s) | Err e => Err e end.
Proof.
  unfold NewFileStore, NewDurableStore.
  assert (Hs : loadSnapshot unmarshal_snap range (d_snapshot d) ∅ =
    match ds_loadSnapshot cd (d_snapshot d) ∅ with Ok m => Ok (view_index m) | Err e => Err e end).
  { unfold loadSnapshot, ds_loadSnapshot. destruct (d_snapshot d) as [[|c data]|]; [by rewrite view_empty| |by rewrite view_empty].
    rewrite (ag_unsnap Hagree). destruct (cd_unsnap cd _) as [m|]; [|done]. simpl. f_equal.
    rewrite <- (snapshot_mirrors (cd_range cd m) ∅), view_empty. apply foldl_apply_snd.
    rewrite (ag_range Hagree), map_map. done. }
  rewrite Hs. destruct (ds_loadSnapshot cd _ ∅) as [m|]; [|done]. simpl.
  unfold replayJournal, ds_replayJournal. destruct (d_journal d) as [[|c data]|]; [done| |done].
  rewrite replay_mirrors. by destruct (ds_replay _ _ _ _ _).
Qed.

Lemma append_mirrors l fault s :
  append_apply marshal (view l) fault (view_store s) =
  ((ds_append_apply cd l fault s).1, view_store (ds_append_apply cd l fault s).2).
Proof.
  unfold append_apply, ds_append_apply, appendLine, ds_appendLine, view_store. simpl.
  rewrite (ag_marshal Hagree), apply_mirrors. by destruct (cd_line cd l), fault as [[]|].
Qed.

Lemma compact_mirrors fault s :
  Compact marshal_snap fault (view_store s) = ((DS_Compact cd fault s).1, view_store (DS_Compact cd fault s).2).
Proof.
  unfold Compact, DS_Compact, view_store. simpl. rewrite (ag_snap Hagree). by destruct (cd_snap cd _), fault as [[]|].
Qed.
End Mirror.


(** String values; a line is its key, a snapshot is never written. *)
Definition demo_codec : Codec string :=
  mkCodec "" Some (fun l => Some (dl_Key l)) (fun s => if String.eqb s "bad" then None else Some (mkDLine s "v" "id" false))
    (fun _ => None) (fun _ => Some ∅) map_to_list.
Definition demo_view (l : durableLine string) : RunRecord :=
  mkRecord (dl_Key l) (dl_StoredID l) (dl_Value l) [] [] (StatusOther "") 0 0 (dl_Deleted l) 0.
Definition demo_unview (idx : Index) : gmap string (durableEntry string) := (fun r => mkDEntry (rr_Plan r) (rr_Goal r)) <$> idx.

Lemma demo_unview_view m : demo_unview (view_index demo_view m) = m.
Proof.
  apply map_eq. intros i. unfold demo_unview, view_index. rewrite lookup_fmap, map_lookup_imap.
  destruct (m !! i) as [[]|]; done.
Qed.


(** ** What the guard has vouched for *)

Section Vetted.
Context {X P : Type} (g : Guard X) (cd : Codec P) (identity : string).

(** The guard with a log of its exchanges. *)
Definition log_guard : Guard (X * list (GuardRequest * result string string)) :=
  mkGuard (fun req s => let '(out, x) := gd_Run g req s.1 in (out, (x, s.2 ++ [(req, out)])))
    (gd_write g) (gd_delete g) (gd_read g).

(** The exchanges that let a value in, and a key out. *)
Definition write_allowed (e : durableEntry P) (log : list (GuardRequest * result string string)) : Prop :=
  exists json out resp, cd_value cd (de_Value e) = Some json /\ (GValidateWrite json identity, Ok out) ∈ log /\
    gd_write g out = Some resp /\ vw_Allow resp = true /\ vw_StoredID resp = de_StoredID e.

Definition read_allowed (key : string) (log : list (GuardRequest * result string string)) : Prop :=
  exists out resp, last log = Some (GValidateRead key identity, Ok out) /\ gd_read g out = Some resp /\ vr_Allow resp = true.

Definition vetted (s : DurableStore P) (log : list (GuardRequest * result string string)) : Prop :=
  forall k e, ds_index s !! k = Some e -> write_allowed e log.

Lemma write_allowed_mono e log log' : write_allowed e log -> write_allowed e (log ++ log').
Proof. intros (j & o & r & ? & ? & ?). exists j, o, r. set_solver. Qed.

Lemma vetted_mono s log log' : vetted s log -> vetted s (log ++ log').
Proof. intros H k e Hk. by apply write_allowed_mono, (H k). Qed.

(** The operations of the store. *)
Inductive StoreOp :=
| OpPut (key : string) (value : P) (fault : option AppendFault)
| OpGet (key : string)
| OpDelete (key : string) (fault : option AppendFault)
| OpCompact (fault : option CompactFault).

Notation St := (DurableStore P * (X * list (GuardRequest * result string string)))%type.

Definition store_op (op : StoreOp) (st : St) : St :=
  match op with
  | OpPut k v f => let '((_, s), x) := DS_Put log_guard cd identity k v f st.1 st.2 in (s, x)
  | OpGet k => let '(_, x) := DS_Get log_guard identity k st.1 st.2 in (st.1, x)
  | OpDelete k f => let '((_, s), x) := DS_Delete log_guard cd k f st.1 st.2 in (s, x)
  | OpCompact f => ((DS_Compact cd f st.1).2, st.2)
  end.

Lemma store_op_vetted op st : vetted st.1 st.2.2 -> vetted (store_op op st).1 (store_op op st).2.2.
Proof.
  destruct st as [s [x log]]. simpl. intros H. destruct op as [k v f|k|k f|f]; simpl.
  - unfold DS_Put. destruct (cd_value cd v) as [json|] eqn:Ej; [|done]. unfold ValidateWrite, ask. simpl.
    destruct (gd_Run g _ x) as [out x1]. simpl.
    set (log1 := log ++ [(GValidateWrite json identity, out)]). assert (H1 : vetted s log1) by (by apply vetted_mono).
    destruct out as [out|e]; [|done]. destruct (gd_write g out) as [resp|] eqn:Er; [|done].
    destruct (vw_Allow resp) eqn:Ea; [|done]. unfold ds_append_apply.
    destruct (ds_appendLine cd _ f _) as [[e|] d]; [done|]. simpl. intros k' e.
    unfold ds_apply. simpl. intros [[<- <-]|[_ Hk]]%lookup_insert_Some; [|by eapply H1].
    exists json, out, resp. split_and!; try done. unfold log1. set_solver.
  - unfold DS_Get. destruct (ds_index s !! k) as [e|]; [|done]. unfold ValidateRead, ask. simpl.
    destruct (gd_Run g _ x) as [out x1]. simpl. by apply vetted_mono.
  - unfold DS_Delete. destruct (ds_index s !! k) as [e|]; [|done]. unfold ds_append_apply.
    destruct (ds_appendLine cd _ f _) as [[er|] d]; [done|]. unfold VerifyDelete, ask. simpl.
    destruct (gd_Run g _ x) as [out x1]. simpl. apply vetted_mono. intros k' e' Hk. simpl in Hk.
    unfold ds_apply in Hk. simpl in Hk. apply lookup_delete_Some in Hk as [_ Hk]. by eapply H.
  - unfold DS_Compact. destruct (cd_snap cd _); [|done]. by destruct f as [[]|].
Qed.

Lemma store_ops_vetted ops st : vetted st.1 st.2.2 -> vetted (foldl (fun st op => store_op op st) st ops).1
  (foldl (fun st op => store_op op st) st ops).2.2.
Proof. revert st. induction ops as [|op ops IH]; intros st H; [done|]. simpl. by apply IH, store_op_vetted. Qed.
End Vetted.

(** C34. Over every history of puts, deletes, reads and compactions of a store that
    started empty, whatever the disk does, a value Get returns was allowed by the
    guard when it was written and its read was allowed by the guard. *)
Theorem guarded_reads_return_only_vetted_values {X P} (g : Guard X) (cd : Codec P) identity ops d x key v st' :
  let st := foldl (fun st op => store_op g cd identity op st) (mkDurable ∅ d, (x, [])) ops in
  DS_Get (log_guard g) identity key st.1 st.2 = (Ok (Some v), st') ->
  exists e, ds_index st.1 !! key = Some e /\ de_Value e = v /\
    write_allowed g cd identity e st.2.2 /\ read_allowed g identity key st'.2.
Proof.
  intros st E. assert (Hv : vetted g cd identity st.1 st.2.2).
  { apply store_ops_vetted. intros k e Hk. simpl in Hk. by rewrite lookup_empty in Hk. }
  unfold DS_Get in E. destruct (ds_index st.1 !! key) as [e|] eqn:Ek; [|done]. exists e.
  unfold ValidateRead, ask in E. simpl in E. destruct (gd_Run g _ st.2.1) as [out x1].
  destruct out as [out|er]; [|done]. destruct (gd_read g out) as [resp|] eqn:Er; [|done].
  destruct (vr_Allow resp) eqn:Ea; [|done]. injection E as <- <-. split_and!; [done | done | by eapply Hv |].
  exists out, resp. simpl. by rewrite last_snoc.
Qed.

(** A guard that allows everything but one key. *)
Definition demo_guard : Guard nat :=
  mkGuard (fun req n => (Ok (match req with GValidateRead q _ => q | _ => "ok" end), S n))
    (fun _ => Some (mkWriteResponse true "id" [])) (fun _ => Some (mkDeleteResponse true false "" ""))
    (fun q => Some (mkReadResponse (negb (String.eqb q "secret")) "" [])).

Lemma guarded_reads_return_only_vetted_values_witness :
  let st := foldl (fun st op => store_op demo_guard demo_codec "me" op st) (mkDurable ∅ (mkDisk None None), (0%nat, []))
              [OpPut "k" "plan" None; OpPut "secret" "s" None; OpDelete "k" (Some AppendOpenFails)] in
  (DS_Get (log_guard demo_guard) "me" "secret" st.1 st.2).1 = Err GErrReadGateDenied /\
  exists e, ds_index st.1 !! "k" = Some e /\ de_Value e = "plan" /\ write_allowed demo_guard demo_codec "me" e st.2.2.
Proof.
  split; [vm_compute; reflexivity|].
  destruct (guarded_reads_return_only_vetted_values demo_guard demo_codec "me"
    [OpPut "k" "plan" None; OpPut "secret" "s" None; OpDelete "k" (Some AppendOpenFails)] (mkDisk None None) 0%nat "k" "plan"
    _ eq_refl) as (e & H1 & H2 & H3 & _).
  exists e. split_and!; [exact H1 | exact H2 | exact H3].
Defined.

(** Delete of a held entry removes it and returns the guard's verification of the
    deletion, unless the journal append fails: then the entry stays and the guard is
    not asked. *)
Theorem delete_drops_the_entry_unless_the_journal_fails {X P} (g : Guard X) (cd : Codec P) key fault s x entry :
  ds_index s !! key = Some entry ->
  let '((err, s'), x') := DS_Delete g cd key fault s x in
  match (ds_appendLine cd (mkDLine key (cd_zero cd) "" true) fault (ds_disk s)).1 with
  | Some e => err = Some (GErrStore e) /\ ds_index s' = ds_index s /\ x' = x
  | None => ds_index s' = delete key (ds_index s) /\ (err, x') = VerifyDelete g (de_StoredID entry) x
  end.
Proof.
  intros E. unfold DS_Delete, ds_append_apply. rewrite E.
  destruct (ds_appendLine cd _ fault (ds_disk s)) as [[e|] d]; simpl; [done|].
  by destruct (VerifyDelete g (de_StoredID entry) x).
Qed.

Lemma delete_drops_the_entry_unless_the_journal_fails_witness :
  let s := mkDurable {[ "k" := mkDEntry "plan" "id" ]} (mkDisk None None) in
  let '((err, s'), _) := DS_Delete demo_guard demo_codec "k" (Some AppendOpenFails) s 0%nat in
  err = Some (GErrStore RSErrOpen) /\ ds_index s' = ds_index s.
Proof.
  pose proof (delete_drops_the_entry_unless_the_journal_fails demo_guard demo_codec "k" (Some AppendOpenFails)
    (mkDurable {[ "k" := mkDEntry "plan" "id" ]} (mkDisk None None)) 0%nat (mkDEntry "plan" "id") eq_refl) as H.
  vm_compute in H |- *. split; [exact (proj1 H) | exact (proj1 (proj2 H))].
Defined.
