(* ===== verification/DispatchProofs.v ===== *)
(** * What dispatch guarantees under every schedule

    Invariants of the goroutines of [dispatchSubGoals] over arbitrary
    interleavings: the worker cap, and that the join is always reached; and the
    frame lemmas (what each operation leaves alone) the other files share. *)

From stdpp Require Import base gmap strings list.
From Stdlib Require Import ZArith Lia Ascii Wf_nat Wellfounded.
From S2P Require Import Prelude GoStrings Seams TaskSource Policy AuditTrail Containment Planner RunStore Loop Fleet Dispatch Stores.

Local Open Scope Z_scope.

(** The events only [dispatchOne] logs: the start of a worker and the audit of
    a spawn decision. *)
Definition loud (e : Event) : bool :=
  match e with
  | EvDispatch _ _ => true
  | EvAudit ev _ => match ae_Action ev with ActionSpawnDecided => true | _ => false end
  | _ => false
  end.
Definition calm (evs : list Event) : Prop := Forall (fun e => loud e = false) evs.

(** The sub-goals handed to a worker, in order. *)
Definition dispatched (l : list Event) : list SubGoal :=
  l ≫= (fun e => match e with EvDispatch _ sub => [sub] | _ => [] end).

Lemma dispatched_app l1 l2 : dispatched (l1 ++ l2) = dispatched l1 ++ dispatched l2.
Proof. apply bind_app. Qed.

Lemma calm_dispatched evs : calm evs -> dispatched evs = [].
Proof. induction 1 as [|e evs He _ IH]; [done|]. by destruct e. Qed.

Create HintDb frames.

Section Frames.
Context {X PS RS : Type} `{RunStoreLike RS}.
Context (uni : string -> string) (url_Parse : string -> option (string * string))
        (quote : string -> string) (o : @Orch X).
Local Notation World := (@World X PS RS).

(** What most steps leave alone; the log grows, and by no loud event. *)
Definition frame (w w' : World) : Prop :=
  w_sem w' = w_sem w /\ w_foreign w' = w_foreign w /\ w_cancelled w' = w_cancelled w /\
  w_plans w' = w_plans w /\ exists evs, w_log w' = w_log w ++ evs /\ calm evs.

#[export] Instance frame_preorder : PreOrder frame.
Proof.
  split.
  - intros w. split_and!; try done. exists []. split; [by rewrite app_nil_r | constructor].
  - intros w1 w2 w3 (S1 & F1 & C1 & P1 & e1 & L1 & N1) (S2 & F2 & C2 & P2 & e2 & L2 & N2).
    split_and!; try congruence. exists (e1 ++ e2). rewrite L2, L1, app_assoc. split; [done|].
    by apply Forall_app.
Qed.

Lemma frame_set_ext x w : frame w (set_ext x w).
Proof. split_and!; try done. exists []. split; [by rewrite app_nil_r | constructor]. Qed.
Lemma frame_set_reg f w : frame w (set_reg f w).
Proof. split_and!; try done. exists []. split; [by rewrite app_nil_r | constructor]. Qed.
Lemma frame_set_runs r w : frame w (set_runs r w).
Proof. split_and!; try done. exists []. split; [by rewrite app_nil_r | constructor]. Qed.
Lemma frame_logged e x w : loud e = false -> frame w (logged e x w).
Proof. intros He. split_and!; try done. exists [e]. split; [done|]. by repeat constructor. Qed.

Lemma frame_now w : frame w (now o w).2.
Proof. unfold now. destruct (o_clock o _) as [t x]. apply frame_set_ext. Qed.
Lemma frame_set_state g s w : frame w (set_state o g s w).
Proof.
  unfold set_state. pose proof (frame_now w) as F. destruct (now o w) as [t w1].
  etrans; [exact F|]. apply frame_set_reg.
Qed.
Lemma frame_set_sub_goal g p w : frame w (set_sub_goal o g p w).
Proof.
  unfold set_sub_goal. pose proof (frame_now w) as F. destruct (now o w) as [t w1].
  etrans; [exact F|]. apply frame_set_reg.
Qed.
Lemma frame_report m w : frame w (report o m w).2.
Proof. unfold report. destruct (o_reporter o m _) as [e x]. by apply frame_logged. Qed.
Lemma frame_plan_goal g w : frame w (plan_goal o g w).2.
Proof. unfold plan_goal. destruct (o_planner o g _) as [e x]. by apply frame_logged. Qed.
Lemma frame_decide r w : frame w (decide_policy o r w).2.
Proof. unfold decide_policy. destruct (o_policy o r _) as [e x]. by apply frame_logged. Qed.
Lemma frame_emit ev w : ae_Action ev <> ActionSpawnDecided -> frame w (emitFleetEvent o ev w).
Proof.
  intros Hev. unfold emitFleetEvent. destruct (o_auditSink o) as [a|]; [|done].
  destruct (a ev _) as [e x]. apply frame_logged. simpl. by destruct (ae_Action ev).
Qed.
Lemma frame_save rs r w : frame w (save o rs r w).2.
Proof.
  unfold save. pose proof (frame_now w) as F. destruct (now o w) as [t w1].
  destruct (rs_Save t r rs) as [e rs']. etrans; [exact F|]. apply frame_set_runs.
Qed.
Lemma frame_recordAttempt g t s d w : frame w (recordAttempt o g t s d w).
Proof.
  unfold recordAttempt. destruct (w_runs w) as [rs|]; [|done].
  destruct (rs_Load g rs) as [r|]; [|done].
  pose proof (frame_now w) as F. destruct (now o w) as [t1 w1]. etrans; [exact F|]. apply frame_save.
Qed.
Lemma frame_recordPending g t d w : frame w (recordPendingApproval o g t d w).
Proof.
  unfold recordPendingApproval. destruct (w_runs w) as [rs|]; [|done].
  destruct (rs_Load g rs) as [r|]; [|done].
  pose proof (frame_now w) as F. destruct (now o w) as [t1 w1]. etrans; [exact F|]. apply frame_save.
Qed.
Lemma frame_finalize p w : frame w (finalizeGoalStatus o p w).
Proof.
  unfold finalizeGoalStatus. destruct (w_runs w) as [rs|]; [|done].
  destruct (rs_Load _ rs) as [[r|]|]; [|done..].
  destruct (bool_decide _); [done|]. destruct (_ && _); [apply frame_save | done].
Qed.

Lemma replan_loop_frame n i b l goal (w : World) :
  frame w (replan_loop (spawn_replan o goal) n i b l w).2.
Proof.
  revert i l w. induction n as [|n IH]; intros i l w; simpl; [done|].
  unfold spawn_replan at 1. pose proof (frame_plan_goal goal w) as F.
  destruct (plan_goal o goal w) as [[p|e] w1]; simpl in *; [|done].
  destruct (negb _); [done|]. etrans; [exact F|]. apply IH.
Qed.

Lemma frame_reevaluate goal b n sw w :
  frame w (ReevaluateBlockedSpawn o goal b n (Some (lift_status_writer sw)) w).2.
Proof.
  unfold ReevaluateBlockedSpawn, NewReevaluationPolicy. destruct (n <? 0); [done|].
  unfold ReevaluateBlocked. destruct (IsZero b); [done|]. simpl.
  pose proof (replan_loop_frame (Z.to_nat n) 1 b [] goal w) as F.
  destruct (replan_loop _ _ _ _ _ w) as [[r|l] w1]; simpl in *; [done|].
  unfold lift_status_writer. destruct (sw _ _ (w_ext w1)) as [r x].
  destruct r; simpl; (etrans; [exact F|]); apply frame_set_ext.
Qed.

Lemma frame_reevaluate_outcomes plan n sw ocs w :
  frame w (reevaluate_outcomes o plan n (lift_status_writer sw) ocs w).2.
Proof.
  revert w. induction ocs as [|oc ocs IH]; intros w; simpl; [done|].
  destruct (so_Blocked oc) as [b|].
  - set (g := mkTask _ _ _ _). pose proof (frame_reevaluate g b n sw w) as F.
    destruct (ReevaluateBlockedSpawn o g b n _ w) as [[r|e] w1]; simpl in F.
    + specialize (IH w1). destruct (reevaluate_outcomes o plan n _ ocs w1) as [ocs' w2].
      simpl in *. by etrans.
    + pose proof (frame_report ("reevaluation error: " +:+ reevaluation_error e) w1) as F2.
      specialize (IH (report o ("reevaluation error: " +:+ reevaluation_error e) w1).2).
      destruct (reevaluate_outcomes o plan n _ ocs _) as [ocs' w2].
      simpl in *. etrans; [exact F|]. by etrans.
  - specialize (IH w). by destruct (reevaluate_outcomes o plan n _ ocs w) as [ocs' w2].
Qed.

(** Everything after the join. *)
Lemma frame_after_join plan results w : frame w (after_join o plan results w).2.
Proof.
  unfold after_join. destruct (first_err _) as [e|]; [apply frame_set_state|].
  set (bound := if o_reevaluationBound o <=? 0 then o_MaxAttempts o else o_reevaluationBound o).
  assert (Hre : frame w (match o_statusWriter o with
    | None => (results.*1, w)
    | Some sw => reevaluate_outcomes o plan bound (lift_status_writer sw) results.*1 w end).2).
  { destruct (o_statusWriter o); [apply frame_reevaluate_outcomes | done]. }
  destruct (match o_statusWriter o with None => _ | Some _ => _ end) as [ocs w1]. simpl in Hre.
  set (ev := mkAuditEvent _ _ _ _ _ _).
  pose proof (frame_emit ev (finalizeGoalStatus o plan w1) ltac:(done)) as F3.
  set (w3 := emitFleetEvent o ev (finalizeGoalStatus o plan w1)) in *.
  set (w4 := if w_cancelled w3 then w3 else set_state o (pl_GoalID plan) StateDone w3).
  assert (F4 : frame w3 w4) by (unfold w4; destruct (w_cancelled w3); [done | apply frame_set_state]).
  pose proof (frame_report (RenderPlanResult (mkPlanResult (pl_Goal plan) ocs)) w4) as F5.
  destruct (report o _ w4) as [e w5]. simpl in *.
  etrans; [exact Hre|]. etrans; [apply frame_finalize|]. etrans; [exact F3|]. by etrans.
Qed.
End Frames.

(** ** The worker cap *)

Section Cap.
Context {X PS RS : Type} `{RunStoreLike RS}.
Context (uni : string -> string) (url_Parse : string -> option (string * string))
        (quote : string -> string) (o : @Orch X).
Local Notation World := (@World X PS RS).
Local Notation Team := (@Team X PS RS).

Definition b2n (b : bool) : nat := if b then 1 else 0.

Definition count (p : Pc -> bool) (pcs : list (SubGoal * Pc)) : nat :=
  sum_list_with (fun t => b2n (p t.2)) pcs.

Lemma count_insert p pcs i sub pc pc' :
  pcs !! i = Some (sub, pc) ->
  (count p (<[i := (sub, pc')]> pcs) + b2n (p pc) = count p pcs + b2n (p pc'))%nat.
Proof.
  intros Hi. apply list_elem_of_split_length in Hi as (l1 & l2 & -> & ->).
  rewrite insert_app_r_alt, Nat.sub_diag by done. simpl. unfold count.
  rewrite !sum_list_with_app. simpl. lia.
Qed.

(** The permits of the semaphore are accounted for by the goroutines that
    hold one and by the other goals. *)
Definition permits_ok (cap : nat) (st : Team) : Prop :=
  exists s, w_sem st.2 = Some s /\ sem_cap s = cap /\
    sem_used s = (w_foreign st.2 + count holds_permit st.1)%nat /\ (sem_used s <= cap)%nat.

(** What one goroutine step does to the semaphore. *)
Definition moves_permit (before after : bool) (w w' : World) : Prop :=
  w_foreign w' = w_foreign w /\
  match w_sem w with
  | None => w_sem w' = None
  | Some s => exists s', w_sem w' = Some s' /\ sem_cap s' = sem_cap s /\
      (sem_used s' + b2n before = sem_used s + b2n after)%nat /\
      (sem_used s <= sem_cap s -> sem_used s' <= sem_cap s)%nat
  end.

Lemma frame_moves b w w' : frame w w' -> moves_permit b b w w'.
Proof.
  intros (S & F & _). split; [done|]. rewrite S. destruct (w_sem w) as [s|]; [|done].
  exists s. split_and!; try done.
Qed.

Lemma emitForDeny_moves b ev d (w : World) : moves_permit b b w (emitFleetEventForDeny o ev d w).2.
Proof.
  unfold emitFleetEventForDeny. destruct (o_auditSink o) as [a|]; [|by apply frame_moves].
  destruct (a ev _) as [[e|] x]; (split; [done|]); simpl;
    (destruct (w_sem w) as [s|]; [by exists s | done]).
Qed.

Lemma decideWorker_frame plan sub (w : World) :
  frame w (decideSpawnWorker uni url_Parse quote o plan sub w).2.
Proof.
  unfold decideSpawnWorker. repeat (destruct (_ : bool); [done|]).
  pose proof (frame_decide o (worker_request o sub) w) as F.
  by destruct (decide_policy o _ w) as [d w1].
Qed.

Lemma thread_step_permits plan sub c pc (w : World) pc' w' :
  thread_step uni url_Parse quote o plan sub c pc w = Some (pc', w') ->
  moves_permit (holds_permit pc) (holds_permit pc') w w'.
Proof.
  destruct pc; simpl; intros E.
  - destruct (SelectRecipe _ _ _); simplify_eq; by apply frame_moves.
  - pose proof (decideWorker_frame plan sub w) as F.
    destruct (decideSpawnWorker _ _ _ _ _ _ _) as [[d r] w1]. simplify_eq. by apply frame_moves.
  - match type of E with context [emitFleetEventForDeny o ?ev ?b w] =>
      pose proof (emitForDeny_moves false ev b w) as F;
      destruct (emitFleetEventForDeny o ev b w) as [[e|] w1] end; simplify_eq; simpl in *;
      [done|]. by destruct (is_allow d).
  - match type of E with context [report o ?m w] =>
      pose proof (frame_report o m w) as F; destruct (report o m w) as [e w1] end.
    simplify_eq. by apply frame_moves.
  - simplify_eq. apply frame_moves, frame_set_sub_goal.
  - simplify_eq. apply frame_moves, frame_recordAttempt.
  - destruct (w_sem w) as [s|] eqn:Es.
    + destruct c.
      * destruct (w_cancelled w); simplify_eq. by apply frame_moves.
      * unfold Acquire in E. destruct (Nat.ltb_spec (sem_used s) (sem_cap s)); simplify_eq.
        split; [done|]. rewrite Es. eexists. split_and!; [reflexivity | simpl; lia..].
    + simplify_eq. split; [done|]. by rewrite Es.
  - destruct (planAwaitingApproval _ _); simplify_eq; by apply frame_moves.
  - destruct (o_dispatch o _ _ _) as [[hs e] x]. simplify_eq. split; [done|]. simpl.
    destruct (w_sem w) as [s|]; [|done]. eexists. split_and!; [reflexivity | simpl; lia..].
  - destruct hooks as [|[t r] hs]; simplify_eq; apply frame_moves; [done | apply frame_recordPending].
  - destruct (w_sem w) as [s|] eqn:Es.
    + unfold Release in E. destruct (sem_used s) as [|k] eqn:Eu; simplify_eq.
      split; [done|]. rewrite Es. eexists. split_and!; [reflexivity | simpl; lia..].
    + simplify_eq. split; [done|]. by rewrite Es.
  - destruct paused; [|destruct requested; [|destruct err]]; simplify_eq;
      apply frame_moves; (done || apply frame_set_sub_goal).
  - simplify_eq. apply frame_moves, frame_recordAttempt.
  - done.
Qed.

Lemma team_step_permits cap plan t (st st' : Team) :
  permits_ok cap st -> team_step uni url_Parse quote o plan t st = Some st' -> permits_ok cap st'.
Proof.
  destruct st as [pcs w]. intros (s & Es & Ec & Eu & Hle) E. simpl in *.
  destruct t as [i c| | |]; simpl in E.
  - destruct (pcs !! i) as [[sub pc]|] eqn:Hi; [|done].
    destruct (thread_step _ _ _ _ _ _ _ _ _) as [[pc' w']|] eqn:Et; simplify_eq.
    apply thread_step_permits in Et as [Hf Hm]. rewrite Es in Hm.
    destruct Hm as (s' & Es' & Ec' & Hu & Hb). exists s'. simpl.
    pose proof (count_insert holds_permit pcs i sub pc pc' Hi). split_and!; [done | lia..].
  - rewrite Es in E. unfold Acquire in E.
    destruct (Nat.ltb_spec (sem_used s) (sem_cap s)); simplify_eq.
    eexists. split_and!; [reflexivity | simpl; lia..].
  - rewrite Es in E. destruct (w_foreign w) as [|k] eqn:Ef; [done|]. unfold Release in E.
    destruct (sem_used s) as [|u] eqn:Eu'; simplify_eq.
    eexists. split_and!; [reflexivity | simpl; lia..].
  - simplify_eq. by exists s.
Qed.

Lemma run_permits cap plan sched (st st' : Team) :
  permits_ok cap st -> run_schedule uni url_Parse quote o plan sched st = Some st' -> permits_ok cap st'.
Proof.
  revert st. induction sched as [|t sched IH]; intros st Hst; simpl; [by intros [= <-]|].
  destruct (team_step _ _ _ _ _ t st) as [st1|] eqn:E; [|done].
  apply IH. by eapply team_step_permits.
Qed.

Lemma spawn_permits subs (w : World) s :
  w_sem w = Some s -> sem_used s = w_foreign w -> (sem_used s <= sem_cap s)%nat ->
  permits_ok (sem_cap s) (spawn subs, w).
Proof.
  intros Es Ef Hle. exists s. split_and!; try done. simpl. rewrite Ef.
  assert (count holds_permit (spawn subs) = 0%nat) as ->; [|lia].
  induction subs as [|x subs IH]; [done|]. unfold count in *. simpl in *. done.
Qed.

Lemma count_le p q pcs : (forall pc, p pc = true -> q pc = true) -> (count p pcs <= count q pcs)%nat.
Proof.
  intros Hpq. induction pcs as [|[s pc] pcs IH]; [done|]. unfold count in *. simpl.
  specialize (Hpq pc). destruct (p pc), (q pc); simpl; try lia.
Qed.

Lemma join_no_permit pcs results : join pcs = Some results -> count holds_permit pcs = 0%nat.
Proof.
  unfold join. revert results. induction pcs as [|[s pc] pcs IH]; intros results; [done|].
  simpl. destruct pc; simpl; try done.
  destruct (mapM _ pcs) as [r|] eqn:E; [|done]. intros _. unfold count in *. simpl. by eapply IH.
Qed.
End Cap.

(** C3. At every point of every schedule the workers of this plan that are running
    plus the permits held by other goals never exceed the semaphore's capacity, and
    once all goroutines are done every permit this plan took has been returned. *)
Theorem live_workers_never_exceed_the_cap {X PS RS : Type} `{RunStoreLike RS}
    uni url_Parse quote (o : @Orch X) plan subs sched (w w' : @World X PS RS) s pcs :
  w_sem w = Some s -> sem_used s = w_foreign w -> (sem_used s <= sem_cap s)%nat ->
  run_schedule uni url_Parse quote o plan sched (spawn subs, w) = Some (pcs, w') ->
  (w_foreign w' + count running pcs <= sem_cap s)%nat /\
  (forall results, join pcs = Some results ->
     w_sem w' = Some (mkSemaphore (sem_cap s) (w_foreign w'))).
Proof.
  intros Es Ef Hle E. pose proof (spawn_permits subs w s Es Ef Hle) as P.
  apply (run_permits uni url_Parse quote o (sem_cap s) plan sched) with (2 := E) in P as (s' & Es' & Ec & Eu & Hb).
  simpl in *. split.
  - pose proof (count_le running holds_permit pcs ltac:(by intros [])). lia.
  - intros results Hj%join_no_permit. rewrite Es'. destruct s' as [c u]. simpl in *. f_equal. f_equal; lia.
Qed.

(** ** The join is reached *)

(** Steps left to a goroutine, hook calls aside. *)
Definition rank (pc : Pc) : nat :=
  match pc with
  | PcStart => 13 | PcDecide => 12 | PcAudit _ _ => 11 | PcReport _ => 1
  | PcMark => 10 | PcRecord => 9 | PcAcquire => 8 | PcCheck => 7 | PcInvoke => 6
  | PcHooks _ _ _ => 5 | PcRelease _ _ _ => 4 | PcSettle _ _ _ => 3 | PcJournal _ _ _ => 2
  | PcDone _ _ => 0
  end.

Definition hooks_left (pc : Pc) : nat := match pc with PcHooks hs _ _ => length hs | _ => 0 end.

Definition total (f : Pc -> nat) (pcs : list (SubGoal * Pc)) : nat := sum_list_with (fun t => f t.2) pcs.

Lemma total_insert f pcs i sub pc pc' :
  pcs !! i = Some (sub, pc) ->
  (total f (<[i := (sub, pc')]> pcs) + f pc = total f pcs + f pc')%nat.
Proof.
  intros Hi. apply list_elem_of_split_length in Hi as (l1 & l2 & -> & ->).
  rewrite insert_app_r_alt, Nat.sub_diag by done. simpl. unfold total.
  rewrite !sum_list_with_app. simpl. lia.
Qed.

Section Join.
Context {X PS RS : Type} `{RunStoreLike RS}.
Context (uni : string -> string) (url_Parse : string -> option (string * string))
        (quote : string -> string) (o : @Orch X) (plan : Plan).
Local Notation World := (@World X PS RS).
Local Notation Team := (@Team X PS RS).
Local Notation thread_step := (thread_step uni url_Parse quote o plan).
Local Notation team_step := (team_step uni url_Parse quote o plan).
Local Notation run_schedule := (run_schedule uni url_Parse quote o plan).

Lemma thread_step_decreases sub c pc (w : World) pc' w' :
  thread_step sub c pc w = Some (pc', w') ->
  (rank pc' < rank pc \/ rank pc' = rank pc /\ hooks_left pc' < hooks_left pc)%nat.
Proof.
  destruct pc; simpl; intros E; repeat (case_match; simplify_eq/=); simplify_eq/=; lia.
Qed.

(** One turn of a goroutine of the plan. *)
Definition own_turn (st' st : Team) : Prop := exists i c, team_step (RunThread i c) st = Some st'.

Definition lex_lt (a b : nat * nat) : Prop := (a.1 < b.1 \/ a.1 = b.1 /\ a.2 < b.2)%nat.
Lemma lex_wf : well_founded lex_lt.
Proof.
  intros [a b]. revert b. induction (lt_wf a) as [a _ IHa]. intros b.
  induction (lt_wf b) as [b _ IHb]. constructor. intros [a' b'] [Hlt|[Heq Hlt]]; simpl in *.
  - by apply IHa.
  - subst. by apply IHb.
Qed.

Definition measure (st : Team) : nat * nat := (total rank st.1, total hooks_left st.1).

Lemma own_turn_decreases st' st : own_turn st' st -> lex_lt (measure st') (measure st).
Proof.
  destruct st as [pcs w]. intros (i & c & E). simpl in E.
  destruct (pcs !! i) as [[sub pc]|] eqn:Hi; [|done].
  destruct (thread_step sub c pc w) as [[pc' w']|] eqn:Et; simplify_eq.
  apply thread_step_decreases in Et.
  pose proof (total_insert rank pcs i sub pc pc' Hi).
  pose proof (total_insert hooks_left pcs i sub pc pc' Hi).
  unfold lex_lt, measure. simpl. lia.
Qed.

Lemma own_turn_wf : well_founded own_turn.
Proof.
  apply (wf_incl _ _ (fun a b => lex_lt (measure a) (measure b))); [exact own_turn_decreases|].
  apply wf_inverse_image, lex_wf.
Qed.

(** A usable semaphore, or none. *)
Definition sem_ok (st : Team) : Prop :=
  match w_sem st.2 with
  | None => True
  | Some s => (1 <= sem_cap s)%nat /\ permits_ok (sem_cap s) st
  end.

Lemma team_step_sem_none t (st st' : Team) :
  w_sem st.2 = None -> team_step t st = Some st' -> w_sem st'.2 = None.
Proof.
  destruct st as [pcs w]. simpl. intros Es E. destruct t as [i c| | |]; simpl in E.
  - destruct (pcs !! i) as [[sub pc]|] eqn:Hi; [|done].
    destruct (thread_step sub c pc w) as [[pc' w']|] eqn:Et; simplify_eq.
    apply thread_step_permits in Et as [_ Hm]. by rewrite Es in Hm.
  - by rewrite Es in E.
  - by rewrite Es in E.
  - by simplify_eq.
Qed.

Lemma team_step_sem_ok t st st' : sem_ok st -> team_step t st = Some st' -> sem_ok st'.
Proof.
  unfold sem_ok. destruct (w_sem st.2) as [s|] eqn:Es; intros Hok E.
  - destruct Hok as [H1 P]. eapply team_step_permits in P; [|exact E].
    pose proof P as (s' & Es' & Ec & _). rewrite Es'. by rewrite Ec.
  - by rewrite (team_step_sem_none t st st' Es E).
Qed.

Lemma run_sem_ok sched st st' : sem_ok st -> run_schedule sched st = Some st' -> sem_ok st'.
Proof.
  revert st. induction sched as [|t sched IH]; intros st Hst; simpl; [by intros [= <-]|].
  destruct (team_step t st) as [st1|] eqn:E; [|done]. apply IH. by eapply team_step_sem_ok.
Qed.

Definition finished (pc : Pc) : bool := match pc with PcDone _ _ => true | _ => false end.
Definition waiting (pc : Pc) : bool := match pc with PcAcquire => true | _ => false end.

Lemma join_finished pcs : (exists results, join pcs = Some results) <-> Forall (fun t => finished t.2 = true) pcs.
Proof.
  unfold join. induction pcs as [|[s pc] pcs IH]; simpl.
  - split; [constructor | eauto].
  - split.
    + intros [results E]. destruct pc; try done. simpl in E. constructor; [done|]. apply IH.
      destruct (mapM _ pcs); [eauto|done].
    + intros [Hp Hs]%Forall_cons. destruct pc; try done. simpl.
      destruct (proj2 IH Hs) as [r ->]. eauto.
Qed.

(** A goroutine that is neither done nor waiting for a permit can step. *)
Lemma busy_steps sub pc (w : World) :
  finished pc = false -> waiting pc = false ->
  (forall s, w_sem w = Some s -> holds_permit pc = true -> (1 <= sem_used s)%nat) ->
  is_Some (thread_step sub false pc w).
Proof.
  intros Hf Hw Hs. destruct pc; simpl in *; try done; repeat (case_match; try done); simplify_eq/=.
  unfold Release in *. destruct (sem_used s) as [|k] eqn:Eu; [|done].
  specialize (Hs s ltac:(done) eq_refl). lia.
Qed.

Lemma count_pos p pcs i sub pc :
  pcs !! i = Some (sub, pc) -> p pc = true -> (1 <= count p pcs)%nat.
Proof.
  intros Hi Hp. apply list_elem_of_split_length in Hi as (l1 & l2 & -> & _).
  unfold count. rewrite sum_list_with_app. simpl. rewrite Hp. simpl. lia.
Qed.

Lemma Forall_or_lookup {A} (P : A -> bool) (l : list A) :
  Forall (fun x => P x = true) l \/ exists i x, l !! i = Some x /\ P x = false.
Proof.
  induction l as [|x l IH]; [by left|]. destruct (P x) eqn:E; [|right; by exists 0%nat, x].
  destruct IH as [?|(i & y & Hi & Hy)]; [left; by constructor | right; by exists (S i), y].
Qed.

Lemma quiet_no_permit pcs :
  Forall (fun t : SubGoal * Pc => finished t.2 || waiting t.2 = true) pcs -> count holds_permit pcs = 0%nat.
Proof.
  induction 1 as [|[s pc] pcs Hp _ IH]; [done|]. unfold count in *. simpl. rewrite IH.
  by destruct pc.
Qed.

(** No deadlock: someone of the plan can step, or another goal's worker is
    running and will return its permit. *)
Lemma team_progress st :
  sem_ok st -> Forall (fun t => finished t.2 = true) st.1 \/
  (exists i st', team_step (RunThread i false) st = Some st') \/
  (exists st', team_step OtherRelease st = Some st' /\ st'.1 = st.1 /\ (w_foreign st'.2 < w_foreign st.2)%nat).
Proof.
  destruct st as [pcs w]. intros Hok. simpl.
  destruct (Forall_or_lookup (fun t => finished t.2 || waiting t.2) pcs) as [Hall|(i & [sub pc] & Hi & Hb)].
  - destruct (Forall_or_lookup (fun t => finished t.2) pcs) as [?|(i & [sub pc] & Hi & Hb)]; [by left|].
    right. simpl in Hb. apply quiet_no_permit in Hall as Hz.
    rewrite Forall_lookup in Hall. specialize (Hall i _ Hi). simpl in Hall.
    rewrite Hb in Hall. simpl in Hall. destruct pc; try done. unfold sem_ok in Hok. simpl in Hok.
    destruct (w_sem w) as [s|] eqn:Es.
    + destruct Hok as [H1 (s' & Es' & _ & Eu & Hle)]. simpl in *. rewrite Es in Es'. simplify_eq.
      destruct (Nat.ltb_spec (sem_used s') (sem_cap s')) as [Hlt|Hge].
      * left. exists i. eexists. rewrite Hi. simpl. rewrite Es. unfold Acquire.
        destruct (Nat.ltb_spec (sem_used s') (sem_cap s')); [reflexivity|lia].
      * right. destruct (w_foreign w) as [|k] eqn:Ef; [lia|]. unfold Release.
        destruct (sem_used s') as [|u]; [lia|]. eexists. split; [reflexivity|]. simpl. split; [done|lia].
    + left. exists i. eexists. rewrite Hi. simpl. by rewrite Es.
  - right. left. exists i. simpl in Hb. apply orb_false_iff in Hb as [Hf Hw].
    destruct (busy_steps sub pc w Hf Hw) as [[pc' w'] E].
    { intros s Es Hh. unfold sem_ok in Hok. simpl in Hok. rewrite Es in Hok.
      destruct Hok as [_ (s' & Es' & _ & Eu & _)]. simpl in *. rewrite Es in Es'. simplify_eq.
      pose proof (count_pos holds_permit pcs i sub pc Hi Hh). lia. }
    eexists. rewrite Hi, E. reflexivity.
Qed.

(** A turn of the plan's own goroutines, or of a foreign worker finishing. *)
Definition unforced (t : Turn) : Prop :=
  match t with RunThread _ c => c = false | OtherRelease => True | _ => False end.

Lemma run_app s1 s2 (st st1 : Team) :
  run_schedule s1 st = Some st1 -> run_schedule (s1 ++ s2) st = run_schedule s2 st1.
Proof.
  revert st. induction s1 as [|t s1 IH]; intros st; simpl; [by intros [= ->]|].
  destruct (team_step t st); [apply IH|done].
Qed.

Lemma can_finish st :
  sem_ok st -> exists sched st', Forall unforced sched /\ run_schedule sched st = Some st' /\
    Forall (fun t => finished t.2 = true) st'.1.
Proof.
  remember (w_foreign st.2) as n eqn:Hn. remember (measure st) as m eqn:Hm. revert n st Hm Hn.
  induction (lex_wf m) as [m _ IHm]. intros n. induction (lt_wf n) as [n _ IHn].
  intros st -> -> Hok. destruct (team_progress st Hok) as [Hd|[(i & st1 & E)|(st1 & E & Ep & Hf)]].
  - by exists [], st.
  - destruct (IHm (measure st1)) with (n := w_foreign st1.2) (st := st1) as (sched & st2 & U & R & D); try done.
    + apply own_turn_decreases. by exists i, false.
    + by eapply team_step_sem_ok.
    + exists (RunThread i false :: sched), st2. split_and!; [by constructor | by simpl; rewrite E | done].
  - destruct (IHn (w_foreign st1.2) Hf st1) as (sched & st2 & U & R & D); try done.
    + unfold measure. by rewrite Ep.
    + by eapply team_step_sem_ok.
    + exists (OtherRelease :: sched), st2. split_and!; [by constructor | | done].
      simpl run_schedule. by rewrite E.
Qed.
End Join.

(** C4. From any state the goroutines can reach, no infinite run of their steps
    exists, and some continuation made only of their own steps and of other goals'
    workers returning permits completes dispatchSubGoals: the join cannot deadlock
    on the worker cap. *)
Theorem dispatch_join_is_always_reached {X PS RS : Type} `{RunStoreLike RS}
    uni url_Parse quote (o : @Orch X) plan subs sched (w : @World X PS RS) st :
  match w_sem w with
  | None => True
  | Some s => (1 <= sem_cap s)%nat /\ sem_used s = w_foreign w /\ (sem_used s <= sem_cap s)%nat
  end ->
  run_schedule uni url_Parse quote o plan sched
    (spawn subs, set_state o (pl_GoalID plan) StateDispatching w) = Some st ->
  Acc (own_turn uni url_Parse quote o plan) st /\
  exists sched' res, Forall unforced sched' /\
    dispatchSubGoals uni url_Parse quote o (sched ++ sched') plan subs w = Some res.
Proof.
  intros Hs E. split; [apply own_turn_wf|].
  set (w1 := set_state o (pl_GoalID plan) StateDispatching w) in *.
  assert (Hok : sem_ok (spawn subs, w1)).
  { destruct (frame_set_state o (pl_GoalID plan) StateDispatching w) as (Es & Ef & _).
    fold w1 in Es, Ef. unfold sem_ok. simpl. rewrite Es. destruct (w_sem w) as [s|]; [|done].
    destruct Hs as (H1 & H2 & H3). split; [done|]. apply spawn_permits; [done | congruence | done]. }
  apply run_sem_ok with (2 := E) in Hok.
  destruct (can_finish uni url_Parse quote o plan st Hok) as (sched' & [pcs w2] & U & R & D).
  apply join_finished in D as [results Hj]. simpl in Hj.
  exists sched', (after_join o plan results w2). split; [done|].
  unfold dispatchSubGoals. fold w1. by rewrite (run_app _ _ _ _ _ _ _ _ _ E), R, Hj.
Qed.

(** ** Concrete runs *)

Local Notation demo_run o cap rounds :=
  (run_schedule (fun s => s) demo_parse (fun s => s) o Demo.plan
    (Demo.round_robin o Demo.plan rounds (pl_SubGoals Demo.plan)
      (set_state o (pl_GoalID Demo.plan) StateDispatching (Demo.world cap)))
    (spawn (pl_SubGoals Demo.plan), set_state o (pl_GoalID Demo.plan) StateDispatching (Demo.world cap))).

Lemma live_workers_never_exceed_the_cap_witness :
  match demo_run (Demo.orch false false false) 2 8 with
  | Some (pcs, w') => (w_foreign w' + count running pcs <= 2)%nat /\ count running pcs = 2%nat
  | None => False
  end.
Proof.
  assert (C : match demo_run (Demo.orch false false false) 2 8 with
              | Some (pcs, _) => (count running pcs =? 2)%nat | None => false end = true)
    by (vm_compute; reflexivity).
  destruct (demo_run (Demo.orch false false false) 2 8) as [[pcs w']|] eqn:E; [|discriminate].
  split; [|by apply Nat.eqb_eq].
  refine (proj1 (live_workers_never_exceed_the_cap _ _ _ _ _ _ _ _ _ (mkSemaphore 2 0) _ _ _ _ E));
    [reflexivity | reflexivity | simpl; lia].
Defined.

Lemma dispatch_join_is_always_reached_witness :
  match demo_run (Demo.orch false false false) 1 9 with
  | Some st =>
    join st.1 = None /\
    exists sched res, dispatchSubGoals (fun s => s) demo_parse (fun s => s) (Demo.orch false false false)
      sched Demo.plan (pl_SubGoals Demo.plan) (Demo.world 1) = Some res
  | None => False
  end.
Proof.
  assert (C : match demo_run (Demo.orch false false false) 1 9 with
              | Some st => match join st.1 with None => true | Some _ => false end | None => false end = true)
    by (vm_compute; reflexivity).
  destruct (demo_run (Demo.orch false false false) 1 9) as [st|] eqn:E; [|discriminate].
  split; [by destruct (join st.1)|].
  refine (match dispatch_join_is_always_reached _ _ _ _ _ _ _ (Demo.world 1) st _ E with
          | conj _ (ex_intro _ sched (ex_intro _ res (conj _ R))) => _
          end); [simpl; lia | eauto].
Defined.
