(* ===== verification/DispatchGate.v ===== *)
(** * The spawn gate under every schedule

    No worker is started that the gate of [dispatchOne] did not let through, no
    sub-goal is started twice, and no denial goes unrecorded: invariants of the
    call log over arbitrary interleavings of the dispatch goroutines. *)

From stdpp Require Import base gmap strings list.
From Stdlib Require Import ZArith Lia Ascii.
From S2P Require Import Prelude GoStrings Seams TaskSource Policy AuditTrail Containment Planner RunStore Loop Fleet Dispatch Stores DispatchProofs.

Local Open Scope Z_scope.

(** Where an element of [l ++ [e]] stands. *)
Lemma app_split_snoc {A} (l : list A) e pre x post :
  l ++ [e] = pre ++ x :: post ->
  (pre = l /\ x = e /\ post = []) \/ exists post', post = post' ++ [e] /\ l = pre ++ x :: post'.
Proof.
  destruct post as [|y post _] using rev_ind; intros E.
  - left. apply app_inj_tail in E as [-> ->]. done.
  - right. exists post. rewrite app_comm_cons, app_assoc in E. apply app_inj_tail in E as [-> ->]. done.
Qed.

Section Gate.
Context {X PS RS : Type} `{RunStoreLike RS}.
Context (uni : string -> string) (url_Parse : string -> option (string * string))
        (quote : string -> string) (o : @Orch X) (plan : Plan).
Local Notation World := (@World X PS RS).
Local Notation Team := (@Team X PS RS).
Local Notation thread_step := (thread_step uni url_Parse quote o plan).
Local Notation team_step := (team_step uni url_Parse quote o plan).
Local Notation run_schedule := (run_schedule uni url_Parse quote o plan).

(** The [spawn-decided] event of [dispatchOne]. *)
Definition spawn_event (sub : SubGoal) (d : PolicyDecision) (reason : string) : AuditEvent :=
  mkAuditEvent ActionSpawnDecided (task_ID (sg_Task sub)) (pl_GoalID plan) (PolicyDecision_string d)
    reason false.

(** What the gate checks of a sub-goal, the answers being in the log [l]. *)
Definition admitted (sub : SubGoal) (l : list Event) : Prop :=
  is_ok (SelectRecipe quote (o_recipes o) (sg_RecipeName sub)) = true /\
  targetsOwnRepo uni url_Parse sub = false /\
  authorizesResource plan (sg_RecipeName sub) = true /\
  authorizesResource plan (task_ID (sg_Task sub)) = true /\
  EvDecide (worker_request o sub) PolicyAllow ∈ l.

(** ... and that the grant was offered to the audit sink, if there is one. *)
Definition granted (sub : SubGoal) (l : list Event) : Prop :=
  admitted sub l /\
  (o_auditSink o = None \/ exists ok, EvAudit (spawn_event sub PolicyAllow (sg_RecipeName sub)) ok ∈ l).

(** A denial of [sub] for [reason] is in the audit chain. *)
Definition denial_audited (sub : SubGoal) (reason : string) (l : list Event) : Prop :=
  exists d, is_allow d = false /\ EvAudit (spawn_event sub d reason) true ∈ l.

Definition outcome_ok (sub : SubGoal) (l : list Event) (oc : SubGoalOutcome) : Prop :=
  so_SubGoal oc = task_Spec (sg_Task sub) /\ so_Recipe oc = sg_RecipeName sub /\
  (so_Success oc = true -> EvDispatch (pl_GoalID plan) sub ∈ l) /\
  (forall b, so_Blocked oc = Some b ->
     b = classifyBlockedSpawn sub (ba_Reason b) /\ denial_audited sub (ba_Reason b) l).

(** A settled sub-goal had no recipe, was let through, or was denied. *)
Definition accounted (sub : SubGoal) (l : list Event) (oc : SubGoalOutcome) : Prop :=
  is_ok (SelectRecipe quote (o_recipes o) (sg_RecipeName sub)) = false \/
  granted sub l \/ exists b, so_Blocked oc = Some b.

(** What holds at each program counter. *)
Definition pc_inv (sub : SubGoal) (l : list Event) (pc : Pc) : Prop :=
  match pc with
  | PcStart => True
  | PcDecide => is_ok (SelectRecipe quote (o_recipes o) (sg_RecipeName sub)) = true
  | PcAudit d r => if is_allow d then admitted sub l else True
  | PcReport r => denial_audited sub r l
  | PcMark | PcRecord | PcAcquire | PcCheck | PcInvoke => granted sub l
  | PcHooks _ _ _ => granted sub l /\ EvDispatch (pl_GoalID plan) sub ∈ l
  | PcRelease paused _ _ =>
    granted sub l /\ (paused = false -> EvDispatch (pl_GoalID plan) sub ∈ l)
  | PcSettle paused _ err =>
    granted sub l /\ (paused = false -> err = None -> EvDispatch (pl_GoalID plan) sub ∈ l)
  | PcJournal _ _ oc => granted sub l /\ outcome_ok sub l oc
  | PcDone oc err => outcome_ok sub l oc /\ (err = None -> accounted sub l oc)
  end.

Lemma admitted_mono sub l evs : admitted sub l -> admitted sub (l ++ evs).
Proof. intros (?&?&?&?&?). split_and!; try done. apply elem_of_app. by left. Qed.
Lemma granted_mono sub l evs : granted sub l -> granted sub (l ++ evs).
Proof.
  intros [A [N|[ok Hok]]]; (split; [by apply admitted_mono|]); [by left|].
  right. exists ok. apply elem_of_app. by left.
Qed.
Lemma denial_mono sub r l evs : denial_audited sub r l -> denial_audited sub r (l ++ evs).
Proof. intros (d & Hd & Hin). exists d. split; [done|]. apply elem_of_app. by left. Qed.
Lemma outcome_mono sub l evs oc : outcome_ok sub l oc -> outcome_ok sub (l ++ evs) oc.
Proof.
  intros (E1 & E2 & Hs & Hb). split_and!; try done.
  - intros Hs'. apply elem_of_app. left. by apply Hs.
  - intros b Eb. destruct (Hb b Eb). split; [done|]. by apply denial_mono.
Qed.

Lemma accounted_mono sub l evs oc : accounted sub l oc -> accounted sub (l ++ evs) oc.
Proof. intros [?|[?|?]]; [by left | right; left; by apply granted_mono | right; by right]. Qed.
Lemma elem_mono (e : Event) l evs : e ∈ l -> e ∈ l ++ evs.
Proof. intros. apply elem_of_app. by left. Qed.

Lemma pc_inv_mono sub l evs pc : pc_inv sub l pc -> pc_inv sub (l ++ evs) pc.
Proof.
  destruct pc; simpl; try (by auto using granted_mono, denial_mono).
  - destruct (is_allow d); [apply admitted_mono | done].
  - intros [? ?]. split; [by apply granted_mono | by apply elem_mono].
  - intros [? Hi]. split; [by apply granted_mono|]. intros Hp. by apply elem_mono, Hi.
  - intros [? Hi]. split; [by apply granted_mono|]. intros Hp He. by apply elem_mono, Hi.
  - intros [? ?]. split; [by apply granted_mono | by apply outcome_mono].
  - intros [? Ha]. split; [by apply outcome_mono|]. intros He. by apply accounted_mono, Ha.
Qed.

(** Every dispatch of the log comes after its grant. *)
Definition gated (subs : list SubGoal) (l : list Event) : Prop :=
  forall pre g sub post, l = pre ++ EvDispatch g sub :: post ->
    g = pl_GoalID plan /\ sub ∈ subs /\ granted sub pre.

Lemma gated_nil subs : gated subs [].
Proof. intros pre g sub post E. by destruct pre. Qed.

Lemma gated_snoc subs l e :
  gated subs l ->
  (forall g sub, e = EvDispatch g sub -> g = pl_GoalID plan /\ sub ∈ subs /\ granted sub l) ->
  gated subs (l ++ [e]).
Proof.
  intros Hg He pre g sub post E. destruct (app_split_snoc l e pre (EvDispatch g sub) post E)
    as [(-> & <- & _)|(post' & -> & ->)]; [by apply He|].
  by apply (Hg pre g sub post').
Qed.

Lemma gated_app subs l evs : gated subs l -> dispatched evs = [] -> gated subs (l ++ evs).
Proof.
  revert l. induction evs as [|e evs IH]; intros l Hg Hn; [by rewrite app_nil_r|].
  rewrite cons_middle, app_assoc. destruct e; try done; (apply IH; [|done]);
    (apply gated_snoc; [done|]); by intros g sub [=].
Qed.

(** A spawn denial the audit sink refused. *)
Definition lost_denial (ev : AuditEvent) (evs : list Event) : Prop :=
  EvAudit ev false ∈ evs /\ ae_Action ev = ActionSpawnDecided /\
  ae_PolicyDecision ev <> PolicyDecision_string PolicyAllow.

(** What one step of the goroutine of [sub] adds to the log. *)
Definition step_ok (sub : SubGoal) (pc pc' : Pc) (l evs : list Event) : Prop :=
  pc_inv sub (l ++ evs) pc' /\
  (pc = PcInvoke /\ evs = [EvDispatch (pl_GoalID plan) sub] \/ pc <> PcInvoke /\ dispatched evs = []) /\
  (forall ev, lost_denial ev evs -> exists oc err, pc' = PcDone oc (Some err)).

Lemma calm_step_ok sub pc pc' l evs :
  calm evs -> pc <> PcInvoke -> pc_inv sub (l ++ evs) pc' -> step_ok sub pc pc' l evs.
Proof.
  intros Hc Hn Hp. split; [done|]. split; [right; split; [done | by apply calm_dispatched]|].
  intros ev (Hin & Ha & _). unfold calm in Hc. rewrite Forall_forall in Hc. specialize (Hc _ Hin). simpl in Hc.
  by rewrite Ha in Hc.
Qed.

(** Steps that only touch what [frame] lets them. *)
Lemma frame_step sub pc pc' log0 l (w w' : World) :
  frame w w' -> w_log w = log0 ++ l -> pc <> PcInvoke ->
  (forall evs, pc_inv sub (l ++ evs) pc') ->
  exists evs, w_log w' = log0 ++ l ++ evs /\ step_ok sub pc pc' l evs.
Proof.
  intros (_ & _ & _ & _ & evs & E & Hc) El Hn Hp. exists evs.
  split; [by rewrite E, El, app_assoc | by apply calm_step_ok].
Qed.

Lemma decide_step sub log0 l (w : World) :
  w_log w = log0 ++ l -> is_ok (SelectRecipe quote (o_recipes o) (sg_RecipeName sub)) = true ->
  let '((d, r), w') := decideSpawnWorker uni url_Parse quote o plan sub w in
  exists evs, w_log w' = log0 ++ l ++ evs /\ step_ok sub PcDecide (PcAudit d r) l evs.
Proof.
  intros El Hr. unfold decideSpawnWorker.
  destruct (targetsOwnRepo uni url_Parse sub) eqn:E1; [by eapply frame_step|].
  destruct (authorizesResource plan (sg_RecipeName sub)) eqn:E2; [|by eapply frame_step].
  destruct (authorizesResource plan (task_ID (sg_Task sub))) eqn:E3; [|by eapply frame_step].
  simpl. unfold decide_policy. destruct (o_policy o (worker_request o sub) (w_ext w)) as [resp x].
  assert (Hin : EvDecide (worker_request o sub) (dp_Decision resp) ∈
    l ++ [EvDecide (worker_request o sub) (dp_Decision resp)]) by (apply elem_of_app; right; left).
  destruct (dp_Decision resp); eexists [_]; (split; [simpl; by rewrite El, app_assoc|]);
    (apply calm_step_ok; [by repeat constructor | done | done]).
Qed.

Lemma audit_step sub d r log0 l (w : World) pc' w' :
  w_log w = log0 ++ l -> pc_inv sub l (PcAudit d r) ->
  thread_step sub false (PcAudit d r) w = Some (pc', w') ->
  exists evs, w_log w' = log0 ++ l ++ evs /\ step_ok sub (PcAudit d r) pc' l evs.
Proof.
  intros El Hi. simpl. set (ev := mkAuditEvent _ _ _ _ _ _).
  assert (Hempty : forall oc err, outcome_of sub false "" None = oc ->
    pc_inv sub l (PcDone oc (Some err))).
  { intros oc err <-. split; [|done]. split_and!; try done. }
  unfold emitFleetEventForDeny. destruct (o_auditSink o) as [append|] eqn:Ea.
  - destruct (append ev (w_ext w)) as [e x]. set (w1 := logged _ x w).
    assert (El1 : w_log w1 = log0 ++ l ++ [EvAudit ev (no_err e)]) by (simpl; by rewrite El, app_assoc).
    assert (Hd : dispatched [EvAudit ev (no_err e)] = []) by done.
    destruct e as [err|]; destruct (is_allow d) eqn:Ed; simpl; intros [= <- <-];
      exists [EvAudit ev (no_err (Some err))] || exists [EvAudit ev true]; (split; [exact El1|]).
    all: split_and!; [|right; split; [done | exact Hd] |].
    + split; [by apply admitted_mono; simpl in Hi; rewrite Ed in Hi|]. right.
      exists false. apply elem_of_app. right. destruct d; try done. by left.
    + intros ev' (Hin & _ & Hne). apply list_elem_of_singleton in Hin as [= ->].
      by destruct d.
    + by apply pc_inv_mono, Hempty.
    + eauto.
    + split; [by apply admitted_mono; simpl in Hi; rewrite Ed in Hi|]. right.
      exists true. apply elem_of_app. right. destruct d; try done. by left.
    + by intros ev' (Hin%list_elem_of_singleton & _).
    + exists d. split; [done|]. apply elem_of_app. right. left.
    + by intros ev' (Hin%list_elem_of_singleton & _).
  - destruct (is_allow d) eqn:Ed; simpl; intros [= <- <-]; (eapply frame_step; [done..|]);
      intros evs; apply pc_inv_mono; [|by apply Hempty].
    simpl in *. rewrite Ed in Hi. split; [done | by left].
Qed.

Lemma classify_not_zero sub r : IsZero (classifyBlockedSpawn sub r) = false.
Proof. unfold IsZero. simpl. by rewrite andb_false_r. Qed.

Lemma outcome_of_ok sub l success detail :
  (success = true -> EvDispatch (pl_GoalID plan) sub ∈ l) ->
  outcome_ok sub l (outcome_of sub success detail None).
Proof. intros Hs. split_and!; try done. Qed.

Lemma thread_step_inv sub c pc log0 l (w : World) pc' w' :
  w_log w = log0 ++ l -> pc_inv sub l pc -> thread_step sub c pc w = Some (pc', w') ->
  exists evs, w_log w' = log0 ++ l ++ evs /\ step_ok sub pc pc' l evs.
Proof.
  intros El Hi E. destruct pc.
  - simpl in E. destruct (SelectRecipe _ _ _) eqn:Er; simplify_eq; (eapply frame_step; [done..|]); intros evs.
    + simpl. by rewrite Er.
    + split; [by apply outcome_of_ok|]. intros _. left. by rewrite Er.
  - simpl in E. pose proof (decide_step sub log0 l w El Hi) as Hd.
    destruct (decideSpawnWorker _ _ _ _ _ _ _) as [[d r] w1]. by simplify_eq.
  - by apply (audit_step sub d denyReason log0 l w pc' w').
  - simpl in E. match type of E with context [report o ?m w] =>
      pose proof (frame_report o m w) as F; destruct (report o m w) as [e w1] end.
    simplify_eq. eapply frame_step; [exact F | done..|]. intros evs. simpl in Hi.
    rewrite classify_not_zero.
    split; [|intros _; right; right; by eexists]. split_and!; try done.
    intros b [= <-]. split; [done | by apply denial_mono].
  - simpl in E. simplify_eq. eapply frame_step; [apply frame_set_sub_goal | done..|].
    intros evs. by apply granted_mono.
  - simpl in E. simplify_eq. eapply frame_step; [apply frame_recordAttempt | done..|].
    intros evs. by apply granted_mono.
  - simpl in E. exists []. rewrite !app_nil_r.
    assert (Hl : w_log w' = log0 ++ l /\ (pc' = PcCheck \/ exists e, pc' = PcSettle false false (Some e))).
    { repeat (case_match; simplify_eq/=); split; eauto. }
    destruct Hl as [Hl Hpc]. split; [done|]. apply calm_step_ok; [constructor | done|].
    rewrite app_nil_r. destruct Hpc as [->|[e ->]]; [done|]. by split.
  - simpl in E. destruct (planAwaitingApproval _ _); simplify_eq; (eapply frame_step; [done..|]);
      intros evs; [split; [by apply granted_mono | done] | by apply granted_mono].
  - simpl in E. destruct (o_dispatch o _ _ _) as [[hs e] x]. simplify_eq.
    exists [EvDispatch (pl_GoalID plan) sub]. split; [simpl; by rewrite El, app_assoc|].
    split_and!; [| by left |].
    + split; [by apply granted_mono|]. apply elem_of_app. right. left.
    + by intros ev' (Hin%list_elem_of_singleton & _).
  - simpl in E. destruct Hi as [Hg Hd]. destruct hooks as [|[t r] hs]; simplify_eq.
    + eapply frame_step; [done..|]. intros evs. split; [by apply granted_mono|]. intros _. by apply elem_mono.
    + eapply frame_step; [apply frame_recordPending | done..|]. intros evs.
      split; [by apply granted_mono | by apply elem_mono].
  - simpl in E. destruct Hi as [Hg Hd]. exists []. rewrite !app_nil_r.
    assert (Hl : w_log w' = log0 ++ l /\ pc' = PcSettle paused requested err).
    { destruct (w_sem w) as [s|]; [destruct (Release s)|]; by simplify_eq. }
    destruct Hl as [Hl ->]. split; [done|]. apply calm_step_ok; [constructor | done|].
    rewrite app_nil_r. split; [done|]. intros Hp _. by apply Hd.
  - simpl in E. destruct Hi as [Hg Hd].
    assert (Hgo : forall evs, granted sub (l ++ evs)) by (intros; by apply granted_mono).
    destruct paused; [|destruct requested; [|destruct err as [e|]]]; simplify_eq;
      (eapply frame_step; [apply frame_set_sub_goal || done | done..|]); intros evs.
    + split; [by apply outcome_of_ok|]. intros _. right. left. by apply Hgo.
    + split; [by apply Hgo | by apply outcome_of_ok].
    + split; [by apply Hgo | by apply outcome_of_ok].
    + split; [by apply Hgo|]. apply outcome_of_ok. intros _. by apply elem_mono, Hd.
  - simpl in E. destruct Hi as [Hg Hd]. simplify_eq.
    eapply frame_step; [apply frame_recordAttempt | done..|]. intros evs.
    split; [by apply outcome_mono|]. intros _. right. left. by apply granted_mono.
  - done.
Qed.

(** ** All goroutines *)

(** The sub-goals whose worker may still be started. *)
Definition startable (pc : Pc) : bool :=
  match pc with
  | PcStart | PcDecide | PcAudit _ _ | PcMark | PcRecord | PcAcquire | PcCheck | PcInvoke => true
  | _ => false
  end.
Definition pending (pcs : list (SubGoal * Pc)) : list SubGoal :=
  pcs ≫= (fun t => if startable t.2 then [t.1] else []).

Record team_inv (log0 : list Event) (subs : list SubGoal) (new : list Event) (st : Team) : Prop := {
  ti_log : w_log st.2 = log0 ++ new;
  ti_subs : st.1.*1 = subs;
  ti_pcs : Forall (fun t => pc_inv t.1 new t.2) st.1;
  ti_gated : gated subs new;
  ti_once : dispatched new ++ pending st.1 ⊆+ subs;
  ti_lost : forall ev, lost_denial ev new -> exists i sub oc err, st.1 !! i = Some (sub, PcDone oc (Some err))
}.

Lemma startable_step sub c pc (w : World) pc' w' :
  thread_step sub c pc w = Some (pc', w') -> startable pc = false -> startable pc' = false.
Proof. destruct pc; simpl; try done; intros E _; repeat (case_match; simplify_eq/=); by simplify_eq/=. Qed.

Lemma pending_split l1 l2 sub pc :
  pending (l1 ++ (sub, pc) :: l2) = pending l1 ++ (if startable pc then [sub] else []) ++ pending l2.
Proof. unfold pending. by rewrite bind_app. Qed.

(** The sub-goal that steps leaves the pending ones, at the latest when its
    worker starts. *)
Lemma pending_step l1 l2 sub c pc (w : World) pc' w' evs l :
  thread_step sub c pc w = Some (pc', w') -> step_ok sub pc pc' l evs ->
  dispatched evs ++ pending (l1 ++ (sub, pc') :: l2) ⊆+ pending (l1 ++ (sub, pc) :: l2).
Proof.
  intros E (_ & Hev & _). rewrite !pending_split. destruct Hev as [[-> ->]|[_ ->]].
  - assert (startable pc' = false) as -> by (simpl in E; by repeat (case_match; simplify_eq/=)).
    simpl. by rewrite Permutation_middle.
  - simpl. destruct (startable pc) eqn:Es.
    + destruct (startable pc'); [done|]. simpl. apply submseteq_app; [done|]. by apply submseteq_cons.
    + by rewrite (startable_step _ _ _ _ _ _ E Es).
Qed.

Lemma lost_app ev l evs : lost_denial ev (l ++ evs) -> lost_denial ev l \/ lost_denial ev evs.
Proof. intros ([Hin|Hin]%elem_of_app & H1 & H2); [left | right]; by split_and!. Qed.

Lemma thread_team_inv log0 subs new i c pcs sub pc (w : World) pc' w' :
  team_inv log0 subs new (pcs, w) -> pcs !! i = Some (sub, pc) ->
  thread_step sub c pc w = Some (pc', w') ->
  exists evs, team_inv log0 subs (new ++ evs) (<[i := (sub, pc')]> pcs, w').
Proof.
  intros [El Es Hp Hg Ho Hl] Hi E. simpl in *.
  assert (Hpc : pc_inv sub new pc) by (rewrite Forall_lookup in Hp; exact (Hp i _ Hi)).
  assert (Hsub : sub ∈ subs) by (rewrite <- Es; apply list_elem_of_fmap; exists (sub, pc);
    split; [done | by eapply list_elem_of_lookup_2]).
  destruct (thread_step_inv sub c pc log0 new w pc' w' El Hpc E) as (evs & El' & Hok).
  exists evs. pose proof Hok as (Hpc' & Hev & Hlost). split; simpl.
  - done.
  - rewrite list_fmap_insert, <- Es. apply list_insert_id. rewrite list_lookup_fmap, Hi. done.
  - apply Forall_insert; [|done]. eapply Forall_impl; [exact Hp|]. intros t. apply pc_inv_mono.
  - destruct Hev as [[-> ->]|[_ Hd]]; [|by apply gated_app].
    apply gated_snoc; [done|]. intros g s [= <- <-]. by split_and!.
  - apply list_elem_of_split_length in Hi as (l1 & l2 & -> & ->).
    rewrite insert_app_r_alt, Nat.sub_diag by done. simpl.
    pose proof (pending_step l1 l2 sub c pc w pc' w' evs new E Hok) as Hps.
    rewrite dispatched_app, <- app_assoc. etrans; [|exact Ho]. by apply submseteq_app.
  - intros ev [Hold|Hnew]%lost_app.
    + destruct (Hl ev Hold) as (j & s & oc & err & Hj). exists j, s, oc, err.
      rewrite list_lookup_insert_ne; [done|]. intros ->. rewrite Hi in Hj. by simplify_eq.
    + destruct (Hlost ev Hnew) as (oc & err & ->). exists i, sub, oc, err.
      apply list_lookup_insert_eq. by eapply lookup_lt_Some.
Qed.

Lemma team_step_inv log0 subs new t (st st' : Team) :
  team_inv log0 subs new st -> team_step t st = Some st' ->
  exists evs, team_inv log0 subs (new ++ evs) st'.
Proof.
  destruct st as [pcs w]. intros Hinv E. destruct t as [i c| | |]; simpl in E.
  - destruct (pcs !! i) as [[sub pc]|] eqn:Hi; [|done].
    destruct (thread_step sub c pc w) as [[pc' w']|] eqn:Et; simplify_eq.
    by eapply thread_team_inv.
  - exists []. rewrite app_nil_r. repeat (case_match; simplify_eq/=).
    by destruct Hinv; split.
  - exists []. rewrite app_nil_r. repeat (case_match; simplify_eq/=).
    by destruct Hinv; split.
  - exists []. rewrite app_nil_r. simplify_eq. by destruct Hinv; split.
Qed.

Lemma run_inv log0 subs new sched (st st' : Team) :
  team_inv log0 subs new st -> run_schedule sched st = Some st' ->
  exists new', team_inv log0 subs new' st'.
Proof.
  revert new st. induction sched as [|t sched IH]; intros new st Hinv; simpl; [intros [= <-]; eauto|].
  destruct (team_step t st) as [st1|] eqn:E; [|done].
  destruct (team_step_inv _ _ _ _ _ _ Hinv E) as [evs Hinv']. by apply (IH (new ++ evs)).
Qed.

Lemma spawn_inv subs (w : World) : team_inv (w_log w) subs [] (spawn subs, w).
Proof.
  split; simpl.
  - by rewrite app_nil_r.
  - unfold spawn. rewrite <- list_fmap_compose. apply list_fmap_id.
  - apply Forall_forall. by intros t (s & -> & _)%list_elem_of_fmap.
  - apply gated_nil.
  - clear. induction subs as [|s subs IH]; [done|]. by apply submseteq_skip.
  - by intros ev ([]%not_elem_of_nil & _).
Qed.
End Gate.

(** ** After the join *)

(** Re-evaluation only fills in its own field. *)
Definition same_core (a b : SubGoalOutcome) : Prop :=
  so_SubGoal a = so_SubGoal b /\ so_Recipe a = so_Recipe b /\ so_Success a = so_Success b /\
  so_Detail a = so_Detail b /\ so_Blocked a = so_Blocked b.

#[export] Instance same_core_refl : Reflexive same_core.
Proof. by intros oc. Qed.

Lemma first_err_None errs : first_err errs = None <-> Forall (fun e => e = None) errs.
Proof.
  induction errs as [|[e|] errs IH]; simpl; [by split|split; [done|by intros [? ?]%Forall_cons]|].
  rewrite IH, Forall_cons. naive_solver.
Qed.

Lemma join_lookup pcs results i :
  join pcs = Some results -> results !! i = (pcs !! i ≫= fun t => done_result t.2).
Proof.
  intros E. apply mapM_Some_1 in E. revert i. induction E as [|t r pcs results E1 E IH]; intros [|i]; simpl; try done.
Qed.

Section AfterJoin.
Context {X PS RS : Type} `{RunStoreLike RS}.
Context (uni : string -> string) (url_Parse : string -> option (string * string))
        (quote : string -> string) (o : @Orch X) (plan : Plan).
Local Notation World := (@World X PS RS).

Lemma reevaluate_core n sw ocs (w : World) :
  Forall2 same_core ocs (reevaluate_outcomes o plan n sw ocs w).1.
Proof.
  revert w. induction ocs as [|oc ocs IH]; intros w; simpl; [constructor|].
  destruct (so_Blocked oc) as [b|].
  - destruct (ReevaluateBlockedSpawn _ _ _ _ _ _) as [[r|e] w1].
    + specialize (IH w1). destruct (reevaluate_outcomes _ _ _ _ ocs _) as [ocs' w2]. by constructor.
    + match goal with |- context [reevaluate_outcomes o plan n sw ocs ?w2] =>
        specialize (IH w2); destruct (reevaluate_outcomes o plan n sw ocs w2) as [ocs' w3] end.
      by constructor.
  - specialize (IH w). destruct (reevaluate_outcomes _ _ _ _ ocs w) as [ocs' w2]. by constructor.
Qed.

(** The result of the join: the outcomes, and the halt on a lost denial. *)
Lemma after_join_result results (w : World) :
  let '((res, err), w') := after_join o plan results w in
  pr_Goal res = pl_Goal plan /\ Forall2 same_core results.*1 (pr_Outcomes res) /\
  ((exists e, err = Some (OErrDenyAudit e)) <-> ~ Forall (fun e => e = None) results.*2).
Proof.
  unfold after_join. destruct (first_err results.*2) as [e|] eqn:E.
  - simpl. split_and!; [done | reflexivity |]. split; [|eauto].
    intros _ Hall. apply first_err_None in Hall. congruence.
  - apply first_err_None in E as Hall.
    set (bound := if o_reevaluationBound o <=? 0 then o_MaxAttempts o else o_reevaluationBound o).
    assert (Hre : Forall2 same_core results.*1 (match o_statusWriter o with
      | None => (results.*1, w)
      | Some sw => reevaluate_outcomes o plan bound (lift_status_writer sw) results.*1 w end).1).
    { destruct (o_statusWriter o); [apply reevaluate_core | reflexivity]. }
    destruct (match o_statusWriter o with None => _ | Some _ => _ end) as [ocs w1]. simpl in Hre.
    destruct (report o _ _) as [e w2]. simpl. split_and!; try done. split; [|done].
    intros [e' He]. by destruct e.
Qed.

Lemma set_state_log g s (w : World) : w_log (set_state o g s w) = w_log w.
Proof. unfold set_state, now. by destruct (o_clock o _). Qed.

(** The whole of [dispatchSubGoals] in terms of the invariant at the join. *)
Lemma dispatch_inv sched subs (w : World) r w' :
  dispatchSubGoals uni url_Parse quote o sched plan subs w = Some (r, w') ->
  exists pcs w1 results new evs,
    join pcs = Some results /\ after_join o plan results w1 = (r, w') /\
    team_inv uni url_Parse quote o plan (w_log w) subs new (pcs, w1) /\
    w_log w' = w_log w ++ new ++ evs /\ calm evs.
Proof.
  unfold dispatchSubGoals. intros E.
  destruct (run_schedule _ _ _ _ _ _ _) as [[pcs w1]|] eqn:Er; [|done].
  destruct (join pcs) as [results|] eqn:Ej; [|done]. injection E as E.
  pose proof (spawn_inv uni url_Parse quote o plan subs (set_state o (pl_GoalID plan) StateDispatching w)) as H0.
  rewrite set_state_log in H0. destruct (run_inv _ _ _ _ _ _ _ _ _ _ _ H0 Er) as [new Hinv].
  pose proof (frame_after_join o plan results w1) as (_ & _ & _ & _ & evs & El & Hc).
  rewrite E in El. simpl in El. exists pcs, w1, results, new, evs. split_and!; try done.
  pose proof (ti_log _ _ _ _ _ _ _ _ _ Hinv) as El1. simpl in El1. by rewrite El, El1, app_assoc.
Qed.
End AfterJoin.

(** C1. Under every interleaving of the dispatch goroutines, of other goals' workers
    and of a cancellation, a worker is started only for a sub-goal of the list being
    dispatched, at most once each, and only after its recipe was found, it was
    checked not to target agent-builder's own repository, its recipe and task were
    found in the plan's derived allow set, the policy engine answered allow to its
    spawn-worker request, and the grant was offered to the audit sink when there is
    one. *)
Theorem no_worker_starts_ungated {X PS RS : Type} `{RunStoreLike RS}
    uni url_Parse quote (o : @Orch X) sched plan subs (w : @World X PS RS) r w' :
  dispatchSubGoals uni url_Parse quote o sched plan subs w = Some (r, w') ->
  exists new, w_log w' = w_log w ++ new /\
    dispatched new ⊆+ subs /\
    forall pre g sub post, new = pre ++ EvDispatch g sub :: post ->
      g = pl_GoalID plan /\ sub ∈ subs /\
      is_ok (SelectRecipe quote (o_recipes o) (sg_RecipeName sub)) = true /\
      targetsOwnRepo uni url_Parse sub = false /\
      authorizesResource plan (sg_RecipeName sub) = true /\
      authorizesResource plan (task_ID (sg_Task sub)) = true /\
      EvDecide (worker_request o sub) PolicyAllow ∈ pre /\
      (o_auditSink o = None \/
       exists ok, EvAudit (spawn_event plan sub PolicyAllow (sg_RecipeName sub)) ok ∈ pre).
Proof.
  intros (pcs & w1 & results & new & evs & Hj & _ & Hinv & El & Hc)%dispatch_inv.
  exists (new ++ evs). split; [done|]. split.
  - rewrite dispatched_app, (calm_dispatched evs Hc), app_nil_r.
    etrans; [|exact (ti_once _ _ _ _ _ _ _ _ _ Hinv)]. by apply submseteq_inserts_r.
  - intros pre g sub post E.
    pose proof (gated_app uni url_Parse quote o plan subs new evs
      (ti_gated _ _ _ _ _ _ _ _ _ Hinv) (calm_dispatched evs Hc)) as Hg.
    destruct (Hg pre g sub post E) as (Hgid & Hin & (H1 & H2 & H3 & H4 & H5) & H6).
    by split_and!.
Qed.

Lemma outcome_core plan sub l a b : same_core a b -> outcome_ok plan sub l a -> outcome_ok plan sub l b.
Proof. intros (E1 & E2 & E3 & E4 & E5). unfold outcome_ok. by rewrite E1, E2, E3, E5. Qed.

Lemma calm_no_lost ev evs : calm evs -> ~ lost_denial ev evs.
Proof.
  unfold calm. rewrite Forall_forall. intros Hc (Hin & Ha & _). specialize (Hc _ Hin). simpl in Hc.
  by rewrite Ha in Hc.
Qed.

(** One outcome per sub-goal, in the order of the plan. *)
Lemma outcomes_in_order {X PS RS : Type} `{RunStoreLike RS} uni url_Parse quote (o : @Orch X) plan
    log0 subs new pcs results (w1 w' : @World X PS RS) res err :
  join pcs = Some results -> after_join o plan results w1 = ((res, err), w') ->
  team_inv uni url_Parse quote o plan log0 subs new (pcs, w1) ->
  map (fun oc => (so_SubGoal oc, so_Recipe oc)) (pr_Outcomes res) =
  map (fun s => (task_Spec (sg_Task s), sg_RecipeName s)) subs.
Proof.
  intros Hj Ea Hinv. pose proof (after_join_result o plan results w1) as Hr. rewrite Ea in Hr.
  destruct Hr as (_ & Hcore & _). rewrite <- (ti_subs _ _ _ _ _ _ _ _ _ Hinv).
  pose proof (ti_pcs _ _ _ _ _ _ _ _ _ Hinv) as Hpcs. simpl in *. clear Ea Hinv.
  apply mapM_Some_1 in Hj. revert Hcore Hpcs. generalize (pr_Outcomes res). clear res.
  induction Hj as [|[s pc] [oc e] pcs results Hd Hj IH]; intros ocs Hcore Hpcs; simpl in *.
  - by apply Forall2_nil_inv_l in Hcore as ->.
  - apply Forall2_cons_inv_l in Hcore as (oc' & ocs' & (E1 & E2 & _) & Hcore & ->).
    apply Forall_cons in Hpcs as [Hp Hpcs]. destruct pc; simplify_eq/=. destruct Hp as [(E3 & E4 & _) _].
    f_equal; [congruence | by apply IH].
Qed.

(** C2. dispatchSubGoals returns one outcome per sub-goal, in sub-goal order; a
    successful outcome had its worker started; a blocked outcome has its denial in
    the audit chain; if the audit sink refused a spawn denial the plan halts with
    the deny-audit error; and when it does not halt, every sub-goal had no recipe,
    was let through the gate, or carries its typed denial. *)
Theorem every_denial_is_audited_or_halts {X PS RS : Type} `{RunStoreLike RS}
    uni url_Parse quote (o : @Orch X) sched plan subs (w : @World X PS RS) res err w' :
  dispatchSubGoals uni url_Parse quote o sched plan subs w = Some ((res, err), w') ->
  exists new, w_log w' = w_log w ++ new /\
    length (pr_Outcomes res) = length subs /\
    (forall i sub, subs !! i = Some sub -> exists oc, pr_Outcomes res !! i = Some oc /\
       outcome_ok plan sub new oc /\
       ((forall e, err <> Some (OErrDenyAudit e)) -> accounted uni url_Parse quote o plan sub new oc)) /\
    (forall ev, lost_denial ev new -> exists e, err = Some (OErrDenyAudit e)).
Proof.
  intros (pcs & w1 & results & new & evs & Hj & Ea & Hinv & El & Hc)%dispatch_inv.
  pose proof (after_join_result o plan results w1) as Hr. rewrite Ea in Hr. destruct Hr as (_ & Hcore & Herr).
  assert (Hlen : length results = length subs).
  { rewrite <- (ti_subs _ _ _ _ _ _ _ _ _ Hinv), length_fmap.
    apply mapM_Some_1, Forall2_length in Hj. by symmetry. }
  exists (new ++ evs). split_and!; [done | | |].
  - apply Forall2_length in Hcore. by rewrite <- Hcore, length_fmap.
  - intros i sub Hi.
    assert (Hp : exists pc, pcs !! i = Some (sub, pc)).
    { rewrite <- (ti_subs _ _ _ _ _ _ _ _ _ Hinv) in Hi. apply list_lookup_fmap_Some in Hi as ([s pc] & -> & Hi).
      eauto. }
    destruct Hp as [pc Hp]. pose proof (ti_pcs _ _ _ _ _ _ _ _ _ Hinv) as Hpcs. simpl in Hpcs.
    rewrite Forall_lookup in Hpcs. specialize (Hpcs i _ Hp). simpl in Hpcs.
    destruct (lookup_lt_is_Some_2 results i) as [[oc e] Hres].
    { rewrite Hlen. by eapply lookup_lt_Some. }
    pose proof Hres as Hd. rewrite (join_lookup pcs results i Hj), Hp in Hd. simpl in Hd.
    destruct pc; simplify_eq/=. destruct Hpcs as [Hok Hacc].
    assert (Hfst : results.*1 !! i = Some oc) by (by rewrite list_lookup_fmap, Hres).
    destruct (Forall2_lookup_l _ _ _ _ _ Hcore Hfst) as (oc' & Hoc' & Hsame).
    exists oc'. split; [done|]. split; [apply (outcome_core _ _ _ _ _ Hsame), outcome_mono, Hok|].
    intros Hne. assert (He : e = None).
    { destruct (decide (Forall (fun e => e = None) results.*2)) as [Hall|Hn].
      - rewrite Forall_lookup in Hall. apply (Hall i). by rewrite list_lookup_fmap, Hres.
      - destruct (proj2 Herr Hn) as [e' He']. by destruct (Hne e'). }
    specialize (Hacc He). apply accounted_mono. destruct Hsame as (_ & _ & _ & _ & Eb).
    unfold accounted in *. by rewrite <- Eb.
  - intros ev [Hl|Hl]%lost_app; [|by destruct (calm_no_lost ev evs Hc)].
    destruct (ti_lost _ _ _ _ _ _ _ _ _ Hinv ev Hl) as (i & sub & oc & e & Hi). simpl in Hi.
    apply Herr. intros Hall. rewrite Forall_lookup in Hall.
    assert (Hres : results !! i = Some (oc, Some e)) by (by rewrite (join_lookup pcs results i Hj), Hi).
    specialize (Hall i (Some e)). rewrite list_lookup_fmap, Hres in Hall. by specialize (Hall eq_refl).
Qed.

(** ** Concrete runs *)

Local Notation demo_dispatch o :=
  (dispatchSubGoals (fun s => s) demo_parse (fun s => s) o
    (Demo.round_robin o Demo.plan 20 (pl_SubGoals Demo.plan) (set_state o "g" StateDispatching (Demo.world 1)))
    Demo.plan (pl_SubGoals Demo.plan) (Demo.world 1)).

(** The two allowed sub-goals run, the denied one does not. *)
Lemma no_worker_starts_ungated_witness :
  match demo_dispatch (Demo.orch false false false) with
  | Some (_, w') => dispatched (w_log w') ⊆+ pl_SubGoals Demo.plan /\
                    map sg_RecipeName (dispatched (w_log w')) = ["build"; "build"]
  | None => False
  end.
Proof.
  assert (C : match demo_dispatch (Demo.orch false false false) with
              | Some (_, w') => bool_decide (map sg_RecipeName (dispatched (w_log w')) = ["build"; "build"])
              | None => false end = true) by (vm_compute; reflexivity).
  destruct (demo_dispatch (Demo.orch false false false)) as [[r w']|] eqn:E; [|discriminate].
  split; [|by apply bool_decide_eq_true in C].
  destruct (no_worker_starts_ungated _ _ _ _ _ _ _ _ _ _ E) as (new & -> & Hd & _). exact Hd.
Defined.

Definition lost_denials (l : list Event) : list AuditEvent :=
  l ≫= (fun e => match e with
    | EvAudit ev false =>
      match ae_Action ev with
      | ActionSpawnDecided => if String.eqb (ae_PolicyDecision ev) "allow" then [] else [ev]
      | _ => []
      end
    | _ => [] end).

Lemma lost_denials_spec ev l : ev ∈ lost_denials l -> lost_denial ev l.
Proof.
  intros (e & He & Hin)%list_elem_of_bind. destruct e as [| |ev' ok| |]; try by apply not_elem_of_nil in He.
  destruct ok; [by apply not_elem_of_nil in He|].
  destruct (ae_Action ev') eqn:Ea; try by apply not_elem_of_nil in He.
  destruct (String.eqb_spec (ae_PolicyDecision ev') "allow"); [by apply not_elem_of_nil in He|].
  apply list_elem_of_singleton in He as ->. done.
Qed.

(** An audit sink that loses the denial halts the plan. *)
Lemma every_denial_is_audited_or_halts_witness :
  match demo_dispatch (Demo.orch true false false) with
  | Some ((res, err), _) => length (pr_Outcomes res) = 3%nat /\ exists e, err = Some (OErrDenyAudit e)
  | None => False
  end.
Proof.
  assert (C : match demo_dispatch (Demo.orch true false false) with
              | Some (_, w') => (length (lost_denials (w_log w')) =? 1)%nat
              | None => false end = true) by (vm_compute; reflexivity).
  destruct (demo_dispatch (Demo.orch true false false)) as [[[res err] w']|] eqn:E; [|discriminate].
  destruct (every_denial_is_audited_or_halts _ _ _ _ _ _ _ _ _ _ _ E) as (new & Hl & Hlen & _ & Hlost).
  split; [exact Hlen|]. simpl in Hl. rewrite Hl in C.
  destruct (lost_denials new) as [|ev evs] eqn:El; [discriminate|].
  apply (Hlost ev), lost_denials_spec. rewrite El. apply list_elem_of_here.
Defined.
