(* ===== verification/Orchestrator.v ===== *)
(** * Goal-level operations of the orchestrator

    [internal/orchestrator/orchestrator.go]: intake, planning, the approval
    pause and its resumption, cancellation; [runstore.go]: persistence and crash
    recovery of a plan; [runtocompletion.go]: the bounded goal-level re-plan loop.
    An operation that dispatches takes the schedule of its goroutines and is
    [None] when the schedule does not reach the join.

    The theorems: a plan runs only when the policy allowed it without a pause or
    an operator approved it; an approval is good for one dispatch, except through
    [ResumeWithFold]; a resumed plan never repeats completed work. *)

From stdpp Require Import base gmap strings list relations.
From Stdlib Require Import ZArith Lia Ascii.
From S2P Require Import Prelude GoStrings Texts Paths Seams TaskSource Policy AuditTrail Containment Planner RunStore Loop Fleet Dispatch Stores DispatchProofs DispatchGate.

Local Open Scope Z_scope.

(** [Approval], with the roles of its verified envelope. *)
Record Approval := mkApproval {
  ap_From : string;
  ap_To : string;
  ap_GoalID : string;
  ap_Approved : bool
}.

Definition approvalFromRole : string := "operator".
Definition approvalToRole : string := "orchestrator".

Definition role_ok (a : Approval) : bool :=
  String.eqb (ap_From a) approvalFromRole && String.eqb (ap_To a) approvalToRole.

(** [FoldGoalText]. *)
Definition FoldGoalText (original : string) (info : list string) : string :=
  match info with
  | [] => original
  | _ => original +:+ lf +:+ lf +:+ "Additional information:" +:+
         Join "" (map (fun line => lf +:+ "- " +:+ line) info)
  end.

Definition empty_result : PlanResult := mkPlanResult "" [].
Definition goal_only (g : string) : PlanResult := mkPlanResult g [].

(** [PlanResult.HasTerminalFailure]. *)
Definition HasTerminalFailure (r : PlanResult) : bool :=
  existsb (fun oc => negb (so_Success oc)) (pr_Outcomes r).

(** [PlanResult.FailureDetails]. *)
Definition FailureDetails (r : PlanResult) : list string :=
  pr_Outcomes r ≫= (fun oc =>
    if so_Success oc then []
    else [if String.eqb (so_Detail oc) "" then "sub-goal failed" else so_Detail oc]).

(** [GoalKind], [GoalComplexity] and [GoalAnalysis]; the strings of the two enumerations
    are those of [kind_string] and [complexity_string] in [Analysis]. *)
Inductive GoalKind := KindCoding | KindAnswer.
Inductive GoalComplexity := ComplexitySimple | ComplexityComplex.
Record GoalAnalysis := mkAnalysis {
  ga_Kind : GoalKind;
  ga_Complexity : GoalComplexity;
  ga_CapabilityTier : Z;
  ga_Rationale : string
}.

(** [Clarification]. *)
Record Clarification := mkClarification { cl_Ready : bool; cl_Questions : list string }.

(** [conversation]: its turns, each of the user ([true]) or of the assistant. *)
Record conversation := mkConversation { cv_turns : list (bool * string); cv_tier : Z }.
Notation Conversations := (gmap string conversation).

(** [composeTranscript]. *)
Definition composeTranscript (c : conversation) : string :=
  Join "" (map (fun t : bool * string => (if t.1 then "User" else "Assistant") +:+ ": " +:+ t.2 +:+ lf) (cv_turns c)) +:+
  "Assistant:".

(** [startConversation]. *)
Definition startConversation (goalID question answer : string) (tier : Z) (cs : Conversations) : Conversations :=
  <[goalID := mkConversation [(true, question); (false, answer)] tier]> cs.

Definition add_turn (t : bool * string) (c : conversation) : conversation :=
  mkConversation (cv_turns c ++ [t]) (cv_tier c).

Section Goals.
Context {X PS RS : Type} `{RunStoreLike RS} `{PlanStoreLike PS}.
Variables (uni : string -> string) (url_Parse : string -> option (string * string))
          (quote : string -> string) (o : @Orch X).
Local Notation World := (@World X PS RS).
Local Notation dispatchPlan := (dispatchPlan uni url_Parse quote o).
Local Notation dispatchSubGoals := (dispatchSubGoals uni url_Parse quote o).

(** A result of an operation that may dispatch. *)
Definition Res : Type := option ((PlanResult * option OrchErr) * World).

(** ** The run journal of a plan *)

(** [persistPlanRecord]. *)
Definition persistPlanRecord (plan : Plan) (w : World) : World :=
  match w_runs w with
  | None => w
  | Some rs =>
    match o_marshal o plan with
    | Err err => (report o ("run-journal: marshal plan " +:+ quote (pl_GoalID plan) +:+ ": " +:+ err) w).2
    | Ok planJSON =>
      let attempt := match rs_Load (pl_GoalID plan) rs with Ok (Some prev) => rr_Attempt prev | _ => 0 end in
      let '(e, w) := save o rs
        (mkRecord (pl_GoalID plan) (pl_Goal plan) planJSON [] [] StatusRunning 0 0 false attempt) w in
      match e with
      | None => w
      | Some err => (report o ("run-journal: persist plan " +:+ quote (pl_GoalID plan) +:+ ": " +:+ err) w).2
      end
    end
  end.

(** ** Planning and the approval pause *)

(** [pauseForApproval]. *)
Definition pauseForApproval (plan : Plan) (w : World) : (PlanResult * option OrchErr) * World :=
  let '(e, w) :=
    match ps_TamperAware with
    | Some (tryPut, _) => let '(e, ps) := tryPut plan (w_plans w) in (e, set_plans ps w)
    | None => (None, set_plans (ps_Put plan (w_plans w)) w)
    end in
  match e with
  | Some err =>
    ((empty_result, Some (OErrWriteGate (pl_GoalID plan) err)), set_state o (pl_GoalID plan) StateFailed w)
  | None =>
    let w := set_state o (pl_GoalID plan) StateAwaitingApproval w in
    let info := PendingInfo (pl_GoalID plan) (w_reg w) in
    let '(e, w) := report o (renderApprovalRequestWithInfo plan info) w in
    match e with
    | Some err => ((empty_result, Some (OErrReport err)), w)
    | None => ((goal_only (pl_Goal plan), None), w)
    end
  end.

(** [ConfirmAndPlan]. *)
Definition ConfirmAndPlan (sched : list Turn) (goal : Task) (w : World) : Res :=
  let w := set_state o (task_ID goal) StatePlanning w in
  let '(planned, w) := plan_goal o goal w in
  let fail e w := Some ((empty_result, Some e), set_state o (task_ID goal) StateFailed w) in
  match planned with
  | Err e => fail (OErrPlan (task_ID goal) e) w
  | Ok plan =>
    match pl_SubGoals plan with
    | [] => fail (OErrEmptyPlan (task_ID goal)) w
    | _ =>
      let '(e, w) := match o_scoper o with
                     | None => (None, w)
                     | Some configure => let '(e, x) := configure plan (w_ext w) in (e, set_ext x w)
                     end in
      match e with
      | Some err => fail (OErrConfigure (pl_GoalID plan) err) w
      | None =>
        let '(decision, w) := decideSpawn o plan w in
        let w := emitFleetEvent o
          (mkAuditEvent ActionPlanDecided (pl_GoalID plan) (pl_GoalID plan) (PolicyDecision_string decision) "" false) w in
        match decision with
        | PolicyAllow =>
          let w := persistPlanRecord plan w in
          if o_requireApproval o then Some (pauseForApproval plan w)
          else dispatchPlan sched plan w
        | PolicyRequireApproval => Some (pauseForApproval plan w)
        | PolicyDeny =>
          let w := set_state o (pl_GoalID plan) StateFailed w in
          let '(e, w) := report o ("Plan denied for goal: " +:+ pl_Goal plan) w in
          match e with
          | Some err => Some ((empty_result, Some (OErrReport err)), w)
          | None => Some ((goal_only (pl_Goal plan), None), w)
          end
        end
      end
    end
  end.

Definition intake (goal : Task) (w : World) : World :=
  emitFleetEvent o (mkAuditEvent ActionGoalIntake (task_ID goal) (task_ID goal) "" "" false) w.

(** [Handle]. *)
Definition Handle (sched : list Turn) (goal : Task) (w : World) : Res :=
  ConfirmAndPlan sched goal (intake goal w).

(** ** Resumption *)

(** The consumption of a pending plan, shared by [Resume], [ResumeWithFold]
    and [ConsumePlanOnCancel]. *)
Definition consume (goalID : string) (w : World) : option OrchErr * World :=
  match ps_TamperAware with
  | Some (_, tryDelete) =>
    let '(e, ps) := tryDelete goalID (w_plans w) in
    let w := set_plans ps w in
    match e with
    | Some err => (Some (OErrTamper goalID err), emitTamperEvent o goalID w)
    | None => (None, w)
    end
  | None => (None, set_plans (ps_Delete goalID (w_plans w)) w)
  end.

Definition reject (plan : Plan) (w : World) : Res :=
  let '(e, w) := report o ("Plan rejected for goal: " +:+ pl_Goal plan) w in
  match e with
  | Some err => Some ((empty_result, Some (OErrReport err)), w)
  | None => Some ((goal_only (pl_Goal plan), None), w)
  end.

Definition get_plan (goalID : string) (w : World) : option Plan * World :=
  let '(p, ps) := ps_Get goalID (w_plans w) in (p, set_plans ps w).

(** [Resume]. *)
Definition Resume (sched : list Turn) (a : Approval) (w : World) : Res :=
  if negb (role_ok a) then Some ((empty_result, Some (OErrRole (ap_From a) (ap_To a))), w)
  else let '(held, w) := get_plan (ap_GoalID a) w in
  match held with
  | None => Some ((empty_result, Some (OErrNoPlan (ap_GoalID a))), w)
  | Some plan =>
    let '(e, w) := consume (ap_GoalID a) w in
    match e with
    | Some err => Some ((empty_result, Some err), w)
    | None => if negb (ap_Approved a) then reject plan w else dispatchPlan sched plan w
    end
  end.

Definition drain (goalID : string) (w : World) : list string * World :=
  let '(t, w) := now o w in
  let '(info, reg) := DrainInfo t goalID (w_reg w) in (info, set_reg (fun _ => reg) w).

(** [ResumeWithFold]. *)
Definition ResumeWithFold (sched : list Turn) (a : Approval) (goal : Task) (w : World) : Res :=
  if negb (role_ok a) then Some ((empty_result, Some (OErrRole (ap_From a) (ap_To a))), w)
  else let '(held, w) := get_plan (ap_GoalID a) w in
  match held with
  | None => Some ((empty_result, Some (OErrNoPlan (ap_GoalID a))), w)
  | Some stored =>
    let '(e, w) := consume (ap_GoalID a) w in
    match e with
    | Some err => Some ((empty_result, Some err), w)
    | None =>
      let '(info, w) := drain (ap_GoalID a) w in
      if negb (ap_Approved a) then reject stored w
      else
        let augmented := mkTask (task_ID goal) (task_Repo goal) (FoldGoalText (task_Spec goal) info)
                           (task_PriorFailure goal) in
        let w := set_state o (ap_GoalID a) StatePlanning w in
        let '(planned, w) := plan_goal o augmented w in
        let fail e w := Some ((empty_result, Some e), set_state o (ap_GoalID a) StateFailed w) in
        match planned with
        | Err e => fail (OErrPlan (ap_GoalID a) e) w
        | Ok plan =>
          match pl_SubGoals plan with
          | [] => fail (OErrEmptyPlan (ap_GoalID a)) w
          | _ => dispatchPlan sched plan (set_plans (ps_Put plan (w_plans w)) w)
          end
        end
    end
  end.

(** [SolicitApproval]. *)
Definition SolicitApproval (goalID : string) (w : World) : option OrchErr * World :=
  let '(held, w) := get_plan goalID w in
  match held with
  | None => (Some (OErrNoPlan goalID), w)
  | Some plan =>
    let '(e, w) := report o (renderApprovalRequestWithInfo plan (PendingInfo goalID (w_reg w))) w in
    (OErrReport <$> e, w)
  end.

(** [HasPendingPlan]. *)
Definition HasPendingPlan (goalID : string) (w : World) : bool * World :=
  let '(held, w) := get_plan goalID w in
  (match held with Some _ => true | None => false end, w).

(** [ConsumePlanOnCancel]: whether a plan was held, and the tamper error. *)
Definition ConsumePlanOnCancel (goalID : string) (w : World) : (bool * option OrchErr) * World :=
  let '(held, w) := get_plan goalID w in
  match held with
  | None => ((false, None), w)
  | Some _ => let '(e, w) := consume goalID w in ((true, e), w)
  end.

(** ** Intake and conversations *)

Section Intake.
(** [GoalAnalyzer], [Answerer] and [Clarifier], and the value of
    [AGENT_BUILDER_INTAKE]. *)
Variables (analyze : option (Task -> X -> result string GoalAnalysis * X))
          (answer : option (string -> Z -> X -> result string string * X))
          (clarify : Task -> X -> result string Clarification * X)
          (intakeMode : string).

Fixpoint report_all (msgs : list string) (w : World) : option OrchErr * World :=
  match msgs with
  | [] => (None, w)
  | q :: msgs =>
    let '(e, w) := report o q w in
    match e with Some err => (Some (OErrReport err), w) | None => report_all msgs w end
  end.

(** [ClarifyAndReport]. *)
Definition ClarifyAndReport (goal : Task) (w : World) : option OrchErr * World :=
  let '(r, x) := clarify goal (w_ext w) in
  let w := set_ext x w in
  match r with
  | Err e => (Some (OErrClarify (task_ID goal) e), set_state o (task_ID goal) StateFailed w)
  | Ok res =>
    if cl_Ready res then
      report_all ["Goal " +:+ quote (task_ID goal) +:+ " is clear — reply 'confirm " +:+ task_ID goal +:+
                  "' when ready."] w
    else report_all (cl_Questions res) w
  end.

Definition answer_event (goalID : string) : AuditEvent :=
  mkAuditEvent ActionCompletion goalID goalID "" "answer" false.

(** [answerGoal]. *)
Definition answerGoal (goal : Task) (analysis : GoalAnalysis) (cs : Conversations) (w : World)
  : option OrchErr * (Conversations * World) :=
  match answer with
  | None =>
    let '(e, w) := report_all ["Cannot answer: no answerer configured for the general (non-coding) path."]
                     (set_state o (task_ID goal) StateFailed w) in (e, (cs, w))
  | Some ask =>
    let '(r, x) := ask (task_Spec goal) (ga_CapabilityTier analysis) (w_ext w) in
    let w := set_ext x w in
    match r with
    | Err e =>
      let '(e, w) := report_all ["Could not answer goal " +:+ quote (task_ID goal) +:+ ": " +:+ e]
                       (set_state o (task_ID goal) StateFailed w) in (e, (cs, w))
    | Ok text =>
      let w := emitFleetEvent o (answer_event (task_ID goal)) w in
      let cs := startConversation (task_ID goal) (task_Spec goal) text (ga_CapabilityTier analysis) cs in
      let '(e, w) := report_all [text] (set_state o (task_ID goal) StateConversing w) in (e, (cs, w))
    end
  end.

(** [ContinueAnswer]: the user's turn stays in the history when the answer
    fails. *)
Definition ContinueAnswer (goalID text : string) (cs : Conversations) (w : World)
  : option OrchErr * (Conversations * World) :=
  match cs !! goalID with
  | None => (Some (OErrNoConversation goalID), (cs, w))
  | Some conv =>
    match answer with
    | None => (Some (OErrNoAnswerer goalID), (cs, w))
    | Some ask =>
      let conv := add_turn (true, text) conv in
      let '(r, x) := ask (composeTranscript conv) (cv_tier conv) (w_ext w) in
      let w := set_ext x w in
      match r with
      | Err e =>
        let '(e, w) := report_all ["Could not answer follow-up for goal " +:+ quote goalID +:+ ": " +:+ e] w in
        (e, (<[goalID := conv]> cs, w))
      | Ok reply =>
        let w := emitFleetEvent o (answer_event goalID) w in
        let '(e, w) := report_all [reply] w in
        (e, (<[goalID := add_turn (false, reply) conv]> cs, w))
      end
    end
  end.

(** [EndConversation]. *)
Definition EndConversation (goalID : string) (cs : Conversations) (w : World) : Conversations * World :=
  (delete goalID cs, set_state o goalID StateDone w).

(** [IsConversing]. *)
Definition IsConversing (goalID : string) (w : World) : bool :=
  match GetStatus goalID (w_reg w) with
  | Some g => bool_decide (gs_State g = StateConversing)
  | None => false
  end.

(** [BeginGoal]. *)
Definition BeginGoal (sched : list Turn) (goal : Task) (cs : Conversations) (w : World)
  : option (option OrchErr * (Conversations * World)) :=
  let w := intake goal w in
  let code w :=
    if String.eqb (TrimSpace intakeMode) "auto" then
      match ConfirmAndPlan sched goal w with
      | None => None
      | Some ((_, e), w) => Some (e, (cs, w))
      end
    else
      let '(e, w) := ClarifyAndReport goal (set_state o (task_ID goal) StateClarifying w) in
      Some (e, (cs, w)) in
  match analyze with
  | None => code w
  | Some f =>
    let '(r, x) := f goal (w_ext w) in
    let w := set_ext x w in
    match r with
    | Err e =>
      Some (Some (OErrAnalyze (task_ID goal) e), (cs, set_state o (task_ID goal) StateFailed w))
    | Ok analysis =>
      match ga_Kind analysis with
      | KindAnswer => Some (answerGoal goal analysis cs w)
      | KindCoding => code w
      end
    end
  end.
End Intake.

(** ** Crash recovery *)

(** [RehydrateInFlight]. *)
Definition RehydrateInFlight (rs : RS) : result string (list RunRecord) := rs_ListInFlight rs.

(** The sub-goals of [plan] with no completed attempt in [r]. *)
Definition remaining_subs (plan : Plan) (r : RunRecord) : list SubGoal :=
  List.filter (fun s => negb (completed_in (rr_Attempts r) (task_ID (sg_Task s)))) (pl_SubGoals plan).

(** [ResumeFromRecord]. *)
Definition ResumeFromRecord (sched : list Turn) (r : RunRecord) (w : World) : Res :=
  match o_unmarshal o (rr_Plan r) with
  | None => Some ((empty_result, Some (OErrUnmarshal (rr_GoalID r))), w)
  | Some plan =>
    match remaining_subs plan r with
    | [] => Some ((goal_only (pl_Goal plan), None), finalizeGoalStatus o plan w)
    | remaining => dispatchSubGoals sched plan remaining w
    end
  end.

(** [dispatchOne] on its own goroutine, under a schedule. *)
Definition dispatchOne (sched : list Turn) (plan : Plan) (sub : SubGoal) (w : World)
  : option ((SubGoalOutcome * option string) * World) :=
  match run_schedule uni url_Parse quote o plan sched ([(sub, PcStart)], w) with
  | Some ([(_, PcDone oc e)], w) => Some ((oc, e), w)
  | _ => None
  end.

(** The final status [finalizeAfterApproval] computes from the attempts. *)
Definition status_after_approval (attempts : list AttemptState) : RunStatus :=
  let unresolved a := bool_decide (at_Status a = StatusNeedsHuman) || bool_decide (at_Status a = StatusFailed) in
  if existsb unresolved attempts then StatusFailed
  else if (0 <? length attempts)%nat && forallb (fun a => bool_decide (at_Status a = StatusCompleted)) attempts
  then StatusCompleted
  else StatusRunning.

Definition RunStatus_String (s : RunStatus) : string :=
  match s with
  | StatusPending => "pending"
  | StatusRunning => "running"
  | StatusAwaitingApproval => "awaiting_approval"
  | StatusCompleted => "completed"
  | StatusFailed => "failed"
  | StatusNeedsHuman => "needs-human"
  | StatusOther s => s
  end.

(** [finalizeAfterApproval]. *)
Definition finalizeAfterApproval (goalID : string) (w : World) : World :=
  match w_runs w with
  | None => w
  | Some rs =>
    match rs_Load goalID rs with
    | Ok (Some r) =>
      match rr_Pending r with
      | _ :: _ => (save o rs (set_status r StatusAwaitingApproval) w).2
      | [] =>
        let final := status_after_approval (rr_Attempts r) in
        let w := (save o rs (set_status r final) w).2 in
        if isTerminal final then
          (report o ("Goal " +:+ quote goalID +:+ " resolved after approval: " +:+ RunStatus_String final) w).2
        else w
      end
    | _ => w
    end
  end.

(** [ResumeApproval]. *)
Definition ResumeApproval (sched : list Turn) (goalID taskID : string) (approved : bool) (w : World)
  : option (option OrchErr * World) :=
  match w_runs w with
  | None => Some (Some OErrNoRunStore, w)
  | Some rs =>
    match rs_Load goalID rs with
    | Err e => Some (Some (OErrLoad goalID e), w)
    | Ok None => Some (Some (OErrNoRecord goalID), w)
    | Ok (Some r) =>
      if negb (existsb (fun p => String.eqb (pa_TaskID p) taskID) (rr_Pending r)) then
        Some (Some (OErrNoPending goalID taskID), w)
      else
        let r := set_pending r (List.filter (fun p => negb (String.eqb (pa_TaskID p) taskID)) (rr_Pending r)) in
        let r := if approved then set_status r StatusRunning else r in
        let w := (save o rs r w).2 in
        if approved then
          match o_unmarshal o (rr_Plan r) with
          | None => Some (Some (OErrUnmarshal goalID), w)
          | Some plan =>
            match List.find (fun s => String.eqb (task_ID (sg_Task s)) taskID) (pl_SubGoals plan) with
            | None => Some (Some (OErrNotInPlan goalID taskID), w)
            | Some target =>
              match dispatchOne sched plan target w with
              | None => None
              | Some ((_, Some e), w) => Some (Some (OErrDenyAudit e), w)
              | Some ((_, None), w) => Some (None, finalizeAfterApproval goalID w)
              end
            end
          end
        else
          let w := recordAttempt o goalID taskID StatusNeedsHuman "denied by operator" w in
          Some (None, finalizeAfterApproval goalID w)
    end
  end.

(** ** The approval-timeout sweep *)

Section Sweep.
(** [Duration.String] of a duration rounded to the second. *)
Variable show_duration : Z -> string.

(** [time.Time.Sub], which saturates. *)
Definition time_Sub (t u : Z) : Z := Z.max int64_min (Z.min int64_max (t - u)).

Definition overdue (at_ timeout : Z) (p : PendingApproval) : bool :=
  negb (pa_Escalated p) && (timeout <? time_Sub at_ (pa_RequestedAt p)).

(** The loop over the pending approvals of one record; whether any was
    escalated. *)
Fixpoint sweep_pending (at_ timeout : Z) (goalID : string) (ps : list PendingApproval) (w : World)
  : (list PendingApproval * bool) * World :=
  match ps with
  | [] => (([], false), w)
  | p :: ps =>
    let '(p, hit, w) :=
      if overdue at_ timeout p then
        let w := (report o ("Approval timeout: goal " +:+ quote goalID +:+ " task " +:+ quote (pa_TaskID p) +:+
                    " has awaited approval for " +:+ show_duration (time_Sub at_ (pa_RequestedAt p)) +:+
                    ", escalating to human") w).2 in
        (mkPending (pa_TaskID p) (pa_Reason p) (pa_RequestedAt p) true, true, w)
      else (p, false, w) in
    let '((ps, changed), w) := sweep_pending at_ timeout goalID ps w in
    ((p :: ps, hit || changed), w)
  end.

(** One record of the sweep's snapshot. *)
Definition sweep_record (at_ timeout : Z) (r : RunRecord) (w : World) : World :=
  let '((ps, changed), w) := sweep_pending at_ timeout (rr_GoalID r) (rr_Pending r) w in
  match w_runs w with
  | Some rs => if changed then (save o rs (set_pending r ps) w).2 else w
  | None => w
  end.

(** [SweepApprovalTimeouts]. *)
Definition SweepApprovalTimeouts (at_ timeout : Z) (w : World) : World :=
  match w_runs w with
  | None => w
  | Some rs =>
    match rs_ListInFlight rs with
    | Err _ => w
    | Ok records => foldl (fun w r => sweep_record at_ timeout r w) w records
    end
  end.
End Sweep.

(** ** The re-plan loop *)

(** [loadAttemptCount]. *)
Definition loadAttemptCount (goalID : string) (w : World) : Z :=
  match w_runs w with
  | None => 0
  | Some rs => match rs_Load goalID rs with Ok (Some r) => rr_Attempt r | _ => 0 end
  end.

(** [saveAttemptCount]. *)
Definition saveAttemptCount (goalID : string) (attempt : Z) (w : World) : World :=
  match w_runs w with
  | None => w
  | Some rs =>
    let r := match rs_Load goalID rs with
             | Ok (Some r) => r
             | _ => minimal_record goalID StatusRunning
             end in
    (save o rs (set_attempt r attempt) w).2
  end.

(** [escalateExhausted]. *)
Definition escalateExhausted (goalID : string) (attempt : Z) (w : World) : World :=
  (report o ("Goal " +:+ quote goalID +:+ " exhausted after " +:+ FormatInt attempt +:+
             " attempts, escalating to human") w).2.

Definition with_spec (goal : Task) (spec : string) : Task :=
  mkTask (task_ID goal) (task_Repo goal) spec (task_PriorFailure goal).

(** The loop of [RunToCompletion]: [todo] attempts are left. *)
Fixpoint completion_loop (todo : nat) (scheds : Z -> list Turn) (goal current : Task) (attempt : Z)
  (last : PlanResult) (w : World) : Res :=
  match todo with
  | O =>
    Some ((last, Some (OErrAttemptsExhausted (task_ID goal) attempt)), escalateExhausted (task_ID goal) attempt w)
  | S todo =>
    let attempt := attempt + 1 in
    let w := saveAttemptCount (task_ID goal) attempt w in
    match Handle (scheds attempt) current w with
    | None => None
    | Some ((result, Some e), w) => Some ((result, Some e), w)
    | Some ((result, None), w) =>
      if negb (HasTerminalFailure result) then Some ((result, None), w)
      else completion_loop todo scheds goal
             (with_spec current (FoldGoalText (task_Spec goal) (FailureDetails result))) attempt result w
    end
  end.

(** [RunToCompletion]. *)
Definition RunToCompletion (scheds : Z -> list Turn) (goal : Task) (maxAttempts : Z) (w : World) : Res :=
  let attempt := loadAttemptCount (task_ID goal) w in
  completion_loop (Z.to_nat (maxAttempts - attempt)) scheds goal goal attempt empty_result w.
End Goals.

(** * What the goal-level operations guarantee *)

Section Effects.
Context {X PS RS : Type} `{RunStoreLike RS} `{PlanStoreLike PS}.
Context (uni : string -> string) (url_Parse : string -> option (string * string))
        (quote : string -> string) (o : @Orch X).
Local Notation World := (@World X PS RS).
Local Notation thread_step := (thread_step uni url_Parse quote o).
Local Notation team_step := (team_step uni url_Parse quote o).
Local Notation run_schedule := (run_schedule uni url_Parse quote o).
Local Notation dispatchSubGoals := (dispatchSubGoals uni url_Parse quote o).

(** ** The log *)

(** The log grows, and by no worker. *)
Definition quiet (w w' : World) : Prop := exists evs, w_log w' = w_log w ++ evs /\ calm evs.

#[export] Instance quiet_preorder : PreOrder quiet.
Proof.
  split.
  - intros w. exists []. split; [by rewrite app_nil_r | constructor].
  - intros w1 w2 w3 (e1 & L1 & N1) (e2 & L2 & N2). exists (e1 ++ e2).
    rewrite L2, L1, app_assoc. split; [done|]. by apply Forall_app.
Qed.

Lemma frame_quiet w w' : frame w w' -> quiet w w'.
Proof. by intros (_ & _ & _ & _ & ?). Qed.
Lemma quiet_set_plans p w : quiet w (set_plans p w).
Proof. exists []. split; [by rewrite app_nil_r | constructor]. Qed.
Lemma quiet_set_reg f w : quiet w (set_reg f w).
Proof. exists []. split; [by rewrite app_nil_r | constructor]. Qed.

(** Only calm events before a dispatch: its workers are the new ones. *)
Lemma quiet_dispatch (w w1 w2 : World) (P : list SubGoal -> Prop) :
  quiet w w1 -> (exists new, w_log w2 = w_log w1 ++ new /\ P (dispatched new)) ->
  exists new, w_log w2 = w_log w ++ new /\ P (dispatched new).
Proof.
  intros (evs & E & Hc) (new & E2 & HP). exists (evs ++ new). rewrite E2, E, app_assoc. split; [done|].
  by rewrite dispatched_app, (calm_dispatched evs Hc).
Qed.

Lemma dispatch_subs sched plan subs (w : World) r w' :
  dispatchSubGoals sched plan subs w = Some (r, w') ->
  exists new, w_log w' = w_log w ++ new /\ dispatched new ⊆+ subs.
Proof.
  intros (pcs & w1 & results & new & evs & Hj & _ & Hinv & El & Hc)%dispatch_inv.
  exists (new ++ evs). split; [done|].
  rewrite dispatched_app, (calm_dispatched evs Hc), app_nil_r.
  etrans; [|exact (ti_once _ _ _ _ _ _ _ _ _ Hinv)]. by apply submseteq_inserts_r.
Qed.

(** ** The plan store is no business of dispatch *)

Lemma thread_step_plans plan sub c pc (w : World) pc' w' :
  thread_step plan sub c pc w = Some (pc', w') -> w_plans w' = w_plans w.
Proof.
  assert (F : forall w1 : World, frame w w1 -> w_plans w1 = w_plans w) by (by intros w1 (_ & _ & _ & ? & _)).
  destruct pc; simpl; intros E.
  - destruct (SelectRecipe _ _ _); by simplify_eq.
  - pose proof (decideWorker_frame uni url_Parse quote o plan sub w) as Fr.
    destruct (decideSpawnWorker _ _ _ _ _ _ _) as [[d r] w1]. simplify_eq. by apply F.
  - unfold emitFleetEventForDeny in E. destruct (o_auditSink o) as [a|].
    + destruct (a _ _) as [[e|] x]; repeat (case_match; simplify_eq/=); by simplify_eq.
    + destruct (is_allow d); by simplify_eq/=.
  - match type of E with context [report o ?m w] =>
      pose proof (frame_report o m w) as Fr; destruct (report o m w) as [e w1] end.
    simplify_eq. by apply F.
  - simplify_eq. apply F, frame_set_sub_goal.
  - simplify_eq. apply F, frame_recordAttempt.
  - repeat (case_match; simplify_eq/=); done.
  - repeat (case_match; simplify_eq/=); done.
  - destruct (o_dispatch o _ _ _) as [[hs e] x]. by simplify_eq.
  - destruct hooks as [|[t r] hs]; simplify_eq; [done | apply F, frame_recordPending].
  - repeat (case_match; simplify_eq/=); done.
  - destruct paused; [|destruct requested; [|destruct err]]; injection E as <- <-; (reflexivity || (apply F; apply frame_set_sub_goal)).
  - simplify_eq. apply F, frame_recordAttempt.
  - done.
Qed.

Lemma run_plans plan sched (st st' : @Team X PS RS) :
  run_schedule plan sched st = Some st' -> w_plans st'.2 = w_plans st.2.
Proof.
  revert st. induction sched as [|t sched IH]; intros st; simpl; [by intros [= <-]|].
  destruct (team_step plan t st) as [st1|] eqn:E; [|done].
  intros R. rewrite (IH _ R). clear IH R. destruct st as [pcs w], t as [i c| | |]; simpl in E.
  - destruct (pcs !! i) as [[sub pc]|]; [|done].
    destruct (thread_step plan sub c pc w) as [[pc' w1]|] eqn:Et; simplify_eq. by eapply thread_step_plans.
  - repeat (case_match; simplify_eq/=); done.
  - repeat (case_match; simplify_eq/=); done.
  - by simplify_eq.
Qed.

Lemma dispatch_plans sched plan subs (w : World) r w' :
  dispatchSubGoals sched plan subs w = Some (r, w') -> w_plans w' = w_plans w.
Proof.
  unfold Dispatch.dispatchSubGoals. intros E.
  destruct (run_schedule plan sched _) as [[pcs w1]|] eqn:Er; [|done].
  destruct (join pcs) as [results|]; [|done]. injection E as E.
  apply run_plans in Er. simpl in Er.
  pose proof (frame_after_join o plan results w1) as (_ & _ & _ & Ep & _). rewrite E in Ep. simpl in Ep.
  pose proof (frame_set_state o (pl_GoalID plan) StateDispatching w) as (_ & _ & _ & Es & _).
  congruence.
Qed.
End Effects.

(** ** Planning and approval *)

Section Approvals.
Context {X PS RS : Type} `{RunStoreLike RS} `{PlanStoreLike PS}.
Context (uni : string -> string) (url_Parse : string -> option (string * string))
        (quote : string -> string) (o : @Orch X).
Local Notation World := (@World X PS RS).

Lemma quiet_report m (w : World) : quiet w (report o m w).2.
Proof. apply frame_quiet, frame_report. Qed.
Lemma quiet_set_state g s (w : World) : quiet w (set_state o g s w).
Proof. apply frame_quiet, frame_set_state. Qed.

Lemma quiet_pause plan (w : World) : quiet w (pauseForApproval o plan w).2.
Proof.
  unfold pauseForApproval.
  assert (Hput : quiet w (match ps_TamperAware with
    | Some (tryPut, _) => let '(e, ps) := tryPut plan (w_plans w) in (e, set_plans ps w)
    | None => (None, set_plans (ps_Put plan (w_plans w)) w) end).2).
  { destruct ps_TamperAware as [[tp td]|]; [destruct (tp plan (w_plans w))|]; apply quiet_set_plans. }
  destruct (match ps_TamperAware with None => _ | Some _ => _ end) as [e w1]. simpl in Hput.
  destruct e as [e|]; [etrans; [exact Hput | apply quiet_set_state]|].
  set (w2 := set_state o _ _ w1). pose proof (quiet_report
    (renderApprovalRequestWithInfo plan (PendingInfo (pl_GoalID plan) (w_reg w2))) w2) as Hr.
  destruct (report o _ w2) as [[err|] w3]; simpl in *;
    (etrans; [exact Hput|]); (etrans; [apply quiet_set_state | exact Hr]).
Qed.

Lemma quiet_persist plan (w : World) : quiet w (persistPlanRecord quote o plan w).
Proof.
  unfold persistPlanRecord. destruct (w_runs w) as [rs|]; [|done].
  destruct (o_marshal o plan) as [j|e]; [|apply quiet_report].
  set (r := mkRecord _ _ _ _ _ _ _ _ _ _). pose proof (frame_quiet _ _ (frame_save o rs r w)) as Hs.
  destruct (save o rs r w) as [[err|] w1]; simpl in *; [|done]. etrans; [exact Hs | apply quiet_report].
Qed.

Lemma quiet_consume g (w : World) : quiet w (consume o g w).2.
Proof.
  unfold consume. destruct ps_TamperAware as [[tp td]|]; [|apply quiet_set_plans].
  destruct (td g (w_plans w)) as [[e|] ps]; [|apply quiet_set_plans].
  etrans; [apply quiet_set_plans|]. by apply frame_quiet, frame_emit.
Qed.

Lemma set_same_plans (w : World) : set_plans (w_plans w) w = w.
Proof. by destruct w. Qed.

Lemma quiet_get_plan g (w : World) : quiet w (get_plan g w).2.
Proof. unfold get_plan. destruct (ps_Get g _) as [p ps]. apply quiet_set_plans. Qed.

Lemma quiet_consumed g (w w0 w1 : World) p e :
  get_plan g w = (p, w0) -> consume o g w0 = (e, w1) -> quiet w w1.
Proof.
  intros Eg Ec. pose proof (quiet_get_plan g w) as Q0. rewrite Eg in Q0.
  pose proof (quiet_consume g w0) as Q1. rewrite Ec in Q1. by etrans.
Qed.

Lemma quiet_no_dispatch (w w' : World) :
  quiet w w' -> exists new, w_log w' = w_log w ++ new /\ dispatched new = [].
Proof. intros (evs & E & Hc). exists evs. split; [done | by apply calm_dispatched]. Qed.

(** What a run of [ConfirmAndPlan] shows when a worker started. *)
Definition plan_allowed (new : list Event) : Prop :=
  dispatched new = [] \/
  o_requireApproval o = false /\ exists plan,
    EvDecide (request o SpawnAction "plan" (pl_GoalID plan) "" "") PolicyAllow ∈ new /\
    dispatched new ⊆+ pl_SubGoals plan.

Lemma confirm_log sched goal (w : World) r w' :
  ConfirmAndPlan uni url_Parse quote o sched goal w = Some (r, w') ->
  exists new, w_log w' = w_log w ++ new /\ plan_allowed new.
Proof.
  assert (Hquiet : forall w1 : World, quiet w w1 -> exists new, w_log w1 = w_log w ++ new /\ plan_allowed new).
  { intros w1 (new & El & Hn)%quiet_no_dispatch. exists new. split; [done | by left]. }
  unfold ConfirmAndPlan. set (w0 := set_state o (task_ID goal) StatePlanning w).
  pose proof (frame_plan_goal o goal w0) as F1. destruct (plan_goal o goal w0) as [planned w1]. simpl in F1.
  assert (Q1 : quiet w w1) by (etrans; [apply quiet_set_state | by apply frame_quiet]).
  destruct planned as [plan|e].
  2: { intros [= <- <-]. apply Hquiet. etrans; [exact Q1 | apply quiet_set_state]. }
  destruct (pl_SubGoals plan) as [|s0 ss] eqn:Esubs.
  { intros [= <- <-]. apply Hquiet. etrans; [exact Q1 | apply quiet_set_state]. }
  assert (Q2 : quiet w1 (match o_scoper o with
    | None => (None, w1)
    | Some configure => let '(e, x) := configure plan (w_ext w1) in (e, set_ext x w1) end).2).
  { destruct (o_scoper o) as [c|]; [|done]. destruct (c plan (w_ext w1)).
    apply frame_quiet, frame_set_ext. }
  destruct (match o_scoper o with None => _ | Some _ => _ end) as [[err|] w2]; simpl in Q2.
  { intros [= <- <-]. apply Hquiet. etrans; [exact Q1|]. etrans; [exact Q2 | apply quiet_set_state]. }
  assert (Q : quiet w w2) by (by etrans). clear Q1 Q2 F1.
  unfold decideSpawn, decide_policy. set (req := request o SpawnAction _ _ _ _).
  destruct (o_policy o req (w_ext w2)) as [resp x]. set (w3 := logged (EvDecide req (dp_Decision resp)) x w2).
  set (ev := mkAuditEvent _ _ _ _ _ _).
  assert (Q4 : quiet w3 (emitFleetEvent o ev w3)) by (by apply frame_quiet, frame_emit).
  set (w4 := emitFleetEvent o ev w3) in *.
  assert (Q3 : quiet w2 w3) by (by apply frame_quiet, frame_logged).
  assert (Qall : quiet w w4) by (etrans; [exact Q|]; etrans; [exact Q3 | exact Q4]).
  destruct (dp_Decision resp) eqn:Ed.
  - pose proof (quiet_persist plan w4) as Q5. set (w5 := persistPlanRecord quote o plan w4) in *.
    destruct (o_requireApproval o) eqn:Ea.
    + pose proof (quiet_pause plan w5) as Q6. destruct (pauseForApproval o plan w5) as [r1 w6].
      intros [= <- <-]. apply Hquiet. etrans; [exact Qall|]. by etrans.
    + intros (new & El & Hs)%dispatch_subs. destruct Q as (e1 & L1 & C1), Q4 as (e4 & L4 & C4), Q5 as (e5 & L5 & C5).
      exists (e1 ++ [EvDecide req PolicyAllow] ++ e4 ++ e5 ++ new).
      split; [rewrite El, L5, L4; simpl; by rewrite L1, <- !app_assoc|].
      right. split; [done|]. exists plan. split; [apply elem_of_app; right; left|].
      rewrite !dispatched_app, (calm_dispatched e1 C1), (calm_dispatched e4 C4), (calm_dispatched e5 C5). done.
  - pose proof (quiet_report ("Plan denied for goal: " +:+ pl_Goal plan) (set_state o (pl_GoalID plan) StateFailed w4)) as Q5.
    destruct (report o _ _) as [[e|] w5]; intros [= <- <-]; apply Hquiet;
      (etrans; [exact Qall|]); (etrans; [apply quiet_set_state | exact Q5]).
  - pose proof (quiet_pause plan w4) as Q6. destruct (pauseForApproval o plan w4) as [r1 w6].
    intros [= <- <-]. apply Hquiet. by etrans.
Qed.

Context `{!PlanStoreLaws PS}.

Lemma consume_gone g (w w1 : World) : consume o g w = (None, w1) -> ps_Get g (w_plans w1) = (None, w_plans w1).
Proof.
  unfold consume. destruct ps_TamperAware as [[tp td]|] eqn:Et.
  - destruct (td g (w_plans w)) as [[e|] ps] eqn:Ed; [done|]. intros [= <-]. simpl.
    by eapply ps_try_delete_get.
  - intros [= <-]. simpl. rewrite (surjective_pairing (ps_Get g _)).
    by rewrite ps_delete_get, ps_get_pure, decide_True.
Qed.

Lemma reject_result plan (w : World) r w' :
  reject o plan w = Some (r, w') -> quiet w w' /\ w_plans w' = w_plans w.
Proof.
  unfold reject. pose proof (frame_report o ("Plan rejected for goal: " +:+ pl_Goal plan) w) as F.
  destruct (report o _ w) as [[e|] w1]; intros [= _ <-]; simpl in F;
    (split; [by apply frame_quiet | by destruct F as (_ & _ & _ & ? & _)]).
Qed.

Lemma resume_shape sched a (w : World) res err w' :
  Resume uni url_Parse quote o sched a w = Some ((res, err), w') ->
  (role_ok a = false /\ w' = w) \/
  (role_ok a = true /\ get_plan (ap_GoalID a) w = (None, w') /\ err = Some (OErrNoPlan (ap_GoalID a))) \/
  (exists plan w0 w1 e, role_ok a = true /\ get_plan (ap_GoalID a) w = (Some plan, w0) /\
     consume o (ap_GoalID a) w0 = (Some e, w1) /\ err = Some e /\ w' = w1) \/
  (exists plan w0 w1, role_ok a = true /\ get_plan (ap_GoalID a) w = (Some plan, w0) /\
     consume o (ap_GoalID a) w0 = (None, w1) /\
     if ap_Approved a then dispatchPlan uni url_Parse quote o sched plan w1 = Some ((res, err), w')
     else reject o plan w1 = Some ((res, err), w')).
Proof.
  unfold Resume. destruct (role_ok a); simpl; [|intros [= _ _ <-]; by left].
  destruct (get_plan (ap_GoalID a) w) as [[plan|] w0]; [|intros [= _ <- <-]; right; by left].
  destruct (consume o (ap_GoalID a) w0) as [[e|] w1] eqn:Ec.
  - intros [= _ <- <-]. right; right; left. by exists plan, w0, w1, e.
  - intros E. right; right; right. exists plan, w0, w1. split_and!; try done. by destruct (ap_Approved a).
Qed.

(** Once a plan was consumed, no approval finds it. *)
Lemma resume_again sched a (w : World) :
  role_ok a = true -> ps_Get (ap_GoalID a) (w_plans w) = (None, w_plans w) ->
  Resume uni url_Parse quote o sched a w = Some ((empty_result, Some (OErrNoPlan (ap_GoalID a))), w).
Proof. intros Hr Hg. unfold Resume, get_plan. rewrite Hr, Hg. simpl. by rewrite set_same_plans. Qed.

Lemma resume_log sched a (w : World) r w' :
  Resume uni url_Parse quote o sched a w = Some (r, w') ->
  exists new, w_log w' = w_log w ++ new /\
    (dispatched new = [] \/
     role_ok a = true /\ ap_Approved a = true /\ exists plan,
       (ps_Get (ap_GoalID a) (w_plans w)).1 = Some plan /\ dispatched new ⊆+ pl_SubGoals plan).
Proof.
  destruct r as [res err].
  intros [[_ ->]|[(_ & Hg & _)|[(plan & w0 & w1 & e & _ & Hg & Ec & _ & ->)|(plan & w0 & w1 & Hr & Hg & Ec & E)]]]%resume_shape.
  - exists []. split; [by rewrite app_nil_r | by left].
  - pose proof (quiet_get_plan (ap_GoalID a) w) as Q. rewrite Hg in Q. simpl in Q.
    apply quiet_no_dispatch in Q as (new & El & Hn). exists new. split; [done | by left].
  - assert (Q : quiet w w1) by (by eapply quiet_consumed).
    apply quiet_no_dispatch in Q as (new & El & Hn). exists new. split; [done | by left].
  - assert (Q : quiet w w1) by (by eapply quiet_consumed).
    destruct (ap_Approved a) eqn:Ea.
    + apply dispatch_subs in E. destruct (quiet_dispatch w w1 w' (fun l => l ⊆+ pl_SubGoals plan) Q E) as (new & El & Hs).
      exists new. split; [done|]. right. split_and!; try done. exists plan. split; [|done].
      unfold get_plan in Hg. destruct (ps_Get _ _) as [p ps]. by injection Hg as -> _.
    + apply reject_result in E as [Q2 _].
      assert (Q3 : quiet w w') by (by etrans).
      apply quiet_no_dispatch in Q3 as (new & El & Hn). exists new. split; [done | by left].
Qed.

Lemma resume_consumed sched a (w : World) res err w' :
  Resume uni url_Parse quote o sched a w = Some ((res, err), w') -> role_ok a = true ->
  (forall g e, err <> Some (OErrTamper g e)) -> err <> Some (OErrNoPlan (ap_GoalID a)) ->
  ps_Get (ap_GoalID a) (w_plans w') = (None, w_plans w').
Proof.
  intros [[Hr _]|[(_ & Hg & ->)|[(plan & w0 & w1 & e & _ & _ & Ec & -> & ->)|(plan & w0 & w1 & Hr & Hg & Ec & E)]]]%resume_shape Hr' Ht Hn.
  - congruence.
  - done.
  - exfalso. unfold consume in Ec. destruct ps_TamperAware as [[tp td]|]; [|done].
    destruct (td _ _) as [[e'|] ps]; [|done]. injection Ec as <- _. by eapply Ht.
  - apply consume_gone in Ec. destruct (ap_Approved a).
    + apply dispatch_plans in E. by rewrite E.
    + apply reject_result in E as [_ E]. by rewrite E.
Qed.
End Approvals.


(** C5. Resume starts workers only for an approving message from the operator to the
    orchestrator and only for sub-goals of the plan held for that goal; after it,
    unless the plan store reported tampering or had no plan to give, every further
    approval or rejection of the goal is refused with no-pending-plan and changes
    nothing. *)
Theorem approval_is_checked_and_used_once {X PS RS : Type} `{RunStoreLike RS} `{PlanStoreLaws PS}
    uni url_Parse quote (o : @Orch X) sched a (w : @World X PS RS) res err w' :
  Resume uni url_Parse quote o sched a w = Some ((res, err), w') ->
  (exists new, w_log w' = w_log w ++ new /\
     (dispatched new <> [] ->
        ap_From a = "operator" /\ ap_To a = "orchestrator" /\ ap_Approved a = true /\
        exists plan, (ps_Get (ap_GoalID a) (w_plans w)).1 = Some plan /\ dispatched new ⊆+ pl_SubGoals plan)) /\
  (role_ok a = true -> (forall g e, err <> Some (OErrTamper g e)) -> err <> Some (OErrNoPlan (ap_GoalID a)) ->
     forall a' sched', role_ok a' = true -> ap_GoalID a' = ap_GoalID a ->
       Resume uni url_Parse quote o sched' a' w' =
       Some ((empty_result, Some (OErrNoPlan (ap_GoalID a))), w')).
Proof.
  intros E. split.
  - destruct (resume_log _ _ _ _ _ _ _ _ _ E) as (new & El & Hd). exists new. split; [done|].
    intros Hne. destruct Hd as [?|(Hr & Ha & Hp)]; [done|]. unfold role_ok in Hr. to_prop. by split_and!.
  - intros Hr Ht Hn a' sched' Hr' Hg. rewrite <- Hg. apply resume_again; [done|]. rewrite Hg.
    by eapply resume_consumed.
Qed.

(** After ResumeWithFold dispatched an approved plan on a store without tamper
    checks, the re-planned plan is held again under the goal, so the same approval
    is accepted by Resume once more and dispatches the plan a second time. *)
Theorem folded_approval_can_be_replayed {X PS RS : Type} `{RunStoreLike RS} `{PlanStoreLaws PS}
    uni url_Parse quote (o : @Orch X) sched a goal (w : @World X PS RS) res err w' :
  ps_TamperAware = None ->
  (forall t x p x', o_planner o t x = (Ok p, x') -> pl_GoalID p = task_ID t) ->
  task_ID goal = ap_GoalID a -> role_ok a = true -> ap_Approved a = true ->
  (HasPendingPlan (ap_GoalID a) w).1 = true ->
  ResumeWithFold uni url_Parse quote o sched a goal w = Some ((res, err), w') ->
  (forall g e, err <> Some (OErrPlan g e)) -> (forall g, err <> Some (OErrEmptyPlan g)) ->
  exists plan, pl_SubGoals plan <> [] /\
    forall sched', Resume uni url_Parse quote o sched' a w' =
      dispatchPlan uni url_Parse quote o sched' plan (set_plans (ps_Delete (ap_GoalID a) (w_plans w')) w').
Proof.
  intros Ht Hpl Hid Hr Ha Hh E Hne1 Hne2. unfold HasPendingPlan in Hh. unfold ResumeWithFold in E.
  rewrite Hr in E. simpl in E. destruct (get_plan (ap_GoalID a) w) as [[stored|] w0]; [|done].
  unfold consume in E. rewrite Ht in E.
  destruct (drain o (ap_GoalID a) _) as [info w1]. rewrite Ha in E. simpl in E.
  set (aug := mkTask _ _ _ _) in E. set (w2 := set_state o _ _ w1) in E. unfold plan_goal in E.
  destruct (o_planner o aug (w_ext w2)) as [planned x] eqn:Ep. destruct planned as [plan|e].
  2: { injection E as _ <- _. by destruct (Hne1 (ap_GoalID a) e). }
  destruct (pl_SubGoals plan) as [|s0 ss] eqn:Es.
  { injection E as _ <- _. by destruct (Hne2 (ap_GoalID a)). }
  exists plan. split; [by rewrite Es|]. intros sched'.
  apply dispatch_plans in E as Ew. simpl in Ew.
  assert (Hg : get_plan (ap_GoalID a) w' = (Some plan, w')).
  { unfold get_plan. rewrite (surjective_pairing (ps_Get _ _)), ps_get_pure, set_same_plans by done.
    rewrite Ew, ps_put_get by done. apply Hpl in Ep. simpl in Ep. rewrite decide_True by congruence. done. }
  unfold Resume. rewrite Hr, Hg. simpl. unfold consume. rewrite Ht, Ha. done.
Qed.

(** ** Folding text into a goal *)

(** A line that names no recipe is a sub-goal of its own. *)
Lemma plan_lines_has uni p reg def goal idx lines subs line :
  plan_lines uni p reg def goal idx lines = Ok subs -> line ∈ lines ->
  TrimSpace line = line -> line <> "" -> HasPrefix line "#" = false -> splitLine p line = None ->
  exists sub, sub ∈ subs /\ task_Spec (sg_Task sub) = line.
Proof.
  intros E Hin Ht Hne Hc Hs. revert idx subs E Hin.
  induction lines as [|raw lines' IH]; intros idx subs E Hin; [by apply not_elem_of_nil in Hin|].
  apply elem_of_cons in Hin as [<-|Hin]; revert E; simpl.
  - rewrite Ht, Hc, (proj2 (String.eqb_neq _ _) Hne), Hs. simpl.
    destruct (resolveRecipeName uni line reg def) as [r|]; [|done].
    destruct (plan_lines uni p reg def goal (idx + 1) lines') as [rest|]; [|done].
    intros [= <-]. eexists. split; [left|]. done.
  - destruct (_ || _); [by intros E; apply (IH _ _ E)|].
    destruct (match splitLine p _ with Some _ => _ | None => _ end) as [named|]; [|done].
    destruct (plan_lines uni p reg def goal (idx + 1) lines') as [rest|] eqn:Er; [|done].
    intros [= <-]. destruct (IH _ _ Er Hin) as (sub & Hsub & Hspec). exists sub. split; [by right | done].
Qed.

Definition fold_header : string := "Additional information:".

Lemma fold_header_line original x info : fold_header ∈ Split nl (FoldGoalText original (x :: info)).
Proof.
  unfold FoldGoalText. set (rest := Join "" (map (fun line => lf +:+ "- " +:+ line) (x :: info))).
  assert (Hrest : exists t, rest = String nl t).
  { unfold rest. destruct info; simpl; by eexists. }
  destruct Hrest as [t ->].
  change (fold_header ∈ Split nl (original +:+ String nl (String nl (fold_header +:+ String nl t)))).
  rewrite Split_app. apply elem_of_app. right.
  change (String nl (fold_header +:+ String nl t)) with ("" +:+ String nl (fold_header +:+ String nl t)).
  rewrite Split_app. apply elem_of_app. right. rewrite Split_app. apply elem_of_app. left. left.
Qed.

Lemma fold_header_plain p : splitLine p fold_header = None.
Proof. done. Qed.

(** When info or failure text is folded into a goal and the structured planner re-
    plans it, the header line of the fold is a sub-goal of its own, dispatched to a
    worker. *)
Theorem folded_header_becomes_a_worker uni live p goal x info plan :
  PlanGoal uni live p (with_spec goal (FoldGoalText (task_Spec goal) (x :: info))) = Ok plan ->
  exists sub, sub ∈ pl_SubGoals plan /\ task_Spec (sg_Task sub) = "Additional information:".
Proof.
  unfold PlanGoal. simpl task_Spec. intros E.
  destruct (plan_lines _ _ _ _ _ _ _) as [subs|e] eqn:El; [|done].
  destruct (plan_lines_has _ _ _ _ _ _ _ _ fold_header El (fold_header_line _ x info))
    as (sub & Hin & Hs); try done.
  destruct subs as [|s0 ss]; [by apply not_elem_of_nil in Hin|]. injection E as <-. by exists sub.
Qed.

Lemma folded_header_becomes_a_worker_witness :
  exists plan, PlanGoal (fun s => s) builtin_skills (NewStructuredPlanner [])
      (with_spec Demo.goal (FoldGoalText (task_Spec Demo.goal) ["tests failed"])) = Ok plan /\
    exists sub, sub ∈ pl_SubGoals plan /\ task_Spec (sg_Task sub) = "Additional information:".
Proof.
  assert (C : is_ok (PlanGoal (fun s => s) builtin_skills (NewStructuredPlanner [])
      (with_spec Demo.goal (FoldGoalText (task_Spec Demo.goal) ["tests failed"]))) = true)
    by (vm_compute; reflexivity).
  destruct (PlanGoal (fun s => s) builtin_skills (NewStructuredPlanner [])
      (with_spec Demo.goal (FoldGoalText (task_Spec Demo.goal) ["tests failed"]))) as [plan|e] eqn:E; [|discriminate].
  exists plan. split; [reflexivity|]. exact (folded_header_becomes_a_worker _ _ _ _ _ _ _ E).
Defined.

(** ** Crash recovery *)

Lemma remaining_spec plan r sub :
  sub ∈ remaining_subs plan r <->
  sub ∈ pl_SubGoals plan /\ completed_in (rr_Attempts r) (task_ID (sg_Task sub)) = false.
Proof.
  unfold remaining_subs. rewrite !list_elem_of_In, filter_In, negb_true_iff. done.
Qed.

Lemma remaining_sub plan r : remaining_subs plan r ⊆+ pl_SubGoals plan.
Proof.
  unfold remaining_subs. induction (pl_SubGoals plan) as [|s l IH]; simpl; [done|].
  destruct (negb _); [by apply submseteq_skip | by apply submseteq_cons].
Qed.

(** C8. ResumeFromRecord starts workers only for sub-goals of the journaled plan
    with no completed attempt in the record, at most once each, and returns one
    outcome for each of the interrupted sub-goals, in plan order. *)
Theorem resume_repeats_no_completed_work {X PS RS : Type} `{RunStoreLike RS}
    uni url_Parse quote (o : @Orch X) sched r plan (w : @World X PS RS) res err w' :
  o_unmarshal o (rr_Plan r) = Some plan ->
  ResumeFromRecord uni url_Parse quote o sched r w = Some ((res, err), w') ->
  exists new, w_log w' = w_log w ++ new /\
    dispatched new ⊆+ pl_SubGoals plan /\
    (forall sub, sub ∈ dispatched new -> completed_in (rr_Attempts r) (task_ID (sg_Task sub)) = false) /\
    map (fun oc => (so_SubGoal oc, so_Recipe oc)) (pr_Outcomes res) =
    map (fun s => (task_Spec (sg_Task s), sg_RecipeName s)) (remaining_subs plan r).
Proof.
  intros Hu. unfold ResumeFromRecord. rewrite Hu.
  destruct (remaining_subs plan r) as [|s0 ss] eqn:Er.
  - intros [= <- _ <-]. destruct (frame_finalize o plan w) as (_ & _ & _ & _ & evs & El & Hc).
    exists evs. rewrite (calm_dispatched evs Hc). split_and!; [done | apply submseteq_nil_l | | done].
    by intros sub ?%not_elem_of_nil.
  - rewrite <- Er. intros E. destruct (dispatch_subs _ _ _ _ _ _ _ _ _ _ E) as (new & El & Hs).
    exists new. split; [done|]. split; [etrans; [exact Hs | apply remaining_sub]|]. split.
    { intros sub Hin. apply (elem_of_submseteq _ _ _ Hin) in Hs. by apply remaining_spec in Hs as [_ ?]. }
    apply dispatch_inv in E as (pcs & w1 & results & new1 & evs & Hj & Ea & Hinv & _).
    exact (outcomes_in_order uni url_Parse quote o plan _ _ _ _ _ _ _ _ _ Hj Ea Hinv).
Qed.

(** ** Concrete runs *)

Local Notation demo_handle o w := (Handle (fun s => s) demo_parse (fun s => s) o Demo.alone Demo.goal w).
Local Notation demo_resume o a w := (Resume (fun s => s) demo_parse (fun s => s) o Demo.alone a w).

Definition demo_approval : Approval := mkApproval "operator" "orchestrator" "g" true.


(** The world after a plan was paused for approval. *)
Local Notation paused_world :=
  (match demo_handle (Demo.orch false true false) (Demo.world 1) with
   | Some (_, w) => w | None => Demo.world 1 end).

Lemma approval_is_checked_and_used_once_witness :
  match demo_resume (Demo.orch false true false) demo_approval paused_world with
  | Some (_, w') =>
    length (dispatched (w_log w')) = 1%nat /\
    demo_resume (Demo.orch false true false) demo_approval w' =
      Some ((empty_result, Some (OErrNoPlan "g")), w')
  | None => False
  end.
Proof.
  assert (C : match demo_resume (Demo.orch false true false) demo_approval paused_world with
              | Some ((_, err), w') => (length (dispatched (w_log w')) =? 1)%nat && no_err err
              | None => false end = true)
    by (vm_compute; reflexivity).
  destruct (demo_resume (Demo.orch false true false) demo_approval paused_world) as [[[res err] w']|] eqn:E;
    [|discriminate].
  to_prop. split; [by apply Nat.eqb_eq|].
  destruct err; [discriminate|].
  exact (proj2 (approval_is_checked_and_used_once _ _ _ _ _ _ _ _ _ _ E) eq_refl ltac:(discriminate)
    ltac:(discriminate) demo_approval Demo.alone eq_refl eq_refl).
Defined.

Lemma folded_approval_can_be_replayed_witness :
  match ResumeWithFold (fun s => s) demo_parse (fun s => s) (Demo.orch false true false) Demo.alone
          demo_approval Demo.goal paused_world with
  | Some (_, w') => exists plan, pl_SubGoals plan <> [] /\
      demo_resume (Demo.orch false true false) demo_approval w' =
      dispatchPlan (fun s => s) demo_parse (fun s => s) (Demo.orch false true false) Demo.alone plan
        (set_plans (ps_Delete "g" (w_plans w')) w')
  | None => False
  end.
Proof.
  assert (C : match ResumeWithFold (fun s => s) demo_parse (fun s => s) (Demo.orch false true false) Demo.alone
          demo_approval Demo.goal paused_world with
              | Some ((_, err), w') => (HasPendingPlan "g" paused_world).1 && no_err err
              | None => false end = true)
    by (vm_compute; reflexivity).
  destruct (ResumeWithFold (fun s => s) demo_parse (fun s => s) (Demo.orch false true false) Demo.alone
    demo_approval Demo.goal paused_world) as [[[res err] w']|] eqn:E; [|discriminate].
  to_prop. destruct err; [discriminate|].
  assert (Ht : @ps_TamperAware MemoryPlanStore _ = None) by reflexivity.
  destruct (folded_approval_can_be_replayed _ _ _ (Demo.orch false true false) _ demo_approval Demo.goal _ _ _ _ Ht Demo.planner_keeps_id
    eq_refl eq_refl eq_refl H E ltac:(discriminate) ltac:(discriminate)) as (plan & Hp & Hr).
  exists plan. split; [exact Hp | exact (Hr Demo.alone)].
Defined.

(** A record in which the first two of three sub-goals are complete. *)
Definition demo_record : RunRecord :=
  mkRecord "g" "goal" "g"
    [mkAttempt "g-0" 1 StatusCompleted "" 1; mkAttempt "g-1" 1 StatusCompleted "" 2; mkAttempt "g-2" 1 StatusRunning "" 3]
    [] StatusRunning 1 3 false 0.

Lemma resume_repeats_no_completed_work_witness :
  match ResumeFromRecord (fun s => s) demo_parse (fun s => s) (Demo.orch false false false) Demo.alone
          demo_record (Demo.world 1) with
  | Some ((res, _), w') =>
    map (fun oc => (so_SubGoal oc, so_Recipe oc)) (pr_Outcomes res) = [("spec", "build")] /\
    forall sub, sub ∈ dispatched (w_log w') -> completed_in (rr_Attempts demo_record) (task_ID (sg_Task sub)) = false
  | None => False
  end.
Proof.
  assert (C : match ResumeFromRecord (fun s => s) demo_parse (fun s => s) (Demo.orch false false false) Demo.alone
          demo_record (Demo.world 1) with Some _ => true | None => false end = true)
    by (vm_compute; reflexivity).
  destruct (ResumeFromRecord (fun s => s) demo_parse (fun s => s) (Demo.orch false false false) Demo.alone
    demo_record (Demo.world 1)) as [[[res err] w']|] eqn:E; [|discriminate].
  destruct (resume_repeats_no_completed_work _ _ _ (Demo.orch false false false) _ demo_record Demo.plan _ _ _ _ eq_refl E) as (new & El & _ & Hn & Ho).
  simpl in El. rewrite El. split; [exact Ho | exact Hn].
Defined.
