(* ===== verification/Analysis.v ===== *)
(** * Understanding a goal

    The goal analyzers and clarifiers: the rule-based ones of [internal/orchestrator]
    ([analyzer.go], [clarifier.go]) and the model-backed ones of
    [internal/orchestrator/planner] ([analyzer_llm.go], [clarifier_llm.go]), which ask a
    model for JSON, read it leniently, and never let a bad reply stop intake. A model is
    reached through [ExecutorResolver] and [Invoker], parameters here. *)

From stdpp Require Import base gmap strings list.
From Stdlib Require Import ZArith Lia Ascii.
From S2P Require Import Prelude GoStrings Texts Seams Encoding Json Registry Router Orchestrator.

Local Open Scope Z_scope.

Definition kind_string (k : GoalKind) : string := match k with KindAnswer => "answer" | KindCoding => "coding" end.
Definition complexity_string (c : GoalComplexity) : string :=
  match c with ComplexitySimple => "simple" | ComplexityComplex => "complex" end.

(** A double quote and a line end, for the texts below. *)
Definition dq : string := String dquote "".
Definition eol : string := String nl "".

(** ** The rules *)

Section Analysis.
(** The Unicode case tables. *)
Variable uni : string -> string.

Definition interrogatives : list string :=
  ["what"; "who"; "whom"; "whose"; "when"; "where"; "why"; "how"; "which"; "is"; "are"; "do"; "does"; "can";
   "could"; "should"; "would"].
Definition codeBuildVerbs : list string :=
  ["build"; "implement"; "create"; "add"; "write"; "fix"; "refactor"; "debug"; "update"; "patch"; "remove";
   "delete"; "make"].
Definition designSecuritySubstrings : list string :=
  ["security"; "secure"; "auth"; "crypto"; "architecture"; "design"; "concurren"; "distributed"].

(** [nonBlankLineCount]. *)
Definition nonBlankLineCount (spec : string) : Z :=
  Z.of_nat (length (filter (fun line => blank line = false) (Split nl spec))).

(** [complexityOf]. *)
Definition complexityOf (spec : string) : GoalComplexity :=
  if 2 <=? nonBlankLineCount spec then ComplexityComplex
  else if 30 <? Z.of_nat (length (Fields spec)) then ComplexityComplex
  else
    let l := ToLower uni spec in
    if Contains l " and then " || Contains l " then " then ComplexityComplex else ComplexitySimple.

(** [hasDesignOrSecuritySignal] and [tierOf]. *)
Definition hasDesignOrSecuritySignal (spec : string) : bool :=
  existsb (Contains (ToLower uni spec)) designSecuritySubstrings.
Definition tierOf (spec : string) (c : GoalComplexity) : Z :=
  if hasDesignOrSecuritySignal spec then 3
  else match c with ComplexityComplex => 2 | ComplexitySimple => 1 end.

(** [namesRepoOrPath]. *)
Definition namesRepoOrPath (spec : string) : bool :=
  let l := ToLower uni spec in
  Contains l "github.com" || Contains l "gitlab.com" || HasSuffix l ".git" || Contains spec "/".

Definition punctuation (c : ascii) : bool := bool_decide (c ∈ ["."; ","; ";"; ":"; "!"; "?"]%char).

(** [HeuristicGoalAnalyzer.Analyze], which returns no error. *)
Definition HeuristicAnalyze (goal : Task) : GoalAnalysis :=
  let spec := TrimSpace (task_Spec goal) in
  let complexity := complexityOf spec in
  let tier := tierOf spec complexity in
  let firstWord := match Fields (ToLower uni spec) with w :: _ => Trim punctuation w | [] => "" end in
  if namesRepoOrPath spec then mkAnalysis KindCoding complexity tier "names a repo or path"
  else if HasSuffix spec "?" || bool_decide (firstWord ∈ interrogatives)
  then mkAnalysis KindAnswer complexity tier "reads as a question"
  else if bool_decide (firstWord ∈ codeBuildVerbs)
  then mkAnalysis KindCoding complexity tier "starts with a code-build verb"
  else mkAnalysis KindAnswer complexity tier "no repo/path or build verb — treated as a question".

(** [HeuristicClarifier.Clarify], which returns no error. *)
Definition repo_word (w : string) : bool :=
  Contains w "github.com" || Contains w "gitlab.com" || Contains w "/".

Definition action_text (trimmed : string) : string :=
  let action := TrimSpace (Join " " (filter (fun w => repo_word w = false) (Fields trimmed))) in
  TrimSpace (TrimPrefix (TrimPrefix (TrimPrefix action "in") "on") "for").

Definition HeuristicClarify (goal : Task) : Clarification :=
  let trimmed := TrimSpace (task_Spec goal) in
  if String.eqb trimmed "" then mkClarification false ["What would you like me to build?"]
  else if negb (repo_word trimmed) then mkClarification false ["Which repository should I work on?"]
  else if Z.of_nat (String.length (action_text trimmed)) <? 3
  then mkClarification false ["What would you like me to build in the repository?"]
  else mkClarification true [].

(** ** What a model replies *)

(** [strings.LastIndexByte]. *)
Definition LastIndexByte (s : string) (b : ascii) : option nat :=
  match IndexByte (String.rev s) b with Some i => Some (String.length s - 1 - i)%nat | None => None end.

(** The text from the first opening to the last closing brace, when they are in order. *)
Definition json_block (s : string) : string :=
  match IndexByte s "{"%char, LastIndexByte s "}"%char with
  | Some i, Some j => if (i <? j)%nat then str_take (j + 1 - i) (str_drop i s) else s
  | _, _ => s
  end.

(** *** The analyzer *)

(** [LLMGoalAnalyzer.buildPrompt]. *)
Definition analysisPrompt (goalText : string) : string :=
  "Classify the following goal as either a general question (answer) or a coding task (coding)." +:+ eol +:+
  "Also estimate its complexity (simple or complex)." +:+ eol +:+
  "Also assign the required model-capability tier as an integer:" +:+ eol +:+
  "  1 = simple / mechanical work" +:+ eol +:+
  "  2 = complex work with no design/security angle" +:+ eol +:+
  "  3 = design, architecture, security, concurrency, or cryptography work" +:+ eol +:+
  "You MUST respond in this exact JSON format (and nothing else):" +:+ eol +:+
  "{" +:+ eol +:+
  "  " +:+ dq +:+ "kind" +:+ dq +:+ ": " +:+ dq +:+ "answer" +:+ dq +:+ "," +:+ eol +:+
  "  " +:+ dq +:+ "complexity" +:+ dq +:+ ": " +:+ dq +:+ "simple" +:+ dq +:+ "," +:+ eol +:+
  "  " +:+ dq +:+ "tier" +:+ dq +:+ ": 1," +:+ eol +:+
  "  " +:+ dq +:+ "rationale" +:+ dq +:+ ": " +:+ dq +:+ "..." +:+ dq +:+ eol +:+
  "}" +:+ eol +:+
  "Goal text:" +:+ eol +:+ goalText +:+ eol.

(** [rawAnalysis]; a nil pointer is [None]. *)
Record rawAnalysis := mkRawAnalysis {
  ra_Kind : option string;
  ra_Complexity : option string;
  ra_Tier : option Z;
  ra_Rationale : option string
}.

Definition analysis_fields : list (Field rawAnalysis) :=
  [("kind", fun v r => s ← to_string_ptr v; Some (mkRawAnalysis s (ra_Complexity r) (ra_Tier r) (ra_Rationale r)));
   ("complexity", fun v r => s ← to_string_ptr v; Some (mkRawAnalysis (ra_Kind r) s (ra_Tier r) (ra_Rationale r)));
   ("tier", fun v r => n ← to_int_ptr v; Some (mkRawAnalysis (ra_Kind r) (ra_Complexity r) n (ra_Rationale r)));
   ("rationale", fun v r => s ← to_string_ptr v; Some (mkRawAnalysis (ra_Kind r) (ra_Complexity r) (ra_Tier r) s))].

Inductive AnalysisErr :=
| AErrEmpty
| AErrKind (kind : string)
| AErrComplexity (complexity : string)
| AErrMissingTier
| AErrTier (tier : Z).

Definition read_kind (s : string) : option GoalKind :=
  let l := ToLower uni s in
  if String.eqb l "answer" then Some KindAnswer else if String.eqb l "coding" then Some KindCoding else None.
Definition read_complexity (s : string) : option GoalComplexity :=
  let l := ToLower uni s in
  if String.eqb l "simple" then Some ComplexitySimple
  else if String.eqb l "complex" then Some ComplexityComplex else None.

(** [parse], its first part: a JSON object that has a kind and a complexity. *)
Definition strict_analysis (kind complexity : string) (ra : rawAnalysis) : result AnalysisErr GoalAnalysis :=
  match read_kind kind, read_complexity complexity, ra_Tier ra with
  | None, _, _ => Err (AErrKind kind)
  | _, None, _ => Err (AErrComplexity complexity)
  | _, _, None => Err AErrMissingTier
  | Some k, Some c, Some t =>
    if (t <? 1) || (3 <? t) then Err (AErrTier t) else Ok (mkAnalysis k c t (default "" (ra_Rationale ra)))
  end.

(** [parse], its second part: keywords of the reply; no tier is set. *)
Definition lenient_analysis (response : string) : GoalAnalysis :=
  let lower := ToLower uni response in
  mkAnalysis
    (if Contains lower "coding" || Contains lower "build" || Contains lower "task" then KindCoding else KindAnswer)
    (if Contains lower "complex" || Contains lower "multi" || Contains lower "involved"
     then ComplexityComplex else ComplexitySimple)
    0 "parsed from lenient string heuristics".

(** [LLMGoalAnalyzer.parse]. *)
Definition parse_analysis (response : string) : result AnalysisErr GoalAnalysis :=
  let trimmed := TrimSpace response in
  if String.eqb trimmed "" then Err AErrEmpty
  else match Unmarshal analysis_fields (mkRawAnalysis None None None None) (json_block trimmed) with
  | Some (mkRawAnalysis (Some k) (Some c) t r) => strict_analysis k c (mkRawAnalysis (Some k) (Some c) t r)
  | _ => Ok (lenient_analysis response)
  end.

(** *** The clarifier *)

(** [LLMClarifier.buildPrompt]. *)
Definition clarifyPrompt (goalText : string) : string :=
  "Analyze the following goal specification to check if it has sufficient context to proceed to planning." +:+ eol +:+
  "Specifically, check if it specifies what to build and which repository to build it in." +:+ eol +:+
  "You MUST respond in this exact JSON format (and nothing else):" +:+ eol +:+
  "{" +:+ eol +:+
  "  " +:+ dq +:+ "ready" +:+ dq +:+ ": true," +:+ eol +:+
  "  " +:+ dq +:+ "questions" +:+ dq +:+ ": []" +:+ eol +:+
  "}" +:+ eol +:+
  "If it is not ready, set " +:+ dq +:+ "ready" +:+ dq +:+
  " to false and provide one or more clear clarifying questions in " +:+ dq +:+ "questions" +:+ dq +:+ "." +:+ eol +:+
  "Goal specification:" +:+ eol +:+ goalText +:+ eol.

(** [rawClarification]. *)
Record rawClarification := mkRawClarification { rc_Ready : option bool; rc_Questions : list string }.

Definition clarification_fields : list (Field rawClarification) :=
  [("ready", fun v r => b ← to_bool_ptr v; Some (mkRawClarification b (rc_Questions r)));
   ("questions", fun v r => l ← to_strings (rc_Questions r) v; Some (mkRawClarification (rc_Ready r) l))].

(** The lenient reading of readiness, and of the questions: bullets and lines that end
    with a question mark. *)
Definition reads_ready (lower : string) : bool :=
  Contains lower (dq +:+ "ready" +:+ dq +:+ ": true") || Contains lower "ready: true" ||
  (Contains lower "ready" && negb (Contains lower "not ready") && negb (Contains lower "questions")).

Definition bullet_byte (c : ascii) : bool := Ascii.eqb c "-" || Ascii.eqb c "*" || is_byte 32 c.

Definition line_question (l : string) : list string :=
  let line := TrimSpace l in
  if HasPrefix line "-" || HasPrefix line "*" then
    let q := TrimSpace (TrimLeft bullet_byte line) in if String.eqb q "" then [] else [q]
  else if HasSuffix line "?" then [line] else [].

(** [LLMClarifier.parse]; [None] is the error of an empty reply. *)
Definition parse_clarification (response : string) : option Clarification :=
  let trimmed := TrimSpace response in
  if String.eqb trimmed "" then None
  else Some match Unmarshal clarification_fields (mkRawClarification None []) (json_block trimmed) with
  | Some (mkRawClarification (Some ready) questions) => mkClarification ready questions
  | _ =>
    if reads_ready (ToLower uni response) then mkClarification true []
    else match Split nl response ≫= line_question with
         | [] => mkClarification false ["Clarifying questions needed."]
         | qs => mkClarification false qs
         end
  end.

(** ** Asking a model *)

(** [ExecutorResolver] and [Invoker] over a world [X]. *)
Context {X : Type}.
Variables (resolve : RoutingSpec -> X -> result string RegistryEntry * X)
          (invoke : RegistryEntry -> string -> X -> result string string * X).

(** The capability floor of comprehension. *)
Definition comprehension : RoutingSpec := mkRoutingSpec 1 SensitivityNone.

(** [LLMGoalAnalyzer.Analyze]. *)
Definition LLMAnalyze (goal : Task) (x : X) : result string GoalAnalysis * X :=
  let '(entry, x) := resolve comprehension x in
  match entry with
  | Err _ => (Ok (HeuristicAnalyze goal), x)
  | Ok entry =>
    let '(response, x) := invoke entry (analysisPrompt (task_Spec goal)) x in
    match response with
    | Err _ => (Ok (HeuristicAnalyze goal), x)
    | Ok response =>
      match parse_analysis response with
      | Err _ => (Ok (HeuristicAnalyze goal), x)
      | Ok a =>
        (Ok (if ga_CapabilityTier a =? 0
             then mkAnalysis (ga_Kind a) (ga_Complexity a) (ga_CapabilityTier (HeuristicAnalyze goal)) (ga_Rationale a)
             else a), x)
      end
    end
  end.

(** [LLMClarifier.Clarify]. *)
Definition LLMClarify (goal : Task) (x : X) : result string Clarification * X :=
  let '(entry, x) := resolve comprehension x in
  match entry with
  | Err e => (Err ("llm_clarifier: resolve model: " +:+ e), x)
  | Ok entry =>
    let '(response, x) := invoke entry (clarifyPrompt (task_Spec goal)) x in
    match response with
    | Err e => (Err ("llm_clarifier: invoke model: " +:+ e), x)
    | Ok response =>
      (match parse_clarification response with
       | None => Err "llm_clarifier: empty model response"
       | Some c => Ok c
       end, x)
    end
  end.
End Analysis.

(** ** Finding the object in a reply *)

(** What stands between the first opening and the last closing brace is found. *)
Lemma json_block_found pre m post :
  str_forall (no_byte "{") pre = true -> str_forall (no_byte "}") post = true ->
  json_block (pre +:+ String "{" (m +:+ String "}" post)) = String "{" (m +:+ "}").
Proof.
  intros A B. unfold json_block, IndexByte, LastIndexByte, IndexByte. rewrite index_byte_app by done.
  replace (String.rev (pre +:+ String "{" (m +:+ String "}" post))) with
    (String.rev post +:+ String "}" (String.rev (pre +:+ String "{" m)))
    by (rewrite !rev_str_app, !rev_cons, !rev_str_app, !rev_cons, !str_app_assoc; done).
  rewrite index_byte_app by (by rewrite str_forall_rev).
  assert (Lr : String.length (String.rev post) = String.length post).
  { clear. induction post as [|c s IH]; [done|]. rewrite rev_cons, str_length_app, IH. cbn. lia. }
  assert (Le : String.length (pre +:+ String "{" (m +:+ String "}" post)) =
    (String.length pre + S (String.length m + S (String.length post)))%nat).
  { rewrite str_length_app. cbn [String.length]. rewrite str_length_app. done. }
  rewrite Le, Lr. rewrite (proj2 (Nat.ltb_lt _ _)) by lia. cbn [Nat.add]. rewrite str_drop_app.
  replace (String "{" (m +:+ String "}" post)) with (String "{" (m +:+ "}") +:+ post)
    by (rewrite str_app_cons, str_app_assoc; done).
  set (t := String "{" (m +:+ "}")).
  replace (_ + 1 - _)%nat with (String.length t); [apply str_take_app|].
  unfold t. cbn [String.length]. rewrite str_length_app. cbn [String.length]. lia.
Qed.

Lemma renders_object_text d ms t : renders d (JObject ms) t -> exists m, t = String "{" (m +:+ "}").
Proof. intros H. inversion H; subst; eexists; rewrite str_app_cons; done. Qed.

(** A reply that holds a JSON object, in whatever prose, is not blank, and the object is
    what is read. *)
Lemma reply_is_unmarshalled {R} (fs : list (Field R)) zero pre text post ms :
  str_forall (no_byte "{") pre = true -> str_forall (no_byte "}") post = true ->
  renders maxNestingDepth (JObject ms) text ->
  String.eqb (TrimSpace (pre +:+ text +:+ post)) "" = false /\
  Unmarshal fs zero (json_block (TrimSpace (pre +:+ text +:+ post))) = store_members fs ms zero.
Proof.
  intros A B H. destruct (renders_object_text _ _ _ H) as (m & E).
  assert (P : parse_json text = Some (JObject ms)).
  { pose proof (parse_renders "" _ _ "" eq_refl eq_refl H) as P. rewrite str_app_nil_r in P. done. }
  subst text. rewrite str_app_cons, str_app_assoc, str_app_cons. change ("" +:+ post) with post.
  destruct (TrimSpace_keeps pre m post "{" "}" eq_refl eq_refl) as (pre' & post' & -> & K1 & K2).
  rewrite json_block_found by auto. split; [by destruct pre'|]. unfold Unmarshal. by rewrite P.
Qed.

(** ** The model-backed analyzer *)

Section Replies.
Context {X : Type} (uni : string -> string).
Variables (resolve : RoutingSpec -> X -> result string RegistryEntry * X)
          (invoke : RegistryEntry -> string -> X -> result string string * X).

Lemma heuristic_tier goal : 1 <= ga_CapabilityTier (HeuristicAnalyze uni goal) <= 3.
Proof.
  unfold HeuristicAnalyze, tierOf.
  repeat (case_match; cbn [ga_CapabilityTier]; try lia).
Qed.

Lemma strict_tier k c ra a : strict_analysis uni k c ra = Ok a -> 1 <= ga_CapabilityTier a <= 3.
Proof. unfold strict_analysis. repeat case_match; intros E; simplify_eq/=. to_prop. lia. Qed.

(** Analysis through a model never fails and always carries a tier from 1 to 3. It
    is the rule-based analysis when no model answers or the reply is refused;
    otherwise it is what the reply says, its tier taken from the rules when the
    reply gives none. *)
Theorem analysis_never_stops_intake goal x :
  exists a x', LLMAnalyze uni resolve invoke goal x = (Ok a, x') /\ 1 <= ga_CapabilityTier a <= 3 /\
    (a = HeuristicAnalyze uni goal \/
     exists entry x1 response b, resolve comprehension x = (Ok entry, x1) /\
       invoke entry (analysisPrompt (task_Spec goal)) x1 = (Ok response, x') /\
       parse_analysis uni response = Ok b /\
       ga_Kind a = ga_Kind b /\ ga_Complexity a = ga_Complexity b /\ ga_Rationale a = ga_Rationale b /\
       (ga_CapabilityTier a = ga_CapabilityTier b \/
        b = lenient_analysis uni response /\ ga_CapabilityTier a = ga_CapabilityTier (HeuristicAnalyze uni goal))).
Proof.
  pose proof (heuristic_tier goal) as T. unfold LLMAnalyze.
  destruct (resolve comprehension x) as [[entry|e] x1]; [|by eexists _, _; eauto].
  destruct (invoke entry _ x1) as [[response|e] x2] eqn:EI; [|by eexists _, _; eauto].
  destruct (parse_analysis uni response) as [b|e] eqn:P; [|by eexists _, _; eauto].
  destruct (Z.eqb_spec (ga_CapabilityTier b) 0) as [Z0|Z0].
  - eexists _, _. split; [reflexivity|]. split; [done|]. right. exists entry, x1, response, b. repeat split; try done.
    right. split; [|done]. unfold parse_analysis in P. repeat case_match; simplify_eq; try done.
    apply strict_tier in P. lia.
  - eexists _, _. split; [reflexivity|]. unfold parse_analysis in P.
    assert (S : 1 <= ga_CapabilityTier b <= 3).
    { repeat case_match; simplify_eq; try done; by apply strict_tier in P. }
    split; [done|]. right. exists entry, x1, response, b. unfold parse_analysis. repeat split; auto.
Qed.

(** A reply in the format the prompt asks for is read back: whatever prose surrounds the
    JSON object, however the object is laid out and whatever the case of its words, the
    analysis is the model's own. *)
Theorem model_analysis_is_read_back goal x entry x1 x2 pre text post k c t r kind complexity :
  resolve comprehension x = (Ok entry, x1) ->
  invoke entry (analysisPrompt (task_Spec goal)) x1 = (Ok (pre +:+ text +:+ post), x2) ->
  str_forall (no_byte "{") pre = true -> str_forall (no_byte "}") post = true ->
  renders maxNestingDepth
    (JObject [("kind", JString k); ("complexity", JString c); ("tier", JNumber (FormatInt t)); ("rationale", JString r)])
    text ->
  read_kind uni k = Some kind -> read_complexity uni c = Some complexity -> 1 <= t <= 3 ->
  LLMAnalyze uni resolve invoke goal x = (Ok (mkAnalysis kind complexity t r), x2).
Proof.
  intros ER EI A B H K C T. unfold LLMAnalyze. rewrite ER, EI. unfold parse_analysis.
  destruct (reply_is_unmarshalled analysis_fields (mkRawAnalysis None None None None) pre text post _ A B H) as [-> ->].
  replace (store_members analysis_fields _ _) with
    (Some (mkRawAnalysis (Some k) (Some c) (Some t) (Some r))).
  - unfold strict_analysis. rewrite K, C. cbn [ra_Tier ra_Rationale default].
    replace ((t <? 1) || (3 <? t)) with false by (symmetry; apply orb_false_iff; split; apply Z.ltb_ge; lia).
    cbn [ga_CapabilityTier]. rewrite (proj2 (Z.eqb_neq t 0)) by lia. done.
  - cbn. rewrite ParseInt_FormatInt; [done|]. apply in_int64_spec. unfold int64_min, int64_max. lia.
Qed.

(** ** The model-backed clarifier *)

Lemma to_strings_from_map qs old : to_strings_from old (map JString qs) = Some qs.
Proof. revert old. induction qs as [|q qs IH]; intros old; cbn; [done|]. by rewrite IH. Qed.

(** A clarification in the format the prompt asks for is read back. *)
Theorem model_clarification_is_read_back goal x entry x1 x2 pre text post ready qs :
  resolve comprehension x = (Ok entry, x1) ->
  invoke entry (clarifyPrompt (task_Spec goal)) x1 = (Ok (pre +:+ text +:+ post), x2) ->
  str_forall (no_byte "{") pre = true -> str_forall (no_byte "}") post = true ->
  renders maxNestingDepth (JObject [("ready", JBool ready); ("questions", JArray (map JString qs))]) text ->
  LLMClarify uni resolve invoke goal x = (Ok (mkClarification ready qs), x2).
Proof.
  intros ER EI A B H. unfold LLMClarify. rewrite ER, EI. unfold parse_clarification.
  destruct (reply_is_unmarshalled clarification_fields (mkRawClarification None []) pre text post _ A B H) as [-> ->].
  cbn. by rewrite to_strings_from_map.
Qed.
End Replies.

(** ** Witnesses *)

Definition demo_goal : Task := mkTask "g" "" "Design the login flow" "".
Definition demo_resolve (s : RoutingSpec) (x : ()) : result string RegistryEntry * () := (Ok local_entry, x).

Definition demo_analysis_text : string :=
  "{" +:+ (eol +:+ "  " +:+ in_quotes "kind" +:+ "" +:+ ":" +:+ " " +:+ in_quotes "Coding" +:+ "" +:+ "," +:+
  eol +:+ "  " +:+ in_quotes "complexity" +:+ "" +:+ ":" +:+ " " +:+ in_quotes "complex" +:+ "" +:+ "," +:+
  eol +:+ "  " +:+ in_quotes "tier" +:+ "" +:+ ":" +:+ " " +:+ "3" +:+ "" +:+ "," +:+
  eol +:+ "  " +:+ in_quotes "rationale" +:+ "" +:+ ":" +:+ " " +:+ in_quotes "login is security work" +:+ eol) +:+ "}".

Lemma demo_analysis_renders :
  renders maxNestingDepth
    (JObject [("kind", JString "Coding"); ("complexity", JString "complex"); ("tier", JNumber (FormatInt 3));
              ("rationale", JString "login is security work")]) demo_analysis_text.
Proof.
  apply (R_object (pred maxNestingDepth)).
  apply (M_cons _ "kind" "kind" _ _ (eol +:+ "  ") "" " " _ "" _);
    [done|done|done|done|by apply plain_body|by apply R_string, plain_body|].
  apply (M_cons _ "complexity" "complexity" _ _ (eol +:+ "  ") "" " " _ "" _);
    [done|done|done|done|by apply plain_body|by apply R_string, plain_body|].
  apply (M_cons _ "tier" "tier" _ _ (eol +:+ "  ") "" " " _ "" _);
    [done|done|done|done|by apply plain_body|by apply R_number|].
  apply (M_one _ "rationale" "rationale" _ (eol +:+ "  ") "" " " _ eol);
    [done|done|done|done|by apply plain_body|by apply R_string, plain_body].
Qed.

Lemma model_analysis_is_read_back_witness :
  LLMAnalyze (fun s => s) demo_resolve (fun _ _ x => (Ok ("Sure: " +:+ demo_analysis_text +:+ " Anything else?"), x))
    demo_goal () = (Ok (mkAnalysis KindCoding ComplexityComplex 3 "login is security work"), ()).
Proof.
  apply (model_analysis_is_read_back (fun s => s) demo_resolve _ demo_goal () local_entry () () "Sure: "
    demo_analysis_text " Anything else?" "Coding" "complex" 3 "login is security work" KindCoding ComplexityComplex);
    [reflexivity|reflexivity|reflexivity|reflexivity|apply demo_analysis_renders|reflexivity|reflexivity|lia].
Defined.

Definition demo_clarification_text : string :=
  "{" +:+ ("" +:+ in_quotes "ready" +:+ "" +:+ ":" +:+ " " +:+ "false" +:+ "" +:+ "," +:+
  " " +:+ in_quotes "questions" +:+ "" +:+ ":" +:+ " " +:+ ("[" +:+ (("" +:+ in_quotes "Which repository?" +:+ "")) +:+ "]") +:+ "") +:+ "}".

Lemma demo_clarification_renders :
  renders maxNestingDepth
    (JObject [("ready", JBool false); ("questions", JArray (map JString ["Which repository?"]))]) demo_clarification_text.
Proof.
  apply (R_object (pred maxNestingDepth)).
  apply (M_cons _ "ready" "ready" _ _ "" "" " " _ "" _);
    [done|done|done|done|by apply plain_body|by apply R_false|].
  apply (M_one _ "questions" "questions" _ " " "" " " _ "");
    [done|done|done|done|by apply plain_body|].
  apply (R_array (pred (pred maxNestingDepth))), I_one; [done|done|by apply R_string, plain_body].
Qed.

Lemma model_clarification_is_read_back_witness :
  LLMClarify (fun s => s) demo_resolve (fun _ _ x => (Ok ("Hm. " +:+ demo_clarification_text +:+ ""), x))
    demo_goal () = (Ok (mkClarification false ["Which repository?"]), ()).
Proof.
  apply (model_clarification_is_read_back (fun s => s) demo_resolve _ demo_goal () local_entry () () "Hm. "
    demo_clarification_text "" false ["Which repository?"]);
    [reflexivity|reflexivity|reflexivity|reflexivity|apply demo_clarification_renders].
Defined.

(** A reply that says it is not ready is taken as ready when its JSON does not parse:
    here because the prose holds a brace, and because the object is cut off. *)
Example unready_reply_reads_ready :
  parse_clarification (fun s => s) ("Note {1}: {" +:+ dq +:+ "ready" +:+ dq +:+ ": false}") = Some (mkClarification true []) /\
  parse_clarification (fun s => s) ("{" +:+ dq +:+ "ready" +:+ dq +:+ ": false") = Some (mkClarification true []).
Proof. by vm_compute. Qed.
