(* ===== verification/ModelPlanner.v ===== *)
(** * Planning with a model

    [internal/orchestrator/planner/llmplanner.go] and [fromenv.go]: the planner that asks
    a model for one sub-goal per line, keeps the lines that name a known recipe, drops the
    sub-goals that target agent-builder's own repository, and fails when nothing is left. *)

From stdpp Require Import base gmap strings list.
From Stdlib Require Import ZArith Lia Ascii.
From S2P Require Import Prelude GoStrings Texts Seams Registry Router Containment Planner Orchestrator Analysis.

Local Open Scope Z_scope.

Definition bar : ascii := "|"%char.

(** [splitMetadata]: the fields of the segments after the first; the last of each wins,
    and the other segments are given back. *)
Fixpoint metadata (segs : list string) (repo sink : string) : string * string * list string :=
  match segs with
  | [] => (repo, sink, [])
  | seg :: segs =>
    let seg := TrimSpace seg in
    if HasPrefix seg "target_repo=" then metadata segs (TrimSpace (TrimPrefix seg "target_repo=")) sink
    else if HasPrefix seg "sink=" then metadata segs repo (TrimSpace (TrimPrefix seg "sink="))
    else let '(r, s, others) := metadata segs repo sink in (r, s, seg :: others)
  end.

Definition splitMetadata (line : string) : string * string * string :=
  match Split bar line with
  | [] => ("", "", "")
  | first :: segs =>
    let body := TrimSpace first in
    let '(repo, sink, leftover) := metadata segs "" "" in
    (match leftover with [] => body | _ => TrimSpace (body +:+ " | " +:+ Join " | " leftover) end, repo, sink)
  end.

(** [LLMPlanner.splitLine] over the catalog [recipes]; [None] when the line names no
    recipe of it. *)
Definition splitRecipe (recipes : list string) (body : string) : option (string * string) :=
  match IndexByte body ":"%char with
  | None | Some O => None
  | Some colon =>
    let candidate := TrimSpace (str_take colon body) in
    let rest := TrimSpace (str_drop (colon + 1) body) in
    if String.eqb candidate "" || negb (str_forall (fun c => negb (is_byte 32 c || is_byte 9 c)) candidate)
       || String.eqb rest "" then None
    else if negb (bool_decide (recipes = [])) && negb (bool_decide (candidate ∈ recipes)) then None
    else Some (candidate, rest)
  end.

(** [LLMPlanner.buildPrompt]. *)
Definition planPrompt (recipes : list string) (goalText : string) : string :=
  "Decompose the following goal into an ordered list of sub-goals." +:+ eol +:+
  "Return ONE sub-goal per line in this exact format:" +:+ eol +:+
  "  <recipe-name>: <spec text> [| target_repo=<repo> | sink=<sink>]" +:+ eol +:+
  "Use only these recipe names:" +:+ eol +:+
  (match recipes with [] => "  (none registered — use the default recipe)" +:+ eol | _ => "" end) +:+
  Join "" (map (fun r => "  - " +:+ r +:+ eol) recipes) +:+
  "Goal:" +:+ eol +:+ goalText +:+ eol.

(** The errors of [Plan]; [PErrEmpty] is [ErrEmptyResponse] with the number of lines. *)
Inductive PlanErr := PErrResolve (e : string) | PErrInvoke (e : string) | PErrEmpty (lines : Z).

Section ModelPlanner.
Variables (uni : string -> string) (url_Parse : string -> option (string * string)).

(** The planner's own [targetsOwnRepo]. *)
Definition plannerTargetsOwnRepo (sub : SubGoal) : bool :=
  let canonOwn := CanonicalizeRepo uni url_Parse OwnRepo in
  existsb (fun target =>
      if String.eqb target "" then false
      else let canonical := CanonicalizeRepo uni url_Parse target in
           String.eqb canonical "" || String.eqb canonical canonOwn)
    [task_Repo (sg_Task sub); sg_TargetRepo sub; sg_Sink sub].

(** The loop of [parse] over the lines; [idx] numbers the sub-goals kept. *)
Fixpoint parse_plan (recipes : list string) (goal : Task) (idx : Z) (lines : list string) : list SubGoal :=
  match lines with
  | [] => []
  | raw :: lines =>
    let line := TrimSpace raw in
    if String.eqb line "" || HasPrefix line "#" then parse_plan recipes goal idx lines
    else
      let '(body, repo, sink) := splitMetadata line in
      match splitRecipe recipes body with
      | None => parse_plan recipes goal idx lines
      | Some (recipe, spec) =>
        if String.eqb spec "" then parse_plan recipes goal idx lines
        else
          let sub := mkSubGoal (mkTask (subGoalID (task_ID goal) idx) (task_Repo goal) spec "") recipe repo sink in
          if plannerTargetsOwnRepo sub then parse_plan recipes goal idx lines
          else sub :: parse_plan recipes goal (idx + 1) lines
      end
  end.

Context {X : Type}.
Variables (resolve : RoutingSpec -> X -> result string RegistryEntry * X)
          (invoke : RegistryEntry -> string -> X -> result string string * X).

(** [LLMPlanner.Plan]. *)
Definition LLMPlan (recipes : list string) (goal : Task) (x : X) : result PlanErr Plan * X :=
  let '(entry, x) := resolve comprehension x in
  match entry with
  | Err e => (Err (PErrResolve e), x)
  | Ok entry =>
    let '(response, x) := invoke entry (planPrompt recipes (task_Spec goal)) x in
    match response with
    | Err e => (Err (PErrInvoke e), x)
    | Ok response =>
      let lines := Split nl response in
      (match parse_plan recipes goal 0 lines with
       | [] => Err (PErrEmpty (Z.of_nat (length lines)))
       | subs => Ok (mkPlan (task_Spec goal) (task_ID goal) subs)
       end, x)
    end
  end.

(** ** Every plan is admissible *)

Lemma planner_filter_is_bright_line sub : plannerTargetsOwnRepo sub = targetsOwnRepo uni url_Parse sub.
Proof. unfold plannerTargetsOwnRepo, targetsOwnRepo, target_matches. cbn [existsb]. by rewrite orb_false_r, orb_assoc. Qed.

(** What the planner lets into a plan, numbered from [idx]. *)
Definition admissible (recipes : list string) (goal : Task) (sub : SubGoal) : Prop :=
  (recipes = [] \/ sg_RecipeName sub ∈ recipes) /\ task_Spec (sg_Task sub) <> "" /\
  task_Repo (sg_Task sub) = task_Repo goal /\ targetsOwnRepo uni url_Parse sub = false.

Lemma splitRecipe_known recipes body r spec : splitRecipe recipes body = Some (r, spec) ->
  (recipes = [] \/ r ∈ recipes) /\ spec <> "".
Proof.
  unfold splitRecipe. destruct (IndexByte body ":") as [[|colon]|]; [done| |done].
  destruct (_ || _) eqn:E1; [done|]. destruct (_ && _) eqn:E2; [done|]. intros [= <- <-]. to_prop.
  split; [|done]. destruct (decide (recipes = [])) as [->|N]; [by left|]. right.
  rewrite bool_decide_eq_false_2 in E2 by done. cbn in E2. by apply negb_false_iff, bool_decide_eq_true in E2.
Qed.

Lemma parse_plan_admits recipes goal idx lines i sub :
  parse_plan recipes goal idx lines !! i = Some sub ->
  task_ID (sg_Task sub) = subGoalID (task_ID goal) (idx + Z.of_nat i) /\ admissible recipes goal sub.
Proof.
  revert idx i. induction lines as [|raw lines IH]; intros idx i; cbn [parse_plan]; [done|].
  destruct (_ || _); [apply IH|]. destruct (splitMetadata _) as [[body repo] sink].
  destruct (splitRecipe recipes body) as [[r spec]|] eqn:E; [|apply IH].
  destruct (String.eqb spec ""); [apply IH|].
  destruct (plannerTargetsOwnRepo _) eqn:O; [apply IH|].
  apply splitRecipe_known in E as [K S]. destruct i as [|i]; cbn.
  - intros [= <-]. rewrite planner_filter_is_bright_line in O. cbn. rewrite Z.add_0_r. done.
  - intros [H1 H2]%IH. split; [|done]. rewrite H1. f_equal. lia.
Qed.

(** C30. A plan a model proposes has at least one sub-goal; every sub-goal names a
    recipe of the catalog, carries a spec and the goal's repository, and passes the
    orchestrator's self-repo bright line; sub-goal IDs number the sub-goals without
    gaps. A goal on agent-builder's own repository never gets a plan. *)
Theorem model_plan_is_admissible recipes goal x plan x' :
  LLMPlan recipes goal x = (Ok plan, x') ->
  pl_Goal plan = task_Spec goal /\ pl_GoalID plan = task_ID goal /\ pl_SubGoals plan <> [] /\
  (forall i sub, pl_SubGoals plan !! i = Some sub ->
     task_ID (sg_Task sub) = subGoalID (task_ID goal) (Z.of_nat i) /\ admissible recipes goal sub) /\
  target_matches uni url_Parse (task_Repo goal) = false.
Proof.
  unfold LLMPlan. destruct (resolve _ x) as [[entry|] x1]; [|done].
  destruct (invoke _ _ x1) as [[response|] x2]; [|done].
  destruct (parse_plan recipes goal 0 (Split nl response)) as [|s l] eqn:E; [done|]. intros [= <- <-]. cbn.
  assert (A : forall i sub, (s :: l) !! i = Some sub ->
     task_ID (sg_Task sub) = subGoalID (task_ID goal) (Z.of_nat i) /\ admissible recipes goal sub).
  { intros i sub. rewrite <- E. apply (parse_plan_admits recipes goal 0). }
  do 3 (split; [done|]). split; [exact A|].
  destruct (A 0%nat s eq_refl) as (_ & _ & _ & R & T). unfold targetsOwnRepo in T. rewrite R in T.
  by destruct (target_matches _ _ (task_Repo goal)).
Qed.

(** ** Plans as a model writes them *)

(** A line of the requested format, or a remark: blank, a comment or prose that names
    nothing. *)
Inductive PlanLine :=
| PlSub (recipe spec repo sink : string)
| PlNote (text : string).

Definition segment (key value : string) : list string := if String.eqb value "" then [] else [key +:+ value].
Definition segments (recipe spec repo sink : string) : list string :=
  (recipe +:+ ": " +:+ spec) :: segment "target_repo=" repo ++ segment "sink=" sink.
Definition plan_text (l : PlanLine) : string :=
  match l with
  | PlSub recipe spec repo sink => Join " | " (segments recipe spec repo sink)
  | PlNote text => text
  end.

Definition field_ok (s : string) : bool := prose s && str_forall (no_byte bar) s.
Definition line_written (recipes : list string) (l : PlanLine) : Prop :=
  match l with
  | PlSub recipe spec repo sink =>
    word recipe = true /\ str_forall (no_byte ":") recipe = true /\ str_forall (no_byte bar) recipe = true /\
    HasPrefix recipe "#" = false /\ (recipes = [] \/ recipe ∈ recipes) /\ field_ok spec = true /\
    (repo = "" \/ field_ok repo = true) /\ (sink = "" \/ field_ok sink = true)
  | PlNote text =>
    str_forall (no_byte nl) text = true /\
    (TrimSpace text = "" \/ HasPrefix (TrimSpace text) "#" = true \/
     prose text = true /\ str_forall (no_byte ":") text = true /\ str_forall (no_byte bar) text = true)
  end.

(** The sub-goals the lines name, less those on agent-builder's own repository. *)
Fixpoint named_subs (goal : Task) (idx : Z) (ls : list PlanLine) : list SubGoal :=
  match ls with
  | [] => []
  | PlNote _ :: ls => named_subs goal idx ls
  | PlSub recipe spec repo sink :: ls =>
    let sub := mkSubGoal (mkTask (subGoalID (task_ID goal) idx) (task_Repo goal) spec "") recipe repo sink in
    if targetsOwnRepo uni url_Parse sub then named_subs goal idx ls
    else sub :: named_subs goal (idx + 1) ls
  end.

Lemma field_ok_spec s : field_ok s = true -> prose s = true /\ str_forall (no_byte bar) s = true.
Proof. apply andb_true_iff. Qed.

(** Splitting at bars and trimming gives the segments back. *)
Lemma split_bars w segs : str_forall ascii_space w = true -> str_forall (no_byte bar) w = true -> segs <> [] ->
  Forall (fun s => field_ok s = true) segs ->
  map TrimSpace (Split bar (w +:+ Join " | " segs)) = segs.
Proof.
  intros W B Hn F. revert w W B. induction F as [|x [|y l] Hx F IH]; intros w W B; [done| |];
    apply field_ok_spec in Hx as [Px Bx].
  - cbn [Join]. rewrite Split_clean by (rewrite str_forall_app, B; done). cbn [map].
    rewrite <- (str_app_nil_r x) at 1. by rewrite TrimSpace_prose.
  - replace (w +:+ Join " | " (x :: y :: l)) with ((w +:+ x +:+ " ") +:+ String bar (" " +:+ Join " | " (y :: l)))
      by (rewrite !str_app_assoc; done).
    rewrite Split_app, Split_clean by (rewrite !str_forall_app, B, Bx; done). cbn [app map].
    rewrite TrimSpace_prose by done. f_equal. by apply IH.
Qed.

Lemma prose_Join segs : segs <> [] -> Forall (fun s => field_ok s = true) segs -> prose (Join " | " segs) = true.
Proof.
  intros Hn F. induction F as [|x [|y l] Hx F IH]; [done| |]; apply field_ok_spec in Hx as [Px _]; [done|].
  change (Join " | " (x :: y :: l)) with (x +:+ " | " +:+ Join " | " (y :: l)). by apply prose_glue; [|apply IH|].
Qed.

Lemma segment_ok key value : field_ok (key +:+ value) = true \/ value = "" -> Forall (fun s => field_ok s = true) (segment key value).
Proof. unfold segment. intros [H| ->]; [|constructor]. destruct (String.eqb value ""); by repeat constructor. Qed.

Lemma key_field key value : prose key = true -> str_forall (no_byte bar) key = true -> field_ok value = true ->
  field_ok (key +:+ value) = true.
Proof.
  intros P B [V Bv]%field_ok_spec. unfold field_ok. rewrite str_forall_app, B, Bv, andb_true_r.
  change (key +:+ value) with (key +:+ "" +:+ value). by apply prose_glue.
Qed.

Lemma body_field recipe spec : word recipe = true -> str_forall (no_byte bar) recipe = true -> field_ok spec = true ->
  field_ok (recipe +:+ ": " +:+ spec) = true.
Proof.
  intros W B [V Bv]%field_ok_spec. unfold field_ok. rewrite !str_forall_app, B, Bv, andb_true_r.
  apply prose_glue; [by apply prose_word|done|done].
Qed.

Lemma segments_ok recipes recipe spec repo sink : line_written recipes (PlSub recipe spec repo sink) ->
  Forall (fun s => field_ok s = true) (segments recipe spec repo sink).
Proof.
  intros (W & _ & B & _ & _ & S & R & K). constructor; [by apply body_field|]. apply Forall_app. split; apply segment_ok.
  - destruct R as [->|R]; [by right|left]. by apply key_field.
  - destruct K as [->|K]; [by right|left]. by apply key_field.
Qed.

Lemma metadata_trimmed a b repo sink : map TrimSpace a = map TrimSpace b -> metadata a repo sink = metadata b repo sink.
Proof.
  revert b repo sink. induction a as [|s a IH]; intros [|t b] repo sink; cbn [map metadata]; try done.
  intros [= -> E]. by rewrite (IH _ _ _ E), (IH _ repo _ E), (IH _ repo sink E).
Qed.

Lemma TrimSpace_field s : field_ok s = true -> TrimSpace s = s.
Proof. intros [P _]%field_ok_spec. by apply TrimSpace_self. Qed.

Lemma map_trim_fields segs : Forall (fun s => field_ok s = true) segs -> map TrimSpace segs = segs.
Proof. induction 1 as [|s l H F IH]; cbn; [done|]. by rewrite IH, TrimSpace_field. Qed.

Lemma metadata_segments repo sink : repo = "" \/ field_ok repo = true -> sink = "" \/ field_ok sink = true ->
  metadata (segment "target_repo=" repo ++ segment "sink=" sink) "" "" = (repo, sink, []).
Proof.
  intros R K.
  assert (T : forall v r0 s0 l, field_ok v = true -> metadata (segment "target_repo=" v ++ l) r0 s0 = metadata l v s0).
  { intros v r0 s0 l H. unfold segment. destruct (String.eqb_spec v "") as [->|_]; [done|]. cbn [app metadata].
    rewrite (TrimSpace_field ("target_repo=" +:+ v)) by (by apply key_field).
    replace (HasPrefix ("target_repo=" +:+ v) "target_repo=") with true by (symmetry; apply prefix_of_app).
    by rewrite TrimPrefix_app, TrimSpace_field. }
  assert (S : forall r0, metadata (segment "sink=" sink) r0 "" = (r0, sink, [])).
  { intros r0. destruct K as [->|K]; [done|]. unfold segment. destruct (String.eqb_spec sink "") as [->|_]; [done|].
    cbn [metadata]. rewrite (TrimSpace_field ("sink=" +:+ sink)) by (by apply key_field).
    replace (HasPrefix ("sink=" +:+ sink) "target_repo=") with false by reflexivity.
    replace (HasPrefix ("sink=" +:+ sink) "sink=") with true by (symmetry; apply prefix_of_app).
    by rewrite TrimPrefix_app, TrimSpace_field. }
  destruct R as [->|R]; [apply S|]. by rewrite T.
Qed.

Lemma written_metadata recipes recipe spec repo sink : line_written recipes (PlSub recipe spec repo sink) ->
  splitMetadata (plan_text (PlSub recipe spec repo sink)) = (recipe +:+ ": " +:+ spec, repo, sink).
Proof.
  intros L. pose proof (segments_ok _ _ _ _ _ L) as F. destruct L as (_ & _ & _ & _ & _ & _ & R & K).
  cbn [plan_text]. unfold splitMetadata.
  pose proof (split_bars "" (segments recipe spec repo sink) eq_refl eq_refl ltac:(done) F) as E. change ("" +:+ ?x) with x in E.
  destruct (Split bar _) as [|first rest]; [done|]. cbn [map segments] in E. injection E as E1 E2. rewrite E1.
  inversion F; subst. rewrite (metadata_trimmed rest (segment "target_repo=" repo ++ segment "sink=" sink))
    by (rewrite E2; symmetry; by apply map_trim_fields).
  by rewrite metadata_segments.
Qed.

Lemma written_recipe recipes recipe spec : word recipe = true -> str_forall (no_byte ":") recipe = true ->
  recipes = [] \/ recipe ∈ recipes -> field_ok spec = true ->
  splitRecipe recipes (recipe +:+ ": " +:+ spec) = Some (recipe, spec).
Proof.
  intros W C K [P _]%field_ok_spec. unfold splitRecipe, IndexByte.
  change (": " +:+ spec) with (String ":" (" " +:+ spec)). rewrite index_byte_app by done. cbn [Nat.add].
  pose proof (prose_word _ W) as PW. unfold word in W. to_prop.
  assert (Et : str_take (String.length recipe) (recipe +:+ String ":" (" " +:+ spec)) = recipe) by apply str_take_app.
  assert (Ed : str_drop (String.length recipe + 1) (recipe +:+ String ":" (" " +:+ spec)) = " " +:+ spec).
  { replace (String.length recipe + 1)%nat with (String.length (recipe +:+ ":")) by (rewrite str_length_app; done).
    replace (recipe +:+ String ":" (" " +:+ spec)) with ((recipe +:+ ":") +:+ " " +:+ spec) by (by rewrite str_app_assoc).
    apply str_drop_app. }
  destruct (String.length recipe) as [|n] eqn:En; [by destruct recipe|].
  rewrite Et, Ed, TrimSpace_lead, TrimSpace_self by done.
  rewrite (proj2 (String.eqb_neq recipe "")) by done.
  rewrite (str_forall_impl plain (fun c => negb (is_byte 32 c || is_byte 9 c))) by (done || by intros [[] [] [] [] [] [] [] []]).
  replace (String.eqb spec "") with false by (by destruct spec). cbn [negb orb].
  destruct K as [->|K]; [done|]. rewrite (bool_decide_eq_true_2 (recipe ∈ recipes)) by done. by rewrite andb_false_r.
Qed.

Lemma note_names_nothing recipes text : prose text = true -> str_forall (no_byte ":") text = true ->
  str_forall (no_byte bar) text = true -> exists body, splitMetadata text = (body, "", "") /\ splitRecipe recipes body = None.
Proof.
  intros P C B. unfold splitMetadata. rewrite Split_clean by done. cbn. rewrite TrimSpace_self by done.
  exists text. split; [done|]. unfold splitRecipe, IndexByte.
  assert (N : forall i, index_byte_from i text ":" = None).
  { revert C. clear. induction text as [|c s IH]; intros C i; [done|]. cbn [str_forall index_byte_from] in *.
    unfold no_byte at 1 in C. to_prop. rewrite H. by apply IH. }
  by rewrite N.
Qed.

Lemma prefix_hash recipe s : recipe <> "" -> HasPrefix recipe "#" = false -> HasPrefix (recipe +:+ s) "#" = false.
Proof.
  destruct recipe as [|c r]; [done|]. intros _. rewrite str_app_cons. unfold HasPrefix. cbn [String.prefix].
  destruct (ascii_dec "#" c); [by destruct r|done].
Qed.

Lemma parse_written recipes goal idx ls : Forall (line_written recipes) ls ->
  parse_plan recipes goal idx (map plan_text ls) = named_subs goal idx ls.
Proof.
  intros F. revert idx. induction F as [|l ls L F IH]; intros idx; [done|]. cbn [map parse_plan].
  destruct l as [recipe spec repo sink|text].
  - pose proof (segments_ok _ _ _ _ _ L) as FS. pose proof (written_metadata _ _ _ _ _ L) as M.
    destruct L as (W & C & B & H & K & S & _). cbn [plan_text] in *.
    rewrite TrimSpace_self by (by apply prose_Join). rewrite M.
    assert (E : exists t, Join " | " (segments recipe spec repo sink) = recipe +:+ t).
    { unfold segments. destruct (segment _ repo ++ _) as [|y l]; [by eexists|].
      exists ((": " +:+ spec) +:+ " | " +:+ Join " | " (y :: l)).
      change ((recipe +:+ (": " +:+ spec)) +:+ " | " +:+ Join " | " (y :: l) =
              recipe +:+ ((": " +:+ spec) +:+ " | " +:+ Join " | " (y :: l))). apply str_app_assoc. }
    destruct E as (t & ->). assert (Hne : recipe <> "") by (unfold word in W; by to_prop).
    rewrite (prefix_hash recipe t Hne H). rewrite (written_recipe recipes recipe spec) by done.
    replace (String.eqb (recipe +:+ t) "") with false by (by destruct recipe).
    replace (String.eqb spec "") with false by (by destruct spec). cbn [orb named_subs].
    rewrite planner_filter_is_bright_line. by destruct (targetsOwnRepo _ _ _); rewrite IH.
  - destruct L as (_ & [E|[E|(P & C & B)]]); cbn [plan_text named_subs].
    + rewrite E. apply IH.
    + rewrite E, orb_true_r. apply IH.
    + rewrite TrimSpace_self by done. destruct (_ || _); [apply IH|].
      destruct (note_names_nothing recipes text P C B) as (body & -> & ->). apply IH.
Qed.

Lemma line_has_no_nl recipes l : line_written recipes l -> str_forall (no_byte nl) (plan_text l) = true.
Proof.
  destruct l as [recipe spec repo sink|text]; intros L; [|by destruct L].
  apply prose_no_nl, prose_Join; [done|]. by eapply segments_ok.
Qed.

(** C29. A reply in the requested format is read back: the plan is exactly the sub-
    goals its lines name, in order, less those that target agent-builder's own
    repository; remarks between the lines do not matter. *)
Theorem model_plan_is_read_back recipes goal x entry x1 x2 ls :
  resolve comprehension x = (Ok entry, x1) ->
  invoke entry (planPrompt recipes (task_Spec goal)) x1 = (Ok (Join eol (map plan_text ls)), x2) ->
  ls <> [] -> Forall (line_written recipes) ls ->
  LLMPlan recipes goal x =
  (match named_subs goal 0 ls with
   | [] => Err (PErrEmpty (Z.of_nat (length ls)))
   | subs => Ok (mkPlan (task_Spec goal) (task_ID goal) subs)
   end, x2).
Proof.
  intros ER EI N F. unfold LLMPlan. rewrite ER, EI. unfold eol. rewrite Split_Join_clean.
  - rewrite parse_written by done. by rewrite length_map.
  - by destruct ls.
  - apply Forall_fmap. eapply Forall_impl; [exact F|]. apply line_has_no_nl.
Qed.
End ModelPlanner.

(** [NewPlannerFromEnv]; [seams] is whether a resolver and an invoker are given. *)
Inductive PlannerEnvErr := PlannerNeedsSeams | PlannerUnknown (choice : string).
Definition NewPlannerFromEnv (getenv : string -> string) (seams : bool) : result PlannerEnvErr bool :=
  let choice := TrimSpace (getenv "AGENT_BUILDER_PLANNER") in
  if String.eqb choice "" || String.eqb choice "structured" then Ok false
  else if String.eqb choice "llm" then if seams then Ok true else Err PlannerNeedsSeams
  else Err (PlannerUnknown choice).

(** ** Witnesses *)

Definition demo_plan : list PlanLine :=
  [PlNote "Here is the plan"; PlSub "coding-agent" "add a login page" "github.com/acme/app" "";
   PlSub "docs-fix" "touch the builder" "git@github.com:tkdtaylor/agent-builder.git" ""; PlNote "# done";
   PlSub "docs-fix" "describe it" "" "github.com/acme/site"].
Definition demo_subs : list SubGoal :=
  [mkSubGoal (mkTask "g-0" "" "add a login page" "") "coding-agent" "github.com/acme/app" "";
   mkSubGoal (mkTask "g-1" "" "describe it" "") "docs-fix" "" "github.com/acme/site"].
Definition demo_reply (e : RegistryEntry) (p : string) (x : ()) : result string string * () :=
  (Ok (Join eol (map plan_text demo_plan)), x).
Definition demo_recipes : list string := ["coding-agent"; "docs-fix"].

Lemma model_plan_is_read_back_witness :
  LLMPlan (fun s => s) demo_parse demo_resolve demo_reply demo_recipes demo_goal () =
  (Ok (mkPlan "Design the login flow" "g" demo_subs), ()).
Proof.
  refine (eq_trans (model_plan_is_read_back (fun s => s) demo_parse demo_resolve demo_reply demo_recipes demo_goal ()
    local_entry () () demo_plan eq_refl eq_refl _ _) _); [done| |reflexivity].
  repeat apply List.Forall_cons; try apply List.Forall_nil; cbn [line_written]; split_and?;
    lazymatch goal with
    | |- _ \/ _ ∈ _ => right; apply (bool_decide_unpack _); vm_compute; exact I
    | |- _ \/ _ \/ _ => first [right; left; vm_compute; reflexivity|right; right; vm_compute; auto]
    | |- _ \/ _ => first [left; reflexivity|right; vm_compute; reflexivity]
    | |- _ => vm_compute; reflexivity
    end.
Defined.

Lemma model_plan_is_admissible_witness :
  demo_subs <> [] /\ target_matches (fun s => s) demo_parse "" = false.
Proof.
  destruct (model_plan_is_admissible (fun s => s) demo_parse demo_resolve demo_reply demo_recipes demo_goal ()
    (mkPlan "Design the login flow" "g" demo_subs) () ltac:(vm_compute; reflexivity)) as (_ & _ & N & _ & T).
  split; [exact N|exact T].
Defined.
