(* ===== verification/Budget.v ===== *)
(** * The goal-level attempt budget ([runtocompletion.go])

    Every write the orchestrator makes to the run journal keeps the persisted
    attempt counter of a goal, so the bound of [RunToCompletion] holds across
    crashes and restarts, provided the journal's writes succeed. *)

From stdpp Require Import base gmap strings list relations.
From Stdlib Require Import ZArith Lia Ascii.
From S2P Require Import Prelude GoStrings Seams TaskSource Policy AuditTrail Containment Planner RunStore Loop Fleet Dispatch Stores DispatchProofs DispatchGate Orchestrator.

Local Open Scope Z_scope.

(** A journal that answers every call. *)
Record reliable_store {RS : Type} `{RunStoreLike RS} (ok : RS -> Prop) : Prop := {
  rel_load g s : ok s -> exists r, rs_Load g s = Ok r;
  rel_save t r s : ok s -> exists s', rs_Save t r s = (None, s') /\ ok s'
}.

Section Budget.
Context {X PS RS : Type} `{RunStoreLaws RS} `{PlanStoreLike PS}.
Context (uni : string -> string) (url_Parse : string -> option (string * string))
        (quote : string -> string) (o : @Orch X) (ok : RS -> Prop) (Hok : reliable_store ok).
Local Notation World := (@World X PS RS).
Local Notation thread_step := (thread_step uni url_Parse quote o).
Local Notation team_step := (team_step uni url_Parse quote o).
Local Notation run_schedule := (run_schedule uni url_Parse quote o).

Definition good (s : RS) : Prop := rs_wf s /\ ok s.

Definition attempt_of (g : string) (s : RS) : Z :=
  match rs_Load g s with Ok (Some r) => rr_Attempt r | _ => 0 end.

(** The journal stays usable and the counter of [g] does not change. *)
Definition keeps (g : string) (w w' : World) : Prop :=
  forall rs, w_runs w = Some rs -> good rs ->
    exists rs', w_runs w' = Some rs' /\ good rs' /\ attempt_of g rs' = attempt_of g rs.

#[local] Instance keeps_preorder g : PreOrder (keeps g).
Proof.
  split.
  - intros w rs E G. eauto.
  - intros w1 w2 w3 K1 K2 rs E G. destruct (K1 rs E G) as (rs2 & E2 & G2 & A2).
    destruct (K2 rs2 E2 G2) as (rs3 & E3 & G3 & A3). exists rs3. split; [done|]. split; [done | congruence].
Qed.

Lemma keeps_same g (w w' : World) : w_runs w' = w_runs w -> keeps g w w'.
Proof. intros E rs Er G. exists rs. split; [congruence | done]. Qed.

(** ** Operations that leave the journal alone *)

Lemma now_runs (w : World) : w_runs (now o w).2 = w_runs w.
Proof. unfold now. by destruct (o_clock o _). Qed.
Lemma set_state_runs g s (w : World) : w_runs (set_state o g s w) = w_runs w.
Proof. unfold set_state, now. by destruct (o_clock o _). Qed.
Lemma set_sub_goal_runs g p (w : World) : w_runs (set_sub_goal o g p w) = w_runs w.
Proof. unfold set_sub_goal, now. by destruct (o_clock o _). Qed.
Lemma report_runs m (w : World) : w_runs (report o m w).2 = w_runs w.
Proof. unfold report. by destruct (o_reporter o _ _). Qed.
Lemma plan_goal_runs t (w : World) : w_runs (plan_goal o t w).2 = w_runs w.
Proof. unfold plan_goal. by destruct (o_planner o _ _). Qed.
Lemma decide_runs r (w : World) : w_runs (decide_policy o r w).2 = w_runs w.
Proof. unfold decide_policy. by destruct (o_policy o _ _). Qed.
Lemma emit_runs ev (w : World) : w_runs (emitFleetEvent o ev w) = w_runs w.
Proof. unfold emitFleetEvent. destruct (o_auditSink o) as [a|]; [|done]. by destruct (a _ _). Qed.

Lemma replan_runs n i b l goal (w : World) :
  w_runs (replan_loop (spawn_replan o goal) n i b l w).2 = w_runs w.
Proof.
  revert i l w. induction n as [|n IH]; intros i l w; simpl; [done|].
  unfold spawn_replan at 1. pose proof (plan_goal_runs goal w) as E.
  destruct (plan_goal o goal w) as [[p|e] w1]; simpl in *; [|done].
  destruct (negb _); [done|]. by rewrite IH.
Qed.

Lemma reevaluate_runs goal b n sw (w : World) :
  w_runs (ReevaluateBlockedSpawn o goal b n (Some (lift_status_writer sw)) w).2 = w_runs w.
Proof.
  unfold ReevaluateBlockedSpawn, NewReevaluationPolicy. destruct (n <? 0); [done|].
  unfold ReevaluateBlocked. destruct (IsZero b); [done|]. simpl.
  pose proof (replan_runs (Z.to_nat n) 1 b [] goal w) as E.
  destruct (replan_loop _ _ _ _ _ w) as [[r|l] w1]; simpl in *; [done|].
  unfold lift_status_writer. destruct (sw _ _ (w_ext w1)) as [r x]. by destruct r.
Qed.

Lemma reevaluate_outcomes_runs plan n sw ocs (w : World) :
  w_runs (reevaluate_outcomes o plan n (lift_status_writer sw) ocs w).2 = w_runs w.
Proof.
  revert w. induction ocs as [|oc ocs IH]; intros w; simpl; [done|].
  destruct (so_Blocked oc) as [b|].
  - set (g := mkTask _ _ _ _). pose proof (reevaluate_runs g b n sw w) as E.
    destruct (ReevaluateBlockedSpawn o g b n _ w) as [[r|e] w1]; simpl in E.
    + specialize (IH w1). destruct (reevaluate_outcomes o plan n _ ocs w1) as [ocs' w2].
      simpl in *. congruence.
    + match goal with |- context [report o ?m w1] => pose proof (report_runs m w1) as E2;
        specialize (IH (report o m w1).2) end.
      destruct (reevaluate_outcomes o plan n _ ocs _) as [ocs' w2]. simpl in *. congruence.
  - specialize (IH w). by destruct (reevaluate_outcomes o plan n _ ocs w) as [ocs' w2].
Qed.

(** ** Operations that write it *)

Lemma save_load rs r (w : World) :
  w_runs w = Some rs -> good rs -> rr_Deleted r = false ->
  exists rs' c t, w_runs (save o rs r w).2 = Some rs' /\ good rs' /\
    forall g, rs_Load g rs' = if decide (g = rr_GoalID r) then Ok (Some (stamp r c t)) else rs_Load g rs.
Proof.
  intros Er [Gw Gok] Hd. unfold save. destruct (now o w) as [t w1].
  destruct (rel_save ok Hok t r rs Gok) as (rs' & Es & Gok'). rewrite Es.
  destruct (rs_save_lookup t r rs rs' Gw Es Hd) as [c Hl]. exists rs', c, t.
  split; [done|]. split; [split; [by eapply rs_save_wf | done] | done].
Qed.

Lemma keeps_save g rs r (w : World) :
  w_runs w = Some rs -> rr_Deleted r = false ->
  (good rs -> rr_GoalID r = g -> rr_Attempt r = attempt_of g rs) -> keeps g w (save o rs r w).2.
Proof.
  intros Er Hd Ha rs0 Er0 G. rewrite Er in Er0. simplify_eq.
  destruct (save_load rs0 r w Er G Hd) as (rs' & c & t & E' & G' & Hl).
  exists rs'. split; [done|]. split; [done|]. unfold attempt_of at 1. rewrite Hl.
  case_decide as Hg; [|done]. simpl. symmetry in Hg. by apply Ha.
Qed.

(** What a load answers has the key and the counter of the goal. *)
Lemma loaded_record g rs status r :
  rs_wf rs -> rs_Load g rs = Ok r ->
  let r := default (minimal_record g status) r in
  rr_GoalID r = g /\ rr_Deleted r = false /\ rr_Attempt r = attempt_of g rs.
Proof.
  intros Gw El. unfold attempt_of. rewrite El. destruct r as [r|]; simpl; [|done].
  destruct (rs_load_key g rs r Gw El). done.
Qed.

(** A read-modify-write of the record of [g'] that keeps key and counter. *)
Lemma keeps_update g g' rs r status (f : RunRecord -> RunRecord) (w : World) :
  w_runs w = Some rs -> rs_Load g' rs = Ok r ->
  (forall r, rr_GoalID (f r) = rr_GoalID r /\ rr_Deleted (f r) = rr_Deleted r /\ rr_Attempt (f r) = rr_Attempt r) ->
  keeps g w (save o rs (f (default (minimal_record g' status) r)) w).2.
Proof.
  intros Er El Hf rs0 Er0 G. rewrite Er in Er0. injection Er0 as <-. destruct G as [Gw Gok].
  destruct (loaded_record g' rs status r Gw El) as (K1 & K2 & K3).
  destruct (Hf (default (minimal_record g' status) r)) as (F1 & F2 & F3).
  refine (keeps_save g rs _ w Er _ _ rs Er (conj Gw Gok)); [congruence|].
  intros _ E. rewrite F3, K3. congruence.
Qed.

Lemma keeps_recordAttempt g g' t s d (w : World) : keeps g w (recordAttempt o g' t s d w).
Proof.
  unfold recordAttempt. destruct (w_runs w) as [rs|] eqn:Er; [|done].
  destruct (rs_Load g' rs) as [r|e] eqn:El; [|done].
  pose proof (now_runs w) as En. destruct (now o w) as [t1 w1]. simpl in En.
  etrans; [by apply (keeps_same g w w1)|].
  apply (keeps_update g g' rs r StatusRunning
    (fun r => set_attempts r (put_attempt t s d t1 (rr_Attempts r)))); [congruence | done | done].
Qed.

Lemma keeps_recordPending g g' t d (w : World) : keeps g w (recordPendingApproval o g' t d w).
Proof.
  unfold recordPendingApproval. destruct (w_runs w) as [rs|] eqn:Er; [|done].
  destruct (rs_Load g' rs) as [r|e] eqn:El; [|done].
  pose proof (now_runs w) as En. destruct (now o w) as [t1 w1]. simpl in En.
  etrans; [by apply (keeps_same g w w1)|].
  apply (keeps_update g g' rs r (StatusOther "") (fun r =>
    set_status (set_pending r (rr_Pending r ++ [mkPending t d t1 false])) StatusAwaitingApproval));
    [congruence | done | done].
Qed.

Lemma keeps_finalize g plan (w : World) : keeps g w (finalizeGoalStatus o plan w).
Proof.
  unfold finalizeGoalStatus. destruct (w_runs w) as [rs|] eqn:Er; [|done].
  destruct (rs_Load (pl_GoalID plan) rs) as [[r|]|] eqn:El; [|done..].
  destruct (bool_decide _); [done|]. destruct (_ && _); [|done].
  by apply (keeps_update g (pl_GoalID plan) rs (Some r) StatusRunning (fun r => set_status r StatusCompleted)).
Qed.

Lemma keeps_persist g plan (w : World) : keeps g w (persistPlanRecord quote o plan w).
Proof.
  unfold persistPlanRecord. destruct (w_runs w) as [rs|] eqn:Er; [|done].
  destruct (o_marshal o plan) as [j|e]; [|apply keeps_same, report_runs].
  set (r := mkRecord _ _ _ _ _ _ _ _ _ _).
  assert (K : keeps g w (save o rs r w).2).
  { apply keeps_save; [done | done |]. intros _ <-. done. }
  destruct (save o rs r w) as [[err|] w1]; simpl in *; [|done].
  etrans; [exact K|]. apply keeps_same, report_runs.
Qed.

(** ** Dispatch and planning *)

Lemma thread_step_keeps g plan sub c pc (w : World) pc' w' :
  thread_step plan sub c pc w = Some (pc', w') -> keeps g w w'.
Proof.
  destruct pc; simpl; intros E.
  - destruct (SelectRecipe _ _ _); by simplify_eq.
  - apply keeps_same. unfold decideSpawnWorker in E. repeat (destruct (_ : bool); [by simplify_eq|]).
    pose proof (decide_runs (worker_request o sub) w) as Er.
    destruct (decide_policy o _ w) as [d w1]. destruct d; by simplify_eq.
  - apply keeps_same. unfold emitFleetEventForDeny in E. destruct (o_auditSink o) as [a|].
    + destruct (a _ _) as [[e|] x]; repeat (case_match; simplify_eq/=); by simplify_eq.
    + destruct (is_allow d); by simplify_eq/=.
  - apply keeps_same. match type of E with context [report o ?m w] =>
      pose proof (report_runs m w) as Fr; destruct (report o m w) as [e w1] end. by simplify_eq.
  - simplify_eq. apply keeps_same, set_sub_goal_runs.
  - simplify_eq. apply keeps_recordAttempt.
  - apply keeps_same. repeat (case_match; simplify_eq/=); done.
  - apply keeps_same. repeat (case_match; simplify_eq/=); done.
  - apply keeps_same. destruct (o_dispatch o _ _ _) as [[hs e] x]. by simplify_eq.
  - destruct hooks as [|[t r] hs]; simplify_eq; [done | apply keeps_recordPending].
  - apply keeps_same. repeat (case_match; simplify_eq/=); done.
  - apply keeps_same. destruct paused; [|destruct requested; [|destruct err]]; injection E as <- <-;
      (reflexivity || apply set_sub_goal_runs).
  - simplify_eq. apply keeps_recordAttempt.
  - done.
Qed.

Lemma run_keeps g plan sched (st st' : @Team X PS RS) :
  run_schedule plan sched st = Some st' -> keeps g st.2 st'.2.
Proof.
  revert st. induction sched as [|t sched IH]; intros st; simpl; [by intros [= <-]|].
  destruct (team_step plan t st) as [st1|] eqn:E; [|done].
  intros R. etrans; [|exact (IH _ R)]. clear IH R. destruct st as [pcs w], t as [i c| | |]; simpl in E.
  - destruct (pcs !! i) as [[sub pc]|]; [|done].
    destruct (thread_step plan sub c pc w) as [[pc' w1]|] eqn:Et; simplify_eq. by eapply thread_step_keeps.
  - apply keeps_same. repeat (case_match; simplify_eq/=); done.
  - apply keeps_same. repeat (case_match; simplify_eq/=); done.
  - injection E as <-. by apply keeps_same.
Qed.

Lemma after_join_keeps g plan results (w : World) : keeps g w (after_join o plan results w).2.
Proof.
  unfold after_join. destruct (first_err _) as [e|]; [apply keeps_same, set_state_runs|].
  set (bound := if o_reevaluationBound o <=? 0 then o_MaxAttempts o else o_reevaluationBound o).
  assert (Hre : w_runs (match o_statusWriter o with
    | None => (results.*1, w)
    | Some sw => reevaluate_outcomes o plan bound (lift_status_writer sw) results.*1 w end).2 = w_runs w).
  { destruct (o_statusWriter o); [apply reevaluate_outcomes_runs | done]. }
  destruct (match o_statusWriter o with None => _ | Some _ => _ end) as [ocs w1]. simpl in Hre.
  set (w2 := finalizeGoalStatus o plan w1). set (ev := mkAuditEvent _ _ _ _ _ _).
  set (w3 := emitFleetEvent o ev w2).
  set (w4 := if w_cancelled w3 then w3 else set_state o (pl_GoalID plan) StateDone w3).
  assert (E4 : w_runs w4 = w_runs w3) by (unfold w4; destruct (w_cancelled w3); [done | apply set_state_runs]).
  pose proof (report_runs (RenderPlanResult (mkPlanResult (pl_Goal plan) ocs)) w4) as E5.
  destruct (report o _ w4) as [e w5]. simpl in *.
  etrans; [by apply (keeps_same g w w1)|]. etrans; [apply keeps_finalize|]. fold w2.
  apply keeps_same. rewrite E5, E4. apply emit_runs.
Qed.

Lemma dispatch_keeps g sched plan subs (w : World) r w' :
  dispatchSubGoals uni url_Parse quote o sched plan subs w = Some (r, w') -> keeps g w w'.
Proof.
  unfold dispatchSubGoals. intros E. destruct (run_schedule plan sched _) as [[pcs w1]|] eqn:Er; [|done].
  destruct (join pcs) as [results|]; [|done]. injection E as E.
  apply (run_keeps g) in Er. simpl in Er. pose proof (after_join_keeps g plan results w1) as K.
  rewrite E in K. simpl in K. etrans; [|exact K]. etrans; [|exact Er]. apply keeps_same, set_state_runs.
Qed.

Lemma pause_runs plan (w : World) : w_runs (pauseForApproval o plan w).2 = w_runs w.
Proof.
  unfold pauseForApproval.
  assert (Hput : w_runs (match ps_TamperAware with
    | Some (tryPut, _) => let '(e, ps) := tryPut plan (w_plans w) in (e, set_plans ps w)
    | None => (None, set_plans (ps_Put plan (w_plans w)) w) end).2 = w_runs w).
  { destruct ps_TamperAware as [[tp td]|]; [by destruct (tp plan (w_plans w)) | done]. }
  destruct (match ps_TamperAware with None => _ | Some _ => _ end) as [e w1]. simpl in Hput.
  destruct e as [e|]; [by rewrite <- Hput; apply set_state_runs|].
  set (w2 := set_state o _ _ w1). pose proof (report_runs
    (renderApprovalRequestWithInfo plan (PendingInfo (pl_GoalID plan) (w_reg w2))) w2) as Hr.
  pose proof (set_state_runs (pl_GoalID plan) StateAwaitingApproval w1) as Es. fold w2 in Es.
  destruct (report o _ w2) as [[err|] w3]; simpl in *; congruence.
Qed.

Lemma decided_keeps g plan sched d (w : World) r w' :
  match d with
  | PolicyAllow =>
    let w := persistPlanRecord quote o plan w in
    if o_requireApproval o then Some (pauseForApproval o plan w)
    else dispatchPlan uni url_Parse quote o sched plan w
  | PolicyRequireApproval => Some (pauseForApproval o plan w)
  | PolicyDeny =>
    let w := set_state o (pl_GoalID plan) StateFailed w in
    let '(e, w) := report o ("Plan denied for goal: " +:+ pl_Goal plan) w in
    match e with
    | Some err => Some ((empty_result, Some (OErrReport err)), w)
    | None => Some ((goal_only (pl_Goal plan), None), w)
    end
  end = Some (r, w') -> keeps g w w'.
Proof.
  destruct d; cbv zeta.
  - pose proof (keeps_persist g plan w) as K. set (w1 := persistPlanRecord quote o plan w) in *.
    destruct (o_requireApproval o).
    + pose proof (pause_runs plan w1) as Ep. destruct (pauseForApproval o plan w1) as [r1 w2].
      intros [= <- <-]. etrans; [exact K|]. by apply keeps_same.
    + intros D%(dispatch_keeps g). by etrans.
  - set (w1 := set_state o _ _ w). pose proof (set_state_runs (pl_GoalID plan) StateFailed w) as Es. fold w1 in Es.
    pose proof (report_runs ("Plan denied for goal: " +:+ pl_Goal plan) w1) as Er.
    destruct (report o _ w1) as [[e|] w2]; intros [= _ <-]; apply keeps_same; simpl in *; congruence.
  - pose proof (pause_runs plan w) as Ep. destruct (pauseForApproval o plan w) as [r1 w2].
    intros [= <- <-]. by apply keeps_same.
Qed.

Lemma handle_keeps g sched goal (w : World) r w' :
  Handle uni url_Parse quote o sched goal w = Some (r, w') -> keeps g w w'.
Proof.
  unfold Handle, ConfirmAndPlan. set (wi := intake o goal w).
  assert (Ei : w_runs wi = w_runs w) by apply emit_runs.
  set (w0 := set_state o _ _ wi). pose proof (set_state_runs (task_ID goal) StatePlanning wi) as E0. fold w0 in E0.
  pose proof (plan_goal_runs goal w0) as E1. destruct (plan_goal o goal w0) as [planned w1]. simpl in E1.
  assert (K1 : w_runs w1 = w_runs w) by congruence.
  assert (Kf : forall (w2 : World), w_runs w2 = w_runs w1 -> keeps g w (set_state o (task_ID goal) StateFailed w2)).
  { intros w2 E2. apply keeps_same. rewrite set_state_runs. congruence. }
  destruct planned as [plan|e]; [|intros [= _ <-]; by apply Kf].
  destruct (pl_SubGoals plan) as [|s0 ss]; [intros [= _ <-]; by apply Kf|].
  assert (E2 : w_runs (match o_scoper o with
    | None => (None, w1)
    | Some configure => let '(e, x) := configure plan (w_ext w1) in (e, set_ext x w1) end).2 = w_runs w1).
  { destruct (o_scoper o) as [c|]; [|done]. by destruct (c plan (w_ext w1)). }
  destruct (match o_scoper o with None => _ | Some _ => _ end) as [[err|] w2]; simpl in E2.
  { intros [= _ <-]. by apply Kf. }
  pose proof (decide_runs (request o SpawnAction "plan" (pl_GoalID plan) "" "") w2) as E3. unfold decideSpawn.
  destruct (decide_policy o _ w2) as [d w3]. simpl in E3.
  intros D%(decided_keeps g). etrans; [|exact D]. apply keeps_same. rewrite emit_runs. congruence.
Qed.

(** ** The loop *)

Definition journaled (w : World) : Prop := exists rs, w_runs w = Some rs /\ good rs.

Lemma keeps_count g (w w' : World) :
  keeps g w w' -> journaled w -> journaled w' /\ loadAttemptCount g w' = loadAttemptCount g w.
Proof.
  intros K (rs & E & G). destruct (K rs E G) as (rs' & E' & G' & A).
  split; [by exists rs'|]. unfold loadAttemptCount. by rewrite E, E'.
Qed.

(** Charging an attempt is read back. *)
Lemma save_count g n (w : World) :
  journaled w -> journaled (saveAttemptCount o g n w) /\ loadAttemptCount g (saveAttemptCount o g n w) = n.
Proof.
  intros (rs & E & G). unfold saveAttemptCount. rewrite E.
  assert (Hr : exists r, rs_Load g rs = Ok r) by (apply (rel_load ok Hok); apply G). destruct Hr as [r El].
  destruct (loaded_record g rs StatusRunning r (proj1 G) El) as (K1 & K2 & _). rewrite El.
  set (r1 := default (minimal_record g StatusRunning) r) in *.
  replace (match r with Some r0 => r0 | None => minimal_record g StatusRunning end) with r1 by (by destruct r).
  destruct (save_load rs (set_attempt r1 n) w E G) as (rs' & c & t & E' & G' & Hl); [done|].
  split; [by exists rs'|]. unfold loadAttemptCount. rewrite E', Hl. simpl.
  by rewrite decide_True by congruence.
Qed.

(** [n] goal-level attempts in a row, numbered from [a + 1]; each is charged to
    the journal and then handled. *)
Inductive rounds (scheds : Z -> list Turn) (g : string) : Z -> World -> nat -> World -> Prop :=
| rounds_nil a w : rounds scheds g a w 0 w
| rounds_cons a goal w r w1 n w2 :
    Handle uni url_Parse quote o (scheds (a + 1)) goal (saveAttemptCount o g (a + 1) w) = Some (r, w1) ->
    rounds scheds g (a + 1) w1 n w2 -> rounds scheds g a w (S n) w2.

(** Exhaustion is the loop's own error. *)
Definition not_exhausted (e : option OrchErr) : Prop := forall g k, e <> Some (OErrAttemptsExhausted g k).

Lemma dispatch_not_exhausted sched plan subs (w : World) res err w' :
  dispatchSubGoals uni url_Parse quote o sched plan subs w = Some ((res, err), w') -> not_exhausted err.
Proof.
  unfold dispatchSubGoals. destruct (run_schedule plan sched _) as [[pcs w1]|]; [|done].
  destruct (join pcs) as [results|]; [|done]. intros [= E]. revert E. unfold after_join.
  destruct (first_err _) as [e|]; [by intros [= _ <- _] g k|].
  destruct (match o_statusWriter o with None => _ | Some _ => _ end) as [ocs w2].
  destruct (report o _ _) as [[e|] w3]; by intros [= _ <- _] g k.
Qed.

Lemma pause_not_exhausted plan (w : World) : not_exhausted (pauseForApproval o plan w).1.2.
Proof.
  unfold pauseForApproval. destruct (match ps_TamperAware with None => _ | Some _ => _ end) as [[e|] w1]; [done|].
  by destruct (report o _ _) as [[e|] w2].
Qed.

Lemma handle_not_exhausted sched goal (w : World) res err w' :
  Handle uni url_Parse quote o sched goal w = Some ((res, err), w') -> not_exhausted err.
Proof.
  unfold Handle, ConfirmAndPlan. destruct (plan_goal o goal _) as [[plan|e] w1]; [|by intros [= _ <- _] g k].
  destruct (pl_SubGoals plan); [by intros [= _ <- _] g k|].
  destruct (match o_scoper o with None => _ | Some _ => _ end) as [[e|] w2]; [by intros [= _ <- _] g k|].
  destruct (decideSpawn o plan w2) as [d w3]. destruct d.
  - destruct (o_requireApproval o); [|apply dispatch_not_exhausted].
    match goal with |- Some (pauseForApproval o plan ?w4) = _ -> _ =>
      pose proof (pause_not_exhausted plan w4) as N; destruct (pauseForApproval o plan w4) as [[r e] w5] end.
    by intros [= _ <- _].
  - destruct (report o _ _) as [[e|] w4]; by intros [= _ <- _] g k.
  - match goal with |- Some (pauseForApproval o plan ?w4) = _ -> _ =>
      pose proof (pause_not_exhausted plan w4) as N; destruct (pauseForApproval o plan w4) as [[r e] w5] end.
    by intros [= _ <- _].
Qed.

Lemma completion_rounds todo scheds goal current a last (w : World) res err w' :
  completion_loop uni url_Parse quote o todo scheds goal current a last w = Some ((res, err), w') ->
  journaled w -> loadAttemptCount (task_ID goal) w = a ->
  exists n w1, rounds scheds (task_ID goal) a w n w1 /\ (n <= todo)%nat /\
    loadAttemptCount (task_ID goal) w' = a + Z.of_nat n /\
    (err = None -> HasTerminalFailure res = false) /\
    (forall g k, err = Some (OErrAttemptsExhausted g k) -> n = todo /\ k = a + Z.of_nat n).
Proof.
  revert current a last w. induction todo as [|todo IH]; intros current a last w E J C; simpl in E.
  - injection E as _ <- <-. exists 0%nat, w. split; [constructor|]. split; [done|].
    split; [|split; [done | intros g k [= _ <-]; split; [done | lia]]].
    destruct (keeps_count (task_ID goal) w (escalateExhausted quote o (task_ID goal) a w)) as [_ ->];
      [apply keeps_same, report_runs | done | lia].
  - set (w0 := saveAttemptCount o (task_ID goal) (a + 1) w) in E.
    destruct (save_count (task_ID goal) (a + 1) w J) as [J0 C0]. fold w0 in J0, C0.
    destruct (Handle uni url_Parse quote o (scheds (a + 1)) current w0) as [[[r e] w1]|] eqn:Eh; [|done].
    destruct (keeps_count (task_ID goal) w0 w1 (handle_keeps _ _ _ _ _ _ Eh) J0) as [J1 C1]. rewrite C0 in C1.
    assert (Hone : exists w2, rounds scheds (task_ID goal) a w 1 w2).
    { exists w1. eapply rounds_cons; [exact Eh | constructor]. }
    pose proof (handle_not_exhausted _ _ _ _ _ _ Eh) as N. destruct e as [e|].
    { injection E as <- <- <-. destruct Hone as [w2 R]. exists 1%nat, w2.
      split_and!; [done | lia | lia | done |]. intros g k [= ->]. by destruct (N g k). }
    destruct (HasTerminalFailure r) eqn:Ef; simpl in E.
    + destruct (IH _ _ _ _ E J1 C1) as (n & w2 & R & Hn & Hc & Hs & Hx).
      exists (S n), w2. split; [by eapply rounds_cons|]. split_and!; [lia | lia | done |].
      intros g k Hk. destruct (Hx g k Hk). lia.
    + injection E as <- <- <-. destruct Hone as [w2 R]. exists 1%nat, w2. split_and!; [done | lia | lia | done | done].
Qed.
End Budget.

(** C7. If a process dies at any point of the dispatch of goal attempt k and a new
    process runs RunToCompletion on the journal it left (whose writes succeed), the
    new run makes n further attempts with k + n at most max(k, maxAttempts), leaves
    the counter at k + n, reports success only for a result with no failed sub-goal,
    and reports exhaustion only when the budget is spent. *)
Theorem attempt_budget_survives_crashes {X PS RS : Type} `{RunStoreLaws RS} `{PlanStoreLike PS}
    uni url_Parse quote (o : @Orch X) (ok : RS -> Prop) goal maxAttempts
    (w wc : @World X PS RS) plan sched subs pcs wd scheds res err w' :
  reliable_store ok -> journaled ok w ->
  let g := task_ID goal in
  let k := loadAttemptCount g w + 1 in
  (* attempt [k] is charged, its plan persisted, and the process dies somewhere
     in its dispatch; a new process finds only the journal *)
  run_schedule uni url_Parse quote o plan sched
    (spawn subs, persistPlanRecord quote o plan (saveAttemptCount o g k w)) = Some (pcs, wd) ->
  w_runs wc = w_runs wd ->
  RunToCompletion uni url_Parse quote o scheds goal maxAttempts wc = Some ((res, err), w') ->
  exists n w1, rounds uni url_Parse quote o scheds g k wc n w1 /\
    k + Z.of_nat n <= Z.max k maxAttempts /\
    loadAttemptCount g w' = k + Z.of_nat n /\
    (err = None -> HasTerminalFailure res = false) /\
    (forall g' j, err = Some (OErrAttemptsExhausted g' j) -> j = Z.max k maxAttempts).
Proof.
  intros Hok J g k R Ew E.
  destruct (save_count o ok Hok g k w J) as [J0 C0].
  destruct (keeps_count ok g _ _ (keeps_persist quote o ok Hok g plan _) J0) as [J1 C1].
  apply (run_keeps uni url_Parse quote o ok Hok g) in R. simpl in R.
  destruct (keeps_count ok g _ _ R J1) as [J2 C2]. rewrite C1, C0 in C2.
  assert (Jc : journaled ok wc) by (destruct J2 as (rs & Er & Gr); exists rs; by rewrite Ew).
  assert (Cc : loadAttemptCount g wc = k) by (unfold loadAttemptCount in *; by rewrite Ew).
  unfold RunToCompletion in E. fold g in E. rewrite Cc in E.
  destruct (completion_rounds uni url_Parse quote o ok Hok _ _ _ _ _ _ _ _ _ _ E Jc Cc)
    as (n & w1 & Hr & Hn & Hc & Hs & Hx).
  exists n, w1. split_and!; [done | lia | done | done |].
  intros g' j Hj. destruct (Hx g' j Hj). lia.
Qed.

(** ** A concrete crash *)

Lemma demo_reliable : @reliable_store _ Demo.store Demo.faultless.
Proof.
  split.
  - intros g s _. by eexists.
  - intros t r [fs faults] Hf. unfold Demo.faultless in Hf. simpl in Hf. subst faults. by eexists.
Qed.

Local Notation crash_start := (saveAttemptCount (Demo.orch false false true) "g" 1 (Demo.world 1)).
Local Notation demo_plan := (mkPlan "build: it" "g" [Demo.sub "g-0" "build"]).

(** Attempt 1 is charged and its worker is running when the process dies; the
    journal it leaves behind. *)
Local Notation crashed :=
  (run_schedule (fun s => s) demo_parse (fun s => s) (Demo.orch false false true) demo_plan
     (replicate 8 (RunThread 0 false))
     (spawn [Demo.sub "g-0" "build"],
      persistPlanRecord (fun s => s) (Demo.orch false false true) demo_plan crash_start)).
Local Notation restarted :=
  (set_runs (match crashed with Some (_, wd) => w_runs wd | None => None end) (Demo.world 1)).

(** The third attempt re-plans the folded goal text, whose two added lines are
    sub-goals of their own; the policy denies them. *)
Definition demo_scheds (attempt : Z) : list Turn :=
  if attempt =? 2 then Demo.alone
  else Demo.alone ++ replicate 4 (RunThread 1 false) ++ replicate 4 (RunThread 2 false).

(** Of three attempts two are left: both fail and the goal is escalated. *)
Lemma attempt_budget_survives_crashes_witness :
  match RunToCompletion (fun s => s) demo_parse (fun s => s) (Demo.orch false false true) demo_scheds
          Demo.goal 3 restarted with
  | Some ((_, err), w') => loadAttemptCount "g" w' = 3 /\
      match err with Some (OErrAttemptsExhausted _ j) => j = 3 | _ => False end
  | None => False
  end.
Proof.
  assert (C : match RunToCompletion (fun s => s) demo_parse (fun s => s) (Demo.orch false false true)
                demo_scheds Demo.goal 3 restarted with
              | Some ((_, Some (OErrAttemptsExhausted _ _)), w') => loadAttemptCount "g" w' =? 3
              | _ => false end = true) by (vm_compute; reflexivity).
  assert (C2 : match crashed with Some _ => true | None => false end = true) by (vm_compute; reflexivity).
  destruct (RunToCompletion (fun s => s) demo_parse (fun s => s) (Demo.orch false false true)
    demo_scheds Demo.goal 3 restarted) as [[[res err] w']|] eqn:E; [|discriminate].
  destruct crashed as [[pcs wd]|] eqn:R; [|discriminate].
  assert (J : journaled Demo.faultless (Demo.world 1)).
  { eexists. split; [reflexivity|]. split; [|reflexivity]. intros g r Hr. discriminate. }
  destruct (attempt_budget_survives_crashes _ _ _ _ Demo.faultless Demo.goal 3 (Demo.world 1)
    (set_runs (w_runs wd) (Demo.world 1)) _ _ _ _ _ _ _ _ _
    demo_reliable J R eq_refl E) as (n & w1 & _ & _ & _ & _ & Hx).
  destruct err as [e|]; [|discriminate]. destruct e; try discriminate.
  split; [by apply Z.eqb_eq|]. exact (Hx _ _ eq_refl).
Defined.
