(* ===== verification/Toolset.v ===== *)
(** * The tool set of the local executor ([executor/ollamatoolset/toolset.go])

    Five tools a model may call: write, read and list inside the worktree, run an
    allowed command there, and record the branch. The file tree is the model of
    [OSFiles]; running a command, the environment and the JSON decoders are
    parameters. The world keeps, besides the tree, a log of every command run. *)

From stdpp Require Import base gmap strings list.
From Stdlib Require Import ZArith Lia Ascii.
From S2P Require Import Prelude GoStrings Encoding Paths OSFiles.

Record ToolSet := mkToolSet { ts_worktree : string; ts_worktreeAbs : string }.

Inductive ToolErr :=
| TErrParse (tool : string)
| TErrAbsolute (path : string)
| TErrSymlink (path : string)
| TErrParentSymlink (dir : string)
| TErrOutside (path : string)
| TErrMkdir (e : FsErr)
| TErrResolve (e : FsErr)
| TErrEscaped (parent : string)
| TErrWrite (e : FsErr)
| TErrRead (e : FsErr)
| TErrNotAllowed (command : string)
| TErrArgument (arg : string)
| TErrCommand (err output : string)
| TErrBranch (e : FsErr)
| TErrUnknown (tool : string).

(** A subprocess: environment [None] is the inherited one. *)
Record Command := mkCommand {
  cm_Name : string; cm_Args : list string; cm_Dir : string; cm_Env : option (list string) }.

Record TW (X : Type) := mkTW { tw_fs : Tree; tw_x : X; tw_ran : list Command }.
Arguments mkTW {X}.
Arguments tw_fs {X}.
Arguments tw_x {X}.
Arguments tw_ran {X}.

(** What the tool set calls: permissions, the fate of the next write, the
    environment, processes, and the decoders of the tools' arguments. *)
Record Host (X : Type) := mkHost {
  ho_readable : list string -> bool;
  ho_writable : list string -> bool;
  ho_fault : X -> option nat;
  ho_getenv : string -> string;
  ho_exec : Command -> Tree * X -> (string * option string) * (Tree * X);
  ho_write_args : string -> option (string * string);
  ho_path_args : string -> option string;
  ho_command_args : string -> option (string * list string);
  ho_branch_args : string -> option string }.
Arguments mkHost {X}.
Arguments ho_readable {X}.
Arguments ho_writable {X}.
Arguments ho_fault {X}.
Arguments ho_getenv {X}.
Arguments ho_exec {X}.
Arguments ho_write_args {X}.
Arguments ho_path_args {X}.
Arguments ho_command_args {X}.
Arguments ho_branch_args {X}.

(** [NewToolSet]; [cwd] is the working directory [filepath.Abs] joins to. *)
Definition NewToolSet (cwd worktree : string) (fs : Tree) : option ToolSet :=
  let abs := if IsAbs worktree then Clean worktree else PathJoin cwd worktree in
  match Stat abs fs with
  | None => None
  | Some _ => Some (mkToolSet worktree abs)
  end.

Section Toolset.
Variable s : ToolSet.

(** [isPathConfined]. *)
Definition isPathConfined (resolvedPath : string) : bool :=
  HasPrefix resolvedPath (ts_worktreeAbs s +:+ "/") || String.eqb resolvedPath (ts_worktreeAbs s).

(** [checkPathConfinement]. *)
Definition checkPathConfinement (path : string) (fs : Tree) : result ToolErr string :=
  if IsAbs path then Err (TErrAbsolute path)
  else
    let abs := PathJoin (ts_worktreeAbs s) path in
    if is_symlink (Lstat abs fs) then Err (TErrSymlink path)
    else
      let dir := PathDir abs in
      if is_symlink (Lstat dir fs) then Err (TErrParentSymlink dir)
      else
        let realParent := match Stat dir fs with
                          | None => dir
                          | Some _ => match EvalSymlinks dir fs with Ok resolved => resolved | Err _ => dir end
                          end in
        if isPathConfined (Clean realParent) then Ok abs else Err (TErrOutside path).

(** [AllowedCommands], [isAllowedCommand]. *)
Definition AllowedCommands : list string := ["git"; "go"; "gofmt"; "golangci-lint"].
Definition isAllowedCommand (cmd : string) : bool := bool_decide (cmd ∈ AllowedCommands).

(** [checkCommandArgs]: the first refused argument. *)
Definition refused_arg (cmd arg : string) : bool :=
  if String.eqb cmd "git"
  then String.eqb arg "-C" || HasPrefix arg "-C=" || String.eqb arg "-c" || HasPrefix arg "-c=" ||
       HasPrefix arg "--exec-path"
  else if String.eqb cmd "go" then String.eqb arg "-C" || HasPrefix arg "-C="
  else false.
Fixpoint checkCommandArgs (cmd : string) (args : list string) : option ToolErr :=
  match args with
  | [] => None
  | arg :: args => if refused_arg cmd arg then Some (TErrArgument arg) else checkCommandArgs cmd args
  end.

(** [minimalEnv]. *)
Definition env_if_set (getenv : string -> string) (name : string) : list string :=
  if String.eqb (getenv name) "" then [] else [name +:+ "=" +:+ getenv name].
Definition minimalEnv (getenv : string -> string) : list string :=
  ["PATH=" +:+ getenv "PATH"] ++ env_if_set getenv "HOME" ++ env_if_set getenv "GOCACHE" ++
  env_if_set getenv "GOPATH" ++ ["GIT_CONFIG_NOSYSTEM=1"; "GIT_CONFIG_GLOBAL=/dev/null"].

(** [json.Marshal] of the names. *)
Definition marshal_names (names : list string) : string := "[" +:+ Join "," (map json_string names) +:+ "]".

Context {X : Type}.
Variable h : Host X.
Local Notation W := (TW X).
Local Notation set_fs w fs := (mkTW fs (tw_x w) (tw_ran w)).

Definition writeFile (argsJSON : string) (w : W) : result ToolErr string * W :=
  match ho_write_args h argsJSON with
  | None => (Err (TErrParse "write_file"), w)
  | Some (path, content) =>
    match checkPathConfinement path (tw_fs w) with
    | Err e => (Err e, w)
    | Ok finalPath =>
      let dir := PathDir finalPath in
      let '(err, fs) := MkdirAll (ho_writable h) dir (tw_fs w) in
      let w := set_fs w fs in
      match err with
      | Some e => (Err (TErrMkdir e), w)
      | None =>
        match EvalSymlinks dir fs with
        | Err e => (Err (TErrResolve e), w)
        | Ok realParent =>
          if negb (isPathConfined realParent) then (Err (TErrEscaped realParent), w)
          else
            let '(err, fs) := WriteFile (ho_writable h) finalPath content (ho_fault h (tw_x w)) fs in
            let w := set_fs w fs in
            match err with
            | Some e => (Err (TErrWrite e), w)
            | None => (Ok ("wrote file " +:+ path), w)
            end
        end
      end
    end
  end.

Definition readFile (argsJSON : string) (w : W) : result ToolErr string :=
  match ho_path_args h argsJSON with
  | None => Err (TErrParse "read_file")
  | Some path =>
    match checkPathConfinement path (tw_fs w) with
    | Err e => Err e
    | Ok finalPath =>
      match ReadFile (ho_readable h) finalPath (tw_fs w) with
      | Err e => Err (TErrRead e)
      | Ok content => Ok content
      end
    end
  end.

Definition listDir (argsJSON : string) (w : W) : result ToolErr string :=
  match ho_path_args h argsJSON with
  | None => Err (TErrParse "list_dir")
  | Some path =>
    match checkPathConfinement path (tw_fs w) with
    | Err e => Err e
    | Ok finalPath =>
      match ReadDir (ho_readable h) finalPath (tw_fs w) with
      | Err e => Err (TErrRead e)
      | Ok names => Ok (marshal_names names)
      end
    end
  end.

(** A subprocess, entered in the log. *)
Definition exec_command (c : Command) (w : W) : (string * option string) * W :=
  let '(r, (fs, x)) := ho_exec h c (tw_fs w, tw_x w) in (r, mkTW fs x (tw_ran w ++ [c])).

Definition runCommand (argsJSON : string) (w : W) : result ToolErr string * W :=
  match ho_command_args h argsJSON with
  | None => (Err (TErrParse "run_command"), w)
  | Some (command, args) =>
    if negb (isAllowedCommand command) then (Err (TErrNotAllowed command), w)
    else match checkCommandArgs command args with
    | Some e => (Err e, w)
    | None =>
      let '((output, err), w) :=
        exec_command (mkCommand command args (ts_worktreeAbs s) (Some (minimalEnv (ho_getenv h)))) w in
      match err with
      | Some e => (Err (TErrCommand e output), w)
      | None => (Ok output, w)
      end
    end
  end.

Definition branchFile : string := PathJoin (ts_worktreeAbs s) ".agent-branch".

Definition finishBranch (argsJSON : string) (w : W) : result ToolErr string * W :=
  match ho_branch_args h argsJSON with
  | None => (Err (TErrParse "finish_branch"), w)
  | Some branch =>
    let '(err, fs) := WriteFile (ho_writable h) branchFile (TrimSpace branch) (ho_fault h (tw_x w)) (tw_fs w) in
    let w := set_fs w fs in
    match err with
    | Some e => (Err (TErrBranch e), w)
    | None => (Ok ("recorded branch: " +:+ branch), w)
    end
  end.

Definition ExtractBranch (w : W) : option string :=
  match ReadFile (ho_readable h) branchFile (tw_fs w) with
  | Err _ => None
  | Ok content => Some (TrimSpace content)
  end.

(** [Dispatch]. *)
Definition Dispatch (toolName argsJSON : string) (w : W) : result ToolErr string * W :=
  if String.eqb toolName "write_file" then writeFile argsJSON w
  else if String.eqb toolName "read_file" then (readFile argsJSON w, w)
  else if String.eqb toolName "list_dir" then (listDir argsJSON w, w)
  else if String.eqb toolName "run_command" then runCommand argsJSON w
  else if String.eqb toolName "finish_branch" then finishBranch argsJSON w
  else (Err (TErrUnknown toolName), w).
End Toolset.

(** ** Confinement *)

Lemma abs_path_inj l l' : names_ok l -> names_ok l' -> abs_path l = abs_path l' -> l = l'.
Proof. intros H H' E. rewrite <- (segs_abs l), <- (segs_abs l') by done. by rewrite E. Qed.

Lemma str_prefix_weaken p t u : String.prefix p t = true -> String.prefix p (t +:+ u) = true.
Proof. intros ->%prefix_app. rewrite str_app_assoc. apply prefix_of_app. Qed.

Section Confinement.
Variables (s : ToolSet) (root : list string).
Hypothesis Hroot : ts_worktreeAbs s = abs_path root.
Hypothesis Hnames : names_ok root.

Lemma confined_prefix d : root <> [] -> names_ok d -> isPathConfined s (abs_path d) = true -> root `prefix_of` d.
Proof.
  intros Hr Hd. unfold isPathConfined. rewrite Hroot. intros [H|H]%orb_true_iff.
  - unfold HasPrefix, abs_path in H. rewrite str_app_assoc in H. apply str_prefix_cons in H as [_ H].
    destruct (decide (d = [])) as [->|Hn].
    + exfalso. revert H. by destruct (Join "/" root).
    + apply (prefix_Join root d ""); [by apply names_no_slash..|done|done|]. by apply str_prefix_weaken.
  - to_prop. apply abs_path_inj in H as ->; done.
Qed.

Lemma prefix_confined d : names_ok d -> root `prefix_of` d -> root <> [] -> isPathConfined s (abs_path d) = true.
Proof.
  intros Hd [r ->] Hr. unfold isPathConfined. rewrite Hroot. apply orb_true_iff.
  destruct (decide (r = [])) as [->|Hn]; [right; rewrite app_nil_r; by apply String.eqb_eq|]. left.
  clear Hd. revert Hn. induction r as [|x r IH] using rev_ind; intros Hn; [done|]. rewrite app_assoc, abs_snoc.
  rewrite decide_False by (by destruct root). destruct (decide (r = [])) as [->|Hr']; [|by do 2 apply str_prefix_weaken; apply IH].
  rewrite app_nil_r. apply prefix_of_app.
Qed.

(** What a check that passed says, and what makes it pass: the parent, if it is there,
    lies in the worktree, and the last segment is no link. *)
Lemma check_spec path fs p :
  root <> [] -> checkPathConfinement s path fs = Ok p ->
  exists l x, p = abs_path (l ++ [x]) /\ p = PathJoin (ts_worktreeAbs s) path /\ names_ok l /\ name_ok x = true /\
    forall d, walk kernel_links fs true [] l = WFound d -> is_dir fs d = true ->
      root `prefix_of` d /\ names_ok d /\ (forall t, fs !! (d ++ [x]) <> Some (NLink t)) /\
      is_symlink (Lstat (abs_path l) fs) = false.
Proof.
  intros Hr. unfold checkPathConfinement. destruct (IsAbs path); [done|]. rewrite Hroot, PathJoin_abs by done.
  pose proof (joined_names root path Hnames) as Hj. set (l0 := clean_segs _ _ _) in *. clearbody l0.
  destruct (is_symlink (Lstat (abs_path l0) fs)) eqn:E1; [done|].
  destruct (is_symlink (Lstat (PathDir (abs_path l0)) fs)) eqn:E2; [done|].
  destruct (isPathConfined s _) eqn:E3; [|done]. intros [= <-].
  destruct l0 as [|x l _] using rev_ind.
  { exfalso. revert E3. change (PathDir (abs_path [])) with (abs_path []). unfold Stat, EvalSymlinks. rewrite !resolve_abs by done.
    rewrite !walk_nil, Clean_abs by done. intros E3. apply confined_prefix in E3; [|done..]. by apply prefix_nil_inv in E3. }
  apply Forall_app in Hj as Hl. destruct Hl as [Hl [Hx _]%Forall_cons]. rewrite PathDir_abs in * by done.
  exists l, x. split_and!; [done..|]. intros d Hd Hdir.
  assert (Hdn : names_ok d).
  { pose proof (walk_names fs true kernel_links [] l) as Hw. rewrite Hd in Hw. apply Hw; [done | by apply names_no_slash]. }
  split_and!; [|done | |done].
  - unfold Stat, EvalSymlinks in E3. rewrite !resolve_abs in E3 by done.
    rewrite (walk_more_links fs true kernel_links [] l eval_links), Hd in E3 by (rewrite ?Hd; done || apply links_le).
    rewrite Clean_abs in E3 by done. by apply confined_prefix.
  - intros t Ht. unfold Lstat in E1. rewrite resolve_abs in E1 by done.
    destruct (walk_last kernel_links fs l x Hx) as [r Hw]. rewrite (Hw false), Hd, Hdir, Ht in E1. simpl in E1.
    unfold node_at in E1. rewrite is_dir_snoc, Ht in E1. done.
Qed.

(** A checked path leads into the worktree, and past no link at its end. *)
Lemma checked_target path fs p :
  checkPathConfinement s path fs = Ok p ->
  match resolve kernel_links true p fs with WFound q | WMissing q => root `prefix_of` q | WFail _ => True end.
Proof.
  intros E. destruct (decide (root = [])) as [->|Hr].
  { destruct (resolve _ _ _ _); [apply prefix_nil..|done]. }
  destruct (check_spec path fs p Hr E) as (l & x & -> & _ & Hl & Hx & H).
  rewrite resolve_abs by (apply Forall_app; split; [done|by repeat constructor]).
  destruct (walk_last kernel_links fs l x Hx) as [r Hw]. rewrite (Hw true).
  destruct (walk kernel_links fs true [] l) as [d| |]; [|done..]. destruct (is_dir fs d) eqn:Ed; [|done]. simpl.
  destruct (H d eq_refl Ed) as (Hp & _ & Hn & _). destruct (fs !! (d ++ [x])) as [[| |t]|] eqn:En; try by apply prefix_app_r.
  by destruct (Hn t).
Qed.
End Confinement.

Section Tools.
Context {X : Type}.
Variables (h : Host X) (s : ToolSet) (root : list string).
Hypothesis Hroot : ts_worktreeAbs s = abs_path root.
Hypothesis Hnames : names_ok root.
Local Notation W := (TW X).

Lemma node_at_file fs p c : node_at fs p = NFile c -> fs !! p = Some (NFile c).
Proof. unfold node_at. destruct (is_dir fs p); [done|]. by destruct (fs !! p); simpl; [intros ->|]. Qed.

Lemma readFile_inside args (w : W) content :
  readFile s h args w = Ok content -> exists rel, tw_fs w !! (root ++ rel) = Some (NFile content).
Proof.
  unfold readFile. destruct (ho_path_args h args) as [path|]; [|done].
  destruct (checkPathConfinement s path (tw_fs w)) as [p|] eqn:Ec; [|done].
  apply (checked_target s root Hroot Hnames) in Ec. unfold ReadFile.
  destruct (resolve kernel_links true p (tw_fs w)) as [q| |]; [|done..]. destruct Ec as [rel ->].
  destruct (node_at (tw_fs w) (root ++ rel)) as [|c|] eqn:En; [done| |done]. apply node_at_file in En.
  destruct (ho_readable h _); [|done]. intros [= <-]. by exists rel.
Qed.

Lemma listDir_inside args (w : W) out :
  listDir s h args w = Ok out ->
  exists rel, is_dir (tw_fs w) (root ++ rel) = true /\ out = marshal_names (children (tw_fs w) (root ++ rel)).
Proof.
  unfold listDir. destruct (ho_path_args h args) as [path|]; [|done].
  destruct (checkPathConfinement s path (tw_fs w)) as [p|] eqn:Ec; [|done].
  apply (checked_target s root Hroot Hnames) in Ec. unfold ReadDir.
  destruct (resolve kernel_links true p (tw_fs w)) as [q| |]; [|done..]. destruct Ec as [rel ->].
  destruct (is_dir (tw_fs w) (root ++ rel)) eqn:Ed; [|done]. simpl. destruct (ho_readable h _); [|done].
  intros [= <-]. by exists rel.
Qed.

(** A tree after a write of one file in the worktree: new directories, and at one
    place a file, where there was a file or nothing. *)
Definition written (fs fs' : Tree) : Prop :=
  forall q, fs' !! q = fs !! q \/ fs !! q = None /\ fs' !! q = Some NDir \/
    root `prefix_of` q /\ exists c, fs' !! q = Some (NFile c) /\ match fs !! q with Some (NFile _) | None => True | _ => False end.

Lemma grown_written fs fs' : grown fs fs' -> written fs fs'.
Proof. intros H q. destruct (H q) as [?|?]; [by left | by right; left]. Qed.

(** The steps of [writeFile] after the check. *)
Lemma WriteFile_inside fs fs1 l x d content fault err fs2 :
  tree_ok fs1 -> grown fs fs1 -> names_ok l -> name_ok x = true -> walk kernel_links fs1 true [] l = WFound d -> is_dir fs1 d = true ->
  root `prefix_of` d -> (forall t, fs1 !! (d ++ [x]) <> Some (NLink t)) ->
  WriteFile (ho_writable h) (abs_path (l ++ [x])) content fault fs1 = (err, fs2) ->
  tree_ok fs2 /\ written fs fs2 /\ extends fs1 fs2 /\ (err = None -> fs2 !! (d ++ [x]) = Some (NFile content)).
Proof.
  intros Ht Hg Hl Hx Hd Hdir Hp Hn. unfold WriteFile.
  rewrite resolve_abs by (apply Forall_app; split; [done|by repeat constructor]).
  destruct (walk_last kernel_links fs1 l x Hx) as [r Hw]. rewrite (Hw true), Hd, Hdir. simpl negb.
  assert (Hstop : forall e, (Some e, fs1) = (err, fs2) ->
    tree_ok fs2 /\ written fs fs2 /\ extends fs1 fs2 /\ (err = None -> fs2 !! (d ++ [x]) = Some (NFile content)))
    by (intros e [= <- <-]; split_and!; [done | by apply grown_written | done | done]).
  assert (Hput : match fs1 !! (d ++ [x]) with Some (NFile _) | None => True | _ => False end ->
    write_at (ho_writable h) (d ++ [x]) content fault fs1 = (err, fs2) ->
    tree_ok fs2 /\ written fs fs2 /\ extends fs1 fs2 /\ (err = None -> fs2 !! (d ++ [x]) = Some (NFile content))).
  { intros Hf. unfold write_at. destruct (ho_writable h (d ++ [x])); [|by apply Hstop].
    intros E. assert (E' : exists c, fs2 = <[d ++ [x] := NFile c]> fs1 /\ (err = None -> c = content))
      by (destruct fault; injection E as <- <-; eexists; split; done). destruct E' as (c & -> & Hc).
    split_and!.
    - apply tree_ok_insert; [done..|]. by destruct (fs1 !! (d ++ [x])) as [[| |]|].
    - intros q. destruct (decide (d ++ [x] = q)) as [<-|Hq]; [|rewrite lookup_insert_ne by done; by apply grown_written].
      right; right. split; [by apply prefix_app_r|]. exists c. rewrite lookup_insert_eq. split; [done|].
      destruct (Hg (d ++ [x])) as [<-|[-> _]]; [done|done].
    - apply extends_insert. by destruct (fs1 !! (d ++ [x])) as [[| |]|].
    - intros He. by rewrite lookup_insert_eq, Hc. }
  destruct (fs1 !! (d ++ [x])) as [[|c|t]|] eqn:En; [| | by destruct (Hn t) |by apply Hput].
  - unfold node_at. rewrite is_dir_snoc, En. apply Hstop.
  - unfold node_at. rewrite is_dir_snoc, En. by apply Hput.
Qed.

(** What is known where [writeFile] gets to [WriteFile]. *)
Lemma made_parent path fs fs1 err l x :
  tree_ok fs -> root <> [] -> checkPathConfinement s path fs = Ok (abs_path (l ++ [x])) -> names_ok l -> name_ok x = true ->
  MkdirAll (ho_writable h) (abs_path l) fs = (err, fs1) ->
  tree_ok fs1 /\ grown fs fs1 /\
  (err = None -> exists d, walk kernel_links fs1 true [] l = WFound d /\ is_dir fs1 d = true /\ names_ok d /\
     EvalSymlinks (abs_path l) fs1 = Ok (abs_path d) /\ (forall t, fs1 !! (d ++ [x]) <> Some (NLink t)) /\
     is_symlink (Lstat (abs_path l) fs1) = false).
Proof.
  intros Ht Hr Hc Hl Hx Em. unfold MkdirAll in Em. rewrite segs_abs in Em by done.
  apply mkdir_all_spec in Em as (T1 & G1 & D1); [|done..]. split_and!; [done..|]. intros He.
  destruct (D1 He) as (d & Hd & Hdir & Hnew). exists d.
  assert (Hdn : names_ok d).
  { pose proof (walk_names fs1 true kernel_links [] l) as Hw. rewrite Hd in Hw. apply Hw; [done | by apply names_no_slash]. }
  split_and!; [done..| | |].
  - unfold EvalSymlinks. rewrite resolve_abs by done.
    by rewrite (walk_more_links fs1 true kernel_links [] l eval_links), Hd by (rewrite ?Hd; done || apply links_le).
  - intros t Hn. destruct (check_spec s root Hroot Hnames path fs _ Hr Hc) as (l' & x' & El & _ & Hl' & Hx' & H).
    apply abs_path_inj in El; [|by apply Forall_app; split; [|repeat constructor]..]. apply app_inj_tail in El as [<- <-].
    destruct Hnew as [->|[Hnew _]]; [by eapply (proj1 (proj2 (proj2 (H d Hd Hdir))))|].
    destruct (G1 (d ++ [x])) as [E|[_ E]]; [|congruence]. rewrite Hn in E. symmetry in E.
    apply Ht in E as (d' & y & Ey & Hd' & _). apply app_inj_tail in Ey as [-> _]. congruence.
  - destruct (check_spec s root Hroot Hnames path fs _ Hr Hc) as (l' & x' & El & _ & Hl' & Hx' & H).
    apply abs_path_inj in El; [|by apply Forall_app; split; [|repeat constructor]..]. apply app_inj_tail in El as [<- <-].
    destruct Hnew as [->|[_ Hnew]]; [by eapply (H d Hd Hdir)|].
    unfold Lstat. rewrite resolve_abs, Hnew by done. unfold node_at. by rewrite Hdir.
Qed.

(** What [writeFile] leaves behind; where the file is, if it succeeds. *)
Definition wrote (args : string) (w : W) (r : result ToolErr string) (w' : W) : Prop :=
  tw_ran w' = tw_ran w /\ tree_ok (tw_fs w') /\ written (tw_fs w) (tw_fs w') /\
  (forall msg, r = Ok msg -> exists path content l x d,
     ho_write_args h args = Some (path, content) /\ IsAbs path = false /\ PathJoin (ts_worktreeAbs s) path = abs_path (l ++ [x]) /\
     names_ok l /\ name_ok x = true /\ root `prefix_of` d /\ names_ok d /\
     walk kernel_links (tw_fs w') true [] l = WFound d /\ is_dir (tw_fs w') d = true /\
     is_symlink (Lstat (abs_path l) (tw_fs w')) = false /\ tw_fs w' !! (d ++ [x]) = Some (NFile content)).

(** That a path ends at no link survives a change of files. *)
Lemma Lstat_extends fs fs' l d :
  extends fs fs' -> names_ok l -> walk kernel_links fs true [] l = WFound d ->
  is_symlink (Lstat (abs_path l) fs) = false -> is_symlink (Lstat (abs_path l) fs') = false.
Proof.
  intros He Hl Hd. unfold Lstat. rewrite !resolve_abs by done. destruct l as [|y l _] using rev_ind; [by rewrite !walk_nil|].
  apply Forall_app in Hl as [Hl [Hy _]%Forall_cons]. destruct (walk_last kernel_links fs l y Hy) as [r1 H1].
  rewrite (H1 true) in Hd. rewrite (H1 false). destruct (walk kernel_links fs true [] l) as [d1| |] eqn:Ed1; [|done..].
  destruct (walk_last kernel_links fs' l y Hy) as [r2 H2]. rewrite (H2 false), (walk_extends _ _ _ _ _ _ _ He Ed1).
  destruct (is_dir fs d1) eqn:Edd; [|done]. rewrite (extends_is_dir _ _ _ He Edd). simpl negb in *. cbv iota in *.
  destruct (fs !! (d1 ++ [y])) as [n|] eqn:En; [|done]. apply He in En as Hx2. destruct Hx2 as (n' & E2 & K). rewrite E2.
  destruct n, n'; simpl in K; try done; unfold node_at; rewrite !is_dir_snoc, En, E2; done.
Qed.

Lemma writeFile_spec args (w : W) r w' :
  tree_ok (tw_fs w) -> root <> [] -> writeFile s h args w = (r, w') -> wrote args w r w'.
Proof.
  intros Ht Hr. unfold writeFile.
  assert (Hstop : forall e fs1, tree_ok fs1 -> grown (tw_fs w) fs1 -> (Err e, mkTW fs1 (tw_x w) (tw_ran w)) = (r, w') ->
    wrote args w r w').
  { intros e fs1 ? ? [= <- <-]. split_and!; try done. by apply grown_written. }
  assert (Hstop0 : forall e, (Err e, w) = (r, w') -> wrote args w r w') by (intros e; destruct w; apply Hstop; [done | by left]).
  destruct (ho_write_args h args) as [[path content]|] eqn:Earg; [|apply Hstop0].
  destruct (checkPathConfinement s path (tw_fs w)) as [p|e] eqn:Ec; [|apply Hstop0].
  assert (Ha : IsAbs path = false) by (unfold checkPathConfinement in Ec; by destruct (IsAbs path)).
  destruct (check_spec s root Hroot Hnames path _ p Hr Ec) as (l & x & -> & Ej & Hl & Hx & _).
  rewrite PathDir_abs by done. destruct (MkdirAll _ _ _) as [err fs1] eqn:Em.
  destruct (made_parent path _ fs1 err l x Ht Hr Ec Hl Hx Em) as (T1 & G1 & D1).
  destruct err as [e|]; [by apply Hstop|].
  destruct (D1 eq_refl) as (d & Hd & Hdir & Hdn & -> & Hn & Hs).
  destruct (isPathConfined s (abs_path d)) eqn:Ep; simpl; [|by apply Hstop].
  apply (confined_prefix s root Hroot Hnames) in Ep; [|done..].
  destruct (WriteFile _ _ _ _ _) as [err fs2] eqn:Ew.
  eapply WriteFile_inside in Ew as (T2 & W2 & X2 & D2); [|done..].
  destruct err as [e|]; intros [= <- <-]; (split; [reflexivity|]; split; [exact T2|]; split; [exact W2|]); [by intros ?|]. intros msg _.
  exists path, content, l, x, d. do 7 (split; [done|]).
  split; [by eapply walk_extends|]. split; [by eapply extends_is_dir|]. split; [by eapply Lstat_extends | by apply D2].
Qed.
End Tools.

(** ** The tools *)

(** [NewToolSet] of a worktree given from an absolute directory: its path is one of names. *)
Lemma NewToolSet_rooted cwd worktree fs s :
  names_ok cwd -> NewToolSet (abs_path cwd) worktree fs = Some s ->
  exists root, ts_worktreeAbs s = abs_path root /\ names_ok root.
Proof.
  intros Hc. unfold NewToolSet. destruct (Stat _ fs); [|done]. intros [= <-]. simpl. destruct (IsAbs worktree) eqn:Ea.
  - rewrite Clean_rooted by done. eexists. split; [done|]. apply clean_segs_ok; [done | apply no_slash_Split].
  - rewrite PathJoin_abs by done. eexists. split; [done|]. by apply joined_names.
Qed.

(** What write_file wrote under a path with success, read_file returns for the same
    path afterwards, through whatever links the path leads. *)
Theorem written_file_reads_back {X} (h : Host X) s root args args' w msg w' path content :
  ts_worktreeAbs s = abs_path root -> names_ok root -> root <> [] -> tree_ok (tw_fs w) ->
  (forall p, ho_readable h p = true) ->
  writeFile s h args w = (Ok msg, w') -> ho_write_args h args = Some (path, content) -> ho_path_args h args' = Some path ->
  readFile s h args' w' = Ok content.
Proof.
  intros Hr Hn Hne Ht Hread E Ea Ea'. destruct (writeFile_spec h s root Hr Hn args w _ w' Ht Hne E) as (_ & T & _ & S).
  destruct (S msg eq_refl) as (path' & c' & l & x & d & Ea2 & Habs & Ej & Hl & Hx & Hp & Hdn & Hd & Hdir & Hs & Hf).
  rewrite Ea in Ea2. injection Ea2 as <- <-. unfold readFile. rewrite Ea'. unfold checkPathConfinement. rewrite Habs, Ej.
  assert (Hlx : names_ok (l ++ [x])) by (apply Forall_app; split; [done|by repeat constructor]).
  destruct (walk_last kernel_links (tw_fs w') l x Hx) as [r1 H1]. rewrite Hd, Hdir, Hf in H1. simpl negb in H1. cbv iota in H1.
  unfold Lstat at 1. rewrite resolve_abs, (H1 false) by done. unfold node_at at 1. rewrite is_dir_snoc, Hf. simpl is_symlink. cbv iota.
  rewrite PathDir_abs, Hs by done. unfold Stat, EvalSymlinks. rewrite !resolve_abs by done.
  rewrite (walk_more_links (tw_fs w') true kernel_links [] l eval_links), Hd by (rewrite ?Hd; done || apply links_le).
  rewrite Clean_abs, (prefix_confined s root Hr Hn d Hdn Hp Hne) by done. unfold ReadFile.
  rewrite resolve_abs, (H1 true) by done. unfold node_at. rewrite is_dir_snoc, Hf. simpl. by rewrite Hread.
Qed.

Theorem reads_stay_in_the_worktree {X} (h : Host X) s root args w :
  ts_worktreeAbs s = abs_path root -> names_ok root ->
  (forall content, readFile s h args w = Ok content -> exists rel, tw_fs w !! (root ++ rel) = Some (NFile content)) /\
  (forall out, listDir s h args w = Ok out ->
     exists rel, is_dir (tw_fs w) (root ++ rel) = true /\ out = marshal_names (children (tw_fs w) (root ++ rel))).
Proof.
  intros Hr Hn. split; [exact (fun c => readFile_inside h s root Hr Hn args w c) | exact (fun o => listDir_inside h s root Hr Hn args w o)].
Qed.

(** C36. The write_file tool changes no file outside the worktree and no directory
    or link anywhere: outside the worktree it can at most add a directory where
    nothing was, and on success the content given is in a file under the worktree.
    Links inside and outside the worktree are followed as the system follows them. *)
Theorem writes_leave_other_files_alone {X} (h : Host X) s root args w r w' :
  ts_worktreeAbs s = abs_path root -> names_ok root -> root <> [] -> tree_ok (tw_fs w) -> writeFile s h args w = (r, w') ->
  tree_ok (tw_fs w') /\ tw_ran w' = tw_ran w /\
  (forall q, root `prefix_of` q \/ tw_fs w' !! q = tw_fs w !! q \/ tw_fs w !! q = None /\ tw_fs w' !! q = Some NDir) /\
  (forall q n, tw_fs w !! q = Some n -> (forall c, n <> NFile c) -> tw_fs w' !! q = Some n) /\
  (forall msg, r = Ok msg -> exists path content rel,
     ho_write_args h args = Some (path, content) /\ tw_fs w' !! (root ++ rel) = Some (NFile content)).
Proof.
  intros Hr Hn Hne Ht E. destruct (writeFile_spec h s root Hr Hn args w r w' Ht Hne E) as (Hran & T & W & S).
  split_and!; [exact T | exact Hran | | |].
  - intros q. destruct (W q) as [?|[?|[? _]]]; [by right; left | by right; right | by left].
  - intros q n Hq Hf. destruct (W q) as [->|[[? _]|[_ (c & _ & Hc)]]]; [done | congruence |]. rewrite Hq in Hc.
    destruct n; try done. by destruct (Hf content).
  - intros msg Hm. destruct (S msg Hm) as (path & content & l & x & d & Ha & _ & _ & _ & _ & [rel ->] & _ & _ & _ & _ & Hf).
    exists path, content, (rel ++ [x]). by rewrite app_assoc.
Qed.

(** ** Commands *)

(** What may be run: an allowed program in the worktree, without the options the tool
    refuses, with an environment of six variables. *)
Definition kept_variables : list string :=
  ["PATH="; "HOME="; "GOCACHE="; "GOPATH="; "GIT_CONFIG_NOSYSTEM="; "GIT_CONFIG_GLOBAL="].
Definition permitted (s : ToolSet) (c : Command) : Prop :=
  cm_Name c ∈ ["git"; "go"; "gofmt"; "golangci-lint"] /\ cm_Dir c = ts_worktreeAbs s /\
  (cm_Name c = "git" \/ cm_Name c = "go" -> "-C" ∉ cm_Args c) /\
  (cm_Name c = "git" -> "-c" ∉ cm_Args c /\ Forall (fun a => HasPrefix a "--exec-path" = false) (cm_Args c)) /\
  exists env, cm_Env c = Some env /\ Forall (fun e => exists v, v ∈ kept_variables /\ HasPrefix e v = true) env.

Lemma minimalEnv_kept getenv : Forall (fun e => exists v, v ∈ kept_variables /\ HasPrefix e v = true) (minimalEnv getenv).
Proof.
  assert (H : forall n, n +:+ "=" ∈ kept_variables ->
    Forall (fun e => exists v, v ∈ kept_variables /\ HasPrefix e v = true) (env_if_set getenv n)).
  { intros n Hn. unfold env_if_set. destruct (String.eqb _ _); constructor; [|done]. exists (n +:+ "="). split; [done|].
    unfold HasPrefix. rewrite <- str_app_assoc. apply prefix_of_app. }
  unfold minimalEnv. rewrite !Forall_app. split_and!; try (apply H; unfold kept_variables; set_solver).
  - constructor; [|done]. exists "PATH=". split; [unfold kept_variables; set_solver | apply prefix_of_app].
  - constructor; [exists "GIT_CONFIG_NOSYSTEM="; split; [unfold kept_variables; set_solver|done]|].
    constructor; [exists "GIT_CONFIG_GLOBAL="; split; [unfold kept_variables; set_solver|done]|done].
Qed.

Lemma args_accepted cmd args : checkCommandArgs cmd args = None -> Forall (fun a => refused_arg cmd a = false) args.
Proof. induction args as [|a args IH]; simpl; [done|]. destruct (refused_arg cmd a) eqn:E; [done|]. constructor; auto. Qed.

Section Running.
Context {X : Type}.
Variables (h : Host X) (s : ToolSet).

(** A tool call runs at most one command, and only a permitted one. *)
Lemma Dispatch_ran name args (w : TW X) :
  exists cs, tw_ran (Dispatch s h name args w).2 = tw_ran w ++ cs /\ Forall (permitted s) cs /\ (length cs <= 1)%nat.
Proof.
  assert (H0 : exists cs, tw_ran w = tw_ran w ++ cs /\ Forall (permitted s) cs /\ (length cs <= 1)%nat)
    by (exists []; split_and!; [by rewrite app_nil_r | done | simpl; lia]).
  unfold Dispatch. destruct (String.eqb name "write_file").
  { unfold writeFile. destruct (ho_write_args h args) as [[path content]|]; [|done].
    destruct (checkPathConfinement s path (tw_fs w)); [|done]. destruct (MkdirAll _ _ _) as [[e|] fs]; [done|].
    destruct (EvalSymlinks _ _); [|done]. destruct (isPathConfined s _); [|done]. simpl. by destruct (WriteFile _ _ _ _ _) as [[e|] fs2]. }
  destruct (String.eqb name "read_file"); [done|]. destruct (String.eqb name "list_dir"); [done|].
  destruct (String.eqb name "run_command").
  - unfold runCommand. destruct (ho_command_args h args) as [[cmd as_]|]; [|done].
    destruct (isAllowedCommand cmd) eqn:Ea; [|done]. simpl negb. cbv iota.
    destruct (checkCommandArgs cmd as_) as [e|] eqn:Ec; [done|]. unfold exec_command.
    destruct (ho_exec h _ _) as [[output err] [fs x]]. exists [mkCommand cmd as_ (ts_worktreeAbs s) (Some (minimalEnv (ho_getenv h)))].
    split_and!; [by destruct err | | simpl; lia]. apply args_accepted in Ec. constructor; [|done].
    unfold isAllowedCommand in Ea. apply bool_decide_eq_true in Ea. unfold permitted. simpl. rewrite Forall_forall in Ec.
    split_and!; [done | done | | |].
    + intros Hc Hin. apply Ec in Hin. by destruct Hc as [-> | ->].
    + intros ->. split; [intros Hin; by apply Ec in Hin|]. apply Forall_forall. intros a Ha. apply Ec in Ha. unfold refused_arg in Ha. simpl in Ha.
      by apply orb_false_iff in Ha as [_ Ha].
    + eexists. split; [done|]. apply minimalEnv_kept.
  - destruct (String.eqb name "finish_branch"); [|done]. unfold finishBranch. destruct (ho_branch_args h args); [|done].
    by destruct (WriteFile _ _ _ _ _) as [[e|] fs].
Qed.

(** A conversation: tool calls one after the other. *)
Fixpoint calls (cs : list (string * string)) (w : TW X) : TW X :=
  match cs with [] => w | (name, args) :: cs => calls cs (Dispatch s h name args w).2 end.
End Running.


(** ** Instances *)

(** A worktree [/w] with a directory, a file and a link out of the worktree. *)
Definition demo_tree : Tree :=
  <[["w"] := NDir]> (<[["w"; "src"] := NDir]> (<[["w"; "src"; "a"] := NFile "text"]>
    (<[["w"; "out"] := NLink "/etc"]> (<[["etc"] := NDir]> ∅)))).
Definition demo_set : ToolSet := mkToolSet "/w" "/w".
(** Arguments are the path, with the contents [new]; a command is run with it. *)
Definition demo_host : Host nat :=
  mkHost (fun _ => true) (fun _ => true) (fun _ => None)
    (fun v => if String.eqb v "GOPATH" then "" else "/" +:+ v)
    (fun c s => (("ok", None), (s.1, S s.2)))
    (fun a => Some (a, "new")) Some (fun a => Some ("git", ["status"; a])) Some.
Definition demo_tw : TW nat := mkTW demo_tree 0%nat [].

Lemma demo_names : names_ok ["w"].
Proof. apply Forall_cons. split; [reflexivity | apply Forall_nil_2]. Qed.

Lemma demo_tree_ok : tree_ok demo_tree.
Proof.
  intros p n H. unfold demo_tree in H.
  repeat (apply lookup_insert_Some in H as [[<- <-]|[_ H]]; [|]); [..|by rewrite lookup_empty in H].
  - by exists [], "w".
  - by exists ["w"], "src".
  - by exists ["w"; "src"], "a".
  - by exists ["w"], "out".
  - by exists [], "etc".
Qed.

Lemma written_file_reads_back_witness :
  exists w', writeFile demo_set demo_host "src/new/b" demo_tw = (Ok "wrote file src/new/b", w') /\
    readFile demo_set demo_host "src/new/b" w' = Ok "new".
Proof.
  assert (L : (writeFile demo_set demo_host "src/new/b" demo_tw).1 = Ok "wrote file src/new/b") by (vm_compute; reflexivity).
  destruct (writeFile demo_set demo_host "src/new/b" demo_tw) as [r w'] eqn:E. simpl in L. subst r. exists w'. split; [reflexivity|].
  eapply (written_file_reads_back demo_host demo_set ["w"] "src/new/b" "src/new/b" demo_tw);
    [reflexivity | exact demo_names | done | exact demo_tree_ok | done | exact E | reflexivity | reflexivity].
Defined.

Lemma reads_stay_in_the_worktree_witness :
  readFile demo_set demo_host "src/a" demo_tw = Ok "text" /\ is_ok (readFile demo_set demo_host "out" demo_tw) = false /\
  exists rel, demo_tree !! (["w"] ++ rel) = Some (NFile "text").
Proof.
  assert (L : readFile demo_set demo_host "src/a" demo_tw = Ok "text") by (vm_compute; reflexivity).
  split; [exact L|]. split; [vm_compute; reflexivity|].
  apply (proj1 (reads_stay_in_the_worktree demo_host demo_set ["w"] "src/a" demo_tw eq_refl demo_names) "text" L).
Defined.

(** A refused write below the link has made a directory outside the worktree. *)
Lemma writes_leave_other_files_alone_witness :
  exists w', writeFile demo_set demo_host "out/made/b" demo_tw = (Err (TErrEscaped "/etc/made"), w') /\
    tree_ok (tw_fs w') /\ tw_fs w' !! ["etc"; "made"] = Some NDir /\ demo_tree !! ["etc"; "made"] = None.
Proof.
  assert (L : (writeFile demo_set demo_host "out/made/b" demo_tw).1 = Err (TErrEscaped "/etc/made") /\
              tw_fs (writeFile demo_set demo_host "out/made/b" demo_tw).2 !! ["etc"; "made"] = Some NDir)
    by (vm_compute; split; reflexivity).
  destruct (writeFile demo_set demo_host "out/made/b" demo_tw) as [r w'] eqn:E. simpl in L. destruct L as [-> L].
  exists w'. split; [reflexivity|].
  destruct (writes_leave_other_files_alone demo_host demo_set ["w"] "out/made/b" demo_tw _ w' eq_refl
    demo_names ltac:(done) demo_tree_ok E) as (T & _).
  split; [exact T|]. split; [exact L | vm_compute; reflexivity].
Defined.

(** [finish_branch] is not confined: it writes through a link. *)
Example finish_branch_follows_a_link :
  let fs := <[["w"; ".agent-branch"] := NLink "/etc/passwd"]> demo_tree in
  tw_fs (finishBranch demo_set demo_host "task/1" (mkTW fs 0%nat [])).2 !! ["etc"; "passwd"] = Some (NFile "task/1").
Proof. vm_compute. reflexivity. Qed.

(** Paths the check refuses or lets through: the worktree itself cannot be listed,
    git's own files can be written. *)
Example the_worktree_cannot_be_listed : is_ok (listDir demo_set demo_host "." demo_tw) = false.
Proof. vm_compute. reflexivity. Qed.
Example git_config_can_be_written :
  tw_fs (writeFile demo_set demo_host ".git/config" demo_tw).2 !! ["w"; ".git"; "config"] = Some (NFile "new").
Proof. vm_compute. reflexivity. Qed.
