(* ===== verification/OllamaNative.v ===== *)
(** * The local executor ([executor/ollama_native.go])

    The in-process loop that asks a model served by Ollama
    ([executor/ollamaclient/client.go]), dispatches the tool calls of its answer and
    asks again, until an answer without tool calls or the iteration cap; then it
    commits the worktree onto the recorded branch. The tool set is reached through
    the class [ToolDispatcher], of which [Toolset] is the instance. The exchange
    with the model ([ChatClient]) and the cancellation of the context are parameters. *)

From stdpp Require Import base gmap strings list.
From Stdlib Require Import ZArith Lia Ascii.
From S2P Require Import Prelude GoStrings Seams Paths OSFiles Toolset.

Local Open Scope Z_scope.

(** [ToolCall] (name and raw arguments), [Message], [ChatRequest]. *)
Record ToolCall := mkToolCall { tc_Name : string; tc_Arguments : string }.
Record ChatMessage := mkChatMessage {
  ch_Role : string; ch_Content : string; ch_ToolCalls : list ToolCall; ch_Name : string }.
Record ChatRequest := mkChatRequest { cr_Model : string; cr_Messages : list ChatMessage; cr_Stream : bool }.

(** Errors of [Chat], with the two context errors apart. *)
Inductive ChatErr := ChatCancelled | ChatDeadline | ChatOther (e : string).

Inductive OllamaErr :=
| OErrBlankEndpoint
| OErrBlankModel
| OErrBlankWorktree
| OErrNilDispatcher
| OErrContext (e : ChatErr)
| OErrChat (call : Z) (e : string)
| OErrCommit (args : list string) (err output : string).

(** [ToolDispatcher], over worlds [W]. *)
Class ToolDispatcher (W : Type) := {
  td_Dispatch : string -> string -> W -> result ToolErr string * W;
  td_ExtractBranch : W -> option string
}.

Record OllamaConfig := mkOllamaConfig {
  oc_Endpoint : string; oc_Model : string; oc_MaxIterations : Z; oc_Worktree : string }.

(** [NewOllamaNative]. *)
Definition NewOllamaNative (cfg : OllamaConfig) (toolset : bool) : result OllamaErr OllamaConfig :=
  if blank (oc_Endpoint cfg) then Err OErrBlankEndpoint
  else if blank (oc_Model cfg) then Err OErrBlankModel
  else if blank (oc_Worktree cfg) then Err OErrBlankWorktree
  else if negb toolset then Err OErrNilDispatcher
  else Ok (mkOllamaConfig (oc_Endpoint cfg) (oc_Model cfg)
             (if oc_MaxIterations cfg <=? 0 then 30 else oc_MaxIterations cfg) (oc_Worktree cfg)).

(** The initial prompt of [Run]. *)
Definition initialContent (t : Task) : string :=
  "Task ID: " +:+ task_ID t +:+ String nl ("Repo: " +:+ task_Repo t +:+ String nl ("Spec: " +:+ task_Spec t +:+
  String nl (String nl "You are an autonomous coding agent. Use the provided tools to complete this task."))) +:+
  (if String.eqb (task_PriorFailure t) "" then ""
   else String nl (String nl ("Your previous attempt failed the verification gate." +:+
        String nl (String nl (task_PriorFailure t +:+ String nl ""))))).

(** The three git commands of [commitWorktree]. *)
Definition commit_args (branch taskID : string) : list (list string) :=
  [["checkout"; "-B"; branch]; ["add"; "-A"];
   ["-c"; "user.name=agent-builder"; "-c"; "user.email=agent-builder@local"; "commit"; "-m";
    "agent-builder: complete task " +:+ taskID]].
Definition commit_commands (worktree branch taskID : string) : list Command :=
  map (fun args => mkCommand "git" args worktree None) (commit_args branch taskID).

Section OllamaNative.
Context {W : Type} {TD : ToolDispatcher W}.
(** The exchange with the model, the context, a subprocess, and the error texts. *)
Variable Chat : ChatRequest -> W -> result ChatErr ChatMessage * W.
Variable ctx_err : W -> option ChatErr.
Variable exec : Command -> W -> (string * option string) * W.
Variable show : ToolErr -> string.
Variable cfg : OllamaConfig.

(** [commitWorktree]: the first command that fails ends it. *)
Fixpoint run_steps (steps : list (list string)) (w : W) : option OllamaErr * W :=
  match steps with
  | [] => (None, w)
  | args :: steps =>
    let '((out, err), w) := exec (mkCommand "git" args (oc_Worktree cfg) None) w in
    match err with
    | Some e => (Some (OErrCommit args e (TrimSpace out)), w)
    | None => run_steps steps w
    end
  end.
Definition commitWorktree (branch taskID : string) (w : W) : option OllamaErr * W :=
  run_steps (commit_args branch taskID) w.

(** The tool calls of one answer, each with its reply. *)
Definition tool_reply (c : ToolCall) (r : result ToolErr string) : ChatMessage :=
  mkChatMessage "tool" (match r with Ok out => out | Err e => "error: " +:+ show e end) [] (tc_Name c).
Fixpoint dispatch_calls (cs : list ToolCall) (messages : list ChatMessage) (w : W) : list ChatMessage * W :=
  match cs with
  | [] => (messages, w)
  | c :: cs =>
    let '(r, w) := td_Dispatch (tc_Name c) (tc_Arguments c) w in
    dispatch_calls cs (messages ++ [tool_reply c r]) w
  end.

(** The answer without tool calls. *)
Definition finish (t : Task) (w : W) : result OllamaErr ExecResult * W :=
  match td_ExtractBranch w with
  | None => (Ok (mkExecResult "" false), w)
  | Some branch =>
    let '(err, w) := commitWorktree branch (task_ID t) w in
    match err with
    | Some e => (Err e, w)
    | None => (Ok (mkExecResult branch true), w)
    end
  end.

(** The loop from iteration [n], with [iters] iterations left. *)
Fixpoint agentic_loop (iters : nat) (n : Z) (t : Task) (messages : list ChatMessage) (w : W)
  : result OllamaErr ExecResult * W :=
  match iters with
  | O => (Ok (mkExecResult "" false), w)
  | S iters =>
    match ctx_err w with
    | Some e => (Err (OErrContext e), w)
    | None =>
      let '(resp, w) := Chat (mkChatRequest (oc_Model cfg) messages false) w in
      match resp with
      | Err (ChatOther e) => (Err (OErrChat (n + 1) e), w)
      | Err e => (Err (OErrContext e), w)
      | Ok m =>
        match ch_ToolCalls m with
        | [] => finish t w
        | cs => let '(messages, w) := dispatch_calls cs (messages ++ [m]) w in
                agentic_loop iters (n + 1) t messages w
        end
      end
    end
  end.

(** [Run]. *)
Definition Run (t : Task) (w : W) : result OllamaErr ExecResult * W :=
  let cap := if oc_MaxIterations cfg <=? 0 then 30 else oc_MaxIterations cfg in
  agentic_loop (Z.to_nat cap) 0 t [mkChatMessage "user" (initialContent t) [] ""] w.
End OllamaNative.

(** The tool set behind the interface. *)
Instance Toolset_ToolDispatcher {X} (h : Host X) (s : ToolSet) : ToolDispatcher (TW X) := {|
  td_Dispatch := Dispatch s h;
  td_ExtractBranch := ExtractBranch s h
|}.

(** ** The executor with its tools *)

Section Local.
Context {X : Type}.
Variables (h : Host X) (s : ToolSet).
Variable chat : ChatRequest -> X -> result ChatErr ChatMessage * X.
Variable ctx : X -> option ChatErr.
Variable show : ToolErr -> string.
Variable cfg : OllamaConfig.
Local Notation W := (TW X).
Local Existing Instance Toolset_ToolDispatcher.

(** The exchange with the model touches neither files nor processes. *)
Definition Chat (req : ChatRequest) (w : W) : result ChatErr ChatMessage * W :=
  let '(r, x) := chat req (tw_x w) in (r, mkTW (tw_fs w) x (tw_ran w)).
Definition local_run (t : Task) (w : W) : result OllamaErr ExecResult * W :=
  Run (TD := Toolset_ToolDispatcher h s) Chat (fun w => ctx (tw_x w)) (exec_command h) show cfg t w.

Lemma dispatch_calls_ran cs messages (w : W) :
  exists ran, tw_ran (dispatch_calls (TD := Toolset_ToolDispatcher h s) show cs messages w).2 = tw_ran w ++ ran /\
    Forall (permitted s) ran.
Proof.
  revert messages w. induction cs as [|c cs IH]; intros messages w; simpl; [exists []; by rewrite app_nil_r|].
  destruct (Dispatch_ran h s (tc_Name c) (tc_Arguments c) w) as (r1 & E1 & F1 & _).
  destruct (Dispatch s h _ _ w) as [r w1]. destruct (IH (messages ++ [tool_reply show c r]) w1) as (r2 & E2 & F2).
  exists (r1 ++ r2). rewrite E2. simpl in E1. by rewrite E1, app_assoc, Forall_app.
Qed.

(** The outcome of the git commands [steps], all run or up to the one that failed. *)
Lemma run_steps_ran steps (w : W) err w' :
  run_steps (exec_command h) cfg steps w = (err, w') ->
  exists n, tw_ran w' = tw_ran w ++ map (fun args => mkCommand "git" args (oc_Worktree cfg) None) (take n steps) /\
    match err with
    | None => (length steps <= n)%nat
    | Some (OErrCommit args _ _) => (0 < n)%nat /\ last (take n steps) = Some args
    | Some _ => False
    end.
Proof.
  revert w. induction steps as [|args steps IH]; intros w; simpl.
  - intros [= <- <-]. exists 0%nat. by rewrite app_nil_r.
  - unfold exec_command at 1. destruct (ho_exec h _ _) as [[out [e|]] [fs x]].
    + intros [= <- <-]. exists 1%nat. split; [done|]. split; [lia|done].
    + intros E. destruct (IH _ E) as (n & Er & H). exists (S n). simpl in *. rewrite Er, <- app_assoc. split; [done|].
      destruct err as [[]|]; try done; [|lia]. destruct H as [Hn Hl]. split; [lia|].
      destruct (take n steps) eqn:Et; [done|]. done.
Qed.

(** What a run did: permitted commands for the model, then the commit of the branch
    it reports. *)
Definition committed (t : Task) (r : result OllamaErr ExecResult) (commits : list Command) : Prop :=
  match r with
  | Ok res => if res_OK res then commits = commit_commands (oc_Worktree cfg) (res_Branch res) (task_ID t)
              else res_Branch res = "" /\ commits = []
  | Err (OErrCommit args _ _) => exists branch, commits `prefix_of` commit_commands (oc_Worktree cfg) branch (task_ID t) /\
                                   cm_Args <$> last commits = Some args
  | Err _ => commits = []
  end.
Definition accounted (t : Task) (w : W) (r : result OllamaErr ExecResult) (w' : W) : Prop :=
  exists ran commits, tw_ran w' = tw_ran w ++ ran ++ commits /\ Forall (permitted s) ran /\ committed t r commits.

Lemma finish_accounted t (w : W) r w' :
  finish (TD := Toolset_ToolDispatcher h s) (exec_command h) cfg t w = (r, w') -> accounted t w r w'.
Proof.
  unfold finish, commitWorktree. cbn [td_ExtractBranch Toolset_ToolDispatcher]. destruct (ExtractBranch s h w) as [branch|].
  2:{ intros [= <- <-]. exists [], []. split_and!; [by rewrite app_nil_r | done | done]. }
  destruct (run_steps (exec_command h) cfg _ w) as [err w1] eqn:E. apply run_steps_ran in E as (n & Er & H).
  intros E. exists [], (map (fun args => mkCommand "git" args (oc_Worktree cfg) None) (take n (commit_args branch (task_ID t)))).
  destruct err as [e|]; injection E as <- <-.
  - destruct e; try done. split_and!; [done | done |]. destruct H as [Hn Hl]. exists branch. split.
    + exists (map (fun args => mkCommand "git" args (oc_Worktree cfg) None) (drop n (commit_args branch (task_ID t)))).
      unfold commit_commands. by rewrite <- map_app, take_drop.
    + assert (L : forall (f : list string -> Command) l, last (map f l) = f <$> last l) by (intros; apply fmap_last).
      by rewrite L, Hl.
  - split_and!; [done | done |]. simpl. unfold commit_commands. by rewrite take_ge.
Qed.

Lemma accounted_after t (w w1 : W) r w' ran :
  tw_ran w1 = tw_ran w ++ ran -> Forall (permitted s) ran -> accounted t w1 r w' -> accounted t w r w'.
Proof.
  intros E F (ran' & commits & E' & F' & C). exists (ran ++ ran'), commits.
  split_and!; [by rewrite E', E, !app_assoc | by apply Forall_app | done].
Qed.

Lemma Chat_ran req (w : W) : tw_ran (Chat req w).2 = tw_ran w.
Proof. unfold Chat. by destruct (chat req (tw_x w)). Qed.

Lemma loop_accounted iters n t messages (w : W) r w' :
  agentic_loop (TD := Toolset_ToolDispatcher h s) Chat (fun w => ctx (tw_x w)) (exec_command h) show cfg iters n t messages w = (r, w') ->
  accounted t w r w'.
Proof.
  assert (Hstop : forall r (w w' : W), tw_ran w' = tw_ran w -> (r = Ok (mkExecResult "" false) \/ exists e, r = Err e /\ forall a b c, e <> OErrCommit a b c) ->
    accounted t w r w').
  { intros r0 w0 w0' E H. exists [], []. rewrite !app_nil_r. split_and!; [done | done |].
    destruct H as [->|(e & -> & He)]; [done|]. destruct e; try done. by destruct (He args err output). }
  revert n messages w. induction iters as [|iters IH]; intros n messages w; cbn [agentic_loop].
  { intros [= <- <-]. apply Hstop; [done | by left]. }
  destruct (ctx (tw_x w)) as [e|]; [intros [= <- <-]; apply Hstop; [done | right; by eexists]|].
  pose proof (Chat_ran (mkChatRequest (oc_Model cfg) messages false) w) as Ec.
  destruct (Chat _ w) as [resp w1]. simpl in Ec.
  destruct resp as [m|e]; [|destruct e; intros [= <- <-]; apply Hstop; try done; right; by eexists].
  destruct (ch_ToolCalls m) as [|c cs].
  - intros E%finish_accounted. eapply (accounted_after t w w1 _ _ []); [by rewrite app_nil_r | done | done].
  - destruct (dispatch_calls_ran (c :: cs) (messages ++ [m]) w1) as (ran & Er & F).
    destruct (dispatch_calls show (c :: cs) _ w1) as [messages' w2]. simpl in Er. intros E. apply IH in E.
    eapply (accounted_after t w w2); [by rewrite Er, Ec | done | done].
Qed.

(** Exchanges are bounded: of a quantity that one exchange increases by at most one,
    and nothing else does. *)
Lemma loop_bounded (count : W -> Z) iters n t messages w :
  (forall req w, count (Chat req w).2 <= count w + 1) ->
  (forall name args w, count (Dispatch s h name args w).2 <= count w) ->
  (forall c w, count (exec_command h c w).2 <= count w) ->
  count (agentic_loop (TD := Toolset_ToolDispatcher h s) Chat (fun w => ctx (tw_x w)) (exec_command h) show cfg iters n t messages w).2
    <= count w + Z.of_nat iters.
Proof.
  intros Hchat Hdisp Hexec.
  assert (Hsteps : forall steps w, count (run_steps (exec_command h) cfg steps w).2 <= count w).
  { induction steps as [|args steps IH]; intros w0; simpl; [lia|].
    specialize (Hexec (mkCommand "git" args (oc_Worktree cfg) None) w0).
    destruct (exec_command h _ w0) as [[out [e|]] w1]; simpl in *; [lia|]. specialize (IH w1). lia. }
  assert (Hcalls : forall cs messages w, count (dispatch_calls (TD := Toolset_ToolDispatcher h s) show cs messages w).2 <= count w).
  { induction cs as [|c cs IH]; intros messages0 w0; simpl; [lia|]. specialize (Hdisp (tc_Name c) (tc_Arguments c) w0).
    destruct (Dispatch s h _ _ w0) as [r w1]; simpl in *. specialize (IH (messages0 ++ [tool_reply show c r]) w1). lia. }
  revert n messages w. induction iters as [|iters IH]; intros n messages w; cbn [agentic_loop]; [simpl; lia|].
  destruct (ctx (tw_x w)) as [e|]; [simpl; lia|]. specialize (Hchat (mkChatRequest (oc_Model cfg) messages false) w).
  destruct (Chat _ w) as [resp w1]. simpl in Hchat. destruct resp as [m|[]]; [|simpl; lia..].
  destruct (ch_ToolCalls m) as [|c cs].
  - unfold finish, commitWorktree. destruct (td_ExtractBranch w1) as [b|]; [|simpl; lia].
    specialize (Hsteps (commit_args b (task_ID t)) w1). destruct (run_steps _ _ _ w1) as [[e|] w2]; simpl in *; lia.
  - specialize (Hcalls (c :: cs) (messages ++ [m]) w1). destruct (dispatch_calls show (c :: cs) _ w1) as [messages' w2].
    simpl in Hcalls. specialize (IH (n + 1) messages' w2). lia.
Qed.
End Local.

(** A run of the local executor starts only commands the tool set permits while the
    model converses, then, exactly when the branch was recorded, the three git
    commands that commit that branch, and reports the branch only when they all
    succeeded; it makes at most MaxIterations (30 by default) requests to the model,
    whatever the model answers. *)
Theorem local_executor_commits_what_it_reports {X} (h : Host X) s chat ctx show cfg t w :
  let '(r, w') := local_run h s chat ctx show cfg t w in
  accounted s cfg t w r w' /\
  forall count : TW X -> Z,
    (forall req w, count (Chat chat req w).2 <= count w + 1) ->
    (forall name args w, count (Dispatch s h name args w).2 <= count w) ->
    (forall c w, count (exec_command h c w).2 <= count w) ->
    count w' <= count w + (if oc_MaxIterations cfg <=? 0 then 30 else oc_MaxIterations cfg).
Proof.
  destruct (local_run h s chat ctx show cfg t w) as [r w'] eqn:E. split; [by eapply loop_accounted|].
  intros count H1 H2 H3. unfold local_run, Run in E.
  pose proof (loop_bounded h s chat ctx show cfg count
    (Z.to_nat (if oc_MaxIterations cfg <=? 0 then 30 else oc_MaxIterations cfg)) 0 t
    [mkChatMessage "user" (initialContent t) [] ""] w H1 H2 H3) as B.
  rewrite E in B. simpl in B. destruct (oc_MaxIterations cfg <=? 0) eqn:El; to_prop; lia.
Qed.

(** A model that writes a file, runs git, records a branch and stops. *)
Definition demo_script : list ChatMessage :=
  [mkChatMessage "assistant" "" [mkToolCall "write_file" "src/b"; mkToolCall "run_command" "--git-dir=/other/.git"] "";
   mkChatMessage "assistant" "" [mkToolCall "finish_branch" "task/7"] "";
   mkChatMessage "assistant" "done" [] ""].
Definition demo_model_host : Host (nat * nat) :=
  mkHost (fun _ => true) (fun _ => true) (fun _ => None) (fun v => "/" +:+ v)
    (fun c s => (("ok", None), s)) (fun a => Some (a, "new")) Some (fun a => Some ("git", ["status"; a])) Some.
Definition demo_chat (req : ChatRequest) (x : nat * nat) : result ChatErr ChatMessage * (nat * nat) :=
  (match demo_script !! x.1 with Some m => Ok m | None => Err (ChatOther "eof") end, (S x.1, x.2)).
Definition demo_ollama : OllamaConfig := mkOllamaConfig "http://localhost:11434" "qwen3" 0 "/w".

Lemma local_executor_commits_what_it_reports_witness :
  let '(r, w') := local_run demo_model_host demo_set demo_chat (fun _ => None) (fun _ => "") demo_ollama
                    (mkTask "7" "r" "s" "") (mkTW demo_tree (0, 0)%nat []) in
  r = Ok (mkExecResult "task/7" true) /\ tw_fs w' !! ["w"; "src"; "b"] = Some (NFile "new") /\
  cm_Args <$> tw_ran w' = ["status"; "--git-dir=/other/.git"] :: commit_args "task/7" "7" /\
  accounted demo_set demo_ollama (mkTask "7" "r" "s" "") (mkTW demo_tree (0, 0)%nat []) r w' /\
  Z.of_nat (tw_x w').1 <= 30.
Proof.
  assert (L : let '(r, w') := local_run demo_model_host demo_set demo_chat (fun _ => None) (fun _ => "") demo_ollama
                    (mkTask "7" "r" "s" "") (mkTW demo_tree (0, 0)%nat []) in
    r = Ok (mkExecResult "task/7" true) /\ tw_fs w' !! ["w"; "src"; "b"] = Some (NFile "new") /\
    cm_Args <$> tw_ran w' = ["status"; "--git-dir=/other/.git"] :: commit_args "task/7" "7")
    by (vm_compute; split_and!; reflexivity).
  pose proof (local_executor_commits_what_it_reports demo_model_host demo_set demo_chat (fun _ => None) (fun _ => "")
    demo_ollama (mkTask "7" "r" "s" "") (mkTW demo_tree (0, 0)%nat [])) as T.
  destruct (local_run _ _ _ _ _ _ _ _) as [r w']. destruct T as [Ta Tc]. split_and!; [apply L..| exact Ta |].
  specialize (Tc (fun w => Z.of_nat (tw_x w).1)). simpl in Tc. apply Tc.
  - intros req w. unfold Chat, demo_chat. simpl. lia.
  - intros name args w. unfold Dispatch, writeFile, runCommand, finishBranch, exec_command. go_cases; simpl; lia.
  - intros c w. unfold exec_command. simpl. lia.
Defined.
