(* ===== verification/Harness.v ===== *)
(** * The executor-facing ingestion harness ([executorharness/])

    Web content and tool calls on their way to an executor: [HandleWebContent] and
    [HandleToolCall] ([harness.go]) build a candidate, have the broker review it and
    hand the reviewed value on, with a trace event at every stage ([trace.go]); the
    armor-backed harness ([armor.go]) has the guard of [Ingestion.Armor]. The
    recorder, the continuation and the tool executor act on a shared world [W]. *)

From stdpp Require Import base gmap strings list.
From Stdlib Require Import ZArith Lia Ascii.
From S2P Require Import Prelude GoStrings Ingestion.

Inductive TraceStage :=
| TraceContentCandidateProduced
| TraceContentBrokerReviewed
| TraceContentReleased
| TraceToolCandidateProduced
| TraceToolBrokerReviewed
| TraceToolReleased
| TraceToolExecuted.

(** [TraceEvent]; the outcome is empty before the review. *)
Record TraceEvent := mkTrace {
  te_Stage : TraceStage; te_CandidateID : string; te_Kind : CandidateKind; te_Outcome : option DecisionOutcome }.

Inductive HarnessErr :=
| ErrCandidate (e : IngestErr)
| ErrNilContentContinuation
| ErrNilToolExecutor
| ErrUnreviewedRelease
| ErrContinuation (e : string)
| ErrIngestionDisabled
| ErrUnsupportedPolicy (policy : string)
| ErrMissingHarness.

(** A reviewed value: [ContentRelease] and [ToolCallRelease]. *)
Record Release (C : Type) := mkRelease { rl_candidate : C; rl_reviewed : bool }.
Arguments mkRelease {C}.
Arguments rl_candidate {C}.
Arguments rl_reviewed {C}.

(** [Candidate] of a release; [Content] and [Arguments] are its fields. *)
Definition release_Candidate {C} (r : Release C) : result HarnessErr C :=
  if rl_reviewed r then Ok (rl_candidate r) else Err ErrUnreviewedRelease.
Definition release_Content (r : Release ContentCandidate) : result HarnessErr string :=
  match release_Candidate r with Ok c => Ok (cc_Content c) | Err e => Err e end.
Definition release_Arguments (r : Release ToolCallCandidate) : result HarnessErr string :=
  match release_Candidate r with Ok c => Ok (tc_Arguments c) | Err e => Err e end.

(** [ContentResult] and [ToolCallResult]; candidate and decision are absent where the
    code leaves the zero value. *)
Record HandleResult (C : Type) := mkHandled {
  hr_Candidate : option C; hr_Decision : option Decision; hr_Released : bool; hr_Err : option HarnessErr }.
Arguments mkHandled {C}.
Arguments hr_Candidate {C}.
Arguments hr_Decision {C}.
Arguments hr_Released {C}.
Arguments hr_Err {C}.

Section Harness.
Context {W : Type}.
Variables (uni : string -> string) (url_Parse : string -> option ParsedURL)
          (json_compact : string -> option string) (sha256_hex : list string -> string).
(** The broker: its two guards and whether its context ends before or during the
    review; the trace recorder. *)
Variables (content_guard : option (ContentCandidate -> result string Decision))
          (tool_guard : option (ToolCallCandidate -> result string Decision))
          (entry_err timed_out : option string).
Variable trace : option (TraceEvent -> W -> W).

Definition record (ev : TraceEvent) (w : W) : W := match trace with Some f => f ev w | None => w end.

Definition HandleWebContent (event : ContentCandidate)
  (continuation : option (Release ContentCandidate -> W -> option string * W)) (w : W)
  : HandleResult ContentCandidate * W :=
  match NewContentCandidate uni url_Parse sha256_hex event with
  | Err e => (mkHandled None None false (Some (ErrCandidate e)), w)
  | Ok candidate =>
    let w := record (mkTrace TraceContentCandidateProduced (cc_ID candidate) CandidateKindContent None) w in
    let review := ReviewContent content_guard entry_err timed_out candidate in
    let d := review.2 in
    let w := record (mkTrace TraceContentBrokerReviewed (cc_ID candidate) CandidateKindContent (Some (dc_Outcome d))) w in
    match ReleaseContent review with
    | None => (mkHandled (Some candidate) (Some d) false None, w)
    | Some released =>
      match continuation with
      | None => (mkHandled (Some candidate) (Some d) false (Some ErrNilContentContinuation), w)
      | Some k =>
        let w := record (mkTrace TraceContentReleased (cc_ID candidate) CandidateKindContent (Some (dc_Outcome d))) w in
        let '(err, w) := k (mkRelease released true) w in
        (mkHandled (Some candidate) (Some d) true (ErrContinuation <$> err), w)
      end
    end
  end.

Definition HandleToolCall (event : ToolCallCandidate)
  (executor : option (Release ToolCallCandidate -> W -> option string * W)) (w : W)
  : HandleResult ToolCallCandidate * W :=
  match NewToolCallCandidate uni url_Parse json_compact sha256_hex event with
  | Err e => (mkHandled None None false (Some (ErrCandidate e)), w)
  | Ok candidate =>
    let w := record (mkTrace TraceToolCandidateProduced (tc_ID candidate) CandidateKindToolCall None) w in
    let review := ReviewToolCall tool_guard entry_err timed_out candidate in
    let d := review.2 in
    let w := record (mkTrace TraceToolBrokerReviewed (tc_ID candidate) CandidateKindToolCall (Some (dc_Outcome d))) w in
    match ReleaseToolCall review with
    | None => (mkHandled (Some candidate) (Some d) false None, w)
    | Some released =>
      match executor with
      | None => (mkHandled (Some candidate) (Some d) false (Some ErrNilToolExecutor), w)
      | Some k =>
        let w := record (mkTrace TraceToolReleased (tc_ID candidate) CandidateKindToolCall (Some (dc_Outcome d))) w in
        let '(err, w) := k (mkRelease released true) w in
        match err with
        | Some e => (mkHandled (Some candidate) (Some d) true (Some (ErrContinuation e)), w)
        | None =>
          (mkHandled (Some candidate) (Some d) true None,
           record (mkTrace TraceToolExecuted (tc_ID candidate) CandidateKindToolCall (Some (dc_Outcome d))) w)
        end
      end
    end
  end.
End Harness.

(** ** Nothing unreviewed goes on *)

(** A guard's word for a candidate: an answer in time that allows it, by its ID. *)
Definition allowed_by {C} (guard : option (C -> result string Decision)) (entry_err timed_out : option string)
  (c : C) (id : string) (kind : CandidateKind) : Prop :=
  entry_err = None /\ timed_out = None /\
  exists g d, guard = Some g /\ g c = Ok d /\ dc_CandidateID d = id /\ dc_Kind d = kind /\ dc_Outcome d = DecisionAllow.

Lemma tool_released guard entry_err timed_out (c c' : ToolCallCandidate) :
  ReleaseToolCall (ReviewToolCall guard entry_err timed_out c) = Some c' ->
  c' = c /\ allowed_by guard entry_err timed_out c (tc_ID c) CandidateKindToolCall.
Proof.
  unfold ReleaseToolCall, ReviewToolCall. simpl. rewrite decide_valid. simpl.
  case_bool_decide as A; simpl; [|done]. intros [= <-]. split; [done|].
  apply decide_allow in A as (-> & d & Ha & H1 & H2 & H3). unfold guard_answer in Ha.
  destruct timed_out; [done|]. destruct guard as [g|]; [|done]. injection Ha as Ha. split_and!; try done. by exists g, d.
Qed.

Section Reviewed.
Context {W : Type}.
Variables (uni : string -> string) (url_Parse : string -> option ParsedURL)
          (json_compact : string -> option string) (sha256_hex : list string -> string).
Variables (content_guard : option (ContentCandidate -> result string Decision))
          (tool_guard : option (ToolCallCandidate -> result string Decision))
          (entry_err timed_out : option string).
Variable trace : option (TraceEvent -> W -> W).

Definition recorded (evs : list TraceEvent) (w : W) : W := foldl (fun w ev => record trace ev w) w evs.

(** The world after a value that was held back: at most two trace events, neither of
    a release. *)
Definition held_back (w w' : W) : Prop :=
  exists evs, w' = recorded evs w /\ (length evs <= 2)%nat /\
    Forall (fun ev => te_Stage ev <> TraceContentReleased /\ te_Stage ev <> TraceToolReleased /\
                      te_Stage ev <> TraceToolExecuted) evs.

Local Ltac held :=
  eexists [_; _]; split; [reflexivity|]; split; [simpl; lia|]; repeat constructor; discriminate.

Lemma content_goes_on event k (w : W) res w' :
  HandleWebContent uni url_Parse sha256_hex content_guard entry_err timed_out trace event k w = (res, w') ->
  if hr_Released res then
    exists c f evs, NewContentCandidate uni url_Parse sha256_hex event = Ok c /\ k = Some f /\
      allowed_by content_guard entry_err timed_out c (cc_ID c) CandidateKindContent /\
      w' = (f (mkRelease c true) (recorded evs w)).2
  else held_back w w'.
Proof.
  unfold HandleWebContent. destruct (NewContentCandidate _ _ _ event) as [c|e]; [|intros [= <- <-]; exists []; split_and!; [done | simpl; lia | done]].
  destruct (ReleaseContent _) as [c'|] eqn:Er.
  2:{ intros [= <- <-]. held. }
  apply release_only_what_the_guard_allowed in Er as (-> & He & Ht & H).
  destruct k as [f|]; [|intros [= <- <-]; held].
  destruct (f _ _) as [err w1] eqn:Ef. intros [= <- <-]. simpl. eexists c, f, [_; _; _]. split_and!; [done..|].
  simpl. by rewrite Ef.
Qed.

Lemma tool_call_goes_on event k (w : W) res w' :
  HandleToolCall uni url_Parse json_compact sha256_hex tool_guard entry_err timed_out trace event k w = (res, w') ->
  if hr_Released res then
    exists c f evs after, NewToolCallCandidate uni url_Parse json_compact sha256_hex event = Ok c /\ k = Some f /\
      allowed_by tool_guard entry_err timed_out c (tc_ID c) CandidateKindToolCall /\
      w' = recorded after (f (mkRelease c true) (recorded evs w)).2
  else held_back w w'.
Proof.
  unfold HandleToolCall. destruct (NewToolCallCandidate _ _ _ _ event) as [c|e]; [|intros [= <- <-]; exists []; split_and!; [done | simpl; lia | done]].
  destruct (ReleaseToolCall _) as [c'|] eqn:Er.
  2:{ intros [= <- <-]. held. }
  apply tool_released in Er as [-> Ha].
  destruct k as [f|]; [|intros [= <- <-]; held].
  destruct (f _ _) as [[e|] w1] eqn:Ef; intros [= <- <-]; simpl.
  - eexists c, f, [_; _; _], []. split_and!; [done..|]. simpl. by rewrite Ef.
  - eexists c, f, [_; _; _], [_]. split_and!; [done..|]. simpl. by rewrite Ef.
Qed.
End Reviewed.

(** A harness backed by the armor guard. *)
Section Armored.
Context {W : Type}.
Variables (uni : string -> string) (url_Parse : string -> option ParsedURL)
          (json_compact : string -> option string) (sha256_hex : list string -> string).
Variable runner : option (Armor.Request -> result string Armor.Response).
Variables (before after entry_err timed_out : option string).
Variable trace : option (TraceEvent -> W -> W).

(** [NewArmorGuarded] with its two handlers. *)
Definition armored_content :=
  HandleWebContent uni url_Parse sha256_hex (Some (Armor.DecideContent uni runner before after)) entry_err timed_out trace.
Definition armored_tool_call :=
  HandleToolCall uni url_Parse json_compact sha256_hex (Some (Armor.DecideToolCall uni runner before after)) entry_err timed_out trace.

(** The reviewer answered in time, without findings, with a clean decision. *)
Definition clean (rq : Armor.Request) : Prop :=
  before = None /\ after = None /\ exists run r, runner = Some run /\ run rq = Ok r /\ Armor.rp_Findings r = [] /\
    ToLower uni (TrimSpace (Armor.rp_Decision r)) ∈ ["allow"; "ok"; "clean"; "pass"].
End Armored.

(** Through the armored harness, web content reaches the continuation and a tool
    call reaches the tool only when the event made a candidate and the reviewer
    answered in time, without findings and with a clean decision; otherwise only
    trace events are recorded, and the release handed over carries that candidate. *)
Theorem nothing_unreviewed_reaches_the_executor {W} uni url_Parse json_compact sha256_hex runner before after
    entry_err timed_out trace web k tool exec (w : W) :
  let '(res, w') := armored_content uni url_Parse sha256_hex runner before after entry_err timed_out trace web k w in
  (if hr_Released res then
     exists c f evs, NewContentCandidate uni url_Parse sha256_hex web = Ok c /\ k = Some f /\
       clean uni runner before after (Armor.content_request c) /\ w' = (f (mkRelease c true) (recorded trace evs w)).2
   else held_back trace w w') /\
  let '(res, w') := armored_tool_call uni url_Parse json_compact sha256_hex runner before after entry_err timed_out trace tool exec w in
  (if hr_Released res then
     exists c f evs later, NewToolCallCandidate uni url_Parse json_compact sha256_hex tool = Ok c /\ exec = Some f /\
       clean uni runner before after (Armor.tool_request c) /\
       w' = recorded trace later (f (mkRelease c true) (recorded trace evs w)).2
   else held_back trace w w').
Proof.
  destruct (armored_content _ _ _ _ _ _ _ _ _ _ _ _) as [res w'] eqn:E1.
  destruct (armored_tool_call _ _ _ _ _ _ _ _ _ _ _ _ _) as [res2 w2] eqn:E2.
  apply content_goes_on in E1. apply tool_call_goes_on in E2. split.
  - destruct (hr_Released res); [|done]. destruct E1 as (c & f & evs & Hc & Hk & (He & Ht & g & d & [= <-] & Hg & H1 & H2 & H3) & Hw).
    exists c, f, evs. split_and!; [done..| |done].
    apply (Armor.decide_allows uni runner before after (cc_ID c) CandidateKindContent (Armor.content_request c)).
    unfold Armor.DecideContent in Hg. injection Hg as ->. done.
  - destruct (hr_Released res2); [|done]. destruct E2 as (c & f & evs & later & Hc & Hk & (He & Ht & g & d & [= <-] & Hg & H1 & H2 & H3) & Hw).
    exists c, f, evs, later. split_and!; [done..| |done].
    apply (Armor.decide_allows uni runner before after (tc_ID c) CandidateKindToolCall (Armor.tool_request c)).
    unfold Armor.DecideToolCall in Hg. injection Hg as ->. done.
Qed.
