(* ===== verification/Executors.v ===== *)
(** * The command-line executors ([executor/])

    Claude Code ([claude_cli.go], with its ingestion policy), Codex ([codex_cli.go]),
    Gemini ([gemini_cli.go]) and Antigravity ([antigravity_cli.go]): the prompt, the
    arguments and the environment of the subprocess, what is read from its output,
    and the text of its failure. Processes, temporary directories and files are
    parameters that act on [X]; the secret source is the one of [Vault]. *)

From stdpp Require Import base gmap strings list.
From Stdlib Require Import ZArith Lia Ascii.
From S2P Require Import Prelude GoStrings Paths Seams TaskSource Registry Vault Publisher OSFiles Toolset Ingestion Harness.

Definition ClaudeCLIAuthEnv : string := "ANTHROPIC_API_KEY".
Definition ClaudeCLIOAuthEnv : string := "CLAUDE_CODE_OAUTH_TOKEN".
Definition ClaudeCLIAuthTokenEnv : string := "ANTHROPIC_AUTH_TOKEN".
Definition ClaudeCLIBaseURLEnv : string := "ANTHROPIC_BASE_URL".
Definition claudeCLIHistoryEnv : string := "CLAUDE_CODE_SKIP_PROMPT_HISTORY".
Definition LocalProxyAuthPlaceholder : string := "local-proxy-no-auth".
Definition CodexAPIKeyEnv : string := "OPENAI_API_KEY".
Definition GeminiAPIKeyEnv : string := "GEMINI_API_KEY".

Inductive ExecErr :=
| ExBlankCLIPath
| ExBlankWorktree
| ExMissingCredential
| ExBlankTaskID
| ExBlankTaskSpec
| ExMissingBranch
| ExIngestion (e : HarnessErr)
| ExTempDir (e : string)
| ExSecretNotFound (ref : string)
| ExFailed (err output : string)
| ExNoChanges
| ExCommit (step err output : string).

(** ** Prompts, environments, outputs *)

(** The prompts share all but the name and the last instruction. *)
Definition prompt_text (name : string) (t : Task) (worktree : string) (last : list string) : string :=
  Join (String nl "")
    ([ "You are running inside agent-builder as the " +:+ name +:+ " executor."; "";
       "Task ID: " +:+ task_ID t; "Repo: " +:+ task_Repo t; "Task spec: " +:+ task_Spec t; "Worktree: " +:+ worktree; "";
       "Read the task spec, implement the requested change in this worktree, run the relevant verification, and leave the produced git branch checked out." ]
     ++ last ++ [""]) +:+
  (if String.eqb (task_PriorFailure t) "" then ""
   else Join (String nl "") [""; "Your previous attempt failed the verification gate."; ""; task_PriorFailure t; ""]).
Definition branch_line : list string :=
  ["When finished, write the produced branch name as the last line of your output in the format:"; "BRANCH: <branch-name>"].
Definition buildClaudePrompt (t : Task) (worktree branchPath : string) : string :=
  prompt_text "Claude Code CLI" t worktree ["When finished, write only the produced branch name to this file:"; branchPath].
Definition buildCodexPrompt (t : Task) (worktree : string) : string := prompt_text "Codex CLI" t worktree branch_line.
Definition buildGeminiPrompt (t : Task) (worktree : string) : string := prompt_text "Gemini CLI" t worktree branch_line.
Definition buildAntigravityPrompt (t : Task) (worktree : string) : string := prompt_text "Antigravity CLI" t worktree branch_line.

(** Entries of an environment that set none of [names]. *)
Definition sets (name entry : string) : bool := HasPrefix entry (name +:+ "=").
Definition without (names : list string) (base : list string) : list string :=
  filter (fun e => existsb (fun n => sets n e) names = false) base.

(** [claudeEnv]. *)
Definition claude_vars : list string :=
  [ClaudeCLIAuthEnv; ClaudeCLIOAuthEnv; ClaudeCLIAuthTokenEnv; ClaudeCLIBaseURLEnv; "HOME"; "XDG_CONFIG_HOME";
   "XDG_CACHE_HOME"; claudeCLIHistoryEnv].
Definition claude_credentials (authToken oauthToken baseURL : string) : list string :=
  if negb (String.eqb baseURL "")
  then [ClaudeCLIBaseURLEnv +:+ "=" +:+ baseURL; ClaudeCLIAuthTokenEnv +:+ "=" +:+ LocalProxyAuthPlaceholder]
  else if negb (blank oauthToken) then [ClaudeCLIOAuthEnv +:+ "=" +:+ oauthToken]
  else if negb (blank authToken) then [ClaudeCLIAuthEnv +:+ "=" +:+ authToken]
  else [].
Definition claudeEnv (base : list string) (authToken oauthToken baseURL tempHome : string) : list string :=
  without claude_vars base ++ claude_credentials authToken oauthToken baseURL ++
  ["HOME=" +:+ PathJoin tempHome "home"; "XDG_CONFIG_HOME=" +:+ PathJoin tempHome "xdg-config";
   "XDG_CACHE_HOME=" +:+ PathJoin tempHome "xdg-cache"; claudeCLIHistoryEnv +:+ "=1"].

(** [codexEnv], [geminiEnv], [geminiSubscriptionEnv]. *)
Definition codexEnv (base : list string) (modelID apiKey : string) : list string :=
  without [CodexAPIKeyEnv] base ++ [CodexAPIKeyEnv +:+ "=" +:+ apiKey; "CODEX_MODEL=" +:+ modelID].
Definition geminiEnv (base : list string) (modelID apiKey : string) : list string :=
  without [GeminiAPIKeyEnv] base ++ [GeminiAPIKeyEnv +:+ "=" +:+ apiKey; "GEMINI_MODEL=" +:+ modelID].
Definition geminiSubscriptionEnv (base : list string) (modelID : string) : list string :=
  without [GeminiAPIKeyEnv] base ++ ["GEMINI_MODEL=" +:+ modelID].

(** [extractCodexBranch], and the same function of Gemini and Antigravity: the last
    line that starts with [BRANCH:]. *)
Fixpoint find_branch (rlines : list string) : string :=
  match rlines with
  | [] => ""
  | l :: rlines =>
    let line := TrimSpace l in
    if HasPrefix line "BRANCH:" then TrimSpace (TrimPrefix line "BRANCH:") else find_branch rlines
  end.
Definition extractBranch (stdout : string) : string := find_branch (reverse (Split nl (TrimSpace stdout))).

(** [sanitizeCLIOutput] with its two tokens, and the functions of Codex and Gemini
    with one; without tokens it is that of Antigravity. *)
Definition sanitizeOutput (stdout stderr : string) (tokens : list string) : string :=
  let output := TrimSpace (Join (String nl "") [stdout; stderr]) in
  if String.eqb output "" then "no output"
  else Redact output tokens.

(** ** Ingestion policy of Claude *)

Inductive ClaudeIngestionPolicy := ClaudeIngestionDisabled | ClaudeIngestionReviewed | PolicyOther (s : string).
Definition policy_of (s : string) : ClaudeIngestionPolicy :=
  if String.eqb s "disabled" then ClaudeIngestionDisabled
  else if String.eqb s "reviewed" then ClaudeIngestionReviewed else PolicyOther s.
Definition normalizeClaudeIngestionPolicy (s : string) : ClaudeIngestionPolicy :=
  if blank s then ClaudeIngestionDisabled else policy_of (TrimSpace s).
Definition ParseClaudeIngestionPolicy (raw : string) : result HarnessErr ClaudeIngestionPolicy :=
  match policy_of (TrimSpace raw) with PolicyOther _ => Err (ErrUnsupportedPolicy raw) | p => Ok p end.

(** [ClaudeCLI]: [cl_harness] tells whether an ingestion harness is set. *)
Record ClaudeCLI := mkClaude {
  cl_cliPath : string; cl_worktree : string; cl_authToken : string; cl_oauthToken : string; cl_model : string;
  cl_baseURL : string; cl_policy : ClaudeIngestionPolicy; cl_harness : bool }.
Definition NewClaudeCLI (cliPath worktree authToken oauthToken model baseURL policy : string) (harness : bool) : ClaudeCLI :=
  mkClaude (TrimSpace cliPath) (TrimSpace worktree) authToken oauthToken (TrimSpace model) (TrimSpace baseURL)
    (normalizeClaudeIngestionPolicy policy) harness.

(** [validateIngestionPolicy], [validate]. *)
Definition validateIngestionPolicy (e : ClaudeCLI) : option HarnessErr :=
  match cl_policy e with
  | ClaudeIngestionDisabled => None
  | ClaudeIngestionReviewed => if cl_harness e then None else Some ErrMissingHarness
  | PolicyOther s => Some (ErrUnsupportedPolicy s)
  end.
Definition validate (e : ClaudeCLI) (t : Task) : option ExecErr :=
  if blank (cl_cliPath e) then Some ExBlankCLIPath
  else if blank (cl_worktree e) then Some ExBlankWorktree
  else if String.eqb (cl_baseURL e) "" && blank (cl_oauthToken e) && blank (cl_authToken e) then Some ExMissingCredential
  else if blank (task_ID t) then Some ExBlankTaskID
  else if blank (task_Spec t) then Some ExBlankTaskSpec
  else ExIngestion <$> validateIngestionPolicy e.

(** [HandleWebContent] and [HandleToolCall] of Claude, over the harness's own. *)
Definition claude_handle {C W} (e : ClaudeCLI) (handle : W -> HandleResult C * W) (w : W) : HandleResult C * W :=
  match validateIngestionPolicy e with
  | Some err => (mkHandled None None false (Some err), w)
  | None =>
    match cl_policy e with
    | ClaudeIngestionDisabled => (mkHandled None None false (Some ErrIngestionDisabled), w)
    | _ => handle w
    end
  end.

(** ** Runs *)

Section Run.
Context {X : Type}.
(** A subprocess with its two outputs; [git] with its combined one; the temporary
    directory of a run; a file. *)
Variable spawn : Command -> X -> ((string * string) * option string) * X.
Variable git : Command -> X -> (string * option string) * X.
Variable MkdirTemp : X -> result string string * X.
Variable RemoveAll : string -> X -> X.
Variable ReadFile : string -> X -> option string.
Variable environ : list string.

Notation outcome := (result ExecErr ExecResult).
Definition produced (branch : string) : outcome :=
  if String.eqb branch "" then Err ExMissingBranch else Ok (mkExecResult branch true).

(** [NewClaudeCLIFromEntry]. *)
Definition NewClaudeCLIFromEntry (entry : RegistryEntry) (src : SecretSource X) (worktree : string) (x : X) : ClaudeCLI * X :=
  if String.eqb (re_SecretRef entry) ""
  then (NewClaudeCLI "claude" worktree "" "" (re_ModelID entry) (re_Endpoint entry) "" false, x)
  else let '((authToken, oauthToken), x) := ss_ProviderToken src x in
       (NewClaudeCLI "claude" worktree authToken oauthToken (re_ModelID entry) "" "" false, x).

(** [RunContext] of Claude. *)
Definition claude_command (e : ClaudeCLI) (t : Task) (runDir : string) : Command :=
  mkCommand (cl_cliPath e)
    (["-p"; buildClaudePrompt t (cl_worktree e) (PathJoin runDir "produced-branch.txt")] ++
     (if String.eqb (cl_model e) "" then [] else ["--model"; cl_model e]))
    (cl_worktree e) (Some (claudeEnv environ (cl_authToken e) (cl_oauthToken e) (cl_baseURL e) runDir)).
Definition claude_Run (e : ClaudeCLI) (t : Task) (x : X) : outcome * X :=
  match validate e t with
  | Some err => (Err err, x)
  | None =>
    let '(dir, x) := MkdirTemp x in
    match dir with
    | Err err => (Err (ExTempDir err), x)
    | Ok runDir =>
      let '(((stdout, stderr), err), x) := spawn (claude_command e t runDir) x in
      let r := match err with
               | Some err => Err (ExFailed err (sanitizeOutput stdout stderr [cl_authToken e; cl_oauthToken e]))
               | None => match ReadFile (PathJoin runDir "produced-branch.txt") x with
                         | None => Err ExMissingBranch
                         | Some b => produced (TrimSpace b)
                         end
               end in
      (r, RemoveAll runDir x)
    end
  end.

(** A CLI executor built from an entry: Codex, Gemini, Antigravity. *)
Record EntryCLI := mkEntryCLI { ec_entry : RegistryEntry; ec_worktree : string }.
Definition NewEntryCLI (entry : RegistryEntry) (worktree : string) : EntryCLI := mkEntryCLI entry (TrimSpace worktree).

(** The subprocess of a run whose failure shows none of [tokens]. *)
Definition run_cli (c : Command) (tokens : list string) (k : string -> X -> outcome * X) (x : X) : outcome * X :=
  let '(((stdout, stderr), err), x) := spawn c x in
  match err with
  | Some err => (Err (ExFailed err (sanitizeOutput stdout stderr tokens)), x)
  | None => k (extractBranch stdout) x
  end.

(** [CodexCLI.run]. *)
Definition codex_command (e : EntryCLI) (t : Task) (apiKey : string) : Command :=
  mkCommand "codex"
    ["--model"; re_ModelID (ec_entry e); "--approval-policy"; "never-require"; buildCodexPrompt t (ec_worktree e)]
    (ec_worktree e) (Some (codexEnv environ (re_ModelID (ec_entry e)) apiKey)).
Definition codex_Run (src : SecretSource X) (e : EntryCLI) (t : Task) (x : X) : outcome * X :=
  if blank (ec_worktree e) then (Err ExBlankWorktree, x)
  else
    let '(key, x) := ss_NamedProviderToken src (re_SecretRef (ec_entry e)) x in
    match key with
    | None => (Err (ExSecretNotFound (re_SecretRef (ec_entry e))), x)
    | Some apiKey => run_cli (codex_command e t apiKey) [apiKey] (fun b x => (produced b, x)) x
    end.

(** [GeminiCLI.run]: with a key, or logged in. *)
Definition gemini_command (e : EntryCLI) (t : Task) (apiKey : string) : Command :=
  mkCommand "gemini" ["--model"; re_ModelID (ec_entry e); buildGeminiPrompt t (ec_worktree e)] (ec_worktree e)
    (Some (if String.eqb (re_SecretRef (ec_entry e)) "" then geminiSubscriptionEnv environ (re_ModelID (ec_entry e))
           else geminiEnv environ (re_ModelID (ec_entry e)) apiKey)).
Definition gemini_Run (src : SecretSource X) (e : EntryCLI) (t : Task) (x : X) : outcome * X :=
  if blank (ec_worktree e) then (Err ExBlankWorktree, x)
  else
    let '(key, x) := if String.eqb (re_SecretRef (ec_entry e)) "" then (Some "", x)
                     else ss_NamedProviderToken src (re_SecretRef (ec_entry e)) x in
    match key with
    | None => (Err (ExSecretNotFound (re_SecretRef (ec_entry e))), x)
    | Some apiKey => run_cli (gemini_command e t apiKey) [apiKey] (fun b x => (produced b, x)) x
    end.

(** [AntigravityCLI.commitWorktree]. *)
Fixpoint git_steps (worktree : string) (steps : list (list string)) (x : X) : option ExecErr * X :=
  match steps with
  | [] => (None, x)
  | args :: steps =>
    let '((out, err), x) := git (mkCommand "git" args worktree None) x in
    match err with
    | Some e => (Some (ExCommit (Join " " args) e (TrimSpace out)), x)
    | None => git_steps worktree steps x
    end
  end.
Definition commitWorktree (worktree branch taskID : string) (x : X) : option ExecErr * X :=
  let '((out, err), x) := git (mkCommand "git" ["add"; "-A"] worktree None) x in
  match err with
  | Some e => (Some (ExCommit "add" e (TrimSpace out)), x)
  | None =>
    let '((out, err), x) := git (mkCommand "git" ["status"; "--porcelain"] worktree None) x in
    match err with
    | Some e => (Some (ExCommit "status" e (TrimSpace out)), x)
    | None =>
      if blank out then (Some ExNoChanges, x)
      else git_steps worktree
             [["checkout"; "-B"; branch];
              ["-c"; "user.name=agent-builder"; "-c"; "user.email=agent-builder@local"; "commit"; "-m";
               "agent-builder: complete task " +:+ taskID]] x
    end
  end.

(** [AntigravityCLI.run]. *)
Definition antigravity_command (e : EntryCLI) (t : Task) : Command :=
  mkCommand "agy"
    ["--print"; buildAntigravityPrompt t (ec_worktree e); "--model"; re_ModelID (ec_entry e); "--add-dir"; ec_worktree e;
     "--dangerously-skip-permissions"]
    (ec_worktree e) (Some environ).
Definition antigravity_Run (e : EntryCLI) (t : Task) (x : X) : outcome * X :=
  if blank (ec_worktree e) then (Err ExBlankWorktree, x)
  else run_cli (antigravity_command e t) []
    (fun b x =>
       let branch := if String.eqb b "" then "task/" +:+ task_ID t else b in
       let '(err, x) := commitWorktree (ec_worktree e) branch (task_ID t) x in
       match err with
       | Some err => (Err err, x)
       | None => (Ok (mkExecResult branch true), x)
       end) x.
End Run.

(** ** Credentials *)

Lemma without_filter names (P : string -> bool) base :
  (forall e, P e = true -> exists n, n ∈ names /\ sets n e = true) ->
  filter (fun e => P e = true) (without names base) = [].
Proof.
  intros H. unfold without. induction base as [|e base IH]; [done|]. rewrite filter_cons. case_decide as Hd; [|done].
  rewrite filter_cons_False; [done|]. intros Hp. apply H in Hp as (n & Hn & Hs).
  apply not_true_iff_false in Hd. apply Hd, existsb_exists. exists n. split; [by apply list_elem_of_In | done].
Qed.

Lemma without_idemp names base : without names (without names base) = without names base.
Proof.
  unfold without. induction base as [|e base IH]; [done|]. rewrite filter_cons. case_decide as Hd; [|done].
  by rewrite filter_cons_True, IH.
Qed.

Definition sets_any (names : list string) (e : string) : bool := existsb (fun n => sets n e) names.

Lemma without_sets_any sub names base :
  sub ⊆ names -> filter (fun e => sets_any sub e = true) (without names base) = [].
Proof.
  intros Hs. apply (without_filter names (sets_any sub)). intros e (n & Hn & He)%existsb_exists.
  exists n. split; [by apply Hs, list_elem_of_In | done].
Qed.

(** The variables that carry a credential or say where requests go. *)
Definition claude_secrets : list string := [ClaudeCLIAuthEnv; ClaudeCLIOAuthEnv; ClaudeCLIAuthTokenEnv; ClaudeCLIBaseURLEnv].

Lemma sets_self n v : sets n (n +:+ "=" +:+ v) = true.
Proof. unfold sets, HasPrefix. rewrite <- str_app_assoc. apply prefix_of_app. Qed.

Lemma sets_any_self names n v : n ∈ names -> sets_any names (n +:+ "=" +:+ v) = true.
Proof. intros H. apply existsb_exists. exists n. split; [by apply list_elem_of_In | apply sets_self]. Qed.

Lemma is_secret n v : n ∈ claude_secrets -> sets_any claude_secrets (n +:+ "=" +:+ v) = true.
Proof. apply sets_any_self. Qed.

Lemma is_var n v : n ∈ claude_vars -> existsb (fun m => sets m (n +:+ "=" +:+ v)) claude_vars <> false.
Proof. intros H E. by rewrite (sets_any_self claude_vars n v H : existsb _ _ = true) in E. Qed.

Local Ltac cut_entry :=
  first [ apply is_var; unfold claude_vars; set_solver
        | apply (is_var "HOME"); unfold claude_vars; set_solver
        | apply (is_var "XDG_CONFIG_HOME"); unfold claude_vars; set_solver
        | apply (is_var "XDG_CACHE_HOME"); unfold claude_vars; set_solver ].
Local Ltac own_entry :=
  first [ exact (sets_self "HOME" _) | exact (sets_self CodexAPIKeyEnv _) | exact (sets_self GeminiAPIKeyEnv _)
        | apply is_secret; unfold claude_secrets; set_solver ].
Local Ltac picks :=
  simpl negb; cbv iota; cbn [app];
  repeat first [ rewrite filter_cons_False by (vm_compute; discriminate)
               | rewrite filter_cons_True by own_entry
               | rewrite filter_cons_False by cut_entry
               | rewrite filter_cons_True by (vm_compute; reflexivity) ];
  reflexivity.

Lemma claude_env_credential base authToken oauthToken baseURL home :
  filter (fun e => sets_any claude_secrets e = true) (claudeEnv base authToken oauthToken baseURL home) =
    (if String.eqb baseURL ""
     then if blank oauthToken
          then if blank authToken then [] else ["ANTHROPIC_API_KEY=" +:+ authToken]
          else ["CLAUDE_CODE_OAUTH_TOKEN=" +:+ oauthToken]
     else ["ANTHROPIC_BASE_URL=" +:+ baseURL; "ANTHROPIC_AUTH_TOKEN=local-proxy-no-auth"]).
Proof.
  unfold claudeEnv. rewrite filter_app, without_sets_any by (unfold claude_secrets, claude_vars; set_solver).
  unfold claude_credentials. destruct (String.eqb baseURL ""); simpl negb; cbv iota; [|picks].
  destruct (blank oauthToken); simpl negb; cbv iota; [|picks]. destruct (blank authToken); picks.
Qed.

(** The environment of the Claude command line has exactly one credential: the proxy
    address with the placeholder token, or else the OAuth token, or else the key,
    never two and never one inherited; its HOME is the temporary one and all
    unrelated variables are passed on. The Codex and Gemini environments carry
    exactly the key of the entry, and the subscription mode of Gemini none. *)
Theorem executors_pass_on_one_credential base authToken oauthToken baseURL home modelID apiKey :
  filter (fun e => sets_any claude_secrets e = true) (claudeEnv base authToken oauthToken baseURL home) =
    (if String.eqb baseURL ""
     then if blank oauthToken
          then if blank authToken then [] else ["ANTHROPIC_API_KEY=" +:+ authToken]
          else ["CLAUDE_CODE_OAUTH_TOKEN=" +:+ oauthToken]
     else ["ANTHROPIC_BASE_URL=" +:+ baseURL; "ANTHROPIC_AUTH_TOKEN=local-proxy-no-auth"]) /\
  filter (fun e => sets "HOME" e = true) (claudeEnv base authToken oauthToken baseURL home) = ["HOME=" +:+ PathJoin home "home"] /\
  without claude_vars (claudeEnv base authToken oauthToken baseURL home) = without claude_vars base /\
  filter (fun e => sets "OPENAI_API_KEY" e = true) (codexEnv base modelID apiKey) = ["OPENAI_API_KEY=" +:+ apiKey] /\
  filter (fun e => sets "GEMINI_API_KEY" e = true) (geminiEnv base modelID apiKey) = ["GEMINI_API_KEY=" +:+ apiKey] /\
  filter (fun e => sets "GEMINI_API_KEY" e = true) (geminiSubscriptionEnv base modelID) = [].
Proof.
  assert (One : forall n names base rest, n ∈ names ->
    filter (fun e => sets n e = true) (without names base ++ rest) = filter (fun e => sets n e = true) rest).
  { intros n names b rest Hn. rewrite filter_app, (without_filter names (sets n)); [done|]. intros e He. by exists n. }
  split; [apply claude_env_credential|]. unfold claudeEnv. split_and!.
  - rewrite One by (unfold claude_vars; set_solver). unfold claude_credentials.
    destruct (String.eqb baseURL ""); simpl negb; cbv iota; [|picks].
    destruct (blank oauthToken); simpl negb; cbv iota; [|picks]. destruct (blank authToken); picks.
  - unfold without at 1. rewrite filter_app. fold (without claude_vars (without claude_vars base)). rewrite without_idemp.
    rewrite <- (app_nil_r (without claude_vars base)) at 2. f_equal. unfold claude_credentials.
    destruct (String.eqb baseURL ""); simpl negb; cbv iota; [|picks].
    destruct (blank oauthToken); simpl negb; cbv iota; [|picks]. destruct (blank authToken); picks.
  - unfold codexEnv. rewrite One by set_solver. picks.
  - unfold geminiEnv. rewrite One by set_solver. picks.
  - unfold geminiSubscriptionEnv. rewrite One by set_solver. picks.
Qed.

Lemma sanitize_hides stdout stderr tokens sec :
  sec ∈ tokens -> opaque sec = true -> Contains "no output" sec = false -> Contains (sanitizeOutput stdout stderr tokens) sec = false.
Proof. intros Hin Ho Hn. unfold sanitizeOutput. destruct (String.eqb _ ""); [done|]. by apply Redact_hides. Qed.

Lemma run_cli_failed {X} spawn c tokens (k : string -> X -> result ExecErr ExecResult * X) x err out x' :
  (forall b x, forall err out, (k b x).1 <> Err (ExFailed err out)) ->
  run_cli spawn c tokens k x = (Err (ExFailed err out), x') -> exists stdout stderr, out = sanitizeOutput stdout stderr tokens.
Proof.
  intros Hk. unfold run_cli. destruct (spawn c x) as [[[stdout stderr] [e|]] x1]; [intros [= <- <- <-]; by eexists _, _|].
  intros E. exfalso. eapply (Hk (extractBranch stdout) x1). by rewrite E.
Qed.

Lemma produced_failed b err out : produced b <> Err (ExFailed err out).
Proof. unfold produced. by destruct (String.eqb b ""). Qed.

Lemma validate_failed cl t err out : validate cl t <> Some (ExFailed err out).
Proof.
  unfold validate. destruct (blank (cl_cliPath cl)); [done|]. destruct (blank (cl_worktree cl)); [done|].
  destruct (_ && _ && _); [done|]. destruct (blank (task_ID t)); [done|]. destruct (blank (task_Spec t)); [done|].
  by destruct (validateIngestionPolicy cl).
Qed.

(** When the Claude, Codex or Gemini command line fails, the output shown in the
    error does not contain the token the command was given, for tokens the redaction
    can hide (those no replacement text can spell). *)
Theorem executor_failures_show_no_token {X} spawn MkdirTemp RemoveAll ReadFile environ (src : SecretSource X)
    cl e t x err out x' sec :
  opaque sec = true -> Contains "no output" sec = false ->
  (claude_Run spawn MkdirTemp RemoveAll ReadFile environ cl t x = (Err (ExFailed err out), x') /\
     sec ∈ [cl_authToken cl; cl_oauthToken cl] \/
   codex_Run spawn environ src e t x = (Err (ExFailed err out), x') /\
     (ss_NamedProviderToken src (re_SecretRef (ec_entry e)) x).1 = Some sec \/
   gemini_Run spawn environ src e t x = (Err (ExFailed err out), x') /\ re_SecretRef (ec_entry e) <> "" /\
     (ss_NamedProviderToken src (re_SecretRef (ec_entry e)) x).1 = Some sec) ->
  Contains out sec = false.
Proof.
  intros Ho Hn [[E Hs]|[[E Hs]|(E & Hr & Hs)]].
  - unfold claude_Run in E. destruct (validate cl t) as [ve|] eqn:Ev; [injection E as -> _; by apply validate_failed in Ev|].
    destruct (MkdirTemp x) as [[dir|e0] x1]; [|done]. destruct (spawn _ x1) as [[[stdout stderr] er] x2].
    destruct er as [er|]; [injection E as <- <- <-; by apply sanitize_hides|].
    destruct (ReadFile _ x2) as [b|]; [|done]. injection E as E _. by apply produced_failed in E.
  - unfold codex_Run in E. destruct (blank (ec_worktree e)); [done|].
    destruct (ss_NamedProviderToken src _ x) as [key x1]. simpl in Hs. subst key.
    apply run_cli_failed in E as (stdout & stderr & ->); [|intros b x0 ? ?; apply produced_failed].
    apply sanitize_hides; [set_solver | done | done].
  - unfold gemini_Run in E. destruct (blank (ec_worktree e)); [done|]. apply String.eqb_neq in Hr. rewrite Hr in E.
    destruct (ss_NamedProviderToken src _ x) as [key x1]. simpl in Hs. subst key.
    apply run_cli_failed in E as (stdout & stderr & ->); [|intros b x0 ? ?; apply produced_failed].
    apply sanitize_hides; [set_solver | done | done].
Qed.

(** ** Instances *)

(** A subprocess that fails and shows the key it was given. *)
Definition demo_spawn (c : Command) (n : nat) : ((string * string) * option string) * nat :=
  ((("", "auth failed for sk-123"), Some "exit status 1"), S n).
Definition demo_cli : EntryCLI :=
  NewEntryCLI (mkEntry "codex" (HarnessOther "codex") 1 1 "gpt" "" "openai" (mkQuotaBudget 0 0) 0 (mkAvailability (AvailOther "") 0)) "/w".
Definition demo_source : SecretSource nat := mkSource (fun x => (("", ""), x)) ("", "") (fun _ x => (Some "sk-123", x)).

Lemma executor_failures_show_no_token_witness :
  exists x', codex_Run demo_spawn ["OPENAI_API_KEY=old"; "LANG=C"] demo_source demo_cli (mkTask "1" "r" "s" "") 0%nat
    = (Err (ExFailed "exit status 1" "auth failed for [REDACTED]"), x') /\
    Contains "auth failed for [REDACTED]" "sk-123" = false.
Proof.
  assert (L : (codex_Run demo_spawn ["OPENAI_API_KEY=old"; "LANG=C"] demo_source demo_cli (mkTask "1" "r" "s" "") 0%nat).1
    = Err (ExFailed "exit status 1" "auth failed for [REDACTED]")) by (vm_compute; reflexivity).
  destruct (codex_Run _ _ _ _ _ _) as [r x'] eqn:E. simpl in L. subst r. exists x'. split; [reflexivity|].
  apply (executor_failures_show_no_token demo_spawn (fun x => (Err "", x)) (fun _ x => x) (fun _ _ => None)
    ["OPENAI_API_KEY=old"; "LANG=C"] demo_source (NewClaudeCLI "" "" "" "" "" "" "" false) demo_cli (mkTask "1" "r" "s" "") 0%nat
    "exit status 1" _ x' "sk-123"); [reflexivity | reflexivity |].
  right. left. split; [exact E | reflexivity].
Defined.
