(* ===== verification/ControlLoop.v ===== *)
(** * The control loop and the goal actors

    [internal/cli]: [runControlLoop] of [orchestrate.go] with its routing, the
    mailboxes of [router.go], the status replies of [status_handler.go] and the
    goal actors of [goal_actor.go]. The loop, the two goroutines of every actor
    and the cancellation of the root context are turns of one machine; a turn is
    one access to shared state. The orchestrator is the class [OrchLike]: its
    calls run step by step between the turns of everything else. *)

From stdpp Require Import base gmap strings list.
From Stdlib Require Import ZArith Lia.
From S2P Require Import Prelude GoStrings Seams Loop Fleet Dispatch Orchestrator.
Open Scope Z_scope.

(** ** The orchestrator as the control plane sees it *)

Inductive Call :=
| CBeginGoal (goal : Task)
| CConfirmAndPlan (goal : Task)
| CClarifyAndReport (goal : Task)
| CContinueAnswer (goalID text : string)
| CEndConversation (goalID : string)
| CHasPendingPlan (goalID : string)
| CConsumePlanOnCancel (goalID : string)
| CSolicitApproval (goalID : string)
| CResumeApproval (goalID taskID : string) (approved : bool)
| CSweepApprovalTimeouts.

(** What a call returned: the boolean of [HasPendingPlan], the error of the others. *)
Record Reply := mkReply { rp_found : bool; rp_err : option string }.

(** [op_step done p o reg]: one step of the running call [p], whose context is
    done when [done]; [None] when the call is blocked. *)
Class OrchLike (O P : Type) := {
  op_start : Call -> P;
  op_step : bool -> P -> O -> option StatusRegistry -> option ((O * option StatusRegistry) * (P + Reply))
}.

(** ** State *)

(** What [Next] of the message source yields, in order; the end of the list is
    the end of the source. *)
Inductive SrcItem :=
| SrcMessage (m : Message)
| SrcMalformed (e : string)
| SrcError (e : string).

Inductive LEvent :=
| EvRead (i : SrcItem)
| EvAccepted (m : Message)
| EvRefused (m : Message)
| EvUnknown (m : Message)
| EvTaken (goalID : string) (m : Message)
| EvReport (text : string)
| EvCall (c : Call).

(** What the goroutines share. Context 0 is the one of [runControlLoop]; the others
    are derived from it, one for each new goal. *)
Record Shared (O : Type) := mkShared {
  sh_orch : O;
  sh_reg : option StatusRegistry;
  sh_boxes : gmap string (list Message);
  sh_admit : nat;
  sh_cancelled : gset nat;
  sh_next : nat;
  sh_shutdown : bool;
  sh_log : list LEvent
}.
Arguments mkShared {O}. Arguments sh_orch {O}. Arguments sh_reg {O}. Arguments sh_boxes {O}. Arguments sh_admit {O}.
Arguments sh_cancelled {O}. Arguments sh_next {O}. Arguments sh_shutdown {O}. Arguments sh_log {O}.

(** A step of a command handler. *)
Inductive Instr (P : Type) :=
| IEnqueue (text : string)
| ICheckpoint
| IFoldClarify
| IFollowUp
| IAmend
| IAmendEach (texts : list string)
| IAmendRegister (amend : Task)
| IAmendStart (amend : Task)
| ICancel
| ISetCancelled (fired : bool)
| IConfirm (nilChan : bool)
| ICloseConfirm
| ICall (c : Call) (onError : string)
| IRunning (p : P) (onError : string)
| IReport (text : string).
Arguments IEnqueue {P}. Arguments ICheckpoint {P}. Arguments IFoldClarify {P}. Arguments IFollowUp {P}. Arguments IAmend {P}.
Arguments IAmendEach {P}. Arguments IAmendRegister {P}. Arguments IAmendStart {P}. Arguments ICancel {P}.
Arguments ISetCancelled {P}. Arguments IConfirm {P}. Arguments ICloseConfirm {P}. Arguments ICall {P}.
Arguments IRunning {P}. Arguments IReport {P}.

(** Where [goalActor.run] stands. *)
Inductive Main (P : Type) :=
| MAdmit
| MBegin (p : P)
| MIntake
| MConfirmWait
| MConfirm (p : P)
| MAnswer
| MLinger
| MEnd (p : P)
| MClose
| MJoin
| MRelease
| MExit.
Arguments MAdmit {P}. Arguments MBegin {P}. Arguments MIntake {P}. Arguments MConfirmWait {P}. Arguments MConfirm {P}.
Arguments MAnswer {P}. Arguments MLinger {P}. Arguments MEnd {P}. Arguments MClose {P}. Arguments MJoin {P}.
Arguments MRelease {P}. Arguments MExit {P}.

(** The select a handled command returns to. *)
Inductive Back := BLoop | BPost | BSweep.

(** Where the goroutine that drains the mailbox stands; [DOff] before it is started. *)
Inductive Drain (P : Type) :=
| DOff
| DSelect (b : Back)
| DHandle (code : list (Instr P)) (b : Back)
| DPending (p : P)
| DExit.
Arguments DOff {P}. Arguments DSelect {P}. Arguments DHandle {P}. Arguments DPending {P}. Arguments DExit {P}.

(** [goalActor], its two goroutines and the channels [handleDone] and [confirmChan]. *)
Record Actor (P : Type) := mkActor {
  a_goal : Task;
  a_ctx : nat;
  a_main : Main P;
  a_drain : Drain P;
  a_handleDone : bool;
  a_confirmed : bool;
  a_amendSeq : Z
}.
Arguments mkActor {P}. Arguments a_goal {P}. Arguments a_ctx {P}. Arguments a_main {P}. Arguments a_drain {P}.
Arguments a_handleDone {P}. Arguments a_confirmed {P}. Arguments a_amendSeq {P}.

(** Where [runControlLoop] stands. *)
Inductive LoopPc :=
| LRead
| LRegister (goal : Task)
| LContext (goal : Task)
| LStart (goal : Task) (ctx : nat)
| LClose (err : option string)
| LWait (err : option string)
| LReturn (err : option string).

Record Plane (O P : Type) := mkPlane {
  cp_source : list SrcItem;
  cp_loop : LoopPc;
  cp_actors : list (Actor P);
  cp_sh : Shared O
}.
Arguments mkPlane {O P}. Arguments cp_source {O P}. Arguments cp_loop {O P}. Arguments cp_actors {O P}. Arguments cp_sh {O P}.

(** ** Updates *)

Definition set_reg {O} (r : option StatusRegistry) (s : Shared O) : Shared O :=
  mkShared (sh_orch s) r (sh_boxes s) (sh_admit s) (sh_cancelled s) (sh_next s) (sh_shutdown s) (sh_log s).
Definition set_orch {O} (o : O) (r : option StatusRegistry) (s : Shared O) : Shared O :=
  mkShared o r (sh_boxes s) (sh_admit s) (sh_cancelled s) (sh_next s) (sh_shutdown s) (sh_log s).
Definition set_box {O} (goalID : string) (b : list Message) (s : Shared O) : Shared O :=
  mkShared (sh_orch s) (sh_reg s) (<[goalID := b]> (sh_boxes s)) (sh_admit s) (sh_cancelled s) (sh_next s) (sh_shutdown s) (sh_log s).
Definition set_admit {O} (n : nat) (s : Shared O) : Shared O :=
  mkShared (sh_orch s) (sh_reg s) (sh_boxes s) n (sh_cancelled s) (sh_next s) (sh_shutdown s) (sh_log s).
Definition fire {O} (c : nat) (s : Shared O) : Shared O :=
  mkShared (sh_orch s) (sh_reg s) (sh_boxes s) (sh_admit s) ({[c]} ∪ sh_cancelled s) (sh_next s) (sh_shutdown s) (sh_log s).
Definition new_ctx {O} (s : Shared O) : Shared O :=
  mkShared (sh_orch s) (sh_reg s) (sh_boxes s) (sh_admit s) (sh_cancelled s) (S (sh_next s)) (sh_shutdown s) (sh_log s).
Definition close_shutdown {O} (s : Shared O) : Shared O :=
  mkShared (sh_orch s) (sh_reg s) (sh_boxes s) (sh_admit s) (sh_cancelled s) (sh_next s) true (sh_log s).
Definition note {O} (e : LEvent) (s : Shared O) : Shared O :=
  mkShared (sh_orch s) (sh_reg s) (sh_boxes s) (sh_admit s) (sh_cancelled s) (sh_next s) (sh_shutdown s) (sh_log s ++ [e]).

Definition set_goal {P} (g : Task) (a : Actor P) : Actor P :=
  mkActor g (a_ctx a) (a_main a) (a_drain a) (a_handleDone a) (a_confirmed a) (a_amendSeq a).
Definition set_main {P} (m : Main P) (a : Actor P) : Actor P :=
  mkActor (a_goal a) (a_ctx a) m (a_drain a) (a_handleDone a) (a_confirmed a) (a_amendSeq a).
Definition set_drain {P} (d : Drain P) (a : Actor P) : Actor P :=
  mkActor (a_goal a) (a_ctx a) (a_main a) d (a_handleDone a) (a_confirmed a) (a_amendSeq a).
Definition close_handleDone {P} (a : Actor P) : Actor P :=
  mkActor (a_goal a) (a_ctx a) (a_main a) (a_drain a) true (a_confirmed a) (a_amendSeq a).
Definition close_confirm {P} (a : Actor P) : Actor P :=
  mkActor (a_goal a) (a_ctx a) (a_main a) (a_drain a) (a_handleDone a) true (a_amendSeq a).
Definition set_seq {P} (n : Z) (a : Actor P) : Actor P :=
  mkActor (a_goal a) (a_ctx a) (a_main a) (a_drain a) (a_handleDone a) (a_confirmed a) n.

Definition goal_id {P} (a : Actor P) : string := task_ID (a_goal a).

(** ** Mailboxes *)

Definition mailboxBuffer : nat := 8.

(** [commandMailboxes.Create]: an existing mailbox is kept. *)
Definition Create {O} (goalID : string) (s : Shared O) : Shared O :=
  match sh_boxes s !! goalID with Some _ => s | None => set_box goalID [] s end.

(** [commandMailboxes.Lookup]. *)
Definition Lookup {O} (goalID : string) (s : Shared O) : option (list Message) := sh_boxes s !! goalID.

(** [commandMailboxes.deliver]: [false] for an unknown goal or a full mailbox. *)
Definition deliver {O} (m : Message) (s : Shared O) : bool * Shared O :=
  match Lookup (msg_GoalID m) s with
  | None => (false, s)
  | Some b =>
    if (length b <? mailboxBuffer)%nat then (true, note (EvAccepted m) (set_box (msg_GoalID m) (b ++ [m]) s))
    else (false, s)
  end.

(** ** Status replies *)

(** [renderFleetStatus], in some order of the goals. *)
Definition renderFleetStatus (r : option StatusRegistry) : string :=
  match Snapshot r with
  | [] => "status: no goals registered"
  | gs =>
    TrimRight (fun c => Ascii.eqb c nl)
      ("fleet status (" +:+ FormatInt (Z.of_nat (length gs)) +:+ " goal(s)):" +:+ lf +:+
       Join "" (map (fun g => "  " +:+ gs_GoalID g +:+ ": " +:+ GoalState_String (gs_State g) +:+ lf) gs))
  end.

(** [renderGoalStatus]. *)
Definition renderGoalStatus (r : option StatusRegistry) (goalID : string) : string :=
  match GetStatus goalID r with
  | None => "status " +:+ goalID +:+ ": not found"
  | Some g =>
    "status " +:+ goalID +:+ ": " +:+ GoalState_String (gs_State g) +:+
    Join "" (map (fun p => lf +:+ "  " +:+ sp_Name p +:+ "/" +:+ sp_Recipe p +:+ "=" +:+ sp_State p) (gs_SubGoals g))
  end.

(** ** Steps *)

Section Steps.
Context {O P : Type} `{OrchLike O P}.
Variables (maxGoals : Z) (sweeps statusHandler : bool) (quote : string -> string).

Local Notation Shared := (Shared O).
Local Notation Actor := (Actor P).
Local Notation Instr := (Instr P).

(** A context is done when it or the root was cancelled. *)
Definition ctx_done (c : nat) (s : Shared) : bool := bool_decide (0%nat ∈ sh_cancelled s) || bool_decide (c ∈ sh_cancelled s).

Definition goal_state (goalID : string) (s : Shared) : option GoalState := gs_State <$> GetStatus goalID (sh_reg s).

(** One step of a running call. *)
Definition run_call (ctx : nat) (p : P) (s : Shared) : option ((P + Reply) * Shared) :=
  match op_step (ctx_done ctx s) p (sh_orch s) (sh_reg s) with
  | None => None
  | Some ((o, r), k) => Some (k, set_orch o r s)
  end.

(** A new actor, before [admit]. *)
Definition runGoalActor (ctx : nat) (goal : Task) : Actor := mkActor goal ctx MAdmit DOff false false 0.

(** The code of [handleCommand] for a message; [nilChan] when it is given no [confirmChan]. *)
Definition handleCommand (goalID : string) (nilChan : bool) (m : Message) : list Instr :=
  match msg_Kind m with
  | MsgInfo => [IEnqueue (msg_Text m); ICheckpoint]
  | MsgCancel => [ICancel]
  | MsgConfirm => [IConfirm nilChan]
  | MsgApprove => [ICall (CResumeApproval goalID (msg_TaskID m) true)
                     ("approve for goal " +:+ quote goalID +:+ " task " +:+ quote (msg_TaskID m) +:+ " failed: ")]
  | MsgDeny => [ICall (CResumeApproval goalID (msg_TaskID m) false)
                  ("deny for goal " +:+ quote goalID +:+ " task " +:+ quote (msg_TaskID m) +:+ " failed: ")]
  | MsgNewGoal | MsgStatus => []
  end ++ (if sweeps then [ICall CSweepApprovalTimeouts ""] else []).

(** The checkpoint of [applyInfo] for the state of the goal. *)
Definition checkpoint (goalID : string) (st : GoalState) : list Instr :=
  match st with
  | StateClarifying => [IFoldClarify]
  | StateConversing => [IFollowUp]
  | StateAwaitingApproval =>
    [ICall (CSolicitApproval goalID) ("info for goal " +:+ quote goalID +:+ ": re-solicit failed: ")]
  | StateQueued | StatePlanning => []
  | StateDispatching | StateDone | StateFailed | StateCancelled => [IAmend]
  end.

(** [spawnAmendment]: the ID of the [n]-th amendment and its task. *)
Definition amendment (goal : Task) (n : Z) (text : string) : Task :=
  mkTask (task_ID goal +:+ "/amend-" +:+ FormatInt n) (task_Repo goal) text "".

(** One step of a handler: the actor, the shared state, the code put before the rest,
    and the actors started. *)
Definition handler_step (now : Z) (i : Instr) (a : Actor) (s : Shared)
  : option (Actor * Shared * list Instr * list Actor) :=
  let id := goal_id a in
  match i with
  | IEnqueue text => Some (a, set_reg (EnqueueInfo now id text (sh_reg s)) s, [], [])
  | ICheckpoint => Some (a, s, checkpoint id (default StateQueued (goal_state id s)), [])
  | IFoldClarify =>
    let '(info, r) := DrainInfo now id (sh_reg s) in
    let a := set_goal (with_spec (a_goal a) (FoldGoalText (task_Spec (a_goal a)) info)) a in
    Some (a, set_reg r s,
      [ICall (CClarifyAndReport (a_goal a)) ("info for goal " +:+ quote id +:+ ": re-clarify failed: ")], [])
  | IFollowUp =>
    let '(info, r) := DrainInfo now id (sh_reg s) in
    Some (a, set_reg r s,
      [ICall (CContinueAnswer id (TrimSpace (Join " " info))) ("info for goal " +:+ quote id +:+ ": follow-up failed: ")], [])
  | IAmend =>
    let '(info, r) := DrainInfo now id (sh_reg s) in Some (a, set_reg r s, [IAmendEach info], [])
  | IAmendEach [] => Some (a, s, [], [])
  | IAmendEach (text :: texts) =>
    let n := a_amendSeq a + 1 in
    let amend := amendment (a_goal a) n text in
    Some (set_seq n a, Create (task_ID amend) s, [IAmendRegister amend; IAmendStart amend; IAmendEach texts], [])
  | IAmendRegister amend => Some (a, set_reg (Register now (task_ID amend) StateQueued (sh_reg s)) s, [], [])
  | IAmendStart amend => Some (a, s, [], [runGoalActor (a_ctx a) amend])
  | ICancel =>
    let '(c, r) := Cancel id (sh_reg s) in
    let s := set_reg r s in
    Some (a, match c with Some c => fire c s | None => s end,
      [ICall (CConsumePlanOnCancel id) ("cancel for goal " +:+ quote id +:+ ": plan-consume error: ");
       ISetCancelled (match c with Some _ => true | None => false end)], [])
  | ISetCancelled fired =>
    Some (a, set_reg (SetState now id StateCancelled (sh_reg s)) s,
      [IReport ("cancelled goal " +:+ quote id +:+ (if fired then ": tearing down in-flight workers" else ""))], [])
  | IConfirm nilChan =>
    match goal_state id s with
    | Some StateClarifying => Some (a, s, if nilChan then [] else [ICloseConfirm], [])
    | _ => Some (a, s, [IReport ("confirm ignored: goal " +:+ quote id +:+ " is not in clarifying state")], [])
    end
  | ICloseConfirm => Some (close_confirm a, s, [], [])
  | ICall c onError => Some (a, note (EvCall c) s, [IRunning (op_start c) onError], [])
  | IRunning p onError =>
    match run_call (a_ctx a) p s with
    | None => None
    | Some (inl p, s) => Some (a, s, [IRunning p onError], [])
    | Some (inr r, s) =>
      Some (a, s, match rp_err r with
                  | Some e => if String.eqb onError "" then [] else [IReport (onError +:+ e)]
                  | None => []
                  end, [])
    end
  | IReport text => Some (a, note (EvReport text) s, [], [])
  end.

(** The case a [select] takes, when several are ready. *)
Inductive Choice := Receive | CtxDone | Closed.

(** Take the oldest message of the mailbox. *)
Definition receive (a : Actor) (nilChan : bool) (b : Back) (s : Shared) : option (Actor * Shared) :=
  match Lookup (goal_id a) s with
  | Some (m :: box) =>
    Some (set_drain (DHandle (handleCommand (goal_id a) nilChan m) b) a,
          note (EvTaken (goal_id a) m) (set_box (goal_id a) box s))
  | _ => None
  end.

(** [drainCommands] and [drainPostHandle]: one turn of the draining goroutine. *)
Definition drain_step (now : Z) (c : Choice) (a : Actor) (s : Shared) : option (Actor * Shared * list Actor) :=
  match a_drain a with
  | DOff | DExit => None
  | DSelect BLoop =>
    match c with
    | Receive => '(a, s) ← receive a false BLoop s; Some (a, s, [])
    | Closed =>
      if a_handleDone a
      then Some (set_drain (DPending (op_start (CHasPendingPlan (goal_id a)))) a, note (EvCall (CHasPendingPlan (goal_id a))) s, [])
      else None
    | CtxDone => if ctx_done (a_ctx a) s then Some (set_drain DExit a, s, []) else None
    end
  | DPending p =>
    match run_call (a_ctx a) p s with
    | None => None
    | Some (inl p, s) => Some (set_drain (DPending p) a, s, [])
    | Some (inr r, s) => Some (set_drain (DSelect (if rp_found r then BPost else BSweep)) a, s, [])
    end
  | DSelect BPost =>
    match c with
    | Receive => '(a, s) ← receive a true BPost s; Some (a, s, [])
    | Closed => if sh_shutdown s then Some (set_drain (DSelect BSweep) a, s, []) else None
    | CtxDone => if ctx_done (a_ctx a) s then Some (set_drain (DSelect BSweep) a, s, []) else None
    end
  | DSelect BSweep =>
    match receive a true BSweep s with
    | Some (a, s) => Some (a, s, [])
    | None => Some (set_drain DExit a, s, [])
    end
  | DHandle [] b => Some (set_drain (DSelect b) a, s, [])
  | DHandle (i :: code) b =>
    match handler_step now i a s with
    | None => None
    | Some (a, s, pre, new) => Some (set_drain (DHandle (pre ++ code) b) a, s, new)
    end
  end.

(** [run_main p k]: one step of a call of [goalActor.run], then [k]. *)
Definition run_main (a : Actor) (p : P) (running : P -> Main P) (k : Main P) (s : Shared) : option (Actor * Shared) :=
  match run_call (a_ctx a) p s with
  | None => None
  | Some (inl p, s) => Some (set_main (running p) a, s)
  | Some (inr _, s) => Some (set_main k a, s)
  end.

Definition admit_cap : nat := if maxGoals <? 1 then 1%nat else Z.to_nat maxGoals.

(** The goroutine of [runGoalActor] and [goalActor.run]: one turn. *)
Definition main_step (now : Z) (c : Choice) (a : Actor) (s : Shared) : option (Actor * Shared) :=
  let id := goal_id a in
  match a_main a with
  | MAdmit =>
    match c with
    | Receive =>
      if (sh_admit s <? admit_cap)%nat then
        Some (set_drain (match Lookup id s with Some _ => DSelect BLoop | None => DOff end)
                (set_main (MBegin (op_start (CBeginGoal (a_goal a)))) a),
              note (EvCall (CBeginGoal (a_goal a))) (set_admit (S (sh_admit s)) s))
      else None
    | CtxDone =>
      if ctx_done (a_ctx a) s
      then Some (set_main MExit a, set_reg (SetState now id StateFailed (sh_reg s)) s)
      else None
    | Closed => None
    end
  | MBegin p => run_main a p MBegin MIntake s
  | MIntake =>
    Some (set_main (match goal_state id s with Some StateClarifying => MConfirmWait | _ => MAnswer end) a, s)
  | MConfirmWait =>
    match c with
    | Receive =>
      if a_confirmed a
      then Some (set_main (MConfirm (op_start (CConfirmAndPlan (a_goal a)))) a, note (EvCall (CConfirmAndPlan (a_goal a))) s)
      else None
    | CtxDone => if ctx_done (a_ctx a) s then Some (set_main MAnswer a, s) else None
    | Closed => None
    end
  | MConfirm p => run_main a p MConfirm MAnswer s
  | MAnswer => Some (set_main (match goal_state id s with Some StateConversing => MLinger | _ => MClose end) a, s)
  | MLinger =>
    if match c with Closed => sh_shutdown s | CtxDone => ctx_done (a_ctx a) s | Receive => false end
    then Some (set_main (MEnd (op_start (CEndConversation id))) a, note (EvCall (CEndConversation id)) s)
    else None
  | MEnd p => run_main a p MEnd MClose s
  | MClose => Some (set_main MJoin (close_handleDone a), s)
  | MJoin => match a_drain a with DOff | DExit => Some (set_main MRelease a, s) | _ => None end
  | MRelease => Some (set_main MExit a, set_admit (pred (sh_admit s)) s)
  | MExit => None
  end.

Definition exited (a : Actor) : bool := match a_main a with MExit => true | _ => false end.

(** [routeCommand]. *)
Definition routeCommand (m : Message) (s : Shared) : Shared :=
  let '(ok, s) := deliver m s in
  if ok then s
  else note (EvReport ("no such goal: " +:+ quote (msg_GoalID m) +:+ " (" +:+ MessageKind_String (msg_Kind m) +:+ " ignored)"))
         (note (EvRefused m) s).

(** [routeStatus]. *)
Definition routeStatus (goalID : string) (s : Shared) : Shared :=
  note (EvReport (if statusHandler
                  then if String.eqb goalID "" then renderFleetStatus (sh_reg s) else renderGoalStatus (sh_reg s) goalID
                  else if String.eqb goalID "" then "status: fleet (handler pending task 114)"
                  else "status: goal " +:+ quote goalID +:+ " (handler pending task 114)")) s.

(** [runControlLoop] and [routeNewGoal]: one turn of the loop. *)
Definition loop_step (now : Z) (st : Plane O P) : option (Plane O P) :=
  let '(mkPlane src pc actors s) := st in
  match pc with
  | LRead =>
    match src with
    | [] => Some (mkPlane [] (LClose None) actors s)
    | i :: src =>
      let s := note (EvRead i) s in
      match i with
      | SrcMalformed e => Some (mkPlane src LRead actors (note (EvReport ("ignored malformed input: " +:+ e)) s))
      | SrcError e => Some (mkPlane src (LClose (Some ("orchestrate: read message: " +:+ e))) actors s)
      | SrcMessage m =>
        match msg_Kind m with
        | MsgNewGoal => Some (mkPlane src (LRegister (msg_Goal m)) actors (Create (task_ID (msg_Goal m)) s))
        | MsgStatus => Some (mkPlane src LRead actors (routeStatus (msg_GoalID m) s))
        | MsgInfo | MsgCancel | MsgConfirm => Some (mkPlane src LRead actors (routeCommand m s))
        | MsgApprove | MsgDeny =>
          Some (mkPlane src LRead actors
                  (note (EvReport ("ignored message of unknown kind: " +:+ MessageKind_String (msg_Kind m)))
                     (note (EvUnknown m) s)))
        end
      end
    end
  | LRegister goal =>
    Some (mkPlane src (LContext goal) actors (set_reg (Register now (task_ID goal) StateQueued (sh_reg s)) s))
  | LContext goal =>
    let c := sh_next s in
    Some (mkPlane src (LStart goal c) actors (set_reg (SetCancelFunc (task_ID goal) (Some c) (sh_reg s)) (new_ctx s)))
  | LStart goal c => Some (mkPlane src LRead (actors ++ [runGoalActor c goal]) s)
  | LClose err => Some (mkPlane src (LWait err) actors (close_shutdown s))
  | LWait err => if forallb exited actors then Some (mkPlane src (LReturn err) actors s) else None
  | LReturn _ => None
  end.

Inductive PlaneTurn :=
| TLoop
| TMain (i : nat) (c : Choice)
| TDrain (i : nat) (c : Choice)
| TCancelRoot.

(** One turn; [None] when that goroutine cannot go on. *)
Definition plane_step (now : Z) (t : PlaneTurn) (st : Plane O P) : option (Plane O P) :=
  match t with
  | TLoop => loop_step now st
  | TMain i c =>
    a ← cp_actors st !! i;
    '(a, s) ← main_step now c a (cp_sh st);
    Some (mkPlane (cp_source st) (cp_loop st) (<[i := a]> (cp_actors st)) s)
  | TDrain i c =>
    a ← cp_actors st !! i;
    match drain_step now c a (cp_sh st) with
    | None => None
    | Some (a, s, new) => Some (mkPlane (cp_source st) (cp_loop st) (<[i := a]> (cp_actors st) ++ new) s)
    end
  | TCancelRoot => Some (mkPlane (cp_source st) (cp_loop st) (cp_actors st) (fire 0 (cp_sh st)))
  end.

(** A schedule; turns that cannot be taken are skipped. *)
Fixpoint plane_run (sched : list (Z * PlaneTurn)) (st : Plane O P) : Plane O P :=
  match sched with
  | [] => st
  | (now, t) :: sched => plane_run sched (default st (plane_step now t st))
  end.

(** The state in which [runControlLoop] starts. *)
Definition plane_start (o : O) (r : StatusRegistry) (src : list SrcItem) : Plane O P :=
  mkPlane src LRead [] (mkShared o (Some r) ∅ 0 ∅ 1 false []).

(** The states the control plane can reach. *)
Inductive reaches (st0 : Plane O P) : Plane O P -> Prop :=
| reaches_here : reaches st0 st0
| reaches_step st now t st' : reaches st0 st -> plane_step now t st = Some st' -> reaches st0 st'.

Lemma run_reaches sched st0 st : reaches st0 st -> reaches st0 (plane_run sched st).
Proof.
  revert st. induction sched as [|[now t] sched IH]; intros st R; simpl; [done|]. apply IH.
  destruct (plane_step now t st) eqn:E; simpl; [by eapply reaches_step | done].
Qed.
End Steps.

(** ** What a turn leaves alone *)

(** Contexts stay cancelled, mailboxes stay, the log grows. *)
Record grows {O} (s s' : Shared O) : Prop := {
  gr_cancelled : sh_cancelled s ⊆ sh_cancelled s';
  gr_boxes : forall g, is_Some (sh_boxes s !! g) -> is_Some (sh_boxes s' !! g);
  gr_log : sh_log s `prefix_of` sh_log s'
}.

#[export] Instance grows_preorder {O} : PreOrder (@grows O).
Proof. split; [done|]. intros s t u [] []. split; [set_solver | auto | by etrans]. Qed.

Lemma ctx_done_grows {O} c (s s' : Shared O) : grows s s' -> ctx_done c s = true -> ctx_done c s' = true.
Proof. intros G. unfold ctx_done. rewrite !orb_true_iff, !bool_decide_eq_true. pose proof (gr_cancelled _ _ G). set_solver. Qed.

Lemma grows_boxes {O} (s : Shared O) g b :
  grows s (mkShared (sh_orch s) (sh_reg s) (<[g := b]> (sh_boxes s)) (sh_admit s) (sh_cancelled s) (sh_next s) (sh_shutdown s) (sh_log s)).
Proof. split; simpl; [done| |done]. intros g' Hg. destruct (decide (g = g')) as [->|]; [rewrite lookup_insert_eq | rewrite lookup_insert_ne]; done. Qed.

Lemma grows_same {O} (s s' : Shared O) :
  sh_cancelled s' = sh_cancelled s -> sh_boxes s' = sh_boxes s -> sh_log s `prefix_of` sh_log s' -> grows s s'.
Proof. intros H1 H2 H3. split; [by rewrite H1 | by rewrite H2 | done]. Qed.

Lemma grows_note {O} e (s : Shared O) : grows s (note e s).
Proof. apply grows_same; simpl; [done..|]. by exists [e]. Qed.

Lemma grows_fire {O} c (s : Shared O) : grows s (fire c s).
Proof. split; simpl; [set_solver | done..]. Qed.

Lemma grows_Create {O} g (s : Shared O) : grows s (Create g s).
Proof. unfold Create. destruct (_ !! g); [done | apply grows_boxes]. Qed.

Lemma Create_box {O} g (s : Shared O) : is_Some (sh_boxes (Create g s) !! g).
Proof. unfold Create. destruct (sh_boxes s !! g) eqn:E; [done|]. simpl. by rewrite lookup_insert_eq. Qed.

#[export] Hint Resolve grows_boxes grows_note grows_fire grows_Create : go.
#[export] Hint Extern 3 (grows _ _) => (apply grows_same; reflexivity) : go.

Section Turns.
Context {O P : Type} `{OrchLike O P}.
Context (maxGoals : Z) (sweeps statusHandler : bool) (quote : string -> string).

Local Notation handler_step := (handler_step quote).
Local Notation drain_step := (drain_step sweeps quote).
Local Notation main_step := (main_step maxGoals).
Local Notation loop_step := (loop_step statusHandler quote).
Local Notation plane_step := (plane_step maxGoals sweeps statusHandler quote).
Local Notation reaches := (reaches maxGoals sweeps statusHandler quote).
Local Notation Plane := (Plane O P).
Local Notation Shared := (Shared O).
Local Notation Actor := (Actor P).

(** A fresh actor: waiting for a slot. *)
Definition fresh (a : Actor) : Prop := a_main a = MAdmit /\ a_drain a = DOff /\ a_handleDone a = false.

Lemma run_call_same ctx p (s s' : Shared) k :
  run_call ctx p s = Some (k, s') -> exists o r, s' = set_orch o r s.
Proof. unfold run_call. destruct (op_step _ _ _ _) as [[[o r] k']|]; [|done]. intros [= <- <-]. by exists o, r. Qed.

(** A handler touches neither the slots nor the standing of its actor; the actors it
    starts are fresh and have a mailbox. *)
Lemma handler_frame now i a (s : Shared) a' s' pre new :
  handler_step now i a s = Some (a', s', pre, new) ->
  grows s s' /\ sh_admit s' = sh_admit s /\ sh_shutdown s' = sh_shutdown s /\ sh_next s' = sh_next s /\
  a_main a' = a_main a /\ a_drain a' = a_drain a /\ a_ctx a' = a_ctx a /\ a_handleDone a' = a_handleDone a /\
  goal_id a' = goal_id a /\ task_Repo (a_goal a') = task_Repo (a_goal a) /\
  new = match i with IAmendStart t => [runGoalActor (a_ctx a) t] | _ => [] end.
Proof.
  intros E. destruct i; simpl in E.
  all: repeat match type of E with
       | context [let '(_, _) := ?x in _] => destruct x
       | context [match ?x with _ => _ end] => destruct x eqn:?
       end; try discriminate; simplify_eq/=; try (split_and!; auto with go; fail).
  all: try (match goal with R : run_call _ _ _ = Some _ |- _ => destruct (run_call_same _ _ _ _ _ R) as (? & ? & ->) end;
            split_and!; auto with go; fail).
  - split_and!; auto with go; unfold Create; by destruct (sh_boxes s !! _).
  - split_and!; auto. etrans; [|apply grows_fire]. auto with go.
Qed.

(** The standing of an actor's two goroutines towards each other: which pairs of
    places occur, with the channel [handleDone] and the context. *)
Definition late (d : Drain P) : bool :=
  match d with DSelect BLoop | DHandle _ BLoop | DOff => false | _ => true end.
Definition shape (m : Main P) (d : Drain P) (h c : bool) : bool :=
  match m, d with
  | MAdmit, DOff => negb h
  | MExit, (DOff | DExit) => true
  | MRelease, DExit => h
  | _, DOff | MAdmit, _ | MExit, _ | MRelease, _ => false
  | MJoin, _ => h
  | _, _ => negb h && implb (late d) c
  end.

Definition standing (s : Shared) (a : Actor) : Prop :=
  shape (a_main a) (a_drain a) (a_handleDone a) (ctx_done (a_ctx a) s) = true /\
  is_Some (sh_boxes s !! goal_id a) /\
  match a_drain a with
  | DHandle code _ => forall t, IAmendStart t ∈ code -> is_Some (sh_boxes s !! task_ID t)
  | _ => True
  end.

Lemma shape_mono m d h c : shape m d h c = true -> shape m d h true = true.
Proof. destruct m, d as [|[]|? []| |]; simpl; try done; rewrite ?andb_true_r; try done; by rewrite ?andb_true_iff; intros []. Qed.

Lemma standing_grows s s' a : grows s s' -> standing s a -> standing s' a.
Proof.
  intros G (Hs & Hb & Hc). split_and!.
  - destruct (ctx_done (a_ctx a) s) eqn:E.
    + by rewrite (ctx_done_grows _ _ _ G E).
    + destruct (ctx_done (a_ctx a) s'); [by eapply shape_mono | done].
  - by apply (gr_boxes _ _ G).
  - destruct (a_drain a); try done. intros t Ht. apply (gr_boxes _ _ G). by apply Hc.
Qed.

Lemma fresh_standing s c t : is_Some (sh_boxes s !! task_ID t) -> standing s (runGoalActor c t).
Proof. by intros Hb. Qed.

Lemma handler_code now i a (s : Shared) a' s' pre new code :
  handler_step now i a s = Some (a', s', pre, new) ->
  (forall t, IAmendStart t ∈ i :: code -> is_Some (sh_boxes s !! task_ID t)) ->
  forall t, IAmendStart t ∈ pre ++ code -> is_Some (sh_boxes s' !! task_ID t).
Proof.
  intros E Hc t Ht. pose proof (handler_frame _ _ _ _ _ _ _ _ E) as (G & _).
  apply elem_of_app in Ht as [Ht|Ht]; [|apply (gr_boxes _ _ G), Hc; by right].
  destruct i; simpl in E.
  all: repeat match type of E with
       | context [let '(_, _) := ?x in _] => destruct x
       | context [match ?x with _ => _ end] => destruct x eqn:?
       end; try discriminate; simplify_eq/=; try set_solver.
  - unfold checkpoint in Ht. destruct (default _ _); set_solver.
  - apply elem_of_cons in Ht as [Ht|Ht]; [done|]. apply elem_of_cons in Ht as [[= ->]|Ht]; [apply Create_box | set_solver].
Qed.

Lemma receive_inv (a : Actor) nilChan b (s : Shared) a' s' :
  receive sweeps quote a nilChan b s = Some (a', s') ->
  exists m box, sh_boxes s !! goal_id a = Some (m :: box) /\
    a' = set_drain (DHandle (handleCommand sweeps quote (goal_id a) nilChan m) b) a /\
    s' = note (EvTaken (goal_id a) m) (set_box (goal_id a) box s).
Proof. unfold receive, Lookup. destruct (_ !! _) as [[|m box]|]; [done| |done]. intros [= <- <-]. by exists m, box. Qed.

Lemma handleCommand_start g nilChan m t : IAmendStart t ∉ @handleCommand P sweeps quote g nilChan m.
Proof. unfold handleCommand. destruct (msg_Kind m), sweeps; set_solver. Qed.

Lemma receive_standing (a : Actor) nilChan b (s : Shared) a' s' :
  receive sweeps quote a nilChan b s = Some (a', s') ->
  grows s s' /\ (a_drain a = DSelect b -> standing s a -> standing s' a').
Proof.
  intros (m & box & Hb & -> & ->)%receive_inv.
  assert (G : grows s (note (EvTaken (goal_id a) m) (set_box (goal_id a) box s)))
    by (etrans; [apply grows_boxes | apply grows_note]).
  split; [done|]. intros Hd (Hs & Hx & _). split_and!; simpl; [|by apply (gr_boxes _ _ G)|by intros t Ht%handleCommand_start].
  rewrite Hd in Hs. revert Hs. change (ctx_done (a_ctx a) (note _ _)) with (ctx_done (a_ctx a) s).
  unfold goal_id. simpl. by destruct (a_main a), b.
Qed.

(** One turn of the draining goroutine. *)
Lemma drain_frame now c (a : Actor) (s : Shared) a' s' new :
  drain_step now c a s = Some (a', s', new) -> standing s a ->
  standing s' a' /\ grows s s' /\ sh_admit s' = sh_admit s /\ sh_shutdown s' = sh_shutdown s /\ sh_next s' = sh_next s /\
  a_main a' = a_main a /\ a_ctx a' = a_ctx a /\ goal_id a' = goal_id a /\ task_Repo (a_goal a') = task_Repo (a_goal a) /\
  Forall (fun b => exists t, b = runGoalActor (a_ctx a) t /\ is_Some (sh_boxes s' !! task_ID t)) new.
Proof.
  intros E W. pose proof W as (Hs & Hb & Hc). unfold drain_step in E. destruct (a_drain a) as [|b|[|i code] b|p|] eqn:Ed; try done.
  - assert (R : forall nilChan a1 s1, receive sweeps quote a nilChan b s = Some (a1, s1) ->
      standing s1 a1 /\ grows s s1 /\ sh_admit s1 = sh_admit s /\ sh_shutdown s1 = sh_shutdown s /\ sh_next s1 = sh_next s /\
      a_main a1 = a_main a /\ a_ctx a1 = a_ctx a /\ goal_id a1 = goal_id a /\ task_Repo (a_goal a1) = task_Repo (a_goal a)).
    { intros nilChan a1 s1 E1. destruct (receive_standing _ _ _ _ _ _ E1) as [G S].
      apply receive_inv in E1 as (m & box & Hx & -> & ->). split_and!; auto. }
    destruct b, c; try (destruct (receive _ _ _ _ _ _) as [[a1 s1]|] eqn:E1; simpl in E; [|try done]);
      repeat match type of E with context [match ?x with true => _ | false => _ end] => destruct x eqn:? end; try done;
      simplify_eq/=; try (destruct (R _ _ _ E1) as (? & ? & ? & ? & ? & ? & ? & ? & ?); split_and!; auto; fail);
      (split; [split; [|done] | split_and!; auto with go]; simpl;
       repeat match goal with |- context [ctx_done _ ?x] => progress change (ctx_done (a_ctx a) x) with (ctx_done (a_ctx a) s) end;
       revert Hs; rewrite ?Heqb; destruct (a_main a), (a_handleDone a); simpl; try done; auto).
  - simplify_eq/=. split; [|split_and!; auto with go]. split; [|done]. simpl. revert Hs. by destruct (a_main a), b.
  - destruct (handler_step _ _ _ _) as [[[[a1 s1] pre] nw]|] eqn:E1; [|done]. injection E as <- <- <-.
    pose proof (handler_code _ _ _ _ _ _ _ _ code E1 Hc) as Hc'.
    destruct (handler_frame _ _ _ _ _ _ _ _ E1) as (G & Ha & Hsh & Hn & Hm & Hd & Hx & Hh & Hg & Hr & ->).
    split; [|split_and!; [done..|]].
    + split_and!; simpl; [|change (is_Some (sh_boxes s1 !! goal_id a1)); rewrite Hg; by apply (gr_boxes _ _ G) | exact Hc'].
      rewrite Hm, Hx, Hh. destruct (standing_grows _ _ _ G W) as (Hs' & _). rewrite Ed in Hs'. revert Hs'. by destruct (a_main a), b.
    + destruct i; constructor; [|constructor]. exists amend. split; [done|]. apply (gr_boxes _ _ G), Hc. by left.
  - destruct (run_call _ _ _) as [[[p'|r] s1]|] eqn:E1; [| |done]; injection E as <- <- <-;
      apply run_call_same in E1 as (o & r' & ->); (split; [|split_and!; auto with go]); (split; [|done]);
      simpl; change (ctx_done (a_ctx a) (set_orch o r' s)) with (ctx_done (a_ctx a) s); revert Hs; destruct (a_main a); try (destruct (rp_found r)); try done.
Qed.

(** The actor is past [admit] and has not given its slot back. *)
Definition live (a : Actor) : bool := match a_main a with MAdmit | MExit => false | _ => true end.

(** One turn of the actor's main goroutine. *)
Lemma main_frame now c (a : Actor) (s : Shared) a' s' :
  main_step now c a s = Some (a', s') -> standing s a ->
  standing s' a' /\ grows s s' /\ sh_shutdown s' = sh_shutdown s /\ sh_next s' = sh_next s /\
  sh_cancelled s' = sh_cancelled s /\ a_ctx a' = a_ctx a /\ a_goal a' = a_goal a /\
  (sh_admit s' + Nat.b2n (live a) = sh_admit s + Nat.b2n (live a') \/ sh_admit s = 0%nat)%nat /\
  (sh_admit s <= admit_cap maxGoals -> sh_admit s' <= admit_cap maxGoals)%nat.
Proof.
  intros E (Hs & Hb & Hc). unfold main_step, run_main in E.
  destruct (a_main a) eqn:Em; try done;
    repeat match type of E with
    | context [match run_call ?x ?y ?z with _ => _ end] =>
      destruct (run_call x y z) as [[[?|?] ?]|] eqn:R; [| |done]; apply run_call_same in R as (? & ? & ->)
    | context [match ?x with _ => _ end] => destruct x eqn:?
    end; try done; injection E as <- <-; to_prop;
    repeat match goal with H : (_ <? _)%nat = true |- _ => apply Nat.ltb_lt in H end.
  all: split; [split; [|split; [done|]] | unfold live; rewrite Em; simpl; split_and!; auto with go; simpl; try lia].
  all: simpl; try done.
  all: repeat match goal with |- context [ctx_done _ ?x] => progress change (ctx_done (a_ctx a) x) with (ctx_done (a_ctx a) s) end.
  all: try (revert Hs; destruct (a_drain a) as [|[]|? []| |], (a_handleDone a), (ctx_done (a_ctx a) s); simpl; done).
  all: try (revert Hs; by destruct (a_drain a)).
  all: try (apply grows_same; simpl; [done..|by eexists [_]]).
  unfold Lookup in *. by destruct Hb as [? Hb]; rewrite Hb in *.
Qed.

(** ** The invariant of the control plane *)

Definition slots (l : list Actor) : nat := length (filter (fun a => live a = true) l).

Lemma slots_cons a l : slots (a :: l) = (Nat.b2n (live a) + slots l)%nat.
Proof. unfold slots. rewrite filter_cons. by destruct (live a). Qed.

Lemma slots_insert l i a a' :
  l !! i = Some a -> (slots (<[i := a']> l) + Nat.b2n (live a) = slots l + Nat.b2n (live a'))%nat.
Proof.
  revert i. induction l as [|x l IH]; intros [|i] E; [done..| |]; simpl in *; rewrite !slots_cons.
  - injection E as ->. lia.
  - specialize (IH i E). lia.
Qed.

Lemma slots_app l l' : slots (l ++ l') = (slots l + slots l')%nat.
Proof. unfold slots. by rewrite filter_app, length_app. Qed.

Lemma slots_pos l i a : l !! i = Some a -> live a = true -> (1 <= slots l)%nat.
Proof. revert i. induction l as [|x l IH]; intros [|i] E Hl; [done..| |]; simpl in *; rewrite slots_cons; [injection E as ->; rewrite Hl; simpl; lia | specialize (IH i E Hl); lia]. Qed.

(** The goal the loop is about to start has its mailbox. *)
Definition starting (pc : LoopPc) (s : Shared) : Prop :=
  match pc with LRegister g | LContext g | LStart g _ => is_Some (sh_boxes s !! task_ID g) | _ => True end.

Definition ending (pc : LoopPc) : bool := match pc with LWait _ | LReturn _ => true | _ => false end.

Record plane_ok (st : Plane) : Prop := {
  ok_standing : Forall (standing (cp_sh st)) (cp_actors st);
  ok_slots : sh_admit (cp_sh st) = slots (cp_actors st);
  ok_cap : (sh_admit (cp_sh st) <= admit_cap maxGoals)%nat;
  ok_starting : starting (cp_loop st) (cp_sh st);
  ok_ending : sh_shutdown (cp_sh st) = ending (cp_loop st);
  ok_return : forall e, cp_loop st = LReturn e -> forallb exited (cp_actors st) = true
}.


Lemma all_standing s s' l : grows s s' -> Forall (standing s) l -> Forall (standing s') l.
Proof. intros G Hl. eapply Forall_impl; [exact Hl|]. intros a. by apply standing_grows. Qed.

Lemma starting_grows pc s s' : grows s s' -> starting pc s -> starting pc s'.
Proof. intros G. destruct pc; simpl; try done; apply (gr_boxes _ _ G). Qed.

Lemma exited_stops (a : Actor) s now c : exited a = true -> standing s a -> main_step now c a s = None /\ drain_step now c a s = None.
Proof.
  unfold exited, main_step, drain_step. intros He (Hs & _). destruct (a_main a) eqn:Em; try done. split; [done|].
  by destruct (a_drain a).
Qed.

(** A turn of an actor: the actor put back, the fresh ones behind. *)
Lemma actor_turn_ok (st : Plane) i (a a' : Actor) s' new :
  plane_ok st -> cp_actors st !! i = Some a -> exited a = false ->
  standing s' a' -> grows (cp_sh st) s' -> sh_shutdown s' = sh_shutdown (cp_sh st) ->
  (sh_admit s' + Nat.b2n (live a) = sh_admit (cp_sh st) + Nat.b2n (live a') \/ sh_admit (cp_sh st) = 0%nat /\ live a = true)%nat ->
  (sh_admit (cp_sh st) <= admit_cap maxGoals -> sh_admit s' <= admit_cap maxGoals)%nat ->
  Forall (fun b => exists t, b = runGoalActor (a_ctx a) t /\ is_Some (sh_boxes s' !! task_ID t)) new ->
  plane_ok (mkPlane (cp_source st) (cp_loop st) (<[i := a']> (cp_actors st) ++ new) s').
Proof.
  intros [Hst Hsl Hcap Hsta Hend Hret] Ei Hex W G Hsh Hadm Hcap' Hnew.
  assert (Z : slots new = 0%nat).
  { clear - Hnew. induction Hnew as [|b l (t & -> & _) _ IH]; [done|]. by rewrite slots_cons, IH. }
  split; simpl.
  - apply Forall_app. split.
    + apply Forall_insert; [by eapply all_standing | done].
    + eapply Forall_impl; [exact Hnew|]. intros b (t & -> & Hb). by apply fresh_standing.
  - rewrite slots_app, Z. pose proof (slots_insert _ _ _ a' Ei). destruct Hadm as [Hadm|[Hz Hl]]; [lia|].
    pose proof (slots_pos _ _ _ Ei Hl). lia.
  - by apply Hcap'.
  - by eapply starting_grows.
  - congruence.
  - intros e He. apply Hret in He. rewrite forallb_forall in He.
    specialize (He a). rewrite Hex in He. by specialize (He (proj1 (list_elem_of_In _ _) (list_elem_of_lookup_2 _ _ _ Ei))).
Qed.

Lemma routeCommand_frame m (s : Shared) :
  let s' := routeCommand quote m s in grows s s' /\ sh_admit s' = sh_admit s /\ sh_shutdown s' = sh_shutdown s.
Proof.
  unfold routeCommand, deliver. destruct (Lookup _ _) as [box|]; [destruct (_ <? _)%nat|]; simpl; split_and!; try done.
  - etrans; [apply grows_boxes | apply grows_note].
  - apply grows_same; simpl; [done..|]. rewrite <- ?app_assoc. by eexists.
  - apply grows_same; simpl; [done..|]. rewrite <- ?app_assoc. by eexists.
Qed.

Lemma loop_ok now (st st' : Plane) : plane_ok st -> loop_step now st = Some st' -> plane_ok st'.
Proof.
  intros [Hst Hsl Hcap Hsta Hend Hret] E. destruct st as [src pc actors s]. simpl in *.
  assert (K : forall src' pc' s', grows s s' -> sh_admit s' = sh_admit s -> starting pc' s' ->
    sh_shutdown s' = ending pc' -> (forall e, pc' <> LReturn e) -> plane_ok (mkPlane src' pc' actors s')).
  { intros src' pc' s' G Ha Hs' He' Hn. split; simpl; [by eapply all_standing | congruence | by rewrite Ha | done | done|].
    intros e He. by apply Hn in He. }
  destruct pc; simpl in *.
  - destruct src as [|[m|e|e] src]; [| |injection E as <-..].
    + injection E as <-. by apply K.
    + destruct (routeCommand_frame m (note (EvRead (SrcMessage m)) s)) as (R1 & R2 & R3).
      assert (R0 : grows s (note (EvRead (SrcMessage m)) s)) by apply grows_note. simpl in R2, R3.
destruct (msg_Kind m); injection E as <-.
      * apply K; try done.
        -- etrans; [apply grows_note | apply grows_Create].
        -- unfold Create. by destruct (_ !! _).
        -- apply Create_box.
        -- unfold Create. by destruct (_ !! _).
      * apply K; try done. apply grows_same; simpl; [done..|]. rewrite <- app_assoc. by eexists.
      * apply K; try done; [by etrans | by rewrite ?R2, ?R3..].
      * apply K; try done; [by etrans | by rewrite ?R2, ?R3..].
      * apply K; try done; [by etrans | by rewrite ?R2, ?R3..].
      * apply K; try done. apply grows_same; simpl; [done..|]. rewrite <- !app_assoc. by eexists.
      * apply K; try done. apply grows_same; simpl; [done..|]. rewrite <- !app_assoc. by eexists.
    + apply K; try done. apply grows_same; simpl; [done..|]. rewrite <- !app_assoc. by eexists.
    + apply K; try done. apply grows_note.
  - injection E as <-. apply K; try done.
  - injection E as <-. apply K; try done.
  - injection E as <-. split; simpl; try done.
    + apply Forall_app. split; [done|]. constructor; [by apply fresh_standing | done].
    + rewrite slots_app. change (slots [runGoalActor ctx goal]) with 0%nat. lia.
  - injection E as <-. apply K; try done.
  - destruct (forallb exited actors) eqn:Ef; [|done]. injection E as <-. split; simpl; try done.
  - done.
Qed.

Lemma step_ok now t (st st' : Plane) : plane_ok st -> plane_step now t st = Some st' -> plane_ok st'.
Proof.
  intros K E. destruct t as [|i c|i c|]; simpl in E.
  - by eapply loop_ok.
  - destruct (cp_actors st !! i) as [a|] eqn:Ei; [|done]. simpl in E.
    pose proof (Forall_lookup_1 _ _ _ _ (ok_standing _ K) Ei) as W.
    destruct (main_step now c a (cp_sh st)) as [[a' s']|] eqn:E1; [|done]. injection E as <-.
    destruct (main_frame _ _ _ _ _ _ E1 W) as (W' & G & Hsh & _ & _ & _ & _ & Hadm & Hcap).
    rewrite <- (app_nil_r (<[i := a']> _)). eapply actor_turn_ok; try done.
    + destruct (exited a) eqn:Hx; [|done]. by rewrite (proj1 (exited_stops _ _ now c Hx W)) in E1.
    + destruct Hadm as [Hadm|Hadm]; [by left|]. destruct (live a) eqn:Hl; [by right|].
      left. revert E1 Hl Hadm. unfold main_step, live. destruct (a_main a) eqn:Em; try done. intros E1 _ Hadm.
      destruct c; [|destruct (ctx_done _ _); [|done]|done].
      * destruct (_ <? _)%nat; [|done]. injection E1 as <- <-. simpl. lia.
      * injection E1 as <- <-. done.
  - destruct (cp_actors st !! i) as [a|] eqn:Ei; [|done]. simpl in E.
    pose proof (Forall_lookup_1 _ _ _ _ (ok_standing _ K) Ei) as W.
    destruct (drain_step now c a (cp_sh st)) as [[[a' s'] new]|] eqn:E1; [|done]. injection E as <-.
    destruct (drain_frame _ _ _ _ _ _ _ E1 W) as (W' & G & Ha & Hsh & _ & Hm & Hx & _ & _ & Hnew).
    eapply actor_turn_ok; try done.
    + destruct (exited a) eqn:Hex; [|done]. by rewrite (proj2 (exited_stops _ _ now c Hex W)) in E1.
    + left. unfold live. rewrite Hm. lia.
    + lia.
  - injection E as <-. destruct K as [Hst Hsl Hcap Hsta Hend Hret]. split; simpl; try done.
    + eapply all_standing; [|done]. apply grows_fire.
Qed.

Lemma start_ok o r src : plane_ok (plane_start o r src).
Proof. split; simpl; [constructor | done | lia | done..]. Qed.

Lemma reach_ok o r src (st : Plane) : reaches (plane_start o r src) st -> plane_ok st.
Proof. induction 1; [apply start_ok | by eapply step_ok]. Qed.

(** ** Where the control plane can come to rest *)

(** Nothing but the cancellation of the root context can happen any more. *)
Definition at_rest (st : Plane) : Prop := forall now t, t <> TCancelRoot -> plane_step now t st = None.

(** The goal was put back to the operator, who has sent no further command. *)
Definition awaits_confirm (s : Shared) (a : Actor) : Prop :=
  a_main a = MConfirmWait /\ a_confirmed a = false /\ a_drain a = DSelect BLoop /\
  sh_boxes s !! goal_id a = Some [] /\ ctx_done (a_ctx a) s = false.

(** A call of the orchestrator made by one of the actor's goroutines is blocked. *)
Definition call_blocked (s : Shared) (a : Actor) : Prop :=
  exists p, run_call (a_ctx a) p s = None /\
    (a_main a = MBegin p \/ a_main a = MConfirm p \/ a_main a = MEnd p \/ a_drain a = DPending p \/
     exists e code b, a_drain a = DHandle (IRunning p e :: code) b).

Lemma handler_rest now i a (s : Shared) :
  handler_step now i a s = None -> exists p e, i = IRunning p e /\ run_call (a_ctx a) p s = None.
Proof.
  intros E. destruct i; simpl in E.
  all: repeat match type of E with
       | context [let '(_, _) := ?x in _] => destruct x
       | context [match ?x with _ => _ end] => destruct x eqn:?
       end; try discriminate; eauto.
Qed.

Lemma drain_rest (a : Actor) (s : Shared) :
  standing s a -> sh_shutdown s = true -> (forall c, drain_step 0 c a s = None) ->
  a_drain a = DOff \/ a_drain a = DExit \/ call_blocked s a \/
  a_drain a = DSelect BLoop /\ a_handleDone a = false /\ sh_boxes s !! goal_id a = Some [] /\ ctx_done (a_ctx a) s = false.
Proof.
  intros (Hs & [box Hb] & _) Hsh R. unfold drain_step in R. destruct (a_drain a) as [|[]|[|i code] b|p|] eqn:Ed; auto.
  - right; right; right. specialize (R Closed) as R1. specialize (R CtxDone) as R2. specialize (R Receive). simpl in *.
    destruct (a_handleDone a); [done|]. destruct (ctx_done _ s); [done|]. unfold receive, Lookup in R. rewrite Hb in R.
    by destruct box.
  - specialize (R Closed). simpl in R. by rewrite Hsh in R.
  - specialize (R Closed). simpl in R. by destruct (receive _ _ _ _ _ _) as [[? ?]|].
  - by specialize (R Closed).
  - specialize (R Closed). destruct (handler_step _ _ _ _) as [[[[? ?] ?] ?]|] eqn:E; [done|].
    apply handler_rest in E as (p & e & -> & E). right; right; left. exists p. split; [done|]. do 4 right. by exists e, code, b.
  - specialize (R Closed). destruct (run_call _ _ _) as [[[?|?] ?]|] eqn:E; [done..|]. right; right; left. exists p. auto 10.
Qed.

Lemma main_rest (a : Actor) (s : Shared) :
  standing s a -> sh_shutdown s = true -> (forall c, main_step 0 c a s = None) -> (forall c, drain_step 0 c a s = None) ->
  exited a = true \/ awaits_confirm s a \/ call_blocked s a \/ a_main a = MAdmit /\ (admit_cap maxGoals <= sh_admit s)%nat.
Proof.
  intros W Hsh R D. pose proof (drain_rest a s W Hsh D) as Dr. pose proof W as (Hs & _). unfold main_step, run_main in R.
  assert (C : forall p, run_call (a_ctx a) p s = None -> a_main a = MBegin p \/ a_main a = MConfirm p \/ a_main a = MEnd p ->
    call_blocked s a) by (intros p Hp Hm; exists p; split; [done|]; tauto).
  destruct (a_main a) eqn:Em.
  - specialize (R Receive). simpl in R. destruct (Nat.ltb_spec (sh_admit s) (admit_cap maxGoals)); [done|]. auto.
  - specialize (R Receive). destruct (run_call _ _ _) as [[[?|?] ?]|] eqn:E; [done..|]. right; right; left. by eapply C; auto.
  - by specialize (R Receive).
  - specialize (R Receive) as R1. specialize (R CtxDone). simpl in *. destruct (a_confirmed a) eqn:Ec; [done|].
    destruct (ctx_done (a_ctx a) s) eqn:Ex; [done|].
    destruct Dr as [Hd|[Hd|[Hd|(Hd & Hh & Hb & _)]]]; [by rewrite Hd in Hs | | auto |].
    + rewrite Hd in Hs. simpl in Hs. by rewrite andb_false_r in Hs.
    + right; left. unfold awaits_confirm. auto.
  - specialize (R Receive). destruct (run_call _ _ _) as [[[?|?] ?]|] eqn:E; [done..|]. right; right; left. by eapply C; auto.
  - by specialize (R Receive).
  - specialize (R Closed). simpl in R. by rewrite Hsh in R.
  - specialize (R Receive). destruct (run_call _ _ _) as [[[?|?] ?]|] eqn:E; [done..|]. right; right; left. by eapply C; auto.
  - by specialize (R Receive).
  - specialize (R Receive). destruct Dr as [Hd|[Hd|[Hd|(Hd & Hh & _)]]]; [by rewrite Hd in R .. | auto |].
    rewrite Hd in Hs. simpl in Hs. congruence.
  - by specialize (R Receive).
  - left. unfold exited. by rewrite Em.
Qed.

Lemma loop_rest (st : Plane) : loop_step 0 st = None ->
  (exists e, cp_loop st = LReturn e) \/ (exists e, cp_loop st = LWait e) /\ forallb exited (cp_actors st) = false.
Proof.
  destruct st as [src [| | | | |e|e] actors s]; simpl; try done.
  - destruct src as [|[m|e|e] src]; [done| |done..]. by destruct (msg_Kind m).
  - destruct (forallb exited actors) eqn:E; [done|]. eauto.
  - eauto.
Qed.

Lemma rest_shape (st : Plane) : plane_ok st -> at_rest st ->
  (exists e, cp_loop st = LReturn e) \/
  (exists e, cp_loop st = LWait e) /\
  (exists a, a ∈ cp_actors st /\ (awaits_confirm (cp_sh st) a \/ call_blocked (cp_sh st) a)) /\
  Forall (fun a => exited a = true \/ awaits_confirm (cp_sh st) a \/ call_blocked (cp_sh st) a \/
                   a_main a = MAdmit /\ slots (cp_actors st) = admit_cap maxGoals) (cp_actors st).
Proof.
  intros [Hst Hsl Hcap _ Hend _] R. destruct (loop_rest st) as [?|[[e He] Hx]]; [by apply (R 0 TLoop) | by left|]. right.
  rewrite He in Hend. split; [by exists e|].
  assert (F : Forall (fun a => exited a = true \/ awaits_confirm (cp_sh st) a \/ call_blocked (cp_sh st) a \/
                   a_main a = MAdmit /\ slots (cp_actors st) = admit_cap maxGoals) (cp_actors st)).
  { apply Forall_lookup. intros i a Ei. destruct (main_rest a (cp_sh st)) as [?|[?|[?|[? ?]]]]; auto.
    - by eapply Forall_lookup_1.
    - intros c. specialize (R 0 (TMain i c) ltac:(done)). simpl in R. rewrite Ei in R. simpl in R.
      by destruct (main_step 0 c a (cp_sh st)) as [[? ?]|].
    - intros c. specialize (R 0 (TDrain i c) ltac:(done)). simpl in R. rewrite Ei in R. simpl in R.
      by destruct (drain_step 0 c a (cp_sh st)) as [[[? ?] ?]|].
    - do 3 right. split; [done|]. lia. }
  split; [|done].
  assert (N : forall l, forallb exited l = false -> Forall (fun a => exited a = true \/ awaits_confirm (cp_sh st) a \/
      call_blocked (cp_sh st) a \/ a_main a = MAdmit /\ slots (cp_actors st) = admit_cap maxGoals) l ->
      (exists a, a ∈ l /\ (awaits_confirm (cp_sh st) a \/ call_blocked (cp_sh st) a)) \/
      slots (cp_actors st) = admit_cap maxGoals).
  { induction l as [|a l IH]; [done|]. simpl. intros Hf [Ha Hl]%Forall_cons. destruct (exited a) eqn:Ea.
    - destruct (IH Hf Hl) as [(b & Hb & ?)|]; [left; exists b; split; [by right|done] | by right].
    - destruct Ha as [?|[?|[?|[_ ?]]]]; [done|left..|by right]; exists a; (split; [by left | auto]). }
  destruct (N _ Hx F) as [?|Hfull]; [done|].
  assert (Hpos : (1 <= slots (cp_actors st))%nat).
  { rewrite Hfull. unfold admit_cap. destruct (Z.ltb_spec maxGoals 1); lia. }
  clear - Hpos F. revert Hpos F. generalize (cp_actors st) at 1 3 4. intros l. induction l as [|a l IH]; [unfold slots; simpl; lia|].
  intros Hpos [Ha Hl]%Forall_cons. rewrite slots_cons in Hpos. unfold live in Hpos.
  destruct Ha as [Ha|[Ha|[Ha|[Ha _]]]]; [| exists a; split; [by left|auto] | exists a; split; [by left|auto] |].
  - unfold exited in Ha. destruct (a_main a); try done. destruct IH as (b & Hb & ?); [done..|]. exists b. split; [by right|done].
  - rewrite Ha in Hpos. destruct IH as (b & Hb & ?); [done..|]. exists b. split; [by right|done].
Qed.
End Turns.

(** ** The account of the messages *)

Definition reads (log : list LEvent) : list SrcItem := omap (fun e => match e with EvRead i => Some i | _ => None end) log.
Definition messages (items : list SrcItem) : list Message :=
  omap (fun i => match i with SrcMessage m => Some m | _ => None end) items.
Definition is_command (m : Message) : bool := match msg_Kind m with MsgNewGoal | MsgStatus => false | _ => true end.
(** What routing did with the commands: a mailbox, a report that there is no such goal,
    or a report that the kind is unknown. *)
Definition routed (log : list LEvent) : list Message :=
  omap (fun e => match e with EvAccepted m | EvRefused m | EvUnknown m => Some m | _ => None end) log.
Definition accepted (g : string) (log : list LEvent) : list Message :=
  omap (fun e => match e with EvAccepted m => if String.eqb (msg_GoalID m) g then Some m else None | _ => None end) log.
Definition taken (g : string) (log : list LEvent) : list Message :=
  omap (fun e => match e with EvTaken g' m => if String.eqb g' g then Some m else None | _ => None end) log.
Definition box {O} (s : Shared O) (g : string) : list Message := default [] (sh_boxes s !! g).

(** Events the account does not count. *)
Definition uncounted (e : LEvent) : bool := match e with EvReport _ | EvCall _ => true | _ => false end.

Record account {O} (src0 src : list SrcItem) (s : Shared O) : Prop := {
  ac_source : src0 = reads (sh_log s) ++ src;
  ac_routed : routed (sh_log s) = filter (fun m => is_command m = true) (messages (reads (sh_log s)));
  ac_boxes : forall g, accepted g (sh_log s) = taken g (sh_log s) ++ box s g;
  ac_small : forall g, (length (box s g) <= mailboxBuffer)%nat;
  ac_kinds : forall m, EvAccepted m ∈ sh_log s -> msg_Kind m ∈ [MsgInfo; MsgCancel; MsgConfirm]
}.

(** The log grew by uncounted events and the mailboxes hold the same. *)
Definition calm_log {O} (s s' : Shared O) : Prop :=
  exists evs, sh_log s' = sh_log s ++ evs /\ Forall (fun e => uncounted e = true) evs /\ forall g, box s' g = box s g.

Lemma calm_refl {O} (s : Shared O) : calm_log s s.
Proof. exists []. split_and!; [by rewrite app_nil_r | done..]. Qed.

Lemma calm_same {O} (s s' : Shared O) : sh_log s' = sh_log s -> sh_boxes s' = sh_boxes s -> calm_log s s'.
Proof. intros H1 H2. exists []. rewrite app_nil_r. split_and!; [done..|]. intros g. unfold box. by rewrite H2. Qed.

Lemma calm_note {O} e (s : Shared O) : uncounted e = true -> calm_log s (note e s).
Proof. intros He. exists [e]. split_and!; [done | by constructor | done]. Qed.

Lemma box_insert {O} g b (s : Shared O) g' : box (set_box g b s) g' = if decide (g' = g) then b else box s g'.
Proof. unfold box. simpl. case_decide; [subst; by rewrite lookup_insert_eq | by rewrite lookup_insert_ne]. Qed.

Lemma box_Create {O} g (s : Shared O) g' : box (Create g s) g' = box s g'.
Proof.
  unfold Create. destruct (sh_boxes s !! g) eqn:E; [done|]. rewrite box_insert. case_decide; [subst|done].
  unfold box. by rewrite E.
Qed.

Lemma calm_Create {O} g (s : Shared O) : calm_log s (Create g s).
Proof. exists []. split_and!; [|done|apply box_Create]. rewrite app_nil_r. unfold Create. by destruct (_ !! _). Qed.

#[export] Hint Resolve calm_refl calm_note calm_Create : go.
#[export] Hint Extern 3 (calm_log _ _) => (apply calm_same; reflexivity) : go.

Lemma account_calm {O} src0 src (s s' : Shared O) : calm_log s s' -> account src0 src s -> account src0 src s'.
Proof.
  intros (evs & Hl & He & Hb) [A1 A2 A3 A4 A5].
  assert (Z : reads evs = [] /\ routed evs = [] /\ forall g, accepted g evs = [] /\ taken g evs = []).
  { clear - He. induction He as [|e l H _ (I1 & I2 & I3)]; [done|]. destruct e; try done.
    all: split; [exact I1 | split; [exact I2 | exact I3]]. }
  destruct Z as (Z1 & Z2 & Z3).
  split; rewrite ?Hl; unfold reads, routed, accepted, taken in *; rewrite ?omap_app.
  - rewrite Z1, app_nil_r. done.
  - rewrite Z1, Z2, !app_nil_r. done.
  - intros g. rewrite !omap_app, (proj1 (Z3 g)), (proj2 (Z3 g)), !app_nil_r, Hb. apply A3.
  - intros g. rewrite Hb. apply A4.
  - intros m [Hm|Hm]%elem_of_app; [by apply A5|]. rewrite Forall_forall in He. by apply He in Hm.
Qed.

(** The events of one turn that the account counts. *)
Lemma account_note {O} src0 src src' (s s' : Shared O) evs :
  sh_log s' = sh_log s ++ evs -> src0 = reads (sh_log s') ++ src' ->
  routed evs = filter (fun m => is_command m = true) (messages (reads evs)) ->
  (forall g, box s g ++ accepted g evs = taken g evs ++ box s' g) ->
  (forall g, length (box s' g) <= mailboxBuffer)%nat ->
  (forall m, EvAccepted m ∈ evs -> msg_Kind m ∈ [MsgInfo; MsgCancel; MsgConfirm]) ->
  account src0 src s -> account src0 src' s'.
Proof.
  intros Hl Hs Hr Hb Hn Hk [A1 A2 A3 A4 A5]. split; [done| | |done|].
  - rewrite Hl. unfold reads, routed, messages in *. by rewrite !omap_app, filter_app, A2, Hr.
  - intros g. rewrite Hl. specialize (A3 g). specialize (Hb g). unfold accepted, taken in *.
    by rewrite !omap_app, A3, <- !app_assoc, Hb.
  - intros m. rewrite Hl. intros [Hm|Hm]%elem_of_app; auto.
Qed.

Section Account.
Context {O P : Type} `{OrchLike O P}.
Context (maxGoals : Z) (sweeps statusHandler : bool) (quote : string -> string).

Local Notation plane_step := (plane_step maxGoals sweeps statusHandler quote).
Local Notation reaches := (reaches maxGoals sweeps statusHandler quote).
Local Notation Plane := (Plane O P).
Local Notation Shared := (Shared O).
Local Notation Actor := (Actor P).

Lemma handler_calm now i (a : Actor) (s : Shared) a' s' pre new :
  handler_step quote now i a s = Some (a', s', pre, new) -> calm_log s s'.
Proof.
  intros E. destruct i; simpl in E.
  all: repeat match type of E with
       | context [let '(_, _) := ?x in _] => destruct x
       | context [match ?x with _ => _ end] => destruct x eqn:?
       end; try discriminate; simplify_eq/=; auto with go.
  all: match goal with R : run_call _ _ _ = Some _ |- _ => destruct (run_call_same _ _ _ _ _ R) as (? & ? & ->) end; auto with go.
Qed.

Lemma main_calm now c (a : Actor) (s : Shared) a' s' : main_step maxGoals now c a s = Some (a', s') -> calm_log s s'.
Proof.
  intros E. unfold main_step, run_main in E. destruct (a_main a) eqn:Em; try done;
    repeat match type of E with
    | context [match run_call ?x ?y ?z with _ => _ end] =>
      destruct (run_call x y z) as [[[?|?] ?]|] eqn:R; [| |done]; apply run_call_same in R as (? & ? & ->)
    | context [match ?x with _ => _ end] => destruct x eqn:?
    end; try done; injection E as <- <-; auto with go.
  all: eexists [_]; split_and!; [done | by constructor | done].
Qed.

Lemma receive_account src0 src (a : Actor) nilChan b (s : Shared) a' s' :
  receive sweeps quote a nilChan b s = Some (a', s') -> account src0 src s -> account src0 src s'.
Proof.
  intros (m & bx & Hb & _ & ->)%receive_inv A. pose proof A as [A1 A2 A3 A4 _].
  apply (account_note src0 src src s _ [EvTaken (goal_id a) m]); [done| |done| | |set_solver|exact A].
  - simpl. unfold reads in *. by rewrite omap_app, app_nil_r.
  - intros g. simpl. change (box (note _ ?x) g) with (box x g). rewrite box_insert, app_nil_r. unfold taken. simpl.
    destruct (decide (g = goal_id a)) as [->|Hg].
    + rewrite String.eqb_refl. unfold box. by rewrite Hb.
    + destruct (String.eqb_spec (goal_id a) g); [congruence | done].
  - intros g. change (box (note _ ?x) g) with (box x g). rewrite box_insert. case_decide; [subst|done].
    pose proof (A4 (goal_id a)) as L. unfold box in L. rewrite Hb in L. simpl in L. lia.
Qed.

Lemma drain_account src0 src now c (a : Actor) (s : Shared) a' s' new :
  drain_step sweeps quote now c a s = Some (a', s', new) -> account src0 src s -> account src0 src s'.
Proof.
  intros E A. unfold drain_step in E. destruct (a_drain a) as [|b|[|i code] b|p|]; try done.
  - destruct b, c; try (destruct (receive _ _ _ _ _ _) as [[a1 s1]|] eqn:E1; simpl in E; [|try done]);
      repeat match type of E with context [match ?x with true => _ | false => _ end] => destruct x eqn:? end;
      try done; simplify_eq/=; try (by eapply receive_account); try exact A; (eapply account_calm; [|exact A]; auto with go).
  - by simplify_eq/=.
  - destruct (handler_step _ _ _ _ _) as [[[[? ?] ?] ?]|] eqn:E1; [|done]. injection E as <- <- <-.
    eapply account_calm; [by eapply handler_calm | done].
  - destruct (run_call _ _ _) as [[[?|?] ?]|] eqn:E1; [| |done]; injection E as <- <- <-;
      apply run_call_same in E1 as (? & ? & ->); eapply account_calm; try done; auto with go.
Qed.

(** An item that is not a command, and what else its turn does. *)
Lemma read_account src0 i src (s s' : Shared) :
  account src0 (i :: src) s -> calm_log (note (EvRead i) s) s' ->
  filter (fun m => is_command m = true) (messages [i]) = [] -> account src0 src s'.
Proof.
  intros A C Hf. eapply account_calm; [exact C|]. pose proof A as [A1 A2 A3 A4 _].
  apply (account_note src0 (i :: src) src s _ [EvRead i]); [done| |by change (reads [EvRead i]) with [i]; rewrite Hf| |done|set_solver|exact A].
  - simpl. unfold reads in *. by rewrite omap_app, <- app_assoc.
  - intros g. by rewrite app_nil_r.
Qed.

(** A command and the one event that says where it went. *)
Lemma command_account src0 m src (s s' : Shared) e :
  account src0 (SrcMessage m :: src) s -> is_command m = true -> e = EvRefused m \/ e = EvUnknown m ->
  calm_log (note e (note (EvRead (SrcMessage m)) s)) s' -> account src0 src s'.
Proof.
  intros A Hc He C. eapply account_calm; [exact C|]. pose proof A as [A1 A2 A3 A4 _].
  apply (account_note src0 (SrcMessage m :: src) src s _ [EvRead (SrcMessage m); e]).
  - simpl. by rewrite <- app_assoc.
  - simpl. unfold reads in *. rewrite !omap_app, <- !app_assoc. by destruct He as [->| ->].
  - unfold messages, reads. destruct He as [-> | ->]; simpl; rewrite filter_cons_True by done; done.
  - intros g. destruct He as [-> | ->]; by rewrite app_nil_r.
  - done.
  - destruct He as [-> | ->]; set_solver.
  - exact A.
Qed.

Lemma deliver_account src0 m src (s : Shared) :
  account src0 (SrcMessage m :: src) s -> msg_Kind m ∈ [MsgInfo; MsgCancel; MsgConfirm] ->
  account src0 src (routeCommand quote m (note (EvRead (SrcMessage m)) s)).
Proof.
  intros A Hk. assert (Hc : is_command m = true) by (unfold is_command; destruct (msg_Kind m); set_solver).
  unfold routeCommand, deliver, Lookup. simpl.
  destruct (sh_boxes s !! msg_GoalID m) as [b|] eqn:Hb; [destruct (Nat.ltb_spec (length b) mailboxBuffer)|].
  - pose proof A as [A1 A2 A3 A4 _].
    apply (account_note src0 (SrcMessage m :: src) src s _ [EvRead (SrcMessage m); EvAccepted m]); [| | | | | |exact A].
    + simpl. by rewrite <- app_assoc.
    + simpl. unfold reads in *. by rewrite !omap_app, <- !app_assoc.
    + unfold messages, reads. simpl. by rewrite filter_cons_True by done.
    + intros g. change (box (note _ ?x) g) with (box x g). rewrite box_insert. unfold accepted. simpl.
      destruct (String.eqb_spec (msg_GoalID m) g) as [<-|Hg]; [rewrite decide_True by done | rewrite decide_False by congruence].
      * unfold box. by rewrite Hb.
      * by rewrite app_nil_r.
    + intros g. change (box (note _ ?x) g) with (box x g). rewrite box_insert. case_decide; [|apply A4].
      rewrite length_app. simpl. lia.
    + intros m' Hm. apply elem_of_cons in Hm as [Hm|Hm]; [done|]. apply list_elem_of_singleton in Hm. by injection Hm as ->.
  - eapply command_account; [exact A | done | by left|]. by apply calm_note.
  - eapply command_account; [exact A | done | by left|]. by apply calm_note.
Qed.

Lemma step_account src0 now t (st st' : Plane) :
  plane_step now t st = Some st' -> account src0 (cp_source st) (cp_sh st) -> account src0 (cp_source st') (cp_sh st').
Proof.
  intros E A. destruct t as [|i c|i c|]; simpl in E.
  - destruct st as [src pc actors s]. simpl in *.
    destruct pc; simpl in E; try (simplify_eq/=; eapply account_calm; [|exact A]; auto with go; fail).
    + destruct src as [|[m|e|e] src]; [by injection E as <-| | |]; simpl in E.
      * destruct (msg_Kind m) eqn:Hk; injection E as <-; simpl.
        -- eapply read_account; [exact A | apply calm_Create|]. unfold messages. simpl. rewrite filter_cons_False; [done|].
           unfold is_command. by rewrite Hk.
        -- eapply read_account; [exact A | by apply calm_note|]. unfold messages. simpl. rewrite filter_cons_False; [done|].
           unfold is_command. by rewrite Hk.
        -- eapply deliver_account; [exact A|]. rewrite Hk. set_solver.
        -- eapply deliver_account; [exact A|]. rewrite Hk. set_solver.
        -- eapply deliver_account; [exact A|]. rewrite Hk. set_solver.
        -- eapply command_account; [exact A | unfold is_command; by rewrite Hk | by right | by apply calm_note].
        -- eapply command_account; [exact A | unfold is_command; by rewrite Hk | by right | by apply calm_note].
      * injection E as <-. by eapply read_account; [exact A | apply calm_note|].
      * injection E as <-. by eapply read_account; [exact A | apply calm_refl|].
    + destruct (forallb exited actors); [|done]. by injection E as <-.
    + done.
  - destruct (cp_actors st !! i) as [a|]; [|done]. simpl in E.
    destruct (main_step maxGoals now c a (cp_sh st)) as [[a' s']|] eqn:E1; [|done]. injection E as <-. simpl.
    eapply account_calm; [by eapply main_calm | done].
  - destruct (cp_actors st !! i) as [a|]; [|done]. simpl in E.
    destruct (drain_step sweeps quote now c a (cp_sh st)) as [[[a' s'] new]|] eqn:E1; [|done]. injection E as <-. simpl.
    by eapply drain_account.
  - injection E as <-. eapply account_calm; [|exact A]. auto with go.
Qed.

Lemma reach_account o r src (st : Plane) : reaches (plane_start o r src) st -> account src (cp_source st) (cp_sh st).
Proof.
  induction 1 as [|st now t st' _ IH E]; [|by eapply step_account].
  split; simpl; [done..| | |].
  - intros g. unfold box. simpl. by rewrite lookup_empty.
  - intros g. unfold box. simpl. rewrite lookup_empty. simpl. lia.
  - set_solver.
Qed.
End Account.

(** ** Where actors, repositories and cancellations come from *)

Definition new_goals (log : list LEvent) : list Task :=
  omap (fun m => match msg_Kind m with MsgNewGoal => Some (msg_Goal m) | _ => None end) (messages (reads log)).

(** The IDs of a goal, its amendments, their amendments, and so on. *)
Inductive descends (root : string) : string -> Prop :=
| descends_root : descends root root
| descends_amend id n : descends root id -> descends root (id +:+ "/amend-" +:+ FormatInt n).

(** An actor of that goal took a cancel message out of the goal's mailbox. *)
Definition cancel_taken (goalID : string) (log : list LEvent) : Prop :=
  exists m, EvTaken goalID m ∈ log /\ msg_Kind m = MsgCancel.

(** The context with this number is the one derived for this new goal. *)
Definition goal_of (log : list LEvent) (ctx : nat) (goal : Task) : Prop :=
  (1 <= ctx)%nat /\ new_goals log !! (ctx - 1)%nat = Some goal.

Definition cancels (r : option StatusRegistry) : gmap string nat := match r with None => ∅ | Some r => sr_cancels r end.

(** What the control plane relies on: the orchestrator leaves the cancel handles alone. *)
Class OrchKeepsCancels (O P : Type) `{OrchLike O P} : Prop :=
  keeps_cancels done p o r o' r' k : op_step done p o r = Some ((o', r'), k) -> cancels r' = cancels r.

Lemma cancels_upsert g f r : cancels (upsert g f <$> r) = cancels r.
Proof. by destruct r. Qed.

Lemma cancels_DrainInfo now g r : cancels (DrainInfo now g r).2 = cancels r.
Proof. unfold DrainInfo. destruct (PendingInfo g r); [done|]. simpl. by destruct r. Qed.

Lemma cancels_Register now g s r : cancels (Register now g s r) = cancels r.
Proof. by destruct r. Qed.

Lemma cancels_Cancel g r :
  (Cancel g r).1 = cancels r !! g /\ forall id c, cancels (Cancel g r).2 !! id = Some c -> cancels r !! id = Some c.
Proof.
  destruct r as [r|]; simpl; [|done]. destruct (sr_cancels r !! g) eqn:E; simpl; [|by split]. split; [done|].
  intros id c. by intros [_ ?]%lookup_delete_Some.
Qed.

Lemma new_goals_prefix log log' i g : log `prefix_of` log' -> new_goals log !! i = Some g -> new_goals log' !! i = Some g.
Proof.
  intros [l ->] E. unfold new_goals, messages, reads in *. rewrite !omap_app. by apply lookup_app_l_Some.
Qed.

Lemma goal_of_prefix log log' c g : log `prefix_of` log' -> goal_of log c g -> goal_of log' c g.
Proof. intros Hp [Hc Hg]. split; [done|]. by eapply new_goals_prefix. Qed.

Lemma cancel_taken_prefix log log' g : log `prefix_of` log' -> cancel_taken g log -> cancel_taken g log'.
Proof. intros [l ->] (m & Hm & Hk). exists m. split; [|done]. apply elem_of_app. by left. Qed.

Section Origins.
Context {O P : Type} `{OrchKeepsCancels O P}.
Context (maxGoals : Z) (sweeps statusHandler : bool) (quote : string -> string).

Local Notation plane_step := (plane_step maxGoals sweeps statusHandler quote).
Local Notation reaches := (reaches maxGoals sweeps statusHandler quote).
Local Notation Plane := (Plane O P).
Local Notation Shared := (Shared O).
Local Notation Actor := (Actor P).

(** The actor works for a goal that was read, on that goal's repository. *)
Definition origin (log : list LEvent) (a : Actor) : Prop :=
  exists goal, goal_of log (a_ctx a) goal /\ task_Repo (a_goal a) = task_Repo goal /\ descends (task_ID goal) (goal_id a).

(** Amendments in the code of a handler are amendments of its goal, and it cancels only
    when told to. *)
Definition code_origin (log : list LEvent) (a : Actor) (code : list (Instr P)) : Prop :=
  (ICancel ∈ code -> cancel_taken (goal_id a) log) /\
  forall t, IAmendStart t ∈ code -> task_Repo t = task_Repo (a_goal a) /\ exists n, task_ID t = goal_id a +:+ "/amend-" +:+ FormatInt n.

Definition actor_origin (log : list LEvent) (a : Actor) : Prop :=
  origin log a /\ match a_drain a with DHandle code _ => code_origin log a code | _ => True end.

Definition loop_origin (pc : LoopPc) (s : Shared) : Prop :=
  match pc with
  | LRegister g | LContext g => goal_of (sh_log s) (sh_next s) g /\ length (new_goals (sh_log s)) = sh_next s
  | LStart g c => goal_of (sh_log s) c g /\ S (length (new_goals (sh_log s))) = sh_next s
  | _ => S (length (new_goals (sh_log s))) = sh_next s
  end.

Record origins (st : Plane) : Prop := {
  or_loop : loop_origin (cp_loop st) (cp_sh st);
  or_handles : forall id c, cancels (sh_reg (cp_sh st)) !! id = Some c ->
    exists goal, goal_of (sh_log (cp_sh st)) c goal /\ task_ID goal = id;
  or_fired : forall c, c ∈ sh_cancelled (cp_sh st) ->
    c = 0%nat \/ exists goal, goal_of (sh_log (cp_sh st)) c goal /\ cancel_taken (task_ID goal) (sh_log (cp_sh st));
  or_actors : Forall (actor_origin (sh_log (cp_sh st))) (cp_actors st)
}.

Lemma actor_origin_prefix log log' a : log `prefix_of` log' -> actor_origin log a -> actor_origin log' a.
Proof.
  intros Hp [(g & Hg & Hr & Hd) Hc]. split; [exists g; split_and!; [by eapply goal_of_prefix|done..]|].
  destruct (a_drain a); try done. destruct Hc as [H1 H2]. split; [|done]. intros Hi. by eapply cancel_taken_prefix; [|apply H1].
Qed.

Lemma run_call_cancels ctx p (s s' : Shared) k :
  run_call ctx p s = Some (k, s') -> cancels (sh_reg s') = cancels (sh_reg s) /\ sh_cancelled s' = sh_cancelled s.
Proof.
  unfold run_call. destruct (op_step _ _ _ _) as [[[o r] k']|] eqn:E; [|done]. intros [= <- <-]. simpl.
  split; [by eapply keeps_cancels | done].
Qed.

(** A handler fires at most the handle of its own goal, and adds none. *)
Lemma handler_fires now i (a : Actor) (s : Shared) a' s' pre new :
  handler_step quote now i a s = Some (a', s', pre, new) ->
  (forall id c, cancels (sh_reg s') !! id = Some c -> cancels (sh_reg s) !! id = Some c) /\
  (forall c, c ∈ sh_cancelled s' -> c ∈ sh_cancelled s \/ i = ICancel /\ cancels (sh_reg s) !! goal_id a = Some c).
Proof.
  intros E.
  assert (D : forall g, cancels (DrainInfo now g (sh_reg s)).2 = cancels (sh_reg s)) by (intros g; apply cancels_DrainInfo).
  destruct i; simpl in E.
  all: try match type of E with context [DrainInfo _ _ _] =>
             specialize (D (goal_id a)); destruct (DrainInfo _ _ _) as [info r]; simpl in D end.
  all: try (injection E as <- <- <- <-; simpl; unfold EnqueueInfo, SetState; rewrite ?cancels_upsert, ?cancels_Register, ?D; by auto).
  - destruct texts as [|t ts]; injection E as <- <- <- <-; simpl; [by auto|]. unfold Create. destruct (_ !! _); simpl; auto.
  - destruct (cancels_Cancel (goal_id a) (sh_reg s)) as [C1 C2]. destruct (Cancel _ _) as [c r]. simpl in C1, C2.
    injection E as <- <- <- <-. subst c. destruct (cancels (sh_reg s) !! goal_id a) as [c|] eqn:Ec; simpl; (split; [exact C2|]).
    + intros c' [->%elem_of_singleton|?]%elem_of_union; auto.
    + auto.
  - destruct (goal_state _ _) as [[]|]; injection E as <- <- <- <-; auto.
  - destruct (run_call _ _ _) as [[[?|?] ?]|] eqn:R; [| |done]; injection E as <- <- <- <-;
      apply run_call_cancels in R as [R1 R2]; rewrite R1, R2; auto.
Qed.

Lemma handler_origin now i (a : Actor) (s : Shared) a' s' pre new code :
  handler_step quote now i a s = Some (a', s', pre, new) -> code_origin (sh_log s) a (i :: code) ->
  code_origin (sh_log s') a' (pre ++ code).
Proof.
  intros E [H1 H2]. pose proof (handler_frame _ _ _ _ _ _ _ _ _ E) as (G & _ & _ & _ & _ & _ & _ & _ & Hg & Hr & _).
  unfold code_origin. rewrite Hg, Hr.
  assert (Hpre : ICancel ∉ pre /\ forall t, IAmendStart t ∈ pre -> task_Repo t = task_Repo (a_goal a) /\
    exists n, task_ID t = goal_id a +:+ "/amend-" +:+ FormatInt n).
  { clear - E. destruct i; simpl in E.
    all: repeat match type of E with
       | context [let '(_, _) := ?x in _] => destruct x
       | context [match ?x with _ => _ end] => destruct x eqn:?
       end; try discriminate; simplify_eq/=; try (split; [set_solver|]; intros t; set_solver).
    unfold checkpoint. destruct (default _ _); (split; [set_solver|]; intros t; set_solver). }
  destruct Hpre as [P1 P2]. split.
  - intros [?|?]%elem_of_app; [done|]. eapply cancel_taken_prefix; [apply (gr_log _ _ G)|]. apply H1. by right.
  - intros t [?|?]%elem_of_app; [by apply P2|]. apply H2. by right.
Qed.

Lemma handleCommand_origin log (a : Actor) nilChan m :
  EvTaken (goal_id a) m ∈ log -> code_origin log a (@handleCommand P sweeps quote (goal_id a) nilChan m).
Proof.
  intros Hm. split; [|by intros t Ht%handleCommand_start]. intros Hc. exists m. split; [done|]. unfold handleCommand in Hc.
  destruct (msg_Kind m), sweeps; set_solver.
Qed.

(** A turn of an actor that neither adds cancel handles nor fires one. *)
Lemma quiet_turn (st : Plane) i (a a' : Actor) s' new :
  origins st -> cp_actors st !! i = Some a -> sh_log (cp_sh st) `prefix_of` sh_log s' ->
  new_goals (sh_log s') = new_goals (sh_log (cp_sh st)) -> sh_next s' = sh_next (cp_sh st) ->
  (forall id c, cancels (sh_reg s') !! id = Some c -> cancels (sh_reg (cp_sh st)) !! id = Some c) ->
  (forall c, c ∈ sh_cancelled s' -> c ∈ sh_cancelled (cp_sh st) \/
     cancels (sh_reg (cp_sh st)) !! goal_id a = Some c /\ cancel_taken (goal_id a) (sh_log s')) ->
  actor_origin (sh_log s') a' -> Forall (actor_origin (sh_log s')) new ->
  origins (mkPlane (cp_source st) (cp_loop st) (<[i := a']> (cp_actors st) ++ new) s').
Proof.
  intros [Hl Hh Hf Ha] Ei Hp Hg Hn Hc Hfi Ha' Hnew.
  assert (G : forall c g, goal_of (sh_log (cp_sh st)) c g -> goal_of (sh_log s') c g) by (intros c g; by apply goal_of_prefix).
  split; simpl.
  - revert Hl. unfold loop_origin, goal_of. by rewrite Hg, Hn.
  - intros id c Hid. destruct (Hh id c (Hc id c Hid)) as (g & ? & ?). exists g. auto.
  - intros c [Hold|[Hr Ht]]%Hfi.
    + destruct (Hf c Hold) as [?|(g & ? & ?)]; [by left|]. right. exists g. split; [auto|]. by eapply cancel_taken_prefix.
    + right. destruct (Hh _ _ Hr) as (g & ? & Hid). exists g. split; [auto|]. by rewrite Hid.
  - apply Forall_app. split; [|done]. apply Forall_insert; [|done]. eapply Forall_impl; [exact Ha|].
    intros b. by apply actor_origin_prefix.
Qed.

Lemma calm_goals (s s' : Shared) : calm_log s s' -> sh_log s `prefix_of` sh_log s' /\ new_goals (sh_log s') = new_goals (sh_log s).
Proof.
  intros (evs & -> & He & _). split; [by eexists|]. unfold new_goals, messages, reads. rewrite !omap_app.
  replace (omap (fun e => match e with EvRead i => Some i | _ => None end) evs) with (@nil SrcItem); [by rewrite app_nil_r|].
  induction He as [|e l Hx _ IH]; [done|]. by destruct e.
Qed.

Lemma main_origin now c (a : Actor) (s : Shared) a' s' :
  main_step maxGoals now c a s = Some (a', s') -> cancels (sh_reg s') = cancels (sh_reg s) /\ sh_cancelled s' = sh_cancelled s /\
  sh_next s' = sh_next s /\ a_goal a' = a_goal a /\ a_ctx a' = a_ctx a /\
  (a_drain a' = a_drain a \/ a_drain a' = DOff \/ a_drain a' = DSelect BLoop).
Proof.
  intros E. unfold main_step, run_main in E. destruct (a_main a) eqn:Em; try done;
    repeat match type of E with
    | context [match run_call ?x ?y ?z with _ => _ end] =>
      destruct (run_call x y z) as [[[?|?] ?]|] eqn:R; [| |done];
      pose proof (run_call_cancels _ _ _ _ _ R) as [? ?]; apply run_call_same in R as (? & ? & ->)
    | context [match ?x with _ => _ end] => destruct x eqn:?
    end; try done; injection E as <- <-; simpl; unfold SetState; rewrite ?cancels_upsert; auto 10.
Qed.

Lemma drain_origin (st : Plane) i now c (a : Actor) a' s' new :
  origins st -> cp_actors st !! i = Some a -> drain_step sweeps quote now c a (cp_sh st) = Some (a', s', new) ->
  origins (mkPlane (cp_source st) (cp_loop st) (<[i := a']> (cp_actors st) ++ new) s').
Proof.
  intros K Ei E. pose proof (Forall_lookup_1 _ _ _ _ (or_actors _ K) Ei) as [Ho Hc].
  set (s := cp_sh st) in *. unfold drain_step in E.
  assert (Q : forall s1 d, calm_log s s1 -> sh_next s1 = sh_next s -> cancels (sh_reg s1) = cancels (sh_reg s) ->
    sh_cancelled s1 = sh_cancelled s -> match d with DHandle code _ => code_origin (sh_log s1) a code | _ => True end ->
    origins (mkPlane (cp_source st) (cp_loop st) (<[i := set_drain d a]> (cp_actors st) ++ []) s1)).
  { intros s1 d [Hp Hg]%calm_goals Hn H1 H2 Hd. eapply quiet_turn; try done.
    - by rewrite H1.
    - rewrite H2. auto.
    - split; [|done]. destruct Ho as (g & ? & ? & ?). exists g. split_and!; [by eapply goal_of_prefix|done..]. }
  assert (R : forall nilChan b a1 s1, receive sweeps quote a nilChan b s = Some (a1, s1) ->
    origins (mkPlane (cp_source st) (cp_loop st) (<[i := a1]> (cp_actors st) ++ []) s1)).
  { intros nilChan b a1 s1 (m & bx & Hb & -> & ->)%receive_inv.
    assert (Hin : EvTaken (goal_id a) m ∈ sh_log s ++ [EvTaken (goal_id a) m]) by set_solver.
    eapply quiet_turn; try done; [by eexists| | by auto |].
    - unfold new_goals, messages, reads. simpl. by rewrite !omap_app, app_nil_r.
    - split; [|exact (handleCommand_origin _ a nilChan m Hin)]. destruct Ho as (g & ? & ? & ?). exists g.
      split_and!; [|done..]. eapply goal_of_prefix; [|done]. by eexists. }
  destruct (a_drain a) as [|b|[|ins code] b|p|] eqn:Ed; try done.
  - destruct b, c; try (destruct (receive _ _ _ _ _ _) as [[a1 s1]|] eqn:E1; simpl in E; [|try done]);
      repeat match type of E with context [match ?x with true => _ | false => _ end] => destruct x eqn:? end;
      try done; simplify_eq/=; try (by eapply R); apply Q; auto with go.
  - simplify_eq/=. apply Q; auto with go.
  - destruct (handler_step _ _ _ _ _) as [[[[a1 s1] pre] nw]|] eqn:E1; [|done]. injection E as <- <- <-.
    destruct (handler_fires _ _ _ _ _ _ _ _ E1) as [F1 F2]. pose proof (handler_origin _ _ _ _ _ _ _ _ code E1 Hc) as Hc'.
    pose proof (handler_frame _ _ _ _ _ _ _ _ _ E1) as (G & _ & _ & Hn & _ & _ & Hx & _ & Hg & Hr & ->).
    destruct (calm_goals _ _ (handler_calm _ _ _ _ _ _ _ _ _ E1)) as [Hp Hgs].
    destruct Ho as (g & Hgo & Hrepo & Hd). pose proof (goal_of_prefix _ _ _ _ Hp Hgo) as Hgo'.
    eapply quiet_turn; try done.
    + intros c' [?|[-> ?]]%F2; [by left|]. right. split; [done|]. eapply cancel_taken_prefix; [exact Hp|]. apply Hc. by left.
    + split; [|exact Hc']. exists g. unfold goal_id in *. simpl. rewrite Hx, Hr, Hg. done.
    + destruct ins; constructor; [|constructor]. split; [|done]. exists g. split; [done|]. simpl.
      destruct (proj2 Hc amend) as [Hrep [n Hid]]; [by left|]. split; [by rewrite Hrep|].
      unfold goal_id at 1. simpl. rewrite Hid. by apply descends_amend.
  - destruct (run_call _ _ _) as [[[?|?] ?]|] eqn:E1; [| |done]; injection E as <- <- <-;
      pose proof (run_call_cancels _ _ _ _ _ E1) as [? ?]; apply run_call_same in E1 as (? & ? & ->); apply Q; auto with go.
Qed.

Lemma origins_keep (st st' : Plane) :
  origins st -> cp_actors st' = cp_actors st -> sh_log (cp_sh st) `prefix_of` sh_log (cp_sh st') ->
  cancels (sh_reg (cp_sh st')) = cancels (sh_reg (cp_sh st)) -> sh_cancelled (cp_sh st') = sh_cancelled (cp_sh st) ->
  loop_origin (cp_loop st') (cp_sh st') -> origins st'.
Proof.
  intros [Hl Hh Hf Ha] Hact Hp Hc Hx Hl'. split; [done| | |].
  - intros id c. rewrite Hc. intros (g & ? & ?)%Hh. exists g. split; [by eapply goal_of_prefix|done].
  - intros c. rewrite Hx. intros [?|(g & ? & ?)]%Hf; [by left|]. right. exists g.
    split; [by eapply goal_of_prefix | by eapply cancel_taken_prefix].
  - rewrite Hact. eapply Forall_impl; [exact Ha|]. intros a. by apply actor_origin_prefix.
Qed.

Lemma routed_goals (s s' : Shared) m evs :
  sh_log s' = sh_log s ++ EvRead (SrcMessage m) :: evs -> reads evs = [] ->
  new_goals (sh_log s') = new_goals (sh_log s) ++ (match msg_Kind m with MsgNewGoal => [msg_Goal m] | _ => [] end).
Proof.
  intros -> He. unfold new_goals, messages. change (EvRead (SrcMessage m) :: evs) with ([EvRead (SrcMessage m)] ++ evs).
  unfold reads in *. rewrite !omap_app, He. simpl. rewrite ?app_nil_r. by destruct (msg_Kind m).
Qed.

Lemma routeCommand_log m (s : Shared) :
  exists evs, sh_log (routeCommand quote m s) = sh_log s ++ evs /\ reads evs = [] /\
    sh_next (routeCommand quote m s) = sh_next s /\ sh_reg (routeCommand quote m s) = sh_reg s /\
    sh_cancelled (routeCommand quote m s) = sh_cancelled s.
Proof.
  unfold routeCommand, deliver. destruct (Lookup _ _) as [b|]; [destruct (_ <? _)%nat|]; simpl.
  - by exists [EvAccepted m].
  - eexists. rewrite <- app_assoc. split; done.
  - eexists. rewrite <- app_assoc. split; done.
Qed.

Lemma loop_origins now (st st' : Plane) :
  origins st -> loop_step statusHandler quote now st = Some st' -> origins st'.
Proof.
  intros K E. pose proof K as [Hl Hh Hf Ha]. destruct st as [src pc actors s]. simpl in *.
  assert (Q : forall src' pc' s', sh_log s `prefix_of` sh_log s' -> cancels (sh_reg s') = cancels (sh_reg s) ->
    sh_cancelled s' = sh_cancelled s -> loop_origin pc' s' -> origins (mkPlane src' pc' actors s')).
  { intros src' pc' s' H1 H2 H3 H4. by apply (origins_keep (mkPlane src pc actors s)). }
  destruct pc; simpl in *.
  - assert (R : forall m pc' s' evs, sh_log s' = sh_log s ++ EvRead (SrcMessage m) :: evs -> reads evs = [] ->
      sh_next s' = sh_next s -> sh_reg s' = sh_reg s -> sh_cancelled s' = sh_cancelled s ->
      match msg_Kind m with MsgNewGoal => pc' = LRegister (msg_Goal m) | _ => pc' = LRead end ->
      forall src', origins (mkPlane src' pc' actors s')).
    { intros m pc' s' evs Hlog He Hn Hr Hc Hpc src'. pose proof (routed_goals _ _ _ _ Hlog He) as Hg.
      apply Q; [rewrite Hlog; by eexists | by rewrite Hr | done |].
      destruct (msg_Kind m); subst pc'; simpl; rewrite ?Hg, ?Hn, ?app_nil_r; try done.
      rewrite length_app. simpl. split; [|lia]. split; [lia|]. rewrite Hg. apply list_lookup_middle. lia. }
    destruct src as [|[m|e|e] src]; [by injection E as <-; apply Q| |injection E as <-..].
    + destruct (routeCommand_log m (note (EvRead (SrcMessage m)) s)) as (evs & L1 & L2 & L3 & L4 & L5).
      simpl in L1. rewrite <- app_assoc in L1.
      assert (Cr : forall g (x : Shared), sh_log (Create g x) = sh_log x /\ sh_next (Create g x) = sh_next x /\
        sh_reg (Create g x) = sh_reg x /\ sh_cancelled (Create g x) = sh_cancelled x)
        by (intros g x; unfold Create; by destruct (_ !! _)).
      destruct (msg_Kind m) eqn:Hk; injection E as <-.
      * destruct (Cr (task_ID (msg_Goal m)) (note (EvRead (SrcMessage m)) s)) as (? & ? & ? & ?).
        apply (R m _ _ []); by rewrite ?Hk.
      * apply (R m _ _ [EvReport (if statusHandler
           then if String.eqb (msg_GoalID m) "" then renderFleetStatus (sh_reg s) else renderGoalStatus (sh_reg s) (msg_GoalID m)
           else if String.eqb (msg_GoalID m) "" then "status: fleet (handler pending task 114)"
           else "status: goal " +:+ quote (msg_GoalID m) +:+ " (handler pending task 114)")]); rewrite ?Hk; try done.
        simpl. by rewrite <- app_assoc.
      * apply (R m _ _ evs); by rewrite ?Hk.
      * apply (R m _ _ evs); by rewrite ?Hk.
      * apply (R m _ _ evs); by rewrite ?Hk.
      * apply (R m _ _ [EvUnknown m; EvReport "ignored message of unknown kind: approve"]); rewrite ?Hk; try done.
        simpl. by rewrite <- !app_assoc.
      * apply (R m _ _ [EvUnknown m; EvReport "ignored message of unknown kind: deny"]); rewrite ?Hk; try done.
        simpl. by rewrite <- !app_assoc.
    + apply Q; simpl; [rewrite <- app_assoc; by eexists | done..|]. unfold new_goals, messages, reads in *.
      by rewrite !omap_app, !app_nil_r.
    + apply Q; simpl; [by eexists | done..|]. unfold new_goals, messages, reads in *. by rewrite !omap_app, !app_nil_r.
  - injection E as <-. apply Q; simpl; [done | apply cancels_Register | done..].
  - injection E as <-. destruct Hl as [Hg Hn]. split; simpl; try done.
    + split; [done|]. by rewrite Hn.
    + intros id c. destruct (sh_reg s) as [r|]; simpl in *; [|by intros ?%Hh].
      intros [[<- <-]|[_ ?]]%lookup_insert_Some; [by exists goal | by apply Hh].
  - injection E as <-. destruct Hl as [Hg Hn]. split; simpl; try done. apply Forall_app. split; [done|].
    constructor; [|done]. split; [|done]. exists goal. split_and!; [done|done|apply descends_root].
  - injection E as <-. by apply Q.
  - destruct (forallb exited actors); [|done]. injection E as <-. by apply Q.
  - done.
Qed.

Lemma step_origins now t (st st' : Plane) : origins st -> plane_step now t st = Some st' -> origins st'.
Proof.
  intros K E. destruct t as [|i c|i c|]; simpl in E.
  - by eapply loop_origins.
  - destruct (cp_actors st !! i) as [a|] eqn:Ei; [|done]. simpl in E.
    destruct (main_step maxGoals now c a (cp_sh st)) as [[a' s']|] eqn:E1; [|done]. injection E as <-.
    destruct (main_origin _ _ _ _ _ _ E1) as (H1 & H2 & H3 & H4 & H5 & H6).
    destruct (calm_goals _ _ (main_calm _ _ _ _ _ _ _ E1)) as [Hp Hg].
    pose proof (Forall_lookup_1 _ _ _ _ (or_actors _ K) Ei) as W.
    rewrite <- (app_nil_r (<[i := a']> _)). eapply quiet_turn; try done.
    + by rewrite H1.
    + rewrite H2. auto.
    + apply (actor_origin_prefix _ _ _ Hp) in W as [(g & ? & ? & ?) Wc]. unfold goal_id in *.
      split; [exists g; unfold goal_id; by rewrite H4, H5|]. destruct H6 as [->|[->| ->]]; [|done..].
      destruct (a_drain a); try done. unfold code_origin, goal_id in *. by rewrite H4.
  - destruct (cp_actors st !! i) as [a|] eqn:Ei; [|done]. simpl in E.
    destruct (drain_step sweeps quote now c a (cp_sh st)) as [[[a' s'] new]|] eqn:E1; [|done]. injection E as <-.
    by eapply drain_origin.
  - injection E as <-. destruct K as [Hl Hh Hf Ha]. split; simpl; try done. intros c [->%elem_of_singleton|?]%elem_of_union; auto.
Qed.

Lemma reach_origins o r src (st : Plane) :
  sr_cancels r = ∅ -> reaches (plane_start o r src) st -> origins st.
Proof.
  intros Hr. induction 1 as [|st now t st' _ IH E]; [|by eapply step_origins].
  split; simpl; [done| |set_solver|constructor]. intros id c. by rewrite Hr, lookup_empty.
Qed.
End Origins.

(** ** What the orchestrator keeps, the control plane keeps *)

Section Inside.
Context {O P : Type} `{OrchLike O P}.
Context (maxGoals : Z) (sweeps statusHandler : bool) (quote : string -> string).
Context (I : O -> Prop).
Hypothesis I_step : forall done p o r o' r' k, op_step done p o r = Some ((o', r'), k) -> I o -> I o'.

Local Notation plane_step := (plane_step maxGoals sweeps statusHandler quote).
Local Notation reaches := (reaches maxGoals sweeps statusHandler quote).

Lemma run_call_inside ctx p (s s' : Shared O) k : run_call ctx p s = Some (k, s') -> I (sh_orch s) -> I (sh_orch s').
Proof.
  unfold run_call. destruct (op_step _ _ _ _) as [[[o r] k']|] eqn:E; [|done]. intros [= <- <-]. simpl. by eapply I_step.
Qed.

Lemma handler_inside now i (a : Actor P) (s : Shared O) a' s' pre new :
  handler_step quote now i a s = Some (a', s', pre, new) -> I (sh_orch s) -> I (sh_orch s').
Proof.
  intros E. destruct i; simpl in E.
  all: repeat match type of E with
       | context [let '(_, _) := ?x in _] => destruct x
       | context [match ?x with _ => _ end] => destruct x eqn:?
       end; try discriminate; simplify_eq/=; try done.
  all: try (unfold Create; by destruct (_ !! _)).
  all: by eapply run_call_inside.
Qed.

Lemma main_inside now c (a : Actor P) (s : Shared O) a' s' :
  main_step maxGoals now c a s = Some (a', s') -> I (sh_orch s) -> I (sh_orch s').
Proof.
  intros E Hi. unfold main_step, run_main in E. destruct (a_main a); try done;
    repeat match type of E with context [match ?x with _ => _ end] => destruct x eqn:? end; try done;
    injection E as <- <-; try done; simplify_eq; by eapply run_call_inside.
Qed.

Lemma drain_inside now c (a : Actor P) (s : Shared O) a' s' new :
  drain_step sweeps quote now c a s = Some (a', s', new) -> I (sh_orch s) -> I (sh_orch s').
Proof.
  intros E Hi. unfold drain_step in E. destruct (a_drain a) as [|b|[|i code] b|p|]; try done.
  - assert (R : forall nilChan b a1 s1, receive sweeps quote a nilChan b s = Some (a1, s1) -> I (sh_orch s1))
      by (by intros nilChan b' a1 s1 (m & bx & _ & _ & ->)%receive_inv).
    destruct b, c; try (destruct (receive _ _ _ _ _ _) as [[a1 s1]|] eqn:E1; simpl in E; [|try done]);
      repeat match type of E with context [match ?x with true => _ | false => _ end] => destruct x eqn:? end;
      try done; simplify_eq/=; try done; by eapply R.
  - by simplify_eq/=.
  - destruct (handler_step _ _ _ _ _) as [[[[? ?] ?] ?]|] eqn:E1; [|done]. injection E as <- <- <-. by eapply handler_inside.
  - destruct (run_call _ _ _) as [[[?|?] ?]|] eqn:E1; [| |done]; injection E as <- <- <-; by eapply run_call_inside.
Qed.

Lemma loop_inside now (st st' : Plane O P) :
  loop_step statusHandler quote now st = Some st' -> I (sh_orch (cp_sh st)) -> I (sh_orch (cp_sh st')).
Proof.
  destruct st as [src pc actors s]. simpl. intros E Hi. destruct pc; try (by simplify_eq/=).
  - assert (C : forall g (x : Shared O), sh_orch (Create g x) = sh_orch x) by (intros g x; unfold Create; by destruct (_ !! _)).
    assert (R : forall m (x : Shared O), sh_orch (routeCommand quote m x) = sh_orch x)
      by (intros m x; unfold routeCommand, deliver; destruct (Lookup _ _); [destruct (_ <? _)%nat|]; done).
    destruct src as [|[m|e|e] src]; [by simplify_eq/=| |by simplify_eq/=..].
    destruct (msg_Kind m); injection E as <-; simpl; rewrite ?C, ?R; done.
  - destruct (forallb exited actors); by simplify_eq/=.
Qed.

Lemma reach_inside st0 (st : Plane O P) : reaches st0 st -> I (sh_orch (cp_sh st0)) -> I (sh_orch (cp_sh st)).
Proof.
  induction 1 as [|st now t st' _ IH E]; intros H0; [done|]. specialize (IH H0). destruct t as [|i c|i c|]; simpl in E.
  - by eapply loop_inside.
  - destruct (cp_actors st !! i) as [a|]; [|done]. simpl in E.
    destruct (main_step maxGoals now c a (cp_sh st)) as [[a' s']|] eqn:E1; [|done]. injection E as <-. by eapply main_inside.
  - destruct (cp_actors st !! i) as [a|]; [|done]. simpl in E.
    destruct (drain_step sweeps quote now c a (cp_sh st)) as [[[a' s'] new]|] eqn:E1; [|done]. injection E as <-. by eapply drain_inside.
  - by injection E as <-.
Qed.
End Inside.

(** ** The properties *)

(** C20. Whatever the control loop has read and however its goroutines interleave,
    the admission permits taken are those of the goals that hold one and never more
    than the configured cap, and a goal that holds none has no running command
    goroutine; once the loop has returned, no permit is held and every goroutine of
    every goal has ended. *)
Theorem live_goals_never_exceed_the_cap {O P} `{OrchLike O P} maxGoals sweeps statusHandler quote o r src (st : Plane O P) :
  reaches maxGoals sweeps statusHandler quote (plane_start o r src) st ->
  sh_admit (cp_sh st) = slots (cp_actors st) /\ (slots (cp_actors st) <= admit_cap maxGoals)%nat /\
  Forall (fun a => live a = true \/ a_drain a = DOff \/ a_drain a = DExit) (cp_actors st) /\
  (forall e, cp_loop st = LReturn e ->
     slots (cp_actors st) = 0%nat /\ Forall (fun a => a_main a = MExit /\ (a_drain a = DOff \/ a_drain a = DExit)) (cp_actors st)).
Proof.
  intros [Hst Hsl Hcap _ _ Hret]%reach_ok. split_and!; [done | by rewrite <- Hsl | |].
  - eapply Forall_impl; [exact Hst|]. intros a (Hs & _). unfold live. destruct (a_main a), (a_drain a) as [|[]|? []| |]; try done; auto.
  - intros e He. apply Hret in He. rewrite forallb_forall in He.
    assert (F : Forall (fun a => a_main a = MExit /\ (a_drain a = DOff \/ a_drain a = DExit)) (cp_actors st)).
    { rewrite Forall_forall in *. intros a Ha. specialize (He a (proj1 (list_elem_of_In _ _) Ha)).
      destruct (Hst a Ha) as [Hs _]. unfold exited in He. destruct (a_main a); try done. split; [done|].
      destruct (a_drain a) as [|[]|? []| |]; try done; auto. }
    split; [|done]. clear - F. induction F as [|a l [Ha _] _ IH]; [done|]. rewrite slots_cons, IH. unfold live. by rewrite Ha.
Qed.


(** C17. When nothing but a cancellation of the root context can happen any more,
    the control loop has returned, or it waits for its goals and every goal still
    alive waits for the operator's confirmation, for a call of the orchestrator that
    is itself blocked, or for a slot of the full admission semaphore, and at least
    one of the first two kinds exists: the control plane has no deadlock of its own. *)
Theorem control_plane_rests_only_on_the_operator {O P} `{OrchLike O P} maxGoals sweeps statusHandler quote o r src (st : Plane O P) :
  reaches maxGoals sweeps statusHandler quote (plane_start o r src) st ->
  at_rest maxGoals sweeps statusHandler quote st ->
  (exists e, cp_loop st = LReturn e) \/
  (exists e, cp_loop st = LWait e) /\
  (exists a, a ∈ cp_actors st /\ (awaits_confirm (cp_sh st) a \/ call_blocked (cp_sh st) a)) /\
  Forall (fun a => exited a = true \/ awaits_confirm (cp_sh st) a \/ call_blocked (cp_sh st) a \/
                   a_main a = MAdmit /\ slots (cp_actors st) = admit_cap maxGoals) (cp_actors st).
Proof. intros K%reach_ok R. eapply rest_shape; [exact K | exact R]. Qed.

(** C18. Every actor works for a goal that was read from the source (the goal itself
    or an amendment of it), on that goal's repository and under that goal's own
    context; and its context is done only if the whole control plane was cancelled
    or a cancel message for that very goal was taken from its mailbox. *)
Theorem cancellation_stays_with_its_goal {O P} `{OrchKeepsCancels O P} maxGoals sweeps statusHandler quote o r src (st : Plane O P) :
  sr_cancels r = ∅ -> reaches maxGoals sweeps statusHandler quote (plane_start o r src) st ->
  Forall (fun a => exists goal,
    goal_of (sh_log (cp_sh st)) (a_ctx a) goal /\ task_Repo (a_goal a) = task_Repo goal /\ descends (task_ID goal) (goal_id a) /\
    (ctx_done (a_ctx a) (cp_sh st) = true ->
       0%nat ∈ sh_cancelled (cp_sh st) \/ cancel_taken (task_ID goal) (sh_log (cp_sh st)))) (cp_actors st).
Proof.
  intros Hr K. pose proof (reach_origins _ _ _ _ _ _ _ _ Hr K) as [_ _ Hf Ha]. eapply Forall_impl; [exact Ha|].
  intros a [(g & Hg & Hrepo & Hd) _]. exists g. split_and!; [done..|]. unfold ctx_done. intros [Hc|Hc]%orb_true_iff; to_prop; [by left|].
  destruct (Hf _ Hc) as [Hz|(g' & Hg' & Ht)]; [destruct Hg; lia|]. right. destruct Hg as [_ Hg], Hg' as [_ Hg']. congruence.
Qed.

(** ** An instance *)

(** An orchestrator whose calls take one step: an intake waits for the operator, a
    confirmed goal is done. *)
#[local] Instance demo_orchestrator : OrchLike unit Call := {|
  op_start := fun c => c;
  op_step := fun done c o r =>
    Some ((o, match c with
              | CBeginGoal g => SetState 0 (task_ID g) StateClarifying r
              | CConfirmAndPlan g => SetState 0 (task_ID g) StateDone r
              | _ => r
              end), inr (mkReply false None)) |}.

#[local] Instance demo_keeps : OrchKeepsCancels unit Call.
Proof. intros done c o r o' r' k. simpl. destruct c; intros [= <- <- <-]; [apply cancels_upsert..| | | | | | | |]; done. Qed.

Definition demo_message (k : MessageKind) (id text : string) : SrcItem :=
  SrcMessage (mkMessage k id (mkTask id "r" text "") text "").

Definition demo_plane (src : list SrcItem) (turns : list PlaneTurn) : Plane unit Call :=
  plane_run 1 false true id (map (fun t => (0, t)) turns) (plane_start tt NewStatusRegistry src).

Lemma demo_reaches src turns :
  reaches 1 false true id (plane_start tt NewStatusRegistry src) (demo_plane src turns).
Proof. apply run_reaches, reaches_here. Qed.

(** A goal is begun; its intake waits for the operator; the source ends. *)
Definition demo_unconfirmed : Plane unit Call :=
  demo_plane [demo_message MsgNewGoal "g" "fix it"]
    [TLoop; TLoop; TLoop; TLoop; TMain 0 Receive; TMain 0 Receive; TMain 0 Receive; TLoop; TLoop].

(** The same goal with a confirmation, and one that is cancelled. *)
Definition demo_confirmed : Plane unit Call :=
  demo_plane [demo_message MsgNewGoal "g" "fix it"; demo_message MsgConfirm "g" ""]
    ([TLoop; TLoop; TLoop; TLoop; TMain 0 Receive; TMain 0 Receive; TMain 0 Receive; TLoop; TLoop; TLoop;
      TDrain 0 Receive; TDrain 0 Receive; TDrain 0 Receive; TDrain 0 Receive] ++
     [TMain 0 Receive; TMain 0 Receive; TMain 0 Receive; TMain 0 Receive; TDrain 0 Closed; TDrain 0 Receive; TDrain 0 Receive;
      TMain 0 Receive; TMain 0 Receive; TLoop]).
Definition demo_cancelled : Plane unit Call :=
  demo_plane [demo_message MsgNewGoal "g" "fix it"; demo_message MsgCancel "g" ""]
    [TLoop; TLoop; TLoop; TLoop; TMain 0 Receive; TMain 0 Receive; TMain 0 Receive; TLoop; TDrain 0 Receive; TDrain 0 Receive].

Lemma demo_unconfirmed_rests : at_rest 1 false true id demo_unconfirmed.
Proof. intros now [|[|i] c|[|i] c|] Ht; [reflexivity| | | | |done]; try (destruct c; reflexivity); reflexivity. Qed.

(** The control loop of a finite source does not return while a goal waits for its confirmation. *)
Example unconfirmed_goal_holds_the_loop :
  at_rest 1 false true id demo_unconfirmed /\ cp_loop demo_unconfirmed = LWait None /\ cp_source demo_unconfirmed = [].
Proof. split; [exact demo_unconfirmed_rests | done]. Qed.

Lemma demo_confirmed_returned : cp_loop demo_confirmed = LReturn None.
Proof. vm_compute. reflexivity. Qed.

Lemma live_goals_never_exceed_the_cap_witness :
  cp_loop demo_confirmed = LReturn None /\ slots (cp_actors demo_confirmed) = 0%nat.
Proof.
  destruct (live_goals_never_exceed_the_cap 1 false true id tt NewStatusRegistry _ demo_confirmed (demo_reaches _ _))
    as (_ & _ & _ & R).
  split; [exact demo_confirmed_returned | exact (proj1 (R None demo_confirmed_returned))].
Defined.


Lemma control_plane_rests_only_on_the_operator_witness : exists a, a ∈ cp_actors demo_unconfirmed /\ exited a = false.
Proof.
  destruct (control_plane_rests_only_on_the_operator 1 false true id tt NewStatusRegistry _ demo_unconfirmed
    (demo_reaches _ _) demo_unconfirmed_rests) as [[e He]|(_ & (a & Ha & Hx) & _)]; [discriminate He|].
  exists a. split; [exact Ha|]. destruct Hx as [(Hm & _)|(p & Hp & _)]; [unfold exited; by rewrite Hm | by destruct p].
Defined.

Definition demo_cancelled_goal : Actor Call :=
  mkActor (mkTask "g" "r" "fix it" "") 1 MConfirmWait
    (DHandle [ICall (CConsumePlanOnCancel "g") "cancel for goal g: plan-consume error: "; ISetCancelled true] BLoop) false false 0.

Lemma demo_cancelled_actors : cp_actors demo_cancelled = [demo_cancelled_goal].
Proof. vm_compute. reflexivity. Qed.

Lemma demo_cancelled_contexts : sh_cancelled (cp_sh demo_cancelled) = {[1%nat]}.
Proof. vm_compute. reflexivity. Qed.

Lemma demo_cancelled_goals : new_goals (sh_log (cp_sh demo_cancelled)) = [mkTask "g" "r" "fix it" ""].
Proof. vm_compute. reflexivity. Qed.

Lemma demo_cancelled_reached : reaches 1 false true id
  (plane_start tt NewStatusRegistry [demo_message MsgNewGoal "g" "fix it"; demo_message MsgCancel "g" ""]) demo_cancelled.
Proof. apply demo_reaches. Qed.

#[local] Opaque demo_cancelled.

Lemma cancellation_stays_with_its_goal_witness : cancel_taken "g" (sh_log (cp_sh demo_cancelled)).
Proof.
  pose proof (cancellation_stays_with_its_goal 1 false true id tt NewStatusRegistry _ demo_cancelled eq_refl demo_cancelled_reached) as F.
  rewrite demo_cancelled_actors in F. apply Forall_inv in F as (goal & [_ Hg] & _ & _ & Hc).
  assert (Hd : ctx_done (a_ctx demo_cancelled_goal) (cp_sh demo_cancelled) = true)
    by (unfold ctx_done; rewrite demo_cancelled_contexts; apply orb_true_iff; right; apply bool_decide_eq_true; by apply elem_of_singleton).
  destruct (Hc Hd) as [Hz|Ht]; [rewrite demo_cancelled_contexts in Hz; by apply elem_of_singleton in Hz|].
  rewrite demo_cancelled_goals in Hg. injection Hg as <-. exact Ht.
Defined.
