(* ===== verification/ControlPlane.v ===== *)
(** * The orchestrator behind the control loop

    [Orchestrator] as an instance of the class [OrchLike] of [ControlLoop]: a call
    of the control plane is the operation of that name, run in one step under a
    schedule of its dispatch. The instance discharges the law the control loop
    relies on: no operation of the orchestrator touches a cancel handle. *)

From stdpp Require Import base gmap strings list.
From Stdlib Require Import ZArith Lia.
From S2P Require Import Prelude GoStrings Seams Loop RunStore Policy Containment Planner Fleet Dispatch Stores DispatchProofs DispatchGate Orchestrator ControlLoop.
Open Scope Z_scope.

Section Keeps.
Context {X PS RS : Type} `{RunStoreLike RS} `{PlanStoreLike PS}.
Context (uni : string -> string) (url_Parse : string -> option (string * string))
        (quote : string -> string) (o : @Orch X).
Local Notation World := (@World X PS RS).

(** The cancel handles in a world. *)
Definition handles (w : World) : gmap string nat := cancels (w_reg w).

(** Go through a body: split its tests and calls, and carry the equation of each call. *)
Ltac handles_go :=
  repeat match goal with
  | |- context [let '(_, _) := ?f in _] => let E := fresh "E" in destruct f as [? ?] eqn:E
  | |- context [match ?x with _ => _ end] => let E := fresh "E" in destruct x eqn:E
  end;
  repeat match goal with
  | E : _ = (_, _) |- _ => apply (f_equal (fun p => handles (snd p))) in E; simpl in E
  end;
  simpl in *; autorewrite with handles in *; try congruence.

Lemma handles_same (w w' : World) : w_reg w' = w_reg w -> handles w' = handles w.
Proof. unfold handles. by intros ->. Qed.

Lemma handles_now w : handles (now o w).2 = handles w.
Proof. unfold now. by destruct (o_clock o _). Qed.
Lemma handles_set_state g s w : handles (set_state o g s w) = handles w.
Proof. unfold set_state, now. destruct (o_clock o _). apply cancels_upsert. Qed.
Lemma handles_set_sub g p w : handles (set_sub_goal o g p w) = handles w.
Proof. unfold set_sub_goal, now. destruct (o_clock o _). apply cancels_upsert. Qed.
Lemma handles_report m w : handles (report o m w).2 = handles w.
Proof. unfold report. by destruct (o_reporter o m _). Qed.
Lemma handles_decide r w : handles (decide_policy o r w).2 = handles w.
Proof. unfold decide_policy. by destruct (o_policy o r _). Qed.
Lemma handles_plan g w : handles (plan_goal o g w).2 = handles w.
Proof. unfold plan_goal. by destruct (o_planner o g _). Qed.
Lemma handles_emit e w : handles (emitFleetEvent o e w) = handles w.
Proof. unfold emitFleetEvent. destruct (o_auditSink o) as [a|]; [|done]. by destruct (a e _). Qed.
Lemma handles_emit_deny e d w : handles (emitFleetEventForDeny o e d w).2 = handles w.
Proof. unfold emitFleetEventForDeny. destruct (o_auditSink o) as [a|]; [|done]. by destruct (a e _) as [[?|] ?]. Qed.
Lemma handles_set_plans p w : handles (set_plans p w) = handles w.
Proof. done. Qed.
Lemma handles_set_ext x w : handles (set_ext x w) = handles w.
Proof. done. Qed.
Lemma handles_save rs r w : handles (save o rs r w).2 = handles w.
Proof.
  unfold save. pose proof (handles_now w) as E. destruct (now o w) as [t w1]. by destruct (rs_Save t r rs).
Qed.
#[local] Hint Rewrite handles_now handles_set_state handles_set_sub handles_report handles_decide handles_plan handles_emit
  handles_emit_deny handles_set_plans handles_set_ext handles_save : handles.

Lemma handles_recordAttempt g t s d w : handles (recordAttempt o g t s d w) = handles w.
Proof. unfold recordAttempt. handles_go. Qed.
Lemma handles_recordPending g t d w : handles (recordPendingApproval o g t d w) = handles w.
Proof. unfold recordPendingApproval. handles_go. Qed.
Lemma handles_finalize p w : handles (finalizeGoalStatus o p w) = handles w.
Proof. unfold finalizeGoalStatus. handles_go. Qed.
Lemma handles_decideWorker plan sub w : handles (decideSpawnWorker uni url_Parse quote o plan sub w).2 = handles w.
Proof. unfold decideSpawnWorker. handles_go. Qed.
#[local] Hint Rewrite handles_recordAttempt handles_recordPending handles_finalize handles_decideWorker : handles.

Lemma handles_thread plan sub c pc (w : World) pc' w' :
  thread_step uni url_Parse quote o plan sub c pc w = Some (pc', w') -> handles w' = handles w.
Proof.
  intros E. destruct pc; simpl in E.
  all: repeat match type of E with
       | context [let '(_, _) := ?f in _] =>
         let E := fresh "E" in destruct f as [? ?] eqn:E; try (apply (f_equal (fun p => handles (snd p))) in E; simpl in E)
       | context [match ?x with _ => _ end] => destruct x
       end; simplify_eq/=; autorewrite with handles in *; try congruence; done.
Qed.

Lemma handles_team plan t (pcs pcs' : list (SubGoal * Pc)) (w w' : World) :
  team_step uni url_Parse quote o plan t (pcs, w) = Some (pcs', w') -> handles w' = handles w.
Proof.
  destruct t as [i c| | |]; simpl; intros E.
  - destruct (pcs !! i) as [[sub pc]|]; [|done]. destruct (thread_step _ _ _ _ _ _ _ _ _) as [[pc' w1]|] eqn:E1; [|done].
    simplify_eq. by eapply handles_thread.
  - by repeat case_match; simplify_eq.
  - by repeat case_match; simplify_eq.
  - by simplify_eq.
Qed.

Lemma handles_run plan sched st (w' : World) pcs' :
  run_schedule uni url_Parse quote o plan sched st = Some (pcs', w') -> handles w' = handles st.2.
Proof.
  revert st. induction sched as [|t sched IH]; intros [pcs w]; cbn [run_schedule]; [by intros [= <- <-]|].
  destruct (team_step _ _ _ _ _ _ _) as [[p1 w1]|] eqn:E; [|done]. intros E1%IH. apply handles_team in E. simpl in *. congruence.
Qed.

Lemma handles_replan n i b l goal (w : World) : handles (replan_loop (spawn_replan o goal) n i b l w).2 = handles w.
Proof.
  revert i l w. induction n as [|n IH]; intros i l w; simpl; [done|]. unfold spawn_replan at 1.
  pose proof (handles_plan goal w) as E. destruct (plan_goal o goal w) as [[p|e] w1]; simpl in *; [|done].
  destruct (negb _); [done|]. by rewrite IH.
Qed.

Lemma handles_reevaluate goal b n sw (w : World) :
  handles (ReevaluateBlockedSpawn o goal b n (Some (lift_status_writer sw)) w).2 = handles w.
Proof.
  unfold ReevaluateBlockedSpawn, NewReevaluationPolicy. destruct (n <? 0); [done|].
  unfold ReevaluateBlocked. destruct (IsZero b); [done|]. simpl.
  pose proof (handles_replan (Z.to_nat n) 1 b [] goal w) as E.
  destruct (replan_loop _ _ _ _ _ w) as [[r|l] w1]; simpl in *; [done|].
  unfold lift_status_writer. destruct (sw _ _ (w_ext w1)) as [[r|r] x]; simpl; by rewrite handles_set_ext.
Qed.

Lemma handles_outcomes plan n sw ocs (w : World) : handles (reevaluate_outcomes o plan n (lift_status_writer sw) ocs w).2 = handles w.
Proof.
  revert w. induction ocs as [|oc ocs IH]; intros w; simpl; [done|]. destruct (so_Blocked oc) as [b|].
  - set (g := mkTask _ _ _ _). pose proof (handles_reevaluate g b n sw w) as E.
    destruct (ReevaluateBlockedSpawn o g b n _ w) as [[r|e] w1]; simpl in E.
    + specialize (IH w1). destruct (reevaluate_outcomes o plan n _ ocs w1). simpl in *. congruence.
    + specialize (IH (report o ("reevaluation error: " +:+ reevaluation_error e) w1).2). rewrite handles_report in IH.
      destruct (reevaluate_outcomes o plan n _ ocs _). simpl in *. congruence.
  - specialize (IH w). by destruct (reevaluate_outcomes o plan n _ ocs w).
Qed.

Lemma handles_after_join plan results (w : World) : handles (after_join o plan results w).2 = handles w.
Proof.
  unfold after_join. destruct (first_err _); [apply handles_set_state|]. destruct (o_statusWriter o) as [sw|].
  - match goal with |- context [reevaluate_outcomes o plan ?n ?l ?ocs w] =>
      pose proof (handles_outcomes plan n sw ocs w) as E; destruct (reevaluate_outcomes o plan n l ocs w) as [ocs' w1] end.
    simpl in E. destruct (w_cancelled _); handles_go.
  - destruct (w_cancelled _); handles_go.
Qed.

Lemma handles_dispatchSubGoals sched plan subs (w : World) r w' :
  dispatchSubGoals uni url_Parse quote o sched plan subs w = Some (r, w') -> handles w' = handles w.
Proof.
  unfold dispatchSubGoals. destruct (run_schedule _ _ _ _ _ _ _) as [[pcs w1]|] eqn:E; [|done]. apply handles_run in E.
  destruct (join pcs) as [results|]; [|done]. intros [= Ej]. apply (f_equal snd) in Ej. simpl in *. rewrite <- Ej, handles_after_join, E.
  apply handles_set_state.
Qed.

Lemma handles_dispatchPlan sched plan (w : World) r w' :
  dispatchPlan uni url_Parse quote o sched plan w = Some (r, w') -> handles w' = handles w.
Proof. apply handles_dispatchSubGoals. Qed.

Lemma handles_get_plan g (w : World) : handles (get_plan g w).2 = handles w.
Proof. unfold get_plan. by destruct (ps_Get _ _). Qed.
#[local] Hint Rewrite handles_get_plan : handles.

Lemma handles_pause plan (w : World) : handles (pauseForApproval o plan w).2 = handles w.
Proof. unfold pauseForApproval. destruct ps_TamperAware as [[tp td]|]; [destruct (tp plan (w_plans w)) as [[e|] p]|]; handles_go. Qed.

Lemma handles_persist plan (w : World) : handles (persistPlanRecord quote o plan w) = handles w.
Proof. unfold persistPlanRecord. handles_go. Qed.
#[local] Hint Rewrite handles_pause handles_persist : handles.

Lemma handles_consume g (w : World) : handles (consume o g w).2 = handles w.
Proof.
  unfold consume, emitTamperEvent. destruct ps_TamperAware as [[tp td]|]; [destruct (td g (w_plans w)) as [[e|] p]|]; handles_go.
Qed.
#[local] Hint Rewrite handles_consume : handles.

Lemma handles_ConfirmAndPlan sched goal (w : World) r w' :
  ConfirmAndPlan uni url_Parse quote o sched goal w = Some (r, w') -> handles w' = handles w.
Proof.
  unfold ConfirmAndPlan, decideSpawn. intros E.
  pose proof (handles_plan goal (set_state o (task_ID goal) StatePlanning w)) as E1. rewrite handles_set_state in E1.
  destruct (plan_goal o goal _) as [[plan|e] w1]; simpl in E1; [|injection E as <- <-; by autorewrite with handles].
  destruct (pl_SubGoals plan); [injection E as <- <-; by autorewrite with handles|].
  assert (E2 : handles (match o_scoper o with
                     | None => (None, w1)
                     | Some configure => let '(e, x) := configure plan (w_ext w1) in (e, set_ext x w1)
                     end).2 = handles w1) by (destruct (o_scoper o) as [f|]; [by destruct (f plan _) | done]).
  destruct (match o_scoper o with None => _ | Some _ => _ end) as [[e|] w2]; simpl in E2;
    [injection E as <- <-; autorewrite with handles; congruence|].
  match type of E with context [decide_policy o ?r w2] =>
    pose proof (handles_decide r w2) as E3; destruct (decide_policy o r w2) as [d w3] end. simpl in E3.
  destruct d.
  - destruct (o_requireApproval o).
    + injection E as E. apply (f_equal snd) in E. simpl in E. rewrite <- E. autorewrite with handles. congruence.
    + apply handles_dispatchPlan in E. autorewrite with handles in E. congruence.
  - match type of E with context [report o ?m ?x] =>
      pose proof (handles_report m x) as E4; destruct (report o m x) as [[e|] w4] end; simpl in E4; injection E as <- <-;
      autorewrite with handles in E4; congruence.
  - injection E as E. apply (f_equal snd) in E. simpl in E. rewrite <- E. autorewrite with handles. congruence.
Qed.

(** ** The calls of the control plane *)

Section Calls.
Context (analyze : option (Task -> X -> result string GoalAnalysis * X))
        (answer : option (string -> Z -> X -> result string string * X))
        (clarify : Task -> X -> result string Clarification * X)
        (intakeMode : string) (show_duration : Z -> string) (timeout : Z)
        (show_err : OrchErr -> string) (sched_of : Call -> World -> list Turn).

(** The orchestrator with its conversations. *)
Definition Orchestra : Type := World * Conversations.

Definition reply (e : option OrchErr) : Reply := mkReply false (show_err <$> e).

(** The call as one step. The dispatches of a call run under the schedule
    [sched_of]; [None] when it stops short of the join. *)
Definition run_op (c : Call) (w : World) (cs : Conversations) : option ((World * Conversations) * Reply) :=
  match c with
  | CBeginGoal goal =>
    match BeginGoal uni url_Parse quote o analyze answer clarify intakeMode (sched_of c w) goal cs w with
    | None => None
    | Some (e, (cs, w)) => Some ((w, cs), reply e)
    end
  | CConfirmAndPlan goal =>
    match ConfirmAndPlan uni url_Parse quote o (sched_of c w) goal w with
    | None => None
    | Some ((_, e), w) => Some ((w, cs), reply e)
    end
  | CClarifyAndReport goal => let '(e, w) := ClarifyAndReport quote o clarify goal w in Some ((w, cs), reply e)
  | CContinueAnswer id text => let '(e, (cs, w)) := ContinueAnswer quote o answer id text cs w in Some ((w, cs), reply e)
  | CEndConversation id => let '(cs, w) := EndConversation o id cs w in Some ((w, cs), reply None)
  | CHasPendingPlan id => let '(b, w) := HasPendingPlan id w in Some ((w, cs), mkReply b None)
  | CConsumePlanOnCancel id => let '((b, e), w) := ConsumePlanOnCancel o id w in Some ((w, cs), mkReply b (show_err <$> e))
  | CSolicitApproval id => let '(e, w) := SolicitApproval o id w in Some ((w, cs), reply e)
  | CResumeApproval id task approved =>
    match ResumeApproval uni url_Parse quote o (sched_of c w) id task approved w with
    | None => None
    | Some (e, w) => Some ((w, cs), reply e)
    end
  | CSweepApprovalTimeouts =>
    let '(t, w) := now o w in Some ((SweepApprovalTimeouts quote o show_duration t timeout w, cs), reply None)
  end.

(** The context of the call, and the registry all actors share, as they are now. *)
Definition enter (done : bool) (r : option StatusRegistry) (w : World) : World :=
  mkWorld r (w_sem w) (w_foreign w) done (w_plans w) (w_runs w) (w_log w) (w_ext w).

Definition orchestra_like : OrchLike Orchestra Call := {|
  op_start := fun c => c;
  op_step := fun done c s r =>
    match run_op c (enter done r s.1) s.2 with
    | None => None
    | Some ((w, cs), rep) => Some (((w, cs), w_reg w), inr rep)
    end |}.

Lemma handles_report_all msgs (w : World) : handles (report_all o msgs w).2 = handles w.
Proof.
  revert w. induction msgs as [|m ms IH]; intros w; simpl; [done|].
  pose proof (handles_report m w) as E. destruct (report o m w) as [[e|] w1]; simpl in *; [done|]. by rewrite IH.
Qed.
#[local] Hint Rewrite handles_report_all : handles.

Lemma handles_Clarify goal (w : World) : handles (ClarifyAndReport quote o clarify goal w).2 = handles w.
Proof.
  unfold ClarifyAndReport. destruct (clarify _ _) as [[res|e] x]; [destruct (cl_Ready res); by rewrite handles_report_all | cbn [snd]; by rewrite handles_set_state].
Qed.

Lemma handles_answerGoal goal a cs (w : World) : handles (answerGoal quote o answer goal a cs w).2.2 = handles w.
Proof.
  unfold answerGoal. destruct answer as [ask|]; [destruct (ask _ _ _) as [[t|e] x]|].
  all: match goal with |- context [report_all o ?ms ?v] =>
         pose proof (handles_report_all ms v) as E; destruct (report_all o ms v) as [e' w'] end;
       simpl in *; autorewrite with handles in E; congruence.
Qed.

Lemma handles_Continue id text cs (w : World) : handles (ContinueAnswer quote o answer id text cs w).2.2 = handles w.
Proof.
  unfold ContinueAnswer. destruct (cs !! id) as [conv|]; [|done]. destruct answer as [ask|]; [|done].
  destruct (ask _ _ _) as [[t|e] x].
  all: match goal with |- context [report_all o ?ms ?v] =>
         pose proof (handles_report_all ms v) as E; destruct (report_all o ms v) as [e' w'] end;
       simpl in *; autorewrite with handles in E; congruence.
Qed.

Lemma handles_BeginGoal sched goal cs (w : World) e cs' w' :
  BeginGoal uni url_Parse quote o analyze answer clarify intakeMode sched goal cs w = Some (e, (cs', w')) -> handles w' = handles w.
Proof.
  unfold BeginGoal. intros E.
  assert (C : forall v, handles v = handles w ->
    (if String.eqb (TrimSpace intakeMode) "auto" then
       match ConfirmAndPlan uni url_Parse quote o sched goal v with None => None | Some ((_, e), w) => Some (e, (cs, w)) end
     else let '(e, w) := ClarifyAndReport quote o clarify goal (set_state o (task_ID goal) StateClarifying v) in Some (e, (cs, w)))
      = Some (e, (cs', w')) -> handles w' = handles w).
  { intros v Hv Ev. destruct (String.eqb _ _).
    - destruct (ConfirmAndPlan _ _ _ _ _ _ v) as [[[r e1] w1]|] eqn:E1; [|done]. apply handles_ConfirmAndPlan in E1.
      injection Ev as <- <- <-. congruence.
    - pose proof (handles_Clarify goal (set_state o (task_ID goal) StateClarifying v)) as E1. rewrite handles_set_state in E1.
      destruct (ClarifyAndReport _ _ _ _ (set_state o (task_ID goal) StateClarifying v)) as [e1 w1]. injection Ev as <- <- <-. simpl in E1. congruence. }
  assert (Hi : handles (intake o goal w) = handles w) by apply handles_emit.
  destruct analyze as [f|]; [|by apply (C _ Hi)]. destruct (f _ _) as [[a|e1] x].
  - destruct (ga_Kind a); [by apply (C (set_ext x (intake o goal w)))|]. injection E as E.
    pose proof (handles_answerGoal goal a cs (set_ext x (intake o goal w))) as E1. rewrite E in E1. simpl in E1. by rewrite E1.
  - injection E as <- <- <-. by rewrite handles_set_state.
Qed.

Lemma handles_after_approval g (w : World) : handles (finalizeAfterApproval quote o g w) = handles w.
Proof. unfold finalizeAfterApproval. handles_go. Qed.

Lemma handles_ResumeApproval sched id task b (w : World) e w' :
  ResumeApproval uni url_Parse quote o sched id task b w = Some (e, w') -> handles w' = handles w.
Proof.
  unfold ResumeApproval. intros E. destruct (w_runs w) as [rs|]; [|by injection E as <- <-].
  destruct (rs_Load id rs) as [[r|]|e0]; [|by injection E as <- <-..]. destruct (negb _); [by injection E as <- <-|].
  destruct b.
  - destruct (o_unmarshal o _) as [plan|]; [|injection E as <- <-; apply handles_save].
    destruct (List.find _ _) as [target|]; [|injection E as <- <-; apply handles_save].
    unfold dispatchOne in E. destruct (run_schedule _ _ _ _ _ _ _) as [[pcs w1]|] eqn:E2; [|done].
    apply handles_run in E2. cbn [snd] in E2. rewrite handles_save in E2. repeat case_match; simplify_eq; rewrite ?handles_after_approval; congruence.
  - injection E as <- <-. rewrite handles_after_approval, handles_recordAttempt. apply handles_save.
Qed.

Lemma handles_sweep_pending at_ g ps (w : World) : handles (sweep_pending quote o show_duration at_ timeout g ps w).2 = handles w.
Proof.
  revert w. induction ps as [|p ps IH]; intros w; simpl; [done|]. destruct (overdue _ _ _).
  - match goal with |- context [report o ?m w] => pose proof (handles_report m w) as E end.
    rewrite <- E. match goal with |- context [sweep_pending _ _ _ _ _ _ ps ?v] => specialize (IH v); destruct (sweep_pending _ _ _ _ _ _ ps v) as [[? ?] ?] end.
    exact IH.
  - specialize (IH w). by destruct (sweep_pending _ _ _ _ _ _ ps w) as [[? ?] ?].
Qed.

Lemma handles_sweep at_ (w : World) : handles (SweepApprovalTimeouts quote o show_duration at_ timeout w) = handles w.
Proof.
  unfold SweepApprovalTimeouts. destruct (w_runs w) as [rs|]; [|done]. destruct (rs_ListInFlight rs) as [records|]; [|done].
  revert w. induction records as [|r rs' IH]; intros w; simpl; [done|]. rewrite IH. unfold sweep_record.
  pose proof (handles_sweep_pending at_ (rr_GoalID r) (rr_Pending r) w) as E.
  destruct (sweep_pending _ _ _ _ _ _ _ w) as [[ps ch] w1]. simpl in E. destruct (w_runs w1); [|done]. destruct ch; [|done]. by rewrite handles_save.
Qed.

(** The law of the interface. *)
#[export] Instance orchestra_keeps_cancels : @OrchKeepsCancels Orchestra Call orchestra_like.
Proof.
  intros done c [w cs] r [w2 cs2] r' k. cbn [op_step orchestra_like fst snd].
  destruct (run_op _ _ _) as [[[w1 cs1] rep]|] eqn:E; [|done]. intros [= -> -> <- _]. fold (handles w2).
  change (cancels r) with (handles (enter done r w)). revert E. generalize (enter done r w). clear w. intros w E.
  destruct c; simpl in E.
  - destruct (BeginGoal _ _ _ _ _ _ _ _ _ _ _ _) as [[e [cs1 w1]]|] eqn:E1; [|done]. apply handles_BeginGoal in E1. by injection E as <- <-.
  - destruct (ConfirmAndPlan _ _ _ _ _ _ _) as [[[x e] w1]|] eqn:E1; [|done]. apply handles_ConfirmAndPlan in E1. by injection E as <- <-.
  - pose proof (handles_Clarify goal w) as E1. destruct (ClarifyAndReport _ _ _ _ _) as [e w1]. by injection E as <- <-.
  - pose proof (handles_Continue goalID text cs w) as E1. destruct (ContinueAnswer _ _ _ _ _ _ _) as [e [cs1 w1]]. by injection E as <- <-.
  - injection E as <- <-. apply handles_set_state.
  - unfold HasPendingPlan in E. pose proof (handles_get_plan goalID w) as E1. destruct (get_plan _ _) as [p w1]. by injection E as <- <-.
  - unfold ConsumePlanOnCancel in E. pose proof (handles_get_plan goalID w) as E1. destruct (get_plan _ _) as [[p|] w1]; [|by injection E as <- <-].
    pose proof (handles_consume goalID w1) as E2. destruct (consume _ _ _) as [e w2']. injection E as <- <-. simpl in *. congruence.
  - unfold SolicitApproval in E. pose proof (handles_get_plan goalID w) as E1. destruct (get_plan _ _) as [[p|] w1]; [|by injection E as <- <-].
    match type of E with context [report o ?m w1] => pose proof (handles_report m w1) as E2; destruct (report o m w1) as [e w2'] end.
    injection E as <- <-. simpl in *. congruence.
  - destruct (ResumeApproval _ _ _ _ _ _ _ _ _) as [[e w1]|] eqn:E1; [|done]. apply handles_ResumeApproval in E1. by injection E as <- <-.
  - pose proof (handles_now w) as E1. destruct (now o w) as [t w1]. injection E as <- <-. simpl in E1. by rewrite handles_sweep.
Qed.

(** ** No call starts an ungated worker *)

(** Every worker start in the log comes after the grant of some plan's sub-goal. *)
Definition well_gated (l : list Event) : Prop :=
  forall pre g sub post, l = pre ++ EvDispatch g sub :: post ->
    exists plan, g = pl_GoalID plan /\ sub ∈ pl_SubGoals plan /\ granted uni url_Parse quote o plan sub pre.

Lemma well_gated_app plan subs l new :
  well_gated l -> gated uni url_Parse quote o plan subs new -> subs ⊆ pl_SubGoals plan -> well_gated (l ++ new).
Proof.
  intros Hl Hn Hs pre g sub post E.
  apply app_eq_inv in E as [(k & -> & E)|(k & -> & E)].
  - destruct k as [|e k]; simpl in E.
    + destruct (Hn [] g sub post (eq_sym E)) as (? & ? & Hg). exists plan. split_and!; [done|by apply Hs|].
      destruct Hg as [(A1 & A2 & A3 & A4 & A5) _]. by apply not_elem_of_nil in A5.
    + injection E as <- E. by apply (Hl pre g sub k).
  - destruct (Hn k g sub post E) as (? & ? & [(A1 & A2 & A3 & A4 & A5) A6]). exists plan. split_and!; [done|by apply Hs|].
    split; [split_and!; try done; apply elem_of_app; by right|].
    destruct A6 as [?|[ok Hok]]; [by left|]. right. exists ok. apply elem_of_app. by right.
Qed.

Lemma well_gated_quiet (w w' : World) : quiet w w' -> well_gated (w_log w) -> well_gated (w_log w').
Proof.
  intros (evs & -> & Hc) Hl. apply (well_gated_app (mkPlan "" "" []) []); [done| |set_solver].
  apply (gated_app _ _ _ _ _ [] [] evs); [apply gated_nil | by apply calm_dispatched].
Qed.

(** [ConfirmAndPlan] is quiet but for the one dispatch it may end with. *)
Lemma confirm_shape sched goal (w : World) r w' :
  ConfirmAndPlan uni url_Parse quote o sched goal w = Some (r, w') ->
  quiet w w' \/ exists w5 plan, quiet w w5 /\ dispatchPlan uni url_Parse quote o sched plan w5 = Some (r, w').
Proof.
  unfold ConfirmAndPlan, decideSpawn. set (w0 := set_state o (task_ID goal) StatePlanning w).
  pose proof (frame_plan_goal o goal w0) as F1. destruct (plan_goal o goal w0) as [planned w1]. simpl in F1.
  assert (Q1 : quiet w w1) by (etrans; [apply quiet_set_state | by apply frame_quiet]).
  destruct planned as [plan|e]; [|intros [= <- <-]; left; etrans; [exact Q1 | apply quiet_set_state]].
  destruct (pl_SubGoals plan); [intros [= <- <-]; left; etrans; [exact Q1 | apply quiet_set_state]|].
  assert (Q2 : quiet w1 (match o_scoper o with
    | None => (None, w1)
    | Some configure => let '(e, x) := configure plan (w_ext w1) in (e, set_ext x w1) end).2).
  { destruct (o_scoper o) as [c|]; [|done]. destruct (c plan (w_ext w1)). apply frame_quiet, frame_set_ext. }
  destruct (match o_scoper o with None => _ | Some _ => _ end) as [[err|] w2]; simpl in Q2.
  { intros [= <- <-]. left. etrans; [exact Q1|]. etrans; [exact Q2 | apply quiet_set_state]. }
  match goal with |- context [decide_policy o ?r w2] =>
    pose proof (frame_quiet _ _ (frame_decide o r w2)) as Q3; destruct (decide_policy o r w2) as [d w3] end. simpl in Q3.
  set (ev := mkAuditEvent _ _ _ _ _ _).
  assert (Q4 : quiet w (emitFleetEvent o ev w3))
    by (etrans; [exact Q1|]; etrans; [exact Q2|]; etrans; [exact Q3|]; by apply frame_quiet, frame_emit).
  set (w4 := emitFleetEvent o ev w3) in *. destruct d.
  - pose proof (quiet_persist quote o plan w4) as Q5. destruct (o_requireApproval o).
    + intros [= E]. left. apply (f_equal snd) in E. simpl in E. rewrite <- E. etrans; [exact Q4|]. etrans; [exact Q5 | apply quiet_pause].
    + intros E. right. exists (persistPlanRecord quote o plan w4), plan. split; [by etrans | done].
  - pose proof (quiet_report o ("Plan denied for goal: " +:+ pl_Goal plan) (set_state o (pl_GoalID plan) StateFailed w4)) as Q5.
    destruct (report o _ _) as [[e|] w5]; intros [= <- <-]; left; (etrans; [exact Q4|]); (etrans; [apply quiet_set_state | exact Q5]).
  - intros [= E]. left. apply (f_equal snd) in E. simpl in E. rewrite <- E. etrans; [exact Q4 | apply quiet_pause].
Qed.

Lemma well_gated_confirm sched goal (w : World) r w' :
  ConfirmAndPlan uni url_Parse quote o sched goal w = Some (r, w') -> well_gated (w_log w) -> well_gated (w_log w').
Proof.
  intros [Q|(w5 & plan & Q & E)]%confirm_shape Hl; [by eapply well_gated_quiet|].
  apply (well_gated_quiet _ _ Q) in Hl. unfold dispatchPlan in E.
  apply dispatch_inv in E as (pcs & w1 & results & new & evs & _ & _ & Hinv & -> & Hc).
  rewrite app_assoc. apply (well_gated_app plan (pl_SubGoals plan) (w_log w5 ++ new) evs); [|apply (gated_app _ _ _ _ _ _ [] evs); [apply gated_nil | by apply calm_dispatched]|done].
  apply (well_gated_app plan (pl_SubGoals plan)); [done | exact (ti_gated _ _ _ _ _ _ _ _ _ Hinv) | done].
Qed.

Lemma quiet_set_ext x (w : World) : quiet w (set_ext x w).
Proof. apply frame_quiet, frame_set_ext. Qed.

Lemma quiet_report_all msgs (w : World) : quiet w (report_all o msgs w).2.
Proof.
  revert w. induction msgs as [|m ms IH]; intros w; simpl; [done|].
  pose proof (quiet_report o m w) as Q. destruct (report o m w) as [[e|] w1]; simpl in *; [done|]. etrans; [exact Q | apply IH].
Qed.

(** A report of the last step of a call. *)
Lemma quiet_then_report msgs (w v : World) : quiet w v -> quiet w (report_all o msgs v).2.
Proof. intros Q. etrans; [exact Q | apply quiet_report_all]. Qed.

Lemma quiet_Clarify goal (w : World) : quiet w (ClarifyAndReport quote o clarify goal w).2.
Proof.
  unfold ClarifyAndReport. destruct (clarify _ _) as [[res|e] x].
  - destruct (cl_Ready res); apply quiet_then_report, quiet_set_ext.
  - etrans; [apply (quiet_set_ext x) | apply quiet_set_state].
Qed.

Lemma quiet_emit_answer id x (w : World) : quiet w (emitFleetEvent o (answer_event id) (set_ext x w)).
Proof. etrans; [apply (quiet_set_ext x) | by apply frame_quiet, frame_emit]. Qed.

Lemma quiet_answerGoal goal a cs (w : World) : quiet w (answerGoal quote o answer goal a cs w).2.2.
Proof.
  unfold answerGoal. destruct answer as [ask|]; [destruct (ask _ _ _) as [[t|e] x]|].
  all: match goal with |- context [report_all o ?ms ?v] =>
         assert (Q : quiet w v); [|pose proof (quiet_then_report ms w v Q) as E; by destruct (report_all o ms v) as [e' w']] end.
  - etrans; [apply (quiet_emit_answer (task_ID goal) x) | apply quiet_set_state].
  - etrans; [apply (quiet_set_ext x) | apply quiet_set_state].
  - apply quiet_set_state.
Qed.

Lemma quiet_Continue id text cs (w : World) : quiet w (ContinueAnswer quote o answer id text cs w).2.2.
Proof.
  unfold ContinueAnswer. destruct (cs !! id) as [conv|]; [|done]. destruct answer as [ask|]; [|done].
  destruct (ask _ _ _) as [[t|e] x].
  all: match goal with |- context [report_all o ?ms ?v] =>
         assert (Q : quiet w v); [|pose proof (quiet_then_report ms w v Q) as E; by destruct (report_all o ms v) as [e' w']] end.
  - apply quiet_emit_answer.
  - apply quiet_set_ext.
Qed.

Lemma quiet_sweep at_ (w : World) : quiet w (SweepApprovalTimeouts quote o show_duration at_ timeout w).
Proof.
  assert (P : forall g ps (v : World), quiet v (sweep_pending quote o show_duration at_ timeout g ps v).2).
  { intros g ps. induction ps as [|p ps IH]; intros v; simpl; [done|]. destruct (overdue _ _ _).
    - match goal with |- context [report o ?m v] => pose proof (quiet_report o m v) as E end.
      etrans; [exact E|].
      match goal with |- context [sweep_pending _ _ _ _ _ _ ps ?u] => specialize (IH u); destruct (sweep_pending _ _ _ _ _ _ ps u) as [[? ?] ?] end.
      exact IH.
    - specialize (IH v). by destruct (sweep_pending _ _ _ _ _ _ ps v) as [[? ?] ?]. }
  unfold SweepApprovalTimeouts. destruct (w_runs w) as [rs|]; [|done]. destruct (rs_ListInFlight rs) as [records|]; [|done].
  revert w. induction records as [|r rs' IH]; intros w; simpl; [done|]. etrans; [|apply IH]. unfold sweep_record.
  specialize (P (rr_GoalID r) (rr_Pending r) w). destruct (sweep_pending _ _ _ _ _ _ _ w) as [[ps ch] w1]. simpl in P.
  destruct (w_runs w1); [|done]. destruct ch; [|done]. etrans; [exact P|]. apply frame_quiet, frame_save.
Qed.

Lemma quiet_after_approval g (w : World) : quiet w (finalizeAfterApproval quote o g w).
Proof.
  unfold finalizeAfterApproval. destruct (w_runs w) as [rs|]; [|done]. destruct (rs_Load g rs) as [[r|]|]; [|done..].
  destruct (rr_Pending r); [|apply frame_quiet, frame_save].
  destruct (isTerminal _); [etrans; [apply frame_quiet, frame_save | apply quiet_report] | apply frame_quiet, frame_save].
Qed.

Lemma gated_ResumeApproval sched id task b (w : World) e w' :
  ResumeApproval uni url_Parse quote o sched id task b w = Some (e, w') -> well_gated (w_log w) -> well_gated (w_log w').
Proof.
  unfold ResumeApproval. intros E Hl. destruct (w_runs w) as [rs|]; [|by injection E as <- <-].
  destruct (rs_Load id rs) as [[r|]|e0]; [|by injection E as <- <-..]. destruct (negb _); [by injection E as <- <-|].
  assert (S : forall r' : RunRecord, well_gated (w_log (save o rs r' w).2))
    by (intros r'; eapply well_gated_quiet; [apply frame_quiet, frame_save | exact Hl]).
  destruct b; [|injection E as <- <-; eapply well_gated_quiet; [|apply S]; etrans; [apply frame_quiet, frame_recordAttempt | apply quiet_after_approval]].
  destruct (o_unmarshal o _) as [plan|]; [|injection E as <- <-; apply S].
  destruct (List.find _ _) as [target|] eqn:Ef; [|injection E as <- <-; apply S].
  apply List.find_some in Ef as [Hin _]. apply list_elem_of_In in Hin.
  unfold dispatchOne in E. match type of E with context [run_schedule _ _ _ _ _ _ (_, ?v)] => set (w0 := v) in E end.
  assert (H0' : well_gated (w_log w0)) by apply S. clearbody w0.
  destruct (run_schedule _ _ _ _ _ _ _) as [[pcs w1]|] eqn:E2; [|done].
  destruct (run_inv _ _ _ _ _ _ _ _ _ _ _ (spawn_inv uni url_Parse quote o plan [target] w0) E2) as [new Hinv].
  pose proof (ti_log _ _ _ _ _ _ _ _ _ Hinv) as El. simpl in El.
  assert (H1 : well_gated (w_log w1)).
  { rewrite El. apply (well_gated_app plan [target]); [done | exact (ti_gated _ _ _ _ _ _ _ _ _ Hinv)|]. by intros s ->%list_elem_of_singleton. }
  repeat case_match; simplify_eq; try done. eapply well_gated_quiet; [apply quiet_after_approval | done].
Qed.

Lemma gated_BeginGoal sched goal cs (w : World) e cs' w' :
  BeginGoal uni url_Parse quote o analyze answer clarify intakeMode sched goal cs w = Some (e, (cs', w')) ->
  well_gated (w_log w) -> well_gated (w_log w').
Proof.
  unfold BeginGoal. intros E Hl. set (w0 := intake o goal w) in E.
  assert (H0' : well_gated (w_log w0)) by (eapply well_gated_quiet; [by apply frame_quiet, frame_emit | done]). clearbody w0.
  assert (C : forall v : World, well_gated (w_log v) ->
    (if String.eqb (TrimSpace intakeMode) "auto" then
       match ConfirmAndPlan uni url_Parse quote o sched goal v with None => None | Some ((_, e), w) => Some (e, (cs, w)) end
     else let '(e, w) := ClarifyAndReport quote o clarify goal (set_state o (task_ID goal) StateClarifying v) in Some (e, (cs, w)))
      = Some (e, (cs', w')) -> well_gated (w_log w')).
  { intros v Hv Ev. destruct (String.eqb _ _).
    - destruct (ConfirmAndPlan _ _ _ _ _ _ v) as [[[r e1] w1]|] eqn:E1; [|done]. injection Ev as <- <- <-.
      by eapply well_gated_confirm.
    - pose proof (quiet_Clarify goal (set_state o (task_ID goal) StateClarifying v)) as Q.
      destruct (ClarifyAndReport _ _ _ _ (set_state o (task_ID goal) StateClarifying v)) as [e1 w1]. injection Ev as <- <- <-.
      eapply well_gated_quiet; [|exact Hv]. etrans; [apply quiet_set_state | exact Q]. }
  destruct analyze as [f|]; [|by apply (C w0)]. destruct (f _ _) as [[a|e1] x].
  - destruct (ga_Kind a); [by apply (C (set_ext x w0))|]. injection E as E.
    pose proof (quiet_answerGoal goal a cs (set_ext x w0)) as Q. rewrite E in Q. by eapply well_gated_quiet.
  - injection E as <- <- <-. eapply well_gated_quiet; [|exact H0']. etrans; [apply (quiet_set_ext x) | apply quiet_set_state].
Qed.

Lemma run_op_gated c (w : World) cs w' cs' rep :
  run_op c w cs = Some ((w', cs'), rep) -> well_gated (w_log w) -> well_gated (w_log w').
Proof.
  intros E Hl. destruct c; simpl in E.
  - destruct (BeginGoal _ _ _ _ _ _ _ _ _ _ _ _) as [[e [cs1 w1]]|] eqn:E1; [|done]. injection E as <- <- <-. by eapply gated_BeginGoal.
  - destruct (ConfirmAndPlan _ _ _ _ _ _ _) as [[[x e] w1]|] eqn:E1; [|done]. injection E as <- <- <-. by eapply well_gated_confirm.
  - pose proof (quiet_Clarify goal w) as Q. destruct (ClarifyAndReport _ _ _ _ _) as [e w1]. injection E as <- <- <-. by eapply well_gated_quiet.
  - pose proof (quiet_Continue goalID text cs w) as Q. destruct (ContinueAnswer _ _ _ _ _ _ _) as [e [cs1 w1]]. injection E as <- <- <-. by eapply well_gated_quiet.
  - injection E as <- <- <-. eapply well_gated_quiet; [apply quiet_set_state | done].
  - unfold HasPendingPlan in E. pose proof (quiet_get_plan goalID w) as Q. destruct (get_plan _ _) as [p w1]. injection E as <- <- <-. by eapply well_gated_quiet.
  - unfold ConsumePlanOnCancel in E. pose proof (quiet_get_plan goalID w) as Q. destruct (get_plan _ _) as [[p|] w1];
      [|injection E as <- <- <-; by eapply well_gated_quiet].
    pose proof (quiet_consume o goalID w1) as Q2. destruct (consume _ _ _) as [e w2]. injection E as <- <- <-. eapply well_gated_quiet; [|done]. by etrans.
  - unfold SolicitApproval in E. pose proof (quiet_get_plan goalID w) as Q. destruct (get_plan _ _) as [[p|] w1];
      [|injection E as <- <- <-; by eapply well_gated_quiet].
    match type of E with context [report o ?m w1] => pose proof (quiet_report o m w1) as Q2; destruct (report o m w1) as [e w2] end.
    injection E as <- <- <-. eapply well_gated_quiet; [|done]. by etrans.
  - destruct (ResumeApproval _ _ _ _ _ _ _ _ _) as [[e w1]|] eqn:E1; [|done]. injection E as <- <- <-. by eapply gated_ResumeApproval.
  - pose proof (frame_quiet _ _ (frame_now o w)) as Q. destruct (now o w) as [t w1]. injection E as <- <- <-.
    eapply well_gated_quiet; [|done]. etrans; [exact Q | apply quiet_sweep].
Qed.
End Calls.
End Keeps.

(** ** The property *)

(** C16. Whatever messages the control loop reads, in whatever order its goroutines
    and those of the goal actors run, a worker that was started works on a sub-goal
    of a plan for its goal whose recipe is registered, which does not target agent-
    builder's own repository, whose recipe and task the plan declares, and which the
    policy engine allowed before. *)
Theorem no_message_starts_an_ungated_worker {X PS RS : Type} `{RunStoreLike RS} `{PlanStoreLike PS}
    uni url_Parse quote (o : @Orch X) analyze answer clarify intakeMode show_duration timeout show_err sched_of
    maxGoals sweeps statusHandler (w : @World X PS RS) r src (st : Plane Orchestra Call) :
  w_log w = [] ->
  @reaches _ _ (orchestra_like uni url_Parse quote o analyze answer clarify intakeMode show_duration timeout show_err sched_of)
    maxGoals sweeps statusHandler quote (plane_start (w, ∅) r src) st ->
  forall pre g sub post, w_log (sh_orch (cp_sh st)).1 = pre ++ EvDispatch g sub :: post ->
    exists plan, g = pl_GoalID plan /\ sub ∈ pl_SubGoals plan /\
      is_ok (SelectRecipe quote (o_recipes o) (sg_RecipeName sub)) = true /\
      targetsOwnRepo uni url_Parse sub = false /\
      authorizesResource plan (sg_RecipeName sub) = true /\
      authorizesResource plan (task_ID (sg_Task sub)) = true /\
      EvDecide (worker_request o sub) PolicyAllow ∈ pre.
Proof.
  intros Hw K pre g sub post E.
  assert (G : well_gated uni url_Parse quote o (w_log (sh_orch (cp_sh st)).1)).
  { refine (@reach_inside Orchestra Call (orchestra_like uni url_Parse quote o analyze answer clarify intakeMode show_duration
      timeout show_err sched_of) maxGoals sweeps statusHandler quote
      (fun s : Orchestra => well_gated uni url_Parse quote o (w_log s.1)) _ _ _ K _).
    - intros done c [v cs] reg [v' cs'] reg' k. cbn [op_step orchestra_like fst snd].
      destruct (run_op _ _ _ _ _ _ _ _ _ _ _ _ _ _ _) as [[[w1 cs1] rep]|] eqn:E1; [|done]. intros [= -> -> _ _] Hl.
      by eapply run_op_gated; [exact E1|].
    - simpl. rewrite Hw. intros p ? ? ? Ep. by destruct p. }
  destruct (G pre g sub post E) as (plan & ? & ? & (A1 & A2 & A3 & A4 & A5) & _). by exists plan.
Qed.

(** ** An instance *)

(** The demo orchestrator behind the loop: a goal is read, clarified, confirmed by the
    operator, planned and dispatched; its worker starts. *)
#[local] Instance demo_like : OrchLike Orchestra Call :=
  orchestra_like (fun s => s) demo_parse (fun s => s) (Demo.orch false false false) None None
    (fun goal x => (Ok (mkClarification true []), x)) "" (fun _ => "1h") 0 (fun _ => "error") (fun _ _ => Demo.alone).

Definition demo_source : list SrcItem :=
  [SrcMessage (mkMessage MsgNewGoal "g" Demo.goal "" ""); SrcMessage (mkMessage MsgConfirm "g" zero_task "" "")].

Definition demo_turns : list PlaneTurn :=
  [TLoop; TLoop; TLoop; TLoop; TMain 0 Receive; TMain 0 Receive; TMain 0 Receive; TLoop; TLoop; TLoop;
   TDrain 0 Receive; TDrain 0 Receive; TDrain 0 Receive; TDrain 0 Receive;
   TMain 0 Receive; TMain 0 Receive; TMain 0 Receive; TMain 0 Receive; TDrain 0 Closed; TDrain 0 Receive; TDrain 0 Receive;
   TMain 0 Receive; TMain 0 Receive; TLoop].

Definition demo_plane : Plane Orchestra Call :=
  plane_run 1 false true (fun s => s) (map (fun t => (0, t)) demo_turns)
    (plane_start (Demo.world 1, ∅) NewStatusRegistry demo_source).

Definition demo_log : list Event := w_log (sh_orch (cp_sh demo_plane)).1.

(** The goal is done, the loop has returned, and one worker was started. *)
Example demo_plane_runs :
  cp_loop demo_plane = LReturn None /\ length (dispatched demo_log) = 1%nat /\
  gs_State <$> GetStatus "g" (sh_reg (cp_sh demo_plane)) = Some StateDone.
Proof. vm_compute. done. Qed.

Definition demo_sub : SubGoal := mkSubGoal (mkTask "g-0" "" "it" "") "build" "" "".

(** The log around the worker start. *)
Definition is_start (e : Event) : bool := match e with EvDispatch _ _ => true | _ => false end.
Fixpoint before_start (l : list Event) : list Event :=
  match l with [] => [] | e :: l => if is_start e then [] else e :: before_start l end.
Fixpoint after_start (l : list Event) : list Event :=
  match l with [] => [] | e :: l => if is_start e then l else after_start l end.

Lemma demo_log_split : demo_log = before_start demo_log ++ EvDispatch "g" demo_sub :: after_start demo_log.
Proof. vm_compute. reflexivity. Qed.

Lemma demo_plane_reached :
  reaches 1 false true (fun s => s) (plane_start (Demo.world 1, ∅) NewStatusRegistry demo_source) demo_plane.
Proof. apply run_reaches, reaches_here. Qed.

#[local] Opaque demo_plane demo_log.

Lemma no_message_starts_an_ungated_worker_witness :
  EvDecide (worker_request (Demo.orch false false false) demo_sub) PolicyAllow ∈ before_start demo_log.
Proof.
  destruct (no_message_starts_an_ungated_worker _ _ _ _ _ _ _ _ _ _ _ _ _ _ _ (Demo.world 1) _ _ _ eq_refl demo_plane_reached
    _ _ _ _ demo_log_split) as (plan & _ & _ & _ & _ & _ & _ & Hd).
  exact Hd.
Defined.
