(* ===== verification/Console.v ===== *)
(** * The line console

    [internal/cli/router.go]: the message source that reads one goal from the
    environment and then one message per line of standard input, and its grammar.
    What it yields is the input of [ControlLoop]. *)

From stdpp Require Import base gmap strings list.
From Stdlib Require Import ZArith Lia Ascii.
From S2P Require Import Prelude GoStrings Texts Seams Loop Fleet Dispatch Orchestrator ControlLoop.
Open Scope Z_scope.

(** ** [bufio.Scanner] over lines *)

(** [bufio.MaxScanTokenSize]: a line must end within that many bytes. *)
Definition MaxScanTokenSize : nat := Z.to_nat 65536.

Inductive ScanResult :=
| ScanLine (line rest : string)
| ScanEOF
| ScanTooLong.

(** [bufio.ScanLines] drops the line feed and one carriage return before it. *)
Definition dropCR (line : string) : string := TrimSuffix line (String (ascii_of_N 13) "").

Definition Scan (text : string) : ScanResult :=
  match IndexByte text nl with
  | Some i =>
    if (i <? MaxScanTokenSize)%nat then ScanLine (dropCR (str_take i text)) (str_drop (S i) text) else ScanTooLong
  | None =>
    if String.eqb text "" then ScanEOF
    else if (String.length text <? MaxScanTokenSize)%nat then ScanLine (dropCR text) "" else ScanTooLong
  end.

(** ** The grammar *)

Section Console.
Variable quote : string -> string.

Definition malformed (line want : string) : SrcItem :=
  SrcMalformed ("orchestrate: malformed input line: " +:+ quote line +:+ " (want: " +:+ want +:+ ")").

Definition command (k : MessageKind) (goalID text taskID : string) : SrcItem :=
  SrcMessage (mkMessage k goalID zero_task text taskID).

(** [parseMessageLine]: the item and the new [autoSeq]. The line is not blank, so it
    has a first field. *)
Definition parseMessageLine (line : string) (autoSeq : Z) : SrcItem * Z :=
  let fields := Fields line in
  let verb := nth 0 fields "" in
  let arg n := nth n fields "" in
  let has n := (n <=? length fields)%nat in
  if String.eqb verb "status" then (command MsgStatus (if has 2%nat then arg 1%nat else "") "" "", autoSeq)
  else if String.eqb verb "info" then
    (if has 3%nat
     then command MsgInfo (arg 1%nat) (TrimSpace (TrimPrefix (TrimSpace (TrimPrefix line verb)) (arg 1%nat))) ""
     else malformed line "info <goalID> <text>", autoSeq)
  else if String.eqb verb "cancel" then
    (if has 2%nat then command MsgCancel (arg 1%nat) "" "" else malformed line "cancel <goalID>", autoSeq)
  else if String.eqb verb "confirm" then
    (if has 2%nat then command MsgConfirm (arg 1%nat) "" "" else malformed line "confirm <goalID>", autoSeq)
  else if String.eqb verb "approve" then
    (if has 3%nat then command MsgApprove (arg 1%nat) "" (arg 2%nat) else malformed line "approve <goalID> <taskID>", autoSeq)
  else if String.eqb verb "deny" then
    (if has 3%nat then command MsgDeny (arg 1%nat) "" (arg 2%nat) else malformed line "deny <goalID> <taskID>", autoSeq)
  else
    let autoSeq := wrap64 (autoSeq + 1) in
    let id := "goal-" +:+ FormatInt autoSeq in
    (SrcMessage (mkMessage MsgNewGoal id (mkTask id "" line "") "" ""), autoSeq).

(** ** The source *)

(** [envMessageSource]; [es_stdin] is [None] for a nil reader. *)
Record EnvSource := mkEnvSource {
  es_inited : bool;
  es_envSpec : string;
  es_envID : string;
  es_envRepo : string;
  es_envDone : bool;
  es_stdin : option string;
  es_autoSeq : Z
}.

Definition newEnvMessageSource (stdin : option string) : EnvSource := mkEnvSource false "" "" "" false stdin 0.

Variable getenv : string -> string.

Definition init (s : EnvSource) : EnvSource :=
  if es_inited s then s
  else
    let spec := TrimSpace (getenv "AGENT_BUILDER_GOAL_SPEC") in
    mkEnvSource true spec (TrimSpace (getenv "AGENT_BUILDER_GOAL_ID")) (TrimSpace (getenv "AGENT_BUILDER_GOAL_REPO"))
      (String.eqb spec "" || es_envDone s) (es_stdin s) (es_autoSeq s).

Definition set_input (text : string) (seq : Z) (s : EnvSource) : EnvSource :=
  mkEnvSource (es_inited s) (es_envSpec s) (es_envID s) (es_envRepo s) (es_envDone s) (Some text) seq.
Definition set_done (s : EnvSource) : EnvSource :=
  mkEnvSource (es_inited s) (es_envSpec s) (es_envID s) (es_envRepo s) true (es_stdin s) (es_autoSeq s).

(** The loop of [Next] over the lines: blank lines are skipped. The fuel is the number
    of bytes left, one of which each line takes. *)
Fixpoint read_lines (fuel : nat) (text : string) (seq : Z) : option SrcItem * (string * Z) :=
  match fuel with
  | O => (None, (text, seq))
  | S fuel =>
    match Scan text with
    | ScanEOF => (None, (text, seq))
    | ScanTooLong => (Some (SrcError "orchestrate: read message from stdin: bufio.Scanner: token too long"), ("", seq))
    | ScanLine line rest =>
      let line := TrimSpace line in
      if String.eqb line "" then read_lines fuel rest seq
      else let '(i, seq) := parseMessageLine line seq in (Some i, (rest, seq))
    end
  end.

(** [Next]; [None] is the end of the source. *)
Definition Next (s : EnvSource) : option SrcItem * EnvSource :=
  let s := init s in
  if negb (es_envDone s) then
    let id := if String.eqb (es_envID s) "" then "goal" else es_envID s in
    (Some (SrcMessage (mkMessage MsgNewGoal id (mkTask id (es_envRepo s) (es_envSpec s) "") "" "")), set_done s)
  else
    match es_stdin s with
    | None => (None, s)
    | Some text =>
      let '(i, (text, seq)) := read_lines (S (String.length text)) text (es_autoSeq s) in (i, set_input text seq s)
    end.

(** What a control loop that calls [Next] [n] times reads. *)
Fixpoint console_items (n : nat) (s : EnvSource) : list SrcItem * EnvSource :=
  match n with
  | O => ([], s)
  | S n => match Next s with
           | (None, s) => ([], s)
           | (Some i, s) => let '(l, s) := console_items n s in (i :: l, s)
           end
  end.
End Console.

Section Transcript.
Variable quote : string -> string.

(** ** What an operator writes *)

(** The commands of the grammar, with the arguments the operator means. *)
Inductive Command :=
| CmdFleet
| CmdStatus (goalID : string)
| CmdInfo (goalID text : string)
| CmdCancel (goalID : string)
| CmdConfirm (goalID : string)
| CmdApprove (goalID taskID : string)
| CmdDeny (goalID taskID : string)
| CmdGoal (text : string).

Definition verbs : list string := ["status"; "info"; "cancel"; "confirm"; "approve"; "deny"].

(** Arguments that fit the grammar: identifiers without white space, and the text of a
    goal does not begin with a verb. *)
Definition sayable (c : Command) : bool :=
  match c with
  | CmdFleet => true
  | CmdStatus g | CmdCancel g | CmdConfirm g => word g
  | CmdInfo g t => word g && prose t
  | CmdApprove g t | CmdDeny g t => word g && word t
  | CmdGoal t => prose t && negb (bool_decide (nth 0 (Fields t) "" ∈ verbs))
  end.

Definition say (c : Command) : string :=
  match c with
  | CmdFleet => "status"
  | CmdStatus g => "status" +:+ " " +:+ g
  | CmdInfo g t => "info" +:+ " " +:+ g +:+ " " +:+ t
  | CmdCancel g => "cancel" +:+ " " +:+ g
  | CmdConfirm g => "confirm" +:+ " " +:+ g
  | CmdApprove g t => "approve" +:+ " " +:+ g +:+ " " +:+ t
  | CmdDeny g t => "deny" +:+ " " +:+ g +:+ " " +:+ t
  | CmdGoal t => t
  end.

(** The message meant; a goal is numbered by the goals before it. *)
Definition meant (c : Command) (seq : Z) : SrcItem * Z :=
  match c with
  | CmdFleet => (command MsgStatus "" "" "", seq)
  | CmdStatus g => (command MsgStatus g "" "", seq)
  | CmdInfo g t => (command MsgInfo g t "", seq)
  | CmdCancel g => (command MsgCancel g "" "", seq)
  | CmdConfirm g => (command MsgConfirm g "" "", seq)
  | CmdApprove g t => (command MsgApprove g "" t, seq)
  | CmdDeny g t => (command MsgDeny g "" t, seq)
  | CmdGoal t => let id := "goal-" +:+ FormatInt (seq + 1) in
                 (SrcMessage (mkMessage MsgNewGoal id (mkTask id "" t "") "" ""), seq + 1)
  end.

Lemma parse_say c seq :
  sayable c = true -> in_int64 (seq + 1) = true -> parseMessageLine quote (say c) seq = meant c seq.
Proof.
  intros H S. unfold parseMessageLine.
  destruct c as [|g|g t|g|g|g t|g t|t]; unfold say; simpl in H; to_prop;
    rewrite ?Fields_cons, ?Fields_word by done; try done.
  - destruct (Fields t) as [|f fs] eqn:E; [by destruct (Fields_prose t)|]. simpl nth. simpl length.
    rewrite TrimPrefix_app, TrimSpace_lead by (by apply prose_join).
    rewrite TrimPrefix_app, TrimSpace_lead by done. done.
  - destruct (Fields t) as [|f fs] eqn:E; [by destruct (Fields_prose t)|].
    simpl nth in *. unfold verbs in H0. rewrite !not_elem_of_cons in H0.
    destruct_and!. rewrite !(proj2 (String.eqb_neq f _)) by done.
    apply in_int64_spec in S. rewrite wrap64_small by done. done.
Qed.

(** ** Transcripts *)

(** A line of the operator's input: blank, or a command with white space around it (a
    carriage return at its end, for one). *)
Inductive Line :=
| Blank (pad : string)
| Says (before : string) (c : Command) (after : string).

Definition line_text (l : Line) : string :=
  match l with Blank w => w | Says w1 c w2 => w1 +:+ say c +:+ w2 end.

Definition pad_byte (c : ascii) : bool := ascii_space c && negb (Ascii.eqb c nl).

Definition line_ok (l : Line) : bool :=
  match l with
  | Blank w => str_forall pad_byte w
  | Says w1 c w2 => str_forall pad_byte w1 && sayable c && str_forall pad_byte w2
  end && (String.length (line_text l) <? MaxScanTokenSize)%nat.

Fixpoint script (ls : list Line) : string :=
  match ls with [] => "" | l :: ls => line_text l +:+ String nl (script ls) end.

Fixpoint meanings (seq : Z) (ls : list Line) : list SrcItem :=
  match ls with
  | [] => []
  | Blank _ :: ls => meanings seq ls
  | Says _ c _ :: ls => let '(i, seq) := meant c seq in i :: meanings seq ls
  end.

Lemma prose_say c : sayable c = true -> prose (say c) = true.
Proof.
  destruct c; simpl; intros H; to_prop; try done;
    repeat first [apply prose_join; [done|] | by apply prose_word | done].
Qed.

Lemma pad_space w : str_forall pad_byte w = true -> str_forall ascii_space w = true.
Proof. apply str_forall_impl. unfold pad_byte. intros c H. by to_prop. Qed.

Lemma pad_no_nl w : str_forall pad_byte w = true -> str_forall (fun c => negb (Ascii.eqb c nl)) w = true.
Proof. apply str_forall_impl. unfold pad_byte. intros c H. by apply andb_true_iff in H as [_ ?]. Qed.

Lemma line_no_nl l : line_ok l = true -> str_forall (fun c => negb (Ascii.eqb c nl)) (line_text l) = true.
Proof.
  unfold line_ok. intros H. apply andb_true_iff in H as [H _]. destruct l as [w|w1 c w2]; simpl.
  - by apply pad_no_nl.
  - to_prop. rewrite !str_forall_app, (pad_no_nl w1), (pad_no_nl w2), prose_no_nl by auto using prose_say. done.
Qed.

Lemma index_nl_from k l rest :
  str_forall (fun c => negb (Ascii.eqb c nl)) l = true ->
  index_byte_from k (l +:+ String nl rest) nl = Some (k + String.length l)%nat.
Proof.
  revert k. induction l as [|c l IH]; intros k H; simpl in *; [by rewrite Nat.add_0_r|].
  apply andb_true_iff in H as [Hc Hl]. destruct (Ascii.eqb c nl); [done|].
  rewrite IH by done. f_equal. lia.
Qed.

(** The scanner yields a line and what follows its line feed. *)
Lemma Scan_line l rest :
  line_ok l = true -> Scan (line_text l +:+ String nl rest) = ScanLine (dropCR (line_text l)) rest.
Proof.
  intros H. unfold Scan, IndexByte. rewrite index_nl_from by (by apply line_no_nl).
  simpl (0 + _)%nat. unfold line_ok in H. apply andb_true_iff in H as [_ L]. rewrite L.
  f_equal; [by rewrite str_take_app|].
  change (String nl rest) with ((String nl "") +:+ rest).
  rewrite <- str_app_assoc. replace (S (String.length (line_text l))) with (String.length (line_text l +:+ String nl ""))
    by (rewrite str_length_app; simpl; lia).
  apply str_drop_app.
Qed.

(** Dropping a carriage return only shortens the padding. *)
Lemma dropCR_split s q :
  s <> "" -> (exists c s', String.rev s = String c s' /\ c <> ascii_of_N 13) -> dropCR (q +:+ s) = q +:+ s.
Proof.
  intros _ (c & s' & E & N). unfold dropCR, TrimSuffix, HasSuffix.
  rewrite rev_str_app, E, str_app_cons. change (String.rev (String (ascii_of_N 13) "")) with (String (ascii_of_N 13) "").
  destruct (String.prefix _ _) eqn:F; [|done]. apply str_prefix_cons in F as [F _]. congruence.
Qed.

Lemma dropCR_pad q w :
  str_forall ascii_space w = true -> (exists w', str_forall ascii_space w' = true /\ dropCR (q +:+ w) = q +:+ w')
  \/ w = "".
Proof.
  intros H. destruct (String.rev w) as [|c r] eqn:E.
  { right. apply (f_equal String.rev) in E. by rewrite rev_involutive in E. }
  left. assert (W : w = String.rev r +:+ String c "").
  { apply (f_equal String.rev) in E. rewrite rev_involutive, rev_cons in E. done. }
  destruct (decide (c = ascii_of_N 13)) as [->|N].
  - exists (String.rev r). rewrite W, str_forall_app in H. apply andb_true_iff in H as [H _].
    split; [done|]. rewrite W, <- str_app_assoc. unfold dropCR, TrimSuffix.
    rewrite HasSuffix_app. rewrite !str_length_app. simpl String.length.
    replace (String.length q + String.length (String.rev r) + 1 - 1)%nat with (String.length (q +:+ String.rev r))
      by (rewrite str_length_app; lia).
    apply str_take_app.
  - exists w. split; [done|]. apply dropCR_split; [by destruct w|]. by exists c, r.
Qed.

Lemma trimmed_line l :
  line_ok l = true -> TrimSpace (dropCR (line_text l)) = match l with Blank _ => "" | Says _ c _ => say c end.
Proof.
  intros H. unfold line_ok in H. apply andb_true_iff in H as [H _]. destruct l as [w|w1 c w2]; simpl.
  - apply pad_space in H. destruct (dropCR_pad "" w H) as [(w' & P & E)| ->]; [|done].
    change (dropCR w = w') in E. rewrite E. by apply TrimSpace_blank.
  - apply andb_true_iff in H as [H H2]. apply andb_true_iff in H as [H1 Hc].
    apply pad_space in H1, H2. pose proof (prose_say c Hc) as P.
    rewrite <- str_app_assoc. destruct (dropCR_pad (w1 +:+ say c) w2 H2) as [(w' & Hw & E)| ->].
    + rewrite E, str_app_assoc. by apply TrimSpace_prose.
    + rewrite str_app_nil_r. unfold prose in P. apply andb_true_iff in P as [P _]. apply andb_true_iff in P as [_ P].
      rewrite dropCR_split.
      * rewrite <- (str_app_nil_r (say c)) at 1. apply TrimSpace_prose; try done. by apply prose_say.
      * intros E. by rewrite E in P.
      * destruct (String.rev (say c)) as [|d r]; [done|]. exists d, r. split; [done|]. intros ->. done.
Qed.

(** The next command of a transcript. *)
Fixpoint next_said (ls : list Line) : option (Command * list Line) :=
  match ls with
  | [] => None
  | Blank _ :: ls => next_said ls
  | Says _ c _ :: ls => Some (c, ls)
  end.

Lemma meanings_next seq ls :
  meanings seq ls = match next_said ls with
                    | None => []
                    | Some (c, ls) => (meant c seq).1 :: meanings (meant c seq).2 ls
                    end.
Proof. induction ls as [|[w|w1 c w2] ls IH]; simpl; [done|done|]. by destruct (meant c seq). Qed.

Lemma next_said_ok ls c ls' :
  Forall (fun l => line_ok l = true) ls -> next_said ls = Some (c, ls') ->
  sayable c = true /\ Forall (fun l => line_ok l = true) ls' /\ (length ls' < length ls)%nat.
Proof.
  induction 1 as [|l ls Hl Hls IH]; simpl; [done|]. destruct l as [w|w1 d w2].
  - intros E. destruct (IH E) as (? & ? & ?). repeat split; [done..|lia].
  - intros [= -> ->]. unfold line_ok in Hl. apply andb_true_iff in Hl as [Hl _].
    apply andb_true_iff in Hl as [Hl _]. apply andb_true_iff in Hl as [_ Hl]. repeat split; [done..|lia].
Qed.

Lemma say_not_empty c : sayable c = true -> String.eqb (say c) "" = false.
Proof.
  intros H. apply prose_say in H. apply String.eqb_neq. intros E. by rewrite E in H.
Qed.

Lemma read_script fuel ls seq :
  Forall (fun l => line_ok l = true) ls -> in_int64 (seq + 1) = true -> (String.length (script ls) < fuel)%nat ->
  read_lines quote fuel (script ls) seq =
  match next_said ls with
  | None => (None, ("", seq))
  | Some (c, ls') => (Some (meant c seq).1, (script ls', (meant c seq).2))
  end.
Proof.
  intros H S. revert fuel. induction H as [|l ls Hl Hls IH]; intros [|fuel] F; simpl in F; try lia; [done|].
  rewrite str_length_app in F. simpl in F. cbn [script read_lines].
  rewrite Scan_line by done. rewrite trimmed_line by done. destruct l as [w|w1 c w2].
  - simpl String.eqb. cbn iota. apply IH. lia.
  - unfold line_ok in Hl. apply andb_true_iff in Hl as [Hl _].
    apply andb_true_iff in Hl as [Hl _]. apply andb_true_iff in Hl as [_ Hl].
    rewrite say_not_empty, parse_say by done. cbn [next_said]. by destruct (meant c seq).
Qed.

Lemma meant_seq c seq : seq <= (meant c seq).2 <= seq + 1.
Proof. destruct c; simpl; lia. Qed.

(** ** The source *)

Variable getenv : string -> string.

(** The goal of the environment, read first. *)
Definition env_goal : list SrcItem :=
  let spec := TrimSpace (getenv "AGENT_BUILDER_GOAL_SPEC") in
  let gid := TrimSpace (getenv "AGENT_BUILDER_GOAL_ID") in
  let id := if String.eqb gid "" then "goal" else gid in
  if String.eqb spec "" then []
  else [SrcMessage (mkMessage MsgNewGoal id (mkTask id (TrimSpace (getenv "AGENT_BUILDER_GOAL_REPO")) spec "") "" "")].

Lemma items_script n ls e i r seq :
  Forall (fun l => line_ok l = true) ls -> 0 <= seq -> seq + Z.of_nat (length ls) < int64_max ->
  (console_items quote getenv n (mkEnvSource true e i r true (Some (script ls)) seq)).1 = take n (meanings seq ls).
Proof.
  revert ls seq. induction n as [|n IH]; intros ls seq H P B; [done|].
  cbn [console_items]. unfold Next, init. cbn [es_inited es_envDone es_stdin es_autoSeq negb].
  rewrite read_script; [|done|apply in_int64_spec; unfold int64_min in *; lia|lia].
  rewrite meanings_next. destruct (next_said ls) as [[c ls']|] eqn:E; [|done].
  destruct (next_said_ok _ _ _ H E) as (_ & H' & L). pose proof (meant_seq c seq).
  unfold set_input. cbn [es_inited es_envSpec es_envID es_envRepo es_envDone].
  specialize (IH ls' (meant c seq).2 H' ltac:(lia) ltac:(lia)).
  destruct (console_items _ _ n _) as [l s']. simpl in *. by rewrite IH.
Qed.

(** What the operator writes is what the control loop reads: the goal of the
    environment, then for every line that is not blank its command. *)
Theorem console_reads_what_is_written ls n :
  Forall (fun l => line_ok l = true) ls -> Z.of_nat (length ls) < int64_max ->
  (console_items quote getenv n (newEnvMessageSource (Some (script ls)))).1 = take n (env_goal ++ meanings 0 ls).
Proof.
  intros H B. unfold env_goal, newEnvMessageSource.
  destruct (String.eqb (TrimSpace (getenv "AGENT_BUILDER_GOAL_SPEC")) "") eqn:E.
  - destruct n as [|n]; [done|]. cbn [app].
    rewrite <- (items_script (S n) ls (TrimSpace (getenv "AGENT_BUILDER_GOAL_SPEC")) (TrimSpace (getenv "AGENT_BUILDER_GOAL_ID"))
      (TrimSpace (getenv "AGENT_BUILDER_GOAL_REPO")) 0 H) by lia.
    cbn [console_items]. unfold Next, init. cbn [es_inited es_envDone es_stdin es_autoSeq]. by rewrite E.
  - destruct n as [|n]; [done|]. cbn [app console_items]. unfold Next, init at 1.
    cbn [es_inited es_envDone es_stdin es_autoSeq es_envID es_envRepo es_envSpec]. rewrite E. simpl orb. cbn [negb].
    unfold set_done. cbn [es_inited es_envDone es_stdin es_autoSeq es_envID es_envRepo es_envSpec].
    pose proof (items_script n ls (TrimSpace (getenv "AGENT_BUILDER_GOAL_SPEC")) (TrimSpace (getenv "AGENT_BUILDER_GOAL_ID"))
      (TrimSpace (getenv "AGENT_BUILDER_GOAL_REPO")) 0 H ltac:(lia) ltac:(lia)) as I.
    destruct (console_items _ _ n _) as [l s']. simpl in *. by rewrite I.
Qed.

(** ** Any input *)

Definition goal_of (i : SrcItem) : option Message :=
  match i with SrcMessage m => if decide (msg_Kind m = MsgNewGoal) then Some m else None | _ => None end.

(** The k-th goal that is read from a line. *)
Definition numbered (k : Z) (m : Message) : Prop :=
  msg_GoalID m = "goal-" +:+ FormatInt k /\ task_ID (msg_Goal m) = msg_GoalID m /\
  nth 0 (Fields (task_Spec (msg_Goal m))) "" ∉ verbs.

(** A line yields a goal with the next number, or no goal. *)
Lemma parse_goal line seq :
  in_int64 (seq + 1) = true ->
  match goal_of (parseMessageLine quote line seq).1 with
  | Some m => numbered (seq + 1) m /\ (parseMessageLine quote line seq).2 = seq + 1
  | None => (parseMessageLine quote line seq).2 = seq
  end.
Proof.
  intros B. unfold parseMessageLine.
  repeat match goal with |- context [if String.eqb ?v ?w then _ else _] => destruct (String.eqb v w) eqn:? end;
    try (repeat match goal with |- context [if ?b then _ else _] => destruct b end; done).
  apply in_int64_spec in B. rewrite wrap64_small by done. cbn. repeat split; [|done..].
  unfold verbs. rewrite !not_elem_of_cons. to_prop. repeat split; try done. apply not_elem_of_nil.
Qed.

Lemma read_goal fuel text seq :
  in_int64 (seq + 1) = true ->
  match (read_lines quote fuel text seq).1 ≫= goal_of with
  | Some m => numbered (seq + 1) m /\ (read_lines quote fuel text seq).2.2 = seq + 1
  | None => (read_lines quote fuel text seq).2.2 = seq
  end.
Proof.
  intros B. revert text. induction fuel as [|fuel IH]; intros text; [done|]. cbn [read_lines].
  destruct (Scan text) as [line rest| |]; [|done|done].
  destruct (String.eqb (TrimSpace line) ""); [apply IH|].
  pose proof (parse_goal (TrimSpace line) seq B) as P.
  by destruct (parseMessageLine quote (TrimSpace line) seq).
Qed.

Fixpoint numbers_from (k : Z) (ms : list Message) : Prop :=
  match ms with [] => True | m :: ms => numbered (k + 1) m /\ numbers_from (k + 1) ms end.

Lemma numbers_ids k ms :
  numbers_from k ms -> map msg_GoalID ms = map (fun j => "goal-" +:+ FormatInt j) (seqZ (k + 1) (Z.of_nat (length ms))).
Proof.
  revert k. induction ms as [|m ms IH]; intros k; [done|]. intros [(E & _ & _) R].
  simpl length. rewrite Nat2Z.inj_succ, seqZ_cons by lia. simpl. rewrite E, (IH _ R). f_equal. f_equal. f_equal; lia.
Qed.

Lemma console_items_length n s : (length (console_items quote getenv n s).1 <= n)%nat.
Proof.
  revert s. induction n as [|n IH]; intros s; simpl; [lia|]. destruct (Next _ _ _) as [[i|] s']; simpl; [|lia].
  specialize (IH s'). destruct (console_items _ _ n s'). simpl in *. lia.
Qed.

Lemma omap_length_le {A B} (f : A -> option B) l : (length (omap f l) <= length l)%nat.
Proof. induction l as [|x l IH]; csimpl; [lia|]. destruct (f x); csimpl; lia. Qed.

Lemma items_numbered n e i r text seq :
  0 <= seq -> seq + Z.of_nat n < int64_max ->
  numbers_from seq (omap goal_of (console_items quote getenv n (mkEnvSource true e i r true (Some text) seq)).1).
Proof.
  revert text seq. induction n as [|n IH]; intros text seq P B; [done|].
  cbn [console_items]. unfold Next, init. cbn [es_inited es_envDone es_stdin es_autoSeq negb].
  pose proof (read_goal (S (String.length text)) text seq) as R.
  destruct (read_lines _ _ _ _) as [[it|] [text' seq']]; [|done]. simpl in R.
  unfold set_input. cbn [es_inited es_envSpec es_envID es_envRepo es_envDone].
  specialize (R ltac:(apply in_int64_spec; unfold int64_min in *; lia)).
  destruct (goal_of it) as [m|] eqn:E.
  - destruct R as [N ->]. specialize (IH text' (seq + 1) ltac:(lia) ltac:(lia)).
    destruct (console_items _ _ n _) as [l s']. simpl in *. by rewrite E.
  - subst seq'. specialize (IH text' seq ltac:(lia) ltac:(lia)).
    destruct (console_items _ _ n _) as [l s']. simpl in *. by rewrite E.
Qed.

Lemma goal_ids_inj : forall j k, 0 <= j -> 0 <= k -> in_int64 j = true -> in_int64 k = true ->
  "goal-" +:+ FormatInt j = "goal-" +:+ FormatInt k -> j = k.
Proof. intros j k _ _ Hj Hk E. apply FormatInt_inj; [done..|]. by injection E. Qed.

(** Whatever stands on standard input: the goals it yields are numbered from one in the
    order of their lines, so no two share an identifier, and a line that begins with a
    verb of the grammar, however malformed, never becomes a goal. *)
Theorem console_goals_are_numbered text n :
  TrimSpace (getenv "AGENT_BUILDER_GOAL_SPEC") = "" -> Z.of_nat n < int64_max - 1 ->
  let goals := omap goal_of (console_items quote getenv n (newEnvMessageSource (Some text))).1 in
  map msg_GoalID goals = map (fun j => "goal-" +:+ FormatInt j) (seqZ 1 (Z.of_nat (length goals))) /\
  NoDup (map msg_GoalID goals) /\
  Forall (fun m => task_ID (msg_Goal m) = msg_GoalID m /\ nth 0 (Fields (task_Spec (msg_Goal m))) "" ∉ verbs) goals.
Proof.
  intros E B goals.
  assert (G : numbers_from 0 goals /\ (length goals <= n)%nat).
  { subst goals. split.
    - destruct n as [|n]; [done|]. unfold newEnvMessageSource. cbn [console_items]. unfold Next, init.
      cbn [es_inited es_envDone es_stdin es_autoSeq]. rewrite E. cbn [String.eqb orb negb].
      pose proof (items_numbered (S n) "" (TrimSpace (getenv "AGENT_BUILDER_GOAL_ID")) (TrimSpace (getenv "AGENT_BUILDER_GOAL_REPO"))
        text 0) as I. apply I; lia.
    - etrans; [apply omap_length_le|apply console_items_length]. }
  destruct G as [N L]. pose proof (numbers_ids 0 goals N) as I. split; [exact I|]. split.
  - rewrite I. apply NoDup_fmap_2_strong; [|apply NoDup_seqZ].
    intros j k Hj Hk. apply elem_of_seqZ in Hj, Hk. unfold int64_max in *.
    apply goal_ids_inj; try lia; apply in_int64_spec; unfold int64_min, int64_max; lia.
  - clear -N. revert N. generalize 0 as k. clearbody goals. revert goals. intros ms. induction ms as [|m ms IH]; intros k N; [constructor|].
    destruct N as [(_ & T & V) N]. constructor; [done|by eapply IH].
Qed.

Definition demo_lines : list Line :=
  [Says "" (CmdGoal "fix the parser") (String (ascii_of_N 13) ""); Blank "   ";
   Says "  " (CmdInfo "goal-1" "use  Menhir") ""; Says "" CmdFleet " "; Says "" (CmdGoal "write docs") ""].
End Transcript.

Lemma console_reads_what_is_written_witness :
  (console_items id (fun _ => "") 9 (newEnvMessageSource (Some (script demo_lines)))).1 =
  [SrcMessage (mkMessage MsgNewGoal "goal-1" (mkTask "goal-1" "" "fix the parser" "") "" "");
   command MsgInfo "goal-1" "use  Menhir" ""; command MsgStatus "" "" "";
   SrcMessage (mkMessage MsgNewGoal "goal-2" (mkTask "goal-2" "" "write docs" "") "" "")].
Proof.
  rewrite (console_reads_what_is_written id (fun _ => "") demo_lines 9); [reflexivity| |by vm_compute].
  repeat constructor; vm_compute; reflexivity.
Defined.

Lemma console_goals_are_numbered_witness :
  map msg_GoalID (omap goal_of (console_items id (fun _ => "") 5
    (newEnvMessageSource (Some ("cancel" +:+ String nl ("one" +:+ String nl "info g" +:+ String nl "two"))))).1) = ["goal-1"; "goal-2"].
Proof.
  rewrite (proj1 (console_goals_are_numbered id (fun _ => "")
    ("cancel" +:+ String nl ("one" +:+ String nl "info g" +:+ String nl "two")) 5 eq_refl ltac:(by vm_compute))).
  vm_compute. reflexivity.
Defined.

(** A goal of the environment may take the number of a later line. *)
Example environment_goal_collides :
  map (fun i => match goal_of i with Some m => msg_GoalID m | None => "" end)
    (console_items id (fun k => if String.eqb k "AGENT_BUILDER_GOAL_SPEC" then "a" else
                                if String.eqb k "AGENT_BUILDER_GOAL_ID" then "goal-1" else "") 3
      (newEnvMessageSource (Some "b"))).1 = ["goal-1"; "goal-1"].
Proof. vm_compute. reflexivity. Qed.
