(* ===== verification/Calendar.v ===== *)
(** * Civil time

    What the sources use of Go's [time] package beyond durations: the proleptic
    Gregorian calendar, the layouts ["2006-01-02"] and [time.RFC3339] in UTC, locations
    and [time.Date], clock readings with a monotonic part, and [Time.Sub]. Instants and
    durations are nanoseconds. *)

From stdpp Require Import base list strings.
From Stdlib Require Import ZArith Lia.
From S2P Require Import Prelude GoStrings.
Open Scope Z_scope.

(** ** Dates *)

Record CivilDate := mkDate { cd_Year : Z; cd_Month : Z; cd_Day : Z }.

(** Days of a 400-year era, counted from 1 March. *)
Definition era_days : Z := 146097.

(** Year of the era, month (from 1) and day of a day of the era. *)
Definition civil_of_doe (doe : Z) : Z * Z * Z :=
  let yoe := (doe - doe / 1460 + doe / 36524 - doe / 146096) / 365 in
  let doy := doe - (365 * yoe + yoe / 4 - yoe / 100) in
  let mp := (5 * doy + 2) / 153 in
  (yoe, if mp <? 10 then mp + 3 else mp - 9, doy - (153 * mp + 2) / 5 + 1).

Definition doe_of_civil (yoe m d : Z) : Z :=
  let doy := (153 * (if 2 <? m then m - 3 else m + 9) + 2) / 5 + d - 1 in
  yoe * 365 + yoe / 4 - yoe / 100 + doy.

(** The date of a day, counted from 1 January 1970. *)
Definition date_of_day (day : Z) : CivilDate :=
  let z := day + 719468 in
  let '(yoe, m, d) := civil_of_doe (z mod era_days) in
  mkDate (yoe + 400 * (z / era_days) + (if m <=? 2 then 1 else 0)) m d.

Definition day_of_date (c : CivilDate) : Z :=
  let y := cd_Year c - (if cd_Month c <=? 2 then 1 else 0) in
  era_days * (y / 400) + doe_of_civil (y mod 400) (cd_Month c) (cd_Day c) - 719468.

(** ** Layouts *)

Fixpoint zeros (n : nat) : string := match n with O => "" | S n => "0" +:+ zeros n end.

(** [appendInt(b, n, width)] for a non-negative number. *)
Definition pad (w : nat) (n : Z) : string :=
  zeros (w - String.length (format_nonneg n)) +:+ format_nonneg n.
Definition append_int (w : nat) (n : Z) : string :=
  if n <? 0 then "-" +:+ pad w (- n) else pad w n.

(** [Format("2006-01-02")]. *)
Definition FormatDate (c : CivilDate) : string :=
  append_int 4 (cd_Year c) +:+ "-" +:+ pad 2 (cd_Month c) +:+ "-" +:+ pad 2 (cd_Day c).

Definition nanos : Z := 1000000000.
Definition day_seconds : Z := 86400.

(** [t.UTC().Format(time.RFC3339)]. *)
Definition FormatRFC3339UTC (t : Z) : string :=
  let s := t / nanos in
  let r := s mod day_seconds in
  FormatDate (date_of_day (s / day_seconds)) +:+ "T" +:+ pad 2 (r / 3600) +:+ ":" +:+ pad 2 (r / 60 mod 60)
    +:+ ":" +:+ pad 2 (r mod 60) +:+ "Z".

(** ** Locations *)

(** [*time.Location]: the offset from UTC, in seconds, in force at a Unix second. *)
Definition Location := Z -> Z.

Definition local_day (loc : Location) (t : Z) : Z := (t / nanos + loc (t / nanos)) / day_seconds.

(** [time.Date(y, m, d, 0, 0, 0, 0, loc)] for the day number of [(y, m, d)]: the zone is
    first looked up as if the clock showed UTC, then at the instant this gives. *)
Definition midnight_of (loc : Location) (day : Z) : Z :=
  let unix := day * day_seconds in
  let offset := loc unix in
  (if offset =? 0 then unix else unix - loc (unix - offset)) * nanos.

(** ** Clock readings *)

(** [time.Now()]: the wall clock and the monotonic clock. *)
Record Now := mkNow { wall : Z; mono : Z }.

(** [t.Sub(u)] of two readings saturates. *)
Definition Sub (t u : Now) : Z := Z.max int64_min (Z.min int64_max (mono t - mono u)).

(** ** Lemmas *)

(** A property of the numbers below [n], by evaluation. *)
Fixpoint check_below (p : Z -> bool) (n : nat) (k : Z) : bool :=
  match n with O => true | S n => p k && check_below p n (k + 1) end.

Lemma check_below_sound p n k j : check_below p n k = true -> k <= j < k + Z.of_nat n -> p j = true.
Proof.
  revert k. induction n as [|n IH]; intros k H B; [lia|]. simpl in H. to_prop.
  destruct (decide (j = k)) as [->|]; [done|]. apply (IH (k + 1)); [done|lia].
Qed.

(** The year of the era found by [civil_of_doe] is the one the day lies in. *)
Lemma yoe_bounds doe :
  0 <= doe < era_days ->
  let yoe := (doe - doe / 1460 + doe / 36524 - doe / 146096) / 365 in
  0 <= yoe < 400 /\ 0 <= doe - (365 * yoe + yoe / 4 - yoe / 100) < 366.
Proof. unfold era_days. intros H. cbv zeta. Z.div_mod_to_equations. lia. Qed.

Definition doy_month (doy : Z) : Z := let mp := (5 * doy + 2) / 153 in if mp <? 10 then mp + 3 else mp - 9.
Definition doy_day (doy : Z) : Z := doy - (153 * ((5 * doy + 2) / 153) + 2) / 5 + 1.

Definition doy_ok (doy : Z) : bool :=
  let m := doy_month doy in let d := doy_day doy in
  ((153 * (if 2 <? m then m - 3 else m + 9) + 2) / 5 + d - 1 =? doy)
  && (1 <=? m) && (m <=? 12) && (1 <=? d) && (d <=? 31).

Lemma doy_all_ok doy : 0 <= doy < 366 -> doy_ok doy = true.
Proof. intros H. apply (check_below_sound doy_ok 366 0); [vm_compute; reflexivity|lia]. Qed.

Definition doe_ok (doe : Z) : bool :=
  let '(yoe, m, d) := civil_of_doe doe in
  (doe_of_civil yoe m d =? doe) && (0 <=? yoe) && (yoe <? 400) && (1 <=? m) && (m <=? 12) && (1 <=? d) && (d <=? 31).

Lemma doe_all_ok doe : 0 <= doe < era_days -> doe_ok doe = true.
Proof.
  intros H. destruct (yoe_bounds doe H) as [Y D]. cbv zeta in Y, D.
  unfold doe_ok, civil_of_doe. set (yoe := (_ - _ / 1460 + _ - _) / 365) in *.
  pose proof (doy_all_ok _ D) as O. unfold doy_ok, doy_month, doy_day in O.
  set (doy := doe - (365 * yoe + yoe / 4 - yoe / 100)) in *. cbv zeta in *. to_prop.
  unfold doe_of_civil. rewrite !andb_true_iff, Z.eqb_eq, !Z.leb_le, Z.ltb_lt.
  repeat split; try done; try lia.
Qed.

Lemma day_of_date_of_day day : day_of_date (date_of_day day) = day.
Proof.
  unfold date_of_day. pose proof (Z.mod_pos_bound (day + 719468) era_days ltac:(done)) as B.
  pose proof (doe_all_ok _ B) as O. unfold doe_ok in O.
  destruct (civil_of_doe ((day + 719468) mod era_days)) as [[yoe m] d]. to_prop.
  unfold day_of_date. cbn [cd_Year cd_Month cd_Day].
  replace (yoe + 400 * ((day + 719468) / era_days) + (if m <=? 2 then 1 else 0) - (if m <=? 2 then 1 else 0))
    with (yoe + (day + 719468) / era_days * 400) by lia.
  rewrite Z_mod_plus_full, Z_div_plus_full, (Z.mod_small yoe), (Z.div_small yoe) by lia.
  pose proof (Z.div_mod (day + 719468) era_days ltac:(done)). lia.
Qed.

Lemma date_of_day_inj d d' : date_of_day d = date_of_day d' -> d = d'.
Proof. intros H. rewrite <- (day_of_date_of_day d), H. apply day_of_date_of_day. Qed.

Lemma date_of_day_bounds d :
  1 <= cd_Month (date_of_day d) <= 12 /\ 1 <= cd_Day (date_of_day d) <= 31.
Proof.
  unfold date_of_day. pose proof (doe_all_ok _ (Z.mod_pos_bound (d + 719468) era_days ltac:(done))) as O.
  unfold doe_ok in O. destruct (civil_of_doe _) as [[yoe m] k]. to_prop. simpl. lia.
Qed.

(** Numbers of a layout read back. *)
Definition pad_ok (w : nat) (n : Z) : bool :=
  bool_decide (parse_digits (pad w n) = Some n) && (String.length (pad w n) =? w)%nat.

Lemma pad2_ok n : 0 <= n < 100 -> pad_ok 2 n = true.
Proof. intros H. apply (check_below_sound (pad_ok 2) 100 0); [vm_compute; reflexivity|lia]. Qed.
Lemma pad4_ok n : 0 <= n < 10000 -> pad_ok 4 n = true.
Proof. intros H. apply (check_below_sound (pad_ok 4) (Z.to_nat 10000) 0); [vm_compute; reflexivity|lia]. Qed.

Lemma app_inj_length (a b s t : string) :
  String.length a = String.length b -> a +:+ s = b +:+ t -> a = b /\ s = t.
Proof.
  revert b. induction a as [|c a IH]; intros [|d b] L E; try done.
  rewrite !str_app_cons in E. injection E as -> E. simpl in L. by destruct (IH b ltac:(lia) E) as [-> ->].
Qed.

Lemma pad_inj_app w m n s t :
  pad_ok w m = true -> pad_ok w n = true -> pad w m +:+ s = pad w n +:+ t -> m = n /\ s = t.
Proof.
  unfold pad_ok. intros Hm Hn E. to_prop.
  apply Nat.eqb_eq in H0, H2. destruct (app_inj_length (pad w m) (pad w n) s t) as [P ->]; [congruence|done|].
  split; [congruence|done].
Qed.

(** Dates of the years 0 to 9999. *)
Definition four_digit (day : Z) : bool := (0 <=? cd_Year (date_of_day day)) && (cd_Year (date_of_day day) <? 10000).

Lemma FormatDate_inj_app d d' s t :
  four_digit d = true -> four_digit d' = true ->
  FormatDate (date_of_day d) +:+ s = FormatDate (date_of_day d') +:+ t -> d = d' /\ s = t.
Proof.
  unfold four_digit. intros H H' E. to_prop.
  pose proof (date_of_day_bounds d). pose proof (date_of_day_bounds d').
  unfold FormatDate, append_int in E.
  rewrite (proj2 (Z.ltb_ge _ 0)) in E by lia. rewrite (proj2 (Z.ltb_ge _ 0)) in E by lia.
  rewrite !str_app_assoc in E.
  apply pad_inj_app in E as [Y E]; [|apply pad4_ok; lia..].
  apply app_inj_length in E as [_ E]; [|done]. apply pad_inj_app in E as [M E]; [|apply pad2_ok; lia..].
  apply app_inj_length in E as [_ E]; [|done]. apply pad_inj_app in E as [D E]; [|apply pad2_ok; lia..].
  split; [|done]. apply date_of_day_inj.
  destruct (date_of_day d), (date_of_day d'). simpl in *. congruence.
Qed.

Lemma FormatDate_inj d d' :
  four_digit d = true -> four_digit d' = true -> FormatDate (date_of_day d) = FormatDate (date_of_day d') -> d = d'.
Proof.
  intros H H' E. apply (FormatDate_inj_app d d' "" ""); try done. by rewrite !str_app_nil_r.
Qed.

(** RFC 3339 keeps an instant to the second. *)
Lemma FormatRFC3339UTC_inj t u :
  four_digit (t / nanos / day_seconds) = true -> four_digit (u / nanos / day_seconds) = true ->
  FormatRFC3339UTC t = FormatRFC3339UTC u -> t / nanos = u / nanos.
Proof.
  unfold FormatRFC3339UTC. intros H H' E. apply FormatDate_inj_app in E as [D E]; [|done..].
  pose proof (Z.mod_pos_bound (t / nanos) day_seconds ltac:(done)) as Bt.
  pose proof (Z.mod_pos_bound (u / nanos) day_seconds ltac:(done)) as Bu.
  pose proof (Z.div_mod (t / nanos) day_seconds ltac:(done)) as Et.
  pose proof (Z.div_mod (u / nanos) day_seconds ltac:(done)) as Eu.
  set (rt := (t / nanos) mod day_seconds) in *. set (ru := (u / nanos) mod day_seconds) in *.
  unfold day_seconds in Bt, Bu.
  pose proof (Z.mod_pos_bound (rt / 60) 60 ltac:(done)). pose proof (Z.mod_pos_bound (ru / 60) 60 ltac:(done)).
  pose proof (Z.mod_pos_bound rt 60 ltac:(done)). pose proof (Z.mod_pos_bound ru 60 ltac:(done)).
  assert (0 <= rt / 3600 < 100) by (split; [apply Z.div_pos; lia|apply Z.div_lt_upper_bound; lia]).
  assert (0 <= ru / 3600 < 100) by (split; [apply Z.div_pos; lia|apply Z.div_lt_upper_bound; lia]).
  apply app_inj_length in E as [_ E]; [|done]. apply pad_inj_app in E as [E1 E]; [|apply pad2_ok; lia..].
  apply app_inj_length in E as [_ E]; [|done]. apply pad_inj_app in E as [E2 E]; [|apply pad2_ok; lia..].
  apply app_inj_length in E as [_ E]; [|done]. apply pad_inj_app in E as [E3 E]; [|apply pad2_ok; lia..].
  assert (rt = ru); [|congruence].
  pose proof (Z.div_mod rt 60 ltac:(done)). pose proof (Z.div_mod ru 60 ltac:(done)).
  pose proof (Z.div_mod (rt / 60) 60 ltac:(done)). pose proof (Z.div_mod (ru / 60) 60 ltac:(done)).
  rewrite !Z.div_div in * by lia. change (60 * 60) with 3600 in *. lia.
Qed.

Example rfc3339_epoch : FormatRFC3339UTC 0 = "1970-01-01T00:00:00Z". Proof. vm_compute. reflexivity. Qed.
Example rfc3339_leap : FormatRFC3339UTC (951825599 * nanos) = "2000-02-29T11:59:59Z". Proof. vm_compute. reflexivity. Qed.
