(* ===== verification/Schedule.v ===== *)
(** * Scheduled goals

    [internal/cli/schedule.go]: the schedule file, the scheduler that fires its entries
    against the clock, and the merged source that feeds fired goals to the control loop
    beside the operator's messages. *)

From stdpp Require Import base list strings.
From Stdlib Require Import ZArith Lia Ascii Sorted.
From S2P Require Import Prelude GoStrings Seams Calendar ControlLoop.
Open Scope Z_scope.

(** ** The schedule file *)

(** [time.Minute], [time.Hour] in nanoseconds. *)
Definition minute : Z := 60 * nanos.
Definition hour : Z := 60 * minute.

Record ScheduleEntry := mkEntry { se_Goal : string; se_Every : Z; se_At : Z; se_IsAt : bool }.

(** One object of the file. *)
Record scheduleFileEntry := mkFileEntry { sf_Goal : string; sf_Every : string; sf_At : string }.

Inductive ScheduleErr :=
| ErrRead (msg : string)
| ErrJSON (msg : string)
| ErrEmptyGoal (i : nat)
| ErrNotExactlyOne (i : nat)
| ErrInvalidEvery (i : nat)
| ErrInvalidAt (i : nat).

(** [parseTimeOfDay]; [strconv.Atoi] is [ParseInt] in base 10. *)
Definition parseTimeOfDay (s : string) : option Z :=
  match Split ":"%char s with
  | [hs; ms] =>
    match ParseInt hs, ParseInt ms with
    | Some h, Some m =>
      if (h <? 0) || (h >? 23) || (m <? 0) || (m >? 59) then None else Some (h * hour + m * minute)
    | _, _ => None
    end
  | _ => None
  end.

Section Parse.
(** [time.ParseDuration], and [json.Unmarshal] into [scheduleFile]. *)
Variables (ParseDuration : string -> option Z) (Unmarshal : string -> result string (list scheduleFileEntry)).

Definition parse_entry (i : nat) (e : scheduleFileEntry) : result ScheduleErr ScheduleEntry :=
  if blank (sf_Goal e) then Err (ErrEmptyGoal i)
  else
    let hasEvery := negb (blank (sf_Every e)) in
    let hasAt := negb (blank (sf_At e)) in
    if Bool.eqb hasEvery hasAt then Err (ErrNotExactlyOne i)
    else if hasEvery then
      match ParseDuration (TrimSpace (sf_Every e)) with
      | Some d => if d <=? 0 then Err (ErrInvalidEvery i) else Ok (mkEntry (sf_Goal e) d 0 false)
      | None => Err (ErrInvalidEvery i)
      end
    else
      match parseTimeOfDay (TrimSpace (sf_At e)) with
      | None => Err (ErrInvalidAt i)
      | Some off => Ok (mkEntry (sf_Goal e) 0 off true)
      end.

Fixpoint parse_entries (i : nat) (es : list scheduleFileEntry) : result ScheduleErr (list ScheduleEntry) :=
  match es with
  | [] => Ok []
  | e :: es =>
    let? x := parse_entry i e in
    let? xs := parse_entries (S i) es in
    Ok (x :: xs)
  end.

(** [ParseScheduleFile] on what [os.ReadFile] returned. *)
Definition ParseScheduleFile (data : result string string) : result ScheduleErr (list ScheduleEntry) :=
  match data with
  | Err e => Err (ErrRead e)
  | Ok text => match Unmarshal text with
               | Err e => Err (ErrJSON e)
               | Ok es => parse_entries 0 es
               end
  end.
End Parse.

(** ** The scheduler *)

(** [Scheduler]; [sc_dispatch] tells whether a dispatch function was given. *)
Record Scheduler := mkScheduler {
  sc_entries : list ScheduleEntry;
  sc_dispatch : bool;
  sc_lastEvery : list Now;
  sc_lastAtDay : list string
}.

(** [NewScheduler]; [now] is what the clock shows. *)
Definition NewScheduler (entries : list ScheduleEntry) (now : Now) (dispatch : bool) : Scheduler :=
  mkScheduler entries dispatch (replicate (length entries) now) (replicate (length entries) "").

(** [fire]: the task handed to the dispatch function. *)
Definition fire (dispatch : bool) (i : nat) (e : ScheduleEntry) (now : Now) : list Task :=
  if dispatch
  then [mkTask ("sched-" +:+ FormatInt (Z.of_nat i) +:+ "-" +:+ FormatRFC3339UTC (wall now)) "" (se_Goal e) ""]
  else [].

Section Clock.
Variable loc : Location.

(** One turn of the loop of [checkEntries]: the tasks fired, and the entry's last fire. *)
Definition check_entry (dispatch : bool) (i : nat) (e : ScheduleEntry) (now last : Now) (lastDay : string)
  : list Task * (Now * string) :=
  if se_IsAt e then
    let today := local_day loc (wall now) in
    let target := midnight_of loc today + se_At e in
    let day := FormatDate (date_of_day today) in
    if negb (wall now <? target) && negb (String.eqb lastDay day)
    then (fire dispatch i e now, (last, day)) else ([], (last, lastDay))
  else if se_Every e <=? Sub now last then (fire dispatch i e now, (now, lastDay)) else ([], (last, lastDay)).

Fixpoint check_from (dispatch : bool) (i : nat) (es : list ScheduleEntry) (now : Now) (lasts : list Now) (days : list string)
  : list Task * (list Now * list string) :=
  match es, lasts, days with
  | e :: es, last :: lasts, day :: days =>
    let '(fired, (last, day)) := check_entry dispatch i e now last day in
    let '(rest, (lasts, days)) := check_from dispatch (S i) es now lasts days in
    (fired ++ rest, (last :: lasts, day :: days))
  | _, _, _ => ([], (lasts, days))
  end.

(** [checkEntries]: the tasks fired, in order, and the scheduler after. *)
Definition checkEntries (now : Now) (s : Scheduler) : list Task * Scheduler :=
  let '(fired, (lasts, days)) := check_from (sc_dispatch s) 0 (sc_entries s) now (sc_lastEvery s) (sc_lastAtDay s) in
  (fired, mkScheduler (sc_entries s) (sc_dispatch s) lasts days).

(** [Run]: one check per tick until the context is done. *)
Fixpoint Run (ticks : list Now) (s : Scheduler) : list (list Task) * Scheduler :=
  match ticks with
  | [] => ([], s)
  | now :: ticks =>
    let '(fired, s) := checkEntries now s in
    let '(rest, s) := Run ticks s in (fired :: rest, s)
  end.

(** One entry alone, over the same ticks. *)
Fixpoint run_entry (dispatch : bool) (i : nat) (e : ScheduleEntry) (ticks : list Now) (last : Now) (day : string) : list (list Task) :=
  match ticks with
  | [] => []
  | now :: ticks =>
    let '(fired, (last, day)) := check_entry dispatch i e now last day in
    fired :: run_entry dispatch i e ticks last day
  end.
End Clock.

(** ** Entries are independent *)

Definition scheduled (i : nat) (e : ScheduleEntry) (now : Now) : Task :=
  mkTask ("sched-" +:+ FormatInt (Z.of_nat i) +:+ "-" +:+ FormatRFC3339UTC (wall now)) "" (se_Goal e) "".

Lemma digits_dash a b s t :
  str_forall is_digit a = true -> str_forall is_digit b = true -> a +:+ "-" +:+ s = b +:+ "-" +:+ t -> a = b /\ s = t.
Proof.
  revert b. induction a as [|c a IH]; intros [|d b] A B E.
  - by injection E.
  - rewrite str_app_cons in E. injection E as <- _. done.
  - rewrite str_app_cons in E. injection E as -> _. done.
  - rewrite !str_app_cons in E. injection E as -> E. simpl in A, B. to_prop. by destruct (IH b) as [-> ->].
Qed.

(** An identifier tells the entry and the second it was fired. *)
Lemma scheduled_id_inj i j e e' now now' :
  in_int64 (Z.of_nat i) = true -> in_int64 (Z.of_nat j) = true ->
  task_ID (scheduled i e now) = task_ID (scheduled j e' now') ->
  i = j /\ FormatRFC3339UTC (wall now) = FormatRFC3339UTC (wall now').
Proof.
  intros Hi Hj E. cbn [scheduled task_ID] in E. apply app_inj_length in E as [_ E]; [|done].
  assert (D : forall k, str_forall is_digit (FormatInt (Z.of_nat k)) = true).
  { intros k. unfold FormatInt. rewrite (proj2 (Z.ltb_ge _ _)) by lia. apply format_nonneg_digits. lia. }
  apply digits_dash in E as [E S]; [|apply D..]. split; [|done].
  apply FormatInt_inj in E; [lia|done..].
Qed.

Section Entries.
Variable loc : Location.

(** What the entries, numbered from [i], fire on their own at tick [k]. *)
Fixpoint alone (i : nat) (es : list ScheduleEntry) (lasts : list Now) (days : list string) (ticks : list Now) (k : nat) : list Task :=
  match es, lasts, days with
  | e :: es, last :: lasts, day :: days =>
    default [] (run_entry loc true i e ticks last day !! k) ++ alone (S i) es lasts days ticks k
  | _, _, _ => []
  end.

Lemma check_from_alone es i now lasts days :
  let '(fired, (lasts', days')) := check_from loc true i es now lasts days in
  forall ticks, fired = alone i es lasts days (now :: ticks) 0 /\
    forall k, alone i es lasts days (now :: ticks) (S k) = alone i es lasts' days' ticks k.
Proof.
  revert i lasts days. induction es as [|e es IH]; intros i [|last lasts] [|day days]; cbn [check_from]; try done.
  specialize (IH (S i) lasts days).
  destruct (check_entry loc true i e now last day) as [fired [last' day']] eqn:E.
  destruct (check_from loc true (S i) es now lasts days) as [rest [lasts' days']].
  intros ticks. destruct (IH ticks) as [-> A]. split; [|intros k]; cbn [alone run_entry]; rewrite E; [done|].
  cbn. by rewrite A.
Qed.

Lemma Run_alone ticks k es lasts days l :
  (Run loc ticks (mkScheduler es true lasts days)).1 !! k = Some l -> l = alone 0 es lasts days ticks k.
Proof.
  revert k lasts days. induction ticks as [|now ticks IH]; intros k lasts days; [done|].
  cbn [Run]. unfold checkEntries. cbn [sc_dispatch sc_entries sc_lastEvery sc_lastAtDay].
  pose proof (check_from_alone es 0 now lasts days) as A.
  destruct (check_from loc true 0 es now lasts days) as [fired [lasts' days']].
  specialize (IH). pose proof (fun k => IH k lasts' days') as IH'.
  destruct (Run loc ticks _) as [rest s']. cbn in *. destruct (A ticks) as [-> A'].
  destruct k as [|k]; cbn; [by intros [= <-]|]. intros E. rewrite A'. by apply IH'.
Qed.

Lemma alone_elem x es i now0 ticks k :
  x ∈ alone i es (replicate (length es) now0) (replicate (length es) "") ticks k <->
  exists j e l, es !! j = Some e /\ run_entry loc true (i + j) e ticks now0 "" !! k = Some l /\ x ∈ l.
Proof.
  revert i. induction es as [|e es IH]; intros i; cbn [alone length replicate].
  { split; [intros H; by apply elem_of_nil in H|]. intros (j & e & l & H & _). done. }
  rewrite elem_of_app, IH. split.
  - intros [H|(j & e' & l & Hj & Hr & Hx)].
    + exists 0%nat, e. rewrite Nat.add_0_r. destruct (run_entry _ _ _ _ _ _ _ !! k) as [l|]; [|by apply elem_of_nil in H].
      by exists l.
    + exists (S j), e', l. by rewrite Nat.add_succ_r.
  - intros ([|j] & e' & l & Hj & Hr & Hx).
    + left. rewrite Nat.add_0_r in Hr. injection Hj as ->. by rewrite Hr.
    + right. exists j, e', l. by rewrite Nat.add_succ_r in Hr.
Qed.

(** An entry fires its own task or nothing. *)
Lemma run_entry_fires i e ticks last day k l :
  run_entry loc true i e ticks last day !! k = Some l ->
  exists now, ticks !! k = Some now /\ (l = [] \/ l = [scheduled i e now]).
Proof.
  revert k last day. induction ticks as [|now ticks IH]; intros k last day; [done|]. cbn [run_entry].
  unfold check_entry, fire, scheduled.
  destruct k as [|k]; repeat case_match; simplify_eq/=; intros; simplify_eq/=; eauto.
Qed.

(** The tasks of the i-th entry among those of a tick. *)
Lemma fired_iff es now0 ticks k l i e now :
  Z.of_nat (length es) < int64_max -> es !! i = Some e -> ticks !! k = Some now ->
  (Run loc ticks (NewScheduler es now0 true)).1 !! k = Some l ->
  (scheduled i e now ∈ l <-> run_entry loc true i e ticks now0 "" !! k = Some [scheduled i e now]).
Proof.
  intros B Hi Hk H. apply Run_alone in H as ->. rewrite alone_elem. split.
  - intros (j & e' & l & Hj & Hr & Hx). simpl in Hr.
    destruct (run_entry_fires _ _ _ _ _ _ _ Hr) as (now' & Hk' & [-> | ->]); [by apply elem_of_nil in Hx|].
    apply list_elem_of_singleton in Hx. apply lookup_lt_Some in Hi as Li. apply lookup_lt_Some in Hj as Lj.
    destruct (scheduled_id_inj i j e e' now now') as [-> _];
      [apply in_int64_spec; unfold int64_min; lia..|by rewrite Hx|]. simplify_eq. by rewrite Hr.
  - intros Hr. exists i, e, [scheduled i e now]. split; [done|]. split; [done|]. by apply list_elem_of_singleton.
Qed.
End Entries.

(** ** Daily goals *)

Section Daily.
Variable loc : Location.

Definition day_of (t : Now) : Z := local_day loc (wall t).

(** The time of day of [e] has come on the local day of [t]. *)
Definition reached (e : ScheduleEntry) (t : Now) : Prop := midnight_of loc (day_of t) + se_At e <= wall t.

(** The local day of the readings never goes back, within four-digit years. *)
Definition days_advance (ticks : list Now) : Prop :=
  StronglySorted Z.le (map day_of ticks) /\ Forall (fun t => four_digit (day_of t) = true) ticks.

Lemma FormatDate_nonempty d : FormatDate (date_of_day d) <> "".
Proof.
  unfold FormatDate. intros E. apply (f_equal String.length) in E. rewrite !str_length_app in E. simpl in E. lia.
Qed.

Lemma day_name_inj t u :
  four_digit (day_of t) = true -> four_digit (day_of u) = true ->
  FormatDate (date_of_day (day_of t)) = FormatDate (date_of_day (day_of u)) <-> day_of t = day_of u.
Proof. intros Ht Hu. split; [by apply FormatDate_inj|by intros ->]. Qed.

(** The day recorded for an entry is not after the ticks to come. *)
Definition recorded (day : string) (ticks : list Now) : Prop :=
  day = "" \/ exists t, day = FormatDate (date_of_day (day_of t)) /\ four_digit (day_of t) = true /\
                  Forall (fun u => day_of t <= day_of u) ticks.

Lemma recorded_not_later day h now ticks :
  recorded day (h :: ticks) -> now ∈ ticks -> four_digit (day_of now) = true -> day_of h < day_of now ->
  day <> FormatDate (date_of_day (day_of now)).
Proof.
  intros [-> |(t & -> & Ft & Lt)] Hn F L E; [by eapply FormatDate_nonempty|].
  apply day_name_inj in E; [|done..]. inversion_clear Lt. lia.
Qed.

Lemma check_daily i e now last day :
  se_IsAt e = true ->
  (reached e now /\ day <> FormatDate (date_of_day (day_of now)) /\
   check_entry loc true i e now last day = ([scheduled i e now], (last, FormatDate (date_of_day (day_of now))))) \/
  (~ (reached e now /\ day <> FormatDate (date_of_day (day_of now))) /\
   check_entry loc true i e now last day = ([], (last, day))).
Proof.
  intros A. unfold check_entry, reached. rewrite A. fold (day_of now).
  destruct (wall now <? _) eqn:R; to_prop; [right; split; [lia|done]|].
  destruct (String.eqb day _) eqn:D; to_prop; [right; split; [by intros [_ ?]|done]|by left].
Qed.

Lemma run_daily i e ticks last day k now :
  se_IsAt e = true -> days_advance ticks -> recorded day ticks -> ticks !! k = Some now ->
  run_entry loc true i e ticks last day !! k = Some [scheduled i e now] <->
  reached e now /\ day <> FormatDate (date_of_day (day_of now)) /\
  forall j t, (j < k)%nat -> ticks !! j = Some t -> day_of t = day_of now -> ~ reached e t.
Proof.
  intros A. revert day k. induction ticks as [|h ticks IH]; intros day k [S F] R H; [done|].
  inversion_clear S as [|? ? S' Sh]. inversion_clear F as [|? ? Fh F']. cbn [run_entry].
  rewrite List.Forall_map in Sh.
  destruct (check_daily i e h last day A) as [(Rh & Nh & ->)|(N & ->)]; (destruct k as [|k]; cbn in H |- *; [simplify_eq|]).
  - split; [|done]. intros _. repeat split; [done..|lia].
  - assert (four_digit (day_of now) = true /\ day_of h <= day_of now /\ now ∈ ticks) as (Fn & Ln & In).
    { apply list_elem_of_lookup_2 in H. rewrite Forall_forall in F'. rewrite Forall_forall in Sh.
      split_and!; [by apply F'|by apply (Sh now)|done]. }
    rewrite IH; [|done| |done].
    2: { right. exists h. repeat split; done. }
    split; intros (X & Y & Z); (split; [done|split]).
    + apply (recorded_not_later day h now ticks); try done.
      assert (day_of h <> day_of now) by (intros E; apply Y; by rewrite E). lia.
    + intros [|j] t Lj Hj Et; cbn in Hj; simplify_eq; [exfalso; apply Y; by rewrite Et|]. apply (Z j); [lia|done..].
    + intros E. apply day_name_inj in E; [|done..]. by apply (Z 0%nat h ltac:(lia)).
    + intros j t Lj Hj. apply (Z (S j)); [lia|done].
  - split; [done|]. intros (X & Y & _). by destruct N.
  - rewrite IH; [|done| |done].
    2: { destruct R as [-> |(t & -> & Ft & Lt)]; [by left|]. right. exists t. repeat split; [done..|]. by inversion_clear Lt. }
    split; intros (X & Y & Z); (split; [done|split; [done|]]).
    + intros [|j] t Lj Hj Et; cbn in Hj; simplify_eq; [|apply (Z j); [lia|done..]].
      intros Q. apply N. split; [done|]. by rewrite Et.
    + intros j t Lj Hj. apply (Z (S j)); [lia|done].
Qed.

(** A daily goal is fired at the first tick of a day at or after its time, and at no
    other tick of that day. *)
Theorem daily_goal_fires_once_a_day es now0 ticks k l i e now :
  Z.of_nat (length es) < int64_max -> es !! i = Some e -> se_IsAt e = true -> days_advance ticks ->
  ticks !! k = Some now -> (Run loc ticks (NewScheduler es now0 true)).1 !! k = Some l ->
  (scheduled i e now ∈ l <->
   reached e now /\ forall j t, (j < k)%nat -> ticks !! j = Some t -> day_of t = day_of now -> ~ reached e t).
Proof.
  intros B Hi A D Hk H. rewrite (fired_iff _ _ _ _ _ _ _ _ _ B Hi Hk H).
  rewrite run_daily; [|done|done|by left|done].
  split; [by intros (? & _ & ?)|]. intros [? ?]. repeat split; try done.
  intros E. symmetry in E. by apply FormatDate_nonempty in E.
Qed.
End Daily.

(** ** Interval goals *)

Section Interval.
Variable loc : Location.

Definition monotonic (ticks : list Now) : Prop := StronglySorted (fun t u => mono t <= mono u) ticks.

Lemma Sub_mono t u v : mono u <= mono v -> Sub t v <= Sub t u.
Proof. unfold Sub, int64_min, int64_max. lia. Qed.

Lemma check_interval i e now last day :
  se_IsAt e = false ->
  check_entry loc true i e now last day =
  if se_Every e <=? Sub now last then ([scheduled i e now], (now, day)) else ([], (last, day)).
Proof. intros A. unfold check_entry. rewrite A. done. Qed.

(** Entry [e] fires at tick [k] of a run whose firings are [F]. *)
Definition fires (F : list (list Task)) (i : nat) (e : ScheduleEntry) (t : Now) (k : nat) : Prop :=
  F !! k = Some [scheduled i e t].

Lemma run_interval i e ticks last day k now :
  se_IsAt e = false -> monotonic ticks -> Forall (fun t => mono last <= mono t) ticks -> ticks !! k = Some now ->
  let F := run_entry loc true i e ticks last day in
  (fires F i e now k ->
   se_Every e <= Sub now last /\
   forall j t, (j < k)%nat -> ticks !! j = Some t -> fires F i e t j -> se_Every e <= Sub now t) /\
  (~ fires F i e now k ->
   exists prev, (prev = last \/ exists j, (j < k)%nat /\ ticks !! j = Some prev /\ fires F i e prev j) /\
                Sub now prev < se_Every e).
Proof.
  intros A. cbv zeta. unfold fires. revert last k. induction ticks as [|h ticks IH]; intros last k S L H; [done|].
  inversion_clear S as [|? ? S' Sh]. inversion_clear L as [|? ? Lh L'].
  cbn [run_entry]. rewrite check_interval by done.
  destruct (se_Every e <=? Sub h last) eqn:E; to_prop; (destruct k as [|k]; cbn in H |- *; [simplify_eq|]).
  - split; [|done]. intros _. split; [done|]. lia.
  - destruct (IH h k S' Sh H) as [Y N]. clear IH. split.
    + intros X. destruct (Y X) as [P Q]. pose proof (Sub_mono now last h Lh). split; [lia|].
      intros [|j] t Lj Hj Fj; cbn in Hj, Fj; simplify_eq; [lia|]. apply (Q j); [lia|done..].
    + intros X. destruct (N X) as (prev & P & Q). exists prev. split; [|done]. right.
      destruct P as [-> |(j & Lj & Hj & Fj)]; [by exists 0%nat; repeat split; [lia|..]|].
      exists (S j). repeat split; [lia|done..].
  - split; [done|]. intros _. exists last. split; [by left|lia].
  - destruct (IH last k S' L' H) as [Y N]. clear IH. split.
    + intros X. destruct (Y X) as [P Q]. split; [done|].
      intros [|j] t Lj Hj Fj; cbn in Hj, Fj; [done|]. apply (Q j); [lia|done..].
    + intros X. destruct (N X) as (prev & P & Q). exists prev. split; [|done].
      destruct P as [-> |(j & Lj & Hj & Fj)]; [by left|]. right. exists (S j). repeat split; [lia|done..].
Qed.

(** An interval goal is never early: a firing is at least the interval after the
    construction of the scheduler and after every earlier firing. It is never late: a
    tick that does not fire it is less than the interval after one of them. *)
Theorem interval_goal_keeps_its_interval es now0 ticks k l i e now :
  Z.of_nat (length es) < int64_max -> es !! i = Some e -> se_IsAt e = false -> monotonic (now0 :: ticks) ->
  ticks !! k = Some now ->
  let R := (Run loc ticks (NewScheduler es now0 true)).1 in
  let fired t j := exists l, R !! j = Some l /\ scheduled i e t ∈ l in
  R !! k = Some l ->
  (scheduled i e now ∈ l ->
   se_Every e <= Sub now now0 /\
   forall j t, (j < k)%nat -> ticks !! j = Some t -> fired t j -> se_Every e <= Sub now t) /\
  (scheduled i e now ∉ l ->
   exists prev, (prev = now0 \/ exists j, (j < k)%nat /\ ticks !! j = Some prev /\ fired prev j) /\
                Sub now prev < se_Every e).
Proof.
  intros B Hi A M Hk R fired HR. inversion_clear M as [|? ? M' Mh].
  pose proof (run_interval i e ticks now0 "" k now A M' Mh Hk) as [Y N]. unfold fires in *.
  assert (Q : forall j t, (j < k)%nat -> ticks !! j = Some t ->
    fired t j <-> run_entry loc true i e ticks now0 "" !! j = Some [scheduled i e t]).
  { intros j t Lj Hj. subst fired R. cbv beta. apply lookup_lt_Some in HR.
    destruct (lookup_lt_is_Some_2 (Run loc ticks (NewScheduler es now0 true)).1 j ltac:(lia)) as [l' Hl'].
    rewrite <- (fired_iff loc es now0 ticks j l' i e t B Hi Hj Hl'). split; [|by exists l'].
    intros (l'' & E & ?). by simplify_eq. }
  rewrite (fired_iff loc es now0 ticks k l i e now B Hi Hk HR). split.
  - intros X. destruct (Y X) as [P T]. split; [done|]. intros j t Lj Hj F. apply (T j t Lj Hj). by apply Q.
  - intros X. destruct (N X) as (prev & P & T). exists prev. split; [|done].
    destruct P as [-> |(j & Lj & Hj & F)]; [by left|]. right. exists j. repeat split; [done..|]. by apply Q.
Qed.
End Interval.

(** ** Identifiers *)

Lemma sorted_lookup {A} (R : A -> A -> Prop) l j k x y :
  StronglySorted R l -> l !! j = Some x -> l !! k = Some y -> (j < k)%nat -> R x y.
Proof.
  intros S. revert j k. induction S as [|h l S IH H]; intros [|j] [|k] Hj Hk L; cbn in Hj, Hk; try lia; try done.
  - simplify_eq. rewrite Forall_forall in H. by eapply H, list_elem_of_lookup_2.
  - apply (IH j k Hj Hk). lia.
Qed.

Section Identifiers.
Variable loc : Location.

Definition seconds_advance (ticks : list Now) : Prop :=
  StronglySorted (fun t u => wall t / nanos < wall u / nanos) ticks /\
  Forall (fun t => four_digit (wall t / nanos / day_seconds) = true) ticks.

Lemma alone_tasks i es lasts days ticks k now x :
  ticks !! k = Some now -> x ∈ alone loc i es lasts days ticks k ->
  exists j e, es !! j = Some e /\ x = scheduled (i + j) e now.
Proof.
  intros H. revert i lasts days. induction es as [|e es IH]; intros i [|last lasts] [|day days]; cbn [alone];
    try (intros X; by apply elem_of_nil in X).
  rewrite elem_of_app. intros [X|X].
  - destruct (run_entry _ _ _ _ _ _ _ !! k) as [l|] eqn:E; [|by apply elem_of_nil in X].
    destruct (run_entry_fires _ _ _ _ _ _ _ _ E) as (now' & H' & [-> | ->]); [by apply elem_of_nil in X|].
    cbn in X. apply list_elem_of_singleton in X. simplify_eq. exists 0%nat, e. by rewrite Nat.add_0_r.
  - destruct (IH (S i) lasts days X) as (j & e' & Hj & ->). exists (S j), e'. by rewrite Nat.add_succ_r.
Qed.

Lemma alone_nodup i es lasts days ticks k now :
  ticks !! k = Some now -> Z.of_nat i + Z.of_nat (length es) < int64_max ->
  NoDup (map task_ID (alone loc i es lasts days ticks k)).
Proof.
  intros H. revert i lasts days. induction es as [|e es IH]; intros i [|last lasts] [|day days] B; cbn [alone];
    try by constructor.
  rewrite map_app. apply NoDup_app. split; [|split].
  - destruct (run_entry _ _ _ _ _ _ _ !! k) as [l|] eqn:E; [|constructor].
    destruct (run_entry_fires _ _ _ _ _ _ _ _ E) as (now' & H' & [-> | ->]); cbn; [constructor|apply NoDup_singleton].
  - intros id X Y. simpl in B.
    destruct (run_entry _ _ _ _ _ _ _ !! k) as [l|] eqn:E; [|by apply elem_of_nil in X].
    destruct (run_entry_fires _ _ _ _ _ _ _ _ E) as (now' & H' & [-> | ->]); [by apply elem_of_nil in X|].
    cbn in X. apply list_elem_of_singleton in X. apply list_elem_of_In, in_map_iff in Y as (y & Ey & Y).
    apply list_elem_of_In, (alone_tasks (S i) es lasts days ticks k now y H) in Y as (j & e' & Hj & ->).
    apply lookup_lt_Some in Hj. subst id.
    destruct (scheduled_id_inj (S i + j) i e' e now now') as [? _];
      [apply in_int64_spec; unfold int64_min; lia..|done|lia].
  - simpl in B. apply IH. lia.
Qed.

Lemma Run_length ticks s : length (Run loc ticks s).1 = length ticks.
Proof.
  revert s. induction ticks as [|now ticks IH]; intros s; [done|]. cbn [Run].
  destruct (checkEntries loc now s) as [fired s']. specialize (IH s'). destruct (Run loc ticks s'). cbn in *. by rewrite IH.
Qed.

Lemma concat_nodup (ls : list (list Task)) :
  (forall k l, ls !! k = Some l -> NoDup (map task_ID l)) ->
  (forall j k l m x y, (j < k)%nat -> ls !! j = Some l -> ls !! k = Some m -> x ∈ l -> y ∈ m -> task_ID x <> task_ID y) ->
  NoDup (map task_ID (concat ls)).
Proof.
  induction ls as [|l ls IH]; intros E D; [constructor|]. cbn [concat]. rewrite map_app. apply NoDup_app. split; [|split].
  - by apply (E 0%nat).
  - intros id X Y. apply list_elem_of_In, in_map_iff in X as (x & <- & X). apply list_elem_of_In, in_map_iff in Y as (y & Ey & Y).
    apply in_concat in Y as (m & M & Y). apply list_elem_of_In, list_elem_of_lookup_1 in M as [k M].
    apply (D 0%nat (S k) l m x y ltac:(lia) eq_refl M); [by apply list_elem_of_In..|done].
  - apply IH; [intros k; apply (E (S k))|]. intros j k l' m' x y L. apply (D (S j) (S k)). lia.
Qed.

(** No two goals a scheduler fires have the same identifier, as long as its ticks are in
    different seconds. *)
Theorem scheduled_goals_never_collide es now0 ticks :
  Z.of_nat (length es) < int64_max -> seconds_advance ticks ->
  NoDup (map task_ID (concat (Run loc ticks (NewScheduler es now0 true)).1)).
Proof.
  intros B [S F]. apply concat_nodup.
  - intros k l H. pose proof (lookup_lt_Some _ _ _ H) as Hk. rewrite Run_length in Hk.
    destruct (lookup_lt_is_Some_2 ticks k Hk) as [now Hn].
    apply Run_alone in H as ->. by apply (alone_nodup 0 es _ _ ticks k now).
  - intros j k l m x y L Hl Hm X Y E.
    assert (exists t u, ticks !! j = Some t /\ ticks !! k = Some u) as (t & u & Ht & Hu).
    { pose proof (lookup_lt_Some _ _ _ Hl) as Lj. pose proof (lookup_lt_Some _ _ _ Hm) as Lk. rewrite Run_length in Lj, Lk.
      destruct (lookup_lt_is_Some_2 ticks j Lj) as [t ?]. destruct (lookup_lt_is_Some_2 ticks k Lk) as [u ?]. by exists t, u. }
    apply Run_alone in Hl as ->. apply Run_alone in Hm as ->.
    apply (alone_tasks 0 es _ _ ticks j t x Ht) in X as (a & ea & La & ->).
    apply (alone_tasks 0 es _ _ ticks k u y Hu) in Y as (b & eb & Lb & ->).
    apply lookup_lt_Some in La, Lb.
    apply scheduled_id_inj in E as [_ E]; [|apply in_int64_spec; unfold int64_min; simpl; lia..].
    rewrite Forall_forall in F. apply FormatRFC3339UTC_inj in E; [|by eapply F, list_elem_of_lookup_2..].
    pose proof (sorted_lookup _ _ _ _ _ _ S Ht Hu L) as Q. cbv beta in Q. lia.
Qed.
End Identifiers.

(** ** The file *)

Section File.
Variables (ParseDuration : string -> option Z) (Unmarshal : string -> result string (list scheduleFileEntry)).

(** A file entry that is an entry of a schedule: a goal, and either a positive interval
    or a time between 00:00 and 23:59. *)
Definition entry_means (f : scheduleFileEntry) (e : ScheduleEntry) : Prop :=
  se_Goal e = sf_Goal f /\ blank (sf_Goal f) = false /\
  if se_IsAt e then
    blank (sf_Every f) = true /\ blank (sf_At f) = false /\ se_Every e = 0 /\
    exists hs ms h m, Split ":"%char (TrimSpace (sf_At f)) = [hs; ms] /\ ParseInt hs = Some h /\ ParseInt ms = Some m /\
      0 <= h <= 23 /\ 0 <= m <= 59 /\ se_At e = h * hour + m * minute
  else
    blank (sf_Every f) = false /\ blank (sf_At f) = true /\ se_At e = 0 /\
    ParseDuration (TrimSpace (sf_Every f)) = Some (se_Every e) /\ 0 < se_Every e.

Definition err_index (err : ScheduleErr) : option nat :=
  match err with
  | ErrRead _ | ErrJSON _ => None
  | ErrEmptyGoal i | ErrNotExactlyOne i | ErrInvalidEvery i | ErrInvalidAt i => Some i
  end.

Lemma parseTimeOfDay_spec s off :
  parseTimeOfDay s = Some off <->
  exists hs ms h m, Split ":"%char s = [hs; ms] /\ ParseInt hs = Some h /\ ParseInt ms = Some m /\
    0 <= h <= 23 /\ 0 <= m <= 59 /\ off = h * hour + m * minute.
Proof.
  unfold parseTimeOfDay. split.
  - destruct (Split _ s) as [|hs [|ms [|? ?]]]; try done.
    destruct (ParseInt hs) as [h|] eqn:Eh, (ParseInt ms) as [m|] eqn:Em; try done.
    destruct (_ || _ || _ || _) eqn:C; [done|]. to_prop. intros [= <-]. exists hs, ms, h, m. repeat split; try done; lia.
  - intros (hs & ms & h & m & -> & -> & -> & Bh & Bm & ->).
    destruct (_ || _ || _ || _) eqn:C; [|done]. rewrite !orb_true_iff in C. lia.
Qed.

Lemma parse_entry_spec i f e : parse_entry ParseDuration i f = Ok e <-> entry_means f e.
Proof.
  unfold parse_entry, entry_means. destruct e as [g ev off at']. cbn.
  destruct (blank (sf_Goal f)) eqn:G; [split; [done|by intros (_ & ? & _)]|].
  destruct (blank (sf_Every f)) eqn:V, (blank (sf_At f)) eqn:T; cbn;
    try (split; [done|]; destruct at'; intros (_ & _ & X & Y & _); congruence).
  - destruct (parseTimeOfDay _) as [o|] eqn:P.
    + pose proof P as P'. apply parseTimeOfDay_spec in P'. split.
      * intros [= <- <- <- <-]. by repeat (split; [done|]).
      * intros (-> & _ & H). destruct at'; [|by destruct H]. destruct H as (_ & _ & -> & H).
        apply parseTimeOfDay_spec in H. by simplify_eq.
    + split; [done|]. intros (_ & _ & H). destruct at'; [|by destruct H]. destruct H as (_ & _ & _ & H).
      apply parseTimeOfDay_spec in H. by simplify_eq.
  - destruct (ParseDuration _) as [d|] eqn:P; [|split; [done|]; destruct at'; [by intros (_ & _ & ? & _)|by intros (_ & _ & _ & _ & _ & ? & _)]].
    destruct (d <=? 0) eqn:D; to_prop; split; try done.
    + intros (_ & _ & H). destruct at'; [by destruct H|]. destruct H as (_ & _ & _ & [= ->] & ?). lia.
    + intros [= <- <- <- <-]. repeat split; done.
    + intros (-> & _ & H). destruct at'; [by destruct H|]. destruct H as (_ & _ & -> & [= ->] & ?). done.
Qed.

Lemma parse_entry_err i f err : parse_entry ParseDuration i f = Err err -> err_index err = Some i /\ forall e, ~ entry_means f e.
Proof.
  intros H. split; [|intros e E; by rewrite (proj2 (parse_entry_spec i f e) E) in H].
  unfold parse_entry in H. repeat case_match; by simplify_eq.
Qed.

Lemma parse_entries_spec i fs :
  match parse_entries ParseDuration i fs with
  | Ok es => Forall2 entry_means fs es
  | Err err => exists k f, err_index err = Some (i + k)%nat /\ fs !! k = Some f /\ (forall e, ~ entry_means f e) /\
                 forall j g, (j < k)%nat -> fs !! j = Some g -> exists e, entry_means g e
  end.
Proof.
  revert i. induction fs as [|f fs IH]; intros i; cbn [parse_entries]; [constructor|].
  destruct (parse_entry ParseDuration i f) as [e|err] eqn:E; cbn.
  - apply parse_entry_spec in E. specialize (IH (S i)). destruct (parse_entries _ (S i) fs) as [es|err]; cbn.
    + by constructor.
    + destruct IH as (k & g & X & K & N & P). exists (S k), g. rewrite Nat.add_succ_r. repeat split; try done.
      intros [|j] h L Hj; cbn in Hj; [simplify_eq; by exists e|]. apply (P j); [lia|done].
  - destruct (parse_entry_err _ _ _ E) as [X Y]. exists 0%nat, f. rewrite Nat.add_0_r. repeat split; try done. lia.
Qed.

(** A schedule file is accepted exactly when every entry is well formed, and then gives
    its entries in order; otherwise the error names the first entry that is not. *)
Theorem schedule_is_parsed_entrywise text fs :
  Unmarshal text = Ok fs ->
  match ParseScheduleFile ParseDuration Unmarshal (Ok text) with
  | Ok es => Forall2 entry_means fs es
  | Err err => exists k f, err_index err = Some k /\ fs !! k = Some f /\ (forall e, ~ entry_means f e) /\
                 forall j g, (j < k)%nat -> fs !! j = Some g -> exists e, entry_means g e
  end.
Proof. intros E. unfold ParseScheduleFile. rewrite E. apply (parse_entries_spec 0 fs). Qed.
End File.

(** ** Witnesses *)

Definition demo_schedule : list ScheduleEntry :=
  [mkEntry "nightly audit" 0 (2 * hour + 30 * minute) true; mkEntry "sweep" (90 * minute) 0 false].
(** A clock that shows [h] hours and [m] minutes after 1 May 2026, one hour east of UTC. *)
Definition demo_now (h m : Z) : Now := mkNow (1777593600 * nanos + h * hour + m * minute) (h * hour + m * minute).
Definition demo_loc : Location := fun _ => 3600.
Definition demo_ticks : list Now := [demo_now 0 30; demo_now 1 30; demo_now 2 30; demo_now 3 0; demo_now 25 31].

Ltac demo_sorted := repeat (constructor; [|repeat constructor; vm_compute; congruence]); constructor.

Lemma daily_goal_fires_once_a_day_witness :
  (forall t, In t [0; 2; 3]%nat -> exists l now, demo_ticks !! t = Some now /\
     (Run demo_loc demo_ticks (NewScheduler demo_schedule (demo_now 0 0) true)).1 !! t = Some l /\
     scheduled 0 (mkEntry "nightly audit" 0 (2 * hour + 30 * minute) true) now ∉ l) /\
  scheduled 0 (mkEntry "nightly audit" 0 (2 * hour + 30 * minute) true) (demo_now 1 30) ∈
    [scheduled 0 (mkEntry "nightly audit" 0 (2 * hour + 30 * minute) true) (demo_now 1 30);
     scheduled 1 (mkEntry "sweep" (90 * minute) 0 false) (demo_now 1 30)].
Proof.
  split.
  - intros t [<-|[<-|[<-|[]]]]; (eexists; eexists; split; [reflexivity|split; [vm_compute; reflexivity|]]);
      intros H; revert H; apply (bool_decide_unpack _); vm_compute; exact I.
  - refine (proj2 (daily_goal_fires_once_a_day demo_loc demo_schedule (demo_now 0 0) demo_ticks 1 _ 0 _ _
      ltac:(vm_compute; reflexivity) eq_refl eq_refl _ eq_refl ltac:(vm_compute; reflexivity)) _).
    + split; [demo_sorted|repeat constructor].
    + split; [vm_compute; congruence|]. intros [|j] u L Hu _; [|lia]. injection Hu as <-. vm_compute. congruence.
Defined.

Lemma interval_goal_keeps_its_interval_witness :
  let R := (Run demo_loc demo_ticks (NewScheduler demo_schedule (demo_now 0 0) true)).1 in
  R !! 2%nat = Some [] /\
  exists prev, (prev = demo_now 0 0 \/ exists j, (j < 2)%nat /\ demo_ticks !! j = Some prev /\
    exists l, R !! j = Some l /\ scheduled 1 (mkEntry "sweep" (90 * minute) 0 false) prev ∈ l) /\
    Sub (demo_now 2 30) prev < 90 * minute.
Proof.
  split; [vm_compute; reflexivity|].
  refine (proj2 (interval_goal_keeps_its_interval demo_loc demo_schedule (demo_now 0 0) demo_ticks 2 [] 1
    (mkEntry "sweep" (90 * minute) 0 false) (demo_now 2 30) ltac:(vm_compute; reflexivity) eq_refl eq_refl _ eq_refl
    ltac:(vm_compute; reflexivity)) _); [demo_sorted|by intros H; apply elem_of_nil in H].
Defined.

Lemma scheduled_goals_never_collide_witness :
  NoDup (map task_ID (concat (Run demo_loc demo_ticks (NewScheduler demo_schedule (demo_now 0 0) true)).1)) /\
  map task_ID (concat (Run demo_loc demo_ticks (NewScheduler demo_schedule (demo_now 0 0) true)).1) =
    ["sched-0-2026-05-01T01:30:00Z"; "sched-1-2026-05-01T01:30:00Z"; "sched-1-2026-05-01T03:00:00Z";
     "sched-0-2026-05-02T01:31:00Z"; "sched-1-2026-05-02T01:31:00Z"].
Proof.
  split; [|vm_compute; reflexivity].
  apply scheduled_goals_never_collide; [vm_compute; reflexivity|]. split; [demo_sorted|repeat constructor].
Defined.

Lemma schedule_is_parsed_entrywise_witness :
  ParseScheduleFile (fun _ => None) (fun _ => Ok [mkFileEntry "a" "" "23:59"; mkFileEntry "b" "" "24:00"]) (Ok "")
    = Err (ErrInvalidAt 1) /\
  exists k f, err_index (ErrInvalidAt 1) = Some k /\ [mkFileEntry "a" "" "23:59"; mkFileEntry "b" "" "24:00"] !! k = Some f /\
    (forall e, ~ entry_means (fun _ => None) f e) /\
    forall j g, (j < k)%nat -> [mkFileEntry "a" "" "23:59"; mkFileEntry "b" "" "24:00"] !! j = Some g ->
      exists e, entry_means (fun _ => None) g e.
Proof.
  split; [vm_compute; reflexivity|].
  exact (schedule_is_parsed_entrywise (fun _ => None) (fun _ => Ok [mkFileEntry "a" "" "23:59"; mkFileEntry "b" "" "24:00"]) ""
    [mkFileEntry "a" "" "23:59"; mkFileEntry "b" "" "24:00"] eq_refl).
Defined.
