(* ===== verification/MergedSource.v ===== *)
(** * The merged message source

    The second half of [internal/cli/schedule.go]: [mergedMessageSource], which puts the
    goals of the scheduler beside the messages of the daemon's own source, with the
    goroutine that reads that source, its one-place channel and the sixteen-place channel
    of fired goals made in [internal/cli/daemon.go]. *)

From stdpp Require Import base list strings.
From Stdlib Require Import ZArith Lia Ascii.
From S2P Require Import Prelude GoStrings Seams ControlLoop Console.
Open Scope nat_scope.

(** The capacity [runDaemonWith] gives the channel of fired goals. *)
Definition schedBuffer : nat := 16.

(** [supervisor.Message{Kind: MsgNewGoal, GoalID: t.ID, Goal: t}]. *)
Definition goal_message (t : Task) : Message := mkMessage MsgNewGoal (task_ID t) t "" "".

Section Merged.
(** The primary source: [None] is its end. *)
Context {P : Type} (primary_Next : P -> option SrcItem * P).

(** [mergedMessageSource] and its goroutine: [mg_reader] is false once it returned,
    [mg_held] is the result it waits to send. [mg_pending] are the goals the scheduler has
    fired but not yet put on the channel. [mg_log] is ghost: what [Next] returned, with
    the channel it came from. *)
Inductive Origin := FromScheduler | FromPrimary.

Record Merged := mkMerged {
  mg_primary : P;
  mg_started : bool;
  mg_reader : bool;
  mg_held : option (option SrcItem);
  mg_primCh : option (option SrcItem);
  mg_sched : list Message;
  mg_pending : list Task;
  mg_cancelled : bool;
  mg_log : list (Origin * option SrcItem);
  mg_ended : nat
}.

Definition newMergedMessageSource (p : P) (fired : list Task) : Merged :=
  mkMerged p false false None None [] fired false [] 0.

(** The reader returns after a result that is not a message. *)
Definition stops (r : option SrcItem) : bool := match r with Some (SrcMessage _) => false | _ => true end.

(** What can happen next: the goroutine reads or sends, the scheduler sends or gives up,
    the context ends, and the three arms of the [select] of [Next]. *)
Inductive Turn := TRead | TSend | TFire | TDrop | TCancel | TNext | TNextDone | TNextSched | TNextPrimary.

Definition mstep (t : Turn) (m : Merged) : option Merged :=
  let '(mkMerged p st rd held ch sched pend canc log ended) := m in
  match t with
  | TRead =>
    match rd, held with
    | true, None => let '(r, p) := primary_Next p in Some (mkMerged p st rd (Some r) ch sched pend canc log ended)
    | _, _ => None
    end
  | TSend =>
    match held, ch with
    | Some r, None => Some (mkMerged p st (rd && negb (stops r)) None (Some r) sched pend canc log ended)
    | _, _ => None
    end
  | TFire =>
    match pend with
    | t :: pend => if length sched <? schedBuffer
                   then Some (mkMerged p st rd held ch (sched ++ [goal_message t]) pend canc log ended) else None
    | [] => None
    end
  | TDrop => match pend with
             | _ :: pend => if canc then Some (mkMerged p st rd held ch sched pend canc log ended) else None
             | [] => None
             end
  | TCancel => Some (mkMerged p st rd held ch sched pend true log ended)
  | TNext => if st then None else Some (mkMerged p true true held ch sched pend canc log ended)
  | TNextDone => if st && canc then Some (mkMerged p st rd held ch sched pend canc log (S ended)) else None
  | TNextSched =>
    match st, sched with
    | true, m :: sched => Some (mkMerged p st rd held ch sched pend canc (log ++ [(FromScheduler, Some (SrcMessage m))]) ended)
    | _, _ => None
    end
  | TNextPrimary =>
    match st, ch with
    | true, Some r => Some (mkMerged p st rd held None sched pend canc (log ++ [(FromPrimary, r)]) ended)
    | _, _ => None
    end
  end.

(** A turn that is not enabled changes nothing. *)
Definition mrun (ts : list Turn) (m : Merged) : Merged :=
  fold_left (fun m t => default m (mstep t m)) ts m.

(** ** What the reader reads *)

Fixpoint reader_results (n : nat) (p : P) : list (option SrcItem) :=
  match n with
  | O => []
  | S n => let '(r, p) := primary_Next p in r :: if stops r then [] else reader_results n p
  end.

Definition from (o : Origin) (log : list (Origin * option SrcItem)) : list (option SrcItem) :=
  omap (fun x => match x.1, o with FromScheduler, FromScheduler | FromPrimary, FromPrimary => Some x.2 | _, _ => None end) log.

Lemma from_app o l1 l2 : from o (l1 ++ l2) = from o l1 ++ from o l2.
Proof. apply omap_app. Qed.

Lemma from_scheduler_snoc l x :
  from FromPrimary (l ++ [(FromScheduler, x)]) = from FromPrimary l /\
  from FromScheduler (l ++ [(FromScheduler, x)]) = from FromScheduler l ++ [x].
Proof. rewrite !from_app. split; [apply app_nil_r|done]. Qed.

Lemma from_primary_snoc l x :
  from FromScheduler (l ++ [(FromPrimary, x)]) = from FromScheduler l /\
  from FromPrimary (l ++ [(FromPrimary, x)]) = from FromPrimary l ++ [x].
Proof. rewrite !from_app. split; [apply app_nil_r|done]. Qed.

(** What the goroutine has read, in flight and taken. *)
Definition read_so_far (m : Merged) : list (option SrcItem) :=
  from FromPrimary (mg_log m) ++ option_list (mg_primCh m) ++ option_list (mg_held m).

(** The source after [n] reads. *)
Fixpoint primary_after (n : nat) (p : P) : P :=
  match n with O => p | S n => primary_after n (primary_Next p).2 end.

Lemma primary_after_succ n p : primary_after (S n) p = (primary_Next (primary_after n p)).2.
Proof. revert p. induction n as [|n IH]; intros p; [done|]. apply (IH (primary_Next p).2). Qed.

(** As long as every result is a message, one more read adds one result. *)
Lemma reader_results_snoc n p :
  (forall r, r ∈ reader_results n p -> stops r = false) ->
  length (reader_results n p) = n /\
  reader_results (S n) p = reader_results n p ++ [(primary_Next (primary_after n p)).1].
Proof.
  revert p. induction n as [|n IH]; intros p H.
  - cbn. destruct (primary_Next p) as [r p']. cbn. by destruct (stops r).
  - cbn [reader_results primary_after] in H |- *. destruct (primary_Next p) as [r p'] eqn:E.
    assert (S : stops r = false) by (apply H; destruct (stops r); left).
    rewrite S in H |- *. destruct (IH p') as [A B]; [intros x Hx; apply H; by right|].
    split; [by cbn; f_equal|]. cbn [reader_results] in B. by rewrite B.
Qed.

Definition goals_of (ts : list Task) : list (option SrcItem) := map (fun t => Some (SrcMessage (goal_message t))) ts.

(** The goals taken, on the channel and still to be sent. *)
Definition goals_so_far (m : Merged) : list (option SrcItem) :=
  from FromScheduler (mg_log m) ++ map (fun x => Some (SrcMessage x)) (mg_sched m) ++ goals_of (mg_pending m).

Record merged_ok (p0 : P) (fired : list Task) (m : Merged) : Prop := {
  mo_read : exists n, read_so_far m = reader_results n p0 /\ mg_primary m = primary_after n p0;
  mo_alive : mg_reader m = true -> forall r, r ∈ from FromPrimary (mg_log m) ++ option_list (mg_primCh m) -> stops r = false;
  mo_held : mg_reader m = false -> mg_held m = None;
  mo_goals : goals_so_far m `sublist_of` goals_of fired;
  mo_all_goals : mg_cancelled m = false -> goals_so_far m = goals_of fired;
  mo_bound : length (mg_sched m) <= schedBuffer;
  mo_ended : 0 < mg_ended m -> mg_cancelled m = true;
  mo_idle : mg_started m = false -> mg_log m = [] /\ mg_primCh m = None /\ mg_held m = None /\ mg_reader m = false
}.

Lemma ok_start p fired : merged_ok p fired (newMergedMessageSource p fired).
Proof. constructor; cbn; try done; [by exists 0|unfold schedBuffer; lia|lia]. Qed.

Ltac fields := cbn [mg_primary mg_started mg_reader mg_held mg_primCh mg_sched mg_pending mg_cancelled mg_log mg_ended].

Lemma ok_step p0 fired t m m' : merged_ok p0 fired m -> mstep t m = Some m' -> merged_ok p0 fired m'.
Proof.
  intros [R A H G AG B E I] S. destruct m as [p st rd held ch sched pend canc log ended].
  unfold read_so_far, goals_so_far in *. cbn [mg_primary mg_started mg_reader mg_held mg_primCh mg_sched mg_pending mg_cancelled mg_log mg_ended] in *.
  destruct t; cbn [mstep] in S.
  - (* read *) destruct rd; [|done]. destruct held; [done|]. destruct (primary_Next p) as [r p'] eqn:N. injection S as <-.
    constructor; unfold read_so_far, goals_so_far; fields; try done.
    + destruct R as (n & R & ->). rewrite app_nil_r in R. exists (Datatypes.S n).
      destruct (reader_results_snoc n p0) as [_ X]; [rewrite <- R; by apply A|].
      rewrite X, <- R, N, <- app_assoc. split; [done|]. by rewrite primary_after_succ, N.
    + intros F. by destruct (I F) as (_ & _ & _ & ?).
  - (* send *) destruct held as [r|]; [|done]. destruct ch; [done|]. injection S as <-.
    constructor; unfold read_so_far, goals_so_far; fields; try done.
    + intros [-> X]%andb_true_iff. apply negb_true_iff in X. intros r'. change (option_list (Some r)) with [r]. rewrite elem_of_app, list_elem_of_singleton.
      intros [F| ->]; [|done]. apply A; [done|]. apply elem_of_app. by left.
    + intros F. by destruct (I F) as (_ & _ & ? & _).
  - (* fire *) destruct pend as [|t pend]; [done|]. destruct (length sched <? schedBuffer) eqn:L; [|done]. injection S as <-.
    apply Nat.ltb_lt in L. constructor; unfold read_so_far, goals_so_far; fields; try done.
    + rewrite map_app, <- app_assoc. exact G.
    + rewrite map_app, <- app_assoc. exact AG.
    + rewrite length_app. cbn. lia.
  - (* drop *) destruct pend as [|t pend]; [done|]. destruct canc; [|done]. injection S as <-.
    constructor; unfold read_so_far, goals_so_far; fields; try done.
    etrans; [|exact G]. apply sublist_app; [done|]. apply sublist_app; [done|]. by constructor.
  - (* cancel *) injection S as <-. constructor; done.
  - (* first call *) destruct st; [done|]. injection S as <-. destruct (I eq_refl) as (-> & -> & -> & ->).
    constructor; try done. intros _ r X. by apply elem_of_nil in X.
  - (* done *) destruct (st && canc) eqn:C; [|done]. apply andb_true_iff in C as [-> ->]. injection S as <-. constructor; done.
  - (* scheduled goal *) destruct st; [|done]. destruct sched as [|x sched]; [done|]. injection S as <-.
    destruct (from_scheduler_snoc log (Some (SrcMessage x))) as [E1 E2].
    constructor; unfold read_so_far, goals_so_far; fields; rewrite ?E1, ?E2, <- ?app_assoc; try done. cbn in B. lia.
  - (* operator's message *) destruct st; [|done]. destruct ch as [r|]; [|done]. injection S as <-.
    destruct (from_primary_snoc log r) as [E1 E2].
    constructor; unfold read_so_far, goals_so_far; fields; rewrite ?E1, ?E2, <- ?app_assoc; try done.
Qed.

Lemma ok_run p0 fired ts m : merged_ok p0 fired m -> merged_ok p0 fired (mrun ts m).
Proof.
  unfold mrun. revert m. induction ts as [|t ts IH]; intros m H; [done|]. cbn. apply IH.
  destruct (mstep t m) as [m'|] eqn:E; [by eapply ok_step|done].
Qed.

(** C22. What the control loop reads from the merged source is an interleaving of
    two streams. The goals are the scheduler's, in order, and none is lost or
    repeated before the context ends; of the operator's source it is what its own
    [Next] returns, in order, up to and including the first result that is not a
    message. *)
Theorem merged_source_keeps_both_streams p fired ts :
  let m := mrun ts (newMergedMessageSource p fired) in
  (exists n, from FromPrimary (mg_log m) `prefix_of` reader_results n p) /\
  from FromScheduler (mg_log m) `sublist_of` goals_of fired /\
  (mg_cancelled m = false -> from FromScheduler (mg_log m) `prefix_of` goals_of fired /\ mg_ended m = 0) /\
  length (mg_sched m) <= schedBuffer.
Proof.
  intros m. destruct (ok_run p fired ts _ (ok_start p fired)) as [[n [R _]] _ _ G AG B E _]. fold m in R, G, AG, B, E.
  unfold read_so_far, goals_so_far in *. split; [|split; [|split]].
  - exists n. rewrite <- R. by eexists.
  - etrans; [|exact G]. by apply sublist_inserts_r.
  - intros C. rewrite C in E. split; [rewrite <- (AG C); by eexists|]. destruct (mg_ended m); [done|]. specialize (E ltac:(lia)). done.
  - done.
Qed.
End Merged.

(** ** With the line console *)

Definition demo_input : string := "confirm" +:+ String nl "cancel g".

(** A line that is not a command is the last thing the merged source reads of the
    console: the goroutine returns, and the command on the next line is never read,
    although the control loop goes on. *)
Lemma merged_source_keeps_both_streams_witness :
  (exists n, from FromPrimary (mg_log (mrun (Console.Next id (fun _ => "")) [TNext; TRead; TSend; TNextPrimary; TRead; TSend; TNextPrimary]
       (newMergedMessageSource (newEnvMessageSource (Some demo_input)) []))) `prefix_of`
     reader_results (Console.Next id (fun _ => "")) n (newEnvMessageSource (Some demo_input))) /\
  (forall n, exists e, (reader_results (Console.Next id (fun _ => "")) (S n) (newEnvMessageSource (Some demo_input))) = [Some (SrcMalformed e)]).
Proof.
  split.
  - exact (proj1 (merged_source_keeps_both_streams (Console.Next id (fun _ => "")) (newEnvMessageSource (Some demo_input)) []
      [TNext; TRead; TSend; TNextPrimary; TRead; TSend; TNextPrimary])).
  - intros n. eexists. cbn [reader_results].
    destruct (Console.Next id (fun _ => "") (newEnvMessageSource (Some demo_input))) as [r p] eqn:E.
    vm_compute in E. injection E as <- <-. reflexivity.
Defined.
