(* ===== verification/PlanScope.v ===== *)
(** * The plan-scoped policy client

    The policy side of [internal/cli/orchestrate.go]: the deployment base of allowed
    resources, the effective allow set of a plan, and [planScopedPolicy], the policy
    client of the orchestrate path, which owns the policy engine's daemon and restarts it
    for each plan. [Dispatch] and [Orchestrator] call it through the policy and scoper
    seams. *)

From stdpp Require Import base gmap list strings.
From Stdlib Require Import ZArith Lia Ascii.
From S2P Require Import Prelude GoStrings Seams Loop Policy Containment RunStore Planner Fleet Dispatch.

(** [parseAllowBase]. *)
Definition parseAllowBase (raw : string) : list string :=
  List.filter (fun p => negb (String.eqb p "")) (map TrimSpace (Split ","%char raw)).

(** [effectiveAllow]. *)
Definition effectiveAllow (plan : Plan) (base : list string) : list string :=
  match base with
  | [] => AllowedResources plan
  | _ => List.filter (fun r => bool_decide (r ∈ base)) (AllowedResources plan)
  end.

(** [denyAllPolicy]. *)
Definition denyAll (req : DecideRequest) : DecideResponse := denied.

(** The NUL byte, which joins the set a daemon serves to its key. *)
Definition nul : ascii := ascii_of_N 0.

Section Scope.
(** The processes behind the socket: starting the engine's daemon with an allow list,
    stopping it and asking the socket. They are outside the sources. *)
Context {X H : Type}.
Variables (newDaemon : list string -> X -> result string H * X) (Stop : H -> X -> option string * X)
          (Ask : DecideRequest -> X -> DecideResponse * X).

(** [planScopedPolicy]; [sc_client] is whether the client is set. *)
Record Scope := mkScope { sc_daemon : option H; sc_client : bool; sc_lastSet : string }.

Definition no_scope : Scope := mkScope None false "".

Variable base : list string.

(** [ConfigureForPlan]. *)
Definition ConfigureForPlan (plan : Plan) (s : Scope) (x : X) : (option string * Scope) * X :=
  let allow := effectiveAllow plan base in
  let key := Join (String nul "") allow in
  match sc_daemon s with
  | Some d =>
    if sc_client s && String.eqb key (sc_lastSet s) then ((None, s), x)
    else
      let '(_, x) := Stop d x in
      match newDaemon allow x with
      | (Err e, x) => ((Some ("orchestrate: start policy daemon: " +:+ e), mkScope None false (sc_lastSet s)), x)
      | (Ok d, x) => ((None, mkScope (Some d) true key), x)
      end
  | None =>
    match newDaemon allow x with
    | (Err e, x) => ((Some ("orchestrate: start policy daemon: " +:+ e), s), x)
    | (Ok d, x) => ((None, mkScope (Some d) true key), x)
    end
  end.

(** [stop]. *)
Definition stop (s : Scope) (x : X) : Scope * X :=
  match sc_daemon s with
  | None => (s, x)
  | Some d => let '(_, x) := Stop d x in (mkScope None false (sc_lastSet s), x)
  end.

(** [Decide] takes the client under the lock and asks after it, so that another goal may
    configure its plan in between: [DecideTake] and [DecideAsk]. *)
Definition DecideTake (s : Scope) : bool := sc_client s.
Definition DecideAsk (client : bool) (req : DecideRequest) (x : X) : DecideResponse * X :=
  if client then Ask req x else (denied, x).

(** What goals do with the client they share. A goal, named by a number, takes the
    client and asks with it later. *)
Inductive ScopeOp :=
| OpConfigure (plan : Plan)
| OpTake (goal : nat)
| OpAsk (goal : nat) (req : DecideRequest)
| OpStop.

Inductive ScopeEvent :=
| EvConfigured (plan : Plan) (err : option string)
| EvDecided (req : DecideRequest) (d : PolicyDecision)
| EvStopped.

Record ScopeRun := mkScopeRun { sr_scope : Scope; sr_x : X; sr_taken : gmap nat bool; sr_log : list ScopeEvent }.

Definition scope_start (x : X) : ScopeRun := mkScopeRun no_scope x ∅ [].

Definition scope_step (op : ScopeOp) (r : ScopeRun) : ScopeRun :=
  let '(mkScopeRun s x taken log) := r in
  match op with
  | OpConfigure plan =>
    let '((err, s), x) := ConfigureForPlan plan s x in mkScopeRun s x taken (log ++ [EvConfigured plan err])
  | OpTake g => mkScopeRun s x (<[g := DecideTake s]> taken) log
  | OpAsk g req =>
    match taken !! g with
    | Some client => let '(resp, x) := DecideAsk client req x in
                     mkScopeRun s x (delete g taken) (log ++ [EvDecided req (dp_Decision resp)])
    | None => r
    end
  | OpStop => let '(s, x) := stop s x in mkScopeRun s x taken (log ++ [EvStopped])
  end.

Definition scope_run (ops : list ScopeOp) (r : ScopeRun) : ScopeRun := fold_left (fun r op => scope_step op r) ops r.
End Scope.

(** ** The effective set *)

Lemma add_resource_elem r l id : r ∈ add_resource l id <-> r ∈ l \/ (r = id /\ id <> "").
Proof.
  unfold add_resource. destruct (String.eqb id "") eqn:E; to_prop; [naive_solver|].
  destruct (bool_decide (id ∈ l)) eqn:M; to_prop; [naive_solver|].
  rewrite elem_of_app, list_elem_of_singleton. naive_solver.
Qed.

Lemma add_resource_nodup l id : NoDup l -> NoDup (add_resource l id).
Proof.
  unfold add_resource. intros N. destruct (String.eqb id ""); [done|].
  destruct (bool_decide (id ∈ l)) eqn:M; to_prop; [done|].
  apply NoDup_app. split; [done|]. split; [|apply NoDup_singleton].
  intros x Hx Hy. apply list_elem_of_singleton in Hy. by subst.
Qed.

Lemma add_resources_elem {A} (f : A -> string) r xs l :
  r ∈ foldl (fun acc x => add_resource acc (f x)) l xs <-> r ∈ l \/ (r <> "" /\ exists x, x ∈ xs /\ r = f x).
Proof.
  revert l. induction xs as [|x xs IH]; intros l; simpl.
  { split; [by left|]. intros [?|(_ & y & Hy & _)]; [done|]. by apply elem_of_nil in Hy. }
  rewrite IH, add_resource_elem. split.
  - intros [[?|[-> ?]]|(N & y & Hy & ->)]; [by left|right|right]; (split; [done|]).
    + exists x. split; [by left|done].
    + exists y. split; [by right|done].
  - intros [?|(N & y & Hy & ->)]; [by left; left|]. apply elem_of_cons in Hy as [->|Hy]; [left; right; done|].
    right. split; [done|]. by exists y.
Qed.

Lemma add_resources_nodup {A} (f : A -> string) xs l :
  NoDup l -> NoDup (foldl (fun acc x => add_resource acc (f x)) l xs).
Proof. revert l. induction xs as [|x xs IH]; intros l N; simpl; [done|]. by apply IH, add_resource_nodup. Qed.

(** The resources a plan declares. *)
Definition declares (plan : Plan) (r : string) : Prop :=
  r <> "" /\ (r = pl_GoalID plan \/ exists s, s ∈ pl_SubGoals plan /\ (r = sg_RecipeName s \/ r = task_ID (sg_Task s))).

Lemma AllowedResources_elem plan r : r ∈ AllowedResources plan <-> declares plan r.
Proof.
  unfold AllowedResources, declares. rewrite !add_resources_elem, add_resource_elem. split.
  - intros [[[H|[-> ?]]|(N & s & Hs & ->)]|(N & s & Hs & ->)]; [by apply elem_of_nil in H|..].
    + split; [done|]. by left.
    + split; [done|]. right. exists s. naive_solver.
    + split; [done|]. right. exists s. naive_solver.
  - intros (N & [-> |(s & Hs & [-> | ->])]).
    + left. left. right. done.
    + left. right. split; [done|]. by exists s.
    + right. split; [done|]. by exists s.
Qed.

(** *** Keys *)

Definition nul_free (s : string) : bool := str_forall (fun c => negb (Ascii.eqb c nul)) s.

Lemma nul_split a b s t :
  nul_free a = true -> nul_free b = true -> a +:+ String nul s = b +:+ String nul t -> a = b /\ s = t.
Proof.
  unfold nul_free. revert b. induction a as [|c a IH]; intros [|d b] A B E.
  - by injection E.
  - rewrite str_app_cons in E. injection E as <- _. done.
  - rewrite str_app_cons in E. injection E as -> _. done.
  - rewrite !str_app_cons in E. injection E as -> E. cbn [str_forall] in A, B.
    apply andb_true_iff in A as [_ A]. apply andb_true_iff in B as [_ B]. by destruct (IH b A B E) as [-> ->].
Qed.

Lemma nul_not_in a s t : nul_free a = true -> a <> s +:+ String nul t.
Proof.
  unfold nul_free. revert a. induction s as [|c s IH]; intros [|d a] A E; try done.
  - injection E as -> _. done.
  - rewrite str_app_cons in E. injection E as -> E. cbn [str_forall] in A. apply andb_true_iff in A as [_ A]. by apply (IH a).
Qed.

(** The key of a set tells the set. *)
Lemma key_inj l m :
  Forall (fun s => s <> "" /\ nul_free s = true) l -> Forall (fun s => s <> "" /\ nul_free s = true) m ->
  Join (String nul "") l = Join (String nul "") m -> l = m.
Proof.
  intros Hl. revert m. induction Hl as [|a l [Na Fa] Hl IH]; intros m Hm E.
  - destruct Hm as [|b m [Nb Fb] Hm]; [done|]. cbn in E. destruct m; [done|]. by destruct b.
  - destruct Hm as [|b m [Nb Fb] Hm].
    { cbn in E. destruct l; [done|]. by destruct a. }
    cbn [Join] in E. destruct l as [|a' l], m as [|b' m].
    + by subst.
    + by apply nul_not_in in E.
    + symmetry in E. by apply nul_not_in in E.
    + apply nul_split in E as [-> E]; [|done..]. f_equal. by apply IH.
Qed.

Lemma effectiveAllow_elem plan base r :
  r ∈ effectiveAllow plan base <-> declares plan r /\ (base = [] \/ r ∈ base).
Proof.
  unfold effectiveAllow. destruct base as [|b base]; [rewrite AllowedResources_elem; naive_solver|].
  rewrite <- AllowedResources_elem, !list_elem_of_In, filter_In, bool_decide_eq_true, list_elem_of_In. naive_solver.
Qed.

(** ** Decisions *)

Section Decisions.
Context {X H : Type}.
Variables (newDaemon : list string -> X -> result string H * X) (Stop : H -> X -> option string * X)
          (Ask : DecideRequest -> X -> DecideResponse * X).
Variable base : list string.

(** What the sources rely on of the engine: the set the process behind the socket serves
    is the one it was started with, until it is stopped or replaced, and it allows only
    a resource of that set. *)
Record honest_engine (serves : X -> option (list string)) : Prop := {
  he_start allow x d x' : newDaemon allow x = (Ok d, x') -> serves x' = Some allow;
  he_start_fails allow x e x' : newDaemon allow x = (Err e, x') -> serves x' = None \/ serves x' = serves x;
  he_stop d x : serves (Stop d x).2 = None \/ serves (Stop d x).2 = serves x;
  he_ask req x : serves (Ask req x).2 = serves x;
  he_allow req x : dp_Decision (Ask req x).1 = PolicyAllow -> exists allow, serves x = Some allow /\ dr_ResourceID req ∈ allow
}.

Definition configured (e : ScopeEvent) : option Plan :=
  match e with EvConfigured p None => Some p | _ => None end.
(** The plan configured last. *)
Definition latest (log : list ScopeEvent) : option Plan := last (omap configured log).

Definition plain_plan (plan : Plan) : Prop := forall r, declares plan r -> nul_free r = true.

Definition op_plain (op : ScopeOp) : Prop := match op with OpConfigure p => plain_plan p | _ => True end.

(** Every allowed decision of a log is within the plan configured last before it. *)
Definition log_ok (log : list ScopeEvent) : Prop :=
  forall pre req post, log = pre ++ EvDecided req PolicyAllow :: post ->
    exists plan, latest pre = Some plan /\ declares plan (dr_ResourceID req) /\ (base = [] \/ dr_ResourceID req ∈ base).

Record scope_ok (serves : X -> option (list string)) (r : ScopeRun (X := X) (H := H)) : Prop := {
  so_log : log_ok (sr_log r);
  so_daemon : sc_client (sr_scope r) = true -> sc_daemon (sr_scope r) <> None;
  so_none : latest (sr_log r) = None -> sc_client (sr_scope r) = false /\ forall g, sr_taken r !! g <> Some true;
  so_latest plan : latest (sr_log r) = Some plan ->
    plain_plan plan /\
    (serves (sr_x r) = None \/ serves (sr_x r) = Some (effectiveAllow plan base)) /\
    (sc_client (sr_scope r) = true -> sc_lastSet (sr_scope r) = Join (String nul "") (effectiveAllow plan base))
}.

Lemma latest_snoc log e : latest (log ++ [e]) = match configured e with Some p => Some p | None => latest log end.
Proof.
  unfold latest. rewrite omap_app. cbn. destruct (configured e); [by rewrite last_snoc|by rewrite app_nil_r].
Qed.

Lemma log_ok_snoc log e :
  log_ok log ->
  (forall req, e = EvDecided req PolicyAllow ->
     exists plan, latest log = Some plan /\ declares plan (dr_ResourceID req) /\ (base = [] \/ dr_ResourceID req ∈ base)) ->
  log_ok (log ++ [e]).
Proof.
  intros L E pre req post. destruct post as [|e' post _] using rev_ind; intros Q.
  - apply app_inj_tail in Q as [-> ->]. by apply E.
  - rewrite app_comm_cons, app_assoc in Q. apply app_inj_tail in Q as [-> _]. by apply (L pre req post).
Qed.

Lemma plain_keys plan : plain_plan plan -> Forall (fun s => s <> "" /\ nul_free s = true) (effectiveAllow plan base).
Proof.
  intros P. apply Forall_forall. intros r Hr. apply effectiveAllow_elem in Hr as [D _].
  split; [apply D|by apply P].
Qed.

Lemma ok_configure serves plan r :
  honest_engine serves -> plain_plan plan -> scope_ok serves r ->
  scope_ok serves (scope_step newDaemon Stop Ask base (OpConfigure plan) r).
Proof.
  intros E P [L D N La]. destruct r as [s x taken log]. cbn [sr_scope sr_x sr_taken sr_log] in *.
  cbn [scope_step]. unfold ConfigureForPlan.
  assert (F : forall err, log_ok (log ++ [EvConfigured plan err])) by (intros; by apply log_ok_snoc).
  (* a start that fails leaves no client *)
  assert (Fail : forall x' e ls d, serves x' = None \/ serves x' = serves x ->
    scope_ok serves (mkScopeRun (mkScope (H := H) d false ls) x' taken (log ++ [EvConfigured plan (Some e)]))).
  { intros x' e ls d Sx. constructor; cbn [sr_scope sr_x sr_taken sr_log sc_client sc_daemon sc_lastSet]; [done|done|..].
    - rewrite latest_snoc. cbn. intros Q. destruct (N Q) as [_ T]. done.
    - intros p. rewrite latest_snoc. cbn. intros Q. destruct (La p Q) as (Pp & Sv & _).
      split; [done|]. split; [|done]. destruct Sx as [->| ->]; [by left|done]. }
  assert (Good : forall x' d, serves x' = Some (effectiveAllow plan base) ->
    scope_ok serves (mkScopeRun (mkScope (Some d) true (Join (String nul "") (effectiveAllow plan base))) x' taken (log ++ [EvConfigured plan None]))).
  { intros x' d Sx. constructor; cbn [sr_scope sr_x sr_taken sr_log sc_client sc_daemon sc_lastSet]; [done|done|..].
    - rewrite latest_snoc. done.
    - intros p. rewrite latest_snoc. cbn. intros [= <-]. split; [done|]. split; [by right|done]. }
  destruct s as [[d|] c ls]; cbn [sc_daemon sc_client sc_lastSet] in *.
  - destruct (c && String.eqb _ ls) eqn:K.
    + apply andb_true_iff in K as [-> K]. apply String.eqb_eq in K. subst ls.
      constructor; cbn [sr_scope sr_x sr_taken sr_log sc_client sc_daemon sc_lastSet]; [done|done|by rewrite latest_snoc|].
      intros p. rewrite latest_snoc. cbn. intros [= <-]. split; [done|]. split; [|done].
      destruct (latest log) as [q|] eqn:Q; [|by destruct (N eq_refl)].
      destruct (La q eq_refl) as (Pq & Sv & K). specialize (K eq_refl).
      apply key_inj in K; [|by apply plain_keys..]. by rewrite K.
    + destruct (Stop d x) as [e x1] eqn:S1. pose proof (he_stop _ E d x) as H1. rewrite S1 in H1. cbn in H1.
      destruct (newDaemon _ x1) as [[d'|e'] x2] eqn:S2.
      * apply Good. by apply (he_start _ E _ _ _ _ S2).
      * apply Fail. destruct (he_start_fails _ E _ _ _ _ S2) as [->| ->]; [by left|done].
  - destruct (newDaemon _ x) as [[d'|e'] x2] eqn:S2.
    + apply Good. by apply (he_start _ E _ _ _ _ S2).
    + destruct c; [by destruct (D eq_refl)|]. apply Fail. apply (he_start_fails _ E _ _ _ _ S2).
Qed.

Lemma ok_scope_step serves op r :
  honest_engine serves -> op_plain op -> scope_ok serves r -> scope_ok serves (scope_step newDaemon Stop Ask base op r).
Proof.
  intros E P O. destruct op as [plan|g|g req|]; [by apply ok_configure|..];
    destruct O as [L D N La]; destruct r as [s x taken log]; cbn [sr_scope sr_x sr_taken sr_log scope_step] in *.
  - constructor; cbn [sr_scope sr_x sr_taken sr_log]; try done.
    intros Q. destruct (N Q) as [C T]. split; [done|]. intros g'. unfold DecideTake. rewrite C.
    destruct (decide (g' = g)) as [->|Ng]; [by rewrite lookup_insert_eq|]. rewrite lookup_insert_ne by done. apply T.
  - destruct (taken !! g) as [c|] eqn:G; [|by constructor].
    unfold DecideAsk. destruct c.
    + destruct (Ask req x) as [resp x'] eqn:A. pose proof (he_ask _ E req x) as Ax. rewrite A in Ax. cbn in Ax.
      constructor; cbn [sr_scope sr_x sr_taken sr_log]; try done.
      * apply log_ok_snoc; [done|]. intros req' [= <- Al].
        destruct (latest log) as [p|] eqn:Q; [|by destruct (N eq_refl) as [_ T]; destruct (T g)].
        destruct (he_allow _ E req x) as (allow & Sv & Mem); [by rewrite A|].
        destruct (La p eq_refl) as (_ & [S0|S0] & _); [congruence|]. exists p. split; [done|].
        apply effectiveAllow_elem. congruence.
      * rewrite latest_snoc. intros Q. destruct (N Q) as [C T]. by destruct (T g).
      * intros p. rewrite latest_snoc. cbn. rewrite Ax. apply La.
    + constructor; cbn [sr_scope sr_x sr_taken sr_log]; try done.
      * apply log_ok_snoc; [done|]. intros req' [=].
      * rewrite latest_snoc. intros Q. destruct (N Q) as [C T]. split; [done|]. intros g'.
        destruct (decide (g' = g)) as [->|Ng]; [by rewrite lookup_delete_eq|]. rewrite lookup_delete_ne by done. apply T.
      * intros p. rewrite latest_snoc. apply La.
  - unfold stop. destruct s as [[d|] c ls]; cbn [sc_daemon sc_client sc_lastSet] in *.
    + destruct (Stop d x) as [e x1] eqn:S1. pose proof (he_stop _ E d x) as H1. rewrite S1 in H1. cbn in H1.
      constructor; cbn [sr_scope sr_x sr_taken sr_log sc_daemon sc_client]; try done.
      * by apply log_ok_snoc.
      * rewrite latest_snoc. intros Q. by destruct (N Q).
      * intros p. rewrite latest_snoc. cbn. intros Q. destruct (La p Q) as (Pp & Sv & _). split; [done|]. split; [|done].
        destruct H1 as [->| ->]; [by left|done].
    + constructor; cbn [sr_scope sr_x sr_taken sr_log sc_daemon sc_client]; try done; [by apply log_ok_snoc|..];
        intros *; rewrite latest_snoc; [apply N|apply La].
Qed.

(** C23. However the goals of an orchestrator interleave their configurations and
    decisions, a decision allows a resource only if the plan configured last
    declares it and the deployment base, when there is one, names it; before any
    plan is configured every decision denies. *)
Theorem policy_allows_only_the_configured_plan serves ops x pre req post :
  honest_engine serves -> Forall op_plain ops ->
  sr_log (scope_run newDaemon Stop Ask base ops (scope_start x)) = pre ++ EvDecided req PolicyAllow :: post ->
  exists plan, latest pre = Some plan /\ declares plan (dr_ResourceID req) /\ (base = [] \/ dr_ResourceID req ∈ base).
Proof.
  intros E P. assert (O : scope_ok serves (scope_run newDaemon Stop Ask base ops (scope_start x))).
  { assert (O : scope_ok serves (scope_start (X := X) (H := H) x)).
    { constructor; cbn; try done. intros [|? ?] ? ?; done. }
    revert O. generalize (scope_start (H := H) x). unfold scope_run.
    induction P as [|op ops Pop Pops IH]; intros r O; [done|]. cbn. by apply IH, ok_scope_step. }
  apply (so_log _ _ O).
Qed.
End Decisions.

(** ** A concrete engine *)

Definition demo_start (allow : list string) (x : option (list string)) : result string nat * option (list string) := (Ok 0, Some allow).
Definition demo_stop (d : nat) (x : option (list string)) : option string * option (list string) := (None, None).
Definition demo_ask (req : DecideRequest) (x : option (list string)) : DecideResponse * option (list string) :=
  match x with
  | Some allow => (if bool_decide (dr_ResourceID req ∈ allow) then mkDecideResponse PolicyAllow [] "" else denied, x)
  | None => (denied, x)
  end.

Lemma demo_engine_honest : honest_engine demo_start demo_stop demo_ask id.
Proof.
  constructor.
  - by intros allow x d x' [= <- <-].
  - by intros allow x e x' [=].
  - intros d x. by left.
  - by intros req [allow|].
  - intros req [allow|] Q; [|done]. exists allow. split; [done|]. cbn in Q.
    destruct (bool_decide _) eqn:B; [|done]. by apply bool_decide_eq_true in B.
Qed.

Definition demo_sub (recipe id : string) : SubGoal := mkSubGoal (mkTask id "r" "s" "") recipe "r" "".
Definition demo_plan_a : Plan := mkPlan "g" "a" [demo_sub "docs-fix" "a-1"].
Definition demo_plan_b : Plan := mkPlan "g" "b" [demo_sub "code" "b-1"].
Definition demo_request (recipe : string) : DecideRequest := mkDecideRequest "agent" "orchestrator" SpawnWorkerAction "recipe" recipe [] "" "" "".

Lemma policy_allows_only_the_configured_plan_witness :
  exists plan, latest [EvConfigured demo_plan_a None] = Some plan /\ declares plan "docs-fix" /\ (@nil string = [] \/ "docs-fix" ∈ @nil string).
Proof.
  refine (policy_allows_only_the_configured_plan demo_start demo_stop demo_ask [] id
    [OpConfigure demo_plan_a; OpTake 0; OpAsk 0 (demo_request "docs-fix")] None [EvConfigured demo_plan_a None] (demo_request "docs-fix") []
    demo_engine_honest _ _); [|vm_compute; reflexivity].
  repeat constructor. intros r [_ [-> |(s & Hs & [-> | ->])]]; [vm_compute; reflexivity|..];
    apply list_elem_of_singleton in Hs as ->; vm_compute; reflexivity.
Defined.

(** One client serves every goal: once the plan of goal [b] is configured, a worker of
    goal [a] is denied although its own plan declares it. *)
Example another_plan_takes_the_engine :
  sr_log (scope_run demo_start demo_stop demo_ask []
    [OpConfigure demo_plan_a; OpConfigure demo_plan_b; OpTake 0; OpAsk 0 (demo_request "docs-fix")] (scope_start None)) =
  [EvConfigured demo_plan_a None; EvConfigured demo_plan_b None; EvDecided (demo_request "docs-fix") PolicyDeny].
Proof. vm_compute. reflexivity. Qed.
