(* ===== verification/Transport.v ===== *)
(** * The transport dispatch

    [internal/cli/orchestrate_seams.go]: the dispatch function of the orchestrate path.
    Every sub-goal goes through the sealed worker transport of [Envelope] before its
    worker runs, and the worker's result comes back through it; then the outcome is
    reported. Also the log reporter and the status writer that reports. *)

From stdpp Require Import base gmap list strings.
From Stdlib Require Import ZArith Lia Ascii.
From S2P Require Import Prelude GoStrings Encoding Seams TaskSource Containment Envelope.
Open Scope Z_scope.

(** Why a dispatch returned an error. *)
Inductive DispatchErr :=
| DErrBlankID
| DErrBlankSpec (id : string)
| DErrSealWorkItem (id : string) (e : TransportErr)
| DErrVerifyWorkItem (id : string) (e : TransportErr)
| DErrSealResult (id : string) (e : TransportErr)
| DErrVerifyResult (id : string) (e : TransportErr)
| DErrWorker (e : string).

(** What a dispatch does outside: a worker run with the configuration it is given, and a
    report. *)
Inductive DispatchEvent :=
| EvWorker (recipe : string) (task : Task) (err : option string)
| EvReported (text : string).

Section Transport.
(** The world, the primitives of [Envelope], the JSON codecs of a task and of a result,
    and the seams: random nonces, the clock, the worker and the reporter. *)
Context {X : Type}.
Variables (ed_sign : string -> string -> string) (ed_public : string -> string)
          (ed_verify : string -> string -> string -> bool)
          (box_seal : string -> string -> string -> string -> string)
          (box_open : string -> string -> string -> string -> option string)
          (ParseRFC3339 : string -> option Z) (Sscanf_d : string -> option Z)
          (FormatRFC3339 : Z -> string)
          (marshal_task : Task -> option string) (unmarshal_task : string -> option Task)
          (marshal_result : ExecResult -> option string) (unmarshal_result : string -> option ExecResult).
Variables (rand_nonce : X -> option string * X) (clock : X -> Z * X)
          (generateSealKeyPair : X -> result string (string * string) * X)
          (runWorker : string -> Task -> X -> option string * X)
          (reporter : option (string -> X -> X)) (quote : string -> string).

(** The two directions of the wire. *)
Record Wire := mkWireEnds {
  wi_workItemSender : Sender;
  wi_workItemReceiver : Receiver;
  wi_resultSender : Sender;
  wi_resultReceiver : Receiver
}.

(** [newTransportDispatch]: the ends of the wire, from two key pairs generated once. *)
Definition newTransportDispatch (signingKey : string) (x : X) : result string Wire * X :=
  match generateSealKeyPair x with
  | (Err e, x) => (Err ("newTransportDispatch: generate seal keypair (orch): " +:+ e), x)
  | (Ok (orchXPub, orchXPriv), x) =>
    match generateSealKeyPair x with
    | (Err e, x) => (Err ("newTransportDispatch: generate seal keypair (worker): " +:+ e), x)
    | (Ok (workerXPub, workerXPriv), x) =>
      let signPub := ed_public signingKey in
      (Ok (mkWireEnds (NewWorkItemSender signingKey orchXPriv workerXPub)
                      (NewWorkItemReceiver signPub workerXPriv orchXPub)
                      (NewResultSender signingKey workerXPriv orchXPub)
                      (NewResultReceiver signPub orchXPriv workerXPub)), x)
    end
  end.

(** What dispatches share: a replay cache per direction, the rejections audited, and the
    log of what was done. *)
Record DispatchState := mkDispatchState {
  ds_workCache : ReplayCache;
  ds_resultCache : ReplayCache;
  ds_rejects : list string;
  ds_log : list DispatchEvent;
  ds_x : X
}.

Definition with_x (x : X) (s : DispatchState) : DispatchState :=
  mkDispatchState (ds_workCache s) (ds_resultCache s) (ds_rejects s) (ds_log s) x.

(** [DispatchWorkItem] and [DispatchResult] with the random nonce and the clock. *)
Definition seal {A} (marshal : A -> option string) (sd : Sender) (a : A) (s : DispatchState)
  : result TransportErr Envelope * DispatchState :=
  let '(nonce, x) := rand_nonce (ds_x s) in
  let '(now, x) := clock x in
  (Dispatch ed_sign box_seal FormatRFC3339 marshal sd nonce now a, with_x x s).

(** [ReceiveWorkItem] and [ReceiveResult] against the cache of their direction. *)
Definition receive_work (rv : Receiver) (e : Envelope) (s : DispatchState) : result TransportErr Task * DispatchState :=
  let '(now, x) := clock (ds_x s) in
  let '(r, st) := Receive ed_verify box_open ParseRFC3339 Sscanf_d unmarshal_task rv now e
                    (mkTransportState (ds_workCache s) (ds_rejects s)) in
  (r, mkDispatchState (ts_cache st) (ds_resultCache s) (ts_rejects st) (ds_log s) x).
Definition receive_result (rv : Receiver) (e : Envelope) (s : DispatchState) : result TransportErr ExecResult * DispatchState :=
  let '(now, x) := clock (ds_x s) in
  let '(r, st) := Receive ed_verify box_open ParseRFC3339 Sscanf_d unmarshal_result rv now e
                    (mkTransportState (ds_resultCache s) (ds_rejects s)) in
  (r, mkDispatchState (ds_workCache s) (ts_cache st) (ts_rejects st) (ds_log s) x).

Definition run_worker (recipe : string) (task : Task) (s : DispatchState) : option string * DispatchState :=
  let '(err, x) := runWorker recipe task (ds_x s) in
  (err, mkDispatchState (ds_workCache s) (ds_resultCache s) (ds_rejects s) (ds_log s ++ [EvWorker recipe task err]) x).

Definition report_outcome (id : string) (runErr : option string) (s : DispatchState) : DispatchState :=
  match reporter with
  | None => s
  | Some say =>
    let text := match runErr with
                | None => "worker completed sub-goal " +:+ quote id
                | Some e => "worker failed sub-goal " +:+ quote id +:+ ": " +:+ e
                end in
    mkDispatchState (ds_workCache s) (ds_resultCache s) (ds_rejects s) (ds_log s ++ [EvReported text]) (say text (ds_x s))
  end.

(** The dispatch function; [None] is success. *)
Definition dispatch (w : Wire) (sub : SubGoal) (s : DispatchState) : option DispatchErr * DispatchState :=
  let task := sg_Task sub in
  let id := task_ID task in
  if String.eqb id "" then (Some DErrBlankID, s)
  else if String.eqb (task_Spec task) "" then (Some (DErrBlankSpec id), s)
  else
    let '(env, s) := seal marshal_task (wi_workItemSender w) task s in
    match env with
    | Err e => (Some (DErrSealWorkItem id e), s)
    | Ok env =>
      let '(r, s) := receive_work (wi_workItemReceiver w) env s in
      match r with
      | Err e => (Some (DErrVerifyWorkItem id e), s)
      | Ok _ =>
        let '(runErr, s) := run_worker (sg_RecipeName sub) task s in
        let result := mkExecResult "" (match runErr with None => true | Some _ => false end) in
        let '(env, s) := seal marshal_result (wi_resultSender w) result s in
        match env with
        | Err e => (Some (DErrSealResult id e), s)
        | Ok env =>
          let '(r, s) := receive_result (wi_resultReceiver w) env s in
          match r with
          | Err e => (Some (DErrVerifyResult id e), s)
          | Ok _ => (option_map DErrWorker runErr, report_outcome id runErr s)
          end
        end
      end
    end.

(** [reporterStatusWriter.WriteStatus]. *)
Definition WriteStatus (report : option (string -> X -> option string * X)) (taskID : string) (status : WritableStatus) (x : X)
  : result string StatusWriteResult * X :=
  match report with
  | None => (Err "reporterStatusWriter: nil reporter", x)
  | Some report =>
    match report ("needs-human: goal " +:+ taskID +:+ " escalated (" +:+ WritableStatus_string status +:+ ")") x with
    | (Some e, x) => (Err ("reporterStatusWriter: report failed: " +:+ e), x)
    | (None, x) => (Ok (mkStatusWriteResult "" true), x)
    end
  end.
End Transport.

(** ** Correctness *)

Section Facts.
Context {X : Type}.
Variables (ed_sign : string -> string -> string) (ed_public : string -> string)
          (ed_verify : string -> string -> string -> bool)
          (box_seal : string -> string -> string -> string -> string)
          (box_open : string -> string -> string -> string -> option string)
          (ParseRFC3339 : string -> option Z) (Sscanf_d : string -> option Z)
          (FormatRFC3339 : Z -> string)
          (marshal_task : Task -> option string) (unmarshal_task : string -> option Task)
          (marshal_result : ExecResult -> option string) (unmarshal_result : string -> option ExecResult).
Variables (rand_nonce : X -> option string * X) (clock : X -> Z * X)
          (generateSealKeyPair : X -> result string (string * string) * X)
          (runWorker : string -> Task -> X -> option string * X)
          (reporter : option (string -> X -> X)) (quote : string -> string).

Notation dispatch := (dispatch ed_sign ed_verify box_seal box_open ParseRFC3339 Sscanf_d FormatRFC3339
  marshal_task unmarshal_task marshal_result unmarshal_result rand_nonce clock runWorker reporter quote).
Notation DispatchState := (@DispatchState X).

(** What the operator is told of a run. *)
Definition outcome_report (id : string) (runErr : option string) : list DispatchEvent :=
  match reporter with
  | None => []
  | Some _ => [EvReported (match runErr with
                           | None => "worker completed sub-goal " +:+ quote id
                           | Some e => "worker failed sub-goal " +:+ quote id +:+ ": " +:+ e
                           end)]
  end.

(** The work item of a sub-goal was sealed, signed and accepted. *)
Definition work_item_accepted (w : Wire) (task : Task) (s : DispatchState) : Prop :=
  exists nonce sent now env t st,
    Dispatch ed_sign box_seal FormatRFC3339 marshal_task (wi_workItemSender w) nonce sent task = Ok env /\
    Receive ed_verify box_open ParseRFC3339 Sscanf_d unmarshal_task (wi_workItemReceiver w) now env
      (mkTransportState (ds_workCache s) (ds_rejects s)) = (Ok t, st).

(** What each outcome of a dispatch says of what was done. *)
Definition did_for (w : Wire) (sub : SubGoal) (s : DispatchState) (err : option DispatchErr) (evs : list DispatchEvent) : Prop :=
  let task := sg_Task sub in
  let ran e := EvWorker (sg_RecipeName sub) task e in
  match err with
  | Some DErrBlankID => task_ID task = "" /\ evs = []
  | Some (DErrBlankSpec _) => task_ID task <> "" /\ task_Spec task = "" /\ evs = []
  | Some (DErrSealWorkItem _ _) | Some (DErrVerifyWorkItem _ _) => evs = []
  | Some (DErrSealResult _ _) | Some (DErrVerifyResult _ _) =>
    exists e, evs = [ran e] /\ work_item_accepted w task s /\ task_ID task <> "" /\ task_Spec task <> ""
  | Some (DErrWorker e) =>
    evs = ran (Some e) :: outcome_report (task_ID task) (Some e) /\ work_item_accepted w task s /\
    task_ID task <> "" /\ task_Spec task <> ""
  | None =>
    evs = ran None :: outcome_report (task_ID task) None /\ work_item_accepted w task s /\
    task_ID task <> "" /\ task_Spec task <> ""
  end.

(** C24. A dispatch runs at most one worker, the one of its sub-goal, and only after
    the work item was sealed, signed and accepted; it succeeds, and tells the
    operator so, only if that worker returned no error. *)
Theorem dispatch_runs_only_the_accepted_worker w sub s :
  let '(err, s') := dispatch w sub s in
  exists evs, ds_log s' = ds_log s ++ evs /\ did_for w sub s err evs.
Proof.
  unfold Transport.dispatch, did_for.
  destruct (String.eqb (task_ID (sg_Task sub)) "") eqn:I; to_prop; [exists []; by rewrite app_nil_r|].
  destruct (String.eqb (task_Spec (sg_Task sub)) "") eqn:P; to_prop; [exists []; by rewrite app_nil_r|].
  unfold seal at 1. destruct (rand_nonce (ds_x s)) as [nonce x1]. destruct (clock x1) as [sent x2].
  destruct (Dispatch _ _ _ marshal_task _ nonce sent _) as [env|e] eqn:D; [|exists []; by rewrite app_nil_r].
  unfold receive_work, with_x. cbn [ds_x ds_workCache ds_resultCache ds_rejects ds_log].
  destruct (clock x2) as [now x3].
  destruct (Receive _ _ _ _ unmarshal_task _ now env _) as [[t|e] st] eqn:R; [|exists []; by rewrite app_nil_r].
  assert (A : work_item_accepted w (sg_Task sub) s) by (by exists nonce, sent, now, env, t, st).
  unfold run_worker. cbn [ds_x ds_workCache ds_resultCache ds_rejects ds_log].
  destruct (runWorker _ _ x3) as [runErr x4].
  unfold seal. cbn [ds_x]. destruct (rand_nonce x4) as [nonce2 x5]. destruct (clock x5) as [sent2 x6].
  destruct (Dispatch _ _ _ marshal_result _ nonce2 sent2 _) as [env2|e2]; [|by eexists; split; [reflexivity|eauto]].
  unfold receive_result, with_x. cbn [ds_x ds_workCache ds_resultCache ds_rejects ds_log].
  destruct (clock x6) as [now2 x7].
  destruct (Receive _ _ _ _ unmarshal_result _ now2 env2 _) as [[t2|e2] st2]; [|by eexists; split; [reflexivity|eauto]].
  unfold report_outcome, outcome_report.
  destruct reporter as [say|]; cbn [ds_log]; destruct runErr as [e|]; cbn [option_map];
    (eexists; split; [rewrite <- ?app_assoc; reflexivity|done]).
Qed.

(** Two clock readings in a row are within the window of a cache. *)
Definition timely (rc : ReplayCache) : Prop :=
  window_ok rc /\
  forall x, (clock (clock x).2).1 - rc_Window rc <= (clock x).1 / 1000000000 * 1000000000 <= (clock (clock x).2).1 + rc_Window rc.

Definition fresh_nonces (rc : ReplayCache) : Prop :=
  forall x, exists n, (rand_nonce x).1 = Some n /\ String.length n = 24%nat /\ rc_nonces rc !! hex_encode n = None.

(** With the keys it generates, nonces the caches have not seen and a clock that reads
    within the window, a dispatch runs the worker and returns its error and no other. *)
Theorem dispatch_returns_the_workers_result signingKey x0 op os x1 wp ws x2 w sub (s : DispatchState) :
  generateSealKeyPair x0 = (Ok (op, os), x1) -> generateSealKeyPair x1 = (Ok (wp, ws), x2) ->
  (newTransportDispatch ed_public generateSealKeyPair signingKey x0).1 = Ok w ->
  keys_agree ed_sign ed_verify box_seal box_open signingKey (ed_public signingKey) os op ws wp ->
  keys_agree ed_sign ed_verify box_seal box_open signingKey (ed_public signingKey) ws wp os op ->
  (forall x, ParseRFC3339 (FormatRFC3339 (clock x).1) = Some ((clock x).1 / 1000000000 * 1000000000)) ->
  (exists p, marshal_task (sg_Task sub) = Some p /\ unmarshal_task p = Some (sg_Task sub)) ->
  (forall b, exists p, marshal_result (mkExecResult "" b) = Some p /\ unmarshal_result p = Some (mkExecResult "" b)) ->
  timely (ds_workCache s) -> timely (ds_resultCache s) ->
  fresh_nonces (ds_workCache s) -> fresh_nonces (ds_resultCache s) ->
  task_ID (sg_Task sub) <> "" -> task_Spec (sg_Task sub) <> "" ->
  exists xw s', let runErr := (runWorker (sg_RecipeName sub) (sg_Task sub) xw).1 in
    dispatch w sub s = (option_map DErrWorker runErr, s') /\
    ds_log s' = ds_log s ++ EvWorker (sg_RecipeName sub) (sg_Task sub) runErr :: outcome_report (task_ID (sg_Task sub)) runErr /\
    ds_rejects s' = ds_rejects s.
Proof.
  intros G1 G2 W K1 K2 HT MT MR [O1 T1] [O2 T2] N1 N2 HI HS.
  unfold newTransportDispatch in W. rewrite G1, G2 in W. injection W as <-.
  unfold Transport.dispatch. rewrite (proj2 (String.eqb_neq _ _) HI), (proj2 (String.eqb_neq _ _) HS).
  cbn [wi_workItemSender wi_workItemReceiver wi_resultSender wi_resultReceiver].
  unfold seal at 1. destruct (rand_nonce (ds_x s)) as [nonce y1] eqn:R1. destruct (clock y1) as [sent y2] eqn:C1.
  destruct (N1 (ds_x s)) as (n1 & E1 & L1 & F1). rewrite R1 in E1. cbn in E1. subst nonce.
  specialize (T1 y1). pose proof (HT y1) as HT1. rewrite C1 in T1, HT1. cbn in T1, HT1. destruct (clock y2) as [now y3] eqn:C2. cbn in T1.
  destruct MT as (p1 & M1 & U1).
  destruct (wire_round_trip marshal_task unmarshal_task ed_sign ed_verify box_seal box_open ParseRFC3339 Sscanf_d FormatRFC3339
    signingKey (ed_public signingKey) os op ws wp roleOrchestrator roleWorker n1 sent now (sg_Task sub) p1 (ds_workCache s) (ds_rejects s)
    K1 HT1 M1 U1 L1 F1 O1 T1) as (env & rc & D1 & V1 & _).
  unfold NewWorkItemSender, NewWorkItemReceiver, NewResultSender, NewResultReceiver.
  rewrite D1. unfold receive_work, with_x. cbn [ds_x ds_workCache ds_resultCache ds_rejects ds_log].
  rewrite C2, V1. cbn [ts_cache ts_rejects].
  unfold run_worker. cbn [ds_x ds_workCache ds_resultCache ds_rejects ds_log]. exists y3.
  destruct (runWorker (sg_RecipeName sub) (sg_Task sub) y3) as [runErr y4].
  unfold seal. cbn [ds_x]. destruct (rand_nonce y4) as [nonce2 y5] eqn:R2. destruct (clock y5) as [sent2 y6] eqn:C3.
  destruct (N2 y4) as (n2 & E2 & L2 & F2). rewrite R2 in E2. cbn in E2. subst nonce2.
  specialize (T2 y5). pose proof (HT y5) as HT2. rewrite C3 in T2, HT2. cbn in T2, HT2. destruct (clock y6) as [now2 y7] eqn:C4. cbn in T2.
  set (ok := match runErr with None => true | Some _ => false end). destruct (MR ok) as (p2 & M2 & U2).
  destruct (wire_round_trip marshal_result unmarshal_result ed_sign ed_verify box_seal box_open ParseRFC3339 Sscanf_d FormatRFC3339
    signingKey (ed_public signingKey) ws wp os op roleWorker roleOrchestrator n2 sent2 now2 (mkExecResult "" ok) p2 (ds_resultCache s) (ds_rejects s)
    K2 HT2 M2 U2 L2 F2 O2 T2) as (env2 & rc2 & D2 & V2 & _).
  rewrite D2. unfold receive_result, with_x. cbn [ds_x ds_workCache ds_resultCache ds_rejects ds_log].
  rewrite C4, V2. cbn [ts_cache ts_rejects]. eexists. split; [reflexivity|].
  unfold report_outcome, outcome_report. destruct reporter as [say|]; cbn [ds_log ds_rejects]; [|done].
  by rewrite <- app_assoc.
Qed.
End Facts.

(** Toy primitives: a constant signature, a transparent box, a clock that stands still. *)
Definition demo_sub : SubGoal := mkSubGoal (mkTask "g-1" "r" "fix it" "") "coding-agent" "r" "".
Definition demo_sign : string := Nat.iter 64 (String "k"%char) "".
Definition demo_pub : string := Nat.iter 32 (String "k"%char) "".
Definition demo_nonce : string := Nat.iter 24 (String "k"%char) "".
Definition demo_state : @DispatchState nat := mkDispatchState (NewReplayCache 0) (NewReplayCache 0) [] [] 0%nat.
Definition demo_dispatch (fails : bool) :=
  dispatch (X := nat) (fun _ _ => demo_sign) (fun _ _ s => String.eqb s demo_sign) (fun p _ _ _ => p) (fun c _ _ _ => Some c)
    (fun s => option_map (fun n => n * 1000000000) (ParseInt s)) (fun _ => None) (fun t => FormatInt (t / 1000000000))
    (fun t => Some (task_ID t)) (fun p => Some (sg_Task demo_sub))
    (fun r => Some (if res_OK r then "t" else "f")) (fun p => Some (mkExecResult "" (String.eqb p "t")))
    (fun x => (Some demo_nonce, x)) (fun x => (5000000000, x))
    (fun _ _ x => (if fails then Some "gate failed" else None, S x)) (Some (fun _ x => x)) id
    (mkWireEnds (NewWorkItemSender demo_sign "s" "p") (NewWorkItemReceiver demo_pub "s" "p")
      (NewResultSender demo_sign "s" "p") (NewResultReceiver demo_pub "s" "p")) demo_sub.

(** A second dispatch with the same nonce is refused before its worker runs. *)
Example replayed_dispatch_is_refused :
  let s := (demo_dispatch false demo_state).2 in
  (demo_dispatch true s).1 = Some (DErrVerifyWorkItem "g-1" (TErrEnvelope ErrReplay)) /\
  ds_log (demo_dispatch true s).2 = ds_log s /\ ds_rejects (demo_dispatch true s).2 = ["replay_detected"].
Proof. vm_compute. done. Qed.

Lemma dispatch_returns_the_workers_result_witness :
  exists s', demo_dispatch true demo_state = (Some (DErrWorker "gate failed"), s') /\
    ds_log s' = [EvWorker "coding-agent" (sg_Task demo_sub) (Some "gate failed");
                 EvReported "worker failed sub-goal g-1: gate failed"].
Proof.
  destruct (dispatch_returns_the_workers_result (X := nat) (fun _ _ => demo_sign) (fun _ => demo_pub) (fun _ _ s => String.eqb s demo_sign)
    (fun p _ _ _ => p) (fun c _ _ _ => Some c)
    (fun s => option_map (fun n => n * 1000000000) (ParseInt s)) (fun _ => None) (fun t => FormatInt (t / 1000000000))
    (fun t => Some (task_ID t)) (fun p => Some (sg_Task demo_sub))
    (fun r => Some (if res_OK r then "t" else "f")) (fun p => Some (mkExecResult "" (String.eqb p "t")))
    (fun x => (Some demo_nonce, x)) (fun x => (5000000000, x)) (fun x => (Ok ("p", "s"), x))
    (fun _ _ x => (Some "gate failed", S x)) (Some (fun _ x => x)) id
    demo_sign 0%nat "p" "s" 0%nat "p" "s" 0%nat
    (mkWireEnds (NewWorkItemSender demo_sign "s" "p") (NewWorkItemReceiver demo_pub "s" "p")
      (NewResultSender demo_sign "s" "p") (NewResultReceiver demo_pub "s" "p")) demo_sub demo_state) as (xw & s' & D & L & _).
  1-3: reflexivity.
  - constructor; [split; reflexivity|done..].
  - constructor; [split; reflexivity|done..].
  - intros x. vm_compute. reflexivity.
  - by eexists.
  - intros [|]; by eexists.
  - split; [vm_compute; split; congruence|]. intros x. vm_compute. split; congruence.
  - split; [vm_compute; split; congruence|]. intros x. vm_compute. split; congruence.
  - intros x. exists demo_nonce. repeat split.
  - intros x. exists demo_nonce. repeat split.
  - discriminate.
  - discriminate.
  - exists s'. split; [exact D|]. exact L.
Defined.
