(* ===== verification/Reply.v ===== *)
(** * Replies to the operator ([internal/channel/telegram/reply.go], [notifier.go]) and the signing key

    The reports of the orchestrator are sealed and signed like the messages it receives
    and posted to the bot interface; the notices of the pairing flow are posted in the
    clear. [LoadSigningKey] of [internal/channel/worker/keymaterial.go] reads the key
    the workers' transport signs with. The HTTP exchange and the cryptography are
    parameters; the documents are written and read as [JsonWriter] and [Json] have it. *)

From stdpp Require Import base gmap strings list.
From Stdlib Require Import ZArith Lia Ascii.
From S2P Require Import Prelude GoStrings Texts Encoding Json JsonWriter Envelope.

Local Open Scope Z_scope.

(** ** Documents *)

(** The JSON of an envelope, written and read. *)
Definition envelope_json (e : Envelope) : json :=
  JObject [("from", JString (env_From e)); ("to", JString (env_To e)); ("nonce", JString (env_Nonce e));
           ("ts", JString (env_TS e)); ("payload", JString (env_Payload e)); ("sig", JString (env_Sig e))].
Definition zero_envelope : Envelope := mkEnvelope "" "" "" "" "" "".
Definition envelope_fields : list (Field Envelope) :=
  [("from", store_string (fun s e => mkEnvelope s (env_To e) (env_Nonce e) (env_TS e) (env_Payload e) (env_Sig e)));
   ("to", store_string (fun s e => mkEnvelope (env_From e) s (env_Nonce e) (env_TS e) (env_Payload e) (env_Sig e)));
   ("nonce", store_string (fun s e => mkEnvelope (env_From e) (env_To e) s (env_TS e) (env_Payload e) (env_Sig e)));
   ("ts", store_string (fun s e => mkEnvelope (env_From e) (env_To e) (env_Nonce e) s (env_Payload e) (env_Sig e)));
   ("payload", store_string (fun s e => mkEnvelope (env_From e) (env_To e) (env_Nonce e) (env_TS e) s (env_Sig e)));
   ("sig", store_string (fun s e => mkEnvelope (env_From e) (env_To e) (env_Nonce e) (env_TS e) (env_Payload e) s))].
Definition read_envelope (text : string) : option Envelope := Unmarshal envelope_fields zero_envelope text.

(** [sendMessageRequest] and [sendMessageResponse]. *)
Record sendMessageRequest := mkSendMessageRequest { sm_ChatID : string; sm_Text : string }.
Definition message_json (m : sendMessageRequest) : json :=
  JObject [("chat_id", JString (sm_ChatID m)); ("text", JString (sm_Text m))].
Record sendMessageResponse := mkSendMessageResponse { sr_OK : bool; sr_Description : string }.
Definition response_fields : list (Field sendMessageResponse) :=
  [("ok", store_bool (fun b r => mkSendMessageResponse b (sr_Description r)));
   ("description", store_string (fun s r => mkSendMessageResponse (sr_OK r) s))].

(** ** Posting *)

Inductive PostErr :=
| PostSeal (e : EnvErr)
| PostSign (e : EnvErr)
| PostCreate (text : string)
| PostRequest (text : string)
| PostDecode
| PostRefused (description : string).

(** What [PostErr] prints, after the prefix of its component. *)
Definition post_error (show : EnvErr -> string) (e : PostErr) : string :=
  match e with
  | PostSeal e => "seal failed: " +:+ show e
  | PostSign e => "sign failed: " +:+ show e
  | PostCreate t => "create request: " +:+ t
  | PostRequest t => "sendMessage request failed: " +:+ t
  | PostDecode => "decode sendMessage response"
  | PostRefused d => "sendMessage failed: " +:+ d
  end.

(** The adapter's configuration: the bot, the chat and the three keys. *)
Record ReplyAdapter := mkReplyAdapter {
  ra_botToken : string;
  ra_baseURL : string;
  ra_chatID : string;
  ra_orchEdPriv : string;
  ra_orchXPriv : string;
  ra_opXPub : string
}.

Definition sendMessageURL (baseURL botToken : string) : string := baseURL +:+ "/bot" +:+ botToken +:+ "/sendMessage".

Section Post.
(** [strconv.Quote]; the error of [http.NewRequestWithContext] for a URL; an HTTP POST of
    a body to a URL, giving the body of the response or the cause of the failure. *)
Context {X : Type} (quote : string -> string) (url_error : string -> option string)
        (post : string -> string -> X -> result string string * X).

(** [ReplyAdapter.sendMessage] and [PlaintextNotifier.Notify], which differ in the chat
    and the text; a failed request is a [url.Error], which prints its URL. *)
Definition sendMessage (baseURL botToken : string) (m : sendMessageRequest) (x : X) : option PostErr * X :=
  let url := sendMessageURL baseURL botToken in
  match url_error url with
  | Some e => (Some (PostCreate e), x)
  | None =>
    let '(r, x) := post url (write_json (message_json m)) x in
    (match r with
     | Err e => Some (PostRequest ("Post " +:+ quote url +:+ ": " +:+ e))
     | Ok body =>
       match Decode response_fields (mkSendMessageResponse false "") (str_take (64 * 1024) body) with
       | None => Some PostDecode
       | Some result => if sr_OK result then None else Some (PostRefused (sr_Description result))
       end
     end, x)
  end.

Definition Notify (baseURL botToken chatID text : string) (x : X) : option PostErr * X :=
  sendMessage baseURL botToken (mkSendMessageRequest chatID text) x.

Section Crypto.
(** The primitives of [Envelope]; a nonce of [crypto/rand]; the clock's text. *)
Context (ed_sign : string -> string -> string) (box_seal : string -> string -> string -> string -> string)
        (FormatRFC3339 : Z -> string).

(** [Report]. *)
Definition reply_envelope (r : ReplyAdapter) (rand : option string) (now : Z) (text : string) : result PostErr Envelope :=
  match Seal box_seal rand text (ra_orchXPriv r) (ra_opXPub r) with
  | Err e => Err (PostSeal e)
  | Ok (ciphertext, nonce) =>
    match Sign ed_sign (mkEnvelope "orchestrator" "operator" (hex_encode nonce) (FormatRFC3339 now) (hex_encode ciphertext) "")
            (ra_orchEdPriv r) with
    | Err e => Err (PostSign e)
    | Ok env => Ok env
    end
  end.
Definition Report (r : ReplyAdapter) (rand : option string) (now : Z) (text : string) (x : X) : option PostErr * X :=
  match reply_envelope r rand now text with
  | Err e => (Some e, x)
  | Ok env => sendMessage (ra_baseURL r) (ra_botToken r) (mkSendMessageRequest (ra_chatID r) (write_json (envelope_json env))) x
  end.
End Crypto.
End Post.

(** ** The operator reads the report *)

Lemma hex_ascii s : is_ascii (hex_encode s) = true.
Proof.
  unfold is_ascii. induction s as [|c s IH]; [done|]. cbn [hex_encode str_forall].
  assert (H : forall n, 0 <= n < 16 -> in_range 0 127 (hex_digit n) = true).
  { intros n Hn. assert (A : forallb (fun k => in_range 0 127 (hex_digit (Z.of_nat k))) (seq 0 16) = true) by (vm_compute; reflexivity).
    rewrite forallb_forall in A. specialize (A (Z.to_nat n)). rewrite Z2Nat.id in A by lia. apply A, in_seq. lia. }
  pose proof (byte_of_bound c). rewrite !H, IH; [done|..].
  - apply Z.mod_pos_bound. lia.
  - split; [apply Z.div_pos; lia|apply Z.div_lt_upper_bound; lia].
Qed.

Lemma envelope_is_read e :
  Forall (fun s => is_ascii s = true) [env_From e; env_To e; env_Nonce e; env_TS e; env_Payload e; env_Sig e] ->
  read_envelope (write_json (envelope_json e)) = Some e.
Proof.
  intros H. repeat (apply Forall_cons in H as [? H]). unfold read_envelope, Unmarshal.
  rewrite (shallow_is_read_back 3) by (lia || (apply shallow_object; members)).
  unfold envelope_json. cbn [valid_json map]. rewrite !to_valid_ascii by done. by destruct e.
Qed.

Lemma message_is_read m : is_ascii (sm_ChatID m) = true -> parse_json (write_json (message_json m)) =
  Some (JObject [("chat_id", JString (sm_ChatID m)); ("text", JString (to_valid (sm_Text m)))]).
Proof.
  intros H. rewrite (shallow_is_read_back 3) by (lia || (apply shallow_object; members)).
  unfold message_json. cbn [valid_json map]. by rewrite (to_valid_ascii (sm_ChatID m)).
Qed.

(** Encoding an ASCII string leaves it ASCII. *)
Lemma json_body_ascii s : is_ascii s = true -> is_ascii (json_body 0 true s) = true.
Proof.
  unfold is_ascii. induction s as [|c s IH]; [done|]. cbn [str_forall json_body]. intros [Hc H]%andb_true_iff.
  rewrite Hc, str_forall_app, IH by done. rewrite andb_true_r. apply in_all_ascii in Hc.
  assert (A : forallb (fun c => str_forall (in_range 0 127) (json_char c)) all_ascii = true) by (vm_compute; reflexivity).
  rewrite forallb_forall in A. by apply A, list_elem_of_In.
Qed.

Lemma json_string_ascii s : is_ascii s = true -> is_ascii (json_string s) = true.
Proof. intros H%json_body_ascii. unfold json_string, is_ascii in *. cbn [str_forall]. by rewrite str_forall_app, H. Qed.

Lemma envelope_text_ascii e :
  Forall (fun s => is_ascii s = true) [env_From e; env_To e; env_Nonce e; env_TS e; env_Payload e; env_Sig e] ->
  is_ascii (write_json (envelope_json e)) = true.
Proof.
  intros H. repeat (apply Forall_cons in H as [?%json_string_ascii H]). unfold envelope_json, is_ascii in *.
  cbn [write_json map Join]. rewrite !str_forall_app. repeat (apply andb_true_iff; split); done.
Qed.

(** C21. A report that can be sealed is posted once, to the bot's chat, as a
    document from which the operator recovers the text: the message of the document
    is the envelope, its signature is the orchestrator's, and opened in time with a
    fresh nonce it gives the text. *)
Theorem reply_is_read_by_the_operator {X} quote url_error (post : string -> string -> X -> result string string * X)
  ed_sign ed_verify box_seal box_open ParseRFC3339 Sscanf_d FormatRFC3339 r signPub orchXPub opXPriv nonce sent now text rc x :
  keys_agree ed_sign ed_verify box_seal box_open (ra_orchEdPriv r) signPub (ra_orchXPriv r) orchXPub opXPriv (ra_opXPub r) ->
  ParseRFC3339 (FormatRFC3339 sent) = Some (sent / 1000000000 * 1000000000) -> is_ascii (FormatRFC3339 sent) = true ->
  String.length nonce = 24%nat -> rc_nonces rc !! hex_encode nonce = None -> window_ok rc ->
  now - rc_Window rc <= sent / 1000000000 * 1000000000 <= now + rc_Window rc ->
  is_ascii (ra_chatID r) = true -> url_error (sendMessageURL (ra_baseURL r) (ra_botToken r)) = None ->
  exists body message e,
    (Report quote url_error post ed_sign box_seal FormatRFC3339 r (Some nonce) sent text x).2 =
      (post (sendMessageURL (ra_baseURL r) (ra_botToken r)) body x).2 /\
    parse_json body = Some (JObject [("chat_id", JString (ra_chatID r)); ("text", JString message)]) /\
    read_envelope message = Some e /\ env_From e = "orchestrator" /\ env_To e = "operator" /\
    (VerifyAndOpen ed_verify box_open ParseRFC3339 Sscanf_d now e signPub rc opXPriv orchXPub).1 = Ok text.
Proof.
  intros K HT HA HN Hn HW Hf Hc Hu. unfold Report, reply_envelope, Seal.
  set (e0 := mkEnvelope "orchestrator" "operator" (hex_encode nonce) (FormatRFC3339 sent)
               (hex_encode (box_seal text nonce (ra_opXPub r) (ra_orchXPriv r))) "").
  destruct (wire_round_trip (A := string) Some Some ed_sign ed_verify box_seal box_open ParseRFC3339 Sscanf_d FormatRFC3339
    (ra_orchEdPriv r) signPub (ra_orchXPriv r) orchXPub opXPriv (ra_opXPub r) "orchestrator" "operator" nonce sent now text text rc []
    K HT eq_refl eq_refl HN Hn HW Hf) as (e & rc' & HD & HR & _).
  unfold Dispatch, sealSign, Seal in HD. cbn [sd_from sd_to sd_edPriv sd_xPriv sd_recipPub] in HD. fold e0 in HD.
  destruct (Sign ed_sign e0 (ra_orchEdPriv r)) as [e'|err] eqn:ES; [|done]. injection HD as ->.
  assert (Hs : exists s, e = set_sig e0 (hex_encode s)).
  { unfold Sign in ES. destruct (negb _); [done|]. injection ES as <-. by eexists. }
  assert (Ha : Forall (fun s => is_ascii s = true) [env_From e; env_To e; env_Nonce e; env_TS e; env_Payload e; env_Sig e]).
  { destruct Hs as [s ->]. unfold set_sig, e0. cbn [env_From env_To env_Nonce env_TS env_Payload env_Sig].
    repeat constructor; try done; apply hex_ascii. }
  unfold sendMessage. rewrite Hu. cbn [sm_ChatID].
  exists (write_json (message_json (mkSendMessageRequest (ra_chatID r) (write_json (envelope_json e))))), (write_json (envelope_json e)), e.
  split_and!.
  - by destruct (post _ _ x).
  - rewrite message_is_read by done. cbn [sm_Text sm_ChatID]. by rewrite to_valid_ascii by by apply envelope_text_ascii.
  - by apply envelope_is_read.
  - by destruct Hs as [s ->].
  - by destruct Hs as [s ->].
  - revert HR. unfold Receive, verifyOpen. cbn [ts_cache rv_signPub rv_recipPriv rv_senderPub].
    destruct (VerifyAndOpen _ _ _ _ _ _ _ _ _ _) as [[p|err] rc1]; [|done].
    destruct (_ || _); [done|]. by intros [= -> _].
Qed.

Definition toy_adapter : ReplyAdapter := mkReplyAdapter "12:ab" "https://api.telegram.org" "42" (pad 64) "x" "y".
Definition toy_post (url body : string) (x : list (string * string)) : result string string * list (string * string) :=
  (Ok ("{" +:+ json_string "ok" +:+ ":true}"), x ++ [(url, body)]).

Lemma reply_is_read_by_the_operator_witness :
  exists body message e,
    (Report (fun s => s) (fun _ => None) toy_post (fun _ _ => pad 64) (fun p _ _ _ => p) (fun t => FormatInt (t / 1000000000))
       toy_adapter (Some (pad 24)) 5000000007 "done" []).2 = [("https://api.telegram.org/bot12:ab/sendMessage", body)] /\
    parse_json body = Some (JObject [("chat_id", JString "42"); ("text", JString message)]) /\ read_envelope message = Some e.
Proof.
  edestruct (reply_is_read_by_the_operator (fun s => s) (fun _ => None) toy_post (fun _ _ => pad 64)
    (fun _ _ s => String.eqb s (pad 64)) (fun p _ _ _ => p) (fun c _ _ _ => Some c)
    (fun s => option_map (fun n => n * 1000000000) (ParseInt s)) (fun _ => None) (fun t => FormatInt (t / 1000000000))
    toy_adapter (pad 32) "p" "q" (pad 24) 5000000007 6000000000 "done" (NewReplayCache 0) [])
    as (body & message & e & H1 & H2 & H3 & _).
  - by split.
  - reflexivity.
  - reflexivity.
  - reflexivity.
  - reflexivity.
  - vm_compute. split; congruence.
  - vm_compute. split; congruence.
  - reflexivity.
  - reflexivity.
  - exists body, message, e. split; [exact H1|]. split; [exact H2|exact H3].
Defined.

(** A message counts as sent only if the interface answered with a document that says
    so, within its first 64 KiB; nothing is sent when the report cannot be sealed. *)
Theorem report_succeeds_only_when_accepted {X} quote url_error (post : string -> string -> X -> result string string * X)
  ed_sign box_seal FormatRFC3339 r rand now text x :
  match Report quote url_error post ed_sign box_seal FormatRFC3339 r rand now text x with
  | (None, x') =>
    exists env body answer d, reply_envelope ed_sign box_seal FormatRFC3339 r rand now text = Ok env /\
      body = write_json (message_json (mkSendMessageRequest (ra_chatID r) (write_json (envelope_json env)))) /\
      post (sendMessageURL (ra_baseURL r) (ra_botToken r)) body x = (Ok answer, x') /\
      Decode response_fields (mkSendMessageResponse false "") (str_take (64 * 1024) answer) = Some (mkSendMessageResponse true d)
  | (Some (PostSeal _), x') | (Some (PostSign _), x') | (Some (PostCreate _), x') => x' = x
  | _ => True
  end.
Proof.
  unfold Report. destruct (reply_envelope ed_sign box_seal FormatRFC3339 r rand now text) as [env|e] eqn:E.
  - unfold sendMessage. destruct (url_error _); [done|].
    destruct (post _ _ x) as [[answer|e] x'] eqn:Ep; [|done].
    destruct (Decode _ _ _) as [[[|] d]|] eqn:Ed; try done. by exists env, (write_json (message_json (mkSendMessageRequest (ra_chatID r) (write_json (envelope_json env))))), answer, d.
  - unfold reply_envelope in E. destruct (Seal _ _ _ _) as [[c n]|]; [|by injection E as <-].
    destruct (Sign _ _ _); [done|by injection E as <-].
Qed.

(** A request that fails prints its URL, and with it the bot's token. *)
Theorem failed_post_shows_the_bot_token {X} quote url_error (post : string -> string -> X -> result string string * X)
  baseURL botToken m cause x x' :
  let url := sendMessageURL baseURL botToken in
  quote url = String dquote (url +:+ String dquote "") -> url_error url = None ->
  post url (write_json (message_json m)) x = (Err cause, x') ->
  exists pre text, sendMessage quote url_error post baseURL botToken m x = (Some (PostRequest text), x') /\
    text = pre +:+ botToken +:+ "/sendMessage" +:+ String dquote "" +:+ ": " +:+ cause.
Proof.
  intros url Hq Hu Hp. unfold sendMessage. fold url. rewrite Hu, Hp, Hq.
  exists ("Post " +:+ String dquote (baseURL +:+ "/bot")). eexists. split; [reflexivity|].
  unfold url, sendMessageURL. rewrite !str_app_assoc, !(str_app_cons dquote), !str_app_assoc, !(str_app_cons dquote). reflexivity.
Qed.

(** ** The signing key *)

Definition EnvWorkerSigningKey : string := "AGENT_BUILDER_WORKER_SIGNING_KEY".

(** The failures of [LoadSigningKey]; each is an [ErrMissingSigningKey] and names the
    variable. *)
Inductive KeyErr := KeyUnset | KeyUnreadable (path err : string) | KeyNotHex (path : string) | KeySize (path : string) (got : nat).
Definition key_error (quote : string -> string) (e : KeyErr) : string :=
  match e with
  | KeyUnset => EnvWorkerSigningKey +:+ " is not set"
  | KeyUnreadable p err => EnvWorkerSigningKey +:+ "=" +:+ quote p +:+ " could not be read: " +:+ err
  | KeyNotHex p => EnvWorkerSigningKey +:+ "=" +:+ quote p +:+ " is not valid hex"
  | KeySize p n => EnvWorkerSigningKey +:+ "=" +:+ quote p +:+ " is not a 64-byte Ed25519 private key (got " +:+
                   FormatInt (Z.of_nat n) +:+ " bytes)"
  end +:+ ": worker transport: missing signing key material".

Section Key.
Context (getenv : string -> string) (read_file : string -> result string string).

Definition LoadSigningKey : result KeyErr string :=
  let path := getenv EnvWorkerSigningKey in
  if String.eqb path "" then Err KeyUnset
  else match read_file path with
  | Err e => Err (KeyUnreadable path e)
  | Ok raw =>
    match hex_decode (TrimSpace raw) with
    | None => Err (KeyNotHex path)
    | Some decoded => if negb (String.length decoded =? 64)%nat then Err (KeySize path (String.length decoded)) else Ok decoded
    end
  end.

(** [NewWorkItemSenderFromEnv]. *)
Definition NewWorkItemSenderFromEnv (orchXPriv workerXPub : string) : result KeyErr Sender :=
  let? edPriv := LoadSigningKey in Ok (NewWorkItemSender edPriv orchXPriv workerXPub).

Lemma hex_plain s : str_forall plain (hex_encode s) = true.
Proof.
  induction s as [|c s IH]; [done|]. cbn [hex_encode str_forall].
  assert (H : forall n, 0 <= n < 16 -> plain (hex_digit n) = true).
  { intros n Hn. assert (A : forallb (fun k => plain (hex_digit (Z.of_nat k))) (seq 0 16) = true) by (vm_compute; reflexivity).
    rewrite forallb_forall in A. specialize (A (Z.to_nat n)). rewrite Z2Nat.id in A by lia. apply A, in_seq. lia. }
  pose proof (byte_of_bound c). rewrite !H, IH; [done|..].
  - apply Z.mod_pos_bound. lia.
  - split; [apply Z.div_pos; lia|apply Z.div_lt_upper_bound; lia].
Qed.

(** A key written in hexadecimal, with white space around it, is the key that is
    loaded; what is loaded can always sign; and the sender is made only then. *)
Theorem signing_key_is_read_back path key before after :
  path <> "" -> getenv EnvWorkerSigningKey = path -> String.length key = 64%nat ->
  str_forall ascii_space before = true -> str_forall ascii_space after = true ->
  read_file path = Ok (before +:+ hex_encode key +:+ after) -> LoadSigningKey = Ok key.
Proof.
  intros Hp He Hk Hb Ha Hr. unfold LoadSigningKey. rewrite He, (proj2 (String.eqb_neq path "")), Hr by done.
  assert (Hw : word (hex_encode key) = true).
  { unfold word. rewrite hex_plain, andb_true_r. apply negb_true_iff, String.eqb_neq. intros E.
    apply (f_equal String.length) in E. rewrite hex_encode_length, Hk in E. done. }
  rewrite (TrimSpace_prose before (hex_encode key) after Hb Ha (prose_word _ Hw)). by rewrite hex_decode_encode, Hk.
Qed.

Lemma loaded_key_signs key : LoadSigningKey = Ok key -> String.length key = 64%nat.
Proof.
  unfold LoadSigningKey. destruct (String.eqb _ ""); [done|]. destruct (read_file _); [|done].
  destruct (hex_decode _) as [d|]; [|done]. destruct (Nat.eqb_spec (String.length d) 64); [|done]. by intros [= <-].
Qed.
End Key.
