(* ===== verification/Polling.v ===== *)
(** * The long poll of the Telegram channel ([internal/channel/telegram/adapter.go])

    [getUpdates]: the request, the decoding of the answer within the size limit, and its
    errors; [waitOrShutdown]; and [Adapter.Next] over them. [Telegram.Next] is the same
    loop over polls that are given: [polled_next_is_next] is the refinement, and so the
    theorems of [Telegram] hold of it. The exchange is a parameter. *)

From stdpp Require Import base gmap strings list sorting.
From Stdlib Require Import ZArith Lia Ascii.
From S2P Require Import Prelude GoStrings Encoding Json JsonWriter Seams Envelope Ingestion Authz Telegram.

Local Open Scope Z_scope.

(** ** The answer *)

(** [GetUpdatesResponse]. *)
Record GetUpdatesResponse := mkGetUpdates { gu_OK : bool; gu_Result : list Update; gu_Error : string }.

(** [User] and [Chat], behind a pointer: a null clears it, an object is decoded into
    what it points to, or into a fresh struct. *)
Definition store_peer (v : json) (old : option Z) : option (option Z) :=
  match v with
  | JNull => Some None
  | JObject ms => Some <$> store_members [("id", store_int (fun n _ => n))] ms (default 0 old)
  | _ => None
  end.

(** [Message], behind a pointer; [reply] decodes the message it replies to. *)
Definition zero_message : TMessage := mkTMessage 0 "" None None None.
Definition message_fields (reply : json -> option TMessage -> option (option TMessage)) : list (Field TMessage) :=
  [("message_id", store_int (fun n m => mkTMessage n (tm_Text m) (tm_From m) (tm_Chat m) (tm_ReplyToMessage m)));
   ("text", store_string (fun s m => mkTMessage (tm_MessageID m) s (tm_From m) (tm_Chat m) (tm_ReplyToMessage m)));
   ("from", fun v m => match store_peer v (tm_From m) with
      | Some p => Some (mkTMessage (tm_MessageID m) (tm_Text m) p (tm_Chat m) (tm_ReplyToMessage m)) | None => None end);
   ("chat", fun v m => match store_peer v (tm_Chat m) with
      | Some p => Some (mkTMessage (tm_MessageID m) (tm_Text m) (tm_From m) p (tm_ReplyToMessage m)) | None => None end);
   ("reply_to_message", fun v m => match reply v (tm_ReplyToMessage m) with
      | Some r => Some (mkTMessage (tm_MessageID m) (tm_Text m) (tm_From m) (tm_Chat m) r) | None => None end)].

(** The nesting of the value is fuel enough. *)
Fixpoint store_message (fuel : nat) (v : json) (old : option TMessage) : option (option TMessage) :=
  match v with
  | JNull => Some None
  | JObject ms =>
    match fuel with
    | O => None
    | S fuel => Some <$> store_members (message_fields (store_message fuel)) ms (default zero_message old)
    end
  | _ => None
  end.

(** [Update], and a slice of them: an element is decoded into the one the slice already
    had at its place. *)
Definition zero_update : Update := mkUpdate 0 None.
Definition update_fields : list (Field Update) :=
  [("update_id", store_int (fun n u => mkUpdate n (up_Message u)));
   ("message", fun v u => match store_message (depth v) v (up_Message u) with
      | Some m => Some (mkUpdate (up_UpdateID u) m) | None => None end)].
Definition store_update : json -> Update -> option Update := store_struct update_fields.
Definition store_updates (old : list Update) (vs : list json) : option (list Update) :=
  store_elements store_update zero_update vs old.
Definition answer_fields : list (Field GetUpdatesResponse) :=
  [("ok", store_bool (fun b r => mkGetUpdates b (gu_Result r) (gu_Error r)));
   ("result", fun v r => match v with
      | JNull => Some (mkGetUpdates (gu_OK r) [] (gu_Error r))
      | JArray vs => match store_updates (gu_Result r) vs with
                     | Some us => Some (mkGetUpdates (gu_OK r) us (gu_Error r)) | None => None end
      | _ => None end);
   ("error_description", store_string (fun s r => mkGetUpdates (gu_OK r) (gu_Result r) s))].

(** ** One poll, one wait *)

Inductive PollErr := PollRequest (text : string) | PollDecode | PollRefused (description : string).

(** [waitOrShutdown]: [done] is when the context ends, from the start of the wait on, if
    it does; when that is the instant the timer fires, [timer_first] says which case of
    the select is taken. *)
Definition waitOrShutdown (d : Z) (done : option Z) (timer_first : bool) : bool :=
  match done with
  | None => true
  | Some t => if d <=? 0 then 0 <? t else if t <? d then false else if d <? t then true else timer_first
  end.

(** ** The documented answers *)

(** A document of the interface has the members the code reads, and others: [more],
    whose names are none of those. *)
Definition known_names : list string :=
  ["id"; "message_id"; "text"; "from"; "chat"; "reply_to_message"; "update_id"; "message"; "ok"; "result"; "error_description"].
Definition foreign (ms : list (string * json)) : Prop :=
  Forall (fun m => is_ascii m.1 = true /\ Forall (fun n => fold_name n <> fold_name m.1) known_names) ms.

Section Documents.
Variable more : list (string * json).

Definition member_of {A} (name : string) (f : A -> json) (o : option A) : list (string * json) :=
  match o with Some a => [(name, f a)] | None => [] end.
Definition peer_doc (id : Z) : json := JObject (("id", int id) :: more).
Fixpoint message_doc (m : TMessage) : json :=
  let 'mkTMessage id text from chat reply := m in
  JObject ([("message_id", int id); ("text", JString text)] ++ member_of "from" peer_doc from ++ member_of "chat" peer_doc chat ++
           match reply with Some r => [("reply_to_message", message_doc r)] | None => [] end ++ more).
Definition update_doc (u : Update) : json :=
  JObject ([("update_id", int (up_UpdateID u))] ++ member_of "message" message_doc (up_Message u) ++ more).
Definition answer_doc (us : list Update) : json :=
  JObject ([("ok", JBool true); ("result", JArray (map update_doc us))] ++ more).
End Documents.
Definition refusal_doc (description : string) : json :=
  JObject [("ok", JBool false); ("error_description", JString description)].

(** Numbers of 64 bits and text in UTF-8; [replies] is how deep replies nest. *)
Definition peer_ok (o : option Z) : bool := match o with Some id => in_int64 id | None => true end.
Fixpoint message_ok (replies : nat) (m : TMessage) : bool :=
  let 'mkTMessage id text from chat reply := m in
  in_int64 id && String.eqb (to_valid text) text && peer_ok from && peer_ok chat &&
  match reply, replies with Some r, S n => message_ok n r | Some _, O => false | None, _ => true end.
Definition update_ok (u : Update) : bool :=
  in_int64 (up_UpdateID u) && match up_Message u with Some m => message_ok 20 m | None => true end.

Lemma foreign_members {R} (fs : list (Field R)) more r : foreign more -> Forall (fun f => f.1 ∈ known_names) fs ->
  store_members fs more r = Some r.
Proof.
  intros Hm Hf. apply store_foreign. eapply Forall_impl; [exact Hm|]. intros m [_ Hk]. eapply Forall_impl; [exact Hf|].
  intros f Hin. by apply (proj1 (Forall_forall _ _) Hk).
Qed.

Definition valid_members (ms : list (string * json)) : list (string * json) := map (fun '(k, v) => (to_valid k, valid_json v)) ms.
Lemma foreign_valid more : foreign more -> foreign (valid_members more).
Proof.
  intros H. apply Forall_map. eapply Forall_impl; [exact H|]. intros [k v] [Hk Hn]. cbn [fst] in *.
  by rewrite to_valid_ascii.
Qed.
Lemma valid_peer more id : valid_json (peer_doc more id) = peer_doc (valid_members more) id.
Proof. reflexivity. Qed.
Lemma valid_member_of more name o : is_ascii name = true ->
  valid_members (member_of name (peer_doc more) o) = member_of name (peer_doc (valid_members more)) o.
Proof. intros H. destruct o; cbn [member_of valid_members map]; [|done]. by rewrite to_valid_ascii, valid_peer. Qed.
Lemma valid_members_app a b : valid_members (a ++ b) = valid_members a ++ valid_members b.
Proof. apply map_app. Qed.
Lemma valid_object ms : valid_json (JObject ms) = JObject (valid_members ms).
Proof. reflexivity. Qed.

Lemma valid_message more n m : message_ok n m = true -> valid_json (message_doc more m) = message_doc (valid_members more) m.
Proof.
  revert m. induction n as [|n IH]; intros [id text from chat reply]; cbn [message_ok message_doc];
    intros [[[[_ Ht%String.eqb_eq]%andb_true_iff _]%andb_true_iff _]%andb_true_iff Hr]%andb_true_iff;
    rewrite valid_object, !valid_members_app, !valid_member_of by done; cbn [valid_members map];
    rewrite !to_valid_ascii by done; cbn [valid_json]; rewrite Ht; destruct reply as [r|]; try done.
  change (valid_members [(?k, ?v)]) with [(to_valid k, valid_json v)]. by rewrite to_valid_ascii, IH.
Qed.

Lemma store_peer_doc more id : foreign more -> in_int64 id = true -> store_peer (peer_doc more id) None = Some (Some id).
Proof.
  intros Hm Hi. unfold store_peer, peer_doc. cbn -[ParseInt FormatInt].
  rewrite ParseInt_FormatInt by done. rewrite foreign_members; [done..|]. repeat constructor.
Qed.

Lemma depth_member k v ms : (k, v) ∈ ms -> (depth v < depth (JObject ms))%nat.
Proof.
  intros H. cbn [depth]. apply Nat.lt_succ_r. apply max_list_elem_of_le.
  apply list_elem_of_fmap. by exists (k, v).
Qed.

Lemma fields_known rep : Forall (fun f => f.1 ∈ known_names) (message_fields rep).
Proof. unfold message_fields, known_names. repeat constructor; cbn [fst]; set_solver. Qed.

(** A message is read back, whatever else its document has. *)
Lemma store_members_doc more rep id text from chat reply : foreign more ->
  in_int64 id = true -> peer_ok from = true -> peer_ok chat = true ->
  (forall r, reply = Some r -> rep (message_doc more r) None = Some (Some r)) ->
  store_members (message_fields rep)
    ([("message_id", int id); ("text", JString text)] ++ member_of "from" (peer_doc more) from ++ member_of "chat" (peer_doc more) chat ++
     match reply with Some r => [("reply_to_message", message_doc more r)] | None => [] end ++ more) zero_message =
  Some (mkTMessage id text from chat reply).
Proof.
  intros Hm Hid Hf Hc Hr. unfold peer_ok in Hf, Hc.
  destruct from as [f|], chat as [c|], reply as [r|]; cbn -[ParseInt FormatInt message_doc store_peer peer_doc store_members];
    repeat (cbn [store_members]; cbn -[ParseInt FormatInt message_doc store_peer peer_doc store_members];
            rewrite ?ParseInt_FormatInt, ?store_peer_doc, ?Hr by done);
    apply foreign_members; auto using fields_known.
Qed.

Lemma store_message_doc more m : foreign more -> forall n fuel, message_ok n m = true ->
  (depth (message_doc more m) <= fuel)%nat -> store_message fuel (message_doc more m) None = Some (Some m).
Proof.
  intros Hm n. revert m. induction n as [|n IH]; intros [id text from chat reply] fuel; cbn [message_ok message_doc];
    intros [[[[Hid _]%andb_true_iff Hf]%andb_true_iff Hc]%andb_true_iff Hr]%andb_true_iff Hd;
    (destruct fuel as [|fuel]; [by apply Nat.nle_succ_0 in Hd|]); cbn [store_message default];
    rewrite store_members_doc by (done || (intros r ->; first [done | apply IH; [done|]; apply le_S_n; etransitivity; [|exact Hd]; eapply (depth_member "reply_to_message"); set_solver])); done.
Qed.

Lemma shallow_le d d' v : shallow d v -> (d <= d')%nat -> shallow d' v.
Proof. intros [H1 H2] H. split; [lia|done]. Qed.
Lemma more_shallow d (more : list (string * json)) : Forall (fun m => shallow 50 m.2) more -> (50 <= d)%nat -> Forall (fun m => shallow d m.2) more.
Proof. intros H Hd. eapply Forall_impl; [exact H|]. intros m Hs. by apply (shallow_le 50). Qed.
#[local] Hint Resolve more_shallow : go.

Lemma shallow_peer more d o name : Forall (fun m => shallow 50 m.2) more -> (51 <= d)%nat ->
  Forall (fun m => shallow d m.2) (member_of name (peer_doc more) o).
Proof.
  intros H Hd. destruct o as [id|]; constructor; [|constructor]. apply (shallow_le 51); [|done].
  apply shallow_object. constructor; [apply shallow_int|by apply more_shallow].
Qed.

Lemma shallow_message_of more d id text from chat reply : Forall (fun m => shallow 50 m.2) more -> (51 <= d)%nat ->
  (forall r, reply = Some r -> shallow d (message_doc more r)) -> shallow (S d) (message_doc more (mkTMessage id text from chat reply)).
Proof.
  intros Hs Hd Hr. apply shallow_object. rewrite !Forall_app. split_and!.
  - constructor; [apply shallow_int|]. constructor; [apply shallow_string|constructor].
  - by apply shallow_peer.
  - by apply shallow_peer.
  - destruct reply as [r|]; constructor; [by apply Hr|constructor].
  - apply more_shallow; [done|lia].
Qed.
Lemma shallow_message more n m : Forall (fun m => shallow 50 m.2) more -> message_ok n m = true -> shallow (52 + n) (message_doc more m).
Proof.
  intros Hs. revert m. induction n as [|n IH]; intros [id text from chat reply]; cbn [message_ok];
    intros [_ Hr]%andb_true_iff; apply shallow_message_of; [done|lia| |done|lia|]; intros r ->; [done|by apply IH].
Qed.

Lemma shallow_update more u : Forall (fun m => shallow 50 m.2) more -> update_ok u = true -> shallow 73 (update_doc more u).
Proof.
  intros Hs [_ Hm]%andb_true_iff. apply shallow_object. rewrite !Forall_app. split_and!.
  - constructor; [apply shallow_int|constructor].
  - destruct (up_Message u) as [m|]; constructor; [|constructor]. by apply (shallow_message more 20).
  - by apply more_shallow; [|lia].
Qed.
Lemma shallow_answer more us : Forall (fun m => shallow 50 m.2) more -> forallb update_ok us = true -> shallow 75 (answer_doc more us).
Proof.
  intros Hs Hu. apply shallow_object. rewrite Forall_app. split; [|by apply more_shallow; [|lia]].
  constructor; [apply shallow_bool|]. constructor; [|constructor]. cbn [snd]. apply shallow_array, Forall_map, Forall_forall.
  intros u Hin. apply shallow_update; [done|]. rewrite forallb_forall in Hu. by apply Hu, list_elem_of_In.
Qed.

Lemma valid_update more u : update_ok u = true -> valid_json (update_doc more u) = update_doc (valid_members more) u.
Proof.
  intros [_ Hm]%andb_true_iff. unfold update_doc. rewrite valid_object, !valid_members_app.
  destruct (up_Message u) as [m|]; cbn [member_of valid_members map]; [|done].
  by rewrite (valid_message more 20), !to_valid_ascii.
Qed.

Lemma store_update_doc more u : foreign more -> update_ok u = true -> store_update (update_doc more u) zero_update = Some u.
Proof.
  intros Hm [Hi Hu]%andb_true_iff. destruct u as [id [m|]]; cbn [up_UpdateID up_Message] in *;
    cbn -[ParseInt FormatInt message_doc store_message store_members depth]; cbn [store_members];
    cbn -[ParseInt FormatInt message_doc store_message store_members depth]; rewrite ParseInt_FormatInt by done.
  - cbn [store_members]. cbn -[message_doc store_message store_members depth].
    rewrite (store_message_doc more m Hm 20) by done. apply foreign_members; [done|]. repeat constructor; cbn; set_solver.
  - apply foreign_members; [done|]. repeat constructor; cbn; set_solver.
Qed.

Lemma store_updates_doc more us : foreign more -> forallb update_ok us = true ->
  store_updates [] (map (update_doc more) us) = Some us.
Proof.
  intros Hm. unfold store_updates. induction us as [|u us IH]; cbn [forallb map store_elements head tail default]; [done|].
  intros [Hu H]%andb_true_iff. by rewrite store_update_doc, IH.
Qed.

(** The answer of the interface is read back, whatever other members its objects have. *)
Lemma answer_is_read more us : foreign more -> Forall (fun m => shallow 50 m.2) more -> forallb update_ok us = true ->
  Decode answer_fields (mkGetUpdates false [] "") (write_json (answer_doc more us)) = Some (mkGetUpdates true us "").
Proof.
  intros Hm Hs Hu. pose proof (shallow_answer more us Hs Hu) as H. unfold answer_doc in H |- *.
  rewrite (shallow_is_decoded _ _ 75) by (done || lia). fold (valid_members ([("ok", JBool true); ("result", JArray (map (update_doc more) us))] ++ more)).
  rewrite valid_members_app. cbn [valid_members map valid_json]. rewrite !to_valid_ascii by done.
  assert (E : map valid_json (map (update_doc more) us) = map (update_doc (valid_members more)) us).
  { rewrite map_map. apply map_ext_in. intros u Hin. apply valid_update. rewrite forallb_forall in Hu. by apply Hu. }
  rewrite E. pose proof (foreign_valid _ Hm) as Hv. cbn [app store_members]. cbn -[store_members store_updates map].
  cbn [store_members]. cbn -[store_members store_updates map]. rewrite store_updates_doc by done.
  apply foreign_members; [done|]. repeat constructor; cbn; set_solver.
Qed.

(** ** Polling *)

Section Polling.
Context (ed_verify : string -> string -> string -> bool)
        (box_open : string -> string -> string -> string -> option string)
        (ParseRFC3339 : string -> option Z) (Sscanf_d : string -> option Z)
        (env_Unmarshal : string -> result string Envelope)
        (uni : string -> string) (url_Parse : string -> option ParsedURL)
        (sha256_hex12 : list string -> string)
        (guard : ContentCandidate -> result string Ingestion.Decision)
        (marshal_ids : list Z -> string) (err_text : AuthzErr -> string)
        (cfg : Config).
(** The bot's address and token. The world: an exchange, which answers a URL with the
    body it could read or an error; what goes on while a batch is processed; and when the
    context ends during a wait. *)
Context {X : Type} (baseURL botToken : string) (get : string -> X -> result string string * X)
        (arrive : list Update -> X -> list Arrival * X) (cancelled : X -> option Z * bool * X).

Notation processBatch := (Telegram.processBatch ed_verify box_open ParseRFC3339 Sscanf_d env_Unmarshal uni url_Parse
  sha256_hex12 guard marshal_ids err_text cfg).
Notation Next := (Telegram.Next ed_verify box_open ParseRFC3339 Sscanf_d env_Unmarshal uni url_Parse
  sha256_hex12 guard marshal_ids err_text cfg).

Definition getUpdatesURL (offset : Z) : string :=
  baseURL +:+ "/bot" +:+ botToken +:+ "/getUpdates?offset=" +:+ FormatInt offset +:+ "&timeout=30".

(** [getUpdates]; of a body that is too long, or breaks off, the beginning is decoded. *)
Definition read_answer (body : string) : result PollErr (list Update) :=
  match Decode answer_fields (mkGetUpdates false [] "") (str_take (Z.to_nat (cf_MaxBodyBytes cfg)) body) with
  | None => Err PollDecode
  | Some r => if gu_OK r then Ok (gu_Result r) else Err (PollRefused (gu_Error r))
  end.
Definition getUpdates (st : AState) (x : X) : result PollErr (list Update) * X :=
  let '(r, x) := get (getUpdatesURL (a_offset st)) x in
  (match r with Err e => Err (PollRequest e) | Ok body => read_answer body end, x).

(** A wait of [pollBackoff]. *)
Definition back_off (x : X) : bool * X :=
  let '(done, timer_first, x) := cancelled x in (waitOrShutdown (cf_PollBackoff cfg) done timer_first, x).

(** [Adapter.Next], for at most [n] rounds; [Polling] when they are used up. *)
Fixpoint live_Next (n : nat) (st : AState) (x : X) : NextResult * AState * X :=
  match n with
  | O => (Polling, st, x)
  | S n =>
    match getUpdates st x with
    | (Err _, x) => let '(go, x) := back_off x in if go then live_Next n st x else (Shutdown, st, x)
    | (Ok updates, x) =>
      let '(batch, x) := arrive updates x in
      match processBatch batch st with
      | (Some m, st) => (Delivered m, st, x)
      | (None, st) => let '(go, x) := back_off x in if go then live_Next n st x else (Shutdown, st, x)
      end
    end
  end.

(** ** Refinement *)

(** The polls of a live run, as [Telegram.Next] takes them; the wait after a delivery is
    never asked for. *)
Fixpoint live_polls (n : nat) (st : AState) (x : X) : list (Poll * bool) :=
  match n with
  | O => []
  | S n =>
    match getUpdates st x with
    | (Err _, x) => let '(go, x) := back_off x in (PollFailed, go) :: if go then live_polls n st x else []
    | (Ok updates, x) =>
      let '(batch, x) := arrive updates x in
      match processBatch batch st with
      | (Some _, _) => [(PollBatch batch, true)]
      | (None, st) => let '(go, x) := back_off x in (PollBatch batch, go) :: if go then live_polls n st x else []
      end
    end
  end.

(** The updates a run looks at: of a batch those up to the delivered one. *)
Notation processUpdate := (Telegram.processUpdate ed_verify box_open ParseRFC3339 Sscanf_d env_Unmarshal uni url_Parse
  sha256_hex12 guard marshal_ids err_text cfg).
Fixpoint looked_at (batch : list Arrival) (st : AState) : list Update :=
  match batch with
  | [] => []
  | a :: batch =>
    ar_update a :: match processUpdate (ar_now a) (ar_fault a) (ar_update a) st with
                   | (Some _, _) => []
                   | (None, st) => looked_at batch st
                   end
  end.
Fixpoint seen (n : nat) (st : AState) (x : X) : list Update :=
  match n with
  | O => []
  | S n =>
    match getUpdates st x with
    | (Err _, x) => let '(go, x) := back_off x in if go then seen n st x else []
    | (Ok updates, x) =>
      let '(batch, x) := arrive updates x in
      looked_at batch st ++
      match processBatch batch st with
      | (Some _, _) => []
      | (None, st) => let '(go, x) := back_off x in if go then seen n st x else []
      end
    end
  end.

(** The control loop calls [Next] over and over. *)
Fixpoint calls (ns : list nat) (st : AState) (x : X) : list Update * AState :=
  match ns with
  | [] => ([], st)
  | n :: ns =>
    let '(_, st1, x1) := live_Next n st x in
    let '(us, st') := calls ns st1 x1 in (seen n st x ++ us, st')
  end.

Lemma looked_at_spec batch st :
  exists rest, map ar_update batch = looked_at batch st ++ rest /\
    a_offset (processBatch batch st).2 =
      match last (looked_at batch st) with Some u => wrap64 (up_UpdateID u + 1) | None => a_offset st end.
Proof.
  revert st. induction batch as [|a batch IH]; intros st; [by exists []|]. cbn [looked_at Telegram.processBatch map].
  pose proof (processUpdate_spec ed_verify box_open ParseRFC3339 Sscanf_d env_Unmarshal uni url_Parse
    sha256_hex12 guard marshal_ids err_text cfg (ar_now a) (ar_fault a) (ar_update a) st) as P.
  destruct (processUpdate (ar_now a) (ar_fault a) (ar_update a) st) as [[m|] st1]; destruct P as [[P _] _].
  - exists (map ar_update batch). split; [done|exact P].
  - destruct (IH st1) as (rest & E & H). exists rest. split; [by rewrite E|]. rewrite H, last_cons.
    by destruct (last (looked_at batch st1)).
Qed.

(** A live run is a run of [Telegram.Next] over the polls it makes. *)
Theorem polled_next_is_next n st x : let '(r, st', _) := live_Next n st x in Next (live_polls n st x) st = (r, st').
Proof.
  revert st x. induction n as [|n IH]; intros st x; cbn [live_Next live_polls]; [done|].
  destruct (getUpdates st x) as [[updates|e] x1].
  - destruct (arrive updates x1) as [batch x2]. destruct (processBatch batch st) as [[m|] st1] eqn:Eb.
    + cbn [Telegram.Next]. by rewrite Eb.
    + destruct (back_off x2) as [[|] x3]; cbn [Telegram.Next]; rewrite Eb; [apply IH|done].
  - destruct (back_off x1) as [[|] x3]; [apply IH|done].
Qed.

(** ** No update is lost *)

(** The updates with at least a number. *)
Definition from (o : Z) (q : list Update) : list Update := filter (fun u => o <= up_UpdateID u) q.

Lemma filter_all {A} (P : A -> Prop) `{!forall x, base.Decision (P x)} l : Forall P l -> filter P l = l.
Proof. induction 1; [done|]. rewrite filter_cons_True by done. by f_equal. Qed.
Lemma filter_none {A} (P : A -> Prop) `{!forall x, base.Decision (P x)} l : Forall (fun x => ~ P x) l -> filter P l = [].
Proof. induction 1; [done|]. by rewrite filter_cons_False. Qed.

Lemma sorted_from o q : StronglySorted (fun u v => up_UpdateID u < up_UpdateID v) q ->
  StronglySorted (fun u v => up_UpdateID u < up_UpdateID v) (from o q).
Proof.
  unfold from. induction 1 as [|u q Hs IH Hf]; [constructor|]. rewrite filter_cons. destruct (base.decide _); [|done].
  constructor; [done|]. apply Forall_forall. intros v [_ Hv]%list_elem_of_filter. by apply (proj1 (Forall_forall _ _) Hf).
Qed.

(** What remains behind the last update of a prefix. *)
Lemma from_behind o q pre u rest : StronglySorted (fun u v => up_UpdateID u < up_UpdateID v) q ->
  from o q = pre ++ u :: rest -> from (up_UpdateID u + 1) q = rest.
Proof.
  intros Hs E. pose proof (sorted_from o q Hs) as H. rewrite E in H.
  assert (Ho : o <= up_UpdateID u).
  { assert (Hu : u ∈ from o q) by (rewrite E; set_solver). by apply list_elem_of_filter in Hu as [? _]. }
  assert (E' : from (up_UpdateID u + 1) q = from (up_UpdateID u + 1) (from o q)).
  { symmetry. apply list_filter_filter_l. intros v. lia. }
  rewrite E', E. unfold from. rewrite filter_app, filter_cons_False, filter_none, filter_all; [done|..|lia].
  - apply StronglySorted_app_1_r, StronglySorted_inv in H as [_ H]. eapply Forall_impl; [exact H|]. cbn. lia.
  - apply Forall_forall. intros v Hv. pose proof (StronglySorted_app_1_elem_of _ _ _ v u H Hv ltac:(left)). cbn in *. lia.
Qed.

(** The interface, as it is documented: it has a queue of updates in ascending order, and
    answers with some that come first from the offset on, or with a refusal, or not at
    all; an answer fits the size limit, and nothing else processes updates. *)
Section Queue.
Context (q : list Update).
Hypothesis queue_sorted : StronglySorted (fun u v => up_UpdateID u < up_UpdateID v) q.
Hypothesis queue_ok : Forall (fun u => update_ok u = true /\ 0 <= up_UpdateID u < int64_max) q.
Hypothesis arrive_ok : forall us x, map ar_update (arrive us x).1 = us.
Hypothesis interface_ok : forall o x,
  match (get (getUpdatesURL o) x).1 with
  | Err _ => True
  | Ok body =>
    Z.of_nat (String.length body) <= cf_MaxBodyBytes cfg /\
    ((exists k more, foreign more /\ Forall (fun m => shallow 50 m.2) more /\
        body = write_json (answer_doc more (take k (from o q)))) \/
     exists description, body = write_json (refusal_doc description))
  end.

Lemma from_ok o : forallb update_ok (from o q) = true.
Proof.
  apply forallb_forall. intros u [_ Hu]%list_elem_of_In%list_elem_of_filter.
  by apply (proj1 (Forall_forall _ _) queue_ok) in Hu as [? _].
Qed.

Lemma refusal_is_refused description :
  exists e, Decode answer_fields (mkGetUpdates false [] "") (write_json (refusal_doc description)) = Some (mkGetUpdates false [] e).
Proof.
  unfold refusal_doc. rewrite (shallow_is_decoded _ _ 1); [| |lia].
  - cbn -[to_valid]. by eexists.
  - apply shallow_object. members.
Qed.

Lemma take_ok k o : forallb update_ok (take k (from o q)) = true.
Proof.
  pose proof (from_ok o) as Hq. rewrite <- (take_drop k (from o q)), forallb_app in Hq. by apply andb_true_iff in Hq as [? _].
Qed.

Lemma getUpdates_takes st x updates x' : getUpdates st x = (Ok updates, x') -> exists k, updates = take k (from (a_offset st) q).
Proof.
  unfold getUpdates. pose proof (interface_ok (a_offset st) x) as H.
  destruct (get (getUpdatesURL (a_offset st)) x) as [[body|e] x1]; cbn [fst] in H; [|done].
  destruct H as [Hl H]. intros [= E _]. unfold read_answer in E. rewrite str_take_all in E by lia.
  destruct H as [(k & more & Hm & Hs & ->)|(description & ->)].
  - rewrite answer_is_read in E by (done || apply take_ok). injection E as <-. by exists k.
  - destruct (refusal_is_refused description) as [e He]. by rewrite He in E.
Qed.

(** A batch of the queue's updates advances it by those that were looked at. *)
Lemma batch_advances k batch st : map ar_update batch = take k (from (a_offset st) q) ->
  from (a_offset st) q = looked_at batch st ++ from (a_offset (processBatch batch st).2) q.
Proof.
  intros Hb. destruct (looked_at_spec batch st) as (rest & E & Ho). rewrite Hb in E.
  pose proof (take_drop k (from (a_offset st) q)) as F. rewrite E, <- app_assoc in F.
  destruct (last (looked_at batch st)) as [u|] eqn:El.
  - apply last_Some in El as [pre El]. rewrite El in F |- *. rewrite <- app_assoc in F.
    assert (Hu : 0 <= up_UpdateID u < int64_max).
    { assert (Hin : u ∈ from (a_offset st) q) by (rewrite <- F; set_solver). apply list_elem_of_filter in Hin as [_ Hin].
      by apply (proj1 (Forall_forall _ _) queue_ok) in Hin as [_ ?]. }
    rewrite Ho, wrap64_small by (unfold int64_min, int64_max in *; lia).
    rewrite (from_behind _ _ _ _ _ queue_sorted (eq_sym F)). by rewrite <- app_assoc, F.
  - apply last_None in El. by rewrite Ho, El.
Qed.

Lemma run_advances n st x : let '(_, st', _) := live_Next n st x in
  from (a_offset st) q = seen n st x ++ from (a_offset st') q.
Proof.
  revert st x. induction n as [|n IH]; intros st x; cbn [live_Next seen]; [done|].
  destruct (getUpdates st x) as [[updates|e] x1] eqn:Eg.
  - apply getUpdates_takes in Eg as [k ->]. pose proof (arrive_ok (take k (from (a_offset st) q)) x1) as Ha.
    destruct (arrive _ x1) as [batch x2]. pose proof (batch_advances k batch st Ha) as Hb.
    destruct (processBatch batch st) as [[m|] st1]; cbn [snd] in Hb; [by rewrite app_nil_r|].
    destruct (back_off x2) as [[|] x3]; [|by rewrite app_nil_r]. specialize (IH st1 x3).
    destruct (live_Next n st1 x3) as [[r st'] x']. by rewrite Hb at 1; rewrite IH, app_assoc.
  - destruct (back_off x1) as [[|] x3]; [apply IH|done].
Qed.

(** The interface answers every request, with at least one update if there is one. *)
Definition prompt : Prop := forall o x, exists k more,
  foreign more /\ Forall (fun m => shallow 50 m.2) more /\
  (get (getUpdatesURL o) x).1 = Ok (write_json (answer_doc more (take (S k) (from o q)))).

Lemma run_looks n st x : prompt -> from (a_offset st) q <> [] -> seen (S n) st x <> [].
Proof.
  intros Hp Hne. destruct (Hp (a_offset st) x) as (k & more & Hm & Hs & E). cbn [seen]. unfold getUpdates.
  pose proof (interface_ok (a_offset st) x) as H. rewrite E in H. destruct H as [Hl _].
  destruct (get (getUpdatesURL (a_offset st)) x) as [r x1]. cbn [fst] in E. subst r.
  unfold read_answer. rewrite str_take_all, answer_is_read by (done || lia || apply take_ok).
  cbn [gu_OK gu_Result]. pose proof (arrive_ok (take (S k) (from (a_offset st) q)) x1) as Ha.
  destruct (arrive _ x1) as [batch x2]. cbn [fst] in Ha.
  destruct (from (a_offset st) q) as [|u us]; [done|]. destruct batch as [|a batch]; [done|]. by cbn [looked_at app].
Qed.

End Queue.
End Polling.

(** ** An interface *)

Definition demo_queue : list Update :=
  [mkUpdate 7 (Some (mkTMessage 1 "hello" (Some 42) (Some 42) None)); mkUpdate 9 None;
   mkUpdate 12 (Some (mkTMessage 3 "status" (Some 1) (Some 1) (Some (mkTMessage 1 "hello" None (Some 42) None))))].
Definition demo_more : list (string * json) := [("date", int 1700000000); ("first_name", JString "Ada")].
Definition demo_offset (url : string) : Z :=
  default 0 (parse_digits (span_digits (str_drop (String.length "http://t/bot1:a/getUpdates?offset=") url)).1).
Definition demo_get (url : string) (x : unit) : result string string * unit :=
  (Ok (write_json (answer_doc demo_more (take 2 (from (demo_offset url) demo_queue)))), x).

Lemma span_digits_before s : str_forall is_digit s = true -> span_digits (s +:+ "&timeout=30") = (s, "&timeout=30").
Proof. induction s as [|c s IH]; cbn [str_forall]; [done|]. rewrite str_app_cons. cbn [span_digits]. intros [-> H]%andb_true_iff. by rewrite IH. Qed.

Lemma demo_offset_url o : demo_offset (getUpdatesURL "http://t" "1:a" o) = Z.max 0 o.
Proof.
  unfold demo_offset, getUpdatesURL.
  change ("http://t" +:+ "/bot" +:+ "1:a" +:+ "/getUpdates?offset=" +:+ FormatInt o +:+ "&timeout=30")
    with ("http://t/bot1:a/getUpdates?offset=" +:+ FormatInt o +:+ "&timeout=30").
  rewrite str_drop_app. unfold FormatInt. destruct (Z.ltb_spec o 0) as [Ho|Ho]; [by rewrite Z.max_l by lia|].
  rewrite span_digits_before by (by apply format_nonneg_digits). cbn [fst]. rewrite parse_format_nonneg by done. by rewrite Z.max_r.
Qed.

Lemma from_ext o o' q : Forall (fun u => o <= up_UpdateID u <-> o' <= up_UpdateID u) q -> from o q = from o' q.
Proof.
  unfold from. induction 1 as [|u q H _ IH]; [done|]. rewrite !filter_cons.
  destruct (base.decide (o <= _)), (base.decide (o' <= _)); [by f_equal | tauto | tauto | done].
Qed.
Lemma demo_from o : exists o', o' ∈ [0; 8; 10; 13] /\ from (Z.max 0 o) demo_queue = from o' demo_queue /\ from o demo_queue = from o' demo_queue.
Proof.
  assert (H : exists o', o' ∈ [0; 8; 10; 13] /\ forall i, i ∈ [7; 9; 12] -> (Z.max 0 o <= i <-> o' <= i) /\ (o <= i <-> o' <= i)).
  { destruct (Z.le_gt_cases o 7); [exists 0|destruct (Z.le_gt_cases o 9); [exists 8|destruct (Z.le_gt_cases o 12); [exists 10|exists 13]]];
      (split; [set_solver|]); intros i Hi; repeat (apply elem_of_cons in Hi as [->|Hi]; [lia|]); by apply not_elem_of_nil in Hi. }
  destruct H as (o' & Ho & H). exists o'. split; [done|].
  split; apply from_ext; unfold demo_queue; repeat constructor; apply H; set_solver.
Qed.

Lemma demo_more_ok : foreign demo_more /\ Forall (fun m => shallow 50 m.2) demo_more.
Proof.
  split; unfold demo_more; repeat constructor; cbn; try done; try (by vm_compute); apply number_text_FormatInt.
Qed.

Lemma demo_answers o x :
  (demo_get (getUpdatesURL "http://t" "1:a" o) x).1 = Ok (write_json (answer_doc demo_more (take 2 (from o demo_queue)))) /\
  Z.of_nat (String.length (write_json (answer_doc demo_more (take 2 (from o demo_queue))))) <= 4 * 1024 * 1024.
Proof.
  unfold demo_get. rewrite demo_offset_url. destruct (demo_from o) as (o' & Ho & -> & ->). split; [done|].
  repeat (apply elem_of_cons in Ho as [->|Ho]; [vm_compute; discriminate|]). by apply not_elem_of_nil in Ho.
Qed.

