(* ===== verification/ChatClient.v ===== *)
(** * The chat client ([internal/executor/ollamaclient/client.go])

    The request for a chat with its tools, the exchange, and the reading of the answer;
    and the tools that are offered ([ToolSchemas] of [executor/ollamatoolset/toolset.go]).
    The arguments of a tool call are raw JSON: they are kept byte by byte when they are
    read ([chat_returns_the_models_message]), and compacted when they are sent back
    ([conversation_is_sent_as_it_is]). The exchange is a parameter. *)

From stdpp Require Import base gmap strings list sorting.
From Stdlib Require Import ZArith Lia Ascii.
From S2P Require Import Prelude GoStrings Encoding Json JsonWriter Seams Paths OSFiles Toolset OllamaNative.

Local Open Scope Z_scope.

(** ** The tools *)

(** [ToolFunction]; a [Tool] is always of the type function. *)
Record ToolFunction := mkToolFunction { tf_Name : string; tf_Description : string; tf_Parameters : json }.

(** A Go map is written in the order of its keys. *)
Definition go_map (ms : list (string * json)) : json := JObject (sort_by (fun a b => String.ltb a.1 b.1) ms).
Definition string_property (description : string) : json :=
  go_map [("type", JString "string"); ("description", JString description)].
Definition parameters (properties : list (string * json)) (required : list string) : json :=
  go_map [("type", JString "object"); ("properties", go_map properties); ("required", strings required)].

(** [ToolSchemas]. *)
Definition ToolSchemas : list ToolFunction :=
  [mkToolFunction "write_file"
     "Write content to a file at the given path (relative to the worktree). Creates parent directories as needed."
     (parameters [("path", string_property "File path relative to the worktree");
                  ("content", string_property "Content to write to the file")] ["path"; "content"]);
   mkToolFunction "read_file" "Read and return the content of a file at the given path (relative to the worktree)."
     (parameters [("path", string_property "File path relative to the worktree")] ["path"]);
   mkToolFunction "list_dir" "List the entries in a directory at the given path (relative to the worktree)."
     (parameters [("path", string_property "Directory path relative to the worktree")] ["path"]);
   mkToolFunction "run_command" "Run an allowed command in the worktree (allowed: git, go, gofmt, golangci-lint)."
     (parameters
        [("command", string_property "The command to run (must be in the allowlist)");
         ("args", go_map [("type", JString "array"); ("items", go_map [("type", JString "string")]);
                          ("description", JString "Arguments to pass to the command")])] ["command"]);
   mkToolFunction "finish_branch" "Record the produced branch name for extraction by the loop."
     (parameters [("branch", string_property "The branch name to record")] ["branch"])].

Definition tool_json (t : ToolFunction) : json :=
  JObject [("type", JString "function");
           ("function", JObject [("name", JString (tf_Name t)); ("description", JString (tf_Description t)); ("parameters", tf_Parameters t)])].

(** ** The request *)

(** Where [json.Compact] stands: outside of strings, in one, behind a backslash in one. *)
Inductive Place := Outside | Inside | Escaped.
Definition step (p : Place) (c : ascii) : Place :=
  match p with
  | Outside => if Ascii.eqb c dquote then Inside else Outside
  | Inside => if Ascii.eqb c dquote then Outside else if Ascii.eqb c bslash then Escaped else Inside
  | Escaped => Inside
  end.
Definition html_unsafe (c : ascii) : bool := is_byte 60 c || is_byte 62 c || is_byte 38 c.

(** [appendCompact] with the escaping of HTML: white space outside of strings is dropped,
    and [<], [>], [&] and the line separators are escaped; [skip] bytes of a separator
    remain to be passed over. *)
Fixpoint compact (p : Place) (skip : nat) (s : string) : string :=
  match s with
  | "" => ""
  | String c s' =>
    match skip with
    | S k => compact p k s'
    | O =>
      if html_unsafe c then esc_u ("00" +:+ String (hex_digit (byte_of c / 16)) (String (hex_digit (byte_of c mod 16)) "")) +:+ compact (step p c) 0 s'
      else match line_separator s with
      | Some u => esc_u u +:+ compact p 2 s'
      | None =>
        match p with
        | Outside => if json_space c then compact Outside 0 s' else String c (compact (step Outside c) 0 s')
        | _ => String c (compact (step p c) 0 s')
        end
      end
    end
  end.

(** A string field that is left out when empty. *)
Definition nonempty (name s : string) : list (string * string) := if String.eqb s "" then [] else [(name, json_string s)].

(** [ToolCall]: raw arguments must be JSON; none at all are null. *)
Definition call_text (c : ToolCall) : option string :=
  let call args := object_text [("function", object_text [("name", json_string (tc_Name c)); ("arguments", args)])] in
  if String.eqb (tc_Arguments c) "" then Some (call "null")
  else match parse_json (tc_Arguments c) with Some _ => Some (call (compact Outside 0 (tc_Arguments c))) | None => None end.

(** [Message]. *)
Definition message_text (m : ChatMessage) : option string :=
  match mapM call_text (ch_ToolCalls m) with
  | None => None
  | Some calls =>
    Some (object_text ([("role", json_string (ch_Role m))] ++ nonempty "content" (ch_Content m) ++
      match calls with [] => [] | _ => [("tool_calls", array_text calls)] end ++ nonempty "name" (ch_Name m)))
  end.

(** [json.Marshal] of the [ChatRequest] with its tools. *)
Definition request_text (tools : list ToolFunction) (req : ChatRequest) : option string :=
  match mapM message_text (cr_Messages req) with
  | None => None
  | Some messages =>
    Some (object_text ([("model", json_string (cr_Model req)); ("messages", array_text messages)] ++
      match tools with [] => [] | _ => [("tools", array_text (map (fun t => write_json (tool_json t)) tools))] end ++
      [("stream", if cr_Stream req then "true" else "false")]))
  end.

(** ** The response *)

(** The next value of a text, as it is written, and what follows it. *)
Definition raw_value (s : string) : option (string * string) :=
  let s := skip_ws s in
  match read_value (2 * String.length s + 2) maxNestingDepth s with
  | Some (_, r) => Some (str_take (String.length s - String.length r) s, r)
  | None => None
  end.

(** The members of an object and the elements of an array, as they are written. *)
Fixpoint raw_members_from (fuel : nat) (s : string) : option (list (string * string)) :=
  match fuel with
  | O => None
  | S fuel =>
    match skip_ws s with
    | "" => None
    | String q s =>
      if negb (Ascii.eqb q dquote) then None
      else match read_string 0 s with
      | None => None
      | Some (name, r) =>
        match skip_ws r with
        | "" => None
        | String colon r =>
          match raw_value r with
          | None => None
          | Some (t, r) =>
            match skip_ws r with
            | String c r => if Ascii.eqb c "," then cons (name, t) <$> raw_members_from fuel r else Some [(name, t)]
            | "" => None
            end
          end
        end
      end
    end
  end.
Fixpoint raw_items_from (fuel : nat) (s : string) : option (list string) :=
  match fuel with
  | O => None
  | S fuel =>
    match raw_value s with
    | None => None
    | Some (t, r) =>
      match skip_ws r with
      | String c r => if Ascii.eqb c "," then cons t <$> raw_items_from fuel r else Some [t]
      | "" => None
      end
    end
  end.

(** A struct from the text of an object, and a slice from that of an array; null leaves
    the struct as it is and clears the slice. *)
Definition raw_struct {R} (fs : list (Member string R)) (t : string) (old : R) : option R :=
  match parse_json t with
  | Some JNull => Some old
  | Some (JObject []) => Some old
  | Some (JObject _) => match raw_members_from (String.length t) (str_drop 1 (skip_ws t)) with
                        | Some ms => store_members fs ms old | None => None end
  | _ => None
  end.
Definition raw_slice {R} (store : string -> R -> option R) (zero : R) (t : string) (old : list R) : option (list R) :=
  match parse_json t with
  | Some JNull => Some []
  | Some (JArray []) => Some []
  | Some (JArray _) => match raw_items_from (String.length t) (str_drop 1 (skip_ws t)) with
                       | Some ts => store_elements store zero ts old | None => None end
  | _ => None
  end.
Definition raw_string {R} (set : string -> R -> R) (t : string) (r : R) : option R :=
  match parse_json t with Some v => store_string set v r | None => None end.

(** [ToolCallFunction] (its arguments are the raw text), [ToolCall], [Message] and
    [ChatResponse]. *)
Definition function_fields : list (Member string ToolCall) :=
  [("name", raw_string (fun s c => mkToolCall s (tc_Arguments c))); ("arguments", fun t c => Some (mkToolCall (tc_Name c) t))].
Definition call_fields : list (Member string ToolCall) := [("function", raw_struct function_fields)].
Definition zero_call : ToolCall := mkToolCall "" "".
Definition zero_message : ChatMessage := mkChatMessage "" "" [] "".
Definition chat_message_fields : list (Member string ChatMessage) :=
  [("role", raw_string (fun s m => mkChatMessage s (ch_Content m) (ch_ToolCalls m) (ch_Name m)));
   ("content", raw_string (fun s m => mkChatMessage (ch_Role m) s (ch_ToolCalls m) (ch_Name m)));
   ("tool_calls", fun t m => match raw_slice (raw_struct call_fields) zero_call t (ch_ToolCalls m) with
      | Some calls => Some (mkChatMessage (ch_Role m) (ch_Content m) calls (ch_Name m)) | None => None end);
   ("name", raw_string (fun s m => mkChatMessage (ch_Role m) (ch_Content m) (ch_ToolCalls m) s))].
Definition chat_response_fields : list (Member string ChatMessage) := [("message", raw_struct chat_message_fields)].

(** [decoder.Decode]: the first value of the body. *)
Definition decode_response (body : string) : option ChatMessage :=
  match raw_value body with Some (t, _) => raw_struct chat_response_fields t zero_message | None => None end.

(** ** The exchange *)

(** The status and the body, as far as it could be read. *)
Record HttpResponse := mkHttpResponse { hr_StatusCode : Z; hr_Body : string; hr_broken : bool }.

Inductive ChatFail :=
| CMarshal
| CCreate (err : string)
| CContext (e : ChatErr)
| CSend (err : string)
| CStatusUnread (code : Z)
| CStatus (code : Z) (body : string)
| CDecode.

Section Chat.
(** The client: its address; [http.NewRequest]'s error for a URL; the exchange; the
    context's error. *)
Context {X : Type} (baseURL : string) (url_error : string -> option string)
        (post : string -> string -> X -> result string HttpResponse * X) (ctx_err : X -> option ChatErr).

(** [Chat]. *)
Definition Chat (tools : list ToolFunction) (req : ChatRequest) (x : X) : result ChatFail ChatMessage * X :=
  match request_text tools req with
  | None => (Err CMarshal, x)
  | Some reqBody =>
    let url := baseURL +:+ "/api/chat" in
    match url_error url with
    | Some e => (Err (CCreate e), x)
    | None =>
      let '(resp, x) := post url reqBody x in
      (match resp with
       | Err e => match ctx_err x with Some c => Err (CContext c) | None => Err (CSend e) end
       | Ok resp =>
         if negb (hr_StatusCode resp =? 200) then
           if hr_broken resp then Err (CStatusUnread (hr_StatusCode resp))
           else Err (CStatus (hr_StatusCode resp)
                       (if (256 <? String.length (hr_Body resp))%nat then str_take 256 (hr_Body resp) +:+ "..." else hr_Body resp))
         else match decode_response (hr_Body resp) with Some m => Ok m | None => Err CDecode end
       end, x)
    end
  end.
End Chat.

(** What the loop of [OllamaNative] sees of it; the texts of the JSON errors are a
    parameter. *)
Definition as_ChatErr (json_error : string) (e : ChatFail) : ChatErr :=
  match e with
  | CContext c => c
  | CMarshal => ChatOther ("marshal request: " +:+ json_error)
  | CCreate e => ChatOther ("create request: " +:+ e)
  | CSend e => ChatOther ("send request: " +:+ e)
  | CStatusUnread code => ChatOther ("HTTP " +:+ FormatInt code +:+ ": failed to read error body")
  | CStatus code body => ChatOther ("HTTP " +:+ FormatInt code +:+ ": " +:+ body)
  | CDecode => ChatOther ("decode response: " +:+ json_error)
  end.

(** ** Reading raw text *)

Lemma renders_le : (forall d v t, renders d v t -> forall d', (d <= d')%nat -> renders d' v t) /\
  (forall d vs t, items_text d vs t -> forall d', (d <= d')%nat -> items_text d' vs t) /\
  (forall d ms t, members_text d ms t -> forall d', (d <= d')%nat -> members_text d' ms t).
Proof.
  apply json_text_ind; intros; try (destruct d' as [|d']; [lia|]); econstructor; eauto; match goal with H : forall d', _ -> _ |- _ => apply H; lia end.
Qed.

(** Texts of values that nest no deeper than the reader allows. *)
Definition is_text (v : json) (t : string) : Prop := renders 90 v t.
Lemma text_deep v t : is_text v t -> renders maxNestingDepth v t.
Proof. intros H. apply (proj1 renders_le _ _ _ H). apply Nat.leb_le. vm_compute. reflexivity. Qed.

Lemma text_is_parsed v t : is_text v t -> parse_json t = Some v.
Proof. intros H%text_deep. rewrite <- (str_app_nil_r t). by apply (parse_renders "" _ _ ""). Qed.

Lemma raw_value_text v t rest : is_text v t -> delimited rest = true -> raw_value (t +:+ rest) = Some (t, rest).
Proof.
  intros H%text_deep Hd. pose proof (renders_opens _ _ _ H) as O. unfold raw_value.
  pose proof (skip_ws_opens "" t rest eq_refl O) as Es. change ("" +:+ ?x) with x in Es. rewrite Es.
  rewrite (proj1 texts_are_read _ _ _ H) by (rewrite ?str_length_app; done || lia).
  rewrite str_length_app. replace (_ + _ - _)%nat with (String.length t) by lia. by rewrite str_take_app.
Qed.

Lemma skip_ws_head c s : json_space c = false -> skip_ws (String c s) = String c s.
Proof. intros H. by apply (skip_ws_app "" c s). Qed.

Lemma raw_members_text fuel vs ts : ts <> [] -> Forall2 is_text vs (map snd ts) -> (length ts <= fuel)%nat ->
  raw_members_from fuel (Join "," (map member_text ts) +:+ "}") = Some (map (fun m => (to_valid m.1, m.2)) ts).
Proof.
  intros Hne H. revert fuel vs H. induction ts as [|[k t] ts IH]; intros fuel vs H Hf; [done|].
  destruct fuel as [|fuel]; [by apply Nat.nle_succ_0 in Hf|]. cbn [length] in Hf. cbn [map snd] in H.
  apply Forall2_cons_inv_r in H as (v & vs' & Hv & H & ->).
  assert (E : forall rest, delimited rest = true ->
    raw_members_from (S fuel) (member_text (k, t) +:+ rest) =
      match skip_ws rest with
      | String c r => if Ascii.eqb c "," then cons (to_valid k, t) <$> raw_members_from fuel r else Some [(to_valid k, t)]
      | "" => None
      end).
  { intros rest Hd. unfold member_text, json_string. cbn [fst snd raw_members_from]. rewrite !str_app_cons, !str_app_assoc.
    rewrite skip_ws_head by done. cbn [negb]. rewrite Ascii.eqb_refl. cbn [negb].
    rewrite (str_app_cons dquote), (read_string_body (to_valid k)) by apply json_body_denotes.
    change ("" +:+ ?x) with x. rewrite (str_app_cons ":"). change ("" +:+ ?x) with x.
    rewrite skip_ws_head by done. by rewrite (raw_value_text v t rest). }
  destruct ts as [|m ts].
  - cbn [map Join]. by rewrite E.
  - change (Join "," (map member_text ((k, t) :: m :: ts))) with (member_text (k, t) +:+ "," +:+ Join "," (map member_text (m :: ts))).
    rewrite !str_app_assoc, E by done. rewrite (str_app_cons ","). change ("" +:+ ?x) with x. rewrite skip_ws_head by done.
    rewrite Ascii.eqb_refl. by rewrite (IH ltac:(done) fuel vs') by (done || (cbn [length] in *; lia)).
Qed.

Lemma raw_items_text fuel vs ts : ts <> [] -> Forall2 is_text vs ts -> (length ts <= fuel)%nat ->
  raw_items_from fuel (Join "," ts +:+ "]") = Some ts.
Proof.
  intros Hne H. revert fuel Hne. induction H as [|v t vs ts Hv H IH]; intros fuel Hne Hf; [done|].
  destruct fuel as [|fuel]; [by apply Nat.nle_succ_0 in Hf|]. cbn [length] in Hf. destruct ts as [|t' ts].
  - cbn [Join raw_items_from]. by rewrite (raw_value_text v t "]").
  - change (Join "," (t :: t' :: ts)) with (t +:+ "," +:+ Join "," (t' :: ts)). rewrite !str_app_assoc. cbn [raw_items_from].
    rewrite (raw_value_text v t) by done. rewrite (str_app_cons ","). change ("" +:+ ?x) with x. rewrite skip_ws_head by done.
    rewrite Ascii.eqb_refl. by rewrite IH by (done || (cbn [length] in *; lia)).
Qed.

Lemma join_length (ts : list string) : Forall (fun t => t <> "") ts -> (length ts <= String.length (Join "," ts))%nat.
Proof.
  induction 1 as [|t ts Ht _ IH]; [done|]. destruct t as [|c t]; [done|]. destruct ts as [|t' ts]; [cbn; lia|].
  change (Join "," (String c t :: t' :: ts)) with (String c t +:+ "," +:+ Join "," (t' :: ts)).
  rewrite !str_length_app. cbn [length String.length] in *. lia.
Qed.

(** A struct and a slice from texts that nest one level less. *)
Lemma texts_le d vs ts : (d <= 90)%nat -> Forall2 (renders d) vs ts -> Forall2 is_text vs ts.
Proof. intros Hd H. eapply Forall2_impl; [exact H|]. intros v t Hv. by apply (proj1 renders_le _ _ _ Hv). Qed.
Lemma text_le d v t : renders d v t -> (d <= 90)%nat -> is_text v t.
Proof. intros H. by apply (proj1 renders_le _ _ _ H). Qed.

Lemma object_texts d vs (ts : list (string * string)) : Forall2 (renders d) vs (map snd ts) ->
  renders (S d) (JObject (zip (map (fun m => to_valid m.1) ts) vs)) (object_text ts).
Proof.
  intros H. apply object_renders. revert vs H. induction ts as [|[k t] ts IH]; intros vs H; [by apply Forall2_nil_inv_r in H as ->|].
  apply Forall2_cons_inv_r in H as (v & vs' & Hv & H & ->). constructor; [done|by apply IH].
Qed.

Lemma raw_struct_text {R} (fs : list (Member string R)) d vs ts old : (d < 90)%nat -> Forall2 (renders d) vs (map snd ts) ->
  raw_struct fs (object_text ts) old = store_members fs (map (fun m => (to_valid m.1, m.2)) ts) old.
Proof.
  intros Hd H. unfold raw_struct. rewrite (text_is_parsed _ _ (text_le _ _ _ (object_texts d vs ts H) Hd)).
  destruct ts as [|m ts]; [by destruct vs|]. destruct vs as [|v vs]; [by apply Forall2_nil_cons_inv in H|]. cbn [map zip].
  unfold object_text. rewrite (str_app_cons "{"). change ("" +:+ ?x) with x. rewrite skip_ws_head by done. cbn [str_drop].
  rewrite (raw_members_text _ (v :: vs)); [done..|by apply (texts_le d); [lia|]|].
  cbn [String.length]. rewrite !str_length_app, <- (length_map member_text). pose proof (join_length (map member_text (m :: ts))) as L.
  refine (Nat.le_trans _ _ _ (L _) _); [|lia]. apply Forall_map, Forall_true. by intros [k t].
Qed.

Lemma raw_struct_ascii {R} (fs : list (Member string R)) d vs ts old : (d < 90)%nat -> Forall (fun m => is_ascii m.1 = true) ts ->
  Forall2 (renders d) vs (map snd ts) -> raw_struct fs (object_text ts) old = store_members fs ts old.
Proof.
  intros Hd Ha H. rewrite (raw_struct_text _ d vs) by done. f_equal. clear H. induction Ha as [|[k t] ts Hk _ IH]; [done|].
  cbn [map fst snd]. by rewrite to_valid_ascii, IH.
Qed.

Lemma raw_slice_text {R} (store : string -> R -> option R) zero d vs ts old : (d < 90)%nat -> Forall2 (renders d) vs ts ->
  raw_slice store zero (array_text ts) old = store_elements store zero ts old.
Proof.
  intros Hd H. unfold raw_slice. rewrite (text_is_parsed _ _ (text_le _ _ _ (array_renders d vs ts H) Hd)).
  destruct H as [|v t vs ts Hv H]; [done|]. unfold array_text. rewrite (str_app_cons "["). change ("" +:+ ?x) with x.
  rewrite skip_ws_head by done. cbn [str_drop].
  assert (H' : Forall2 (renders d) (v :: vs) (t :: ts)) by by constructor.
  rewrite (raw_items_text _ (v :: vs)); [done..|by apply (texts_le d); [lia|]|].
  cbn [String.length]. rewrite !str_length_app. pose proof (join_length (t :: ts)) as L. refine (Nat.le_trans _ _ _ (L _) _); [|lia].
  clear -H'. remember (v :: vs) as l. remember (t :: ts) as l'. clear Heql Heql'. induction H' as [|? ? ? ? Hv]; constructor; [|done].
  apply renders_opens in Hv as (c & t' & -> & _). done.
Qed.

Lemma raw_string_text {R} (set : string -> R -> R) s r : to_valid s = s -> raw_string set (json_string s) r = Some (set s r).
Proof.
  intros H. unfold raw_string. rewrite (text_is_parsed (JString s)); [done|]. unfold json_string.
  rewrite <- H at 1. apply R_string, json_body_denotes.
Qed.

(** ** The message of the model *)

(** A message as a server writes it: the arguments of its tool calls are any JSON text. *)
Definition call_doc (c : ToolCall) : string :=
  object_text [("function", object_text [("name", json_string (tc_Name c)); ("arguments", tc_Arguments c)])].
Definition message_doc (m : ChatMessage) : string :=
  object_text ([("role", json_string (ch_Role m)); ("content", json_string (ch_Content m))] ++
    match ch_ToolCalls m with [] => [] | calls => [("tool_calls", array_text (map call_doc calls))] end ++ nonempty "name" (ch_Name m)).
Definition call_ok (c : ToolCall) : Prop := to_valid (tc_Name c) = tc_Name c /\ exists v, renders 80 v (tc_Arguments c).
Definition chat_message_ok (m : ChatMessage) : Prop :=
  to_valid (ch_Role m) = ch_Role m /\ to_valid (ch_Content m) = ch_Content m /\ to_valid (ch_Name m) = ch_Name m /\
  Forall call_ok (ch_ToolCalls m).

(** The other members of the answer. *)
Definition beside (ms : list (string * string)) : Prop :=
  Forall (fun m => is_ascii m.1 = true /\ fold_name m.1 <> "MESSAGE" /\ exists v, renders 80 v m.2) ms.

Lemma string_renders d s : renders d (JString (to_valid s)) (json_string s).
Proof. apply R_string, json_body_denotes. Qed.

Ltac texts := repeat apply Forall2_cons_2; try apply Forall2_nil_2; cbn [snd]; try apply string_renders; try eassumption.

Definition function_doc (c : ToolCall) : list (string * string) :=
  [("name", json_string (tc_Name c)); ("arguments", tc_Arguments c)].
Lemma function_renders c : call_ok c -> exists vs, Forall2 (renders 80) vs (map snd (function_doc c)).
Proof. intros [_ [v Hv]]. eexists. texts. Qed.
Lemma call_renders c : call_ok c -> exists w v, renders 81 w (object_text (function_doc c)) /\ renders 82 v (call_doc c).
Proof.
  intros [vs Hv]%function_renders. exists (JObject (zip (map (fun m => to_valid m.1) (function_doc c)) vs)). eexists.
  assert (H : renders 81 (JObject (zip (map (fun m => to_valid m.1) (function_doc c)) vs)) (object_text (function_doc c))) by by apply object_texts.
  split; [exact H|]. eapply (object_texts 81). texts.
Qed.

Lemma call_is_read c : call_ok c -> raw_struct call_fields (call_doc c) zero_call = Some c.
Proof.
  intros Hc. destruct (call_renders c Hc) as (w & _ & Hw & _). destruct (function_renders c Hc) as [vs Hv]. destruct Hc as [Hn _].
  unfold call_doc. change [("name", json_string (tc_Name c)); ("arguments", tc_Arguments c)] with (function_doc c).
  rewrite (raw_struct_ascii _ 81 [w]); [|lia|by repeat constructor|texts].
  cbn -[raw_struct object_text json_string function_doc]. rewrite (raw_struct_ascii _ 80 vs); [|lia|by repeat constructor|done].
  cbn -[raw_string json_string]. rewrite raw_string_text by done. by destruct c.
Qed.

Lemma calls_are_read calls : Forall call_ok calls -> store_elements (raw_struct call_fields) zero_call (map call_doc calls) [] = Some calls.
Proof. induction 1 as [|c calls Hc _ IH]; [done|]. cbn [map store_elements head tail default]. by rewrite call_is_read, IH. Qed.

Lemma calls_render calls : Forall call_ok calls -> exists vs, Forall2 (renders 82) vs (map call_doc calls).
Proof.
  induction 1 as [|c calls Hc _ [vs IH]]; [by exists []|]. destruct (call_renders c Hc) as (_ & v & _ & Hv). exists (v :: vs). by constructor.
Qed.

Lemma chat_message_is_read m : chat_message_ok m ->
  raw_struct chat_message_fields (message_doc m) zero_message = Some m /\ exists v, renders 84 v (message_doc m).
Proof.
  intros (Hr & Hc & Hn & Hcalls). destruct m as [role content calls name]. cbn [ch_Role ch_Content ch_Name ch_ToolCalls] in *.
  unfold message_doc. cbn [ch_Role ch_Content ch_Name ch_ToolCalls]. destruct (calls_render calls Hcalls) as [cvs Hcvs].
  pose proof (calls_are_read calls Hcalls) as Hread.
  set (ts := [("role", json_string role); ("content", json_string content)] ++ _ ++ _).
  assert (H : exists vs, Forall2 (renders 83) vs (map snd ts)).
  { unfold ts, nonempty. destruct calls as [|c calls], (String.eqb name ""); eexists; texts; by apply (array_renders 82). }
  destruct H as [vs H]. split; [|eexists; by apply (object_texts 83 vs)].
  rewrite (raw_struct_ascii _ 83 vs); [|lia| |done].
  - assert (Hslice : forall cs, raw_slice (raw_struct call_fields) zero_call (array_text (map call_doc calls)) cs = store_elements (raw_struct call_fields) zero_call (map call_doc calls) cs)
      by (intros cs; apply (raw_slice_text _ _ 82 cvs); [lia|exact Hcvs]).
    unfold ts, nonempty. destruct calls as [|c calls], (String.eqb_spec name "") as [->|Hne];
      cbn -[raw_string json_string raw_slice array_text raw_struct call_doc zero_message store_elements map]; unfold zero_message;
      repeat (rewrite raw_string_text by done; cbn -[raw_string json_string raw_slice array_text raw_struct call_doc store_elements map]);
      rewrite ?Hslice, ?Hread; try done; cbn -[raw_string json_string]; by rewrite raw_string_text.
  - unfold ts, nonempty. destruct calls, (String.eqb name ""); by repeat constructor.
Qed.

(** An answer with status 200 is the message its document says, byte by byte in the
    arguments of its tool calls, whatever other members the document has and whatever
    follows it. *)
Theorem chat_returns_the_models_message {X} baseURL url_error (post : string -> string -> X -> result string HttpResponse * X) ctx_err
  tools req m before after rest broken body x x' :
  chat_message_ok m -> beside before -> beside after -> url_error (baseURL +:+ "/api/chat") = None ->
  request_text tools req = Some body ->
  post (baseURL +:+ "/api/chat") body x =
    (Ok (mkHttpResponse 200 (object_text (before ++ [("message", message_doc m)] ++ after) +:+ String nl rest) broken), x') ->
  Chat baseURL url_error post ctx_err tools req x = (Ok m, x').
Proof.
  intros Hm Hb Ha Hu Hreq Hp. unfold Chat. rewrite Hreq, Hu, Hp. cbn [hr_StatusCode hr_Body Z.eqb negb].
  destruct (chat_message_is_read m Hm) as [Hread [v Hv]].
  assert (Hbs : forall ms, beside ms -> exists vs, Forall2 (renders 84) vs (map snd ms)).
  { intros ms H. induction H as [|[k t] ms (_ & _ & w & Hw) _ [vs IH]]; [by exists []|]. exists (w :: vs). constructor; [|done].
    apply (proj1 renders_le _ _ _ Hw). lia. }
  destruct (Hbs _ Hb) as [vb Hvb], (Hbs _ Ha) as [va Hva].
  assert (Hall : Forall2 (renders 84) (vb ++ [v] ++ va) (map snd (before ++ [("message", message_doc m)] ++ after))).
  { rewrite !map_app. repeat apply Forall2_app; [done| |done]. by constructor. }
  unfold decode_response. rewrite (raw_value_text _ _ (String nl rest) (text_le _ _ _ (object_texts 84 _ _ Hall) ltac:(lia))) by done.
  rewrite (raw_struct_ascii _ 84 (vb ++ [v] ++ va)) by (done || lia || (rewrite !Forall_app; split_and!; [|by repeat constructor|];
    (eapply Forall_impl; [eassumption|]); by intros ? [? _])).
  assert (Hf : forall ms r, beside ms -> store_members chat_response_fields ms r = Some r).
  { intros ms r H. apply store_foreign. eapply Forall_impl; [exact H|]. intros k (_ & Hk & _). constructor; [|constructor].
    cbn [fst]. by intros E; apply Hk; rewrite <- E. }
  rewrite store_members_app, Hf by done. rewrite store_members_app. cbn -[store_members raw_struct message_doc].
  cbn [store_members]. cbn -[store_members raw_struct message_doc]. rewrite Hread. cbn [store_members]. by rewrite Hf.
Qed.

(** ** Compaction *)

(** A byte that is copied wherever it is. *)
Definition copied (c : ascii) : bool := negb (html_unsafe c || is_byte 0xE2 c).

Lemma no_separator c s : is_byte 0xE2 c = false -> line_separator (String c s) = None.
Proof. intros H. unfold line_separator. destruct s as [|b [|d s]]; [done..|]. by rewrite H. Qed.
Lemma copy_inside p c s : copied c = true -> p <> Outside -> compact p 0 (String c s) = String c (compact (step p c) 0 s).
Proof.
  intros [H1 H2]%negb_true_iff%orb_false_iff Hp. cbn [compact]. rewrite H1, no_separator by done. by destruct p.
Qed.
Lemma copy_outside c s : copied c = true -> json_space c = false -> compact Outside 0 (String c s) = String c (compact (step Outside c) 0 s).
Proof. intros [H1 H2]%negb_true_iff%orb_false_iff Hs. cbn [compact]. by rewrite H1, no_separator, Hs by done. Qed.

Lemma compact_spaces w s : spaces w = true -> compact Outside 0 (w +:+ s) = compact Outside 0 s.
Proof.
  unfold spaces. induction w as [|c w IH]; cbn [str_forall]; [done|]. intros [Hc H]%andb_true_iff. rewrite str_app_cons. cbn [compact].
  assert (Hn : html_unsafe c = false /\ is_byte 0xE2 c = false).
  { unfold json_space, html_unsafe, is_byte in *. repeat (apply orb_true_iff in Hc as [Hc|Hc]); apply Z.eqb_eq in Hc; by rewrite Hc. }
  destruct Hn as [-> Hn]. rewrite no_separator, Hc by done. by apply IH.
Qed.

(** Text that is copied outside of strings. *)
Definition token_char (c : ascii) : bool := copied c && negb (json_space c || Ascii.eqb c dquote).
Lemma compact_token t s : str_forall token_char t = true -> compact Outside 0 (t +:+ s) = t +:+ compact Outside 0 s.
Proof.
  induction t as [|c t IH]; cbn [str_forall]; [done|]. intros [[Hc [Hs Hq]%negb_true_iff%orb_false_iff]%andb_true_iff H]%andb_true_iff.
  rewrite !str_app_cons, copy_outside by done. cbn [step]. by rewrite Hq, IH.
Qed.

Lemma digit_token c : is_digit c = true -> token_char c = true.
Proof.
  intros H. assert (Hc : in_range 48 57 c = true) by exact H. unfold in_range in Hc. apply andb_true_iff in Hc as [H1 H2].
  apply Z.leb_le in H1, H2. unfold token_char, copied, html_unsafe, json_space, is_byte.
  repeat (rewrite (proj2 (Z.eqb_neq (byte_of c) _)) by lia). cbn. apply negb_true_iff, Ascii.eqb_neq. intros ->. by vm_compute in H.
Qed.
Lemma span_token s : str_forall token_char (span_digits s).1 = true.
Proof.
  induction s as [|c s IH]; [done|]. cbn [span_digits]. destruct (is_digit c) eqn:E; [|done].
  destruct (span_digits s) as [d r]. cbn [fst str_forall] in *. by rewrite digit_token.
Qed.
Lemma digits1_token s d r : digits1 s = Some (d, r) -> str_forall token_char d = true.
Proof. unfold digits1. pose proof (span_token s) as H. destruct (span_digits s) as [d' r']. destruct (String.eqb d' ""); [done|]. by intros [= <- _]. Qed.
Lemma glue_token p q d r : str_forall token_char p = true -> (forall d r, q = Some (d, r) -> str_forall token_char d = true) ->
  glue p q = Some (d, r) -> str_forall token_char d = true.
Proof. intros Hp Hq. destruct q as [[d' r']|]; [|done]. intros [= <- _]. rewrite str_forall_app, Hp. by apply (Hq d' r'). Qed.
Lemma number_token l : number_text l -> str_forall token_char l = true.
Proof.
  unfold number_text, read_number. destruct (match l with String c s1 => _ | "" => _ end) as [sign s] eqn:Es.
  assert (Hsign : str_forall token_char sign = true).
  { destruct l as [|c l]; [by injection Es as <- _|]. destruct (Ascii.eqb c "-"); by injection Es as <- _. }
  destruct (read_int s) as [[i s1]|] eqn:Ei; [|done]. destruct (read_frac s1) as [[f s2]|] eqn:Ef; [|done].
  destruct (read_exp s2) as [[e s3]|] eqn:Ee; [|done]. intros [= <- _]. rewrite !str_forall_app, Hsign. cbn [andb].
  assert (Hi : str_forall token_char i = true).
  { unfold read_int in Ei. destruct s as [|c s]; [done|]. destruct (Ascii.eqb c "0"); [by injection Ei as <- _ | by eapply digits1_token]. }
  assert (Hf : str_forall token_char f = true).
  { unfold read_frac in Ef. destruct s1 as [|c s1]; [by injection Ef as <- _|]. destruct (Ascii.eqb c "."); [|by injection Ef as <- _].
    by eapply (glue_token "."); [| |exact Ef]; [|apply digits1_token]. }
  rewrite Hi, Hf. cbn [andb]. unfold read_exp in Ee. destruct s2 as [|c s2]; [by injection Ee as <- _|].
  destruct (Ascii.eqb_spec c "e") as [->|_]; [|destruct (Ascii.eqb_spec c "E") as [->|_]; [|by injection Ee as <- _]]; cbn [orb] in Ee;
    (destruct s2 as [|g s2]; [done|]); destruct (Ascii.eqb_spec g "+") as [->|_]; [| destruct (Ascii.eqb_spec g "-") as [->|_] | | destruct (Ascii.eqb_spec g "-") as [->|_]];
    cbn [orb] in Ee; (eapply glue_token; [| |exact Ee]; [done|apply digits1_token]).
Qed.

(** The bytes of a rune behind the first. *)
Lemma in_range_mono lo hi lo' hi' c : in_range lo' hi' c = true -> lo <= lo' -> hi' <= hi -> in_range lo hi c = true.
Proof. unfold in_range. rewrite !andb_true_iff, !Z.leb_le. lia. Qed.
Lemma is_byte_range n lo hi c : is_byte n c = true -> lo <= n -> n <= hi -> in_range lo hi c = true.
Proof. unfold in_range, is_byte. rewrite !andb_true_iff, !Z.leb_le, Z.eqb_eq. lia. Qed.
Lemma rune_tail r : (2 <= String.length r)%nat -> rune_len r = String.length r ->
  exists a t, r = String a t /\ in_range 0xC2 0xF4 a = true /\ str_forall (in_range 0x80 0xBF) t = true.
Proof.
  destruct r as [|a [|b r]]; [cbn; lia..|]. intros _ H. exists a, (String b r). split; [done|]. revert H. unfold rune_len.
  destruct (in_range 0xC2 0xDF a) eqn:E1; [|destruct r as [|c r]; [done|]; destruct (is_byte 0xE0 a) eqn:E2; [|destruct (is_byte 0xED a) eqn:E3;
    [|destruct (in_range 0xE1 0xEF a) eqn:E4; [|destruct r as [|d r]; [done|]; destruct (is_byte 0xF0 a) eqn:E5;
    [|destruct (in_range 0xF1 0xF3 a) eqn:E6; [|destruct (is_byte 0xF4 a) eqn:E7; [|done]]]]]]];
    match goal with |- context [if ?b then _ else _] => destruct b eqn:Eb; [|done] end;
    destruct r; try (cbn [String.length]; lia); intros _; rewrite ?andb_true_iff in Eb; destruct_and?;
    (split; [by (eapply in_range_mono; [eassumption|lia..]) || (eapply is_byte_range; [eassumption|lia..])|]);
    cbn [str_forall]; rewrite ?andb_true_r, ?andb_true_iff; split_and?; (eapply in_range_mono; [eassumption|lia..]).
Qed.

(** A string between its quotes. *)
Lemma high_not_byte c n : in_range 0 127 c = true -> 127 < n -> is_byte n c = false.
Proof. unfold in_range, is_byte. rewrite andb_true_iff, !Z.leb_le, Z.eqb_neq. lia. Qed.
Lemma high_inside c s : in_range 0x80 0xBF c = true -> compact Inside 0 (String c s) = String c (compact Inside 0 s).
Proof.
  intros H. assert (Hc : copied c = true /\ Ascii.eqb c dquote = false /\ Ascii.eqb c bslash = false).
  { unfold in_range in H. apply andb_true_iff in H as [H1 H2]. apply Z.leb_le in H1, H2. unfold copied, html_unsafe, is_byte.
    repeat (rewrite (proj2 (Z.eqb_neq (byte_of c) _)) by lia). split_and!; [done|..]; apply Ascii.eqb_neq; intros ->; by vm_compute in H1. }
  destruct Hc as (Hc & Hq & Hb). rewrite copy_inside by done. cbn [step]. by rewrite Hq, Hb.
Qed.
Lemma high_tail t s : str_forall (in_range 0x80 0xBF) t = true -> compact Inside 0 (t +:+ s) = t +:+ compact Inside 0 s.
Proof.
  induction t as [|c t IH]; cbn [str_forall]; [done|]. intros [Hc H]%andb_true_iff. by rewrite !str_app_cons, high_inside, IH.
Qed.
Lemma compact_skip p t s : compact p (String.length t) (t +:+ s) = compact p 0 s.
Proof. induction t as [|c t IH]; [done|exact IH]. Qed.

Lemma high_plain a : in_range 0xC2 0xF4 a = true -> Ascii.eqb a dquote = false /\ Ascii.eqb a bslash = false.
Proof. intros H. split; apply Ascii.eqb_neq; intros ->; by vm_compute in H. Qed.

(** Whether a rune is a separator does not depend on what follows it. *)
Lemma separator_same a tl s s' : (2 <= String.length (String a tl))%nat -> rune_len (String a tl) = String.length (String a tl) ->
  line_separator (String a (tl +:+ s')) = line_separator (String a (tl +:+ s)).
Proof.
  intros H2 Hr. destruct (is_byte 0xE2 a) eqn:Ea; [|by rewrite !no_separator].
  unfold is_byte in Ea. apply Z.eqb_eq in Ea. destruct tl as [|b [|c [|d tl]]]; [cbn in H2; lia| |done|]; exfalso; revert Hr;
    unfold rune_len, in_range, is_byte; rewrite Ea; simpl; repeat (destruct (_ && _)); simpl; try congruence.
Qed.

(** Escapes are copied. *)
Lemma hex_copied c n : hex_value c = Some n -> copied c = true /\ Ascii.eqb c dquote = false /\ Ascii.eqb c bslash = false.
Proof.
  intros H. destruct c as [[] [] [] [] [] [] [] []]; try discriminate H; done.
Qed.
Lemma copy_hex c n s : hex_value c = Some n -> compact Inside 0 (String c s) = String c (compact Inside 0 s).
Proof. intros (Hc & Hq & Hb)%hex_copied. rewrite copy_inside by done. cbn [step]. by rewrite Hq, Hb. Qed.
Lemma copy_bslash e s : copied e = true -> compact Inside 0 (String bslash (String e s)) = String bslash (String e (compact Inside 0 s)).
Proof. intros H. rewrite copy_inside by done. change (step Inside bslash) with Escaped. by rewrite copy_inside by done. Qed.
Lemma copy_u a b c d r s : hex4 a b c d = Some r ->
  compact Inside 0 (String bslash (String "u" (String a (String b (String c (String d s)))))) =
  String bslash (String "u" (String a (String b (String c (String d (compact Inside 0 s)))))).
Proof.
  unfold hex4. destruct (hex_value a) eqn:Ea, (hex_value b) eqn:Eb, (hex_value c) eqn:Ec, (hex_value d) eqn:Ed; try done. intros _.
  rewrite copy_bslash by done. by erewrite !copy_hex by eassumption.
Qed.
Lemma unescape_copied e c : unescape e = Some c -> copied e = true.
Proof.
  unfold unescape. intros H. destruct (Ascii.eqb_spec e dquote) as [->|]; [done|]. destruct (Ascii.eqb_spec e bslash) as [->|]; [done|].
  cbn [orb] in H. repeat match type of H with (if Ascii.eqb e ?x then _ else _) = _ => destruct (Ascii.eqb_spec e x) as [->|]; [done|] end. done.
Qed.

Lemma unsafe_escaped c s t : html_unsafe c = true -> string_body s t ->
  string_body (String c s) (esc_u ("00" +:+ String (hex_digit (byte_of c / 16)) (String (hex_digit (byte_of c mod 16)) "")) +:+ t).
Proof.
  intros H Hs. assert (Hc : c = byte_char 60 \/ c = byte_char 62 \/ c = byte_char 38).
  { unfold html_unsafe in H. repeat (apply orb_true_iff in H as [H|H]); apply is_byte_char in H; auto. }
  destruct Hc as [-> | [-> | ->]].
  - exact (SB_unicode "0" "0" "3" "c" 60 _ _ eq_refl eq_refl Hs).
  - exact (SB_unicode "0" "0" "3" "e" 62 _ _ eq_refl eq_refl Hs).
  - exact (SB_unicode "0" "0" "2" "6" 38 _ _ eq_refl eq_refl Hs).
Qed.

Lemma string_compacts s t : string_body s t -> exists t', string_body s t' /\
  forall rest, compact Inside 0 (t +:+ String dquote rest) = t' +:+ String dquote (compact Outside 0 rest).
Proof.
  induction 1 as [|c s t Hc _ (t' & Ht & H)|r s t H2 Hr _ (t' & Ht & H)|e c s t He _ (t' & Ht & H)|a b c d r s t Hh Hs _ (t' & Ht & H)
    |a b c d a' b' c' d' r1 r2 r s t H1 H2 Hs Hd _ (t' & Ht & H)].
  - exists "". split; [constructor|]. intros rest. change ("" +:+ ?x) with x. by rewrite copy_inside.
  - destruct (html_unsafe c) eqn:E.
    + eexists. split; [by apply unsafe_escaped|]. intros rest. rewrite str_app_cons. cbn [compact]. rewrite E.
      assert (Hp : step Inside c = Inside).
      { unfold string_char in Hc. apply andb_true_iff in Hc as [_ Hc]. apply negb_true_iff, orb_false_iff in Hc as [Hq Hb].
        cbn [step]. by rewrite Hq, Hb. }
      by rewrite Hp, H, str_app_assoc.
    + exists (String c t'). split; [by constructor|]. intros rest. apply string_char_spec in Hc as (Hq & Hb & _ & Ha).
      rewrite !str_app_cons, copy_inside; [|unfold copied; rewrite E; by rewrite (high_not_byte c)|done]. cbn [step]. by rewrite Hq, Hb, H.
  - destruct (line_separator (r +:+ t)) as [u|] eqn:El.
    + pose proof (separator_length _ _ _ H2 Hr El) as H3.
      destruct (separator_rune _ _ _ El H3) as (x1 & x2 & x3 & x4 & m & -> & Hm & Hs & He).
      exists (esc_u (String x1 (String x2 (String x3 (String x4 "")))) +:+ t'). split; [rewrite <- He; by apply SB_unicode|].
      intros rest. rewrite !str_app_assoc, <- H, <- (compact_skip Inside (str_drop 1 r)).
      destruct r as [|a [|b [|c [|]]]]; try done. cbn [str_drop String.length]. rewrite !str_app_cons. change ("" +:+ ?x) with x.
      cbn [compact]. rewrite !str_app_cons in El. change ("" +:+ ?x) with x in El.
      assert (Ea : html_unsafe a = false) by (unfold line_separator in El; destruct (is_byte 0xE2 a) eqn:Ea; [|done];
        apply is_byte_char in Ea as ->; done).
      rewrite Ea. unfold line_separator in El |- *. by rewrite El.
    + exists (r +:+ t'). split; [by apply SB_rune|]. intros rest. rewrite !str_app_assoc, <- H.
      destruct (rune_tail r H2 Hr) as (a & tl & -> & Ha & Htl). rewrite !str_app_cons. cbn [compact].
      assert (Hu : html_unsafe a = false).
      { unfold html_unsafe, is_byte. unfold in_range in Ha. apply andb_true_iff in Ha as [Ha _]. apply Z.leb_le in Ha.
        by rewrite !(proj2 (Z.eqb_neq (byte_of a) _)) by lia. }
      rewrite Hu, (separator_same a tl t) by done. rewrite str_app_cons in El. rewrite El. cbn [step].
      destruct (high_plain a Ha) as [-> ->]. by rewrite high_tail.
  - exists (String bslash (String e t')). split; [by apply SB_escape|]. intros rest. rewrite !str_app_cons.
    by rewrite copy_bslash, H by (by eapply unescape_copied).
  - eexists. split; [by eapply SB_unicode|]. intros rest. rewrite !str_app_cons. by erewrite copy_u, H.
  - eexists. split; [by apply (SB_pair a b c d a' b' c' d' r1 r2 r _ t')|]. intros rest. rewrite !str_app_cons. by erewrite !copy_u, H.
Qed.

(** Compaction drops white space and escapes; the value stays. *)
Definition value_compacts (d : nat) (v : json) (t : string) : Prop :=
  exists t', renders d v t' /\ forall rest, compact Outside 0 (t +:+ rest) = t' +:+ compact Outside 0 rest.
Definition items_compact (d : nat) (vs : list json) (t : string) : Prop :=
  exists t', items_text d vs t' /\ forall rest, compact Outside 0 (t +:+ rest) = t' +:+ compact Outside 0 rest.
Definition members_compact (d : nat) (ms : list (string * json)) (t : string) : Prop :=
  exists t', members_text d ms t' /\ forall rest, compact Outside 0 (t +:+ rest) = t' +:+ compact Outside 0 rest.

Lemma token_compacts d v t : renders d v t -> str_forall token_char t = true -> value_compacts d v t.
Proof. intros H Ht. exists t. split; [done|]. intros rest. by apply compact_token. Qed.

Lemma quoted_compacts s t : string_body s t -> exists t', string_body s t' /\
  forall rest, compact Outside 0 (in_quotes t +:+ rest) = in_quotes t' +:+ compact Outside 0 rest.
Proof.
  intros (t' & Ht & H)%string_compacts. exists t'. split; [done|]. intros rest. unfold in_quotes.
  rewrite str_app_cons, str_app_assoc, str_app_cons. change ("" +:+ ?x) with x. rewrite copy_outside by done.
  cbn [step]. rewrite Ascii.eqb_refl, H. by rewrite str_app_cons, str_app_assoc, str_app_cons.
Qed.

Lemma texts_compact :
  (forall d v t, renders d v t -> value_compacts d v t) /\
  (forall d vs t, items_text d vs t -> items_compact d vs t) /\
  (forall d ms t, members_text d ms t -> members_compact d ms t).
Proof.
  apply json_text_ind.
  - intros d. by apply token_compacts; [constructor|].
  - intros d. by apply token_compacts; [constructor|].
  - intros d. by apply token_compacts; [constructor|].
  - intros d l Hl. apply token_compacts; [by constructor|]. by apply number_token.
  - intros d s t H. apply quoted_compacts in H as (t' & Ht & H). exists (in_quotes t'). split; [by constructor|done].
  - intros d w Hw. exists "[]". split; [by apply (R_array0 d "")|]. intros rest.
    rewrite !str_app_assoc, (compact_token "["), compact_spaces, (compact_token "]") by done. done.
  - intros d vs t _ (t' & Ht & H). exists ("[" +:+ t' +:+ "]"). split; [by apply R_array|]. intros rest.
    by rewrite !str_app_assoc, (compact_token "["), H, (compact_token "]") by done.
  - intros d w Hw. exists "{}". split; [by apply (R_object0 d "")|]. intros rest.
    rewrite !str_app_assoc, (compact_token "{"), compact_spaces, (compact_token "}") by done. done.
  - intros d ms t _ (t' & Ht & H). exists ("{" +:+ t' +:+ "}"). split; [by apply R_object|]. intros rest.
    by rewrite !str_app_assoc, (compact_token "{"), H, (compact_token "}") by done.
  - intros d v w t w' Hw Hw' _ (t' & Ht & H). exists ("" +:+ t' +:+ ""). split; [by apply I_one|]. intros rest.
    rewrite !str_app_assoc, compact_spaces, H, compact_spaces by done. done.
  - intros d v vs w t w' u Hw Hw' _ (t' & Ht & H) _ (u' & Hu & Hr). exists ("" +:+ t' +:+ "" +:+ "," +:+ u'). split; [by apply I_cons|]. intros rest.
    rewrite !str_app_assoc, compact_spaces, H, compact_spaces, (compact_token ","), Hr by done. done.
  - intros d k kt v w w1 w2 t w3 Hw H1 H2 H3 (kt' & Hkt & Hk)%quoted_compacts _ (t' & Ht & H).
    exists ("" +:+ in_quotes kt' +:+ "" +:+ ":" +:+ "" +:+ t' +:+ ""). split; [by apply M_one|]. intros rest.
    rewrite !str_app_assoc, compact_spaces, Hk, compact_spaces, (compact_token ":"), compact_spaces, H, compact_spaces by done. done.
  - intros d k kt v ms w w1 w2 t w3 u Hw H1 H2 H3 (kt' & Hkt & Hk)%quoted_compacts _ (t' & Ht & H) _ (u' & Hu & Hr).
    exists ("" +:+ in_quotes kt' +:+ "" +:+ ":" +:+ "" +:+ t' +:+ "" +:+ "," +:+ u'). split; [by apply M_cons|]. intros rest.
    rewrite !str_app_assoc, compact_spaces, Hk, compact_spaces, (compact_token ":"), compact_spaces, H, compact_spaces, (compact_token ","), Hr by done. done.
Qed.

Lemma compact_keeps_the_value d v t : renders d v t -> renders d v (compact Outside 0 t).
Proof.
  intros H. destruct (proj1 texts_compact _ _ _ H) as (t' & Ht & E). specialize (E "").
  change (compact Outside 0 "") with "" in E. rewrite !str_app_nil_r in E. by rewrite E.
Qed.

(** ** The conversation that is sent *)

(** The JSON of a request: the arguments of a tool call are the value of their text. *)
Definition arguments_json (t : string) : json := default JNull (parse_json t).
Definition call_json (c : ToolCall) : json :=
  JObject [("function", JObject [("name", JString (to_valid (tc_Name c))); ("arguments", arguments_json (tc_Arguments c))])].
Definition nonempty_json (name s : string) : list (string * json) := if String.eqb s "" then [] else [(name, JString (to_valid s))].
Definition chat_message_json (m : ChatMessage) : json :=
  JObject ([("role", JString (to_valid (ch_Role m)))] ++ nonempty_json "content" (ch_Content m) ++
    match ch_ToolCalls m with [] => [] | calls => [("tool_calls", JArray (map call_json calls))] end ++ nonempty_json "name" (ch_Name m)).
Definition chat_request_json (tools : list ToolFunction) (req : ChatRequest) : json :=
  JObject ([("model", JString (to_valid (cr_Model req))); ("messages", JArray (map chat_message_json (cr_Messages req)))] ++
    match tools with [] => [] | _ => [("tools", JArray (map (fun t => valid_json (tool_json t)) tools))] end ++ [("stream", JBool (cr_Stream req))]).

(** Arguments that are JSON, or none. *)
Definition sendable (c : ToolCall) : Prop := tc_Arguments c = "" \/ exists v, renders 80 v (tc_Arguments c).

Lemma call_is_written c : sendable c -> exists t, call_text c = Some t /\ renders 82 (call_json c) t.
Proof.
  intros H. unfold call_text, call_json, arguments_json.
  assert (R : forall v t, renders 80 v t -> renders 82 (JObject [("function", JObject [("name", JString (to_valid (tc_Name c))); ("arguments", v)])])
    (object_text [("function", object_text [("name", json_string (tc_Name c)); ("arguments", t)])])).
  { intros v t Hv. apply object_renders. constructor; [|constructor]. split; [done|]. cbn [fst snd]. apply object_renders.
    constructor; [split; [done|apply string_renders]|]. constructor; [split; [done|exact Hv]|constructor]. }
  destruct H as [->|[v Hv]].
  - eexists. split; [reflexivity|]. apply R. constructor.
  - pose proof (text_is_parsed v _ (text_le _ _ _ Hv ltac:(lia))) as Ep. rewrite Ep. cbn [default].
    destruct (String.eqb_spec (tc_Arguments c) "") as [E|_]; [rewrite E in Ep; by vm_compute in Ep|].
    eexists. split; [reflexivity|]. by apply R, compact_keeps_the_value.
Qed.

(** A list of texts. *)
Lemma mapM_texts {A} (f : A -> option string) (g : A -> json) d l :
  (forall a, a ∈ l -> exists t, f a = Some t /\ renders d (g a) t) -> exists ts, mapM f l = Some ts /\ Forall2 (renders d) (map g l) ts.
Proof.
  induction l as [|a l IH]; intros H; [by exists []|]. destruct (H a ltac:(left)) as (t & Ht & Hr).
  destruct IH as (ts & Hts & Hrs); [intros b Hb; apply H; by right|]. exists (t :: ts). cbn. rewrite Ht. cbn. rewrite Hts. split; [done|by constructor].
Qed.

Lemma nonempty_written name s d : is_ascii name = true ->
  Forall2 (fun m t => m.1 = to_valid t.1 /\ renders d m.2 t.2) (nonempty_json name s) (nonempty name s).
Proof.
  intros Hn. unfold nonempty_json, nonempty. destruct (String.eqb s ""); constructor; [|constructor]. cbn [fst snd].
  rewrite to_valid_ascii by done. split; [done|apply string_renders].
Qed.

Lemma message_is_written m : Forall sendable (ch_ToolCalls m) -> exists t, message_text m = Some t /\ renders 84 (chat_message_json m) t.
Proof.
  intros H. unfold message_text, chat_message_json. destruct (mapM_texts call_text call_json 82 (ch_ToolCalls m)) as (ts & -> & Hts).
  { intros c Hc. apply call_is_written. by apply (proj1 (Forall_forall _ _) H). }
  eexists. split; [reflexivity|]. apply object_renders. repeat apply Forall2_app.
  - constructor; [split; [done|apply string_renders]|constructor].
  - by apply nonempty_written.
  - destruct (ch_ToolCalls m) as [|c cs]; [by apply Forall2_nil_inv_l in Hts as ->|]. destruct ts as [|t ts]; [by apply Forall2_nil_inv_r in Hts|].
    constructor; [|constructor]. split; [done|]. cbn [snd]. by apply array_renders.
  - by apply nonempty_written.
Qed.

(** What the server reads is the conversation, message by message; tool calls come back
    to it with the arguments it gave them. *)
Theorem conversation_is_sent_as_it_is tools req :
  Forall (fun t => shallow 80 (tf_Parameters t)) tools -> Forall (fun m => Forall sendable (ch_ToolCalls m)) (cr_Messages req) ->
  exists text, request_text tools req = Some text /\ parse_json text = Some (chat_request_json tools req).
Proof.
  intros Ht Hm. unfold request_text, chat_request_json.
  destruct (mapM_texts message_text chat_message_json 84 (cr_Messages req)) as (ts & -> & Hts).
  { intros m Hin. apply message_is_written. by apply (proj1 (Forall_forall _ _) Hm). }
  eexists. split; [reflexivity|]. apply text_is_parsed, (text_le 86); [|lia]. apply object_renders. repeat apply Forall2_app.
  - constructor; [split; [done|apply string_renders]|]. constructor; [|constructor]. split; [done|]. cbn [snd]. by apply array_renders.
  - assert (Hv : Forall2 (renders 84) (map (fun t => valid_json (tool_json t)) tools) (map (fun t => write_json (tool_json t)) tools)).
    { induction Ht as [|t tools Hs _ IH]; [constructor|]. constructor; [|exact IH].
      assert (Hd : shallow 82 (tool_json t)) by (apply shallow_object; members; apply shallow_object; members).
      destruct Hd as [Hd Hn]. apply write_renders; [lia|done]. }
    destruct tools as [|t tools]; constructor; [|constructor]. split; [done|]. cbn [snd]. by apply array_renders.
  - constructor; [|constructor]. split; [done|]. cbn [snd]. destruct (cr_Stream req); constructor.
Qed.

(** A chat gives a message only when the endpoint answered the request with status 200
    and a document of that message; the text of any other status is cut. *)
Theorem chat_gives_only_what_was_answered {X} baseURL url_error (post : string -> string -> X -> result string HttpResponse * X) ctx_err tools req x :
  match Chat baseURL url_error post ctx_err tools req x with
  | (Ok m, x') => exists body text broken, request_text tools req = Some body /\
      post (baseURL +:+ "/api/chat") body x = (Ok (mkHttpResponse 200 text broken), x') /\ decode_response text = Some m
  | (Err (CStatus code text), _) => code <> 200 /\ (String.length text <= 259)%nat
  | (Err CMarshal, x') | (Err (CCreate _), x') => x' = x
  | (Err (CContext c), x') => ctx_err x' = Some c
  | _ => True
  end.
Proof.
  unfold Chat. destruct (request_text tools req) as [body|] eqn:Er; [|done]. destruct (url_error _); [done|].
  destruct (post _ body x) as [[[code text broken]|e] x'] eqn:Ep; [|by destruct (ctx_err x') eqn:E].
  cbn [hr_StatusCode hr_Body hr_broken]. destruct (Z.eqb_spec code 200) as [->|Hc]; cbn [negb].
  - destruct (decode_response text) as [m|] eqn:E; [|done]. by exists body, text, broken.
  - destruct broken; [done|]. split; [done|]. destruct (Nat.ltb_spec 256 (String.length text)) as [H|H]; [|lia].
    rewrite str_length_app. cbn [String.length]. pose proof (str_take_le 256 text). lia.
Qed.

(** ** The tools are those that are dispatched *)

Lemma schemas_shallow : Forall (fun t => shallow 80 (tf_Parameters t)) ToolSchemas.
Proof. repeat constructor; vm_compute; repeat split; lia || reflexivity. Qed.

Definition known {A} (r : result ToolErr A) : Prop := match r with Err (TErrUnknown _) => False | _ => True end.
Lemma confinement_known ts path fs : known (checkPathConfinement ts path fs).
Proof. unfold checkPathConfinement. by repeat case_match. Qed.
Lemma arguments_known command args : match checkCommandArgs command args with Some e => known (A := unit) (Err e) | None => True end.
Proof. induction args as [|arg args IH]; cbn [checkCommandArgs]; [done|]. by destruct (refused_arg command arg). Qed.

Lemma tools_known {X} (h : Host X) ts args w :
  known (writeFile ts h args w).1 /\ known (readFile ts h args w) /\ known (listDir ts h args w) /\
  known (runCommand ts h args w).1 /\ known (finishBranch ts h args w).1.
Proof.
  split_and!.
  - unfold writeFile. destruct (ho_write_args h args) as [[path content]|]; [|done].
    pose proof (confinement_known ts path (tw_fs w)) as H. destruct (checkPathConfinement _ _ _) as [p|e]; [by repeat case_match | by destruct e].
  - unfold readFile. destruct (ho_path_args h args) as [path|]; [|done].
    pose proof (confinement_known ts path (tw_fs w)) as H. destruct (checkPathConfinement _ _ _) as [p|e]; [by repeat case_match | by destruct e].
  - unfold listDir. destruct (ho_path_args h args) as [path|]; [|done].
    pose proof (confinement_known ts path (tw_fs w)) as H. destruct (checkPathConfinement _ _ _) as [p|e]; [by repeat case_match | by destruct e].
  - unfold runCommand. destruct (ho_command_args h args) as [[command cargs]|]; [|done]. destruct (negb _); [done|].
    pose proof (arguments_known command cargs) as H. destruct (checkCommandArgs command cargs) as [e|]; [by destruct e|].
    by destruct (exec_command _ _ _) as [[output [e|]] w'].
  - unfold finishBranch. destruct (ho_branch_args h args) as [branch|]; [|done]. destruct (WriteFile _ _ _ _ _) as [[e|] fs]; done.
Qed.

(** The model is offered exactly the tools that are there: every other name, and none of
    the offered ones, is answered as unknown. *)
Theorem offered_tools_are_dispatched {X} (h : Host X) ts name args w :
  known (Dispatch ts h name args w).1 <-> name ∈ map tf_Name ToolSchemas.
Proof.
  destruct (tools_known h ts args w) as (H1 & H2 & H3 & H4 & H5). unfold ToolSchemas. cbn [map tf_Name]. unfold Dispatch. split.
  - repeat match goal with |- context [String.eqb name ?x] => destruct (String.eqb_spec name x) as [->|_]; [intros _; set_solver|] end. done.
  - intros Hin. by repeat (apply elem_of_cons in Hin as [->|Hin]; [done|]); apply not_elem_of_nil in Hin.
Qed.

(** ** A conversation *)

Definition demo_arguments : string :=
  "{" +:+ (" " +:+ in_quotes "path" +:+ "" +:+ ":" +:+ " " +:+ in_quotes "a.go" +:+ " ") +:+ "}".
Definition demo_answer : ChatMessage := mkChatMessage "assistant" "" [mkToolCall "read_file" demo_arguments] "".
Lemma demo_arguments_renders d : renders (S d) (JObject [("path", JString "a.go")]) demo_arguments.
Proof. apply R_object, M_one; try done; [apply plain_body; reflexivity | apply R_string, plain_body; reflexivity]. Qed.

Example arguments_are_compacted :
  compact Outside 0 demo_arguments = "{" +:+ in_quotes "path" +:+ ":" +:+ in_quotes "a.go" +:+ "}".
Proof. vm_compute. reflexivity. Qed.

Lemma chat_returns_the_models_message_witness :
  Chat "http://h" (fun _ => None) (fun _ _ x => (Ok (mkHttpResponse 200 (object_text ([("model", json_string "m")] ++
      [("message", message_doc demo_answer)] ++ [("done", "true")]) +:+ String nl "") false), x)) (fun _ => None)
    ToolSchemas (mkChatRequest "m" [mkChatMessage "user" "go" [] ""; demo_answer] false) tt = (Ok demo_answer, tt).
Proof.
  destruct (conversation_is_sent_as_it_is ToolSchemas (mkChatRequest "m" [mkChatMessage "user" "go" [] ""; demo_answer] false)) as (body & Hb & _).
  - apply schemas_shallow.
  - apply Forall_cons_2; [constructor|]. apply Forall_cons_2; [|constructor]. apply Forall_cons_2; [|constructor].
    right. eexists. apply (demo_arguments_renders 79).
  - eapply chat_returns_the_models_message; [| | |done|exact Hb|done].
    + split_and!; [by vm_compute..|]. apply Forall_cons_2; [|constructor]. split; [by vm_compute|]. eexists. apply (demo_arguments_renders 79).
    + apply Forall_cons_2; [|constructor]. split_and!; [done|by vm_compute|]. eexists. apply string_renders.
    + apply Forall_cons_2; [|constructor]. split_and!; [done|by vm_compute|]. eexists. constructor.
Defined.
