(* ===== verification/Cli.v ===== *)
(** * The command line

    [internal/cli/cli.go] and [cmd/agent-builder/main.go]: the flag sets, the dispatch on
    the subcommand, and the subcommands [version], [run], [verify] and
    [verify-checkpoint], with their output and exit codes. The other subcommands are the
    functions of [Daemon] and [Ask]. *)

From stdpp Require Import base gmap list strings.
From Stdlib Require Import ZArith Lia Ascii.
From S2P Require Import Prelude GoStrings Paths Gate AuditTrail.
Open Scope Z_scope.

Definition ExitOK : Z := 0.
Definition ExitGeneric : Z := 1.
Definition ExitUsage : Z := 2.

(** ** The flag package *)

Inductive FlagErr := FlagHelp | FlagBad (msg : string).

(** The name and the value of [name=value]; the first byte is part of the name. *)
Fixpoint cut_eq (s : string) : string * option string :=
  match s with
  | EmptyString => ("", None)
  | String c s => if Ascii.eqb c "="%char then ("", Some s) else let '(n, v) := cut_eq s in (String c n, v)
  end.
Definition split_flag (name : string) : string * option string :=
  match name with
  | EmptyString => ("", None)
  | String c s => let '(n, v) := cut_eq s in (String c n, v)
  end.

(** What stands after the minus signs of an argument; [None] is not a flag and [Some
    None] the terminator. *)
Definition flag_name (s : string) : option (option string) :=
  match s with
  | String "-" (String "-" EmptyString) => Some None
  | String "-" (String "-" s) => Some (Some s)
  | String "-" (String c s) => Some (Some (String c s))
  | _ => None
  end.

(** [FlagSet.Parse] of a set of string flags with [ContinueOnError]: the values in the
    order they are set, and the arguments left. *)
Fixpoint flag_Parse (names : list string) (args : list string) : result FlagErr (list (string * string) * list string) :=
  match args with
  | [] => Ok ([], [])
  | s :: rest =>
    match flag_name s with
    | None => Ok ([], args)
    | Some None => Ok ([], rest)
    | Some (Some name) =>
      if match name with EmptyString => true | String c _ => Ascii.eqb c "-"%char || Ascii.eqb c "="%char end
      then Err (FlagBad ("bad flag syntax: " +:+ s))
      else
        let '(n, v) := split_flag name in
        if bool_decide (n ∈ names) then
          match v with
          | Some v => let? p := flag_Parse names rest in Ok ((n, v) :: p.1, p.2)
          | None =>
            match rest with
            | v :: rest => let? p := flag_Parse names rest in Ok ((n, v) :: p.1, p.2)
            | [] => Err (FlagBad ("flag needs an argument: -" +:+ n))
            end
          end
        else if String.eqb n "help" || String.eqb n "h" then Err FlagHelp
        else Err (FlagBad ("flag provided but not defined: -" +:+ n))
    end
  end.

(** The value of a flag: the last one set, or empty. *)
Definition flag_value (name : string) (set : list (string * string)) : string :=
  default "" (last (omap (fun p => if String.eqb p.1 name then Some p.2 else None) set)).

(** ** Output *)

Inductive Stream := Stdout | Stderr.
Definition Output := list (Stream * string).

Definition writef (s : Stream) (text : string) : Output := [(s, text)].

(** The double quote. *)
Definition dq : string := String (ascii_of_N 34) "".

(** A line. *)
Definition line (text : string) : string := text +:+ String nl "".

Section Cli.
Context {X : Type}.
(** [strconv.Quote], the usage texts, and the collaborators of [Config]: [Run], the gate,
    and the world of [resolveAuditBin] and of the audit program. *)
Variables (quote : string -> string) (usageText versionUsageText runUsageText verifyUsageText verifyCheckpointUsageText : string).
Variables (Run : X -> option string * X) (GateVerify : string -> X -> Verdict * X)
          (Getenv : string -> string) (Stat : string -> X -> option string) (LookPath : string -> X -> result string string)
          (VerifyCheckpoint : string -> CheckpointVerifier -> X -> (CheckpointVerifyResult * option string) * X).
(** The subcommands modelled elsewhere. *)
Variables (runOrchestrate runDaemon runAsk : list string -> X -> Z * Output * X).
Variable Version : string.

(** [usage]. *)
Definition usage (err : string) : Z * Output := (ExitUsage, writef Stderr (line ("usage error: " +:+ err))).

(** The start that every subcommand shares: help, a bad flag, or the values. *)
Definition parse_flags {A} (names args : list string) (help : A) (bad : string -> A)
  (go : list (string * string) -> list string -> A) : A :=
  match flag_Parse names args with
  | Err FlagHelp => help
  | Err (FlagBad e) => bad e
  | Ok (set, rest) => go set rest
  end.

(** [runVersion]. *)
Definition runVersion (args : list string) (x : X) : Z * Output * X :=
  parse_flags [] args (ExitOK, writef Stdout versionUsageText, x) (fun e => (usage e, x))
    (fun _ rest => match rest with
                   | _ :: _ => (usage "version accepts no arguments", x)
                   | [] => (ExitOK, writef Stdout (line ("agent-builder " +:+ Version)), x)
                   end).

(** [runLoop]. *)
Definition runLoop (args : list string) (x : X) : Z * Output * X :=
  parse_flags [] args (ExitOK, writef Stdout runUsageText, x) (fun e => (usage e, x))
    (fun _ rest => match rest with
                   | _ :: _ => (usage "run accepts no arguments", x)
                   | [] => match Run x with
                           | (Some e, x) => (ExitGeneric, writef Stderr (line ("error: " +:+ e)), x)
                           | (None, x) => (ExitOK, [], x)
                           end
                   end).

(** The lines of one gate result. *)
Definition result_lines (r : StepResult) : Output :=
  writef Stdout (line ((if sr_OK r then "PASS" else "FAIL") +:+ " " +:+ sr_Name r)) ++
  (let output := TrimSpace (sr_Output r) in
   if String.eqb output "" then [] else writef Stdout (line output)).

(** [runVerify]. *)
Definition runVerify (args : list string) (x : X) : Z * Output * X :=
  parse_flags [] args (ExitOK, writef Stdout verifyUsageText, x) (fun e => (usage e, x))
    (fun _ rest => match rest with
                   | [repo] =>
                     let repoPath := Clean repo in
                     let '(verdict, x) := GateVerify repoPath x in
                     let out := concat (map result_lines (v_Results verdict)) in
                     if v_OK verdict
                     then (ExitOK, out ++ writef Stdout (line ("verification passed: " +:+ repoPath)), x)
                     else (ExitGeneric, out ++ writef Stderr (line ("verification failed: " +:+ repoPath)), x)
                   | _ => (usage "verify requires exactly one repo argument", x)
                   end).

(** [resolveAuditBin]. *)
Definition resolveAuditBin (x : X) : result string string :=
  let bin := Getenv "AGENT_BUILDER_AUDIT_BIN" in
  if negb (String.eqb bin "") then
    match Stat bin x with
    | Some e => Err ("AGENT_BUILDER_AUDIT_BIN=" +:+ quote bin +:+ ": " +:+ e)
    | None => Ok bin
    end
  else match LookPath "audit-trail" x with
       | Err e => Err ("audit-trail not found on PATH and AGENT_BUILDER_AUDIT_BIN not set: " +:+ e)
       | Ok bin => Ok bin
       end.

(** [runVerifyCheckpoint]. *)
Definition runVerifyCheckpoint (args : list string) (x : X) : Z * Output * X :=
  parse_flags ["checkpoint"; "public-key"; "logfile"] args (ExitOK, writef Stdout verifyCheckpointUsageText, x) (fun e => (usage e, x))
    (fun set rest =>
       let checkpointPath := flag_value "checkpoint" set in
       let publicKeyPath := flag_value "public-key" set in
       match rest with
       | _ :: _ => (usage "verify-checkpoint accepts no positional arguments", x)
       | [] =>
         if String.eqb checkpointPath "" then (usage "--checkpoint is required", x)
         else if String.eqb publicKeyPath "" then (usage "--public-key is required", x)
         else match resolveAuditBin x with
              | Err e => (usage ("audit binary resolution failed: " +:+ e), x)
              | Ok binPath =>
                let '((result, err), x) := VerifyCheckpoint binPath (mkCheckpointVerifier checkpointPath publicKeyPath (flag_value "logfile" set)) x in
                match err with
                | Some e => (ExitUsage, writef Stderr (line ("error: " +:+ e)), x)
                | None =>
                  let out b := writef Stdout (line ("{" +:+ dq +:+ "valid" +:+ dq +:+ ":" +:+ b +:+ "," +:+ dq +:+ "message" +:+ dq +:+ ":"
                                                   +:+ quote (cvr_Message result) +:+ "}")) in
                  if cvr_Valid result then (ExitOK, out "true", x) else (ExitGeneric, out "false", x)
                end
              end
       end).

(** [Main] after its defaults are set. *)
Definition Main (args : list string) (x : X) : Z * Output * X :=
  match args with
  | [] => (ExitUsage, writef Stderr usageText, x)
  | cmd :: rest =>
    if bool_decide (cmd ∈ ["-h"; "--help"; "help"]) then (ExitOK, writef Stdout usageText, x)
    else if String.eqb cmd "version" then runVersion rest x
    else if String.eqb cmd "run" then runLoop rest x
    else if String.eqb cmd "verify" then runVerify rest x
    else if String.eqb cmd "verify-checkpoint" then runVerifyCheckpoint rest x
    else if String.eqb cmd "orchestrate" then runOrchestrate rest x
    else if String.eqb cmd "daemon" then runDaemon rest x
    else if String.eqb cmd "ask" then runAsk rest x
    else (ExitUsage, writef Stderr (line ("usage error: unknown subcommand " +:+ quote cmd) +:+ String nl "") ++ writef Stderr usageText, x)
  end.
End Cli.

(** ** Flags *)

(** The ways to write a flag and its value. *)
Inductive Spelling := Joined (dashes : bool) | Apart (dashes : bool).

Definition spell (sp : Spelling) (name value : string) : list string :=
  let minus (two : bool) := if two then "--" else "-" in
  match sp with
  | Joined two => [minus two +:+ name +:+ "=" +:+ value]
  | Apart two => [minus two +:+ name; value]
  end.

(** The name of a flag: not empty, without an equals sign and not starting with a
    minus. *)
Definition plain_name (n : string) : bool :=
  match n with
  | EmptyString => false
  | String c s => negb (Ascii.eqb c "-"%char) && str_forall (fun c => negb (Ascii.eqb c "="%char)) n
  end.

Definition spelled (fs : list (Spelling * (string * string))) : list string :=
  concat (map (fun f => spell f.1 f.2.1 f.2.2) fs).

Lemma cut_eq_app n v : str_forall (fun c => negb (Ascii.eqb c "="%char)) n = true -> cut_eq (n +:+ String "="%char v) = (n, Some v).
Proof.
  induction n as [|c n IH]; intros H; [done|]. cbn [str_forall] in H. apply andb_true_iff in H as [C H].
  rewrite str_app_cons. cbn [cut_eq]. apply negb_true_iff in C. rewrite C, IH by done. done.
Qed.

Lemma cut_eq_none n : str_forall (fun c => negb (Ascii.eqb c "="%char)) n = true -> cut_eq n = (n, None).
Proof.
  induction n as [|c n IH]; intros H; [done|]. cbn [str_forall] in H. apply andb_true_iff in H as [C H].
  cbn [cut_eq]. apply negb_true_iff in C. rewrite C, IH by done. done.
Qed.

Lemma flag_name_minus (two : bool) c s :
  Ascii.eqb c "-"%char = false -> flag_name ((if two then "--" else "-") +:+ String c s) = Some (Some (String c s)).
Proof. intros H. destruct two; [done|]. by destruct c as [[] [] [] [] [] [] [] []]. Qed.

Lemma flag_step names sp n v rest :
  plain_name n = true -> n ∈ names ->
  flag_Parse names (spell sp n v ++ rest) = let? p := flag_Parse names rest in Ok ((n, v) :: p.1, p.2).
Proof.
  intros P M. destruct n as [|c n]; [done|]. cbn [plain_name] in P. apply andb_true_iff in P as [C P].
  apply negb_true_iff in C. cbn [str_forall] in P. apply andb_true_iff in P as [E P]. apply negb_true_iff in E.
  destruct sp as [two|two]; cbn [spell app flag_Parse].
  - change (String c n +:+ "=" +:+ v) with (String c (n +:+ String "="%char v)).
    rewrite flag_name_minus by done. rewrite C, E. cbn [orb split_flag]. rewrite cut_eq_app by done.
    by rewrite bool_decide_eq_true_2.
  - rewrite flag_name_minus by done. rewrite C, E. cbn [orb split_flag]. rewrite cut_eq_none by done.
    by rewrite bool_decide_eq_true_2.
Qed.

(** Whatever the order of the flags and the way each is written, parsing gives back their
    values and leaves the arguments after them. *)
Theorem flags_parse_back names fs rest :
  Forall (fun f => plain_name f.2.1 = true /\ f.2.1 ∈ names) fs ->
  match rest with [] => True | a :: _ => flag_name a = None end ->
  flag_Parse names (spelled fs ++ rest) = Ok (map snd fs, rest).
Proof.
  intros F R. induction F as [|[sp [n v]] fs [P M] F IH]; cbn [spelled map concat].
  - destruct rest as [|a rest]; [done|]. cbn [app flag_Parse]. by rewrite R.
  - rewrite <- app_assoc. unfold spelled in IH. cbn [fst snd] in *. rewrite flag_step by done. by rewrite IH.
Qed.

Lemma flags_parse_back_witness :
  flag_Parse ["checkpoint"; "public-key"; "logfile"] ["--public-key"; "k.pem"; "-checkpoint=c.json"; "rest"] =
    Ok ([("public-key", "k.pem"); ("checkpoint", "c.json")], ["rest"]).
Proof.
  apply (flags_parse_back ["checkpoint"; "public-key"; "logfile"]
    [(Apart true, ("public-key", "k.pem")); (Joined false, ("checkpoint", "c.json"))] ["rest"]); [|reflexivity].
  repeat constructor; vm_compute; reflexivity || (apply bool_decide_unpack; vm_compute; exact I).
Defined.
