(* ===== verification/Completers.v ===== *)
(** * Single-shot completions

    [internal/executor/completer.go], [claude_completer.go] and [agy_completer.go]: one
    prompt to the model behind a registry entry; and their users in [internal/cli]: the
    [ask] subcommand ([ask.go]), the answer route of the orchestrator
    ([orchestrate_answer.go]) and the resolver and invoker of the model-backed planner,
    analyzer and clarifier ([buildLLMSeams] of [orchestrate.go]). *)

From stdpp Require Import base gmap strings list.
From Stdlib Require Import ZArith Lia Ascii.
From S2P Require Import Prelude GoStrings Seams Paths OSFiles Publisher Registry Router RunConfig Vault Runtime Toolset OllamaNative.
From S2P Require Import Harness Executors Cli.

Local Open Scope Z_scope.

(** The completers with their fields. *)
Inductive Completer :=
| ollamaCompleter (endpoint : string)
| claudeCompleter (cliPath authToken oauthToken model baseURL : string)
| antigravityCompleter (cliPath modelID : string).

Inductive CompErr :=
| CErrBlankEndpoint (id : string)
| CErrBlankModel (id : string)
| CErrClient (e : string)
| CErrUnsupported (harness : string)
| CErrChat (e : ChatErr)
| CErrTempDir (cli e : string)
| CErrFailed (cli e output : string).

(** [ollamaclient.NewClient]. *)
Definition NewClient (baseURL : string) : result string string :=
  if blank baseURL then Err "blank base URL: baseURL must not be empty" else Ok baseURL.

Section Completers.
Context {X : Type}.
(** The subprocess, the temporary directory and the inherited environment, as in
    [Executors]; the chat endpoint of a client; the chained secret source. *)
Variable spawn : Command -> X -> ((string * string) * option string) * X.
Variable MkdirTemp : X -> result string string * X.
Variable RemoveAll : string -> X -> X.
Variable environ : list string.
Variable Chat : string -> ChatRequest -> X -> result ChatErr ChatMessage * X.
Variable chained : SecretSource X.

(** [newClaudeCompleter]. *)
Definition newClaudeCompleter (entry : RegistryEntry) (x : X) : Completer * X :=
  if blank (re_SecretRef entry)
  then (claudeCompleter "claude" "" "" (TrimSpace (re_ModelID entry)) (re_Endpoint entry), x)
  else let '((authToken, oauthToken), x) := ss_ProviderToken chained x in
       (claudeCompleter "claude" authToken oauthToken (TrimSpace (re_ModelID entry)) "", x).

(** [newAntigravityCompleter]. *)
Definition newAntigravityCompleter (entry : RegistryEntry) : Completer :=
  antigravityCompleter "agy" (TrimSpace (re_ModelID entry)).

(** [CompleterForEntry]. *)
Definition CompleterForEntry (entry : RegistryEntry) (x : X) : result CompErr Completer * X :=
  match re_Harness entry with
  | HarnessOllamaNative =>
    (if blank (re_Endpoint entry) then Err (CErrBlankEndpoint (re_ID entry))
     else if blank (re_ModelID entry) then Err (CErrBlankModel (re_ID entry))
     else match NewClient (re_Endpoint entry) with
          | Err e => Err (CErrClient e)
          | Ok client => Ok (ollamaCompleter client)
          end, x)
  | HarnessClaudeCLI => let '(c, x) := newClaudeCompleter entry x in (Ok c, x)
  | HarnessAntigravityCLI => (Ok (newAntigravityCompleter entry), x)
  | h => (Err (CErrUnsupported (HarnessDriver_String h)), x)
  end.

(** The commands of the two CLI completers in their temporary directory. *)
Definition claude_completion (cliPath authToken oauthToken model baseURL prompt runDir : string) : Command :=
  mkCommand cliPath (["-p"; prompt] ++ (if String.eqb model "" then [] else ["--model"; model])) runDir
    (Some (claudeEnv environ authToken oauthToken baseURL runDir)).
Definition agy_completion (cliPath modelID prompt runDir : string) : Command :=
  mkCommand cliPath ["--print"; prompt; "--model"; modelID] runDir (Some environ).

(** The run that both share: the directory is removed on every path. *)
Definition complete_cli (cli : string) (command : string -> Command) (tokens : list string) (x : X)
  : result CompErr string * X :=
  let '(dir, x) := MkdirTemp x in
  match dir with
  | Err e => (Err (CErrTempDir cli e), x)
  | Ok runDir =>
    let '(((stdout, stderr), err), x) := spawn (command runDir) x in
    (match err with
     | Some e => Err (CErrFailed cli e (sanitizeOutput stdout stderr tokens))
     | None => Ok (TrimSpace stdout)
     end, RemoveAll runDir x)
  end.

(** [Complete] of the three. *)
Definition Complete (c : Completer) (entry : RegistryEntry) (prompt : string) (x : X) : result CompErr string * X :=
  match c with
  | ollamaCompleter endpoint =>
    let '(r, x) := Chat endpoint (mkChatRequest (re_ModelID entry) [mkChatMessage "user" prompt [] ""] false) x in
    (match r with Err e => Err (CErrChat e) | Ok m => Ok (ch_Content m) end, x)
  | claudeCompleter cliPath authToken oauthToken model baseURL =>
    complete_cli cliPath (claude_completion cliPath authToken oauthToken model baseURL prompt) [authToken; oauthToken] x
  | antigravityCompleter cliPath modelID =>
    complete_cli cliPath (agy_completion cliPath modelID prompt) [] x
  end.

(** [CompleterForEntry] followed by [Complete], as the invoker, [ask] and the answerer
    call them. *)
Definition complete_entry (entry : RegistryEntry) (prompt : string) (x : X) : result CompErr string * X :=
  let '(c, x) := CompleterForEntry entry x in
  match c with Err e => (Err e, x) | Ok c => Complete c entry prompt x end.

(** ** Brains *)

Inductive BrainErr :=
| BErrRegistry (e : string)
| BErrCatalogPanic
| BErrUnknownEntry (id : string)
| BErrSelect (e : RouterErr)
| BErrComplete (e : CompErr).

(** The synthetic entry of the command line. *)
Definition defaultCLIClaudeEntryID : string := "claude-default".
Definition default_cli_entry : RegistryEntry :=
  mkEntry defaultCLIClaudeEntryID HarnessClaudeCLI 1 1 "" "" "" (mkQuotaBudget 0 0) 0
    (mkAvailability AvailStatusAvailable 0).

Section Brains.
(** [registry.LoadFromEnv], and the clock of the router at its first and at its second
    selection. *)
Variable loaded : result string (list RegistryEntry).
Variables now now_later : nat -> Z.

(** [buildBrainCatalog], and the catalog of [buildLLMSeams]. *)
Definition buildBrainCatalog : result BrainErr Catalog :=
  match loaded with
  | Err e => Err (BErrRegistry e)
  | Ok entries =>
    match register_all NewCatalog (match entries with [] => [default_cli_entry] | _ => entries end) with
    | Some c => Ok c
    | None => Err BErrCatalogPanic
    end
  end.

(** [router.New(cat).Select]; the catalog may have recovered entries. *)
Definition select_brain (now : nat -> Z) (cat : Catalog) (minCapability : Z) : result BrainErr RegistryEntry * Catalog :=
  let '(r, rt) := Select (mkRoutingSpec minCapability SensitivityNone) now (NewRouter cat) in
  (match r with Ok e => Ok e | Err e => Err (BErrSelect e) end, rt_catalog rt).

(** [selectAskEntry]. *)
Definition selectAskEntry (entryID : string) : result BrainErr RegistryEntry :=
  let? cat := buildBrainCatalog in
  if negb (String.eqb entryID "") then
    match LookupEntry cat entryID with Some e => Ok e | None => Err (BErrUnknownEntry entryID) end
  else (select_brain now cat 1).1.

(** [answerMinCapability] and [cliAnswerer.Answer], whose second selection reads the clock
    later. *)
Definition answerDefaultMinCapability : Z := 1.
Definition answerMinCapability (capabilityTier : Z) : Z :=
  if 0 <? capabilityTier then capabilityTier else answerDefaultMinCapability.

Definition answer_entry (capabilityTier : Z) : result BrainErr RegistryEntry :=
  let? cat := buildBrainCatalog in
  match select_brain now cat (answerMinCapability capabilityTier) with
  | (Ok e, _) => Ok e
  | (Err _, cat) => (select_brain now_later cat answerDefaultMinCapability).1
  end.

Definition Answer (prompt : string) (capabilityTier : Z) (x : X) : result BrainErr string * X :=
  match answer_entry capabilityTier with
  | Err e => (Err e, x)
  | Ok entry =>
    let '(r, x) := complete_entry entry prompt x in
    (match r with Err e => Err (BErrComplete e) | Ok a => Ok a end, x)
  end.

(** [routerResolverAdapter.Resolve]: the router lives as long as the planner, so it is
    part of the state; and the invoker of [buildLLMSeams]. *)
Definition seam_resolve (spec : RoutingSpec) (r : Router Catalog) : result RouterErr RegistryEntry * Router Catalog :=
  Select spec now r.
Definition seam_invoke (entry : RegistryEntry) (prompt : string) (x : X) : result CompErr string * X :=
  complete_entry entry prompt x.

(** [runAsk]; [showBrain] renders an error, [flagReport] is what the flag package prints
    for a bad flag or [-h]. *)
Definition runAsk (showBrain : BrainErr -> string) (flagReport : FlagErr -> string) (args : list string) (x : X)
  : Z * Output * X :=
  match flag_Parse ["entry"] args with
  | Err e => (ExitUsage, writef Stderr (flagReport e), x)
  | Ok (set, rest) =>
    let prompt := TrimSpace (Join " " rest) in
    if String.eqb prompt "" then (ExitUsage, writef Stderr (line "usage: agent-builder ask [--entry <id>] <prompt>"), x)
    else match selectAskEntry (flag_value "entry" set) with
    | Err e => (ExitUsage, writef Stderr (line ("ask: " +:+ showBrain e)), x)
    | Ok entry =>
      let '(r, x) := complete_entry entry prompt x in
      match r with
      | Err e => (ExitGeneric, writef Stderr (line ("ask: " +:+ showBrain (BErrComplete e))), x)
      | Ok answer => (ExitOK, writef Stdout (line (TrimSpace answer)), x)
      end
    end
  end.
End Brains.
End Completers.

(** ** The brain that answers *)

Lemma recover_all_available now i es :
  Forall (fun e => av_Status (re_Availability e) = AvailStatusAvailable) es -> recover_all now i es = es.
Proof.
  intros F. revert i. induction F as [|e es H F IH]; intros i; cbn [recover_all]; [done|]. rewrite IH. f_equal.
  unfold recovered. by rewrite H.
Qed.

(** [e] is the cheapest of [es] at a capability floor. *)
Definition cheapest_at (floor : Z) (es : list RegistryEntry) (e : RegistryEntry) : Prop :=
  e ∈ es /\ floor <= re_CapabilityTier e /\
  forall e', e' ∈ es -> floor <= re_CapabilityTier e' -> e' = e \/ less SensitivityNone e e' = true.

Lemma select_brain_spec now cat floor es :
  catalog_wf cat -> ListEntries cat = es ->
  Forall (fun e => av_Status (re_Availability e) = AvailStatusAvailable) es ->
  let '(r, cat') := select_brain now cat floor in
  catalog_wf cat' /\ ListEntries cat' = es /\
  match r with
  | Ok e => cheapest_at floor es e
  | Err _ => forall e, e ∈ es -> re_CapabilityTier e < floor
  end.
Proof.
  intros W L A. unfold select_brain.
  pose proof (Select_spec (mkRoutingSpec floor SensitivityNone) now (NewRouter cat) W) as S.
  destruct (Select _ now (NewRouter cat)) as [r rt]. destruct S as (W' & _ & _ & L' & S). cbn [rt_catalog NewRouter NewWithClock] in *.
  change (cl_list cat) with (ListEntries cat) in *. rewrite L, recover_all_available in * by done.
  split; [done|]. split; [done|].
  assert (E : forall e, e ∈ es -> eligible (mkRoutingSpec floor SensitivityNone) ∅ e = (floor <=? re_CapabilityTier e)).
  { intros e He. unfold eligible. rewrite Forall_forall in A. rewrite (bool_decide_eq_true_2 (_ = _)) by (by apply A).
    rewrite bool_decide_eq_false_2 by set_solver. cbn. by rewrite andb_true_r. }
  destruct r as [e|err].
  - destruct S as (He & El & B). rewrite E in El by done. apply Z.leb_le in El. split; [done|]. split; [done|].
    intros e' He' F. apply B; [done|]. rewrite E by done. by apply Z.leb_le.
  - destruct S as [_ S]. rewrite Forall_forall in S. intros e He. specialize (S e He). cbn in S.
    rewrite E in S by done. by apply Z.leb_gt.
Qed.

Definition brains (es : list RegistryEntry) : list RegistryEntry := match es with [] => [default_cli_entry] | _ => es end.

Lemma buildBrainCatalog_ok uni pd env order es :
  order ≡ₚ knownEntries -> LoadFromEnv uni pd env order = Ok es ->
  (exists cat, buildBrainCatalog (Ok es) = Ok cat /\ catalog_wf cat /\ ListEntries cat = brains es) /\
  Forall (fun e => av_Status (re_Availability e) = AvailStatusAvailable) (brains es).
Proof.
  intros Hp H. destruct (load_from_env_registers_without_panic uni pd env order es Hp H) as (c & R & W & L & F & _).
  unfold buildBrainCatalog. fold (brains es). destruct es as [|e es].
  - split; [|by repeat constructor]. eexists. split; [reflexivity|].
    destruct (register_all_ok NewCatalog [default_cli_entry] NewCatalog_wf (NoDup_singleton _)) as (c' & [= <-] & ?). done.
  - cbn [brains]. rewrite R. split; [by exists c|].
    eapply Forall_impl; [exact F|]. intros x ((_ & _ & _ & -> & _) & _). done.
Qed.

(** A goal is answered by the cheapest brain at the capability tier the analysis gave it;
    only when no brain is that capable, by the cheapest at the lowest tier; there is no
    answer only when no brain reaches even that. *)
Theorem answers_at_the_analysed_floor uni pd env order es now now_later tier :
  order ≡ₚ knownEntries -> LoadFromEnv uni pd env order = Ok es ->
  match answer_entry (Ok es) now now_later tier with
  | Ok e => cheapest_at (answerMinCapability tier) (brains es) e \/
            (forall e', e' ∈ brains es -> re_CapabilityTier e' < answerMinCapability tier) /\ cheapest_at 1 (brains es) e
  | Err err => forall e', e' ∈ brains es -> re_CapabilityTier e' < 1
  end.
Proof.
  intros Hp H. destruct (buildBrainCatalog_ok uni pd env order es Hp H) as [(cat & B & W & L) A].
  unfold answer_entry. rewrite B.
  pose proof (select_brain_spec now cat (answerMinCapability tier) _ W L A) as S.
  destruct (select_brain now cat _) as [[e|e0] cat']; destruct S as (W' & L' & S); [by left|].
  pose proof (select_brain_spec now_later cat' answerDefaultMinCapability _ W' L' A) as S'. cbn.
  destruct (select_brain now_later cat' _) as [[e|e1] cat'']; destruct S' as (_ & _ & S'); cbn; [by right|done].
Qed.

(** ** Credentials *)

Section Credentials.
Context {X : Type}.
Implicit Types (x : X).
Variable spawn : Command -> X -> ((string * string) * option string) * X.
Variable MkdirTemp : X -> result string string * X.
Variable RemoveAll : string -> X -> X.
Variable environ : list string.
Variable Chat : string -> ChatRequest -> X -> result ChatErr ChatMessage * X.
Variable chained : SecretSource X.

(** The credentials in the environment of a command. *)
Definition credentials (c : Command) : list string :=
  filter (fun e => sets_any claude_secrets e = true) (default [] (cm_Env c)).

Lemma no_flag w : HasPrefix w "-" = false -> flag_name w = None.
Proof. destruct w as [|c w]; [done|]. destruct c as [[] [] [] [] [] [] [] []]; try done. by destruct w. Qed.

(** [ask] without configured brains runs the Claude command line once, in a fresh
    directory that is removed afterwards, and gives it no credential at all: the one
    in the environment is withheld and none is put in its place, whatever the
    sources of secrets hold. *)
Theorem ask_without_registry_has_no_credential now showBrain flagReport words x dir x1 :
  words <> [] -> Forall (fun w => HasPrefix w "-" = false) words ->
  TrimSpace (Join " " words) <> "" -> MkdirTemp x = (Ok dir, x1) ->
  exists command, credentials command = [] /\ cm_Args command = ["-p"; TrimSpace (Join " " words)] /\
    let '((stdout, stderr), err, x2) := spawn command x1 in
    runAsk spawn MkdirTemp RemoveAll environ Chat chained (Ok []) now showBrain flagReport words x =
    match err with
    | None => (ExitOK, [(Stdout, TrimSpace (TrimSpace stdout) +:+ String nl "")], RemoveAll dir x2)
    | Some e => (ExitGeneric,
        [(Stderr, "ask: " +:+ showBrain (BErrComplete (CErrFailed "claude" e (sanitizeOutput stdout stderr [""; ""]))) +:+ String nl "")],
        RemoveAll dir x2)
    end.
Proof.
  intros Hn F Hp M.
  exists (claude_completion environ "claude" "" "" "" "" (TrimSpace (Join " " words)) dir).
  split; [|split; [done|]].
  - exact (claude_env_credential environ "" "" "" dir).
  - unfold runAsk.
    assert (P : flag_Parse ["entry"] words = Ok ([], words)).
    { destruct words as [|w ws]; [done|]. apply Forall_cons in F as [D _]. cbn [flag_Parse]. by rewrite no_flag. }
    rewrite P. rewrite (proj2 (String.eqb_neq _ _) Hp).
    replace (flag_value "entry" []) with "" by reflexivity.
    replace (selectAskEntry (Ok []) now "") with (Ok (E:=BrainErr) default_cli_entry).
    2: { unfold selectAskEntry, buildBrainCatalog. cbn [brains].
         destruct (register_all_ok NewCatalog [default_cli_entry] NewCatalog_wf (NoDup_singleton _)) as (c & R & W & L).
         rewrite R. cbn.
         pose proof (select_brain_spec now c 1 [default_cli_entry] W L ltac:(by repeat constructor)) as S.
         destruct (select_brain now c 1) as [[e|e0] cat']; destruct S as (_ & _ & S); cbn.
         - destruct S as (->%list_elem_of_singleton & _). done.
         - specialize (S default_cli_entry ltac:(by left)). cbn in S. lia. }
    unfold complete_entry, CompleterForEntry, newClaudeCompleter. cbn [default_cli_entry re_Harness re_SecretRef].
    replace (blank "") with true by reflexivity. cbn [Complete re_ModelID re_Endpoint].
    unfold complete_cli. rewrite M. replace (TrimSpace "") with "" by reflexivity.
    destruct (spawn _ x1) as [[[stdout stderr] [e|]] x2]; done.
Qed.
End Credentials.

(** ** Witnesses *)

Definition demo_ask_env : list string := ["ANTHROPIC_API_KEY=sk-1"; "CLAUDE_CODE_OAUTH_TOKEN=oa-1"; "LANG=C"].
Definition demo_ask_spawn (c : Command) (x : list Command) : ((string * string) * option string) * list Command :=
  ((("", "Invalid API key"), Some "exit status 1"), x ++ [c]).
Definition demo_chat (e : string) (r : ChatRequest) (x : list Command) : result ChatErr ChatMessage * list Command :=
  (Err ChatCancelled, x).
Definition demo_secrets : SecretSource (list Command) := mkSource (fun x => (("sk-1", "oa-1"), x)) ("", "") (fun _ x => (None, x)).
Definition demo_ask (words : list string) : Z * Output * list Command :=
  runAsk demo_ask_spawn (fun x => (Ok "/tmp/d", x)) (fun _ x => x) demo_ask_env demo_chat demo_secrets
    (Ok []) (fun _ => 0) (fun _ => "failed") (fun _ => "usage") words [].

Lemma ask_without_registry_has_no_credential_witness :
  (demo_ask ["summarize"; "this"]).1.1 = ExitGeneric /\
  Forall (fun c => credentials c = []) (demo_ask ["summarize"; "this"]).2.
Proof.
  destruct (ask_without_registry_has_no_credential demo_ask_spawn (fun x => (Ok "/tmp/d", x)) (fun _ x => x) demo_ask_env
    demo_chat demo_secrets (fun _ => 0) (fun _ => "failed") (fun _ => "usage") ["summarize"; "this"] [] "/tmp/d" []
    ltac:(done) ltac:(by repeat constructor) ltac:(by vm_compute) eq_refl) as (c & Hc & _ & R).
  unfold demo_ask. cbn [demo_ask_spawn] in R. rewrite R. split; [reflexivity|].
  repeat constructor. exact Hc.
Defined.

(** Two brains: a cheap one of tier 1 and a dear one of tier 3. *)
Definition demo_brain_env (k : string) : string :=
  let table := [("ENABLED", ("true", "true")); ("ENDPOINT", ("http://localhost", "https://api")); ("MODEL", ("qwen", "opus"));
                ("CAPABILITY_TIER", ("1", "3")); ("COST_WEIGHT", ("1", "9")); ("SECRET_REF", ("", "anthropic"))] in
  foldr (fun p acc => if String.eqb k (env_key "local" p.1) then p.2.1
                      else if String.eqb k (env_key "claude-opus" p.1) then p.2.2 else acc) "" table.
Definition demo_brains : list RegistryEntry :=
  match LoadFromEnv (fun s => s) (fun _ => None) demo_brain_env knownEntries with Ok es => es | Err _ => [] end.

Lemma answers_at_the_analysed_floor_witness :
  (exists e, answer_entry (Ok demo_brains) (fun _ => 0) (fun _ => 0) 1 = Ok e /\ re_ID e = "local") /\
  (exists e, answer_entry (Ok demo_brains) (fun _ => 0) (fun _ => 0) 3 = Ok e /\ 3 <= re_CapabilityTier e).
Proof.
  split.
  - eexists. split; vm_compute; reflexivity.
  - pose proof (answers_at_the_analysed_floor (fun s => s) (fun _ => None) demo_brain_env knownEntries demo_brains
      (fun _ => 0) (fun _ => 0) 3 ltac:(reflexivity) ltac:(vm_compute; reflexivity)) as H.
    destruct (answer_entry (Ok demo_brains) (fun _ => 0) (fun _ => 0) 3) as [e|err] eqn:E; [|vm_compute in E; discriminate E].
    exists e. split; [reflexivity|]. destruct H as [(_ & F & _)|[B _]]; [exact F|].
    exfalso. vm_compute in E. injection E as E. specialize (B e ltac:(subst e; vm_compute; left)).
    subst e. vm_compute in B. discriminate B.
Defined.
