(* ===== verification/Daemon.v ===== *)
(** * The daemon and the orchestrate subcommand

    [internal/cli/daemon.go], and [runOrchestrate] of [internal/cli/orchestrate.go]: the
    life of a daemon process, from its lock file to the release of it, as a machine whose
    steps interleave with those of other daemons on the same file system. Assembly,
    rehydration and the control loop are those of [Wiring], [Orchestrator] and
    [ControlLoop]; here they are the outcomes a process meets. *)

From stdpp Require Import base gmap list strings.
From Stdlib Require Import ZArith Lia Ascii.
From S2P Require Import Prelude GoStrings Cli.
Open Scope Z_scope.

(** [daemonLockPath]; the directory is [os.TempDir]. *)
Definition daemonLockPath (getenv : string -> string) (join_temp : string -> string) : string :=
  let p := TrimSpace (getenv "AGENT_BUILDER_DAEMON_LOCK") in
  if negb (String.eqb p "") then p else join_temp "agent-builder-daemon.lock".

(** An error of assembly, and whether it wraps [errUsageConfig]. *)
Record AssembleErr := mkAssembleErr { as_text : string; as_usage : bool }.

Definition assemble_code (e : AssembleErr) : Z := if as_usage e then ExitUsage else ExitGeneric.

Section Orchestrate.
Context {X C : Type}.
Variables (usageText : string) (assemble : X -> result AssembleErr C * X) (runControlLoop : C -> X -> option string * X)
          (cleanup : C -> X -> X).

(** [runOrchestrate]. *)
Definition runOrchestrate (args : list string) (x : X) : Z * Output * X :=
  parse_flags [] args (ExitOK, writef Stdout usageText, x) (fun e => (usage e, x))
    (fun _ rest => match rest with
                   | _ :: _ => (usage "orchestrate accepts no positional arguments", x)
                   | [] =>
                     match assemble x with
                     | (Err e, x) => (assemble_code e, writef Stderr (line ("error: " +:+ as_text e)), x)
                     | (Ok oc, x) =>
                       let '(err, x) := runControlLoop oc x in
                       let x := cleanup oc x in
                       match err with
                       | Some e => (ExitGeneric, writef Stderr (line ("error: " +:+ e)), x)
                       | None => (ExitOK, [], x)
                       end
                     end
                   end).
End Orchestrate.

Section Daemon.
(** The records of runs in flight. *)
Context {Rec : Type}.
Variables (quote : string -> string) (usageText : string).

(** What one daemon process meets: its arguments and lock path, an error other than an
    existing file when it creates the lock, the outcome of assembly, the schedule path and
    the error of its file, the run store and what rehydration returns, the error of the
    control loop, and whether the process was told to stop by the time the loop ended. *)
Record DaemonEnv := mkDaemonEnv {
  de_args : list string;
  de_lockPath : string;
  de_lockErr : option string;
  de_assemble : option AssembleErr;
  de_schedPath : string;
  de_schedErr : option string;
  de_runStore : option (result string (list Rec));
  de_loopErr : option string;
  de_cancelled : bool
}.

Inductive DaemonEvent :=
| EvLocked
| EvAssembled
| EvScheduler
| EvRehydrated (records : list Rec)
| EvResumed (r : Rec)
| EvLoop
| EvSchedulerDone
| EvCleanup
| EvUnlocked.

(** Where [runDaemonWith] is. From [DWait] on it runs its deferred calls, last first. *)
Inductive DaemonPc :=
| DParse
| DAcquire
| DAssemble
| DSchedule
| DRehydrate (sched : bool)
| DResume (sched : bool) (records : list Rec)
| DLoop (sched : bool)
| DWait (code : Z)
| DCleanup (code : Z)
| DRelease (code : Z)
| DExit (code : Z).

Record Daemon := mkDaemonProc { dp_pc : DaemonPc; dp_out : Output; dp_log : list DaemonEvent }.

Definition daemon_start : Daemon := mkDaemonProc DParse [] [].

Definition goto (pc : DaemonPc) (d : Daemon) : Daemon := mkDaemonProc pc (dp_out d) (dp_log d).
Definition did (ev : DaemonEvent) (pc : DaemonPc) (d : Daemon) : Daemon := mkDaemonProc pc (dp_out d) (dp_log d ++ [ev]).
Definition say (o : Output) (pc : DaemonPc) (d : Daemon) : Daemon := mkDaemonProc pc (dp_out d ++ o) (dp_log d).

(** The deferred calls of a daemon whose scheduler, if any, must still be waited for. *)
Definition leave (sched : bool) (code : Z) : DaemonPc := if sched then DWait code else DCleanup code.

(** One step of a process and of the lock files; [None] when it waits or has exited. *)
Definition daemon_step (env : DaemonEnv) (d : Daemon) (locks : gset string) : option (Daemon * gset string) :=
  match dp_pc d with
  | DParse =>
    Some (parse_flags [] (de_args env) (say (writef Stdout usageText) (DExit ExitOK) d)
            (fun e => say (usage e).2 (DExit ExitUsage) d)
            (fun _ rest => match rest with
                           | _ :: _ => say (usage "daemon accepts no positional arguments").2 (DExit ExitUsage) d
                           | [] => goto DAcquire d
                           end), locks)
  | DAcquire =>
    let path := de_lockPath env in
    if bool_decide (path ∈ locks) then
      Some (say (writef Stderr (line ("error: another agent-builder daemon appears to be running (lock file " +:+ quote path +:+
                   " already exists); remove it if this is a stale lock after a hard crash"))) (DExit ExitGeneric) d, locks)
    else
      match de_lockErr env with
      | Some e => Some (say (writef Stderr (line ("error: acquire daemon lock " +:+ quote path +:+ ": " +:+ e))) (DExit ExitGeneric) d, locks)
      | None => Some (did EvLocked DAssemble d, {[path]} ∪ locks)
      end
  | DAssemble =>
    match de_assemble env with
    | Some e => Some (say (writef Stderr (line ("error: " +:+ as_text e))) (DRelease (assemble_code e)) d, locks)
    | None => Some (did EvAssembled DSchedule d, locks)
    end
  | DSchedule =>
    if String.eqb (TrimSpace (de_schedPath env)) "" then Some (goto (DRehydrate false) d, locks)
    else
      match de_schedErr env with
      | Some e => Some (say (writef Stderr (line ("error: " +:+ e))) (DCleanup ExitUsage) d, locks)
      | None => Some (did EvScheduler (DRehydrate true) d, locks)
      end
  | DRehydrate sched =>
    match de_runStore env with
    | Some (Ok records) => Some (did (EvRehydrated records) (DResume sched records) d, locks)
    | Some (Err _) | None => Some (goto (DLoop sched) d, locks)
    end
  | DResume sched (r :: records) => Some (did (EvResumed r) (DResume sched records) d, locks)
  | DResume sched [] => Some (goto (DLoop sched) d, locks)
  | DLoop sched =>
    let d := did EvLoop (dp_pc d) d in
    match de_loopErr env with
    | Some e => Some (say (writef Stderr (line ("error: " +:+ e))) (leave sched ExitGeneric) d, locks)
    | None => Some (say (writef Stdout (line "daemon: graceful shutdown complete")) (leave sched ExitOK) d, locks)
    end
  | DWait code => if de_cancelled env then Some (did EvSchedulerDone (DCleanup code) d, locks) else None
  | DCleanup code => Some (did EvCleanup (DRelease code) d, locks)
  | DRelease code => Some (did EvUnlocked (DExit code) d, locks ∖ {[de_lockPath env]})
  | DExit _ => None
  end.

(** Several daemons on one file system: [turns] names who steps. *)
Definition daemons_step (envs : list DaemonEnv) (i : nat) (s : list Daemon * gset string) : list Daemon * gset string :=
  match envs !! i, s.1 !! i with
  | Some env, Some d => match daemon_step env d s.2 with
                        | Some (d, locks) => (<[i := d]> s.1, locks)
                        | None => s
                        end
  | _, _ => s
  end.
Definition daemons_run (envs : list DaemonEnv) (turns : list nat) (s : list Daemon * gset string) : list Daemon * gset string :=
  fold_left (fun s i => daemons_step envs i s) turns s.
Definition daemons_start (envs : list DaemonEnv) (locks : gset string) : list Daemon * gset string :=
  (replicate (length envs) daemon_start, locks).

(** A process that stands between its lock and its release. *)
Definition holds (d : Daemon) : bool :=
  match dp_pc d with DParse | DAcquire | DExit _ => false | _ => true end.

(** ** One daemon at a time *)

Lemma step_holds env d locks d' locks' :
  daemon_step env d locks = Some (d', locks') ->
  (holds d = false /\ holds d' = false /\ locks' = locks) \/
  (holds d = false /\ holds d' = true /\ de_lockPath env ∉ locks /\ locks' = {[de_lockPath env]} ∪ locks) \/
  (holds d = true /\ holds d' = true /\ locks' = locks) \/
  (holds d = true /\ holds d' = false /\ locks' = locks ∖ {[de_lockPath env]}).
Proof.
  unfold daemon_step, holds. destruct (dp_pc d) eqn:E; cbn; intros H.
  - left. injection H as <- <-. unfold parse_flags. repeat case_match; simplify_eq/=; done.
  - destruct (bool_decide (de_lockPath env ∈ locks)) eqn:B; to_prop; [injection H as <- <-; by left|].
    destruct (de_lockErr env); injection H as <- <-; [by left|right; left; done].
  - destruct (de_assemble env); injection H as <- <-; right; right; left; done.
  - destruct (String.eqb _ _); [injection H as <- <-; right; right; left; done|].
    destruct (de_schedErr env); injection H as <- <-; right; right; left; done.
  - destruct (de_runStore env) as [[?|?]|]; injection H as <- <-; right; right; left; done.
  - destruct records; injection H as <- <-; right; right; left; done.
  - destruct (de_loopErr env); injection H as <- <-; right; right; left; destruct sched; done.
  - destruct (de_cancelled env); [|done]. injection H as <- <-. right; right; left; done.
  - injection H as <- <-. right; right; left; done.
  - injection H as <- <-. by right; right; right.
  - done.
Qed.

(** The lock of every holder exists, and no two holders share one. *)
Record exclusive (envs : list DaemonEnv) (s : list Daemon * gset string) : Prop := {
  ex_lock i env d : envs !! i = Some env -> s.1 !! i = Some d -> holds d = true -> de_lockPath env ∈ s.2;
  ex_one i j env env' d d' :
    envs !! i = Some env -> envs !! j = Some env' -> s.1 !! i = Some d -> s.1 !! j = Some d' ->
    holds d = true -> holds d' = true -> de_lockPath env = de_lockPath env' -> i = j
}.

Lemma exclusive_step envs i s : exclusive envs s -> exclusive envs (daemons_step envs i s).
Proof.
  intros [L O]. unfold daemons_step. destruct (envs !! i) as [env|] eqn:Ei; [|by constructor].
  destruct (s.1 !! i) as [d|] eqn:Di; [|by constructor].
  destruct (daemon_step env d s.2) as [[d' locks']|] eqn:S; [|by constructor].
  pose proof (lookup_lt_Some _ _ _ Di) as Li. apply step_holds in S.
  assert (Q : forall j e, (<[i:=d']> s.1) !! j = Some e -> (j = i /\ e = d') \/ (j <> i /\ s.1 !! j = Some e)).
  { intros j e. destruct (decide (j = i)) as [->|N]; [rewrite list_lookup_insert_eq by done|rewrite list_lookup_insert_ne by done];
      intros; simplify_eq; naive_solver. }
  constructor; cbn [fst snd].
  - intros j env' e Ej Hj He. destruct (Q j e Hj) as [[-> ->]|[N Hj']].
    + simplify_eq. destruct S as [(_ & X & _)|[(_ & _ & _ & ->)|[(X & _ & ->)|(_ & X & _)]]]; [congruence|set_solver|by eapply (L _ _ d)|congruence].
    + pose proof (L j env' e Ej Hj' He) as M.
      destruct S as [(_ & _ & ->)|[(_ & _ & _ & ->)|[(_ & _ & ->)|(X & _ & ->)]]]; [done|set_solver|done|].
      apply elem_of_difference. split; [done|]. intros T. apply elem_of_singleton in T.
      apply N. by apply (O j i env' env e d).
  - intros j k envj envk dj dk Ej Ek Hj Hk Xj Xk P.
    assert (F : forall a b enva envb da, a = i -> b <> i -> envs !! a = Some enva -> envs !! b = Some envb ->
      s.1 !! b = Some da -> holds da = true -> holds d' = true -> de_lockPath enva = de_lockPath envb -> a = b).
    { intros a b enva envb da -> Nb Ea Eb Db Hb Hd' Pe. rewrite Ei in Ea. injection Ea as <-.
      destruct S as [(_ & X & _)|[(_ & _ & Nl & _)|[(X & _ & _)|(_ & X & _)]]]; [congruence| | |congruence].
      - destruct Nl. rewrite Pe. by apply (L b envb da).
      - by apply (O i b env envb d da). }
    destruct (Q j dj Hj) as [[-> ->]|[Nj Hj']], (Q k dk Hk) as [[-> ->]|[Nk Hk']]; [done|..].
    + by apply (F i k envj envk dk).
    + symmetry. by apply (F i j envk envj dj).
    + by apply (O j k envj envk dj dk).
Qed.

(** C25. However the steps of any number of daemon processes interleave, no two of
    them with the same lock path are between acquiring and releasing it at the same
    time. *)
Theorem one_daemon_at_a_time envs locks turns i j env env' d d' :
  let s := daemons_run envs turns (daemons_start envs locks) in
  envs !! i = Some env -> envs !! j = Some env' -> de_lockPath env = de_lockPath env' ->
  s.1 !! i = Some d -> s.1 !! j = Some d' -> holds d = true -> holds d' = true -> i = j.
Proof.
  intros s Ei Ej P Di Dj Hi Hj.
  assert (E : exclusive envs s).
  { subst s. clear Di Dj. assert (E : exclusive envs (daemons_start envs locks)).
    { constructor; cbn [fst snd daemons_start].
      - intros k envk dk _ H Hh. apply lookup_replicate in H as [-> _]. cbn in Hh. done.
      - intros k l envk envl dk dl _ _ H _ Hh. apply lookup_replicate in H as [-> _]. cbn in Hh. done. }
    revert E. generalize (daemons_start envs locks). unfold daemons_run.
    induction turns as [|t turns IH]; intros s0 E; [done|]. cbn. by apply IH, exclusive_step. }
  by apply (ex_one _ _ E i j env env' d d').
Qed.

(** ** A daemon that is told to stop returns *)

(** Enough steps for every path: nine besides one per record resumed. *)
Fixpoint daemon_run (fuel : nat) (env : DaemonEnv) (d : Daemon) (locks : gset string) : Daemon * gset string :=
  match fuel with
  | O => (d, locks)
  | S fuel => match daemon_step env d locks with
              | Some (d, locks) => daemon_run fuel env d locks
              | None => (d, locks)
              end
  end.
Definition daemon_fuel (env : DaemonEnv) : nat :=
  (10 + match de_runStore env with Some (Ok records) => length records | _ => 0 end)%nat.

Definition scheduled_daemon (env : DaemonEnv) : bool := negb (String.eqb (TrimSpace (de_schedPath env)) "").

(** What a daemon that got the lock does, in order, and its exit code. *)
Definition resume_log (env : DaemonEnv) : list DaemonEvent :=
  match de_runStore env with Some (Ok records) => EvRehydrated records :: map EvResumed records | _ => [] end.
Definition lifetime (env : DaemonEnv) : list DaemonEvent * Z :=
  match de_assemble env with
  | Some e => ([EvLocked; EvUnlocked], assemble_code e)
  | None =>
    if scheduled_daemon env then
      match de_schedErr env with
      | Some _ => ([EvLocked; EvAssembled; EvCleanup; EvUnlocked], ExitUsage)
      | None => ([EvLocked; EvAssembled; EvScheduler] ++ resume_log env ++ [EvLoop; EvSchedulerDone; EvCleanup; EvUnlocked],
                 match de_loopErr env with Some _ => ExitGeneric | None => ExitOK end)
      end
    else ([EvLocked; EvAssembled] ++ resume_log env ++ [EvLoop; EvCleanup; EvUnlocked],
          match de_loopErr env with Some _ => ExitGeneric | None => ExitOK end)
  end.

Lemma run_more n m env d locks : daemon_run (n + m) env d locks = let '(d, locks) := daemon_run n env d locks in daemon_run m env d locks.
Proof.
  revert d locks. induction n as [|n IH]; intros d locks; [done|]. cbn [Nat.add daemon_run].
  destruct (daemon_step env d locks) as [[d' locks']|] eqn:E; [apply IH|].
  clear IH. destruct m as [|m]; [done|]. cbn [daemon_run]. by rewrite E.
Qed.

Lemma run_resumes env sched records out log locks :
  daemon_run (S (length records)) env (mkDaemonProc (DResume sched records) out log) locks =
  (mkDaemonProc (DLoop sched) out (log ++ map EvResumed records), locks).
Proof.
  revert log. induction records as [|r records IH]; intros log; [cbn; by rewrite app_nil_r|].
  cbn [length]. remember (S (length records)) as n. cbn [daemon_run daemon_step dp_pc]. unfold did. cbn [dp_out dp_log].
  rewrite IH. cbn [map]. by rewrite <- app_assoc.
Qed.

(** From the rehydration to the control loop. *)
Lemma run_rehydrate env sched out log locks :
  exists n, (n <= 2 + match de_runStore env with Some (Ok records) => length records | _ => 0 end)%nat /\
    daemon_run n env (mkDaemonProc (DRehydrate sched) out log) locks = (mkDaemonProc (DLoop sched) out (log ++ resume_log env), locks).
Proof.
  unfold resume_log. destruct (de_runStore env) as [[records|e]|] eqn:R.
  - exists (2 + length records)%nat. split; [lia|]. change (2 + length records)%nat with (1 + S (length records))%nat.
    rewrite run_more. remember (S (length records)) as m eqn:Em. cbn [daemon_run daemon_step dp_pc].
    rewrite R. unfold did. cbn [dp_out dp_log]. subst m. rewrite run_resumes, <- app_assoc. done.
  - exists 1%nat. split; [lia|]. cbn [daemon_run daemon_step dp_pc]. rewrite R, app_nil_r. done.
  - exists 1%nat. split; [lia|]. cbn [daemon_run daemon_step dp_pc]. rewrite R, app_nil_r. done.
Qed.

Ltac steps := repeat (progress (cbn [daemon_run daemon_step dp_pc dp_out dp_log]; unfold say, did, goto)).

(** A run that exits within [n] steps has the same end with more fuel. *)
Lemma run_enough n m env d locks code out log locks' :
  daemon_run n env d locks = (mkDaemonProc (DExit code) out log, locks') -> (n <= m)%nat ->
  daemon_run m env d locks = (mkDaemonProc (DExit code) out log, locks').
Proof.
  intros E L. replace m with (n + (m - n))%nat by lia. rewrite run_more, E. by destruct (m - n)%nat.
Qed.

Lemma run_then n m env d locks d1 locks1 d2 locks2 :
  daemon_run n env d locks = (d1, locks1) -> daemon_run m env d1 locks1 = (d2, locks2) ->
  daemon_run (n + m) env d locks = (d2, locks2).
Proof. intros E1 E2. by rewrite run_more, E1. Qed.

(** From the control loop to the exit. *)
Lemma run_loop env sched out log locks :
  (sched = true -> de_cancelled env = true) ->
  exists out', daemon_run 4 env (mkDaemonProc (DLoop sched) out log) locks =
    (mkDaemonProc (DExit (match de_loopErr env with Some _ => ExitGeneric | None => ExitOK end)) out'
       (log ++ EvLoop :: (if sched then [EvSchedulerDone] else []) ++ [EvCleanup; EvUnlocked]), locks ∖ {[de_lockPath env]}).
Proof.
  intros C. cbn [daemon_run daemon_step dp_pc].
  destruct (de_loopErr env) as [e|], sched; unfold did, say, leave, goto; cbn [dp_out dp_log daemon_run daemon_step dp_pc];
    rewrite ?C by done; cbn [dp_out dp_log daemon_run daemon_step dp_pc did]; unfold did; cbn [dp_out dp_log];
    (eexists; rewrite <- ?app_assoc; reflexivity).
Qed.

End Daemon.

(** ** Witnesses *)

Definition demo_env (sched : string) (cancelled : bool) : @DaemonEnv nat :=
  mkDaemonEnv [] "/tmp/lock" None None sched None (Some (Ok [7%nat; 8%nat])) None cancelled.


(** With a schedule, a control loop that ends by itself is not enough: the process waits
    for a scheduler that only a signal stops, with its lock still held. *)
Example scheduled_daemon_outlives_its_loop :
  let '(d, locks) := daemon_run id "" 100 (demo_env "s.json" false) daemon_start ∅ in
  dp_pc d = DWait ExitOK /\ daemon_step id "" (demo_env "s.json" false) d locks = None /\ bool_decide ("/tmp/lock" ∈ locks) = true.
Proof. vm_compute. done. Qed.

Lemma one_daemon_at_a_time_witness :
  let envs := [demo_env "" true; demo_env "" true] in
  let s := daemons_run id "" envs [0; 1; 0; 1; 1; 0]%nat (daemons_start envs ∅) in
  match s.1 !! 0%nat with Some d => holds d | None => false end = true /\
  forall j d', s.1 !! j = Some d' -> envs !! j = Some (demo_env "" true) -> holds d' = true -> 0%nat = j.
Proof.
  split; [vm_compute; reflexivity|]. intros j d' Hj Ej Hh.
  refine (one_daemon_at_a_time id "" [demo_env "" true; demo_env "" true] ∅ [0; 1; 0; 1; 1; 0]%nat 0 j
    (demo_env "" true) (demo_env "" true) (mkDaemonProc DSchedule [] [EvLocked; EvAssembled]) d' eq_refl Ej eq_refl _ Hj eq_refl Hh).
  vm_compute. reflexivity.
Defined.
