(* ===== verification/Wiring.v ===== *)
(** * Assembly of the control plane

    The environment side of [internal/cli/orchestrate.go]: the settings it parses, the
    assembly of the Telegram channel and [assembleOrchestrate] without the overrides of
    the tests. What is assembled is kept as the choices made; the parts chosen are
    [Planner], [PlanScope], [Transport], [Console], [Telegram], [Fleet] and the stores. *)

From stdpp Require Import base gmap strings list.
From Stdlib Require Import ZArith Lia Ascii.
From S2P Require Import Prelude GoStrings Encoding Registry RunConfig Authz Telegram PlanScope.
Open Scope Z_scope.

(** ** Settings *)

Definition defaultMaxWorkers : Z := 4.
Definition defaultMaxGoals : Z := 8.
Definition defaultGoalMaxAttempts : Z := 3.
(** One hour, in nanoseconds. *)
Definition defaultApprovalTimeout : Z := 3600 * 1000000000.

Section Settings.
Variables (uni : string -> string) (ParseDuration : string -> option Z) (getenv : string -> string).

(** [envInt]. *)
Definition envInt (key : string) (def : Z) : Z :=
  let raw := TrimSpace (getenv key) in
  if String.eqb raw "" then def
  else match ParseInt raw with
       | Some n => if n <? 1 then def else n
       | None => def
       end.

(** [parseGoalMaxAttempts]; the error is the value refused. *)
Definition parseGoalMaxAttempts : result string Z :=
  let raw := TrimSpace (getenv "AGENT_BUILDER_GOAL_MAX_ATTEMPTS") in
  if String.eqb raw "" then Ok defaultGoalMaxAttempts
  else match ParseInt raw with
       | None => Err raw
       | Some n => if n <? 1 then Err raw else Ok n
       end.

(** A positive duration, or the default. *)
Definition duration_or (key : string) (def : Z) : Z :=
  let raw := TrimSpace (getenv key) in
  if String.eqb raw "" then def
  else match ParseDuration raw with
       | Some d => if 0 <? d then d else def
       | None => def
       end.

(** The choice of [requireApproval] in [assembleOrchestrate]. *)
Definition requireApproval : bool :=
  negb (bool_decide (ToLower uni (TrimSpace (getenv "AGENT_BUILDER_REQUIRE_APPROVAL")) ∈ ["false"; "0"; "no"])).

Inductive PlannerChoice := StructuredPlanner | LLMPlanner.
Inductive ClarifierChoice := HeuristicClarifier | LLMClarifier.
Inductive AnalyzerChoice := HeuristicAnalyzer | LLMAnalyzer.

(** [plannerFromEnv] and [clarifierFromEnv]; the error is the unknown value. *)
Definition plannerFromEnv : result string PlannerChoice :=
  let choice := TrimSpace (getenv "AGENT_BUILDER_PLANNER") in
  if bool_decide (choice ∈ [""; "structured"]) then Ok StructuredPlanner
  else if String.eqb choice "llm" then Ok LLMPlanner else Err choice.
Definition clarifierFromEnv : result string ClarifierChoice :=
  let choice := TrimSpace (getenv "AGENT_BUILDER_CLARIFIER") in
  if bool_decide (choice ∈ [""; "heuristic"]) then Ok HeuristicClarifier
  else if String.eqb choice "llm" then Ok LLMClarifier else Err choice.

(** [goalAnalyzerFromEnv]; [seams] is whether the model seams were built. *)
Definition goalAnalyzerFromEnv (seams : bool) : option AnalyzerChoice :=
  let choice := ToLower uni (TrimSpace (getenv "AGENT_BUILDER_GOAL_ANALYSIS")) in
  if String.eqb choice "llm" then Some (if seams then LLMAnalyzer else HeuristicAnalyzer)
  else if bool_decide (choice ∈ ["true"; "1"; "yes"; "heuristic"; "on"]) then Some HeuristicAnalyzer else None.

(** [needsSeams]. *)
Definition needsSeams : bool :=
  String.eqb (TrimSpace (getenv "AGENT_BUILDER_CLARIFIER")) "llm" ||
  String.eqb (ToLower uni (TrimSpace (getenv "AGENT_BUILDER_GOAL_ANALYSIS"))) "llm".

(** [policyClientFromEnv]. *)
Inductive PolicyChoice := DenyAll | PlanScoped (binPath socketPath : string) (base : list string).
Definition policyClientFromEnv (tempSocket : string) : PolicyChoice :=
  let binPath := TrimSpace (getenv "AGENT_BUILDER_POLICY_BIN") in
  if String.eqb binPath "" then DenyAll
  else
    let socketPath := TrimSpace (getenv "AGENT_BUILDER_POLICY_SOCKET") in
    PlanScoped binPath (if String.eqb socketPath "" then tempSocket else socketPath)
      (parseAllowBase (getenv "AGENT_BUILDER_POLICY_ALLOW")).

(** ** The Telegram channel *)

(** The errors of the Telegram assembly. All but the missing and malformed values wrap
    [errUsageConfig]. *)
Inductive TgErr :=
| TgAuthMode (e : AuthzErr)
| TgStoreRequired (m : Mode)
| TgStoreLoad (e : AuthzErr)
| TgApprovedIDs (e : AuthzErr)
| TgStorePersist (e : AuthzErr)
| TgOwnerRequired
| TgOwnerID (e : AuthzErr)
| TgSeedOwner (e : AuthzErr)
| TgArmorBin (configured e : string)
| TgArmorRequired (m : Mode)
| TgMissing (name : string)
| TgKey (name : string).

Definition tg_usage (e : TgErr) : bool := match e with TgMissing _ | TgKey _ => false | _ => true end.

(** The codec of the store file, the failures of the two writes of the store, and the
    program search. *)
Variables (marshal : list Z -> string) (unmarshal : string -> option (list Z))
          (fault1 fault2 : option PersistFault) (LookPath : string -> result string string).

(** The comma-separated identifiers of [assembleTelegramAuthMode], added in order. *)
Fixpoint seed_ids (parts : list string) (s : Store) : option AuthzErr * Store :=
  match parts with
  | [] => (None, s)
  | p :: parts =>
    let p := TrimSpace p in
    if String.eqb p "" then seed_ids parts s
    else match Add s p with
         | (Some e, s) => (Some e, s)
         | (None, s) => seed_ids parts s
         end
  end.

(** [assembleTelegramAuthMode]: the mode, the store it consults, and the store's file. *)
Definition assembleTelegramAuthMode (file : FileState) : result TgErr (Mode * option Store) * FileState :=
  match ParseMode (getenv "AGENT_BUILDER_TELEGRAM_AUTH_MODE") with
  | Err e => (Err (TgAuthMode e), file)
  | Ok mode =>
    if negb (ConsultsStore mode) then (Ok (mode, None), file)
    else
      let storePath := TrimSpace (getenv "AGENT_BUILDER_TELEGRAM_APPROVED_STORE") in
      if String.eqb storePath "" then (Err (TgStoreRequired mode), file)
      else match Load unmarshal (NewStore storePath) file with
      | (Some e, _) => (Err (TgStoreLoad e), file)
      | (None, store) =>
        let rawIDs := TrimSpace (getenv "AGENT_BUILDER_TELEGRAM_APPROVED_IDS") in
        match (if String.eqb rawIDs "" then (None, store) else seed_ids (Split ","%char rawIDs) store) with
        | (Some e, _) => (Err (TgApprovedIDs e), file)
        | (None, store) =>
          match Persist marshal store fault1 file with
          | (Some e, file) => (Err (TgStorePersist e), file)
          | (None, file) => (Ok (mode, Some store), file)
          end
        end
      end
  end.

(** [assembleTelegramOwnerID]. *)
Definition assembleTelegramOwnerID (mode : Mode) : result TgErr Z :=
  match mode with
  | ModePairing =>
    let raw := TrimSpace (getenv "AGENT_BUILDER_TELEGRAM_OWNER_ID") in
    if String.eqb raw "" then Err TgOwnerRequired
    else match Normalize raw with Err e => Err (TgOwnerID e) | Ok id => Ok id end
  | _ => Ok 0
  end.

(** [resolveTelegramArmorBin]. *)
Definition resolveTelegramArmorBin : result TgErr string :=
  let configured := TrimSpace (getenv "AGENT_BUILDER_TELEGRAM_ARMOR_BIN") in
  if String.eqb configured "" then Ok ""
  else match LookPath configured with Err e => Err (TgArmorBin configured e) | Ok p => Ok p end.

(** A required value, and a key of [size] bytes in hexadecimal. *)
Definition required (name : string) : result TgErr string :=
  let v := TrimSpace (getenv name) in if String.eqb v "" then Err (TgMissing name) else Ok v.
Definition required_key (name : string) (size : nat) : result TgErr string :=
  let? v := required name in
  match hex_decode v with
  | Some k => if (String.length k =? size)%nat then Ok k else Err (TgKey name)
  | None => Err (TgKey name)
  end.

(** The content guard of the adapter: the armor program, or [allowAllContentGuard]. *)
Inductive GuardChoice := ArmorGuard (bin : string) | AllowAllGuard.

Record TelegramInbound := mkTelegramInbound {
  ti_config : Telegram.Config;
  ti_store : option Store;
  ti_guard : GuardChoice;
  ti_botToken : string;
  ti_baseURL : string;
  ti_chatID : string;
  ti_orchEdPriv : string;
  ti_opXPub : string;
  ti_openWarning : bool
}.

Definition seed_owner (mode : Mode) (ownerID : Z) (store : option Store) (file : FileState)
  : result TgErr (option Store) * FileState :=
  match mode, store with
  | ModePairing, Some s =>
    match Add s (FormatInt ownerID) with
    | (Some e, _) => (Err (TgSeedOwner e), file)
    | (None, s) => match Persist marshal s fault2 file with
                   | (Some e, file) => (Err (TgStorePersist e), file)
                   | (None, file) => (Ok (Some s), file)
                   end
    end
  | _, _ => (Ok store, file)
  end.

(** The part of [assembleTelegramInbound] after the store: the values and keys it
    requires, and the content guard. *)
Definition assemble_channel (mode : Mode) (store : option Store) (ownerID : Z) (sink : bool) : result TgErr TelegramInbound :=
  let? botToken := required "AGENT_BUILDER_TELEGRAM_BOT_TOKEN" in
  let baseURL := or_default (TrimSpace (getenv "AGENT_BUILDER_TELEGRAM_BASE_URL")) "https://api.telegram.org" in
  let? chatID := required "AGENT_BUILDER_TELEGRAM_CHAT_ID" in
  let? signingKey := required_key "AGENT_BUILDER_TELEGRAM_SIGNING_KEY" 32 in
  let? x25519Pub := required_key "AGENT_BUILDER_TELEGRAM_X25519_PUB" 32 in
  let? orchPriv := required_key "AGENT_BUILDER_TELEGRAM_ORCH_PRIV" 32 in
  let? orchEdPriv := required_key "AGENT_BUILDER_TELEGRAM_ORCH_ED_PRIV" 64 in
  let? opXPub := required_key "AGENT_BUILDER_TELEGRAM_OP_X25519_PUB" 32 in
  let? armorBin := resolveTelegramArmorBin in
  let? guard := if negb (String.eqb armorBin "") then Ok (ArmorGuard armorBin)
                else match mode with
                     | ModeEnvelope | ModeDisabled => Ok AllowAllGuard
                     | _ => Err (TgArmorRequired mode)
                     end in
  let pairing := match mode with ModePairing => true | _ => false end in
  let config := Telegram.mkConfig signingKey x25519Pub orchPriv 0 0 0
                  (duration_or "AGENT_BUILDER_TELEGRAM_POLL_BACKOFF" 0) mode ownerID
                  (if pairing then FormatInt ownerID else "") pairing sink in
  Ok (mkTelegramInbound (NewAdapter config) store guard botToken baseURL chatID orchEdPriv opXPub
        match mode with ModeOpen => true | _ => false end).

(** [assembleTelegramInbound]. *)
Definition assembleTelegramInbound (sink : bool) (file : FileState) : result TgErr TelegramInbound * FileState :=
  match assembleTelegramAuthMode file with
  | (Err e, file) => (Err e, file)
  | (Ok (mode, store), file) =>
    match assembleTelegramOwnerID mode with
    | Err e => (Err e, file)
    | Ok ownerID =>
      match seed_owner mode ownerID store file with
      | (Err e, file) => (Err e, file)
      | (Ok store, file) => (assemble_channel mode store ownerID sink, file)
      end
    end
  end.

(** ** The whole *)

Inductive Inbound := InboundConsole | InboundTelegram (t : TelegramInbound).
Inductive ReporterChoice := LogReporter | TelegramReporter.

Inductive WiringErr :=
| WErrSigningKey (e : string)
| WErrPlanStore (e : string)
| WErrPlanner (choice : string)
| WErrRegistry (e : LoadErr)
| WErrAuditBin (e : string)
| WErrBaseConfig (e : ConfigErr)
| WErrTransport (e : string)
| WErrGoalMaxAttempts (raw : string)
| WErrClarifier (choice : string)
| WErrRunStore (e : string)
| WErrInbound (choice : string)
| WErrTelegram (e : TgErr).

(** [errors.Is(err, errUsageConfig)]. *)
Definition wiring_usage (e : WiringErr) : bool :=
  match e with
  | WErrPlanner _ | WErrGoalMaxAttempts _ | WErrClarifier _ | WErrInbound _ => true
  | WErrTelegram e => tg_usage e
  | _ => false
  end.

(** What the assembly asks outside: the worker signing key, the plan store, the audit
    program, the registry, the key pairs of the transport and the run store. *)
Record Outside := mkOutside {
  ou_signingKey : result string string;
  ou_planStore : option string;
  ou_auditBin : result string string;
  ou_registry : result LoadErr (list RegistryEntry);
  ou_transport : option string;
  ou_runStore : string -> option string;
  ou_tempSocket : string
}.

Record Wiring := mkWiring {
  wr_signingKey : string;
  wr_planner : PlannerChoice;
  wr_audit : option (string * string);
  wr_policy : PolicyChoice;
  wr_config : RunConfig.Config;
  wr_maxWorkers : Z;
  wr_maxGoals : Z;
  wr_goalMaxAttempts : Z;
  wr_approvalTimeout : Z;
  wr_clarifier : ClarifierChoice;
  wr_requireApproval : bool;
  wr_runStore : option string;
  wr_analyzer : option AnalyzerChoice;
  wr_inbound : Inbound;
  wr_coreReporter : ReporterChoice;
  wr_loopReporter : ReporterChoice
}.

Definition or_fail (e : option string) (f : string -> WiringErr) : result WiringErr () :=
  match e with Some e => Err (f e) | None => Ok () end.

(** [buildLLMSeams]: the registry must load. *)
Definition buildLLMSeams (out : Outside) : result WiringErr () :=
  match ou_registry out with Err e => Err (WErrRegistry e) | Ok _ => Ok () end.

(** [inboundFromEnv]. *)
Definition inboundFromEnv (sink : bool) (file : FileState) : result WiringErr Inbound * FileState :=
  let choice := TrimSpace (getenv "AGENT_BUILDER_INBOUND") in
  if bool_decide (choice ∈ [""; "env"]) then (Ok InboundConsole, file)
  else if String.eqb choice "telegram" then
    match assembleTelegramInbound sink file with
    | (Err e, file) => (Err (WErrTelegram e), file)
    | (Ok t, file) => (Ok (InboundTelegram t), file)
    end
  else (Err (WErrInbound choice), file).

(** [assembleOrchestrate] up to the inbound channel. The inbound channel is left to the
    caller, as the reporter of the core is chosen before it. *)
Definition assemble_core (out : Outside) : result WiringErr (Inbound -> Wiring) :=
  let? signingKey := match ou_signingKey out with Err e => Err (WErrSigningKey e) | Ok k => Ok k end in
  let? _ := or_fail (ou_planStore out) WErrPlanStore in
  let? planner := match plannerFromEnv with Err c => Err (WErrPlanner c) | Ok p => Ok p end in
  let? _ := match planner with LLMPlanner => buildLLMSeams out | StructuredPlanner => Ok () end in
  let recordPath := TrimSpace (getenv "AGENT_BUILDER_AUDIT_RECORD") in
  let? audit := if String.eqb recordPath "" then Ok None
                else match ou_auditBin out with Err e => Err (WErrAuditBin e) | Ok b => Ok (Some (b, recordPath)) end in
  let policy := policyClientFromEnv (ou_tempSocket out) in
  let? config := match ConfigFromEnv ParseDuration (ou_registry out) getenv with
                 | Err e => Err (WErrBaseConfig e) | Ok c => Ok c end in
  let? _ := or_fail (ou_transport out) WErrTransport in
  let? attempts := match parseGoalMaxAttempts with Err r => Err (WErrGoalMaxAttempts r) | Ok n => Ok n end in
  let? _ := if needsSeams then buildLLMSeams out else Ok () in
  let? clarifier := match clarifierFromEnv with Err c => Err (WErrClarifier c) | Ok c => Ok c end in
  let dir := TrimSpace (getenv "AGENT_BUILDER_RUN_STORE_DIR") in
  let? runStore := if String.eqb dir "" then Ok None
                   else match ou_runStore out dir with Some e => Err (WErrRunStore e) | None => Ok (Some dir) end in
  Ok (fun inbound =>
    mkWiring signingKey planner audit policy config
      (envInt "AGENT_BUILDER_MAX_WORKERS" defaultMaxWorkers) (envInt "AGENT_BUILDER_MAX_GOALS" defaultMaxGoals)
      attempts (duration_or "AGENT_BUILDER_APPROVAL_TIMEOUT" defaultApprovalTimeout) clarifier requireApproval runStore
      (goalAnalyzerFromEnv needsSeams) inbound LogReporter
      match inbound with InboundTelegram _ => TelegramReporter | InboundConsole => LogReporter end).

(** [assembleOrchestrate]. *)
Definition assembleOrchestrate (out : Outside) (file : FileState) : result WiringErr Wiring * FileState :=
  match assemble_core out with
  | Err e => (Err e, file)
  | Ok core =>
    let sink := negb (String.eqb (TrimSpace (getenv "AGENT_BUILDER_AUDIT_RECORD")) "") in
    match inboundFromEnv sink file with
    | (Err e, file) => (Err e, file)
    | (Ok inbound, file) => (Ok (core inbound), file)
    end
  end.
End Settings.

(** ** What an assembly guarantees *)

Section Guarantees.
Variables (uni : string -> string) (ParseDuration : string -> option Z) (getenv : string -> string).
Variables (marshal : list Z -> string) (unmarshal : string -> option (list Z))
          (fault1 fault2 : option PersistFault) (LookPath : string -> result string string).

Lemma envInt_positive key def : 1 <= def <= int64_max -> 1 <= envInt getenv key def <= int64_max.
Proof.
  intros D. unfold envInt. destruct (String.eqb _ ""); [done|]. destruct (ParseInt _) as [n|] eqn:P; [|done].
  apply ParseInt_range, in_int64_spec in P. destruct (n <? 1) eqn:L; to_prop; [done|]. lia.
Qed.

Lemma attempts_positive n : parseGoalMaxAttempts getenv = Ok n -> 1 <= n <= int64_max.
Proof.
  unfold parseGoalMaxAttempts. destruct (String.eqb _ ""); [intros [= <-]; unfold int64_max, defaultGoalMaxAttempts; lia|].
  destruct (ParseInt _) as [m|] eqn:P; [|done]. apply ParseInt_range, in_int64_spec in P.
  destruct (m <? 1) eqn:L; to_prop; [done|]. intros [= <-]. lia.
Qed.

Lemma duration_positive key def : 0 < def -> 0 < duration_or ParseDuration getenv key def.
Proof.
  intros D. unfold duration_or. destruct (String.eqb _ ""); [done|]. destruct (ParseDuration _); [|done].
  destruct (0 <? z) eqn:L; to_prop; done.
Qed.

Lemma required_key_size name size k : required_key getenv name size = Ok k -> String.length k = size.
Proof.
  unfold required_key, required. destruct (String.eqb _ ""); [done|]. cbn.
  destruct (hex_decode _) as [b|]; [|done]. destruct (Nat.eqb_spec (String.length b) size); [|done]. by intros [= <-].
Qed.

(** The guard of a channel: armor, or a mode that authenticates or refuses everyone. *)
Definition guarded (t : TelegramInbound) : Prop :=
  match ti_guard t with
  | ArmorGuard bin => bin <> "" /\ LookPath (TrimSpace (getenv "AGENT_BUILDER_TELEGRAM_ARMOR_BIN")) = Ok bin
  | AllowAllGuard => cf_AuthMode (ti_config t) = ModeEnvelope \/ cf_AuthMode (ti_config t) = ModeDisabled
  end.

Definition keyed (t : TelegramInbound) : Prop :=
  String.length (cf_TrustedSigningKey (ti_config t)) = 32%nat /\ String.length (cf_TrustedX25519Pub (ti_config t)) = 32%nat /\
  String.length (cf_OrchestratorPriv (ti_config t)) = 32%nat /\ String.length (ti_orchEdPriv t) = 64%nat /\
  String.length (ti_opXPub t) = 32%nat /\ ti_botToken t <> "" /\ ti_chatID t <> "".

Lemma channel_ok mode store ownerID sink t :
  mode <> ModeOther "" -> assemble_channel ParseDuration getenv LookPath mode store ownerID sink = Ok t ->
  guarded t /\ keyed t /\ cf_AuthMode (ti_config t) = mode /\ ti_store t = store /\ cf_OwnerID (ti_config t) = ownerID /\
  0 < cf_PollBackoff (ti_config t) /\ ti_openWarning t = match mode with ModeOpen => true | _ => false end.
Proof.
  intros M. unfold assemble_channel, required.
  destruct (String.eqb (TrimSpace (getenv "AGENT_BUILDER_TELEGRAM_BOT_TOKEN")) "") eqn:B; [done|]. cbn [String.eqb].
  destruct (String.eqb (TrimSpace (getenv "AGENT_BUILDER_TELEGRAM_CHAT_ID")) "") eqn:C; [done|].
  destruct (required_key getenv "AGENT_BUILDER_TELEGRAM_SIGNING_KEY" 32) as [k1|] eqn:K1; [|done].
  destruct (required_key getenv "AGENT_BUILDER_TELEGRAM_X25519_PUB" 32) as [k2|] eqn:K2; [|done].
  destruct (required_key getenv "AGENT_BUILDER_TELEGRAM_ORCH_PRIV" 32) as [k3|] eqn:K3; [|done].
  destruct (required_key getenv "AGENT_BUILDER_TELEGRAM_ORCH_ED_PRIV" 64) as [k4|] eqn:K4; [|done].
  destruct (required_key getenv "AGENT_BUILDER_TELEGRAM_OP_X25519_PUB" 32) as [k5|] eqn:K5; [|done].
  apply required_key_size in K1, K2, K3, K4, K5. apply String.eqb_neq in B, C.
  unfold resolveTelegramArmorBin.
  assert (Mk : forall guard, Ok (E := TgErr) (mkTelegramInbound (NewAdapter (Telegram.mkConfig k1 k2 k3 0 0 0
      (duration_or ParseDuration getenv "AGENT_BUILDER_TELEGRAM_POLL_BACKOFF" 0) mode ownerID
      (if match mode with ModePairing => true | _ => false end then FormatInt ownerID else "")
      match mode with ModePairing => true | _ => false end sink)) store guard
      (TrimSpace (getenv "AGENT_BUILDER_TELEGRAM_BOT_TOKEN"))
      (or_default (TrimSpace (getenv "AGENT_BUILDER_TELEGRAM_BASE_URL")) "https://api.telegram.org")
      (TrimSpace (getenv "AGENT_BUILDER_TELEGRAM_CHAT_ID")) k4 k5
      match mode with ModeOpen => true | _ => false end) = Ok t ->
    (match guard with
     | ArmorGuard bin => bin <> "" /\ LookPath (TrimSpace (getenv "AGENT_BUILDER_TELEGRAM_ARMOR_BIN")) = Ok bin
     | AllowAllGuard => mode = ModeEnvelope \/ mode = ModeDisabled end) ->
    guarded t /\ keyed t /\ cf_AuthMode (ti_config t) = mode /\ ti_store t = store /\ cf_OwnerID (ti_config t) = ownerID /\
    0 < cf_PollBackoff (ti_config t) /\ ti_openWarning t = match mode with ModeOpen => true | _ => false end).
  { intros guard [= <-] G. unfold guarded, keyed, NewAdapter. cbn.
    split_and!; try done.
    - destruct guard; [done|]. destruct G as [-> | ->]; auto.
    - destruct mode as [| | | | |[|]]; done.
    - unfold default_pos. destruct (_ <=? 0) eqn:L; to_prop; lia. }
  destruct (String.eqb (TrimSpace (getenv "AGENT_BUILDER_TELEGRAM_ARMOR_BIN")) "") eqn:A.
  - cbn [String.eqb negb]. destruct mode; try done; intros E; apply (Mk AllowAllGuard); auto.
  - destruct (LookPath _) as [bin|] eqn:L; [|done]. destruct (String.eqb bin "") eqn:Eb.
    + cbn [negb]. destruct mode; try done; intros E; apply (Mk AllowAllGuard); auto.
    + cbn [negb]. apply String.eqb_neq in Eb. intros E. by apply (Mk (ArmorGuard bin)).
Qed.

Lemma seed_ids_grow parts s s' : seed_ids parts s = (None, s') -> st_approved s ⊆ st_approved s'.
Proof.
  revert s. induction parts as [|p parts IH]; intros s; cbn [seed_ids]; [by intros [= <-]|].
  destruct (String.eqb _ ""); [apply IH|]. unfold Add. destruct (Normalize _) as [id|]; [|done].
  intros H%IH. cbn in H. set_solver.
Qed.

(** What is known of the approved-sender store and its file after an assembly. *)
Definition stored (mode : Mode) (ownerID : Z) (store : option Store) (file file' : FileState) : Prop :=
  if ConsultsStore mode then
    exists s, store = Some s /\ file' = FileData (store_document marshal s) /\
      (forall d ids id, file = FileData d -> unmarshal d = Some ids -> id ∈ ids -> id ∈ st_approved s) /\
      (mode = ModePairing -> ownerID ∈ st_approved s /\ exists raw, Normalize raw = Ok ownerID)
  else store = None /\ file' = file.

Lemma mode_ok file mode store file' :
  assembleTelegramAuthMode getenv marshal unmarshal fault1 file = (Ok (mode, store), file') ->
  mode <> ModeOther "" /\
  if ConsultsStore mode then
    exists s, store = Some s /\ file' = FileData (store_document marshal s) /\
      forall d ids id, file = FileData d -> unmarshal d = Some ids -> id ∈ ids -> id ∈ st_approved s
  else store = None /\ file' = file.
Proof.
  unfold assembleTelegramAuthMode.
  destruct (ParseMode _) as [m|] eqn:P; [|done].
  assert (M : m <> ModeOther "") by (unfold ParseMode in P; repeat case_match; simplify_eq; done).
  destruct (ConsultsStore m) eqn:Cs; cbn [negb]; [|by intros [= <- <- <-]; rewrite Cs].
  destruct (String.eqb _ ""); [done|].
  destruct (Load unmarshal _ file) as [[e|] s0] eqn:L; [done|].
  assert (K : forall d ids id, file = FileData d -> unmarshal d = Some ids -> id ∈ ids -> id ∈ st_approved s0).
  { intros d ids id -> U I. unfold Load in L. rewrite U in L. injection L as <-. cbn. by apply elem_of_list_to_set. }
  assert (G : forall s, st_approved s0 ⊆ st_approved s -> (match Persist marshal s fault1 file with
     | (Some e, f) => (Err (TgStorePersist e), f) | (None, f) => (Ok (m, Some s), f) end) = (Ok (mode, store), file') ->
     mode <> ModeOther "" /\ if ConsultsStore mode then exists s, store = Some s /\ file' = FileData (store_document marshal s) /\
       forall d ids id, file = FileData d -> unmarshal d = Some ids -> id ∈ ids -> id ∈ st_approved s else store = None /\ file' = file).
  { intros s I. unfold Persist. destruct fault1 as [[]|]; try done. intros [= <- <- <-]. split; [done|]. rewrite Cs.
    exists s. split; [done|]. split; [done|]. intros d ids id F U Hid. apply I. by eapply K. }
  destruct (String.eqb (TrimSpace (getenv "AGENT_BUILDER_TELEGRAM_APPROVED_IDS")) ""); [by apply G|].
  destruct (seed_ids _ s0) as [[e|] s1] eqn:Sd; [done|]. apply G. by apply seed_ids_grow in Sd.
Qed.

Lemma owner_ok mode ownerID :
  assembleTelegramOwnerID getenv mode = Ok ownerID -> mode = ModePairing -> in_int64 ownerID = true /\ exists raw, Normalize raw = Ok ownerID.
Proof.
  intros H ->. unfold assembleTelegramOwnerID in H. destruct (String.eqb _ ""); [done|].
  destruct (Normalize _) as [id|] eqn:N; [|done]. injection H as <-. split; [|by eexists].
  unfold Normalize in N. destruct (String.eqb _ ""); [done|]. destruct (ParseInt _) eqn:P; [|done].
  injection N as <-. by eapply ParseInt_range.
Qed.

Lemma telegram_ok sink file t file' :
  assembleTelegramInbound ParseDuration getenv marshal unmarshal fault1 fault2 LookPath sink file = (Ok t, file') ->
  guarded t /\ keyed t /\
  stored (cf_AuthMode (ti_config t)) (cf_OwnerID (ti_config t)) (ti_store t) file file' /\
  0 < cf_PollBackoff (ti_config t) /\ (ti_openWarning t = true <-> cf_AuthMode (ti_config t) = ModeOpen).
Proof.
  unfold assembleTelegramInbound.
  destruct (assembleTelegramAuthMode _ _ _ _ file) as [[[mode store]|] file1] eqn:A; [|done].
  destruct (mode_ok _ _ _ _ A) as [M St].
  destruct (assembleTelegramOwnerID _ mode) as [ownerID|] eqn:O; [|done].
  destruct (seed_owner _ _ mode ownerID store file1) as [[store2|] file2] eqn:Sd; [|done]. intros [= C <-].
  destruct (channel_ok mode store2 ownerID sink t M C) as (G & K & -> & -> & -> & P & W).
  split_and!; try done; [|by rewrite W; destruct mode].
  unfold stored. pose proof (owner_ok mode ownerID O) as Own. unfold seed_owner in Sd.
  destruct mode; cbn [ConsultsStore] in *; try (injection Sd as <- <-; done).
  - injection Sd as <- <-. destruct St as (s & -> & -> & K'). exists s. split_and!; done.
  - destruct St as (s & -> & -> & K'). destruct (Own eq_refl) as [R Nm].
    unfold Add in Sd. rewrite Normalize_FormatInt in Sd by done. unfold Persist in Sd.
    destruct fault2 as [[]|]; try done. injection Sd as <- <-. eexists. split_and!; [done|done| |].
    + intros d ids id F U I. cbn. apply elem_of_union. right. by eapply K'.
    + intros _. split; [|done]. cbn. set_solver.
Qed.

(** An assembled core has the bounds of the environment. *)
Lemma core_ok out core :
  assemble_core uni ParseDuration getenv out = Ok core ->
  exists key planner audit policy config attempts clarifier store,
    ou_signingKey out = Ok key /\ parseGoalMaxAttempts getenv = Ok attempts /\
    core = fun inbound =>
      mkWiring key planner audit policy config
        (envInt getenv "AGENT_BUILDER_MAX_WORKERS" defaultMaxWorkers) (envInt getenv "AGENT_BUILDER_MAX_GOALS" defaultMaxGoals)
        attempts (duration_or ParseDuration getenv "AGENT_BUILDER_APPROVAL_TIMEOUT" defaultApprovalTimeout) clarifier
        (requireApproval uni getenv) store (goalAnalyzerFromEnv uni getenv (needsSeams uni getenv)) inbound LogReporter
        match inbound with InboundTelegram _ => TelegramReporter | InboundConsole => LogReporter end.
Proof.
  unfold assemble_core. destruct (ou_signingKey out) as [key|]; [|done].
  destruct (or_fail (ou_planStore out) _); [|done].
  destruct (plannerFromEnv getenv) as [planner|]; [|done]. cbv beta iota.
  destruct (match planner with LLMPlanner => _ | StructuredPlanner => _ end); [|done].
  destruct (if String.eqb (TrimSpace (getenv "AGENT_BUILDER_AUDIT_RECORD")) "" then _ else _) as [audit|]; [|done].
  destruct (ConfigFromEnv _ _ _) as [config|]; [|done]. cbv beta iota.
  destruct (or_fail (ou_transport out) _); [|done].
  destruct (parseGoalMaxAttempts getenv) as [attempts|]; [|done]. cbv beta iota.
  destruct (if needsSeams uni getenv then _ else _); [|done].
  destruct (clarifierFromEnv getenv) as [clarifier|]; [|done]. cbv beta iota.
  destruct (if String.eqb (TrimSpace (getenv "AGENT_BUILDER_RUN_STORE_DIR")) "" then _ else _) as [store|]; [|done].
  intros [= <-]. by eexists _, _, _, _, _, _, _, _.
Qed.

(** C27. Whatever the environment, a Telegram channel that is assembled has armor,
    or authenticates its envelopes, or refuses everyone; its keys have their sizes;
    the store of the modes that consult one is on disk, keeps every sender approved
    before, and approves the owner in pairing mode; the warning of the open mode is
    given exactly in that mode. *)
Theorem telegram_is_never_assembled_unguarded out file w file' :
  assembleOrchestrate uni ParseDuration getenv marshal unmarshal fault1 fault2 LookPath out file = (Ok w, file') ->
  match wr_inbound w with
  | InboundConsole => file' = file
  | InboundTelegram t =>
    guarded t /\ keyed t /\
    stored (cf_AuthMode (ti_config t)) (cf_OwnerID (ti_config t)) (ti_store t) file file' /\
    (ti_openWarning t = true <-> cf_AuthMode (ti_config t) = ModeOpen)
  end.
Proof.
  unfold assembleOrchestrate. destruct (assemble_core _ _ _ out) as [core|] eqn:C; [|done].
  assert (I : forall i, wr_inbound (core i) = i).
  { intros i. by destruct (core_ok out core C) as (? & ? & ? & ? & ? & ? & ? & ? & _ & _ & ->). }
  unfold inboundFromEnv. destruct (bool_decide _); [intros [= <- <-]; by rewrite I|].
  destruct (String.eqb _ "telegram"); [|done].
  destruct (assembleTelegramInbound _ _ _ _ _ _ _ _ file) as [[t|] file1] eqn:T; [|done].
  intros [= <- <-]. rewrite I. by destruct (telegram_ok _ _ _ _ T) as (? & ? & ? & _ & ?).
Qed.

(** The bounds of the control plane are positive machine integers whatever the
    environment says: no semaphore is made without a permit, no goal waits for a slot that
    cannot exist, and a goal is always attempted. *)
Theorem assembled_bounds_are_positive out file w file' :
  assembleOrchestrate uni ParseDuration getenv marshal unmarshal fault1 fault2 LookPath out file = (Ok w, file') ->
  1 <= wr_maxWorkers w <= int64_max /\ 1 <= wr_maxGoals w <= int64_max /\ 1 <= wr_goalMaxAttempts w <= int64_max /\
  0 < wr_approvalTimeout w /\ ou_signingKey out = Ok (wr_signingKey w).
Proof.
  unfold assembleOrchestrate. destruct (assemble_core _ _ _ out) as [core|] eqn:C; [|done].
  assert (B : forall i, 1 <= wr_maxWorkers (core i) <= int64_max /\ 1 <= wr_maxGoals (core i) <= int64_max /\
    1 <= wr_goalMaxAttempts (core i) <= int64_max /\ 0 < wr_approvalTimeout (core i) /\ ou_signingKey out = Ok (wr_signingKey (core i))).
  { intros i. destruct (core_ok out core C) as (? & ? & ? & ? & ? & ? & ? & ? & -> & N & ->). cbn. apply attempts_positive in N.
    split_and!; try (apply envInt_positive; unfold int64_max, defaultMaxWorkers, defaultMaxGoals; lia);
      try (by apply duration_positive); try done; lia. }
  destruct (inboundFromEnv _ _ _ _ _ _ _ _ file) as [[i|] file1]; [|done]. by intros [= <- <-].
Qed.
End Guarantees.

(** ** A concrete environment *)

Definition demo_hex (bytes : nat) : string := Nat.iter (2 * bytes) (fun s => String "a"%char s) "".
Definition demo_settings : list (string * string) :=
  [("AGENT_BUILDER_TASK_ROOT", "/tasks"); ("AGENT_BUILDER_WORKTREE", "/w"); (ClaudeCLIAuthEnv, "k");
   ("AGENT_BUILDER_PUBLISH_REMOTE", "origin"); ("AGENT_BUILDER_RUN_TIMEOUT", "10m"); ("AGENT_BUILDER_MAX_ATTEMPTS", "2");
   ("AGENT_BUILDER_MAX_WORKERS", "-3"); ("AGENT_BUILDER_MAX_GOALS", " 2 "); ("AGENT_BUILDER_INBOUND", "telegram");
   ("AGENT_BUILDER_TELEGRAM_BOT_TOKEN", "t"); ("AGENT_BUILDER_TELEGRAM_CHAT_ID", "9");
   ("AGENT_BUILDER_TELEGRAM_SIGNING_KEY", demo_hex 32); ("AGENT_BUILDER_TELEGRAM_X25519_PUB", demo_hex 32);
   ("AGENT_BUILDER_TELEGRAM_ORCH_PRIV", demo_hex 32); ("AGENT_BUILDER_TELEGRAM_ORCH_ED_PRIV", demo_hex 64);
   ("AGENT_BUILDER_TELEGRAM_OP_X25519_PUB", demo_hex 32); ("AGENT_BUILDER_TELEGRAM_APPROVED_STORE", "/a.json");
   ("AGENT_BUILDER_TELEGRAM_OWNER_ID", "+042")].
Definition demo_getenv (mode armor : string) (k : string) : string :=
  if String.eqb k "AGENT_BUILDER_TELEGRAM_AUTH_MODE" then mode
  else if String.eqb k "AGENT_BUILDER_TELEGRAM_ARMOR_BIN" then armor
  else default "" (snd <$> List.find (fun p => String.eqb k p.1) demo_settings).
Definition demo_outside : Outside := mkOutside (Ok "key") None (Err "no audit") (Ok []) None (fun _ => None) "/tmp/p.sock".
Definition demo_assemble (mode armor : string) : result WiringErr Wiring * FileState :=
  assembleOrchestrate id (fun s => Some 600) (demo_getenv mode armor) (fun ids => Join "," (map FormatInt ids))
    (fun s => option_map (fun n => [n]) (ParseInt (TrimSpace s))) None None (fun p => Ok p) demo_outside (FileData "7").
Definition demo_config : RunConfig.Config :=
  match ConfigFromEnv (fun s => Some 600) (Ok []) (demo_getenv "" "") with Ok c => c | Err _ => RunConfig.mkConfig
    "" "" "" "" "" "" "" "" "" "" 0 0 "" "" "" "" "" "" None "" "" "" "" "" "" "" "" "" "" "" end.
Definition demo_wiring (mode armor : string) : Wiring :=
  match (demo_assemble mode armor).1 with
  | Ok w => w
  | Err _ => mkWiring "" StructuredPlanner None DenyAll demo_config 0 0 0 0 HeuristicClarifier true None None InboundConsole LogReporter LogReporter
  end.

Lemma telegram_is_never_assembled_unguarded_witness :
  exists t, wr_inbound (demo_wiring "pairing" "/bin/armor") = InboundTelegram t /\
    guarded (demo_getenv "pairing" "/bin/armor") (fun p => Ok p) t /\
    (exists s, ti_store t = Some s /\ 7 ∈ st_approved s /\ 42 ∈ st_approved s).
Proof.
  pose proof (telegram_is_never_assembled_unguarded id (fun s => Some 600) (demo_getenv "pairing" "/bin/armor") (fun ids => Join "," (map FormatInt ids))
    (fun s => option_map (fun n => [n]) (ParseInt (TrimSpace s))) None None (fun p => Ok p) demo_outside (FileData "7")
    (demo_wiring "pairing" "/bin/armor") (FileData (String.append "7,42" (String nl ""))) ltac:(vm_compute; reflexivity)) as H.
  destruct (wr_inbound (demo_wiring "pairing" "/bin/armor")) as [|t] eqn:I; [exfalso; revert I; vm_compute; discriminate|].
  exists t. split; [reflexivity|]. destruct H as (G & _ & S & _). split; [exact G|].
  assert (M : cf_AuthMode (ti_config t) = ModePairing) by (revert I; vm_compute; intros [= <-]; reflexivity).
  assert (O : cf_OwnerID (ti_config t) = 42) by (revert I; vm_compute; intros [= <-]; reflexivity).
  unfold stored in S. rewrite M, O in S. destruct S as (s & -> & _ & K & W).
  exists s. split; [reflexivity|]. split; [|exact (proj1 (W eq_refl))].
  apply (K "7" [7] 7); [reflexivity..|]. by left.
Defined.

(** Without armor the pairing mode is a usage error, and the envelope mode is not. *)
Example pairing_requires_armor :
  (demo_assemble "pairing" "").1 = Err (WErrTelegram (TgArmorRequired ModePairing)) /\
  wiring_usage (WErrTelegram (TgArmorRequired ModePairing)) = true /\
  is_ok (demo_assemble "envelope" "").1 = true.
Proof. vm_compute. done. Qed.

Lemma assembled_bounds_are_positive_witness :
  1 <= wr_maxWorkers (demo_wiring "envelope" "") <= int64_max /\
  wr_maxWorkers (demo_wiring "envelope" "") = 4 /\ wr_maxGoals (demo_wiring "envelope" "") = 2.
Proof.
  split; [|vm_compute; split; reflexivity].
  exact (proj1 (assembled_bounds_are_positive id (fun s => Some 600) (demo_getenv "envelope" "") (fun ids => Join "," (map FormatInt ids))
    (fun s => option_map (fun n => [n]) (ParseInt (TrimSpace s))) None None (fun p => Ok p) demo_outside (FileData "7")
    (demo_wiring "envelope" "") (FileData "7") ltac:(vm_compute; reflexivity))).
Defined.

(** With the Telegram channel the control loop reports to it, but the core keeps the log
    reporter it was made with. *)
Example core_reports_to_the_log :
  wr_coreReporter (demo_wiring "envelope" "") = LogReporter /\ wr_loopReporter (demo_wiring "envelope" "") = TelegramReporter.
Proof. vm_compute. done. Qed.
