(* ===== verification/Wire.v ===== *)
(** * Services on their wires ([internal/vault/client.go], [internal/armor/guard.go])

    [do] of the vault client: one connection, one request on a line, one answer on a line;
    and [ProcessRunner.Run] of the armor adapter: a request on the standard input of a
    command, its answer on the standard output. [Vault] and [Ingestion] reason over any
    exchange; here are the ones of the code, with their encodings. The socket and the
    command are parameters. *)

From stdpp Require Import base gmap strings list sorting.
From Stdlib Require Import ZArith Lia Ascii.
From S2P Require Import Prelude GoStrings Encoding Json JsonWriter Seams Ingestion Vault ChatClient.

Local Open Scope Z_scope.

(** ** Texts on one line *)

Definition one_line (s : string) : bool := str_forall (fun c => negb (Ascii.eqb c nl)) s.

Lemma one_line_app s t : one_line (s +:+ t) = one_line s && one_line t.
Proof. apply str_forall_app. Qed.
Lemma one_line_cons c s : Ascii.eqb c nl = false -> one_line s = true -> one_line (String c s) = true.
Proof. unfold one_line. cbn. by intros -> ->. Qed.

Lemma not_nl a : byte_of a <> 10 -> Ascii.eqb a nl = false.
Proof. intros H. apply Ascii.eqb_neq. by intros ->. Qed.

Lemma rune_one_line r : (2 <= String.length r)%nat -> rune_len r = String.length r -> one_line r = true.
Proof.
  intros L E. assert (L4 : (String.length r <= 4)%nat) by (rewrite <- E; unfold rune_len; repeat case_match; lia).
  destruct r as [|a [|b [|c [|d [|e r]]]]]; cbn [String.length] in *; try lia;
    unfold rune_len in E; repeat case_match; try done; simplify_eq/=; try lia; to_prop;
    unfold in_range, is_byte in *; to_prop; repeat (apply one_line_cons; [apply not_nl; lia|]); done.
Qed.

Lemma body_one_line s t : string_body s t -> one_line t = true.
Proof.
  assert (Hx : forall a b c d r, hex4 a b c d = Some r -> one_line (String a (String b (String c (String d "")))) = true).
  { intros a b c d r. unfold hex4. destruct (hex_value a) eqn:Ea, (hex_value b) eqn:Eb, (hex_value c) eqn:Ec, (hex_value d) eqn:Ed; try done.
    assert (X : forall x n, hex_value x = Some n -> Ascii.eqb x nl = false).
    { intros x n H. apply Ascii.eqb_neq. intros ->. by vm_compute in H. }
    intros _. repeat (apply one_line_cons; [by eapply X|]). done. }
  induction 1 as [|c s t H _ IH|r s t L E _ IH|e c s t H _ IH|a b c d r s t H _ _ IH|a b c d a' b' c' d' r1 r2 r s t H H' _ _ _ IH]; [done|..].
  - apply one_line_cons; [|done]. apply Ascii.eqb_neq. intros ->. by vm_compute in H.
  - by rewrite one_line_app, IH, rune_one_line.
  - apply one_line_cons; [done|]. apply one_line_cons; [|done]. apply Ascii.eqb_neq. intros ->. by vm_compute in H.
  - apply Hx in H. change (one_line ("\u" +:+ String a (String b (String c (String d ""))) +:+ t) = true).
    by rewrite !one_line_app, H, IH.
  - apply Hx in H, H'. change (one_line ("\u" +:+ String a (String b (String c (String d ""))) +:+ "\u" +:+
      String a' (String b' (String c' (String d' ""))) +:+ t) = true). by rewrite !one_line_app, H, H', IH.
Qed.

(** A reader consumes bytes of one line. *)
Definition takes_one_line (r : option (string * string)) : Prop := forall l rest, r = Some (l, rest) -> one_line l = true.

Lemma span_one_line s : one_line (span_digits s).1 = true.
Proof.
  induction s as [|c s IH]; [done|]. cbn [span_digits]. destruct (is_digit c) eqn:E; [|done].
  destruct (span_digits s) as [d r]. apply one_line_cons; [|exact IH]. apply Ascii.eqb_neq. intros ->. by vm_compute in E.
Qed.
Lemma digits_one_line s : takes_one_line (digits1 s).
Proof.
  intros l rest. unfold digits1. pose proof (span_one_line s) as H. destruct (span_digits s) as [d r].
  destruct (String.eqb d ""); [done|]. by intros [= <- <-].
Qed.
Lemma glue_one_line p r : one_line p = true -> takes_one_line r -> takes_one_line (glue p r).
Proof. intros Hp H l rest. destruct r as [[s q]|]; [|done]. intros [= <- <-]. by rewrite one_line_app, Hp, (H _ _ eq_refl). Qed.
Lemma int_one_line s : takes_one_line (read_int s).
Proof.
  destruct s as [|c s]; [done|]. cbn [read_int]. destruct (Ascii.eqb c "0"); [by intros l rest [= <- <-]|apply digits_one_line].
Qed.
Lemma frac_one_line s : takes_one_line (read_frac s).
Proof.
  destruct s as [|c s]; [by intros l rest [= <- <-]|]. cbn [read_frac].
  destruct (Ascii.eqb c "."); [apply glue_one_line; [done|apply digits_one_line]|by intros l rest [= <- <-]].
Qed.
Lemma exp_one_line s : takes_one_line (read_exp s).
Proof.
  destruct s as [|c s]; [by intros l rest [= <- <-]|]. cbn [read_exp].
  destruct (Ascii.eqb c "e" || Ascii.eqb c "E") eqn:E; [|by intros l rest [= <- <-]].
  assert (Hc : Ascii.eqb c nl = false) by (apply Ascii.eqb_neq; intros ->; by vm_compute in E).
  destruct s as [|g s]; [done|]. destruct (Ascii.eqb g "+" || Ascii.eqb g "-") eqn:G; apply glue_one_line; try apply digits_one_line.
  - apply one_line_cons, one_line_cons; [done| |done]. apply Ascii.eqb_neq. intros ->. by vm_compute in G.
  - by apply one_line_cons.
Qed.
Lemma number_one_line l : number_text l -> one_line l = true.
Proof.
  unfold number_text, read_number. intros H.
  assert (Hs : exists sign s, one_line sign = true /\ (match l with
    | String c s1 => if Ascii.eqb c "-"%char then ("-", s1) else ("", l) | "" => ("", "") end) = (sign, s)).
  { destruct l as [|c l]; [by exists "", ""|]. destruct (Ascii.eqb c "-"); eexists _, _; (split; [|reflexivity]); done. }
  destruct Hs as (sign & s & Hs & E). rewrite E in H.
  destruct (read_int s) as [[i s1]|] eqn:Ei; [|done]. destruct (read_frac s1) as [[f s2]|] eqn:Ef; [|done].
  destruct (read_exp s2) as [[e s3]|] eqn:Ee; [|done]. injection H as <- _.
  by rewrite !one_line_app, Hs, (int_one_line _ _ _ Ei), (frac_one_line _ _ _ Ef), (exp_one_line _ _ _ Ee).
Qed.

Lemma string_one_line s : one_line (json_string s) = true.
Proof.
  unfold json_string. apply one_line_cons; [done|]. by rewrite one_line_app, (body_one_line _ _ (json_body_denotes s)).
Qed.
Lemma join_one_line ts : Forall (fun t => one_line t = true) ts -> one_line (Join "," ts) = true.
Proof.
  induction 1 as [|t ts Ht Hts IH]; [done|]. destruct ts as [|u ts]; [done|].
  change (Join "," (t :: u :: ts)) with (t +:+ "," +:+ Join "," (u :: ts)). by rewrite !one_line_app, Ht, IH.
Qed.
Lemma object_one_line ms : Forall (fun m => one_line m.2 = true) ms -> one_line (object_text ms) = true.
Proof.
  intros H. unfold object_text. rewrite !one_line_app, join_one_line; [done|]. apply Forall_map. eapply Forall_impl; [exact H|].
  intros [k t] Ht. unfold member_text. by rewrite !one_line_app, string_one_line.
Qed.

(** What is written is on one line. *)
Theorem written_json_is_one_line v : numbers_ok v -> one_line (write_json v) = true.
Proof.
  revert v. fix IH 1. intros [|b|l|s|vs|ms] H.
  - done.
  - by destruct b.
  - by apply number_one_line.
  - apply string_one_line.
  - cbn [write_json]. rewrite !one_line_app, join_one_line; [done|]. revert vs H. fix IHl 1. intros [|v vs] H; [constructor|].
    destruct H as [H1 H2]. constructor; [by apply IH|by apply IHl].
  - cbn [write_json]. rewrite !one_line_app, join_one_line; [done|]. revert ms H. fix IHl 1. intros [|[k v] ms] H; [constructor|].
    destruct H as [H1 H2]. constructor; [|by apply IHl]. by rewrite !one_line_app, string_one_line, (IH v H1).
Qed.

(** ** The requests of the vault client *)

(** [Binding], and [putRequest], [resolveRequest], [pingRequest]. *)
Definition binding_json (b : Binding) : json :=
  JObject [("host", JString (bi_Host b)); ("header", JString (bi_Header b)); ("scheme", JString (bi_Scheme b));
           ("env_var", JString (bi_EnvVar b))].
Definition vault_request_json (r : VaultRequest) : json :=
  match r with
  | VPing => JObject [("op", JString "ping")]
  | VPut ref value floor b =>
    JObject [("op", JString "put"); ("secret_ref", JString ref); ("value", JString value); ("injection_floor", JString floor);
             ("binding", binding_json b)]
  | VResolve ref ttl => JObject [("op", JString "resolve"); ("secret_ref", JString ref); ("ttl", int ttl)]
  end.

(** [wireError], of which the flag is read and not kept, behind a pointer; and
    [genericResponse]. *)
Definition zero_error : wireError := mkWireError "" "".
Definition error_fields : list (Field wireError) :=
  [("code", store_string (fun s e => mkWireError s (we_Message e)));
   ("message", store_string (fun s e => mkWireError (we_Code e) s));
   ("retryable", store_bool (fun _ e => e))].
Definition store_error (v : json) (old : option wireError) : option (option wireError) :=
  match v with
  | JNull => Some None
  | JObject ms => Some <$> store_members error_fields ms (default zero_error old)
  | _ => None
  end.
Definition zero_vault_response : VaultResponse := mkVaultResponse false "" 0 "" None.
Definition vault_response_fields : list (Field VaultResponse) :=
  [("ok", store_bool (fun b r => mkVaultResponse b (vr_Handle r) (vr_TTL r) (vr_InjectionMode r) (vr_Error r)));
   ("handle", store_string (fun s r => mkVaultResponse (vr_OK r) s (vr_TTL r) (vr_InjectionMode r) (vr_Error r)));
   ("ttl", store_int (fun n r => mkVaultResponse (vr_OK r) (vr_Handle r) n (vr_InjectionMode r) (vr_Error r)));
   ("injection_mode", store_string (fun s r => mkVaultResponse (vr_OK r) (vr_Handle r) (vr_TTL r) s (vr_Error r)));
   ("error", fun v r => match store_error v (vr_Error r) with
      | Some e => Some (mkVaultResponse (vr_OK r) (vr_Handle r) (vr_TTL r) (vr_InjectionMode r) e) | None => None end)].

(** ** The exchange *)

(** [bufio.Reader.ReadBytes] at a newline, of what arrives until reading [ends] with an
    error. *)
Fixpoint first_line (s : string) : option string :=
  match s with
  | "" => None
  | String c s => if Ascii.eqb c nl then Some (String c "") else String c <$> first_line s
  end.
Definition ReadBytes (arrived ends : string) : string * option string :=
  match first_line arrived with Some l => (l, None) | None => (arrived, Some ends) end.

Section Exchange.
(** The socket: dialing a path, setting the deadline, writing, what arrives and how it
    ends, closing; the text of a JSON error. *)
Context {X : Type} (dial : string -> X -> option string * X) (set_deadline : X -> option string * X)
        (send : string -> X -> option string * X) (receive : X -> (string * string) * X) (close : X -> X)
        (json_error : string -> string) (socketPath : string).

(** [json.Marshal] of a request, which has no value it cannot write, and the newline. *)
Definition payload (req : VaultRequest) : string := write_json (vault_request_json req) +:+ String nl "".

(** The part of [do] that has a connection. *)
Definition on_connection (req : VaultRequest) (x : X) : result string VaultResponse * X :=
  let '(e, x) := set_deadline x in
  match e with
  | Some e => (Err ("set deadline: " +:+ e), x)
  | None =>
    let '(e, x) := send (payload req) x in
    match e with
    | Some e => (Err ("write vault request: " +:+ e), x)
    | None =>
      let '((arrived, ends), x) := receive x in
      let '(line, err) := ReadBytes arrived ends in
      match err, line with
      | Some e, "" => (Err ("read vault response: " +:+ e), x)
      | _, _ =>
        match Unmarshal vault_response_fields zero_vault_response line with
        | Some r => (Ok r, x)
        | None => (Err ("parse vault response: " +:+ json_error line), x)
        end
      end
    end
  end.

(** [do]; the connection is closed on every return. *)
Definition Client_do (req : VaultRequest) (x : X) : result string VaultResponse * X :=
  let '(e, x) := dial socketPath x in
  match e with
  | Some e => (Err ("dial vault socket " +:+ socketPath +:+ ": " +:+ e), x)
  | None => let '(r, x) := on_connection req x in (r, close x)
  end.

(** A request is one line, and the value on it is the request: nothing in a secret can end
    the line or change another member. *)
Theorem request_is_one_line req : exists line, payload req = line +:+ String nl "" /\ one_line line = true /\
  parse_json line = Some (valid_json (vault_request_json req)).
Proof.
  assert (H : shallow 3 (vault_request_json req)).
  { destruct req; (apply shallow_object; members). apply shallow_object. members. }
  exists (write_json (vault_request_json req)). split; [done|]. split; [apply written_json_is_one_line, H|].
  apply (shallow_is_read_back 3); [exact H|lia].
Qed.

(** What a finished exchange did. *)
Lemma do_spec req x r x' : Client_do req x = (Ok r, x') ->
  exists x1 x2 x3 arrived ends x4, dial socketPath x = (None, x1) /\ set_deadline x1 = (None, x2) /\
    send (payload req) x2 = (None, x3) /\ receive x3 = ((arrived, ends), x4) /\ x' = close x4 /\
    Unmarshal vault_response_fields zero_vault_response (ReadBytes arrived ends).1 = Some r.
Proof.
  unfold Client_do, on_connection. destruct (dial socketPath x) as [[e|] x1] eqn:E1; [done|].
  destruct (set_deadline x1) as [[e|] x2] eqn:E2; [done|]. destruct (send (payload req) x2) as [[e|] x3] eqn:E3; [done|].
  destruct (receive x3) as [[arrived ends] x4] eqn:E4. destruct (ReadBytes arrived ends) as [line err] eqn:E5.
  intros H. exists x1, x2, x3, arrived, ends, x4. do 4 (split; [done|]).
  rewrite E5. destruct err, line; cbn [fst] in *; try done.
  all: destruct (Unmarshal _ _ _) as [v|]; [|discriminate H]. all: by injection H as <- <-.
Qed.

(** A put that reports success was delivered and acknowledged: the line with the secret was
    written to the socket, and the line that came back is an object that says ok and has
    no error. *)
Theorem put_is_delivered_and_acknowledged ref value floor b x x' :
  Vault_Put Client_do ref value floor b x = (None, x') ->
  exists x2 x3 arrived ends x4 r, send (payload (VPut ref value floor b)) x2 = (None, x3) /\
    receive x3 = ((arrived, ends), x4) /\ x' = close x4 /\
    Unmarshal vault_response_fields zero_vault_response (ReadBytes arrived ends).1 = Some r /\ vr_OK r = true /\ vr_Error r = None.
Proof.
  unfold Vault_Put. destruct (Client_do _ x) as [[r|e] x1] eqn:E; [|done].
  apply do_spec in E as (x2 & x3 & x4 & arrived & ends & x5 & _ & _ & Hs & Hr & -> & Hu). intros H.
  exists x3, x4, arrived, ends, x5, r. destruct (vr_Error r); [done|]. destruct (vr_OK r) eqn:Eo; [|done]. by injection H as <-.
Qed.

(** The text of an error of [Put] does not depend on the secret: if the socket and the
    daemon answer two values alike, [Put] returns the same. *)
Theorem put_errors_do_not_tell_the_secret ref v v' floor b x :
  (forall x, send (payload (VPut ref v floor b)) x = send (payload (VPut ref v' floor b)) x) ->
  Vault_Put Client_do ref v floor b x = Vault_Put Client_do ref v' floor b x.
Proof.
  intros H. unfold Vault_Put, Client_do, on_connection. destruct (dial socketPath x) as [[e|] x1]; [done|].
  destruct (set_deadline x1) as [[e|] x2]; [done|]. by rewrite H.
Qed.

(** An answer of the daemon, as the vault's protocol has it. *)
Definition answer_json (ok : bool) (handle : string) (ttl : Z) (mode : string) : json :=
  JObject [("ok", JBool ok); ("handle", JString handle); ("ttl", int ttl); ("injection_mode", JString mode)].

Lemma first_line_of l rest : one_line l = true -> first_line (l +:+ String nl rest) = Some (l +:+ String nl "").
Proof.
  unfold one_line. induction l as [|c l IH]; [done|]. cbn [str_forall]. intros [Hc Hl]%andb_true_iff. apply negb_true_iff in Hc.
  rewrite !str_app_cons. cbn [first_line]. by rewrite Hc, IH.
Qed.

Lemma line_is_parsed d v : shallow d v -> (d <= 100)%nat -> parse_json (write_json v +:+ String nl "") = Some (valid_json v).
Proof.
  intros [Hd Hn] H. apply (parse_renders "" _ _ (String nl "")); [done..|]. apply write_renders; [|done].
  apply (Nat.le_trans _ 100); [lia|]. apply Nat.leb_le. by vm_compute.
Qed.

(** A handle the daemon gives is the one [Resolve] returns, whatever follows its line. *)
Theorem resolved_handle_is_read ref ttl handle n mode rest ends x x1 x2 x3 x4 :
  handle <> "" -> to_valid handle = handle -> to_valid mode = mode -> in_int64 n = true ->
  dial socketPath x = (None, x1) -> set_deadline x1 = (None, x2) -> send (payload (VResolve ref ttl)) x2 = (None, x3) ->
  receive x3 = ((write_json (answer_json true handle n mode) +:+ String nl rest, ends), x4) ->
  Vault_Resolve Client_do ref ttl x = (Ok (mkResolveResult handle n mode), close x4).
Proof.
  intros Hne Hh Hm Hn H1 H2 H3 H4. unfold Vault_Resolve, Client_do, on_connection. rewrite H1, H2, H3, H4.
  assert (Hs : shallow 1 (answer_json true handle n mode)) by (apply shallow_object; members).
  unfold ReadBytes. rewrite first_line_of by apply written_json_is_one_line, Hs.
  unfold Unmarshal. rewrite (line_is_parsed 1) by (done || lia). cbn [answer_json valid_json int map]. rewrite Hh, Hm.
  change (to_valid "ok") with "ok". change (to_valid "handle") with "handle". change (to_valid "ttl") with "ttl".
  change (to_valid "injection_mode") with "injection_mode". cbn -[FormatInt ParseInt]. rewrite ParseInt_FormatInt by done. cbn.
  by destruct (String.eqb_spec handle "").
Qed.
End Exchange.

(** ** The armor command *)

(** A map of strings as an object: its members in the order of the keys. *)
Definition string_map_json (m : gmap string string) : json := go_map (map (fun '(k, v) => (k, JString v)) (map_to_list m)).

(** [json.Marshal] of the [Request]: all but the first two members are left out when they
    are empty; raw arguments must be JSON and are compacted. *)
Definition armor_request_members (rq : Armor.Request) (arguments : list (string * string)) : list (string * string) :=
  [("candidate_id", json_string (Armor.rq_CandidateID rq)); ("kind", json_string (Armor.rq_Kind rq))] ++
  nonempty "content" (Armor.rq_Content rq) ++ nonempty "source_uri" (Armor.rq_SourceURI rq) ++
  nonempty "media_type" (Armor.rq_MediaType rq) ++ nonempty "tool_name" (Armor.rq_ToolName rq) ++ arguments ++
  nonempty "target_uri" (Armor.rq_TargetURI rq) ++
  (if bool_decide (Armor.rq_Provenance rq = ∅) then [] else [("provenance", write_json (string_map_json (Armor.rq_Provenance rq)))]).
Definition armor_request_text (rq : Armor.Request) : option string :=
  if String.eqb (Armor.rq_Arguments rq) "" then Some (object_text (armor_request_members rq []))
  else match parse_json (Armor.rq_Arguments rq) with
       | Some _ => Some (object_text (armor_request_members rq [("arguments", compact Outside 0 (Armor.rq_Arguments rq))]))
       | None => None
       end.

(** [Finding], a map of strings (its entries are added to those it has), [Response]. *)
Definition finding_fields : list (Field Armor.Finding) :=
  [("category", store_string (fun s f => Armor.mkFinding s (Armor.fd_Severity f) (Armor.fd_Message f)));
   ("severity", store_string (fun s f => Armor.mkFinding (Armor.fd_Category f) s (Armor.fd_Message f)));
   ("message", store_string (fun s f => Armor.mkFinding (Armor.fd_Category f) (Armor.fd_Severity f) s))].
Fixpoint store_entries (ms : list (string * json)) (m : gmap string string) : option (gmap string string) :=
  match ms with
  | [] => Some m
  | (k, JString s) :: ms => store_entries ms (<[k := s]> m)
  | (k, JNull) :: ms => store_entries ms (<[k := ""]> m)
  | _ => None
  end.
Definition zero_armor_response : Armor.Response := Armor.mkResponse "" "" [] [] ∅.
Definition armor_response_fields : list (Field Armor.Response) :=
  let with_findings r fs := Armor.mkResponse (Armor.rp_Decision r) (Armor.rp_Reason r) fs (Armor.rp_Warnings r) (Armor.rp_Metadata r) in
  let with_metadata r m := Armor.mkResponse (Armor.rp_Decision r) (Armor.rp_Reason r) (Armor.rp_Findings r) (Armor.rp_Warnings r) m in
  [("decision", store_string (fun s r =>
      Armor.mkResponse s (Armor.rp_Reason r) (Armor.rp_Findings r) (Armor.rp_Warnings r) (Armor.rp_Metadata r)));
   ("reason", store_string (fun s r =>
      Armor.mkResponse (Armor.rp_Decision r) s (Armor.rp_Findings r) (Armor.rp_Warnings r) (Armor.rp_Metadata r)));
   ("findings", fun v r => match v with
      | JNull => Some (with_findings r [])
      | JArray vs => with_findings r <$> store_elements (store_struct finding_fields) (Armor.mkFinding "" "" "") vs (Armor.rp_Findings r)
      | _ => None end);
   ("warnings", fun v r =>
      (fun ws => Armor.mkResponse (Armor.rp_Decision r) (Armor.rp_Reason r) (Armor.rp_Findings r) ws (Armor.rp_Metadata r))
        <$> to_strings (Armor.rp_Warnings r) v);
   ("metadata", fun v r => match v with
      | JNull => Some (with_metadata r ∅)
      | JObject ms => with_metadata r <$> store_entries ms (Armor.rp_Metadata r)
      | _ => None end)].

(** What a command did: its output, its error output, the error of running it. *)
Record Finished := mkFinished { fi_stdout : string; fi_stderr : string; fi_err : option string }.

Section ProcessRunner.
(** The command with its standard input, to its end; the texts of the JSON errors. *)
Context (run_command : list string -> string -> Finished) (marshal_error : Armor.Request -> string) (json_error : string -> string).

(** [ProcessRunner.Run]. *)
Definition ProcessRunner_Run (command : list string) (rq : Armor.Request) : result string Armor.Response :=
  match command with
  | [] => Err "armor: missing command"
  | program :: _ =>
    if blank program then Err "armor: missing command"
    else match armor_request_text rq with
    | None => Err ("armor: marshal request: " +:+ marshal_error rq)
    | Some payload =>
      let f := run_command command payload in
      match fi_err f with
      | Some e =>
        let detail := TrimSpace (fi_stderr f) in
        let detail := if String.eqb detail "" then TrimSpace (fi_stdout f) else detail in
        let detail := if String.eqb detail "" then e else detail in
        Err ("armor: invocation failed: " +:+ e +:+ ": " +:+ detail)
      | None =>
        match Unmarshal armor_response_fields zero_armor_response (fi_stdout f) with
        | Some r => Ok r
        | None => Err ("armor: malformed output: " +:+ json_error (fi_stdout f))
        end
      end
    end
  end.
End ProcessRunner.

(** ** What the armor command is asked *)

Definition armor_request_json (rq : Armor.Request) : json :=
  JObject ([("candidate_id", JString (to_valid (Armor.rq_CandidateID rq))); ("kind", JString (to_valid (Armor.rq_Kind rq)))] ++
    nonempty_json "content" (Armor.rq_Content rq) ++ nonempty_json "source_uri" (Armor.rq_SourceURI rq) ++
    nonempty_json "media_type" (Armor.rq_MediaType rq) ++ nonempty_json "tool_name" (Armor.rq_ToolName rq) ++
    (if String.eqb (Armor.rq_Arguments rq) "" then [] else [("arguments", arguments_json (Armor.rq_Arguments rq))]) ++
    nonempty_json "target_uri" (Armor.rq_TargetURI rq) ++
    (if bool_decide (Armor.rq_Provenance rq = ∅) then [] else [("provenance", valid_json (string_map_json (Armor.rq_Provenance rq)))])).

Lemma string_map_shallow m : shallow 1 (string_map_json m).
Proof.
  apply shallow_object, Forall_forall. intros e He%sort_by_elem. apply list_elem_of_fmap in He as ([k v] & -> & _). apply shallow_string.
Qed.

(** Arguments that are JSON, or none. *)
Definition arguments_ok (t : string) : Prop := t = "" \/ exists v, renders 80 v t.

(** The text handed to the command is the request; the arguments of a tool call are the
    value that was given. *)
Theorem armor_is_asked_what_was_given rq : arguments_ok (Armor.rq_Arguments rq) ->
  exists text, armor_request_text rq = Some text /\ parse_json text = Some (armor_request_json rq).
Proof.
  intros Ha. set (args := if String.eqb (Armor.rq_Arguments rq) "" then [] else [("arguments", compact Outside 0 (Armor.rq_Arguments rq))]).
  assert (Hargs : Forall2 (fun m t => m.1 = to_valid t.1 /\ renders 82 m.2 t.2)
    (if String.eqb (Armor.rq_Arguments rq) "" then [] else [("arguments", arguments_json (Armor.rq_Arguments rq))]) args).
  { subst args. destruct Ha as [->|[v Hv]]; [constructor|]. destruct (String.eqb _ _); constructor; [|constructor]. split; [done|].
    cbn [snd]. unfold arguments_json. rewrite (text_is_parsed v) by (apply (text_le 80); [done|lia]). apply (proj1 renders_le 80%nat); [|lia].
    by apply compact_keeps_the_value. }
  exists (object_text (armor_request_members rq args)). split.
  - unfold armor_request_text. subst args. destruct Ha as [->|[v Hv]]; [done|].
    rewrite (text_is_parsed v) by (apply (text_le 80); [done|lia]). by destruct (String.eqb _ _).
  - apply text_is_parsed, (text_le 83); [|lia]. apply object_renders. repeat apply Forall2_app; try (by apply nonempty_written); try exact Hargs.
    + constructor; [split; [done|apply string_renders]|]. constructor; [|constructor]. split; [done|apply string_renders].
    + case_bool_decide; constructor; [|constructor]. split; [done|]. cbn [snd].
      destruct (string_map_shallow (Armor.rq_Provenance rq)) as [Hd Hn]. apply write_renders; [lia|done].
Qed.

(** ** What the armor command answers *)

Definition finding_json (f : Armor.Finding) : json :=
  JObject [("category", JString (Armor.fd_Category f)); ("severity", JString (Armor.fd_Severity f)); ("message", JString (Armor.fd_Message f))].
Definition armor_answer_json (r : Armor.Response) : json :=
  JObject [("decision", JString (Armor.rp_Decision r)); ("reason", JString (Armor.rp_Reason r));
           ("findings", JArray (map finding_json (Armor.rp_Findings r))); ("warnings", strings (Armor.rp_Warnings r));
           ("metadata", string_map_json (Armor.rp_Metadata r))].

Definition is_utf8 (s : string) : Prop := to_valid s = s.
Definition finding_utf8 (f : Armor.Finding) : Prop :=
  is_utf8 (Armor.fd_Category f) /\ is_utf8 (Armor.fd_Severity f) /\ is_utf8 (Armor.fd_Message f).
Definition answer_utf8 (r : Armor.Response) : Prop :=
  is_utf8 (Armor.rp_Decision r) /\ is_utf8 (Armor.rp_Reason r) /\ Forall finding_utf8 (Armor.rp_Findings r) /\
  Forall is_utf8 (Armor.rp_Warnings r) /\ map_Forall (fun k v => is_utf8 k /\ is_utf8 v) (Armor.rp_Metadata r).

Lemma utf8_strings ws : Forall is_utf8 ws -> valid_json (strings ws) = strings ws.
Proof.
  intros H. unfold strings. cbn [valid_json]. rewrite map_map. f_equal. apply map_ext_in. intros w Hw%list_elem_of_In.
  cbn [valid_json]. by rewrite (proj1 (Forall_forall _ _) H w Hw).
Qed.
Lemma valid_finding f : finding_utf8 f -> valid_json (finding_json f) = finding_json f.
Proof. intros (H1 & H2 & H3). cbn [finding_json valid_json map]. by rewrite H1, H2, H3. Qed.
Lemma valid_string_map m : map_Forall (fun k v => is_utf8 k /\ is_utf8 v) m -> valid_json (string_map_json m) = string_map_json m.
Proof.
  intros H. unfold string_map_json, go_map. cbn [valid_json]. f_equal. rewrite <- (map_id (sort_by _ _)) at 2. apply map_ext_in.
  intros e He%list_elem_of_In%sort_by_elem. apply list_elem_of_fmap in He as ([k v] & -> & He%elem_of_map_to_list).
  apply H in He as [Hk Hv]. cbn [valid_json]. by rewrite Hk, Hv.
Qed.

Lemma entries_stored (l : list (string * string)) m : store_entries (map (fun '(k, v) => (k, JString v)) l) m = Some (foldl (fun m e => <[e.1 := e.2]> m) m l).
Proof. revert m. induction l as [|[k v] l IH]; intros m; [done|]. apply IH. Qed.

(** Entries with keys of their own may come in any order. *)
Lemma entries_of_map (m m0 : gmap string string) ms : ms ≡ₚ map (fun '(k, v) => (k, JString v)) (map_to_list m) -> store_entries ms m0 = Some (m ∪ m0).
Proof.
  intros H. apply Permutation_map_inv in H as (l & -> & Hl). rewrite entries_stored. f_equal.
  assert (Hn : NoDup l.*1) by (rewrite <- Hl; apply NoDup_fst_map_to_list).
  rewrite <- (list_to_map_to_list m), (list_to_map_proper (map_to_list m) l) by (done || apply NoDup_fst_map_to_list).
  clear Hl. revert m0. induction l as [|[k v] l IH]; intros m0; [symmetry; apply map_empty_union|].
  apply NoDup_cons in Hn as [Hk Hn]. rewrite list_to_map_cons. cbn [foldl fst snd]. rewrite IH by done.
  rewrite <- insert_union_r by (by apply not_elem_of_list_to_map). by rewrite insert_union_l.
Qed.

Lemma strings_stored ws : to_strings [] (strings ws) = Some ws.
Proof. unfold to_strings, strings. induction ws as [|w ws IH]; [done|]. cbn [map to_strings_from tail]. by rewrite IH. Qed.
Lemma findings_stored fs :
  store_elements (store_struct finding_fields) (Armor.mkFinding "" "" "") (map finding_json fs) [] = Some fs.
Proof. induction fs as [|[c s m] fs IH]; [done|]. cbn [map store_elements head tail default]. by rewrite IH. Qed.

(** An answer is read as it was meant. *)
Theorem armor_answer_is_read r : answer_utf8 r ->
  Unmarshal armor_response_fields zero_armor_response (write_json (armor_answer_json r)) = Some r.
Proof.
  intros (H1 & H2 & H3 & H4 & H5). unfold Unmarshal. rewrite (shallow_is_read_back 3); [|apply shallow_object; members|lia].
  - assert (E : valid_json (armor_answer_json r) = armor_answer_json r).
    { unfold armor_answer_json. cbn [valid_json map]. rewrite H1, H2, utf8_strings, valid_string_map, map_map by done. do 5 f_equal.
      f_equal. apply map_ext_in. intros f Hf%list_elem_of_In. apply valid_finding. by apply (proj1 (Forall_forall _ _) H3). }
    rewrite E. unfold armor_answer_json, string_map_json, go_map.
    cbn -[to_strings store_elements store_entries strings map sort_by map_to_list]. rewrite findings_stored.
    cbn -[to_strings store_entries strings map sort_by map_to_list]. rewrite strings_stored.
    cbn -[store_entries map sort_by map_to_list]. rewrite (entries_of_map (Armor.rp_Metadata r)) by apply sort_by_perm.
    cbn. rewrite map_union_empty. by destruct r.
  - apply shallow_array, Forall_forall. intros v Hv. apply list_elem_of_fmap in Hv as (f & -> & _). apply shallow_object. members.
  - destruct (string_map_shallow (Armor.rp_Metadata r)) as [Hd Hn]. split; [lia|done].
Qed.

(** ** From the command to the release *)

Section Release.
Context (run_command : list string -> string -> Finished) (marshal_error : Armor.Request -> string) (json_error : string -> string).
Notation Run := (ProcessRunner_Run run_command marshal_error json_error).

(** A run without an error: a program was named, the request has a text, the command was
    given exactly that and succeeded, and its output is the answer. *)
Lemma armor_run_spec command rq r : Run command rq = Ok r <->
  exists program args text, command = program :: args /\ blank program = false /\ armor_request_text rq = Some text /\
    fi_err (run_command command text) = None /\
    Unmarshal armor_response_fields zero_armor_response (fi_stdout (run_command command text)) = Some r.
Proof.
  unfold ProcessRunner_Run. split.
  - destruct command as [|program args]; [done|]. destruct (blank program) eqn:Eb; [done|].
    destruct (armor_request_text rq) as [text|] eqn:Et; [|done]. destruct (fi_err _) eqn:Ee; [done|].
    destruct (Unmarshal _ _ _) eqn:Eu; [|done]. intros [= <-]. by exists program, args, text.
  - intros (program & args & text & -> & Hb & Ht & He & Hu). by rewrite Hb, Ht, He, Hu.
Qed.

(** Content passes the armor guard only if the command was asked about it and succeeded,
    and answered a clean decision without findings: what it read is the JSON of the very
    candidate that is released. *)
Theorem content_is_released_only_by_a_clean_answer uni command before after entry_err timed_out c c' :
  ReleaseContent (ReviewContent (Some (Armor.DecideContent uni (Some (Run command)) before after)) entry_err timed_out c) = Some c' ->
  c' = c /\ exists program args text r, command = program :: args /\ blank program = false /\
    parse_json text = Some (armor_request_json (Armor.content_request c)) /\
    fi_err (run_command command text) = None /\
    Unmarshal armor_response_fields zero_armor_response (fi_stdout (run_command command text)) = Some r /\
    Armor.rp_Findings r = [] /\ ToLower uni (TrimSpace (Armor.rp_Decision r)) ∈ ["allow"; "ok"; "clean"; "pass"].
Proof.
  intros (-> & _ & _ & _ & _ & run & r & [= <-] & Hr & Hf & Hd)%content_enters_only_when_armor_is_clean.
  split; [done|]. apply armor_run_spec in Hr as (program & args & text & -> & Hb & Ht & He & Hu).
  destruct (armor_is_asked_what_was_given (Armor.content_request c) ltac:(by left)) as (text' & Ht' & Hp).
  rewrite Ht' in Ht. injection Ht as ->. by exists program, args, text, r.
Qed.

(** Conversely a clean answer, in time, releases it. *)
Theorem clean_answer_releases_content uni program args c r text :
  blank program = false -> armor_request_text (Armor.content_request c) = Some text ->
  run_command (program :: args) text = mkFinished (write_json (armor_answer_json r)) "" None ->
  answer_utf8 r -> Armor.rp_Findings r = [] -> ToLower uni (TrimSpace (Armor.rp_Decision r)) ∈ ["allow"; "ok"; "clean"; "pass"] ->
  ReleaseContent (ReviewContent (Some (Armor.DecideContent uni (Some (Run (program :: args))) None None)) None None c) = Some c.
Proof.
  intros Hb Ht Hc Hu Hf Hd. apply content_enters_only_when_armor_is_clean. split_and!; try done. exists (Run (program :: args)), r.
  split_and!; try done. apply armor_run_spec. exists program, args, text. rewrite Hc. split_and!; try done. by apply armor_answer_is_read.
Qed.
End Release.

(** The guard reads the content as UTF-8 text: contents that differ only in bytes that
    are not have one request, and so one verdict, though each is released as it is. *)
Example guard_does_not_see_invalid_bytes :
  let c s := mkContent "c1" (String (byte_char s) "") "https://h/" "text/plain" "" (mkProvenance "" "") in
  armor_request_text (Armor.content_request (c 0xFF)) = armor_request_text (Armor.content_request (c 0xFE)) /\
  c 0xFF <> c 0xFE.
Proof. split; [by vm_compute|discriminate]. Qed.

(** A daemon that repeats the secret in its error puts it into the error of [Put]. *)
Example daemon_may_tell_the_secret ref v floor b :
  Vault_Put (fun req (x : unit) => (Ok (mkVaultResponse false "" 0 ""
    (Some (mkWireError "" match req with VPut _ value _ _ => value | _ => "" end))), x)) ref v floor b tt =
  (Some ("vault put " +:+ ref +:+ ": " +:+ v), tt).
Proof. reflexivity. Qed.

(** ** Examples *)

Definition demo_content : ContentCandidate :=
  mkContent "c1" "text" "https://h/" "text/plain" "" (mkProvenance "t1" "").
Definition demo_clean : Armor.Response := Armor.mkResponse "Clean " "" [] ["w"] {["model" := "m"]}.
Definition demo_armor (_ : list string) (_ : string) : Finished := mkFinished (write_json (armor_answer_json demo_clean)) "" None.

Lemma content_is_released_only_by_a_clean_answer_witness :
  exists text, parse_json text = Some (armor_request_json (Armor.content_request demo_content)) /\
    fi_err (demo_armor ["armor"] text) = None.
Proof.
  destruct (content_is_released_only_by_a_clean_answer demo_armor (fun _ => "") (fun _ => "") (fun s => s) ["armor"] None None None None
    demo_content demo_content) as (_ & program & args & text & r & _ & _ & Hp & He & _).
  - by vm_compute.
  - exists text. by split.
Defined.
